(* ===== verification/_CoqProject ===== *)
-Q . S2P
Prelude.v
Float.v
Types.v
Env.v
Text.v
Split.v
Base64.v
Paths.v
Breaker.v
HostBreaker.v
Scoring.v
Quota.v
Registry.v
Affinity.v
Admission.v
Fallback.v
QuotaProviders.v
QuotaPolicy.v
QuotaRouting.v
Health.v
Eligibility.v
TraceRing.v
Trace.v
Stream.v
Errors.v
Counters.v
Http.v
Upstream.v
UpstreamSpec.v
Planner.v
Dispatch.v
DispatchSpec.v
Json.v
Request.v
Guardrail.v
Prompt.v
ToolCap.v
Rules.v
Observation.v
Policy.v
Route.v
Files.v
ScoreStore.v
Vault.v
Credentials.v
ModelPolicy.v
LoadBalancer.v
Update.v
Net.v
AdminSessions.v
AdminProviders.v
Security.v
Server.v
Exposition.v
CompactTools.v
Deployer.v
Login.v
Doctor.v
Flags.v
Setup.v
Chat.v
Keepalive.v
SideEffects.v
MasterKeys.v
Run.v
Service.v
Signing.v
Exporters.v
Classifier.v
Main.v
Handlers.v
