(* ===== verification/Prelude.v ===== *)
(** * CalvoProxy: a verified model of the proxy

    CalvoProxy is a proxy in front of language-model providers.  For each
    request it plans a chain of attempts (a provider and a model each), drops
    those that cannot or should not run, orders the rest, reserves upstream
    quota for the first, and runs them one after the other until one answers,
    keeping circuit breakers, reliability scores, quota buckets and session
    affinities up to date on the way.  The decision logic is the Go package
    src/internal/router; the server with its gates and its admin console, the
    key vault and the commands around them are src/cmd and
    src/internal/secretstore.  This library models both.

    ** The parts, and how they interact

    A request arrives at the mux ([Server]), which gates what shows internals
    ([Security], [Net]), picks the key the request may spend, and hands proxy
    paths to the router; the other paths have the handlers of [Handlers].
    There it enters [Route]: it passes the admission
    semaphore ([Admission]), its body is decoded ([Json]), the prompt picks a
    profile ([Prompt], [Planner], over the model policy of [ModelPolicy]), the
    operation it asks for is read off it ([Classifier]), the policy authorizes
    it ([Policy], with the engine of [Rules] and the records of [Observation],
    exported by [Exporters]), and the body is prepared ([Request], [Guardrail]).
    [Dispatch] then plans its chain ([Planner], over the profiles of
    [Registry]), clips tool results ([ToolCap]), drops the models without the
    needed capability or with too small a context window ([Eligibility]) and
    those whose circuit is open ([Breaker]).  What is left is ranked by
    reliability and balance ([Scoring]), with the session's last route first
    ([Affinity]), grouped by provider and ordered by the pressure on the
    providers' quotas ([QuotaRouting], [QuotaPolicy], over the ledger of
    [Quota]); the first attempt is reserved in the ledger.  The fallback loop
    ([Fallback]) executes the chain; an attempt ([Upstream]) calls the provider
    through a per-host breaker ([HostBreaker]), classifies what went wrong
    ([Errors]), or writes the answer, buffered or streamed ([Http], [Stream]);
    the answer is read for quota facts ([QuotaProviders]) and the ticket is
    settled; counters and the route trace are kept ([Counters], [Trace]).  When
    nothing can run now, the dispatch waits for a quota reset within its
    budget.  The finished decision is kept in a ring ([TraceRing]).

    Beside the requests, scores are saved and restored ([ScoreStore]) by the
    atomic writers of [Files]; provider keys live in the encrypted vault
    ([Vault]), which start-up, login and logout use through an interface
    ([Credentials]), as does the console ([AdminSessions], [AdminProviders]);
    the page of metrics is [Exposition].  [Service] builds all this from the
    environment, refreshes the model catalogue and closes it again, and [Main]
    is the process around it.  The subcommands are [Login], [Doctor], [Setup],
    [Chat], [Update] and [CompactTools]; the other binaries are [LoadBalancer],
    [Deployer] with the commands of [Run], [Keepalive], and the release tools
    of [Signing].

    ** Files

    - [Prelude] (this file): 64-bit integers with their wrap-around, time as
      nanoseconds since the zero time, the string functions of the standard
      library that are used, stable sorting, sums over maps, automation.
    - [Float]: IEEE binary64 by the standard library's [SpecFloat], with the
      order lemmas the scores and the ranking need.
    - [Types]: router_types.go and the retry policy of router_policy_types.go.
    - [Env]: router_policy_env.go; settings and the bridge of legacy names.
    - [Text], [Split], [Json]: strings beyond this prelude, cutting and joining
      with their laws, and decoded JSON bodies.
    - [Base64], [Paths]: encoding/base64 and path/filepath as the sources use
      them.
    - [Breaker]: router_breaker.go and router_provider_breaker.go; the maps
      guarded by breakerMu are [RouterState], a method that takes the write
      lock is a function of it, and [tryStartAttempt]'s two lock sections are
      interleaved by the step relation [gstep].
    - [HostBreaker]: GlobalBreakerTransport.RoundTrip, split at its lock
      sections into [admitHost] and [resolve], interleaved by [hstep].
    - [Scoring]: router_scoring.go.
    - [Quota]: router_quota.go; buckets live in a heap because tickets and the
      key map share them.
    - [Registry]: router_provider_registry.go and router_targets.go.
    - [Affinity]: router_affinity.go, with its specification as a list.
    - [Admission]: router_admission.go.
    - [Fallback]: router_fallback.go; the world an attempt acts on is
      abstract, an attempt's executor a finite tree, and the interface
      [TicketStore] says what the loop needs of the ledger.
    - [QuotaProviders]: router_quota_providers.go.
    - [QuotaPolicy], [QuotaRouting]: router_quota_routing.go.
    - [Health]: the reports of router_breaker.go over all circuits.
    - [Eligibility]: router_capabilities.go, router_context_window.go,
      router_profile_timeout.go, the capability filter of router.go.
    - [TraceRing], [Trace]: router_trace_ring.go and router_trace.go.
    - [Stream]: router_stream.go; the copy of a stream is a machine over the
      races of its select and the writes to the client, which take time.
    - [Errors], [Counters], [Http]: router_provider_error.go and the
      classifiers of router_breaker.go; router_counters.go; router_http.go.
    - [Upstream]: router_upstream.go as programs ([prog]) over the state of the
      service ([world]); [UpstreamSpec] has its theorems and the triples
      ([leads]) they are proved with.
    - [Planner]: router_model_attempts.go and the profile selection of
      router.go.
    - [Dispatch], [DispatchSpec]: dispatchChain of router.go, with
      executeFallbacks and holdForQuotaReset.
    - [Request], [Guardrail], [Prompt], [ToolCap]: router_policy_request.go,
      router_reasoning.go, the provider adapters; router_policy_prompt.go;
      router_compress.go and router_response_transform.go.
    - [SideEffects]: router_side_effects.go, as the commands it runs.
    - [Rules]: policyrules/generated_policy.go and policyvocab.
    - [Observation], [Policy]: router_policy_observation.go; the authorization
      of operational_policy.go with its facts, limits and configuration.
    - [Classifier]: router_http_classifier.go, the table of router_policy.go
      and the adapter of the vendored rules that applies it.
    - [Exporters]: the counters, the histogram and the span attributes of
      router_policy_observation.go, and the log of router_policy_errors.go.
    - [Route]: RouteRequestWithProvider of router.go and router_tunnels.go.
    - [ModelPolicy]: the vendored cervo-model-policy, router_policy_model.go
      and the state it leaves in the service, with its reload.
    - [Files]: a disk with directories, open files and crashes at every system
      call, the entry of the directory itself included, and the three writers
      that replace a file, with the Windows form of the vault's, which syncs no
      directory; [triple] is their program logic.
    - [ScoreStore]: router_scoring_store.go.
    - [Vault]: secretstore/vault.go and types.go over that disk.
    - [MasterKeys]: masterkey_linux.go, masterkey_windows.go and
      masterkey_darwin.go; the last two as machines over what processes share.
    - [Credentials]: provider_credentials.go and keystore.go against the class
      [SecretStore], of which the vault is an instance.
    - [Net]: what the gates use of package net.
    - [AdminSessions], [AdminProviders]: admin_sessions.go and
      admin_providers.go.
    - [Security], [Server], [Exposition]: security.go; the mux, the gates, the
      recorder, the idle watchdog and the life of the process in main.go,
      metrics.go, idle.go and internal/app; the two writers of the metrics.
    - [Service]: NewRouterService and Close of router.go, the start of score
      persistence, and the fetch and refresh of router_capabilities.go.
    - [Handlers]: the handlers of newMux in main.go and internal/dashboard,
      and [ServeHTTP], the mux with them and the router.
    - [Main]: func main of main.go, with its deferred calls.
    - [Update]: update.go, verify.go and version.go; cryptography, archives and
      the JSON codec are the class [ReleaseTools].
    - [CompactTools]: compact_tools.go.
    - [Login], [Doctor], [Flags], [Setup], [Chat]: login.go; doctor.go; what
      the commands use of package flag; setup.go, whose interface is the record
      [Integration] with the laws [Careful] and [Located]; chat.go.
    - [LoadBalancer], [Deployer], [Keepalive]: cmd/lb, the balancer of cmd/run
      and cmd/keepalive-launcher.
    - [Run]: the two commands of cmd/run as programs over the environment, the
      state file, whose writes can fail and leave anything, the balancer and a
      log of what they start; the deployer and the balancer are two processes,
      and only the commands that reach the balancer change it.
    - [Signing]: tools/gen, tools/sign, tools/verify, tools/keystatus and
      internal/releasekey.

    ** What the theorems show

    Circuits: in every interleaving of concurrent requests a half-open circuit
    lets one probe through; a circuit opens exactly at its threshold, for the
    longer of the cooldown and the upstream's Retry-After, and a later failure
    never shortens it; the host breaker refines a count of consecutive
    transport failures.  Scores stay in the unit interval, in floating point;
    the ranking is a permutation, sorted and stable.  Quota: what a bucket
    reserves is the sum of the outstanding holds after any sequence of calls;
    a reservation takes all or nothing; release and settlement consume a ticket
    once; the fit test predicts the reservation exactly; the routing decision
    reserves its first choice and interleaves providers; an answered attempt
    always settles its ticket; no ticket outlives its chain; the wait told to
    the client is the soonest useful one.  The chain runs in order, skips what
    it has learned to be unavailable, stops at the first success, and reports
    the right reason.  Credentials: the caller's key reaches only the provider
    it is for, and a public request never uses the operator's keys.  The short
    and the full health report agree but for unlisted providers.  The
    affinity store is a bounded least-recently-used list, and the ring the list
    of the last decisions.

    An attempt commits at most one answer and releases the probes it claimed on
    every path, and settles its own ticket on every path but one: without a
    usable credential nothing is sent and the ticket is left to the chain.  A
    stream's copy forwards what was read and reports how it ended; the upstream
    cannot hold it, and a client that reads lets it end; a client that stops
    reading keeps it, whatever the limits say.  The wait for the first event
    loses no byte.
    Composed: every request to the proxy gets exactly one status and gives its
    slot back, and a dispatched request leaves no ticket behind.  The compiled
    policy permits exactly what its configuration says, authorization fails
    closed, and no header gets a secret lookup authorized unless the deployment
    trusts the user header.  The body an attempt sends obeys the provider's
    schema, with the count of answers and the reasoning effort the provider and
    the request ask for, and is otherwise the client's; the token clamp is a bound; reasoning
    follows its precedence; the guardrail is idempotent; the tool-result guard
    accounts for what it cut.  The model policy is well-formed after cleaning,
    every request has a plan under it, and a reload ends where a restart would.

    Files: however often a file is replaced, whatever fails and wherever it
    crashes, what is found is a whole version of it; that it is the last one
    holds of the vault, not of the scores, whose directory is never synced, nor
    on Windows.  Scores survive a restart, and a flush loses no update.
    The vault refines a map from providers to keys and is only written when
    every entry authenticates; the migration of the old key file loses no key;
    processes that make the master key at the same time agree on it.

    The service: a new one satisfies every invariant the other theorems ask for,
    whatever the environment; a process starts with what the one before it
    learned; the capability index is the last catalogue under the last
    overrides.  The operation of a request is the one its path names, also
    where the path is a profile's.

    The server: only the probes answer without the gate, the probe of the
    balancer says exactly whether a model can be tried, and only an operator
    changes the policy, and the reload endpoint answers what the reload did;
    the process shuts down in order; on a public address no
    key of the operator is spent; the recorder is transparent; the metrics page
    is well-formed.  The console: sessions refine a map that expires, logins
    are limited per window, and nothing changes or is shown without authority.
    The commands: an update installs only what was verified or what
    --insecure was given for, and on every system but Windows there is always a
    whole executable; a login stores only the key of its own flow, whatever else
    calls its server, when the state is required, which is the default; setup changes
    nothing it has not backed up, and revert restores the file byte for byte,
    even after a write that broke off; doctor fails exactly the files the
    client would not bind by, and passes the block it prints; the chat client
    reads from the route header the decision the proxy took.  The balancers
    count their connections exactly, take turns fairly, and replace a failed
    backend once.  A deployment records only a backend that came up, takes its
    entry out in the end when the write succeeds, and finds
    the root of the repository nearest to it.  The check of a release in the
    pipeline accepts what the updater accepts.

    Theorems that show where the code falls short are in the same files; each
    is named for what goes wrong.

    ** Bounds and fuel

    The search for a ticket id is given one more than the number of ids it can
    have to skip, and is proved to succeed below 2^64 - 2 tickets.  Trimming is
    given the length of the string, interleaving the length of the longest
    group; both are proved enough.  A wait for quota takes at least 150 ms off
    the budget, so the gates are given one pass more than fit into it
    ([gateFuel]), and are proved to end within them.  A stream's schedule is
    continued by beats, in each of which a write under way ends and the idle
    time passes; they end every copy ([fullSchedule]).  So an attempt is about
    clients that read in the end; the theorems of [Stream] are about the others
    too.  The parser of
    IPv6 groups is given one step per byte; the search for the root of the
    repository one round per component of the path, and is proved to look at every
    parent.  [sort.SliceStable] is insertion
    sort, which Go uses up to 20 elements; for a comparison that is a strict
    weak order the result is the same for any stable sort.

    ** Parameters

    Code outside src/ is an argument: HMAC ([mac]), SHA-256 ([fingerprint],
    [Sum256]), the cipher of the vault, the tools of the updater, parsing of
    times and durations, the conversion Go leaves to the implementation
    ([conv]), the HTTP transports and what they answer, name lookup, the host
    name of a URL, the JSON codec ([decode], [encode], [jsonValid] and the
    encoders of errors and views), quoting, the joining of paths, the
    compression library and the condition evaluator of the rules package.  The
    planner is written over any model selection and aliases ([Select],
    [ResolveProfileAlias], [ResolveModelAlias]); [ModelPolicy] supplies those of
    the vendored policy.  So is the schedule of a request: the replies of the
    upstreams, how waits and races end, the order a map is visited in.  Every
    reading of the clock and every draw of random bytes is an argument of its
    own.

    ** Not modelled

    The setup of the telemetry exporters, spans other than the policy's and
    most log lines; clearing of secrets in memory; what a started process does;
    the pages and scripts of the dashboard and the console; third-party packages
    under src/vendor other than the model policy and the parts of the rules and
    header packages that decide; regular expressions other than the forms the
    sources use; the cleaning of paths by net/http before the mux; load tests,
    scripts and client plugins.  Strings are bytes.  [ToLower] and [EqualFold]
    fold ASCII and the letters outside it that fold to ASCII (U+0130, U+017F,
    U+212A); other letters they leave alone, which a comparison
    with an ASCII text cannot tell, though a name kept in lower case can.  A response status is one net/http takes,
    of three digits. *)

From Stdlib Require Import Lia ZArith Ascii String Permutation.
From stdpp Require Export base gmap strings list fin_maps sorting.
#[local] Open Scope Z_scope.

(** ** Machine integers

    Go's [int], [int64] and [time.Duration] are 64-bit two's complement here;
    [wrap64] is the result of an arithmetic operation that may overflow. *)

Declare Scope go_scope.
Delimit Scope go_scope with go.

Definition two63 : Z := 9223372036854775808.
Definition two64 : Z := 18446744073709551616.
Definition max_int64 : Z := two63 - 1.
Definition min_int64 : Z := - two63.

Definition wrap64 (z : Z) : Z := (z + two63) mod two64 - two63.
Definition wrapU64 (z : Z) : Z := z mod two64.

Definition in_int64 (z : Z) : Prop := min_int64 <= z <= max_int64.
Definition nat_int64 (z : Z) : Prop := 0 <= z <= max_int64.

Notation "a +! b" := (wrap64 (a + b)) (at level 50, left associativity) : go_scope.
Notation "a -! b" := (wrap64 (a - b)) (at level 50, left associativity) : go_scope.
Notation "a *! b" := (wrap64 (a * b)) (at level 40, left associativity) : go_scope.

(** [minInt64] of router_quota.go, used on counters. *)
Definition minInt64 (left right : Z) : Z := if left <? right then left else right.

(** ** Time

    A [time.Time] is a number of nanoseconds since Go's zero time, so that
    [IsZero] is equality with 0 and [After]/[Before] are strict orders.
    [Add] does not saturate, [Sub] does (package time). *)

Definition IsZero (t : Z) : bool := t =? 0.
Definition After (t u : Z) : bool := u <? t.
Definition Before (t u : Z) : bool := t <? u.
Definition time_Add (t d : Z) : Z := t + d.
Definition time_Sub (t u : Z) : Z := Z.max min_int64 (Z.min max_int64 (t - u)).
(** [t.Truncate(d)] rounds towards the zero time; times are not negative. *)
Definition time_Truncate (t d : Z) : Z := t - t mod d.

Definition Millisecond : Z := 1000000.
Definition Second : Z := 1000 * Millisecond.
Definition Minute : Z := 60 * Second.
Definition Hour : Z := 60 * Minute.

(** The nanoseconds between Go's zero time and the Unix epoch. *)
Definition unix_epoch : Z := 62135596800 * Second.

(** ** Strings

    Go strings are byte sequences.  [TrimSpace] removes the Unicode white
    space, in its UTF-8 encoding, from both ends.  [ToLower] and [EqualFold]
    fold the ASCII letters and the runes outside ASCII whose case lies in it,
    which decides every comparison with an ASCII text; the other runes stay as
    they are. *)

Abbreviation bytes := (list ascii).

Definition byte (n : nat) : ascii := ascii_of_nat n.

(** The white space of [unicode.IsSpace], as UTF-8 byte sequences. *)
Definition space_seqs : list bytes :=
  (fun n => [byte n]) <$> [9; 10; 11; 12; 13; 32]%nat.
Definition wide_space_seqs : list bytes :=
  [[byte 194; byte 133]; [byte 194; byte 160]; [byte 225; byte 154; byte 128]]
  ++ ((fun n => [byte 226; byte 128; byte n]) <$> [128;129;130;131;132;133;134;135;136;137;138;168;169;175]%nat)
  ++ [[byte 226; byte 129; byte 159]; [byte 227; byte 128; byte 128]].
Definition all_space_seqs : list bytes := space_seqs ++ wide_space_seqs.

Fixpoint strip_prefix (p s : bytes) : option bytes :=
  match p, s with
  | [], _ => Some s
  | a :: p, b :: s => if Ascii.eqb a b then strip_prefix p s else None
  | _ :: _, [] => None
  end.

Fixpoint strip_any (ps : list bytes) (s : bytes) : option bytes :=
  match ps with
  | [] => None
  | p :: ps => match strip_prefix p s with Some s' => Some s' | None => strip_any ps s end
  end.

Fixpoint trim_left (fuel : nat) (ps : list bytes) (s : bytes) : bytes :=
  match fuel with
  | O => s
  | S fuel => match strip_any ps s with Some s' => trim_left fuel ps s' | None => s end
  end.

Definition trim_both (s : bytes) : bytes :=
  let s := trim_left (List.length s) all_space_seqs s in
  rev (trim_left (List.length s) ((@rev ascii) <$> all_space_seqs) (rev s)).

Definition TrimSpace (s : string) : string :=
  string_of_list_ascii (trim_both (list_ascii_of_string s)).

Definition lower_byte (c : ascii) : ascii :=
  let n := nat_of_ascii c in
  if (65 <=? n)%nat && (n <=? 90)%nat then ascii_of_nat (n + 32) else c.

(** The Kelvin sign, 0xE2 0x84 0xAA, is another k; and the rune of two bytes
    [a0 b0] is another [c0].  None of these bytes but the first ones begins a
    rune, so they are found wherever they stand. *)
Fixpoint foldWide (a0 b0 c0 : ascii) (s : bytes) : bytes :=
  match s with
  | a :: (b :: t2) as t =>
      if Ascii.eqb a a0 && Ascii.eqb b b0 then c0 :: foldWide a0 b0 c0 t2
      else match t2 with
           | c :: t3 =>
               if Ascii.eqb a (byte 226) && Ascii.eqb b (byte 132) && Ascii.eqb c (byte 170) then "k"%char :: foldWide a0 b0 c0 t3
               else a :: foldWide a0 b0 c0 t
           | [] => a :: foldWide a0 b0 c0 t
           end
  | a :: [] => [a]
  | [] => []
  end.

(** The capital I with a dot, U+0130, lowers to i. *)
Definition lowerText (s : bytes) : bytes := lower_byte <$> foldWide (byte 196) (byte 176) "i"%char s.

(** The long s, U+017F, folds with s. *)
Definition foldText (s : bytes) : bytes := lower_byte <$> foldWide (byte 197) (byte 191) "s"%char s.

Definition ToLower (s : string) : string := string_of_list_ascii (lowerText (list_ascii_of_string s)).

Definition EqualFold (s t : string) : bool :=
  bool_decide (foldText (list_ascii_of_string s) = foldText (list_ascii_of_string t)).

Definition HasPrefix (s p : string) : bool := String.prefix p s.
Definition HasSuffix (s p : string) : bool :=
  String.prefix (string_of_list_ascii (rev (list_ascii_of_string p)))
                (string_of_list_ascii (rev (list_ascii_of_string s))).
Definition Contains (s sub : string) : bool :=
  match String.index 0 sub s with Some _ => true | None => false end.

Definition empty_str (s : string) : bool := bool_decide (s = EmptyString).
Definition str_eq (s t : string) : bool := bool_decide (s = t).
Definition nul : string := String (ascii_of_nat 0) EmptyString.

(** ** Stable sorting

    [sort.SliceStable] sorts blocks of 20 by insertion, so on at most 20
    elements it is this insertion sort; with a strict weak order every stable
    sort has the same result.  [less x y] is the comparison closure. *)

Section sorting.
Context {A : Type} (less : A -> A -> bool).

(** The sorted prefix is kept reversed: [insert_right] moves [x] left past
    every element it is less than. *)
Fixpoint insert_right (x : A) (rl : list A) : list A :=
  match rl with
  | [] => [x]
  | y :: rl' => if less x y then y :: insert_right x rl' else x :: rl
  end.

Definition SliceStable (l : list A) : list A :=
  rev (fold_left (fun rl x => insert_right x rl) l []).
End sorting.

(** ** The soonest positive wait

    The loop [if soonest == 0 || d < soonest { soonest = d }] that several
    components run over their positive waits. *)

Definition soonest_step (soonest d : Z) : Z :=
  if (soonest =? 0) || (d <? soonest) then d else soonest.

Definition soonest (ds : list Z) : Z := fold_left soonest_step ds 0.

(** ** Sums over finite maps *)

Definition msum `{Countable K} {V : Type} (f : K -> V -> Z) (m : gmap K V) : Z :=
  map_fold (fun k v acc => f k v + acc) 0 m.

(** ** Lemmas on machine integers *)

Lemma wrap64_id z : in_int64 z -> wrap64 z = z.
Proof.
  unfold in_int64, wrap64, min_int64, max_int64, two63, two64. intros H.
  rewrite Z.mod_small; lia.
Qed.

Lemma wrap64_range z : in_int64 (wrap64 z).
Proof.
  unfold in_int64, wrap64, min_int64, max_int64, two63, two64.
  pose proof (Z.mod_pos_bound (z + 9223372036854775808) 18446744073709551616). lia.
Qed.

Lemma nat_int64_in z : nat_int64 z -> in_int64 z.
Proof. unfold nat_int64, in_int64, min_int64, two63. lia. Qed.

(** Adding two non-negative [int64] values overflows exactly when the wrapped
    sum is negative: the test [amounts[k] < 0] of [aggregateReservations]. *)
Lemma wrap64_add_nonneg a b :
  nat_int64 a -> nat_int64 b ->
  (wrap64 (a + b) <? 0) = negb (a + b <=? max_int64).
Proof.
  unfold nat_int64, max_int64, wrap64, two63, two64. intros Ha Hb.
  destruct (Z.leb_spec (a + b) (9223372036854775808 - 1)) as [Hle|Hgt]; simpl.
  - rewrite Z.mod_small by lia. apply Z.ltb_ge. lia.
  - replace (a + b + 9223372036854775808)
      with ((a + b - 9223372036854775808) + 1 * 18446744073709551616) by lia.
    rewrite Z_mod_plus_full, Z.mod_small by lia. apply Z.ltb_lt. lia.
Qed.

Lemma wrap64_sub_nonneg a b :
  nat_int64 a -> nat_int64 b -> wrap64 (a - b) = a - b.
Proof. intros Ha Hb. apply wrap64_id. unfold in_int64, nat_int64, min_int64, max_int64 in *. lia. Qed.

Lemma minInt64_min a b : minInt64 a b = Z.min a b.
Proof. unfold minInt64. destruct (Z.ltb_spec a b); lia. Qed.

(** ** Lemmas on strings *)

Lemma strip_prefix_length p s s' :
  strip_prefix p s = Some s' -> List.length s = (List.length p + List.length s')%nat.
Proof.
  revert s. induction p as [|a p IH]; intros s; simpl; [by intros [= ->]|].
  destruct s as [|b s]; [done|]. destruct (Ascii.eqb a b); [|done]. intros H. simpl. by rewrite (IH s H).
Qed.

Lemma strip_prefix_app p s t s' : strip_prefix p s = Some s' -> strip_prefix p (s ++ t) = Some (s' ++ t).
Proof.
  revert s. induction p as [|a p IH]; intros s; simpl; [by intros [= ->]|].
  destruct s as [|b s]; [done|]. simpl. destruct (Ascii.eqb a b); [|done]. apply IH.
Qed.

Lemma strip_any_length ps s s' :
  Forall (fun p => p <> []) ps -> strip_any ps s = Some s' -> (List.length s' < List.length s)%nat.
Proof.
  induction 1 as [|p ps Hp _ IH]; simpl; [done|].
  destruct (strip_prefix p s) as [s1|] eqn:E; [|done]. intros [= <-].
  apply strip_prefix_length in E. destruct p; [done|simpl in E; lia].
Qed.

Lemma strip_any_app ps s t s' : strip_any ps s = Some s' -> exists r, strip_any ps (s ++ t) = Some r.
Proof.
  induction ps as [|p ps IH]; simpl; [done|].
  destruct (strip_prefix p s) as [s1|] eqn:E.
  - intros _. apply (strip_prefix_app _ _ t) in E. rewrite E. eauto.
  - intros H. destruct (strip_prefix p (s ++ t)); eauto.
Qed.

Lemma trim_left_None fuel ps s :
  Forall (fun p => p <> []) ps -> (List.length s <= fuel)%nat -> strip_any ps (trim_left fuel ps s) = None.
Proof.
  intros Hps. revert s. induction fuel as [|fuel IH]; intros s Hl; simpl.
  - destruct s; [|simpl in Hl; lia]. destruct (strip_any ps []) eqn:E; [|done].
    apply strip_any_length in E; [simpl in E; lia|done].
  - destruct (strip_any ps s) eqn:E; [|done]. apply IH.
    apply strip_any_length in E; [lia|done].
Qed.

Lemma trim_left_fix fuel ps s : strip_any ps s = None -> trim_left fuel ps s = s.
Proof. destruct fuel; simpl; [done|]. by intros ->. Qed.

Lemma strip_prefix_suffix p s s' : strip_prefix p s = Some s' -> exists k, s = k ++ s'.
Proof.
  revert s. induction p as [|a p IH]; intros s; simpl; [intros [= ->]; by exists []|].
  destruct s as [|b s]; [done|]. destruct (Ascii.eqb a b); [|done]. intros [k ->]%IH. by exists (b :: k).
Qed.

Lemma strip_any_suffix ps s s' : strip_any ps s = Some s' -> exists k, s = k ++ s'.
Proof.
  induction ps as [|p ps IH]; simpl; [done|].
  destruct (strip_prefix p s) eqn:E; [|done]. intros [= <-]. by apply strip_prefix_suffix in E.
Qed.

Lemma trim_left_suffix fuel ps s : exists k, s = k ++ trim_left fuel ps s.
Proof.
  revert s. induction fuel as [|fuel IH]; intros s; simpl; [by exists []|].
  destruct (strip_any ps s) as [s'|] eqn:E; [|by exists []].
  apply strip_any_suffix in E as [k ->]. destruct (IH s') as [k' Hk'].
  exists (k ++ k'). by rewrite <- app_assoc, <- Hk'.
Qed.

Lemma space_seqs_ne : Forall (fun p => p <> []) all_space_seqs /\
                      Forall (fun p => p <> []) ((@rev ascii) <$> all_space_seqs).
Proof. by split; repeat constructor. Qed.

(** What is left has no white space at either end. *)
Lemma trim_both_ends s : strip_any all_space_seqs (trim_both s) = None /\ strip_any ((@rev ascii) <$> all_space_seqs) (rev (trim_both s)) = None.
Proof.
  destruct space_seqs_ne as [Hl Hr]. unfold trim_both.
  set (a := trim_left (List.length s) all_space_seqs s).
  assert (Ha : strip_any all_space_seqs a = None) by (by apply trim_left_None).
  set (rsp := (@rev ascii) <$> all_space_seqs) in *.
  set (b := trim_left (List.length a) rsp (rev a)). rewrite rev_involutive.
  split; [|apply trim_left_None; [done|by rewrite length_rev]].
  destruct (trim_left_suffix (List.length a) rsp (rev a)) as [k Hk]. fold b in Hk.
  assert (Hab : a = rev b ++ rev k) by (by rewrite <- rev_app_distr, <- Hk, rev_involutive).
  destruct (strip_any all_space_seqs (rev b)) as [s'|] eqn:E; [|done].
  apply (strip_any_app _ _ (rev k)) in E as [r E]. rewrite <- Hab in E. congruence.
Qed.

Lemma trim_both_id s : strip_any all_space_seqs s = None -> strip_any ((@rev ascii) <$> all_space_seqs) (rev s) = None -> trim_both s = s.
Proof. intros H1 H2. unfold trim_both. rewrite (trim_left_fix _ _ s) by done. rewrite trim_left_fix by done. apply rev_involutive. Qed.

Lemma trim_both_idemp s : trim_both (trim_both s) = trim_both s.
Proof. destruct (trim_both_ends s). by apply trim_both_id. Qed.

Lemma TrimSpace_idemp s : TrimSpace (TrimSpace s) = TrimSpace s.
Proof. unfold TrimSpace. by rewrite list_ascii_of_string_of_list_ascii, trim_both_idemp. Qed.

Lemma str_eq_spec s t : str_eq s t = true <-> s = t.
Proof. apply bool_decide_eq_true. Qed.

Lemma str_eq_false s t : str_eq s t = false <-> s <> t.
Proof. apply bool_decide_eq_false. Qed.

Lemma empty_str_spec s : empty_str s = true <-> s = EmptyString.
Proof. apply bool_decide_eq_true. Qed.

(** ** Lemmas on stable sorting *)

Section sorting_lemmas.
Context {A : Type} (less : A -> A -> bool).

Lemma insert_right_perm x rl : insert_right less x rl ≡ₚ x :: rl.
Proof.
  induction rl as [|y rl IH]; simpl; [done|].
  destruct (less x y); [|done]. rewrite IH. apply Permutation_swap.
Qed.

Lemma fold_insert_perm l acc :
  fold_left (fun rl x => insert_right less x rl) l acc ≡ₚ l ++ acc.
Proof.
  revert acc. induction l as [|x l IH]; intros acc; simpl; [done|].
  rewrite IH, insert_right_perm. symmetry. apply Permutation_middle.
Qed.

Lemma SliceStable_perm l : SliceStable less l ≡ₚ l.
Proof.
  unfold SliceStable. rewrite <- Permutation_rev, fold_insert_perm.
  by rewrite app_nil_r.
Qed.

Lemma SliceStable_elem_of x l : x ∈ SliceStable less l <-> x ∈ l.
Proof. by rewrite SliceStable_perm. Qed.

Lemma SliceStable_length l : List.length (SliceStable less l) = List.length l.
Proof. by rewrite SliceStable_perm. Qed.

(** Stability: elements that are never [less] than each other keep their
    order. *)
Lemma insert_right_filter (Q : A -> bool) x rl :
  (forall a b, Q a = true -> Q b = true -> less a b = false) ->
  List.filter Q (insert_right less x rl) = List.filter Q (x :: rl).
Proof.
  intros HQ. induction rl as [|y rl IH]; [done|]. cbn [insert_right].
  destruct (less x y) eqn:E; [|done].
  cbn [List.filter] in IH |- *. rewrite IH.
  destruct (Q x) eqn:Hx, (Q y) eqn:Hy; try done.
  rewrite (HQ x y) in E; congruence.
Qed.

Lemma SliceStable_stable (Q : A -> bool) l :
  (forall a b, Q a = true -> Q b = true -> less a b = false) ->
  List.filter Q (SliceStable less l) = List.filter Q l.
Proof.
  intros HQ. unfold SliceStable. rewrite List.filter_rev.
  assert (Hgen : forall acc, rev (List.filter Q (fold_left (fun rl x => insert_right less x rl) l acc))
                = rev (List.filter Q acc) ++ List.filter Q l).
  { induction l as [|x l IH]; intros acc; simpl; [by rewrite app_nil_r|].
    rewrite IH, insert_right_filter by done. simpl.
    destruct (Q x); simpl; [by rewrite <- app_assoc|done]. }
  by rewrite Hgen.
Qed.

(** No later element is less than an earlier one: what a caller relies on.
    It needs the comparison to be a strict weak order on the elements [P]
    of the list. *)
Context (P : A -> Prop).
Context (less_asym : forall x y, P x -> P y -> less x y = true -> less y x = false).
Context (less_cotrans : forall x y z, P x -> P y -> P z ->
           less x z = true -> less x y = true \/ less y z = true).

Lemma insert_right_sorted x rl :
  P x -> Forall P rl ->
  StronglySorted (fun a b => less a b = false) rl ->
  StronglySorted (fun a b => less a b = false) (insert_right less x rl).
Proof.
  intros Hx HP Hs. induction Hs as [|y rl Hs IH Hall]; simpl.
  { by repeat constructor. }
  inversion_clear HP as [|? ? Hy HP'].
  destruct (less x y) eqn:E.
  - constructor; [by apply IH|].
    rewrite insert_right_perm. constructor; [|done].
    by apply less_asym.
  - constructor; [by constructor|]. constructor; [done|].
    rewrite Forall_forall in Hall, HP' |- *. intros z Hz.
    destruct (less x z) eqn:E2; [|done].
    destruct (less_cotrans x y z) as [H1|H1]; auto; try congruence.
    rewrite (Hall z Hz) in H1. congruence.
Qed.

Lemma fold_insert_sorted l acc :
  Forall P l -> Forall P acc ->
  StronglySorted (fun a b => less a b = false) acc ->
  StronglySorted (fun a b => less a b = false)
    (fold_left (fun rl x => insert_right less x rl) l acc).
Proof.
  revert acc. induction l as [|x l IH]; intros acc Hl Hacc Hs; simpl; [done|].
  inversion_clear Hl. apply IH; auto.
  - rewrite insert_right_perm. by constructor.
  - by apply insert_right_sorted.
Qed.

Lemma StronglySorted_snoc (R : A -> A -> Prop) l x :
  StronglySorted R l -> Forall (fun y => R y x) l -> StronglySorted R (l ++ [x]).
Proof.
  induction 1 as [|y l Hs IH Hall]; simpl; intros Hx.
  { repeat constructor. }
  inversion_clear Hx. constructor; [by apply IH|].
  rewrite Forall_app. split; [done|by constructor].
Qed.

Lemma StronglySorted_rev (R : A -> A -> Prop) l :
  StronglySorted R l -> StronglySorted (fun a b => R b a) (rev l).
Proof.
  induction 1 as [|x l Hs IH Hall]; simpl; [constructor|].
  apply StronglySorted_snoc; [done|]. by rewrite <- Permutation_rev.
Qed.

Lemma SliceStable_sorted l :
  Forall P l ->
  StronglySorted (fun a b => less b a = false) (SliceStable less l).
Proof.
  intros Hl. apply (StronglySorted_rev (fun a b => less a b = false)).
  apply fold_insert_sorted; auto. constructor.
Qed.
End sorting_lemmas.

(** ** Lemmas on the soonest wait *)

Lemma soonest_fold ds acc :
  0 <= acc -> Forall (fun d => 0 < d) ds ->
  let r := fold_left soonest_step ds acc in
  (r = 0 <-> acc = 0 /\ ds = []) /\
  (0 < r -> (r = acc \/ r ∈ ds) /\ (0 < acc -> r <= acc) /\ Forall (fun d => r <= d) ds).
Proof.
  revert acc. induction ds as [|d ds IH]; intros acc Hacc Hds; simpl.
  { split; [intuition congruence|]. intros Hr. repeat split; auto; lia. }
  inversion_clear Hds as [|? ? Hd Hds'].
  assert (Hstep : 0 < soonest_step acc d /\ soonest_step acc d <= d /\
                  (soonest_step acc d = acc \/ soonest_step acc d = d) /\
                  (0 < acc -> soonest_step acc d <= acc)).
  { unfold soonest_step. destruct (Z.eqb_spec acc 0), (Z.ltb_spec d acc); simpl; lia. }
  destruct Hstep as (Hp & Hle & Hor & Hacc').
  destruct (IH (soonest_step acc d) ltac:(lia) Hds') as [H0 H1]. cbn zeta in *.
  split.
  - split; [intros Hz; apply H0 in Hz; lia|intros [_ [=]]].
  - intros Hr. destruct (H1 Hr) as (Hin & Hb & Hall). repeat split.
    + destruct Hin as [->|Hin]; [|right; by apply elem_of_cons; right].
      destruct Hor as [->| ->]; [by left|right; apply elem_of_cons; by left].
    + intros Ha. specialize (Hb ltac:(lia)). specialize (Hacc' Ha). lia.
    + constructor; [|done]. specialize (Hb ltac:(lia)). lia.
Qed.

Lemma soonest_fold_pos ds acc :
  0 < acc -> Forall (fun d => 0 < d) ds -> 0 < fold_left soonest_step ds acc.
Proof.
  revert acc. induction ds as [|d ds IH]; intros acc Ha Hds; [done|].
  inversion_clear Hds. simpl. apply IH; [|done].
  unfold soonest_step. destruct ((acc =? 0) || (d <? acc)); lia.
Qed.

(** [soonest] is the minimum of the waits, and 0 only when there is none. *)
Lemma soonest_spec ds :
  Forall (fun d => 0 < d) ds ->
  (soonest ds = 0 <-> ds = []) /\
  (ds <> [] -> 0 < soonest ds /\ soonest ds ∈ ds /\ Forall (fun d => soonest ds <= d) ds).
Proof.
  intros Hds. destruct (soonest_fold ds 0 ltac:(lia) Hds) as [H0 H1].
  cbn zeta in *. fold (soonest ds) in *. split; [rewrite H0; tauto|].
  intros Hne. assert (Hpos : 0 < soonest ds).
  { destruct ds as [|d ds]; [done|]. inversion_clear Hds.
    apply (soonest_fold_pos ds d); done. }
  destruct (H1 Hpos) as (Hin & _ & Hall). split_and!; auto.
  destruct Hin as [Hz|]; [lia|done].
Qed.

(** ** Lemmas on sums over maps *)

Section msum_lemmas.
Context `{Countable K} {V : Type}.
Implicit Types (m : gmap K V) (f g : K -> V -> Z).

Lemma msum_empty f : msum f (∅ : gmap K V) = 0.
Proof. apply map_fold_empty. Qed.

Lemma msum_insert f m k v :
  m !! k = None -> msum f (<[k:=v]> m) = f k v + msum f m.
Proof.
  intros Hk. unfold msum. rewrite map_fold_insert_L; [done| |done].
  intros. lia.
Qed.

Lemma msum_delete f m k v :
  m !! k = Some v -> msum f m = f k v + msum f (delete k m).
Proof.
  intros Hk. rewrite <- (insert_delete_id m k v Hk) at 1.
  apply msum_insert, lookup_delete_eq.
Qed.

Lemma msum_update f m k v v' :
  m !! k = Some v -> msum f (<[k:=v']> m) = msum f m - f k v + f k v'.
Proof.
  intros Hk. rewrite <- insert_delete_eq, msum_insert by apply lookup_delete_eq.
  rewrite (msum_delete f m k v Hk). lia.
Qed.

Lemma msum_ext f g m :
  (forall k v, m !! k = Some v -> f k v = g k v) -> msum f m = msum g m.
Proof.
  induction m as [|k v m Hk IH] using map_ind; intros Hfg; [by rewrite !msum_empty|].
  rewrite !msum_insert by done. rewrite (Hfg k v) by apply lookup_insert_eq.
  rewrite IH; [done|]. intros k' v' Hk'. apply Hfg.
  rewrite lookup_insert_ne; [done|]. intros ->. congruence.
Qed.

Lemma msum_nonneg f m : (forall k v, m !! k = Some v -> 0 <= f k v) -> 0 <= msum f m.
Proof.
  induction m as [|k v m Hk IH] using map_ind; intros Hf; [by rewrite msum_empty|].
  rewrite msum_insert by done. specialize (Hf k v) as Hkv.
  rewrite lookup_insert_eq in Hkv. specialize (Hkv eq_refl).
  enough (0 <= msum f m) by lia. apply IH. intros k' v' Hk'. apply Hf.
  rewrite lookup_insert_ne; [done|]. intros ->. congruence.
Qed.

Lemma msum_zero f m : (forall k v, m !! k = Some v -> f k v = 0) -> msum f m = 0.
Proof.
  intros Hf. rewrite (msum_ext f (fun _ _ => 0)) by done.
  induction m as [|k v m Hk IH] using map_ind; [by rewrite msum_empty|].
  rewrite msum_insert by done. rewrite IH; [done|]. intros k' v' Hk'. apply (Hf k').
  rewrite lookup_insert_ne; [done|]. intros ->. congruence.
Qed.

Lemma msum_ge_elem f m k v :
  (forall k v, m !! k = Some v -> 0 <= f k v) -> m !! k = Some v -> f k v <= msum f m.
Proof.
  intros Hf Hk. rewrite (msum_delete f m k v Hk).
  enough (0 <= msum f (delete k m)) by lia. apply msum_nonneg.
  intros k' v' [_ Hk']%lookup_delete_Some. by apply Hf in Hk'.
Qed.
End msum_lemmas.

(** ** Counting in a list updated by index *)

Definition count {A : Type} (f : A -> bool) (l : list A) : nat := List.length (List.filter f l).

Lemma count_insert {A : Type} (f : A -> bool) (l : list A) (i : nat) x y :
  l !! i = Some x ->
  (count f (<[i:=y]> l) + (if f x then 1 else 0) = count f l + (if f y then 1 else 0))%nat.
Proof.
  unfold count. revert i. induction l as [|z l IH]; intros [|i] Hi; simplify_eq/=.
  - destruct (f x), (f y); simpl; lia.
  - specialize (IH i Hi). destruct (f z); simpl; lia.
Qed.

Lemma count_none {A : Type} (f : A -> bool) (l : list A) :
  Forall (fun x => f x = false) l -> count f l = 0%nat.
Proof. unfold count. induction 1 as [|x l Hx _ IH]; simpl; [done|]. by rewrite Hx. Qed.

(** ** Automation

    [go_split] runs through the tests of a translated function body: it
    destructs the [if]s and [match]es in sight and closes the branches that
    contradict. *)

Ltac go_split :=
  repeat (case_match || case_decide || case_bool_decide);
  simplify_eq/=; try done.

(** String tests as equations. *)
Ltac strs :=
  repeat match goal with
  | H : str_eq _ _ = true |- _ => apply str_eq_spec in H
  | H : str_eq _ _ = false |- _ => apply str_eq_false in H
  | H : empty_str _ = true |- _ => apply empty_str_spec in H
  end.

(** Turn the boolean tests of the source into propositions for [lia]. *)
Ltac zbool :=
  repeat match goal with
  | H : (_ && _) = true |- _ => apply andb_true_iff in H as [? ?]
  | H : (_ && _) = false |- _ => apply andb_false_iff in H
  | H : (_ || _) = true |- _ => apply orb_true_iff in H
  | H : (_ || _) = false |- _ => apply orb_false_iff in H as [? ?]
  | H : negb _ = true |- _ => apply negb_true_iff in H
  | H : negb _ = false |- _ => apply negb_false_iff in H
  | H : (_ <? _) = true |- _ => apply Z.ltb_lt in H
  | H : (_ <? _) = false |- _ => apply Z.ltb_ge in H
  | H : (_ <=? _) = true |- _ => apply Z.leb_le in H
  | H : (_ <=? _) = false |- _ => apply Z.leb_gt in H
  | H : (_ =? _) = true |- _ => apply Z.eqb_eq in H
  | H : (_ =? _) = false |- _ => apply Z.eqb_neq in H
  | H : IsZero _ = _ |- _ => unfold IsZero in H
  | H : After _ _ = _ |- _ => unfold After in H
  | H : Before _ _ = _ |- _ => unfold Before in H
  end.

Create HintDb calvo.
#[export] Hint Resolve wrap64_range nat_int64_in SliceStable_perm : calvo.
#[export] Hint Resolve lookup_insert_eq lookup_empty lookup_delete_eq : calvo.

(** ** Visiting a map

    Go leaves the order in which a [range] visits a map open: it is an
    argument of what depends on it. *)

(** The entries of a map in the order a [range] visits them. *)
Class MapRange := {
  range_of : forall A : Type, gmap string A -> list (string * A);
  range_perm : forall A (m : gmap string A), range_of A m ≡ₚ map_to_list m;
}.
Arguments range_of {_ A} m.

#[export] Instance map_to_list_range : MapRange := {
  range_of A m := map_to_list m;
  range_perm A m := Permutation_refl _;
}.

Section range_lemmas.
Context `{MapRange}.

Lemma elem_of_range {A} (m : gmap string A) k v : (k, v) ∈ range_of m <-> m !! k = Some v.
Proof. rewrite range_perm. apply elem_of_map_to_list. Qed.

Lemma NoDup_range {A} (m : gmap string A) : NoDup (range_of m).*1.
Proof. rewrite range_perm. apply NoDup_fst_map_to_list. Qed.

Lemma range_to_map {A} (m : gmap string A) : list_to_map (range_of m) = m.
Proof. rewrite <- (list_to_map_to_list m) at 2. apply list_to_map_proper; [apply NoDup_range|apply range_perm]. Qed.

Lemma range_nil {A} (m : gmap string A) : range_of m = [] <-> m = ∅.
Proof.
  split; intros E; [by rewrite <- (range_to_map m), E|]. subst m. apply Permutation_nil_r.
  by rewrite range_perm, map_to_list_empty.
Qed.

(** A loop that stores one entry per key. *)
Lemma fold_entries {A B} (f : gmap string B -> string * A -> gmap string B) (g : string -> A -> B) l : forall acc,
  NoDup l.*1 -> (forall k v, (k, v) ∈ l -> forall acc, f acc (k, v) = <[k := g k v]> acc) ->
  forall k, fold_left f l acc !! k = match (list_to_map l : gmap string A) !! k with Some v => Some (g k v) | None => acc !! k end.
Proof.
  induction l as [|[k0 v0] l IH]; intros acc Hn Hf k; [done|]. simpl. apply NoDup_cons in Hn as [Hk0 Hn].
  rewrite IH; [|done|by intros; apply Hf; right]. rewrite (Hf k0 v0) by left.
  destruct (decide (k = k0)) as [->|Hne].
  - rewrite not_elem_of_list_to_map_1 by done. by rewrite !lookup_insert_eq.
  - by rewrite !lookup_insert_ne by done.
Qed.

Lemma fold_range {A B} (f : gmap string B -> string * A -> gmap string B) (g : string -> A -> B) m acc :
  (forall k v, m !! k = Some v -> forall acc, f acc (k, v) = <[k := g k v]> acc) ->
  forall k, fold_left f (range_of m) acc !! k = match m !! k with Some v => Some (g k v) | None => acc !! k end.
Proof.
  intros Hf k. rewrite (fold_entries f g); [by rewrite range_to_map|apply NoDup_range|].
  intros k' v' Hin. by apply Hf, elem_of_range.
Qed.
End range_lemmas.

Lemma fold_left_inv {A B} (P : A -> Prop) (f : A -> B -> A) l : forall a,
  P a -> (forall a b, b ∈ l -> P a -> P (f a b)) -> P (fold_left f l a).
Proof.
  induction l as [|b l IH]; intros a Ha Hf; [done|]. simpl. apply IH; [apply Hf; [left|done]|].
  intros a' b' Hb'. apply Hf. by right.
Qed.
