(* ===== verification/Float.v ===== *)
(** * Float: IEEE 754 binary64 arithmetic

    Go's [float64] is the [spec_float] of the Standard Library at precision
    53 and maximal exponent 1024, every operation rounded to nearest even and
    never fused.  The file proves what the router relies on: the operations
    on finite values produce no NaN, and [<] is a strict weak order on the
    values that are not NaN. *)

From S2P Require Import Prelude.
From Stdlib Require Import Lia ZArith SpecFloat.
#[local] Open Scope Z_scope.

Definition float64 : Type := spec_float.

Definition fadd : float64 -> float64 -> float64 := SFadd 53 1024.
Definition fsub : float64 -> float64 -> float64 := SFsub 53 1024.
Definition fmul : float64 -> float64 -> float64 := SFmul 53 1024.
Definition fdiv : float64 -> float64 -> float64 := SFdiv 53 1024.
Definition fltb : float64 -> float64 -> bool := SFltb.
Definition feqb : float64 -> float64 -> bool := SFeqb.
Definition fabs : float64 -> float64 := SFabs.

(** The conversion [float64(n)] of an integer, and a decimal literal [n/d]. *)
Definition f_of_Z (n : Z) : float64 := binary_normalize 53 1024 n 0 false.
Definition flit (n d : Z) : float64 := fdiv (f_of_Z n) (f_of_Z d).

Definition f0 : float64 := S754_zero false.
Definition f1 : float64 := f_of_Z 1.

Definition is_nan (x : float64) : Prop := x = S754_nan.
Definition finite (x : float64) : Prop :=
  match x with S754_zero _ | S754_finite _ _ _ => True | _ => False end.

(** A value of the closed unit interval, by the comparisons of the code. *)
Definition unit01 (x : float64) : Prop :=
  x <> S754_nan /\ fltb x f0 = false /\ fltb f1 x = false.

#[global] Instance float64_eq_dec : EqDecision float64.
Proof. unfold float64. solve_decision. Defined.

(** ** No NaN from finite operands *)

Lemma shr_1_nonneg r : 0 <= shr_m r -> 0 <= shr_m (shr_1 r).
Proof. destruct r as [m b s]; destruct m as [|[p|p|]|p]; simpl; lia. Qed.

Lemma iter_pos_shr_nonneg p r : 0 <= shr_m r -> 0 <= shr_m (iter_pos shr_1 p r).
Proof.
  revert r. induction p as [p IH|p IH|]; intros r Hr; simpl; auto using shr_1_nonneg.
Qed.

Lemma shr_fexp_nonneg m e l : 0 <= m -> 0 <= shr_m (fst (shr_fexp 53 1024 m e l)).
Proof.
  intros Hm. unfold shr_fexp, shr.
  assert (H0 : 0 <= shr_m (shr_record_of_loc m l)) by (destruct l as [|[]]; done).
  destruct (fexp _ _ _ - e); simpl; auto using iter_pos_shr_nonneg.
Qed.

Lemma round_nearest_even_nonneg m l : 0 <= m -> 0 <= round_nearest_even m l.
Proof. intros Hm. destruct l as [|[]]; simpl; try destruct (Z.even m); lia. Qed.

Lemma binary_round_aux_not_nan s m e l :
  0 <= m -> binary_round_aux 53 1024 s m e l <> S754_nan.
Proof.
  intros Hm. unfold binary_round_aux.
  pose proof (shr_fexp_nonneg m e l Hm) as H1.
  destruct (shr_fexp 53 1024 m e l) as [r1 e1]; simpl in H1.
  pose proof (round_nearest_even_nonneg _ (loc_of_shr_record r1) H1) as H2.
  pose proof (shr_fexp_nonneg _ e1 loc_Exact H2) as H3.
  destruct (shr_fexp 53 1024 _ e1 loc_Exact) as [r2 e2]; simpl in H3.
  destruct (shr_m r2); [done| |lia]. by destruct (e2 <=? _).
Qed.

Lemma binary_round_not_nan s m e : binary_round 53 1024 s m e <> S754_nan.
Proof. unfold binary_round. destruct (shl_align _ _ _). by apply binary_round_aux_not_nan. Qed.

Lemma binary_normalize_not_nan m e s : binary_normalize 53 1024 m e s <> S754_nan.
Proof. destruct m; simpl; auto using binary_round_not_nan. Qed.

Lemma f_of_Z_not_nan n : f_of_Z n <> S754_nan.
Proof. apply binary_normalize_not_nan. Qed.

Lemma fadd_not_nan x y : finite x -> finite y -> fadd x y <> S754_nan.
Proof.
  destruct x as [[]| | |], y as [[]| | |]; simpl; try done.
  intros _ _. apply binary_normalize_not_nan.
Qed.

Lemma fsub_not_nan x y : finite x -> finite y -> fsub x y <> S754_nan.
Proof.
  destruct x as [[]| | |], y as [[]| | |]; simpl; try done; intros _ _;
    apply binary_normalize_not_nan.
Qed.

Lemma fmul_not_nan x y : finite x -> finite y -> fmul x y <> S754_nan.
Proof.
  destruct x, y; simpl; try done. intros _ _. by apply binary_round_aux_not_nan.
Qed.

Lemma SFdiv_core_nonneg m1 e1 m2 e2 :
  0 <= m1 -> 0 < m2 -> 0 <= (SFdiv_core_binary 53 1024 m1 e1 m2 e2).1.1.
Proof.
  intros H1 H2. unfold SFdiv_core_binary. cbv zeta.
  assert (Hdiv : forall m', 0 <= m' -> 0 <= (Z.div_eucl m' m2).1).
  { intros m' Hm'. pose proof (Z_div_mod m' m2 ltac:(lia)) as Hdm.
    destruct (Z.div_eucl m' m2) as [q r]; simpl. nia. }
  assert (Hm : forall z, 0 <= match z with Z0 => m1 | Zpos _ => Z.shiftl m1 z | Zneg _ => 0 end).
  { intros []; try lia. by apply Z.shiftl_nonneg. }
  specialize (Hm (e1 - e2 - Z.min (fexp 53 1024 (Zdigits2 m1 + e1 - (Zdigits2 m2 + e2))) (e1 - e2))).
  apply Hdiv in Hm. by destruct (Z.div_eucl _ m2).
Qed.

Lemma fdiv_not_nan x y :
  finite x -> (exists s m e, y = S754_finite s m e) -> fdiv x y <> S754_nan.
Proof.
  intros Hx (s & m & e & ->). destruct x as [| | |sx mx ex]; try done.
  unfold fdiv, SFdiv.
  pose proof (SFdiv_core_nonneg (Z.pos mx) ex (Z.pos m) e) as Hq.
  destruct (SFdiv_core_binary 53 1024 (Z.pos mx) ex (Z.pos m) e) as [[q e'] l].
  simpl in Hq. apply binary_round_aux_not_nan. lia.
Qed.

(** ** The order *)

(** A non-NaN value as a lexicographic key of integers: [<] compares keys. *)
Definition fkey (x : float64) : Z * (Z * Z) :=
  match x with
  | S754_infinity true => (-2, (0, 0))
  | S754_finite true m e => (-1, (- e, - Z.pos m))
  | S754_zero _ => (0, (0, 0))
  | S754_finite false m e => (1, (e, Z.pos m))
  | S754_infinity false => (2, (0, 0))
  | S754_nan => (0, (0, 0))
  end.

Definition key_lt (a b : Z * (Z * Z)) : Prop :=
  a.1 < b.1 \/ (a.1 = b.1 /\ (a.2.1 < b.2.1 \/ (a.2.1 = b.2.1 /\ a.2.2 < b.2.2))).

Lemma fltb_key x y :
  x <> S754_nan -> y <> S754_nan -> fltb x y = true <-> key_lt (fkey x) (fkey y).
Proof.
  intros Hx Hy. unfold fltb, SFltb, key_lt.
  destruct x as [sx|[]| |[] mx ex], y as [sy|[]| |[] my ey]; simpl; try done;
    try (split; [done|lia]); try (split; [intros; lia|done]).
  all: change (Pos.compare_cont Eq mx my) with (Pos.compare mx my).
  all: destruct (Z.compare_spec ex ey); subst; simpl; try (split; [done|lia]); try (split; [lia|done]).
  all: destruct (Pos.compare_spec mx my); subst; simpl; try (split; [done|lia]); try (split; [lia|done]).
Qed.

Lemma fltb_asym x y :
  x <> S754_nan -> y <> S754_nan -> fltb x y = true -> fltb y x = false.
Proof.
  intros Hx Hy H. apply not_true_is_false. rewrite fltb_key by done.
  apply fltb_key in H; [|done..]. unfold key_lt in *. lia.
Qed.

Lemma fltb_cotrans x y z :
  x <> S754_nan -> y <> S754_nan -> z <> S754_nan ->
  fltb x z = true -> fltb x y = true \/ fltb y z = true.
Proof.
  intros Hx Hy Hz. rewrite !fltb_key by done. unfold key_lt. lia.
Qed.

Lemma fltb_trans x y z :
  x <> S754_nan -> y <> S754_nan -> z <> S754_nan ->
  fltb x y = true -> fltb y z = true -> fltb x z = true.
Proof.
  intros Hx Hy Hz. rewrite !fltb_key by done. unfold key_lt. lia.
Qed.

Lemma feqb_key x y :
  x <> S754_nan -> y <> S754_nan -> feqb x y = true <-> ~ key_lt (fkey x) (fkey y) /\ ~ key_lt (fkey y) (fkey x).
Proof.
  intros Hx Hy. unfold feqb, SFeqb, key_lt.
  destruct x as [sx|[]| |[] mx ex], y as [sy|[]| |[] my ey]; simpl; try done;
    try (split; [done|lia]); try (split; [intros; lia|done]).
  all: change (Pos.compare_cont Eq mx my) with (Pos.compare mx my).
  all: destruct (Z.compare_spec ex ey); subst; simpl; try (split; [done|lia]); try (split; [lia|done]).
  all: destruct (Pos.compare_spec mx my); subst; simpl; try (split; [done|lia]); try (split; [lia|done]).
Qed.

Lemma unit01_finite x : unit01 x -> finite x.
Proof. intros (Hn & H0 & H1). by destruct x as [|[]| |]. Qed.

Lemma f1_finite : finite f1.
Proof. done. Qed.

(** ** Integers convert to finite values *)

Lemma Zdigits2_bound m : 0 < m -> 2 ^ (Zdigits2 m - 1) <= m < 2 ^ Zdigits2 m /\ 1 <= Zdigits2 m.
Proof.
  destruct m as [|p|p]; try lia. intros _. simpl.
  assert (Hs : digits2_pos p = Pos.size p) by (induction p; simpl; congruence).
  rewrite Hs. pose proof (Pos.size_gt p) as H1. pose proof (Pos.size_le p) as H2.
  apply Pos2Z.pos_lt_pos in H1. apply Pos2Z.pos_le_pos in H2.
  rewrite Pos2Z.inj_pow in H1, H2. rewrite Z.pow_sub_r by lia.
  assert (Hx : Z.pos p~0 = 2 * Z.pos p) by done. rewrite Hx in H2.
  split; [|lia]. split; [|lia].
  change (2 ^ 1) with 2. apply Z.div_le_upper_bound; lia.
Qed.

Lemma Zdigits2_le m k : 0 < m -> 0 <= k -> m < 2 ^ k -> Zdigits2 m <= k.
Proof.
  intros Hm Hk Hlt. destruct (Zdigits2_bound m Hm) as [[Hlo _] Hd].
  assert (2 ^ (Zdigits2 m - 1) < 2 ^ k) as Hp by lia.
  apply Z.pow_lt_mono_r_iff in Hp; lia.
Qed.

Lemma shr_1_div2 r : 0 <= shr_m r -> shr_m (shr_1 r) = shr_m r / 2.
Proof.
  destruct r as [m b s]. intros Hm. rewrite <- Z.div2_div. by destruct m as [|[p|p|]|p].
Qed.

Lemma iter_pos_shr_div p r : 0 <= shr_m r -> shr_m (iter_pos shr_1 p r) = shr_m r / 2 ^ Z.pos p.
Proof.
  revert r. induction p as [p IH|p IH|]; intros r Hr; cbn [iter_pos].
  - rewrite !IH by auto using shr_1_nonneg, iter_pos_shr_nonneg. rewrite shr_1_div2 by done.
    rewrite !Z.div_div by lia. apply (f_equal (Z.div _)).
    rewrite (Pos2Z.inj_xI p), Z.pow_add_r, Z.pow_mul_r, Z.pow_2_r, Z.pow_mul_l by lia. lia.
  - rewrite !IH by auto using iter_pos_shr_nonneg. rewrite Z.div_div by lia. apply (f_equal (Z.div _)).
    rewrite (Pos2Z.inj_xO p), Z.pow_mul_r, Z.pow_2_r, Z.pow_mul_l by lia. lia.
  - by rewrite shr_1_div2.
Qed.

(** A shift to 53 digits keeps a positive mantissa positive. *)
Lemma shr_fexp_pos m e l :
  0 < m -> -200 <= e <= 200 -> m < 2 ^ 70 ->
  let r := shr_fexp 53 1024 m e l in
  0 < shr_m r.1 <= m /\ e <= r.2 <= e + 20.
Proof.
  intros Hm He Hu. cbv zeta. destruct (Zdigits2_bound m Hm) as [[Hlo Hhi] Hd].
  pose proof (Zdigits2_le m 70 Hm ltac:(lia) Hu) as Hd70.
  unfold shr_fexp, shr, fexp, emin.
  assert (H0 : shr_m (shr_record_of_loc m l) = m) by (by destruct l as [|[]]).
  replace (Z.max (Zdigits2 m + e - 53) (3 - 1024 - 53) - e) with (Zdigits2 m - 53) by lia.
  destruct (Zdigits2 m - 53) as [|p|p] eqn:E; simpl; rewrite ?iter_pos_shr_div, ?H0 by lia; try lia.
  split; [|lia]. split.
  - apply Z.div_str_pos. split; [lia|]. transitivity (2 ^ (Zdigits2 m - 1)); [|done].
    apply Z.pow_le_mono_r; lia.
  - apply Z.div_le_upper_bound; [lia|]. nia.
Qed.

Lemma round_nearest_even_bound m l : m <= round_nearest_even m l <= m + 1.
Proof. destruct l as [|[]]; simpl; try destruct (Z.even m); lia. Qed.

Lemma binary_round_aux_finite s m e l :
  0 < m < 2 ^ 69 -> -100 <= e <= 100 -> exists m' e', binary_round_aux 53 1024 s m e l = S754_finite s m' e'.
Proof.
  intros Hm He. unfold binary_round_aux.
  pose proof (shr_fexp_pos m e l ltac:(lia) ltac:(lia) ltac:(lia)) as H1.
  destruct (shr_fexp 53 1024 m e l) as [r1 e1]; simpl in H1. destruct H1 as [[Hp1 Hu1] He1].
  pose proof (round_nearest_even_bound (shr_m r1) (loc_of_shr_record r1)) as H2.
  pose proof (shr_fexp_pos (round_nearest_even (shr_m r1) (loc_of_shr_record r1)) e1 loc_Exact
                ltac:(lia) ltac:(lia) ltac:(lia)) as H3.
  destruct (shr_fexp 53 1024 _ e1 loc_Exact) as [r2 e2]; simpl in H3. destruct H3 as [[Hp3 _] He3].
  destruct (shr_m r2); [lia| |lia]. rewrite (proj2 (Z.leb_le _ _)) by lia. eauto.
Qed.

Lemma iter_xO p q : Z.pos (Pos.iter xO p q) = 2 ^ Z.pos q * Z.pos p.
Proof.
  induction q as [|q IH] using Pos.peano_ind; [done|].
  rewrite Pos.iter_succ, Pos2Z.inj_succ, Z.pow_succ_r by lia. rewrite Pos2Z.inj_xO, IH. lia.
Qed.

Lemma f_of_Z_finite z :
  in_int64 z -> z <> 0 -> exists s m e, f_of_Z z = S754_finite s m e.
Proof.
  intros Hz Hnz.
  assert (Hr : forall s p, Z.pos p <= two63 -> exists m e, binary_round 53 1024 s p 0 = S754_finite s m e).
  { intros s p Hp. unfold binary_round, shl_align, fexp, emin. unfold two63 in Hp.
    destruct (Zdigits2_bound (Z.pos p)) as [[Hlo Hhi] Hd]; [lia|].
    change (Z.pos (digits2_pos p)) with (Zdigits2 (Z.pos p)).
    replace (Z.max (Zdigits2 (Z.pos p) + 0 - 53) (3 - 1024 - 53) - 0) with (Zdigits2 (Z.pos p) - 53) by lia.
    destruct (Zdigits2 (Z.pos p) - 53) as [|q|q] eqn:E; try (apply binary_round_aux_finite; lia).
    apply binary_round_aux_finite; [|lia].
    rewrite iter_xO. split; [apply Z.mul_pos_pos; lia|].
    apply Z.lt_le_trans with (2 ^ Z.pos q * 2 ^ Zdigits2 (Z.pos p)); [apply Z.mul_lt_mono_pos_l; lia|].
    rewrite <- Z.pow_add_r by lia. apply Z.pow_le_mono_r; lia. }
  unfold in_int64, min_int64, max_int64, two63 in *. unfold f_of_Z.
  destruct z as [|p|p]; [done| |]; simpl.
  - destruct (Hr false p) as (m & e & ->); [lia|eauto].
  - destruct (Hr true p) as (m & e & ->); [lia|eauto].
Qed.

Lemma f_of_Z_int64 z : in_int64 z -> finite (f_of_Z z).
Proof.
  intros Hz. destruct (decide (z = 0)) as [->|Hnz]; [done|].
  by destruct (f_of_Z_finite z Hz Hnz) as (s & m & e & ->).
Qed.

#[export] Hint Resolve f_of_Z_int64 : calvo.

(** ** Mantissas of 53 bits

    [spec_float] does not bound mantissas by itself; every operation's result
    is within 53 bits. *)

Definition canon (x : float64) : Prop :=
  match x with S754_finite _ m _ => Z.pos m < 2 ^ 53 | _ => True end.

(** A float of the unit interval as the operations produce it. *)
Definition score01 (x : float64) : Prop := unit01 x /\ canon x.

(** The exponent and the mantissa of a shift to 53 digits. *)
Lemma shr_fexp_canon m e l :
  0 <= m ->
  let r := shr_fexp 53 1024 m e l in
  shr_m r.1 < 2 ^ 53 /\ r.2 = Z.max e (fexp 53 1024 (Zdigits2 m + e)) /\ shr_m r.1 <= m.
Proof.
  intros Hm. cbv zeta. unfold shr_fexp, shr.
  assert (H0 : shr_m (shr_record_of_loc m l) = m) by (by destruct l as [|[]]).
  set (n := fexp 53 1024 (Zdigits2 m + e) - e).
  assert (Hn : Zdigits2 m - 53 <= n) by (unfold n, fexp; lia).
  assert (Hd : m < 2 ^ Z.max 0 (Zdigits2 m)).
  { destruct (decide (m = 0)) as [->|]; [done|].
    destruct (Zdigits2_bound m ltac:(lia)) as [[_ ?] ?]. by rewrite Z.max_r by lia. }
  assert (Hlow : Zdigits2 m <= 53 -> m < 2 ^ 53).
  { intros. eapply Z.lt_le_trans; [exact Hd|]. apply Z.pow_le_mono_r; lia. }
  destruct n as [|p|p] eqn:E; simpl; rewrite ?iter_pos_shr_div, ?H0 by lia.
  - split_and!; [apply Hlow; lia|lia|lia].
  - split_and!; [|lia|apply Z.div_le_upper_bound; [lia|nia]].
    apply Z.div_lt_upper_bound; [lia|]. rewrite <- Z.pow_add_r by lia.
    eapply Z.lt_le_trans; [exact Hd|]. apply Z.pow_le_mono_r; lia.
  - split_and!; [apply Hlow; lia|lia|lia].
Qed.

Lemma binary_round_aux_canon s m e l : 0 <= m -> canon (binary_round_aux 53 1024 s m e l).
Proof.
  intros Hm. unfold binary_round_aux.
  pose proof (shr_fexp_nonneg m e l Hm) as H1.
  destruct (shr_fexp 53 1024 m e l) as [r1 e1]; simpl in H1.
  pose proof (round_nearest_even_nonneg _ (loc_of_shr_record r1) H1) as H2.
  pose proof (shr_fexp_canon _ e1 loc_Exact H2) as (H3 & _).
  destruct (shr_fexp 53 1024 _ e1 loc_Exact) as [r2 e2]; simpl in H3.
  destruct (shr_m r2); [done| |done]. by destruct (e2 <=? _).
Qed.

(** A value below 2^100 does not overflow. *)
Lemma binary_round_aux_small s m e l :
  0 <= m -> e <= 100 -> Zdigits2 m + e <= 100 -> finite (binary_round_aux 53 1024 s m e l).
Proof.
  intros Hm He Hd. unfold binary_round_aux.
  pose proof (shr_fexp_nonneg m e l Hm) as H1.
  pose proof (shr_fexp_canon m e l Hm) as (H1' & He1 & _).
  destruct (shr_fexp 53 1024 m e l) as [r1 e1]; simpl in H1, H1', He1.
  pose proof (round_nearest_even_nonneg _ (loc_of_shr_record r1) H1) as H2.
  pose proof (round_nearest_even_bound (shr_m r1) (loc_of_shr_record r1)) as H2'.
  set (m1 := round_nearest_even (shr_m r1) (loc_of_shr_record r1)) in *.
  pose proof (shr_fexp_nonneg m1 e1 loc_Exact H2) as H3.
  pose proof (shr_fexp_canon m1 e1 loc_Exact H2) as (_ & He2 & _).
  destruct (shr_fexp 53 1024 m1 e1 loc_Exact) as [r2 e2]; simpl in H3, He2.
  assert (Hd1 : Zdigits2 m1 <= 54).
  { destruct (decide (m1 = 0)) as [->|]; [done|]. apply Zdigits2_le; lia. }
  destruct (shr_m r2); [done| |lia].
  rewrite (proj2 (Z.leb_le _ _)); [done|]. unfold fexp, emin in *. lia.
Qed.

Lemma shl_align_mul mx ex ez : ez <= ex -> Z.pos (shl_align mx ex ez).1 = Z.pos mx * 2 ^ (ex - ez).
Proof.
  intros H. unfold shl_align. destruct (ez - ex) as [|p|p] eqn:E; simpl; try lia.
  - replace (ex - ez) with 0 by lia. lia.
  - rewrite iter_xO. replace (ex - ez) with (Z.pos p) by lia. lia.
Qed.

Lemma binary_round_canon s m e : canon (binary_round 53 1024 s m e).
Proof. unfold binary_round. destruct (shl_align _ _ _). by apply binary_round_aux_canon. Qed.

Lemma binary_normalize_canon m e s : canon (binary_normalize 53 1024 m e s).
Proof. destruct m; simpl; auto using binary_round_canon. Qed.

Lemma f_of_Z_canon n : canon (f_of_Z n).
Proof. apply binary_normalize_canon. Qed.

Lemma fadd_canon x y : canon x -> canon y -> canon (fadd x y).
Proof.
  destruct x as [[]|[]| |], y as [[]|[]| |]; simpl; try done. intros _ _. apply binary_normalize_canon.
Qed.

Lemma fsub_canon x y : canon x -> canon y -> canon (fsub x y).
Proof.
  destruct x as [[]|[]| |], y as [[]|[]| |]; simpl; try done; intros _ _; apply binary_normalize_canon.
Qed.

Lemma fmul_canon x y : canon (fmul x y).
Proof. destruct x, y; simpl; try done. by apply binary_round_aux_canon. Qed.

(** A mantissa [m] at exponent [e] that stays below 2^90. *)
Lemma binary_round_small s m e : e <= 90 -> Zdigits2 (Z.pos m) + e <= 90 -> finite (binary_round 53 1024 s m e).
Proof.
  intros He Hd. unfold binary_round.
  destruct (shl_align m e _) as [mz ez] eqn:E. unfold shl_align in E.
  destruct (_ - e) as [|p|p] eqn:Ed; injection E as <- <-; try (apply binary_round_aux_small; lia).
  change (Z.pos (digits2_pos m)) with (Zdigits2 (Z.pos m)) in *.
  set (f := fexp 53 1024 (Zdigits2 (Z.pos m) + e)) in *.
  apply binary_round_aux_small; [lia|lia|].
  assert (Hm : Zdigits2 (Z.pos (Pos.iter xO m p)) <= Z.pos p + Zdigits2 (Z.pos m)); [|lia].
  destruct (Zdigits2_bound (Z.pos m)) as [[_ Hhi] Hd1]; [lia|].
  apply Zdigits2_le; [lia|lia|]. rewrite iter_xO, Z.pow_add_r by lia. apply Z.mul_lt_mono_pos_l; lia.
Qed.

Lemma score01_shape x : score01 x -> (exists s, x = S754_zero s) \/
  exists m e, x = S754_finite false m e /\ Z.pos m < 2 ^ 53 /\ e <= -52.
Proof.
  intros [(Hn & H0 & H1) Hc]. destruct x as [s|[]| |[] m e]; try done; [by left; exists s|].
  right. exists m, e. split_and!; auto. apply Z.nlt_ge. intros Hlt.
  assert (fltb f1 (S754_finite false m e) = true); [|congruence].
  apply fltb_key; [done..|]. right. split; [done|]. left. replace (fkey f1) with (1, (-52, 4503599627370496)) by reflexivity. simpl. lia.
Qed.

(** The difference of two scores is finite: it cannot overflow. *)
Lemma fsub_score_finite x y : score01 x -> score01 y -> finite (fsub x y).
Proof.
  intros Hx Hy. apply score01_shape in Hx as [[sx ->]|(mx & ex & -> & Hmx & Hex)];
    apply score01_shape in Hy as [[sy ->]|(my & ey & -> & Hmy & Hey)]; try done.
  - by destruct sx, sy.
  - unfold fsub, SFsub, cond_Zopp. remember (Z.min ex ey) as ez eqn:Hez.
    pose proof (shl_align_mul mx ex ez ltac:(lia)) as Hx.
    pose proof (shl_align_mul my ey ez ltac:(lia)) as Hy.
    assert (Hb : forall m e, Z.pos m < 2 ^ 53 -> ez <= e <= -52 -> Z.pos m * 2 ^ (e - ez) < 2 ^ (1 - ez)).
    { intros m e Hm He. apply Z.lt_le_trans with (2 ^ 53 * 2 ^ (e - ez)); [apply Z.mul_lt_mono_pos_r; lia|].
      rewrite <- Z.pow_add_r by lia. apply Z.pow_le_mono_r; lia. }
    pose proof (Hb mx ex Hmx ltac:(lia)) as Bx. pose proof (Hb my ey Hmy ltac:(lia)) as By.
    rewrite <- Hx in Bx. rewrite <- Hy in By.
    assert (Hd : forall p, Z.pos p < 2 ^ (1 - ez) -> Zdigits2 (Z.pos p) + ez <= 90).
    { intros p Hp. apply Zdigits2_le in Hp; lia. }
    destruct (Z.pos _ - Z.pos _) as [|p|p] eqn:E; simpl; [done| |];
      apply binary_round_small; try lia; apply Hd; lia.
Qed.

Lemma fadd_nan_right x y : finite x -> y <> S754_nan -> fadd x y <> S754_nan.
Proof.
  destruct x as [[]| | |], y as [[]| | |]; simpl; try done. intros _ _. apply binary_normalize_not_nan.
Qed.

#[export] Hint Resolve fadd_not_nan fsub_not_nan fmul_not_nan unit01_finite f1_finite : calvo.
