(* ===== verification/Types.v ===== *)
(** * Types: the router's shared data (router_types.go, router_policy_types.go,
    the handles of router_quota.go)

    Records carry the source's fields.  Pointers to per-key state are the
    values of the maps that own them: no two keys share a state object. *)

From S2P Require Import Prelude Float.
#[local] Open Scope string_scope.
#[local] Open Scope Z_scope.

(** [providerID] is [cervorules.Executor], a string. *)
Abbreviation providerID := string.

Definition providerOpenRouter : providerID := "openrouter".
Definition providerCerebras : providerID := "cerebras".
Definition providerGroq : providerID := "groq".
Definition providerOllama : providerID := "ollama".
Definition providerLocal : providerID := "local".
Definition providerOpenAI : providerID := "openai".
Definition providerAnthropic : providerID := "anthropic".

(** ** Breaker configuration and state *)

Record breakerConfig := mkConfig {
  cfg_FailureThreshold : Z;
  cfg_Cooldown : Z;
  cfg_RequestTimeout : Z;
  cfg_TotalTimeout : Z;
}.

Record BreakerPolicy := mkBreakerPolicy {
  bp_FailureThreshold : Z;
  bp_Cooldown : Z;
  bp_Eligible : bool;
}.

Record modelBreakerState := mkBreaker {
  ConsecutiveFailures : Z;
  Successes : Z;
  LastFailureCode : Z;
  LastFailureReason : string;
  LastFailureAt : Z;
  OpenUntil : Z;
  ProbeUntil : Z;
  Score : float64;
  ScoreUpdatedAt : Z;
  ScoreAttemptSeq : Z;
}.

(** [&modelBreakerState{}]. *)
Definition zeroBreaker : modelBreakerState :=
  mkBreaker 0 0 0 "" 0 0 0 f0 0 0.

(** ** Quota handles *)

(** A ticket names its ledger (a pointer in the source) and its id. *)
Record QuotaTicket := mkTicket {
  tk_ledger : option nat;
  tk_id : Z;
}.

Definition noTicket : QuotaTicket := mkTicket None 0.

Definition ticket_Valid (t : QuotaTicket) : bool :=
  match tk_ledger t with Some _ => negb (tk_id t =? 0) | None => false end.

Record QuotaEstimate := mkEstimate {
  qe_Requests : Z;
  qe_Tokens : Z;
  qe_InputTokens : Z;
  qe_OutputTokens : Z;
  qe_OutputExplicit : bool;
}.

Definition zeroEstimate : QuotaEstimate := mkEstimate 0 0 0 0 false.

(** ** Attempts and their errors *)

(** [ReserveFallback], a closure the fallback loop installs, is an argument of
    the attempt executor in the model and not a field. *)
Record modelAttempt := mkAttempt {
  Profile : string;
  Model : string;
  Provider : providerID;
  att_BreakerPolicy : BreakerPolicy;
  Path : string;
  AttemptIndex : Z;
  LastInChain : bool;
  BalanceReserved : bool;
  att_QuotaTicket : QuotaTicket;
  att_QuotaEstimate : QuotaEstimate;
}.

Record attemptError := mkAttemptError {
  StatusCode : Z;
  Message : string;
  BreakerEligible : bool;
  Retryable : bool;
  Timeout : bool;
  EOF : bool;
  SkipModel : bool;
  SkipProvider : bool;
  ProviderUnavailable : bool;
  QuotaLimited : bool;
  QuotaPool : string;
  RetryAfter : Z;
}.

(** [modelAttempt{Profile: p, Model: m, Provider: pr, BreakerPolicy: b, Path: path}]. *)
Definition newAttempt (p m : string) (pr : providerID) (b : BreakerPolicy) (path : string) : modelAttempt :=
  mkAttempt p m pr b path 0 false false noTicket zeroEstimate.

Definition set_Provider (pr : providerID) (a : modelAttempt) : modelAttempt :=
  mkAttempt (Profile a) (Model a) pr (att_BreakerPolicy a) (Path a) (AttemptIndex a)
            (LastInChain a) (BalanceReserved a) (att_QuotaTicket a) (att_QuotaEstimate a).
Definition set_Path (path : string) (a : modelAttempt) : modelAttempt :=
  mkAttempt (Profile a) (Model a) (Provider a) (att_BreakerPolicy a) path (AttemptIndex a)
            (LastInChain a) (BalanceReserved a) (att_QuotaTicket a) (att_QuotaEstimate a).
Definition set_BalanceReserved (b : bool) (a : modelAttempt) : modelAttempt :=
  mkAttempt (Profile a) (Model a) (Provider a) (att_BreakerPolicy a) (Path a) (AttemptIndex a)
            (LastInChain a) b (att_QuotaTicket a) (att_QuotaEstimate a).
Definition set_Ticket (t : QuotaTicket) (a : modelAttempt) : modelAttempt :=
  mkAttempt (Profile a) (Model a) (Provider a) (att_BreakerPolicy a) (Path a) (AttemptIndex a)
            (LastInChain a) (BalanceReserved a) t (att_QuotaEstimate a).
Definition set_Estimate (e : QuotaEstimate) (a : modelAttempt) : modelAttempt :=
  mkAttempt (Profile a) (Model a) (Provider a) (att_BreakerPolicy a) (Path a) (AttemptIndex a)
            (LastInChain a) (BalanceReserved a) (att_QuotaTicket a) e.
(** The position and the last-in-chain mark the fallback loop writes. *)
Definition set_position (idx : Z) (last : bool) (a : modelAttempt) : modelAttempt :=
  mkAttempt (Profile a) (Model a) (Provider a) (att_BreakerPolicy a) (Path a) idx
            last (BalanceReserved a) (att_QuotaTicket a) (att_QuotaEstimate a).

#[global] Instance QuotaTicket_eq_dec : EqDecision QuotaTicket.
Proof. solve_decision. Defined.
#[global] Instance BreakerPolicy_eq_dec : EqDecision BreakerPolicy.
Proof. solve_decision. Defined.
#[global] Instance QuotaEstimate_eq_dec : EqDecision QuotaEstimate.
Proof. solve_decision. Defined.
#[global] Instance modelAttempt_eq_dec : EqDecision modelAttempt.
Proof. solve_decision. Defined.

(** ** Retry policy *)

Record RetryPolicy := mkRetryPolicy {
  MaxAttempts : Z;
  RetryHTTPStatuses : list Z;
  RetryOnEOF : bool;
  RetryOnTimeout : bool;
  BackoffMin : Z;
  BackoffMax : Z;
}.

Definition ShouldRetry (policy : RetryPolicy) (err : attemptError) : bool :=
  if Timeout err && RetryOnTimeout policy then true
  else if EOF err && RetryOnEOF policy then true
  else if Retryable err then true
  else existsb (Z.eqb (StatusCode err)) (RetryHTTPStatuses policy).

(** [RetryBackoff] multiplies in 64 bits, and the conversion of a power of two
    from 2^63 on is left to the implementation by Go: [conv] is that result. *)
Definition RetryBackoff (conv : Z -> Z) (policy : RetryPolicy) (attemptIndex : Z) : Z :=
  if attemptIndex <=? 0 then 0
  else
    let min := if BackoffMin policy <=? 0 then 100 * Millisecond else BackoffMin policy in
    let maxDelay := if BackoffMax policy <=? 0 then min else BackoffMax policy in
    let pow := 2 ^ (attemptIndex - 1) in
    let factor := if pow <? two63 then pow else conv pow in
    let delay := wrap64 (min * factor) in
    if maxDelay <? delay then maxDelay else delay.
