(* ===== verification/Env.v ===== *)
(** * Env: settings read from the environment (router_policy_env.go)

    The process environment is a map from names to values; a name that is
    not set reads as the empty string, as [os.Getenv] returns it.  Integers
    are parsed as [strconv.ParseInt(s, 10, 64)] and [strconv.Atoi] do on a
    64-bit platform: an optional sign, decimal digits only, and an error
    outside the range. *)

From S2P Require Import Prelude.
From Stdlib Require Import Lia ZArith String Ascii.
#[local] Open Scope string_scope.
#[local] Open Scope Z_scope.

Abbreviation environ := (gmap string string).

Definition Getenv (env : environ) (key : string) : string := default "" (env !! key).

Definition envValue (env : environ) (key : string) : string := TrimSpace (Getenv env key).

Definition canonicalEnvValue (env : environ) (key : string) : string := ToLower (envValue env key).

(** ** strconv *)

Definition digit_of (c : ascii) : option Z :=
  let n := Z.of_nat (nat_of_ascii c) in
  if (48 <=? n) && (n <=? 57) then Some (n - 48) else None.

Fixpoint digits_val (acc : Z) (s : string) : option Z :=
  match s with
  | EmptyString => Some acc
  | String c s => match digit_of c with Some d => digits_val (10 * acc + d) s | None => None end
  end.

Definition parse_digits (s : string) : option Z :=
  match s with EmptyString => None | _ => digits_val 0 s end.

(** [None] is any error: syntax or range. *)
Definition ParseInt64 (s : string) : option Z :=
  let v := match s with
           | String "-"%char r => Z.opp <$> parse_digits r
           | String "+"%char r => parse_digits r
           | _ => parse_digits s
           end in
  match v with
  | Some n => if (min_int64 <=? n) && (n <=? max_int64) then Some n else None
  | None => None
  end.

Definition Atoi (s : string) : option Z := ParseInt64 s.

(** ** Typed settings *)

Definition envBool (env : environ) (key : string) (fallback : bool) : bool :=
  let raw := canonicalEnvValue env key in
  if str_eq raw "" then fallback
  else if existsb (str_eq raw) ["1"; "true"; "yes"; "on"] then true
  else if existsb (str_eq raw) ["0"; "false"; "no"; "off"] then false
  else fallback.

Definition envInt (env : environ) (key : string) (fallback : Z) : Z :=
  let raw := envValue env key in
  if empty_str raw then fallback
  else match Atoi raw with None => fallback | Some parsed => parsed end.

Definition envDurationSeconds (env : environ) (key : string) (fallback : Z) : Z :=
  let raw := envValue env key in
  if empty_str raw then fallback
  else match Atoi raw with
       | None => fallback
       | Some parsed => if parsed <=? 0 then fallback else wrap64 (parsed * Second)
       end.

(** A positive byte count, or the default. *)
Definition positiveBytes (env : environ) (key : string) (fallback : Z) : Z :=
  let raw := envValue env key in
  if negb (empty_str raw) then
    match ParseInt64 raw with
    | Some n => if 0 <? n then n else fallback
    | None => fallback
    end
  else fallback.

Definition maxRequestBodyBytes (env : environ) : Z :=
  positiveBytes env "PROXY_MAX_BODY_BYTES" (Z.shiftl 64 20).

Definition maxResponseBytes (env : environ) : Z :=
  positiveBytes env "PROXY_MAX_RESPONSE_BYTES" (Z.shiftl 25 20).

Definition maxErrorBodyBytes : Z := Z.shiftl 1 20.

Definition streamIdleTimeout (env : environ) : Z :=
  envDurationSeconds env "PROXY_STREAM_IDLE_TIMEOUT" (120 * Second).

Definition streamMaxDuration (env : environ) : Z :=
  let raw := envValue env "PROXY_STREAM_MAX_DURATION" in
  if negb (empty_str raw) then
    match Atoi raw with
    | Some n => if n <=? 0 then 0 else wrap64 (n * Second)
    | None => 30 * Minute
    end
  else 30 * Minute.

Definition streamFirstEventTimeout (env : environ) : Z :=
  envDurationSeconds env "PROXY_STREAM_FIRST_BYTE_TIMEOUT" 0.

Definition totalTimeout (env : environ) (perAttempt : Z) : Z :=
  let d := envDurationSeconds env "PROXY_TOTAL_TIMEOUT_SECONDS" 0 in
  if 0 <? d then d
  else if perAttempt <? 120 * Second then 120 * Second
  else perAttempt.

(** ** Lists of values *)

(** [strings.Split(raw, ",")]. *)
Fixpoint split_on (sep : ascii) (s : string) : list string :=
  match s with
  | EmptyString => [EmptyString]
  | String c s' =>
      if Ascii.eqb c sep then EmptyString :: split_on sep s'
      else match split_on sep s' with
           | h :: t => String c h :: t
           | [] => [String c EmptyString]
           end
  end.

Definition splitCSV (raw : string) : list string :=
  List.filter (fun part => negb (empty_str part)) (TrimSpace <$> split_on "," raw).

(** ** The bridge of the names before the rename *)

Definition legacySuffixes : list string :=
  ["MODEL"; "MODEL_ALIASES_JSON"; "MODEL_ALLOWED"; "MODEL_DEFAULT"; "MODEL_DEFAULT_PROFILE";
   "MODEL_POLICY_MODE"; "MODEL_POLICY_STRICT"; "MODEL_PROFILES_JSON"; "POLICY_DEBUG_INCLUDE_TRACE";
   "POLICY_LOG_ENABLED"; "POLICY_LOG_LEVEL"; "POLICY_METRICS_ENABLED";
   "POLICY_OBSERVATION_SAMPLE_RATE"; "POLICY_TRACE_ENABLED"; "DEFAULT_BEARER"; "FORWARD_AUTH";
   "HTTP_BASE_URL"; "HTTP_TIMEOUT"; "HTTP_TOKEN"].

Definition legacyEnvNames : list string := (fun x => "CERVO_" +:+ x) <$> legacySuffixes.

Definition TrimPrefix (s p : string) : string :=
  if HasPrefix s p then String.substring (String.length p) (String.length s - String.length p) s else s.

Definition modernName (legacy : string) : string := "PROXY_" +:+ TrimPrefix legacy "CERVO_".

Definition bridgeOne (env : environ) (legacy : string) : environ :=
  if negb (empty_str (envValue env legacy)) then env
  else
    let v := envValue env (modernName legacy) in
    if negb (empty_str v) then <[legacy := v]> env else env.

Definition bridgeLegacyPolicyEnv (env : environ) : environ :=
  fold_left bridgeOne legacyEnvNames env.

(** ** Lemmas *)

Lemma envDurationSeconds_int64 env key fallback :
  in_int64 fallback -> in_int64 (envDurationSeconds env key fallback).
Proof. intros H. unfold envDurationSeconds. repeat case_match; auto using wrap64_range. Qed.

Lemma ParseInt64_range s n : ParseInt64 s = Some n -> in_int64 n.
Proof.
  unfold ParseInt64. set (v := match s with EmptyString => _ | _ => _ end).
  destruct v as [m|]; [|done]. destruct (_ && _) eqn:E; [|done]. intros [= <-].
  unfold in_int64. zbool. lia.
Qed.

Lemma envInt_int64 env key fallback : in_int64 fallback -> in_int64 (envInt env key fallback).
Proof.
  intros H. unfold envInt. destruct (empty_str _); [done|].
  destruct (Atoi _) eqn:E; [|done]. by apply ParseInt64_range in E.
Qed.

Lemma positiveBytes_pos env key fallback : 0 < fallback -> 0 < positiveBytes env key fallback.
Proof.
  intros H. unfold positiveBytes. destruct (negb _); [|done].
  destruct (ParseInt64 _) as [n|]; [|done]. by destruct (Z.ltb_spec 0 n).
Qed.

Lemma envValue_insert_eq env k v : envValue (<[k := v]> env) k = TrimSpace v.
Proof. unfold envValue, Getenv. by rewrite lookup_insert_eq. Qed.

Lemma envValue_insert_ne env k k' v : k <> k' -> envValue (<[k := v]> env) k' = envValue env k'.
Proof. intros H. unfold envValue, Getenv. by rewrite lookup_insert_ne. Qed.

(** The value a legacy name has after the bridge. *)
Definition bridged (env : environ) (legacy : string) : string :=
  if empty_str (envValue env legacy) then envValue env (modernName legacy) else envValue env legacy.

Lemma bridgeOne_other env legacy k : k <> legacy -> bridgeOne env legacy !! k = env !! k.
Proof. intros H. unfold bridgeOne. repeat case_match; auto. by rewrite lookup_insert_ne. Qed.

Lemma bridgeOne_self env legacy : envValue (bridgeOne env legacy) legacy = bridged env legacy.
Proof.
  unfold bridgeOne, bridged. destruct (empty_str (envValue env legacy)) eqn:E1; simpl; [|done].
  destruct (empty_str (envValue env (modernName legacy))) eqn:E2; simpl.
  - apply empty_str_spec in E1, E2. congruence.
  - rewrite envValue_insert_eq. apply TrimSpace_idemp.
Qed.

Lemma bridge_other l : forall env k, k ∉ l -> fold_left bridgeOne l env !! k = env !! k.
Proof.
  induction l as [|x l IH]; intros env k Hk; simpl; [done|].
  apply not_elem_of_cons in Hk as [Hx Hl]. rewrite IH by done. by apply bridgeOne_other.
Qed.

Lemma envValue_lookup env env' k : env !! k = env' !! k -> envValue env k = envValue env' k.
Proof. intros H. unfold envValue, Getenv. by rewrite H. Qed.

Lemma bridge_self l : forall env legacy,
  NoDup l -> legacy ∈ l -> Forall (fun x => modernName x ∉ l) l ->
  envValue (fold_left bridgeOne l env) legacy = bridged env legacy.
Proof.
  induction l as [|x l IH]; intros env legacy Hnd Hin Hm; simpl; [by apply elem_of_nil in Hin|].
  apply NoDup_cons in Hnd as [Hx Hnd].
  destruct (decide (legacy = x)) as [->|Hne].
  - rewrite (envValue_lookup _ (bridgeOne env x)) by (by apply bridge_other). apply bridgeOne_self.
  - apply elem_of_cons in Hin as [?|Hin]; [done|].
    assert (Hmx : modernName legacy <> x).
    { rewrite Forall_forall in Hm. intros Hx'. apply (Hm legacy); [by right|]. rewrite Hx'. by left. }
    rewrite IH; [|done|done|].
    + unfold bridged. by rewrite !(envValue_lookup (bridgeOne env x) env) by (by apply bridgeOne_other).
    + inversion_clear Hm as [|? ? _ Hm']. eapply Forall_impl; [exact Hm'|].
      intros y Hy Hyl. apply Hy. by right.
Qed.

Lemma legacy_names_ok : NoDup legacyEnvNames /\ Forall (fun x => modernName x ∉ legacyEnvNames) legacyEnvNames.
Proof. split; refine (bool_decide_eq_true_1 _ _); vm_compute; reflexivity. Qed.

(** The bridge publishes every modern name under its legacy name exactly
    when the legacy name is not set: a legacy setting always wins, no other
    variable changes, and running the bridge again changes nothing a reader
    can see. *)
Theorem bridge_legacy_wins env :
  let env' := bridgeLegacyPolicyEnv env in
  (forall legacy, legacy ∈ legacyEnvNames ->
     (envValue env legacy <> "" -> envValue env' legacy = envValue env legacy) /\
     (envValue env legacy = "" -> envValue env' legacy = envValue env (modernName legacy))) /\
  (forall k, k ∉ legacyEnvNames -> env' !! k = env !! k) /\
  (forall k, envValue (bridgeLegacyPolicyEnv env') k = envValue env' k).
Proof.
  cbv zeta. destruct legacy_names_ok as [Hnd Hm].
  assert (Hself : forall e legacy, legacy ∈ legacyEnvNames ->
            envValue (bridgeLegacyPolicyEnv e) legacy = bridged e legacy)
    by (intros; by apply bridge_self).
  assert (Hother : forall e k, k ∉ legacyEnvNames -> bridgeLegacyPolicyEnv e !! k = e !! k)
    by (intros; by apply bridge_other).
  split_and!.
  - intros legacy Hl. rewrite Hself by done. unfold bridged.
    destruct (empty_str (envValue env legacy)) eqn:E.
    + apply empty_str_spec in E. done.
    + split; [done|]. intros H. rewrite H in E. done.
  - intros. by apply Hother.
  - intros k. destruct (decide (k ∈ legacyEnvNames)) as [Hk|Hk]; [|by apply envValue_lookup, Hother].
    rewrite (Hself _ k Hk). unfold bridged.
    destruct (empty_str (envValue (bridgeLegacyPolicyEnv env) k)) eqn:E; [|done].
    rewrite Forall_forall in Hm. rewrite (envValue_lookup _ env) by (apply Hother, Hm, Hk).
    apply empty_str_spec in E. rewrite E, (Hself _ k Hk) in *. unfold bridged in E.
    destruct (empty_str (envValue env k)) eqn:E2; [done|]. by rewrite E in E2.
Qed.
