(* ===== verification/Text.v ===== *)
(** * Text: byte sets, runes and the formatting of numbers

    What the router's text needs of Go's strings, strconv and unicode/utf8
    beyond the prelude: cutting a string into encoded runes, the part after the
    last slash, floats with a fixed number of decimals, and lemmas on which
    bytes a string is made of. *)

From S2P Require Import Prelude Float.
From Stdlib Require Import Lia ZArith Ascii String SpecFloat.
From stdpp Require Export pretty.
#[local] Open Scope string_scope.
#[local] Open Scope Z_scope.

(** ** Runes *)

Definition byteIn (lo hi : nat) (c : ascii) : bool := (lo <=? nat_of_ascii c)%nat && (nat_of_ascii c <=? hi)%nat.

(** The length of the first rune; a byte that starts none counts as one. *)
Definition runeLen (s : bytes) : nat :=
  match s with
  | [] => 0
  | a :: t =>
      let cont := byteIn 128 191 in
      match t with
      | b :: t =>
          if byteIn 194 223 a && cont b then 2
          else match t with
          | c :: t =>
              if ((byteIn 224 224 a && byteIn 160 191 b) || (byteIn 225 236 a && cont b) ||
                  (byteIn 237 237 a && byteIn 128 159 b) || (byteIn 238 239 a && cont b)) && cont c then 3
              else match t with
              | d :: _ =>
                  if ((byteIn 240 240 a && byteIn 144 191 b) || (byteIn 241 243 a && cont b) ||
                      (byteIn 244 244 a && byteIn 128 143 b)) && cont c && cont d then 4
                  else 1
              | [] => 1
              end
          | [] => 1
          end
      | [] => 1
      end
  end%nat.

(** ** Parts of a string *)

(** What follows the last slash; [None] without one. *)
Fixpoint afterLastSlash (s : string) : option string :=
  match s with
  | EmptyString => None
  | String c rest =>
      match afterLastSlash rest with
      | Some t => Some t
      | None => if Ascii.eqb c "/"%char then Some rest else None
      end
  end.

Definition TrimSuffix (s suffix : string) : string :=
  if HasSuffix s suffix then String.substring 0 (String.length s - String.length suffix) s else s.

(** ** Numbers *)

(** [strconv.FormatFloat(x, 'f', prec, 64)]: the exact value, rounded to [prec]
    decimals with ties to even. *)
Definition roundHalfEven (n d : Z) : Z :=
  let q := n / d in
  let r := 2 * (n mod d) in
  if r <? d then q else if d <? r then q + 1 else if Z.even q then q else q + 1.

Definition padZeros (width : nat) (s : string) : string :=
  string_of_list_ascii (replicate (width - String.length s) "0"%char) +:+ s.

(** [n] with the point before its last [prec] digits. *)
Definition fixedPoint (prec : nat) (n : Z) : string :=
  let s := padZeros (S prec) (pretty n) in
  let cut := (String.length s - prec)%nat in
  String.substring 0 cut s +:+ "." +:+ String.substring cut prec s.

Definition FormatFixed (prec : nat) (x : float64) : string :=
  let sign (s : bool) := if s then "-" else "" in
  match x with
  | S754_nan => "NaN"
  | S754_infinity s => if s then "-Inf" else "+Inf"
  | S754_zero s => sign s +:+ fixedPoint prec 0
  | S754_finite s m e =>
      let scaled := Z.pos m * 10 ^ Z.of_nat prec in
      sign s +:+ fixedPoint prec (if 0 <=? e then scaled * 2 ^ e else roundHalfEven scaled (2 ^ (- e)))
  end.

(** ** Strings over a set of bytes *)

Definition strAll (p : ascii -> bool) (s : string) : Prop := Forall (fun c => p c = true) (list_ascii_of_string s).

#[export] Instance strAll_dec p s : Decision (strAll p s).
Proof. unfold strAll. apply _. Defined.

Lemma strlen_app s t : String.length (s +:+ t) = (String.length s + String.length t)%nat.
Proof. induction s as [|c s IH]; simpl; [done|]. unfold String.app in *. by rewrite IH. Qed.

#[export] Instance str_app_assoc : Assoc (=) String.append.
Proof. intros s t u. induction s as [|c s IH]; [done|]. exact (f_equal (String c) IH). Qed.

#[export] Instance str_app_nil : RightId (=) "" String.append.
Proof. intros s. induction s as [|c s IH]; [done|]. exact (f_equal (String c) IH). Qed.

Section bytesets.
Context (p : ascii -> bool).

Lemma string_of_list_app (l k : bytes) : string_of_list_ascii (l ++ k)%list = string_of_list_ascii l +:+ string_of_list_ascii k.
Proof. induction l as [|c l IH]; [done|]. cbn [app string_of_list_ascii]. by rewrite IH. Qed.

Lemma list_ascii_app s t : list_ascii_of_string (s +:+ t) = (list_ascii_of_string s ++ list_ascii_of_string t)%list.
Proof. induction s as [|c s IH]; simpl; [done|]. by rewrite <- IH. Qed.

Lemma strAll_app s t : strAll p (s +:+ t) <-> strAll p s /\ strAll p t.
Proof. unfold strAll. rewrite list_ascii_app. apply Forall_app. Qed.

Lemma strAll_concat sep l : strAll p sep -> Forall (strAll p) l -> strAll p (String.concat sep l).
Proof.
  intros Hsep. induction 1 as [|s l Hs Hl IH]; [constructor|]. destruct l; simpl; [done|].
  rewrite !strAll_app. done.
Qed.

Lemma strAll_of_list l : strAll p (string_of_list_ascii l) <-> Forall (fun c => p c = true) l.
Proof. unfold strAll. by rewrite list_ascii_of_string_of_list_ascii. Qed.

Lemma strAll_substring n m s : strAll p s -> strAll p (String.substring n m s).
Proof.
  unfold strAll. revert n m. induction s as [|c s IH]; intros n m H; simpl; [by destruct n, m|].
  inversion_clear H. destruct n; [destruct m|]; simpl; try constructor; auto.
Qed.

Lemma strAll_impl (q : ascii -> bool) s : (forall c, p c = true -> q c = true) -> strAll p s -> strAll q s.
Proof. intros H Hs. eapply Forall_impl; [exact Hs|exact H]. Qed.
End bytesets.

Definition digitByte (c : ascii) : bool := byteIn 48 57 c.

Lemma strAll_pretty_N (x : N) : strAll digitByte (pretty x).
Proof.
  unfold pretty, pretty_N. destruct (decide (x = 0)%N); [by repeat constructor|].
  assert (H : strAll digitByte "") by constructor. revert H. generalize "". clear n.
  induction (N.lt_wf_0 x) as [x _ IH]; intros s Hs.
  assert (x = 0 \/ 0 < x)%N as [->|Hx] by lia; [by rewrite pretty_N_go_0|].
  rewrite pretty_N_go_step by done. apply IH; [by apply N.div_lt|].
  constructor; [|done]. unfold pretty_N_char. by repeat case_match.
Qed.

Lemma strAll_pretty_nonneg (z : Z) : 0 <= z -> strAll digitByte (pretty z).
Proof. intros H. destruct z as [|x|x]; [by repeat constructor|apply (strAll_pretty_N (N.pos x))|lia]. Qed.

Lemma strAll_pretty_Z p (z : Z) : (forall c, digitByte c = true -> p c = true) -> p "-"%char = true -> strAll p (pretty z).
Proof.
  intros Hd Hm. destruct (Z.le_gt_cases 0 z) as [Hz|Hz].
  - eapply strAll_impl; [done|]. by apply strAll_pretty_nonneg.
  - destruct z as [|x|x]; [lia|lia|]. change (pretty (Z.neg x)) with ("-" +:+ pretty (N.pos x)).
    apply strAll_app. split; [by repeat constructor|]. eapply strAll_impl; [done|]. apply strAll_pretty_N.
Qed.

Lemma strAll_FormatFixed p prec x :
  (forall c, digitByte c = true -> p c = true) -> Forall (fun c => p c = true) (list_ascii_of_string "-.+InfNa") ->
  strAll p (FormatFixed prec x).
Proof.
  intros Hd Hs. simpl in Hs. rewrite !Forall_cons in Hs. destruct Hs as (Hm & Hdot & Hp & HI & Hn & Hf & HN & Ha & _).
  assert (Hfix : forall n, strAll p (fixedPoint prec n)).
  { intros n. unfold fixedPoint. rewrite !strAll_app. split_and!; [apply strAll_substring| |apply strAll_substring]; try (by repeat constructor);
      unfold padZeros; rewrite strAll_app, strAll_of_list; (split; [apply Forall_replicate; by apply Hd|by apply strAll_pretty_Z]). }
  assert (Hsign : forall s : bool, strAll p (if s then "-" else "")) by (intros []; by repeat constructor).
  destruct x as [s|s| |s m e]; simpl; [apply strAll_app; auto|destruct s; by repeat constructor|by repeat constructor|apply strAll_app; auto].
Qed.

(** ** Searching *)

Lemma prefix_app p s : String.prefix p (p +:+ s) = true.
Proof. induction p as [|c p IH]; simpl; [by destruct s|]. by destruct (ascii_dec c c). Qed.

Lemma prefix_inv p : forall s, String.prefix p s = true -> exists t, s = p +:+ t.
Proof.
  induction p as [|c p IH]; intros s H; [by exists s|]. destruct s as [|d s]; simpl in H; [done|].
  destruct (ascii_dec c d) as [->|]; [|done]. destruct (IH s H) as [t ->]. by exists t.
Qed.

Lemma Contains_cons c s sub : Contains s sub = true -> Contains (String c s) sub = true.
Proof.
  unfold Contains. intros H. simpl. destruct sub as [|d sub]; [done|]. destruct (ascii_dec d c); [destruct (String.prefix sub s); [done|]|];
    by destruct (String.index 0 (String d sub) s).
Qed.

Lemma Contains_app pre sub post : Contains (pre +:+ sub +:+ post) sub = true.
Proof.
  induction pre as [|c pre IH]; [|by apply Contains_cons]. change ("" +:+ sub +:+ post) with (sub +:+ post).
  destruct sub as [|d sub]; [unfold Contains; by destruct post|]. unfold Contains. simpl.
  destruct (ascii_dec d d); [|done]. change (sub ++ post)%string with (sub +:+ post). by rewrite prefix_app.
Qed.

(** ** Case and white space

    No byte of a white space sequence is the image of another letter, so folding
    the case leaves trimmed text trimmed. *)

Definition caseless (c : ascii) : bool := negb (byteIn 65 90 c) && negb (byteIn 97 122 c).

Lemma lower_byte_caseless_eqb a c : caseless a = true -> Ascii.eqb a (lower_byte c) = Ascii.eqb a c.
Proof. revert a c. intros [[] [] [] [] [] [] [] []] [[] [] [] [] [] [] [] []]; vm_compute; congruence. Qed.

Lemma lower_byte_idemp c : lower_byte (lower_byte c) = lower_byte c.
Proof. by destruct c as [[] [] [] [] [] [] [] []]; vm_compute. Qed.

(** A rune that another one folds to, at the head of a text. *)
Definition wideHead (a0 b0 c0 : ascii) (s : bytes) : option (ascii * bytes) :=
  match Prelude.strip_prefix [a0; b0] s with
  | Some r => Some (c0, r)
  | None => match Prelude.strip_prefix [byte 226; byte 132; byte 170] s with Some r => Some ("k"%char, r) | None => None end
  end.

Section folding.
Context (a0 b0 c0 : ascii).
#[local] Abbreviation fold := (foldWide a0 b0 c0).

Lemma foldWide_eq s : fold s = match wideHead a0 b0 c0 s with Some (c, r) => c :: fold r | None => match s with a :: t => a :: fold t | [] => [] end end.
Proof.
  unfold wideHead. destruct s as [|a [|b t]]; [done|..].
  - cbn [foldWide Prelude.strip_prefix]. by destruct (Ascii.eqb a0 a), (Ascii.eqb (byte 226) a).
  - cbn [foldWide Prelude.strip_prefix]. rewrite (Ascii.eqb_sym a0 a), (Ascii.eqb_sym b0 b), (Ascii.eqb_sym (byte 226) a), (Ascii.eqb_sym (byte 132) b).
    destruct (Ascii.eqb a a0), (Ascii.eqb b b0); cbn [andb]; try done;
      (destruct t as [|c t]; [by destruct (Ascii.eqb a (byte 226)), (Ascii.eqb b (byte 132))|]); rewrite (Ascii.eqb_sym (byte 170) c);
      by destruct (Ascii.eqb a (byte 226)), (Ascii.eqb b (byte 132)), (Ascii.eqb c (byte 170)).
Qed.

Lemma wideHead_Some s c r : wideHead a0 b0 c0 s = Some (c, r) -> (c = c0 \/ c = "k"%char) /\ (List.length r < List.length s)%nat /\ exists k, s = (k ++ r)%list.
Proof.
  assert (Hcase : wideHead a0 b0 c0 s = Some (c, r) -> (c = c0 \/ c = "k"%char) /\ exists p, p <> [] /\ Prelude.strip_prefix p s = Some r).
  { unfold wideHead. destruct (Prelude.strip_prefix [a0; b0] s) eqn:E; [|destruct (Prelude.strip_prefix [byte 226; byte 132; byte 170] s) eqn:E2; [|discriminate]];
      intros [= <- <-]; (split; [by auto|eexists; split; [|eassumption]; done]). }
  intros [Hc ([|a p] & Hp & E)]%Hcase; [done|]. split; [done|]. split; [apply strip_prefix_length in E; simpl in E; lia|by eapply strip_prefix_suffix].
Qed.

Lemma foldWide_ind (P : bytes -> Prop) : P [] ->
  (forall s c r, wideHead a0 b0 c0 s = Some (c, r) -> P r -> P s) ->
  (forall a t, wideHead a0 b0 c0 (a :: t) = None -> P t -> P (a :: t)) -> forall s, P s.
Proof.
  intros Hn Hw Hc s. remember (List.length s) as n eqn:E. revert s E. induction (lt_wf n) as [n _ IH]. intros s ->.
  destruct (wideHead a0 b0 c0 s) as [[c r]|] eqn:Ew.
  - apply (Hw _ _ _ Ew). apply (IH (List.length r)); [|done]. by apply wideHead_Some in Ew as (_ & ? & _).
  - destruct s as [|a t]; [done|]. apply Hc; [done|]. apply (IH (List.length t)); [simpl; lia|done].
Qed.

(** A byte no other rune folds to. *)
Definition foldless (c : ascii) : Prop := caseless c = true /\ c <> c0 /\ c <> "k"%char.

Lemma lower_foldless c d : foldless c -> lower_byte d = c -> d = c.
Proof. intros [H _] E. pose proof (lower_byte_caseless_eqb c d H) as Hc. rewrite E, Ascii.eqb_refl in Hc. symmetry in Hc. by apply Ascii.eqb_eq in Hc. Qed.

Lemma foldWide_prefix p : Forall foldless p -> forall s r, fold s = (p ++ r)%list -> exists r', s = (p ++ r')%list /\ fold r' = r.
Proof.
  induction 1 as [|a p (_ & Ha & Hk) _ IH]; intros s r; [by exists s|]. rewrite foldWide_eq.
  destruct (wideHead a0 b0 c0 s) as [[c r1]|] eqn:E; [apply wideHead_Some in E as [[-> | ->] _]; by intros [= ]|].
  destruct s as [|b t]; [done|]. intros [= -> Ht]. destruct (IH t r Ht) as (r' & -> & Hr). by exists r'.
Qed.

Lemma foldWide_nil s : fold s = [] -> s = [].
Proof. destruct s as [|x s]; [done|]. rewrite foldWide_eq. by destruct (wideHead a0 b0 c0 (x :: s)) as [[? ?]|]. Qed.

Lemma foldWide_suffix p : Forall foldless p -> forall s r, fold s = (r ++ p)%list -> exists r', s = (r' ++ p)%list.
Proof.
  intros Hp. induction s as [|s c t E IH|a t E IH] using foldWide_ind; intros r Hs.
  - exists r. exact Hs.
  - destruct r as [|d r].
    + destruct (foldWide_prefix p Hp s []) as (r' & -> & Hr); [by rewrite app_nil_r|]. exists []. apply foldWide_nil in Hr as ->. by rewrite app_nil_r.
    + rewrite foldWide_eq, E in Hs. injection Hs as _ Hs. destruct (IH r Hs) as [r' ->].
      apply wideHead_Some in E as (_ & _ & k & ->). exists (k ++ r')%list. by rewrite app_assoc.
  - destruct r as [|d r].
    + destruct (foldWide_prefix p Hp (a :: t) []) as (r' & -> & Hr); [by rewrite app_nil_r|]. exists []. apply foldWide_nil in Hr as ->. by rewrite app_nil_r.
    + rewrite foldWide_eq, E in Hs. injection Hs as _ Hs. destruct (IH r Hs) as [r' ->]. by exists (a :: r').
Qed.

Lemma foldWide_bytes s c : c ∈ fold s -> c ∈ s \/ c = c0 \/ c = "k"%char.
Proof.
  induction s as [|s d t E IH|a t E IH] using foldWide_ind; rewrite foldWide_eq; [by left|..]; rewrite E, elem_of_cons.
  - apply wideHead_Some in E as (Hd & _ & k & ->). rewrite elem_of_app. intros [->|H]; [tauto|]. destruct (IH H); tauto.
  - rewrite elem_of_cons. intros [->|H]; [by left; left|]. destruct (IH H); tauto.
Qed.

Lemma wideHead_app s a t : a <> b0 -> a <> byte 132 -> a <> byte 170 -> s <> [] ->
  wideHead a0 b0 c0 (s ++ a :: t)%list = (fun '(c, r) => (c, (r ++ a :: t)%list)) <$> wideHead a0 b0 c0 s.
Proof.
  intros Hb H1 H2 Hs. apply not_eq_sym, Ascii.eqb_neq in Hb, H1, H2. unfold wideHead. destruct s as [|x [|y [|z s]]]; [done|..].
  - change ([x] ++ a :: t)%list with (x :: a :: t). cbn [Prelude.strip_prefix]. rewrite Hb, H1. by destruct (Ascii.eqb a0 x), (Ascii.eqb (byte 226) x).
  - change ([x; y] ++ a :: t)%list with (x :: y :: a :: t). cbn [Prelude.strip_prefix]. rewrite H2.
    by destruct (Ascii.eqb a0 x), (Ascii.eqb b0 y), (Ascii.eqb (byte 226) x), (Ascii.eqb (byte 132) y).
  - change ((x :: y :: z :: s) ++ a :: t)%list with (x :: y :: z :: (s ++ a :: t))%list. cbn [Prelude.strip_prefix].
    by destruct (Ascii.eqb a0 x), (Ascii.eqb b0 y), (Ascii.eqb (byte 226) x), (Ascii.eqb (byte 132) y), (Ascii.eqb (byte 170) z).
Qed.

(** A byte no rune continues with keeps what is before it from what follows. *)
Lemma foldWide_app s a t : a <> b0 -> a <> byte 132 -> a <> byte 170 -> fold (s ++ a :: t)%list = (fold s ++ fold (a :: t))%list.
Proof.
  intros Hb H1 H2. induction s as [|s c r E IH|x s E IH] using foldWide_ind; [done|..].
  - rewrite (foldWide_eq (s ++ _)), (foldWide_eq s), wideHead_app, E by (done || by intros ->). simpl. by rewrite IH.
  - rewrite (foldWide_eq (_ ++ _)), (foldWide_eq (x :: s)), wideHead_app, E by done. simpl. by rewrite IH.
Qed.
End folding.

Lemma map_prefix {A} (f : A -> A) (p s : list A) r : Forall (fun c => forall d, f d = c -> d = c) p -> f <$> s = (p ++ r)%list -> exists r', s = (p ++ r')%list.
Proof.
  intros Hp. revert s. induction Hp as [|a p Ha _ IH]; intros s H; [by exists s|]. destruct s as [|b s]; [done|]. injection H as H1 H2.
  destruct (IH s H2) as [r' ->]. exists r'. by rewrite (Ha b H1).
Qed.

Lemma strip_prefix_Some p s s' : Prelude.strip_prefix p s = Some s' <-> s = (p ++ s')%list.
Proof.
  revert s. induction p as [|a p IH]; intros s; simpl; [split; congruence|]. destruct s as [|b s]; [done|].
  destruct (Ascii.eqb a b) eqn:E; [apply Ascii.eqb_eq in E as ->; rewrite IH; split; congruence|]. split; [done|]. intros [= <- _]. by rewrite Ascii.eqb_refl in E.
Qed.

Lemma strip_any_None ps s : strip_any ps s = None <-> Forall (fun p => forall r, s <> (p ++ r)%list) ps.
Proof.
  induction ps as [|p ps IH]; simpl; [by split|]. rewrite Forall_cons, <- IH. destruct (Prelude.strip_prefix p s) as [r|] eqn:E.
  - split; [done|]. intros [H _]. apply strip_prefix_Some in E. by destruct (H r).
  - split; [|by intros [_ ?]]. intros H. split; [|done]. intros r Hr%strip_prefix_Some. congruence.
Qed.

Lemma lowerText_prefix p s r : Forall (foldless "i") p -> lowerText s = (p ++ r)%list -> exists r', s = (p ++ r')%list.
Proof.
  intros Hp H. apply map_prefix in H as [r1 H1]; [|eapply Forall_impl; [exact Hp|intros c Hc d; by apply (lower_foldless "i")]].
  apply foldWide_prefix in H1 as (r' & -> & _); [by exists r'|done].
Qed.

Lemma lowerText_suffix p s r : Forall (foldless "i") p -> lowerText s = (r ++ p)%list -> exists r', s = (r' ++ p)%list.
Proof.
  intros Hp H. apply (f_equal (@rev ascii)) in H. rewrite rev_app_distr in H. unfold lowerText in H. change (lower_byte <$> ?l) with (List.map lower_byte l) in H.
  rewrite <- map_rev in H. change (List.map lower_byte ?l) with (lower_byte <$> l) in H. apply map_prefix in H as [r1 H1].
  - apply (f_equal (@rev ascii)) in H1. rewrite rev_app_distr, !rev_involutive in H1. by apply foldWide_suffix in H1.
  - apply Forall_rev. eapply Forall_impl; [exact Hp|intros c Hc d; by apply (lower_foldless "i")].
Qed.

Lemma spaces_foldless : Forall (Forall (foldless "i")) all_space_seqs.
Proof. apply (bool_decide_unpack (Forall (Forall (foldless "i")) all_space_seqs)). vm_compute. exact I. Qed.

(** What has no white space at its ends has none when its case is folded. *)
Lemma lowerText_trimmed (s : bytes) : trim_both s = s -> trim_both (lowerText s) = lowerText s.
Proof.
  intros Hs. destruct (trim_both_ends s) as [Hl Hr]. rewrite Hs in Hl, Hr. pose proof spaces_foldless as Hf. rewrite strip_any_None in Hl, Hr.
  apply trim_both_id; apply strip_any_None; [|apply Forall_fmap; apply Forall_fmap in Hr]; rewrite Forall_forall in *; intros p Hp r Hpr.
  - apply lowerText_prefix in Hpr as [r' ->]; [|by apply Hf]. by apply (Hl p Hp r').
  - apply (f_equal (@rev ascii)) in Hpr. simpl in Hpr. rewrite rev_involutive, rev_app_distr, rev_involutive in Hpr.
    apply lowerText_suffix in Hpr as [r' ->]; [|by apply Hf]. apply (Hr p Hp (rev r')). simpl. by rewrite rev_app_distr.
Qed.

Lemma lowerText_head s : wideHead (byte 196) (byte 176) "i" (lowerText s) = None.
Proof.
  assert (Hno : forall p, Forall (foldless "i") p -> (p = [byte 196; byte 176] \/ p = [byte 226; byte 132; byte 170]) -> Prelude.strip_prefix p (lowerText s) = None).
  { intros p Hp Hc. destruct (Prelude.strip_prefix p (lowerText s)) as [r|] eqn:E; [|done]. exfalso. apply strip_prefix_Some in E. pose proof E as E0.
    apply lowerText_prefix in E as [r' ->]; [|done]. unfold lowerText in E0. rewrite foldWide_eq in E0. destruct Hc as [-> | ->]; discriminate E0. }
  unfold wideHead. rewrite !Hno; [done|..]; auto; apply (bool_decide_unpack (Forall (foldless "i") _)); vm_compute; exact I.
Qed.

Lemma lowerText_cons s : lowerText s = match wideHead (byte 196) (byte 176) "i" s with
                                        | Some (c, r) => lower_byte c :: lowerText r
                                        | None => match s with a :: t => lower_byte a :: lowerText t | [] => [] end end.
Proof. unfold lowerText at 1. rewrite foldWide_eq. destruct (wideHead _ _ _ s) as [[c r]|]; [done|]. by destruct s. Qed.

Lemma lowerText_idemp s : lowerText (lowerText s) = lowerText s.
Proof.
  induction s as [|s c r E IH|a t E IH] using (foldWide_ind (byte 196) (byte 176) "i"); [done|..];
    rewrite (lowerText_cons (lowerText _)), lowerText_head; rewrite (lowerText_cons _), E; by rewrite lower_byte_idemp, IH.
Qed.

Lemma ToLower_idemp s : ToLower (ToLower s) = ToLower s.
Proof. unfold ToLower. by rewrite list_ascii_of_string_of_list_ascii, lowerText_idemp. Qed.

Lemma ToLower_trimmed s : TrimSpace s = s -> TrimSpace (ToLower s) = ToLower s.
Proof.
  unfold TrimSpace, ToLower. intros H. rewrite list_ascii_of_string_of_list_ascii, lowerText_trimmed; [done|].
  apply (f_equal list_ascii_of_string) in H. by rewrite list_ascii_of_string_of_list_ascii in H.
Qed.
