(* ===== verification/Split.v ===== *)
(** * Split: strings cut at a byte

    What the sources use of Go's strings.Cut, Split, SplitN, Fields and
    TrimRight, with the laws that splitting undoes joining; they carry the
    round trips of the headers, pages and URLs built by joining. *)

From S2P Require Import Prelude Env Text.
From Stdlib Require Import Lia ZArith String Ascii.
#[local] Open Scope string_scope.

(** [strings.Cut] and [strings.SplitN] on a one-byte separator. *)
Fixpoint cut (sep : ascii) (s : string) : string * option string :=
  match s with
  | EmptyString => (EmptyString, None)
  | String c s => if Ascii.eqb c sep then (EmptyString, Some s) else let '(a, r) := cut sep s in (String c a, r)
  end.

Fixpoint splitN (n : nat) (sep : ascii) (s : string) : list string :=
  match n with
  | O => []
  | S O => [s]
  | S n => let '(a, r) := cut sep s in match r with Some r => a :: splitN n sep r | None => [a] end
  end.

(** [strings.Fields] *)
Fixpoint fieldsFrom (fuel : nat) (word : bytes) (s : bytes) : list bytes :=
  let emit (rest : list bytes) := match word with [] => rest | _ => rev word :: rest end in
  match fuel with
  | O => emit []
  | S fuel =>
      match strip_any all_space_seqs s with
      | Some r => emit (fieldsFrom fuel [] r)
      | None => match s with [] => emit [] | c :: r => fieldsFrom fuel (c :: word) r end
      end
  end.

Definition Fields (s : string) : list string :=
  string_of_list_ascii <$> fieldsFrom (S (String.length s)) [] (list_ascii_of_string s).

(** [strings.TrimLeft] and [strings.TrimRight] for a set of bytes. *)
Fixpoint dropSet (set : ascii -> bool) (s : bytes) : bytes :=
  match s with c :: r => if set c then dropSet set r else s | [] => [] end.

Definition TrimLeftSet (set : ascii -> bool) (s : string) : string :=
  string_of_list_ascii (dropSet set (list_ascii_of_string s)).

Definition TrimRightSet (set : ascii -> bool) (s : string) : string :=
  string_of_list_ascii (rev (dropSet set (rev (list_ascii_of_string s)))).

Definition TrimRightSlash : string -> string := TrimRightSet (Ascii.eqb "/"%char).

(** [io.ReadAll(io.LimitReader(r, limit))] of a body that can be read. *)
Definition readLimited (limit : Z) (body : string) : string :=
  if (Z.of_nat (String.length body) <=? limit)%Z then body else String.substring 0 (Z.to_nat limit) body.

(** ** Laws *)

(** The byte does not occur. *)
Definition noByte (sep : ascii) (s : string) : Prop := strAll (fun c => negb (Ascii.eqb c sep)) s.

Section laws.
Context (sep : ascii).

Lemma noByte_cons c s : noByte sep (String c s) <-> Ascii.eqb c sep = false /\ noByte sep s.
Proof. unfold noByte, strAll. cbn [list_ascii_of_string]. rewrite Forall_cons, negb_true_iff. done. Qed.

Lemma split_on_nil s : split_on sep s <> [].
Proof. destruct s as [|c s]; [done|]. cbn [split_on]. destruct (Ascii.eqb c sep); [done|]. by destruct (split_on sep s). Qed.

Lemma split_on_one s : noByte sep s -> split_on sep s = [s].
Proof.
  induction s as [|c s IH]; [done|]. intros [Hc Hs]%noByte_cons. cbn [split_on]. by rewrite Hc, IH.
Qed.

Lemma split_on_app s t : noByte sep s -> split_on sep (s +:+ String sep t) = s :: split_on sep t.
Proof.
  induction s as [|c s IH]; [intros _; change ("" +:+ String sep t) with (String sep t); cbn [split_on]; by rewrite Ascii.eqb_refl|].
  intros [Hc Hs]%noByte_cons. change (String c s +:+ String sep t) with (String c (s +:+ String sep t)).
  cbn [split_on]. by rewrite Hc, IH.
Qed.

Lemma split_on_concat ls : ls <> [] -> Forall (noByte sep) ls -> split_on sep (String.concat (String sep "") ls) = ls.
Proof.
  intros Hne H. induction H as [|l ls Hl Hls IH]; [done|]. destruct ls as [|l' ls]; [by apply split_on_one|].
  change (String.concat (String sep "") (l :: l' :: ls)) with (l +:+ String sep (String.concat (String sep "") (l' :: ls))).
  by rewrite split_on_app, IH.
Qed.

Lemma concat_split_on s : String.concat (String sep "") (split_on sep s) = s.
Proof.
  induction s as [|c s IH]; [done|]. cbn [split_on]. destruct (Ascii.eqb c sep) eqn:E.
  - apply Ascii.eqb_eq in E as ->. destruct (split_on sep s) as [|h t] eqn:Es; [by apply split_on_nil in Es|].
    change (String sep (String.concat (String sep "") (h :: t)) = String sep s). by rewrite IH.
  - destruct (split_on sep s) as [|h [|h' t]] eqn:Es; [by apply split_on_nil in Es| |]; cbn [String.concat] in *; by rewrite <- IH.
Qed.

Lemma cut_app s t : noByte sep s -> cut sep (s +:+ String sep t) = (s, Some t).
Proof.
  induction s as [|c s IH]; [intros _; change ("" +:+ String sep t) with (String sep t); cbn [cut]; by rewrite Ascii.eqb_refl|].
  intros [Hc Hs]%noByte_cons. change (String c s +:+ String sep t) with (String c (s +:+ String sep t)).
  cbn [cut]. by rewrite Hc, IH.
Qed.

Lemma cut_none s : noByte sep s -> cut sep s = (s, None).
Proof. induction s as [|c s IH]; [done|]. intros [Hc Hs]%noByte_cons. cbn [cut]. by rewrite Hc, IH. Qed.

Lemma noByte_app s t : noByte sep (s +:+ t) <-> noByte sep s /\ noByte sep t.
Proof. apply strAll_app. Qed.
End laws.

Lemma concat_snoc (sep x : string) l : l <> [] -> String.concat sep (l ++ [x])%list = String.concat sep l +:+ sep +:+ x.
Proof.
  intros Hne. induction l as [|a l IH]; [done|]. destruct l as [|b l]; [done|].
  change (String.concat sep ((a :: b :: l) ++ [x])%list) with (a +:+ sep +:+ String.concat sep ((b :: l) ++ [x])%list).
  change (String.concat sep (a :: b :: l)) with (a +:+ sep +:+ String.concat sep (b :: l)). by rewrite IH, <- !(assoc_L String.append).
Qed.

Lemma noByte_decide sep s : bool_decide (noByte sep s) = true -> noByte sep s.
Proof. apply bool_decide_eq_true_1. Qed.

Lemma noByte_of (p : ascii -> bool) sep s : p sep = false -> strAll p s -> noByte sep s.
Proof.
  intros Hp. apply strAll_impl. intros c Hc. apply negb_true_iff, Ascii.eqb_neq. intros ->. by rewrite Hp in Hc.
Qed.
