(* ===== verification/Base64.v ===== *)
(** * Base64: base64.StdEncoding of the standard library

    Encoding with padding, and the decoder with what it tolerates: line breaks
    anywhere, and unused bits after the last byte. *)

From S2P Require Import Prelude Env Text.
From Stdlib Require Import Lia ZArith String Ascii.
#[local] Open Scope string_scope.
#[local] Open Scope nat_scope.

Definition pad : ascii := "=".

(** The digit of a sextet: A-Z, a-z, 0-9, plus and slash. *)
Definition digit64 (n : nat) : ascii :=
  if n <? 26 then ascii_of_nat (65 + n)
  else if n <? 52 then ascii_of_nat (71 + n)
  else if n <? 62 then ascii_of_nat (n - 4)
  else if n =? 62 then "+"%char else "/"%char.

Definition sextet (c : ascii) : option nat :=
  let n := nat_of_ascii c in
  if byteIn 65 90 c then Some (n - 65)
  else if byteIn 97 122 c then Some (n - 71)
  else if byteIn 48 57 c then Some (n + 4)
  else if Ascii.eqb c "+" then Some 62
  else if Ascii.eqb c "/" then Some 63
  else None.

Fixpoint EncodeToString (s : string) : string :=
  match s with
  | "" => ""
  | String a "" => let a := nat_of_ascii a in String (digit64 (a / 4)) (String (digit64 (a mod 4 * 16)) (String pad (String pad "")))
  | String a (String b "") =>
      let a := nat_of_ascii a in let b := nat_of_ascii b in
      String (digit64 (a / 4)) (String (digit64 (a mod 4 * 16 + b / 16)) (String (digit64 (b mod 16 * 4)) (String pad "")))
  | String a (String b (String c rest)) =>
      let a := nat_of_ascii a in let b := nat_of_ascii b in let c := nat_of_ascii c in
      String (digit64 (a / 4)) (String (digit64 (a mod 4 * 16 + b / 16)) (String (digit64 (b mod 16 * 4 + c / 64)) (String (digit64 (c mod 64)) (EncodeToString rest))))
  end.

Definition byte1 (w x : nat) : ascii := ascii_of_nat (w * 4 + x / 16).
Definition byte2 (x y : nat) : ascii := ascii_of_nat (x mod 16 * 16 + y / 4).
Definition byte3 (y z : nat) : ascii := ascii_of_nat (y mod 4 * 64 + z).

(** The quanta of four digits; only the last one is padded. *)
Fixpoint decodeQuanta (s : string) : option string :=
  match s with
  | "" => Some ""
  | String a (String b (String c (String d rest))) =>
      if Ascii.eqb d pad then
        if negb (empty_str rest) then None
        else if Ascii.eqb c pad then w ← sextet a; x ← sextet b; Some (String (byte1 w x) "")
        else w ← sextet a; x ← sextet b; y ← sextet c; Some (String (byte1 w x) (String (byte2 x y) ""))
      else w ← sextet a; x ← sextet b; y ← sextet c; z ← sextet d; rest ← decodeQuanta rest;
           Some (String (byte1 w x) (String (byte2 x y) (String (byte3 y z) rest)))
  | _ => None
  end.

Definition lineBreak (c : ascii) : bool := Ascii.eqb c (byte 10) || Ascii.eqb c (byte 13).

Fixpoint dropBreaks (s : string) : string :=
  match s with "" => "" | String c s => if lineBreak c then dropBreaks s else String c (dropBreaks s) end.

Definition DecodeString (s : string) : option string := decodeQuanta (dropBreaks s).

(** ** Laws *)

(** What a digit is not, and the sextet it stands for. *)
Definition goodDigit (c : ascii) : Prop := Ascii.eqb c pad = false /\ byteIn 33 126 c = true.

Lemma digit64_spec n : n < 64 -> sextet (digit64 n) = Some n /\ goodDigit (digit64 n).
Proof.
  intros Hn. do 64 (destruct n as [|n]; [by vm_compute|]). lia.
Qed.

Lemma ascii_byte a : nat_of_ascii a < 256.
Proof. pose proof (nat_ascii_bounded a). lia. Qed.

Lemma ascii_back a n : n = nat_of_ascii a -> ascii_of_nat n = a.
Proof. intros ->. apply ascii_nat_embedding. Qed.

(** The three numbers of a group stay in range, and give the bytes back. *)
Lemma sextets_range a b c : a < 256 -> b < 256 -> c < 256 ->
  a / 4 < 64 /\ a mod 4 * 16 + b / 16 < 64 /\ b mod 16 * 4 + c / 64 < 64 /\ c mod 64 < 64.
Proof.
  intros. pose proof (Nat.div_mod_eq a 4). pose proof (Nat.mod_upper_bound a 4). pose proof (Nat.div_mod_eq b 16). pose proof (Nat.mod_upper_bound b 16).
  pose proof (Nat.div_mod_eq c 64). pose proof (Nat.mod_upper_bound c 64). lia.
Qed.

Lemma bytes_back a b c : a < 256 -> b < 256 -> c < 256 ->
  a / 4 * 4 + (a mod 4 * 16 + b / 16) / 16 = a /\ (a mod 4 * 16 + b / 16) mod 16 * 16 + (b mod 16 * 4 + c / 64) / 4 = b /\
  (b mod 16 * 4 + c / 64) mod 4 * 64 + c mod 64 = c.
Proof.
  intros Ha Hb Hc. assert (Hb16 : b / 16 < 16) by (apply Nat.Div0.div_lt_upper_bound; lia). assert (Hc64 : c / 64 < 4) by (apply Nat.Div0.div_lt_upper_bound; lia).
  rewrite (Nat.add_comm (a mod 4 * 16)), (Nat.add_comm (b mod 16 * 4)).
  rewrite !Nat.div_add, !Nat.Div0.mod_add by lia. rewrite (Nat.div_small (b / 16)), (Nat.div_small (c / 64)), (Nat.mod_small (b / 16)), (Nat.mod_small (c / 64)) by lia.
  pose proof (Nat.div_mod_eq a 4). pose proof (Nat.div_mod_eq b 16). pose proof (Nat.div_mod_eq c 64). lia.
Qed.

Lemma group_back a b c : byte1 (nat_of_ascii a / 4) (nat_of_ascii a mod 4 * 16 + nat_of_ascii b / 16) = a /\
  byte2 (nat_of_ascii a mod 4 * 16 + nat_of_ascii b / 16) (nat_of_ascii b mod 16 * 4 + nat_of_ascii c / 64) = b /\
  byte3 (nat_of_ascii b mod 16 * 4 + nat_of_ascii c / 64) (nat_of_ascii c mod 64) = c.
Proof. destruct (bytes_back _ _ _ (ascii_byte a) (ascii_byte b) (ascii_byte c)) as (H1 & H2 & H3). split_and!; by apply ascii_back. Qed.

Lemma group_digits a b c :
  let a := nat_of_ascii a in let b := nat_of_ascii b in let c := nat_of_ascii c in
  sextet (digit64 (a / 4)) = Some (a / 4) /\ sextet (digit64 (a mod 4 * 16 + b / 16)) = Some (a mod 4 * 16 + b / 16) /\
  sextet (digit64 (b mod 16 * 4 + c / 64)) = Some (b mod 16 * 4 + c / 64) /\ sextet (digit64 (c mod 64)) = Some (c mod 64) /\
  goodDigit (digit64 (a / 4)) /\ goodDigit (digit64 (a mod 4 * 16 + b / 16)) /\ goodDigit (digit64 (b mod 16 * 4 + c / 64)) /\ goodDigit (digit64 (c mod 64)).
Proof.
  cbv zeta. destruct (sextets_range _ _ _ (ascii_byte a) (ascii_byte b) (ascii_byte c)) as (H1 & H2 & H3 & H4).
  split_and!; by apply digit64_spec.
Qed.

(** A byte missing at the end is a zero. *)
Definition zero : ascii := ascii_of_nat 0.

Ltac padding := change (Ascii.eqb pad pad) with true; change (negb (empty_str "")) with false; cbv iota.

Lemma decode_quanta_encode : forall s, decodeQuanta (EncodeToString s) = Some s.
Proof.
  fix IH 1. intros [|a [|b [|c s]]]; cbn [EncodeToString]; cbv zeta; [done| | |].
  - destruct (group_digits a zero zero) as (H1 & H2 & _). destruct (group_back a zero zero) as (E1 & _). cbv zeta in H1, H2.
    change (nat_of_ascii zero / 16) with 0 in *. rewrite Nat.add_0_r in *. cbn [decodeQuanta]. padding. rewrite H1, H2. cbn [mbind option_bind]. by rewrite E1.
  - destruct (group_digits a b zero) as (H1 & H2 & H3 & _ & _ & _ & (Hp & _) & _). destruct (group_back a b zero) as (E1 & E2 & _). cbv zeta in *.
    change (nat_of_ascii zero / 64) with 0 in *. rewrite Nat.add_0_r in *. cbn [decodeQuanta]. padding.
    rewrite Hp, H1, H2, H3. cbn [mbind option_bind]. by rewrite E1, E2.
  - destruct (group_digits a b c) as (H1 & H2 & H3 & H4 & _ & _ & _ & (Hp & _)). destruct (group_back a b c) as (E1 & E2 & E3). cbv zeta in *.
    cbn [decodeQuanta]. rewrite Hp, H1, H2, H3, H4, IH. cbn [mbind option_bind]. by rewrite E1, E2, E3.
Qed.

Lemma encode_graph : forall s, strAll (byteIn 33 126) (EncodeToString s).
Proof.
  fix IH 1. intros [|a [|b [|c s]]]; cbn [EncodeToString]; cbv zeta; unfold strAll in *; cbn [list_ascii_of_string]; [constructor| | |].
  - destruct (group_digits a zero zero) as (_ & _ & _ & _ & H1 & H2 & _). cbv zeta in *. change (nat_of_ascii zero / 16) with 0 in *. rewrite Nat.add_0_r in *.
    repeat (constructor; [apply H1 || apply H2 || reflexivity|]). constructor.
  - destruct (group_digits a b zero) as (_ & _ & _ & _ & H1 & H2 & H3 & _). cbv zeta in *. change (nat_of_ascii zero / 64) with 0 in *. rewrite Nat.add_0_r in *.
    repeat (constructor; [apply H1 || apply H2 || apply H3 || reflexivity|]). constructor.
  - destruct (group_digits a b c) as (_ & _ & _ & _ & H1 & H2 & H3 & H4). cbv zeta in *.
    repeat (constructor; [apply H1 || apply H2 || apply H3 || apply H4|]). apply IH.
Qed.

Lemma dropBreaks_id s : strAll (byteIn 33 126) s -> dropBreaks s = s.
Proof.
  induction s as [|c s IH]; [done|]. unfold strAll. cbn [list_ascii_of_string dropBreaks]. intros [Hc Hs]%Forall_cons.
  assert (lineBreak c = false) as ->. { unfold lineBreak. destruct (Ascii.eqb_spec c (byte 10)) as [->|]; [done|]. by destruct (Ascii.eqb_spec c (byte 13)) as [->|]. }
  by rewrite IH.
Qed.

(** Decoding gives back what was encoded. *)
Theorem decode_encode s : DecodeString (EncodeToString s) = Some s.
Proof. unfold DecodeString. rewrite dropBreaks_id by apply encode_graph. apply decode_quanta_encode. Qed.

Example decode_release_key : String.length <$> DecodeString "GZXKveslK0EYlHea9EUpcdnWo6QIXmwE9ksfhq2gups=" = Some 32.
Proof. by vm_compute. Qed.
