(* ===== verification/Paths.v ===== *)
(** * Paths: what the sources use of package filepath

    [Clean], [Dir] and [Join] on slash-separated paths, as lists of components
    between slashes.  A cleaned path is its [render]ed stack of components,
    the last one on top; the walk to the root takes one off at each step. *)

From S2P Require Import Prelude Env Text Split.
From Stdlib Require Import Lia ZArith String Ascii.
#[local] Open Scope string_scope.

Definition isDots (c : string) : bool := str_eq c "..".

(** The stack after one more component: empty ones and single dots are
    skipped, two dots take one off unless there is none to take. *)
Definition cleanStep (rooted : bool) (out : list string) (c : string) : list string :=
  if empty_str c || str_eq c "." then out
  else if isDots c then
    match out with
    | x :: rest => if isDots x then c :: out else rest
    | [] => if rooted then [] else [c]
    end
  else c :: out.

Definition render (rooted : bool) (comps : list string) : string :=
  if rooted then "/" +:+ String.concat "/" comps
  else match comps with [] => "." | _ => String.concat "/" comps end.

Definition isRooted (p : string) : bool := HasPrefix p "/".

Definition cleaned (p : string) : list string := fold_left (cleanStep (isRooted p)) (split_on "/" p) [].

Definition Clean (p : string) : string := render (isRooted p) (rev (cleaned p)).

(** The path up to its last slash, with it. *)
Definition upToSlash (p : string) : string := String.concat "/" (removelast (split_on "/" p) ++ [""])%list.

Definition Dir (p : string) : string := Clean (upToSlash p).

Definition Join (elems : list string) : string :=
  match List.filter (fun e => negb (empty_str e)) elems with [] => "" | es => Clean (String.concat "/" es) end.

(** ** Stacks *)

Definition name (c : string) : Prop := c <> "" /\ c <> "." /\ noByte "/" c.

(** Two dots stand only at the bottom, and never under a root. *)
Definition normal (rooted : bool) (out : list string) : Prop :=
  Forall name out /\ exists k names, out = (names ++ replicate k "..")%list /\ Forall (fun c => c <> "..") names /\ (rooted = true -> k = 0%nat).

Lemma isDots_false c : c <> ".." -> isDots c = false.
Proof. apply str_eq_false. Qed.

Lemma split_on_noByte sep s : Forall (noByte sep) (split_on sep s).
Proof.
  induction s as [|c s IH]; [repeat constructor|]. cbn [split_on]. destruct (Ascii.eqb c sep) eqn:E; [constructor; [constructor|done]|].
  destruct (split_on sep s) as [|h t] eqn:Es; [by apply split_on_nil in Es|]. apply Forall_cons in IH as [Hh Ht].
  constructor; [by apply noByte_cons|done].
Qed.

Lemma cleanStep_normal rooted out c : noByte "/" c -> normal rooted out -> normal rooted (cleanStep rooted out c).
Proof.
  intros Hc [Hn (k & names & -> & Hd & Hr)]. unfold cleanStep. destruct (empty_str c) eqn:E0; [by split; [|exists k, names]|]. apply bool_decide_eq_false in E0.
  destruct (str_eq c ".") eqn:E1; [by split; [|exists k, names]|]. strs. cbn [orb].
  assert (Hname : name c) by (by split_and!). destruct (isDots c) eqn:E2.
  - apply str_eq_spec in E2. subst c. destruct names as [|x names]; cbn [app].
    + destruct k as [|k]; cbn [replicate].
      * destruct rooted; [by split; [constructor|exists 0%nat, []]|]. split; [by repeat constructor|]. by exists 1%nat, [].
      * destruct (isDots "..") eqn:Ed; [|done]. split; [by constructor|]. exists (S (S k)), []. split_and!; [done..|]. intros ->. by specialize (Hr eq_refl).
    + apply Forall_cons in Hd as [Hx Hd]. rewrite (isDots_false x Hx). apply Forall_cons in Hn as [_ Hn]. by split; [|exists k, names].
  - split; [by constructor|]. exists k, (c :: names). split_and!; [done| |done]. constructor; [|done]. intros ->. done.
Qed.

Lemma fold_normal rooted cs : forall out, Forall (noByte "/") cs -> normal rooted out -> normal rooted (fold_left (cleanStep rooted) cs out).
Proof.
  induction cs as [|c cs IH]; intros out Hc Hn; [done|]. apply Forall_cons in Hc as [Hc Hcs]. cbn. apply IH; [done|]. by apply cleanStep_normal.
Qed.

Lemma normal_nil rooted : normal rooted [].
Proof. split; [constructor|]. by exists 0%nat, []. Qed.

Lemma cleaned_normal p : normal (isRooted p) (cleaned p).
Proof. apply fold_normal; [apply split_on_noByte|apply normal_nil]. Qed.

Lemma normal_tail rooted c out : normal rooted (c :: out) -> normal rooted out.
Proof.
  intros [Hn (k & names & He & Hd & Hr)]. apply Forall_cons in Hn as [_ Hn]. split; [done|]. destruct names as [|x names].
  - destruct k as [|k]; [done|]. cbn in He. injection He as _ ->. exists k, []. split_and!; [done..|]. intros E. by specialize (Hr E).
  - injection He as _ ->. apply Forall_cons in Hd as [_ Hd]. by exists k, names.
Qed.

(** Going over a normal stack again rebuilds it. *)
Lemma refold rooted out : normal rooted out -> fold_left (cleanStep rooted) (rev out) [] = out.
Proof.
  induction out as [|c out IH]; [done|]. intros Hn. cbn [rev]. rewrite fold_left_app, (IH (normal_tail _ _ _ Hn)). cbn [fold_left].
  destruct Hn as [Hn (k & names & He & Hd & Hr)]. apply Forall_cons in Hn as [(Hc0 & Hc1 & _) _]. unfold cleanStep.
  destruct (empty_str c) eqn:E0; [by apply empty_str_spec in E0|]. destruct (str_eq c ".") eqn:E1; [by apply str_eq_spec in E1|]. cbn [orb].
  destruct (isDots c) eqn:Ed; [|done]. apply str_eq_spec in Ed. subst c. destruct names as [|x names].
  - destruct k as [|k]; [done|]. cbn in He. injection He as ->. destruct rooted; [by specialize (Hr eq_refl)|]. by destruct k.
  - injection He as <- _. apply Forall_cons in Hd as [Hd _]. done.
Qed.

(** ** The parent of a cleaned path *)

Lemma normal_names rooted out : normal rooted out -> Forall name (rev out).
Proof. intros [Hn _]. by apply List.Forall_rev. Qed.

Lemma normal_noBytes rooted out : normal rooted out -> Forall (noByte "/") (rev out).
Proof. intros Hn%normal_names. eapply Forall_impl; [exact Hn|]. by intros c (_ & _ & Hc). Qed.

Lemma split_render rooted c out : normal rooted (c :: out) ->
  split_on "/" (render rooted (rev (c :: out))) = ((if rooted then [""] else []) ++ rev out ++ [c])%list.
Proof.
  intros Hl%normal_noBytes. cbn [rev] in *.
  assert (Hne : (rev out ++ [c])%list <> []) by (by destruct (rev out)).
  unfold render. destruct rooted.
  - change ("/" +:+ ?s) with ("" +:+ String "/" s). rewrite split_on_app by constructor. by rewrite split_on_concat.
  - destruct (rev out ++ [c])%list eqn:E; [done|]. rewrite <- E in *. by rewrite split_on_concat.
Qed.

Lemma concat_rooted x l : x <> "" -> noByte "/" x -> isRooted (String.concat "/" (x :: l)) = false.
Proof.
  destruct x as [|a x]; [done|]. intros _ [Ha _]%noByte_cons. apply Ascii.eqb_neq in Ha.
  assert (He : forall t, isRooted (String a t) = false).
  { intros t. unfold isRooted, HasPrefix. cbn [String.prefix]. destruct (ascii_dec "/" a); [congruence|done]. }
  destruct l; apply He.
Qed.

Lemma upTo_rooted rooted c out : normal rooted (c :: out) -> let p := String.concat "/" ((if rooted then [""] else []) ++ rev out ++ [""])%list in isRooted p = rooted.
Proof.
  intros Hn p. subst p. destruct rooted; cbn [app].
  - destruct (rev out ++ [""])%list eqn:E; [by destruct (rev out)|]. apply (prefix_app "/" (String.concat "/" (s :: l))).
  - apply normal_tail, normal_names in Hn. destruct (rev out) as [|x l]; [done|]. apply Forall_cons in Hn as [(H0 & _ & H1) _].
    by apply concat_rooted.
Qed.

Lemma refold_root rooted : fold_left (cleanStep rooted) (if rooted then [""] else []) [] = [].
Proof. by destruct rooted. Qed.

Lemma Dir_render rooted out : normal rooted out -> Dir (render rooted (rev out)) = render rooted (rev (tail out)).
Proof.
  intros Hn. destruct out as [|c out]; [by destruct rooted|]. pose proof (upTo_rooted _ _ _ Hn) as Hr. cbv zeta in Hr.
  unfold Dir, upToSlash. rewrite (split_render _ _ _ Hn), app_assoc, removelast_last, <- app_assoc.
  unfold Clean, cleaned. rewrite Hr. rewrite split_on_concat.
  - rewrite !fold_left_app, (refold_root rooted), (refold rooted out (normal_tail _ _ _ Hn)). done.
  - by destruct rooted, (rev out).
  - apply normal_tail, normal_noBytes in Hn. apply Forall_app. split; [by destruct rooted; repeat constructor|].
    apply Forall_app. split; [done|repeat constructor].
Qed.

(** The parent differs from the path unless the stack is empty. *)
Lemma parent_differs rooted c out : normal rooted (c :: out) -> render rooted (rev out) <> render rooted (rev (c :: out)).
Proof.
  intros [Hn _] He. apply Forall_cons in Hn as [(H0 & H1 & _) _]. cbn [rev] in He. unfold render in He. destruct (rev out) as [|x l].
  - destruct rooted; [destruct c; [done|discriminate]|by cbn in He; subst c].
  - change (x :: l ++ [c])%list with ((x :: l) ++ [c])%list in He. rewrite concat_snoc in He by done. apply (f_equal String.length) in He. change ((x :: l) ++ [c])%list with (x :: (l ++ [c]))%list in He.
    destruct rooted; cbn beta iota in He; rewrite !strlen_app in He; cbn in He; lia.
Qed.

(** ** The directories above *)

(** From the path itself up to the root, or to the dot. *)
Fixpoint ancestors (rooted : bool) (out : list string) : list string :=
  render rooted (rev out) :: match out with [] => [] | _ :: rest => ancestors rooted rest end.

Definition stackOf (p : string) : list string := cleaned (upToSlash p).

Definition parents (p : string) : list string := ancestors (isRooted (upToSlash p)) (stackOf p).

Lemma cleaned_length rooted cs : forall out, (List.length (fold_left (cleanStep rooted) cs out) <= List.length cs + List.length out)%nat.
Proof.
  induction cs as [|c cs IH]; intros out; cbn [fold_left]; [done|]. etrans; [apply IH|]. cbn [List.length].
  assert (List.length (cleanStep rooted out c) <= S (List.length out))%nat; [|lia].
  unfold cleanStep. repeat case_match; cbn [List.length]; lia.
Qed.

Lemma length_ancestors rooted out : List.length (ancestors rooted out) = S (List.length out).
Proof. induction out as [|c out IH]; cbn in *; congruence. Qed.
