(* ===== verification/Breaker.v ===== *)
(** * Breaker: the per-model and per-provider circuit breakers
    (router_breaker.go, router_provider_breaker.go)

    [RouterStatic] is the configuration one request sees, [RouterState] the
    maps guarded by [breakerMu].  Every method that takes the write lock is a
    function from state to state; each reading of [time.Now()] is an argument
    of its own, in program order. *)

From S2P Require Import Prelude Float Types.
From Stdlib Require Import Lia ZArith String.
#[local] Open Scope string_scope.
#[local] Open Scope Z_scope.

(** ** State *)

Record providerModelTarget := mkTarget {
  tgt_Provider : providerID;
  tgt_Model : string;
}.

Record RouterStatic := mkStatic {
  config : breakerConfig;
  runtime_DefaultExecutor : providerID;
  runtime_BreakerPolicy : BreakerPolicy;
  policy_DefaultProfile : string;
  policy_Profiles : gmap string (list string);
  providerProfiles : gmap string (list providerModelTarget);
}.

Record RouterState := mkState {
  modelBreakers : gmap string modelBreakerState;
  providerBreakers : gmap providerID modelBreakerState;
  providerAttempts : gmap providerID Z;
  providerBalance : gmap providerID Z;
  scoreAttempts : Z;
  scoresDirty : bool;
}.

Definition set_modelBreakers (m : gmap string modelBreakerState) (st : RouterState) : RouterState :=
  mkState m (providerBreakers st) (providerAttempts st) (providerBalance st) (scoreAttempts st) (scoresDirty st).
Definition set_providerBreakers (m : gmap providerID modelBreakerState) (st : RouterState) : RouterState :=
  mkState (modelBreakers st) m (providerAttempts st) (providerBalance st) (scoreAttempts st) (scoresDirty st).

(** ** Keys and defaults *)

Definition defaultPolicyProvider (svc : RouterStatic) : providerID :=
  if negb (empty_str (runtime_DefaultExecutor svc)) then runtime_DefaultExecutor svc
  else providerOpenRouter.

Definition defaultBreakerPolicy (svc : RouterStatic) : BreakerPolicy :=
  if 0 <? bp_FailureThreshold (runtime_BreakerPolicy svc) then runtime_BreakerPolicy svc
  else mkBreakerPolicy (cfg_FailureThreshold (config svc)) (cfg_Cooldown (config svc)) true.

Definition normalizedProvider (svc : RouterStatic) (attempt : modelAttempt) : providerID :=
  if negb (empty_str (Provider attempt)) then Provider attempt
  else defaultPolicyProvider svc.

Definition breakerKey (svc : RouterStatic) (attempt : modelAttempt) : string :=
  let profile := TrimSpace (Profile attempt) in
  let profile := if empty_str profile then policy_DefaultProfile svc else profile in
  let provider := TrimSpace (Provider attempt) in
  let provider := if empty_str provider then defaultPolicyProvider svc else provider in
  if str_eq provider providerOpenRouter then profile +:+ ":" +:+ TrimSpace (Model attempt)
  else profile +:+ ":" +:+ provider +:+ ":" +:+ TrimSpace (Model attempt).

Definition modelState (svc : RouterStatic) (st : RouterState) (attempt : modelAttempt) : option modelBreakerState :=
  modelBreakers st !! breakerKey svc attempt.

(** [truncateReason]: [cervoobserve.Truncate(reason, 240)]. *)
Definition Truncate (value : string) (max : Z) : string :=
  let trimmed := TrimSpace value in
  if (max <=? 0) || (Z.of_nat (String.length trimmed) <=? max) then trimmed
  else String.substring 0 (Z.to_nat max) trimmed.

Definition truncateReason (reason : string) : string := Truncate reason 240.

(** ** Availability *)

Definition isProviderAvailableLocked (st : RouterState) (provider : providerID) (now : Z) : bool :=
  match providerBreakers st !! provider with
  | None => true
  | Some state => negb (After (OpenUntil state) now)
  end.

(** [now_p] and [now_m] are the readings of the provider and the model test. *)
Definition isModelAvailableLocked (svc : RouterStatic) (st : RouterState) (attempt : modelAttempt) (now_p now_m : Z) : bool :=
  if negb (isProviderAvailableLocked st (Provider attempt) now_p) then false
  else match modelState svc st attempt with
       | None => true
       | Some state => negb (After (OpenUntil state) now_m)
       end.

(** [filterAvailableAttempts] takes the lock once per attempt; [clock i] is
    the pair of readings of the i-th test. *)
Fixpoint filterAvailableFrom (svc : RouterStatic) (st : RouterState) (clock : nat -> Z * Z) (i : nat) (attempts : list modelAttempt) : list modelAttempt :=
  match attempts with
  | [] => []
  | attempt :: rest =>
      let tail := filterAvailableFrom svc st clock (S i) rest in
      if isModelAvailableLocked svc st attempt (clock i).1 (clock i).2
      then attempt :: tail else tail
  end.

Definition filterAvailableAttempts (svc : RouterStatic) (st : RouterState) (clock : nat -> Z * Z) (attempts : list modelAttempt) : list modelAttempt :=
  filterAvailableFrom svc st clock 0 attempts.

(** ** The half-open gate

    [tryStartAttempt] and [tryStartProvider] share their two phases: a test
    under the read lock, which decides ([Some]) or asks for the write lock
    ([None]), and the claim of the single probe under the write lock. *)

Definition gateRead (state : option modelBreakerState) (now : Z) : option bool :=
  match state with
  | None => Some true
  | Some s =>
      if IsZero (OpenUntil s) then Some true
      else if Before now (OpenUntil s) then Some false
      else None
  end.

Definition probeTTL (svc : RouterStatic) : Z :=
  if cfg_RequestTimeout (config svc) <=? 0 then 45 * Second else cfg_RequestTimeout (config svc).

Definition set_ProbeUntil (t : Z) (s : modelBreakerState) : modelBreakerState :=
  mkBreaker (ConsecutiveFailures s) (Successes s) (LastFailureCode s) (LastFailureReason s)
            (LastFailureAt s) (OpenUntil s) t (Score s) (ScoreUpdatedAt s) (ScoreAttemptSeq s).

(** The claim: the new state of the circuit when it changes, and the answer. *)
Definition gateClaim (ttl : Z) (state : option modelBreakerState) (now : Z) : option modelBreakerState * bool :=
  match state with
  | None => (None, true)
  | Some s =>
      if IsZero (OpenUntil s) then (None, true)
      else if Before now (OpenUntil s) then (None, false)
      else if Before now (ProbeUntil s) then (None, false)
      else (Some (set_ProbeUntil (time_Add now ttl) s), true)
  end.

Definition tryStartAttempt_write (svc : RouterStatic) (attempt : modelAttempt) (now : Z) (st : RouterState) : RouterState * bool :=
  match gateClaim (probeTTL svc) (modelState svc st attempt) now with
  | (Some s, ok) => (set_modelBreakers (<[breakerKey svc attempt := s]> (modelBreakers st)) st, ok)
  | (None, ok) => (st, ok)
  end.

(** [tryStartAttempt] run without interference between its two lock
    sections; [Gate] below interleaves them. *)
Definition tryStartAttempt (svc : RouterStatic) (attempt : modelAttempt) (now1 now2 : Z) (st : RouterState) : RouterState * bool :=
  match gateRead (modelState svc st attempt) now1 with
  | Some ok => (st, ok)
  | None => tryStartAttempt_write svc attempt now2 st
  end.

Definition tryStartProvider_write (svc : RouterStatic) (attempt : modelAttempt) (now : Z) (st : RouterState) : RouterState * bool :=
  match gateClaim (probeTTL svc) (providerBreakers st !! Provider attempt) now with
  | (Some s, ok) => (set_providerBreakers (<[Provider attempt := s]> (providerBreakers st)) st, ok)
  | (None, ok) => (st, ok)
  end.

Definition tryStartProvider (svc : RouterStatic) (attempt : modelAttempt) (now1 now2 : Z) (st : RouterState) : RouterState * bool :=
  match gateRead (providerBreakers st !! Provider attempt) now1 with
  | Some ok => (st, ok)
  | None => tryStartProvider_write svc attempt now2 st
  end.

(** ** Recording outcomes *)

(** Line 114 of router_breaker.go: past its cooldown, a circuit forgets its
    failures before the next one is counted. *)
Definition expireOpen (s : modelBreakerState) (now : Z) : modelBreakerState :=
  if negb (IsZero (OpenUntil s)) && After now (OpenUntil s)
  then mkBreaker 0 (Successes s) (LastFailureCode s) (LastFailureReason s) (LastFailureAt s)
                 0 (ProbeUntil s) (Score s) (ScoreUpdatedAt s) (ScoreAttemptSeq s)
  else s.

(** Lines 118-122: the probe is resolved and the failure counted. *)
Definition countFailure (s : modelBreakerState) (statusCode : Z) (reason : string) (now : Z) : modelBreakerState :=
  mkBreaker (wrap64 (ConsecutiveFailures s + 1)) (Successes s) statusCode (truncateReason reason) now
            (OpenUntil s) 0 (Score s) (ScoreUpdatedAt s) (ScoreAttemptSeq s).

Definition set_OpenUntil (t : Z) (s : modelBreakerState) : modelBreakerState :=
  mkBreaker (ConsecutiveFailures s) (Successes s) (LastFailureCode s) (LastFailureReason s)
            (LastFailureAt s) t (ProbeUntil s) (Score s) (ScoreUpdatedAt s) (ScoreAttemptSeq s).

Definition effThreshold (svc : RouterStatic) (attempt : modelAttempt) : Z :=
  if 0 <? bp_FailureThreshold (att_BreakerPolicy attempt) then bp_FailureThreshold (att_BreakerPolicy attempt)
  else cfg_FailureThreshold (config svc).

Definition effCooldown (svc : RouterStatic) (attempt : modelAttempt) (retryAfter : option Z) : Z :=
  let cooldown := if 0 <? bp_Cooldown (att_BreakerPolicy attempt) then bp_Cooldown (att_BreakerPolicy attempt)
                  else cfg_Cooldown (config svc) in
  match retryAfter with
  | Some r => if cooldown <? r then r else cooldown
  | None => cooldown
  end.

(** The open window is never shortened. *)
Definition openFor (s : modelBreakerState) (until : Z) : modelBreakerState :=
  if After until (OpenUntil s) then set_OpenUntil until s else s.

Definition failModel (svc : RouterStatic) (attempt : modelAttempt) (statusCode : Z) (reason : string) (retryAfter : option Z) (now1 now2 now3 : Z) (s : modelBreakerState) : modelBreakerState :=
  let s := countFailure (expireOpen s now1) statusCode reason now2 in
  if effThreshold svc attempt <=? ConsecutiveFailures s
  then openFor s (time_Add now3 (effCooldown svc attempt retryAfter)) else s.

Definition getBreaker (o : option modelBreakerState) : modelBreakerState := default zeroBreaker o.

Definition recordFailure (svc : RouterStatic) (attempt : modelAttempt) (statusCode : Z) (reason : string) (retryAfter : option Z) (now1 now2 now3 : Z) (st : RouterState) : RouterState :=
  let state := getBreaker (modelState svc st attempt) in
  set_modelBreakers
    (<[breakerKey svc attempt := failModel svc attempt statusCode reason retryAfter now1 now2 now3 state]> (modelBreakers st)) st.

(** The reset of the breaker bookkeeping shared by [resolveProbe],
    [recordSuccess] and [resolveProviderSuccess]; they differ in the successes. *)
Definition closeBreaker (successes : Z) (s : modelBreakerState) : modelBreakerState :=
  mkBreaker 0 successes 0 "" 0 0 0 (Score s) (ScoreUpdatedAt s) (ScoreAttemptSeq s).

Definition resolveProbe (svc : RouterStatic) (attempt : modelAttempt) (st : RouterState) : RouterState :=
  let state := getBreaker (modelState svc st attempt) in
  set_modelBreakers (<[breakerKey svc attempt := closeBreaker (Successes state) state]> (modelBreakers st)) st.

Definition resolveProviderSuccess (provider : providerID) (st : RouterState) : RouterState :=
  let state := getBreaker (providerBreakers st !! provider) in
  set_providerBreakers (<[provider := closeBreaker (wrap64 (Successes state + 1)) state]> (providerBreakers st)) st.

Definition resolveProviderProbe (provider : providerID) (st : RouterState) : RouterState :=
  match providerBreakers st !! provider with
  | Some state => set_providerBreakers (<[provider := set_ProbeUntil 0 state]> (providerBreakers st)) st
  | None => st
  end.

Definition recordProviderFailure (svc : RouterStatic) (attempt : modelAttempt) (statusCode : Z) (reason : string) (immediateOpen : bool) (retryAfter : Z) (now : Z) (st : RouterState) : RouterState :=
  let state := getBreaker (providerBreakers st !! Provider attempt) in
  let s := countFailure (expireOpen state now) statusCode reason now in
  let s := if immediateOpen || (effThreshold svc attempt <=? ConsecutiveFailures s)
           then openFor s (time_Add now (effCooldown svc attempt (Some retryAfter))) else s in
  set_providerBreakers (<[Provider attempt := s]> (providerBreakers st)) st.

(** ** Waiting times *)

Definition openWait (now : Z) (o : option modelBreakerState) : option Z :=
  match o with
  | Some state => if After (OpenUntil state) now then Some (time_Sub (OpenUntil state) now) else None
  | None => None
  end.

Definition retryAfterForAttempts (svc : RouterStatic) (st : RouterState) (now : Z) (attempts : list modelAttempt) : Z :=
  soonest (omap (fun attempt => openWait now (modelState svc st attempt)) attempts).

Definition openRouterDailyFreeQuotaPrefix : string := "OpenRouter daily free-model quota exhausted".

(** The loop of [dailyFreeQuotaReasonForAttempts]; [None] is its early [return ""]. *)
Fixpoint dailyReasonLoop (svc : RouterStatic) (st : RouterState) (now : Z) (message : string) (attempts : list modelAttempt) : option string :=
  match attempts with
  | [] => Some message
  | attempt :: rest =>
      match modelState svc st attempt with
      | None => None
      | Some state =>
          if negb (After (OpenUntil state) now) then None
          else if negb (HasPrefix (LastFailureReason state) openRouterDailyFreeQuotaPrefix) then None
          else dailyReasonLoop svc st now
                 (if empty_str message then LastFailureReason state else message) rest
      end
  end.

Definition dailyFreeQuotaReasonForAttempts (svc : RouterStatic) (st : RouterState) (now : Z) (attempts : list modelAttempt) : string :=
  default "" (dailyReasonLoop svc st now "" attempts).

(** ** Concurrent callers of the gate

    [gconf] is a set of goroutines inside [tryStartAttempt] (or
    [tryStartProvider]) for one circuit: each is before its read section,
    waiting for the write lock, or returned.  The clock only moves forward.
    Every lock section is one step. *)

Inductive gateKind := GModel | GProvider.

Definition gateCell (k : gateKind) (svc : RouterStatic) (attempt : modelAttempt) (st : RouterState) : option modelBreakerState :=
  match k with
  | GModel => modelState svc st attempt
  | GProvider => providerBreakers st !! Provider attempt
  end.

Definition gateWrite (k : gateKind) : RouterStatic -> modelAttempt -> Z -> RouterState -> RouterState * bool :=
  match k with GModel => tryStartAttempt_write | GProvider => tryStartProvider_write end.

Inductive gatePc := PStart | PWrite | PDone (ok : bool).

Definition granted (p : gatePc) : bool := match p with PDone true => true | _ => false end.

Record gconf := mkGconf { g_now : Z; g_state : RouterState; g_threads : list gatePc }.

Inductive gstep (k : gateKind) (svc : RouterStatic) (attempt : modelAttempt) : gconf -> gconf -> Prop :=
| gstep_tick now now' st ts :
    now <= now' -> gstep k svc attempt (mkGconf now st ts) (mkGconf now' st ts)
| gstep_read now st ts i :
    ts !! i = Some PStart ->
    gstep k svc attempt (mkGconf now st ts)
      (mkGconf now st (<[i := match gateRead (gateCell k svc attempt st) now with
                              | Some ok => PDone ok | None => PWrite end]> ts))
| gstep_write now st st' ts i ok :
    ts !! i = Some PWrite ->
    gateWrite k svc attempt now st = (st', ok) ->
    gstep k svc attempt (mkGconf now st ts) (mkGconf now st' (<[i := PDone ok]> ts)).

(** ** Lemmas *)

Lemma probeTTL_pos svc : 0 < probeTTL svc.
Proof. unfold probeTTL. destruct (Z.leb_spec (cfg_RequestTimeout (config svc)) 0); [done|lia]. Qed.

Lemma gateWrite_cell k svc attempt now st st' ok :
  gateWrite k svc attempt now st = (st', ok) ->
  exists o, gateClaim (probeTTL svc) (gateCell k svc attempt st) now = (o, ok) /\
            gateCell k svc attempt st' = match o with Some s => Some s | None => gateCell k svc attempt st end.
Proof.
  destruct k; simpl; unfold tryStartAttempt_write, tryStartProvider_write;
    destruct (gateClaim _ _ _) as [[s|] ok'] eqn:E; intros [= <- <-]; eexists; split; eauto.
  - unfold modelState. simpl. apply lookup_insert_eq.
  - simpl. apply lookup_insert_eq.
Qed.

(** The invariant of the callers that started at [t0] on a half-open circuit:
    nobody has returned yet and the probe is free, or exactly one caller was
    admitted and the probe is claimed at least until [t0 + ttl]. *)
Definition gateInv (k : gateKind) (svc : RouterStatic) (attempt : modelAttempt) (t0 : Z) (c : gconf) : Prop :=
  t0 <= g_now c /\
  (g_now c < t0 + probeTTL svc ->
   exists s, gateCell k svc attempt (g_state c) = Some s /\
     OpenUntil s <> 0 /\ OpenUntil s <= g_now c /\
     ((ProbeUntil s <= t0 /\ Forall (fun p => p = PStart \/ p = PWrite) (g_threads c)) \/
      (t0 + probeTTL svc <= ProbeUntil s /\ count granted (g_threads c) = 1%nat))).

Lemma gateInv_step k svc attempt t0 c c' :
  gateInv k svc attempt t0 c -> gstep k svc attempt c c' -> gateInv k svc attempt t0 c'.
Proof.
  intros [Ht Hc] Hstep.
  destruct Hstep as [now now' st ts Hle|now st ts i Hi|now st st' ts i ok Hi Hw]; simpl in *.
  - split; [simpl; lia|]. simpl. intros Hlt.
    destruct (Hc ltac:(lia)) as (s & Hs & H0 & Hou & Halt). exists s. split_and!; auto; lia.
  - split; [done|]. simpl. intros Hlt. destruct (Hc Hlt) as (s & Hs & H0 & Hou & Halt).
    exists s. split_and!; auto. rewrite Hs. simpl. unfold IsZero, Before.
    replace (OpenUntil s =? 0) with false by (symmetry; by apply Z.eqb_neq).
    replace (now <? OpenUntil s) with false by (symmetry; apply Z.ltb_ge; lia).
    destruct Halt as [[Hp Hall]|[Hp Hcnt]]; [left|right]; split; auto.
    + apply Forall_insert; auto.
    + pose proof (count_insert granted ts i _ PWrite Hi) as Hci. simpl in Hci. lia.
  - split; [done|]. simpl. intros Hlt. destruct (Hc Hlt) as (s & Hs & H0 & Hou & Halt).
    apply gateWrite_cell in Hw as (o & Hclaim & Hcell).
    rewrite Hs in Hclaim, Hcell. simpl in Hclaim. unfold IsZero, Before, time_Add in Hclaim.
    replace (OpenUntil s =? 0) with false in Hclaim by (symmetry; by apply Z.eqb_neq).
    replace (now <? OpenUntil s) with false in Hclaim by (symmetry; apply Z.ltb_ge; lia).
    pose proof (count_insert granted ts i _ (PDone ok) Hi) as Hci. simpl in Hci.
    destruct Halt as [[Hp Hall]|[Hp Hcnt]].
    + replace (now <? ProbeUntil s) with false in Hclaim by (symmetry; apply Z.ltb_ge; lia).
      injection Hclaim as <- <-. eexists. split; [exact Hcell|]. simpl. split_and!; auto.
      right. split; [lia|]. rewrite (count_none granted ts) in Hci; [lia|].
      eapply Forall_impl; [exact Hall|]. by intros p [->| ->].
    + replace (now <? ProbeUntil s) with true in Hclaim by (symmetry; apply Z.ltb_lt; lia).
      injection Hclaim as <- <-. exists s. split_and!; auto. right. split; [done|]. lia.
Qed.

Lemma gateInv_rtc k svc attempt t0 c c' :
  gateInv k svc attempt t0 c -> rtc (gstep k svc attempt) c c' -> gateInv k svc attempt t0 c'.
Proof. intros Hi Hr. induction Hr; eauto using gateInv_step. Qed.

(** ** Lemmas on recorded failures *)

Lemma modelState_recordFailure svc attempt code reason ra n1 n2 n3 st :
  modelState svc (recordFailure svc attempt code reason ra n1 n2 n3 st) attempt =
  Some (failModel svc attempt code reason ra n1 n2 n3 (getBreaker (modelState svc st attempt))).
Proof. unfold modelState, recordFailure. simpl. apply lookup_insert_eq. Qed.

Lemma openFor_OpenUntil s until : OpenUntil (openFor s until) = Z.max (OpenUntil s) until.
Proof. unfold openFor, After. destruct (Z.ltb_spec (OpenUntil s) until); simpl; lia. Qed.

Lemma openFor_failures s until : ConsecutiveFailures (openFor s until) = ConsecutiveFailures s.
Proof. unfold openFor. by destruct (After _ _). Qed.

Lemma openFor_ProbeUntil s until : ProbeUntil (openFor s until) = ProbeUntil s.
Proof. unfold openFor. by destruct (After _ _). Qed.

(** Every branch of [failModel] at once. *)
Lemma failModel_spec svc attempt code reason ra n1 n2 n3 s :
  let s0 := expireOpen s n1 in
  let n := wrap64 (ConsecutiveFailures s0 + 1) in
  let s' := failModel svc attempt code reason ra n1 n2 n3 s in
  ConsecutiveFailures s' = n /\ ProbeUntil s' = 0 /\ LastFailureCode s' = code /\
  LastFailureReason s' = truncateReason reason /\ LastFailureAt s' = n2 /\
  Score s' = Score s /\ ScoreUpdatedAt s' = ScoreUpdatedAt s /\ ScoreAttemptSeq s' = ScoreAttemptSeq s /\
  Successes s' = Successes s /\
  OpenUntil s' = if effThreshold svc attempt <=? n
                 then Z.max (OpenUntil s0) (n3 + effCooldown svc attempt ra) else OpenUntil s0.
Proof.
  cbv zeta. unfold failModel. cbv zeta. simpl.
  assert (He : Score (expireOpen s n1) = Score s /\ ScoreUpdatedAt (expireOpen s n1) = ScoreUpdatedAt s
          /\ ScoreAttemptSeq (expireOpen s n1) = ScoreAttemptSeq s /\ Successes (expireOpen s n1) = Successes s).
  { unfold expireOpen. by destruct (_ && _). }
  destruct He as (H1 & H2 & H3 & H4).
  destruct (_ <=? _); unfold openFor, time_Add, After; simpl; [|by rewrite ?H1, ?H2, ?H3, ?H4].
  destruct (Z.ltb_spec (OpenUntil (expireOpen s n1)) (n3 + effCooldown svc attempt ra)); simpl;
    rewrite ?H1, ?H2, ?H3, ?H4; split_and!; auto; lia.
Qed.

Lemma expireOpen_closed s now : OpenUntil s = 0 -> expireOpen s now = s.
Proof. intros H. unfold expireOpen, IsZero. by rewrite H. Qed.

Lemma expireOpen_cooling s now : now <= OpenUntil s -> expireOpen s now = s.
Proof.
  intros H. unfold expireOpen, After.
  replace (OpenUntil s <? now) with false by (symmetry; apply Z.ltb_ge; lia).
  by rewrite andb_false_r.
Qed.

(** A failure as the executor reports it: status, reason, Retry-After and the
    three clock readings of [recordFailure]. *)
Record failureEvent := mkFailureEvent {
  fe_code : Z; fe_reason : string; fe_retryAfter : option Z;
  fe_now1 : Z; fe_now2 : Z; fe_now3 : Z;
}.

Definition recordFailures (svc : RouterStatic) (attempt : modelAttempt) (es : list failureEvent) (st : RouterState) : RouterState :=
  fold_left (fun st e => recordFailure svc attempt (fe_code e) (fe_reason e) (fe_retryAfter e)
                           (fe_now1 e) (fe_now2 e) (fe_now3 e) st) es st.

Lemma recordFailures_below svc attempt es st :
  let s := getBreaker (modelState svc st attempt) in
  OpenUntil s = 0 -> 0 <= ConsecutiveFailures s ->
  ConsecutiveFailures s + Z.of_nat (List.length es) < effThreshold svc attempt ->
  effThreshold svc attempt <= max_int64 ->
  let s' := getBreaker (modelState svc (recordFailures svc attempt es st) attempt) in
  OpenUntil s' = 0 /\ ConsecutiveFailures s' = ConsecutiveFailures s + Z.of_nat (List.length es).
Proof.
  cbv zeta. revert st. induction es as [|e es IH]; intros st Hou Hcf Hlt Hmax; [simpl in *; lia|].
  cbn [List.length recordFailures fold_left] in *. rewrite Nat2Z.inj_succ in *.
  set (st1 := recordFailure svc attempt (fe_code e) (fe_reason e) (fe_retryAfter e) (fe_now1 e) (fe_now2 e) (fe_now3 e) st).
  destruct (failModel_spec svc attempt (fe_code e) (fe_reason e) (fe_retryAfter e) (fe_now1 e) (fe_now2 e) (fe_now3 e)
              (getBreaker (modelState svc st attempt))) as (Hn & _ & _ & _ & _ & _ & _ & _ & _ & Ho).
  rewrite expireOpen_closed in Hn, Ho by done.
  rewrite wrap64_id in Hn, Ho by (unfold in_int64, min_int64, max_int64, two63 in *; lia).
  rewrite (proj2 (Z.leb_gt _ _)) in Ho by lia.
  assert (E1 : getBreaker (modelState svc st1 attempt) =
               failModel svc attempt (fe_code e) (fe_reason e) (fe_retryAfter e) (fe_now1 e) (fe_now2 e) (fe_now3 e)
                 (getBreaker (modelState svc st attempt))) by (unfold st1; by rewrite modelState_recordFailure).
  destruct (IH st1) as [H1 H2]; rewrite ?E1, ?Hn, ?Ho; auto; try lia.
  rewrite E1, Hn in H2. unfold recordFailures in H1, H2. split; [done|]. lia.
Qed.

(** ** Properties *)

(** C1: single flight.  Of any number of goroutines that call
    [tryStartAttempt] (or [tryStartProvider]) on a half-open circuit, in any
    interleaving of their lock sections, at most one is admitted before the
    probe TTL lapses; and once they have all returned, exactly one was. *)
Theorem half_open_single_flight k svc attempt st s t0 n c :
  gateCell k svc attempt st = Some s ->
  OpenUntil s <> 0 -> OpenUntil s <= t0 -> ProbeUntil s <= t0 ->
  rtc (gstep k svc attempt) (mkGconf t0 st (replicate n PStart)) c ->
  g_now c < t0 + probeTTL svc ->
  (count granted (g_threads c) <= 1)%nat /\
  (g_threads c <> [] -> Forall (fun p => exists ok, p = PDone ok) (g_threads c) ->
   count granted (g_threads c) = 1%nat).
Proof.
  intros Hs H0 Hou Hp Hr Hlt.
  assert (Hinit : gateInv k svc attempt t0 (mkGconf t0 st (replicate n PStart))).
  { split; [simpl; lia|]. intros _. exists s. simpl. split_and!; auto. left. split; [done|].
    apply Forall_replicate. by left. }
  destruct (gateInv_rtc _ _ _ _ _ _ Hinit Hr) as [_ Hc].
  destruct (Hc Hlt) as (s' & _ & _ & _ & [[_ Hall]|[_ Hcnt]]); [|split; [lia|done]].
  assert (Hz : count granted (g_threads c) = 0%nat).
  { apply count_none. eapply Forall_impl; [exact Hall|]. by intros p [->| ->]. }
  split; [lia|]. intros Hne Hdone. destruct (g_threads c) as [|p ts]; [done|].
  inversion_clear Hall as [|? ? [->| ->] _]; inversion_clear Hdone as [|? ? [ok Hok] _]; done.
Qed.

(** The circuit of a closed model opens on exactly the threshold-th
    failure in a row.  Before it the model stays available with its circuit
    closed; that failure opens it until the last clock reading plus the
    effective cooldown, a longer Retry-After included. *)
Theorem circuit_opens_at_threshold svc attempt es e st :
  let s := getBreaker (modelState svc st attempt) in
  OpenUntil s = 0 -> ConsecutiveFailures s = 0 ->
  effThreshold svc attempt <= max_int64 ->
  Z.of_nat (List.length es) + 1 = effThreshold svc attempt ->
  0 < fe_now3 e + effCooldown svc attempt (fe_retryAfter e) ->
  let before := getBreaker (modelState svc (recordFailures svc attempt es st) attempt) in
  let opened := getBreaker (modelState svc (recordFailures svc attempt (es ++ [e]) st) attempt) in
  OpenUntil before = 0 /\ ConsecutiveFailures before = Z.of_nat (List.length es) /\
  OpenUntil opened = fe_now3 e + effCooldown svc attempt (fe_retryAfter e) /\
  (forall r, fe_retryAfter e = Some r -> fe_now3 e + r <= OpenUntil opened).
Proof.
  intros s Hou Hcf Hmax Hlen Hpos. cbv zeta.
  destruct (recordFailures_below svc attempt es st) as [H1 H2]; fold s; try lia.
  unfold recordFailures at 3 4. rewrite fold_left_app. simpl.
  fold (recordFailures svc attempt es st). rewrite modelState_recordFailure. simpl.
  set (b := getBreaker (modelState svc (recordFailures svc attempt es st) attempt)) in *.
  destruct (failModel_spec svc attempt (fe_code e) (fe_reason e) (fe_retryAfter e)
              (fe_now1 e) (fe_now2 e) (fe_now3 e) b) as (_ & _ & _ & _ & _ & _ & _ & _ & _ & Ho).
  rewrite expireOpen_closed in Ho by done. rewrite H1, H2 in Ho. fold s in H2, Ho. rewrite Hcf in H2, Ho.
  rewrite wrap64_id in Ho by (unfold in_int64, min_int64, two63 in *; lia).
  rewrite (proj2 (Z.leb_le _ _)) in Ho by lia. rewrite Ho. split_and!; try lia.
  intros r Hr. rewrite Hr in *. unfold effCooldown.
  case_match; case_match; zbool; lia.
Qed.

(** A failure never shortens an open window, whatever cooldown it asks
    for, and always releases the probe claim. *)
Theorem recordFailure_never_shortens svc attempt code reason ra n1 n2 n3 st s :
  modelState svc st attempt = Some s ->
  n1 <= OpenUntil s ->
  exists s', modelState svc (recordFailure svc attempt code reason ra n1 n2 n3 st) attempt = Some s' /\
    OpenUntil s <= OpenUntil s' /\ ProbeUntil s' = 0 /\
    (forall now, now < OpenUntil s ->
       isModelAvailableLocked svc (recordFailure svc attempt code reason ra n1 n2 n3 st) attempt now now = false).
Proof.
  intros Hs Hn1. rewrite modelState_recordFailure, Hs. simpl. eexists. split; [done|].
  destruct (failModel_spec svc attempt code reason ra n1 n2 n3 s) as (_ & Hp & _ & _ & _ & _ & _ & _ & _ & Ho).
  rewrite expireOpen_cooling in Ho by done.
  assert (Hle : OpenUntil s <= OpenUntil (failModel svc attempt code reason ra n1 n2 n3 s)).
  { rewrite Ho. destruct (_ <=? _); lia. }
  split_and!; auto. intros now Hnow. unfold isModelAvailableLocked.
  destruct (isProviderAvailableLocked _ _ _); simpl; [|done].
  rewrite modelState_recordFailure, Hs. simpl. unfold After.
  rewrite (proj2 (Z.ltb_lt _ _)); [done|lia].
Qed.

(** A failed recovery probe under a threshold above one does not re-open
    the circuit: the counter restarts at one and the circuit is closed again,
    so the model is tried at full concurrency; with threshold one it re-opens
    at once. *)
Theorem failed_probe_restarts_count svc attempt code reason ra n1 n2 n3 st s :
  modelState svc st attempt = Some s ->
  OpenUntil s <> 0 -> OpenUntil s < n1 -> 0 <= n3 + effCooldown svc attempt ra ->
  let s' := failModel svc attempt code reason ra n1 n2 n3 s in
  modelState svc (recordFailure svc attempt code reason ra n1 n2 n3 st) attempt = Some s' /\
  ConsecutiveFailures s' = 1 /\
  (1 < effThreshold svc attempt -> OpenUntil s' = 0 /\ forall now, gateRead (Some s') now = Some true) /\
  (effThreshold svc attempt <= 1 -> OpenUntil s' = n3 + effCooldown svc attempt ra).
Proof.
  intros Hs H0 Hlt Hpos s'. rewrite modelState_recordFailure, Hs. simpl. split; [done|].
  destruct (failModel_spec svc attempt code reason ra n1 n2 n3 s) as (Hn & _ & _ & _ & _ & _ & _ & _ & _ & Ho).
  fold s' in Hn, Ho. unfold expireOpen, IsZero, After in Hn, Ho.
  rewrite (proj2 (Z.eqb_neq _ _) H0), (proj2 (Z.ltb_lt _ _) Hlt) in Hn, Ho. cbn [ConsecutiveFailures OpenUntil negb andb] in Hn, Ho.
  change (wrap64 (0 + 1)) with 1 in *. split; [done|]. split; intros Ht.
  - rewrite (proj2 (Z.leb_gt _ _)) in Ho by lia. split; [done|]. intros now. simpl. by rewrite Ho.
  - rewrite (proj2 (Z.leb_le _ _)) in Ho by lia. lia.
Qed.

(** A resolved probe and a recorded provider success close their circuit:
    the failures are forgotten, the window is gone, and every later gate test
    answers with full concurrency, whatever the circuit was before. *)
Theorem resolution_closes_circuit svc attempt provider st now1 now2 :
  let st1 := resolveProbe svc attempt st in
  let st2 := resolveProviderSuccess provider st in
  tryStartAttempt svc attempt now1 now2 st1 = (st1, true) /\
  ConsecutiveFailures (getBreaker (modelState svc st1 attempt)) = 0 /\
  OpenUntil (getBreaker (modelState svc st1 attempt)) = 0 /\
  gateRead (providerBreakers st2 !! provider) now1 = Some true /\
  ConsecutiveFailures (getBreaker (providerBreakers st2 !! provider)) = 0 /\
  modelBreakers st2 = modelBreakers st /\ providerBreakers st1 = providerBreakers st.
Proof.
  cbv zeta. unfold tryStartAttempt, modelState, resolveProbe, resolveProviderSuccess.
  simpl. by rewrite !lookup_insert_eq.
Qed.

Lemma openWait_spec now o w :
  openWait now o = Some w <-> exists s, o = Some s /\ now < OpenUntil s /\ w = time_Sub (OpenUntil s) now.
Proof.
  unfold openWait, After. destruct o as [s|]; [|naive_solver].
  destruct (Z.ltb_spec now (OpenUntil s)); split; intros H'; [naive_solver..|].
  destruct H' as (? & [= <-] & ? & ?). lia.
Qed.

Lemma time_Sub_pos t u : u < t -> 0 < time_Sub t u.
Proof. unfold time_Sub, min_int64, max_int64, two63. lia. Qed.

(** The Retry-After of an all-cooling refusal is the soonest expiry among
    the open circuits of the chain, and 0 exactly when no circuit of the
    chain is open. *)
Theorem retryAfter_is_soonest_expiry svc st now attempts :
  let r := retryAfterForAttempts svc st now attempts in
  (r = 0 <-> forall a s, a ∈ attempts -> modelState svc st a = Some s -> OpenUntil s <= now) /\
  (r <> 0 -> 0 < r /\
     (exists a s, a ∈ attempts /\ modelState svc st a = Some s /\ r = time_Sub (OpenUntil s) now) /\
     forall a s, a ∈ attempts -> modelState svc st a = Some s -> now < OpenUntil s -> r <= time_Sub (OpenUntil s) now).
Proof.
  cbv zeta. unfold retryAfterForAttempts.
  set (ws := omap (fun attempt => openWait now (modelState svc st attempt)) attempts).
  assert (Hin : forall w, w ∈ ws <-> exists a s, a ∈ attempts /\ modelState svc st a = Some s /\
                              now < OpenUntil s /\ w = time_Sub (OpenUntil s) now).
  { intros w. unfold ws. rewrite list_elem_of_omap. setoid_rewrite openWait_spec. naive_solver. }
  destruct (soonest_spec ws) as [H0 H1].
  { apply Forall_forall. intros w (a & s & _ & _ & Hlt & ->)%Hin. by apply time_Sub_pos. }
  split.
  - rewrite H0. split.
    + intros Hnil a s Ha Hs. destruct (Z.le_gt_cases (OpenUntil s) now); [done|].
      assert (time_Sub (OpenUntil s) now ∈ ws) as Hw by (apply Hin; naive_solver).
      rewrite Hnil in Hw. by apply not_elem_of_nil in Hw.
    + intros Hall. destruct ws as [|w ws']; [done|]. exfalso.
      destruct (proj1 (Hin w)) as (a & s & Ha & Hs & Hlt & _); [apply elem_of_cons; by left|].
      specialize (Hall a s Ha Hs). lia.
  - intros Hr. destruct H1 as (Hp & Hm & Hall); [intros ->; by apply Hr, H0|].
    split; [done|]. split.
    + apply Hin in Hm. naive_solver.
    + intros a s Ha Hs Hlt. rewrite Forall_forall in Hall. apply Hall, Hin. naive_solver.
Qed.

Definition dailyCooling (svc : RouterStatic) (st : RouterState) (now : Z) (a : modelAttempt) (s : modelBreakerState) : Prop :=
  modelState svc st a = Some s /\ now < OpenUntil s /\
  HasPrefix (LastFailureReason s) openRouterDailyFreeQuotaPrefix = true.

Lemma dailyReasonLoop_spec svc st now msg attempts :
  msg <> "" ->
  dailyReasonLoop svc st now msg attempts = Some msg /\
    (forall a, a ∈ attempts -> exists s, dailyCooling svc st now a s) \/
  dailyReasonLoop svc st now msg attempts = None /\
    ~ (forall a, a ∈ attempts -> exists s, dailyCooling svc st now a s).
Proof.
  intros Hmsg. induction attempts as [|a rest IH]; simpl.
  { left. split; [done|]. intros a Ha. by apply not_elem_of_nil in Ha. }
  assert (Hfail : (forall s, modelState svc st a = Some s -> ~ dailyCooling svc st now a s) ->
    ~ (forall a', a' ∈ a :: rest -> exists s, dailyCooling svc st now a' s)).
  { intros Hno Hall. destruct (Hall a) as [s Hs]; [apply elem_of_cons; by left|].
    by apply (Hno s); [apply Hs|]. }
  destruct (modelState svc st a) as [s|] eqn:Hs; [|right; split; [done|]; by apply Hfail].
  unfold After. destruct (Z.ltb_spec now (OpenUntil s)) as [Hlt|Hge]; simpl.
  2:{ right. split; [done|]. apply Hfail. intros s' [= <-] (_ & H & _). lia. }
  destruct (HasPrefix _ _) eqn:Hp; simpl.
  2:{ right. split; [done|]. apply Hfail. intros s' [= <-] (_ & _ & H). congruence. }
  assert (empty_str msg = false) as -> by (unfold empty_str; by apply bool_decide_eq_false).
  destruct IH as [[-> Hall]|[-> Hno]]; [left|right]; (split; [done|]).
  - intros a' [->|Ha']%elem_of_cons; [by exists s|by apply Hall].
  - intros Hall. apply Hno. intros a' Ha'. apply Hall. apply elem_of_cons. by right.
Qed.

(** The daily-quota explanation is given exactly when the chain is not
    empty and every one of its models is cooling down for that reason; it is
    then the first model's recorded reason. *)
Theorem dailyFreeQuotaReason_spec svc st now a rest :
  let r := dailyFreeQuotaReasonForAttempts svc st now (a :: rest) in
  (r <> "" <-> forall a', a' ∈ a :: rest -> exists s, dailyCooling svc st now a' s) /\
  (forall s, r <> "" -> modelState svc st a = Some s -> r = LastFailureReason s) /\
  dailyFreeQuotaReasonForAttempts svc st now [] = "".
Proof.
  cbv zeta. unfold dailyFreeQuotaReasonForAttempts. cbn [dailyReasonLoop].
  assert (Hfst : forall P : Prop, (forall s, dailyCooling svc st now a s -> P) ->
            (forall a', a' ∈ a :: rest -> exists s, dailyCooling svc st now a' s) -> P).
  { intros P HP Hall. destruct (Hall a) as [s Hs]; [apply elem_of_cons; by left|]. eauto. }
  destruct (modelState svc st a) as [s|] eqn:Hs; simpl.
  2:{ split_and!; auto; [|done]. split; [done|]. apply Hfst. intros s (H & _). congruence. }
  unfold After. destruct (Z.ltb_spec now (OpenUntil s)) as [Hlt|Hge]; simpl.
  2:{ split_and!; auto; [|done]. split; [done|]. apply Hfst. intros s' (H & H' & _). simplify_eq. lia. }
  destruct (HasPrefix (LastFailureReason s) openRouterDailyFreeQuotaPrefix) eqn:Hp; simpl.
  2:{ split_and!; auto; [|done]. split; [done|]. apply Hfst. intros s' (H & _ & H'). simplify_eq. congruence. }
  assert (Hne : LastFailureReason s <> "") by (by intros E; rewrite E in Hp).
  destruct (dailyReasonLoop_spec svc st now (LastFailureReason s) rest Hne) as [[-> Hall]|[-> Hno]]; simpl.
  - split_and!; auto; [|by intros s' _ [= ->]].
    split; [|done]. intros _ a' [->|Ha']%elem_of_cons; [by exists s|by apply Hall].
  - split_and!; auto; [|by intros]. split; [done|]. intros Hall. exfalso. apply Hno.
    intros a' Ha'. apply Hall. apply elem_of_cons. by right.
Qed.

(** ** Witnesses *)

Definition wit_policy : BreakerPolicy := mkBreakerPolicy 3 (60 * Second) true.
Definition wit_svc : RouterStatic :=
  mkStatic (mkConfig 3 (60 * Second) (45 * Second) (120 * Second)) "" wit_policy "default" ∅ ∅.
Definition wit_attempt : modelAttempt := newAttempt "coding" "m/x:free" providerOpenRouter wit_policy "".
Definition wit_open : modelBreakerState := mkBreaker 3 0 503 "down" 5 (10 * Second) 0 f0 0 0.
Definition wit_state : RouterState :=
  mkState {[breakerKey wit_svc wit_attempt := wit_open]} ∅ ∅ ∅ 0 false.

Lemma half_open_single_flight_witness :
  exists c, rtc (gstep GModel wit_svc wit_attempt)
              (mkGconf (20 * Second) wit_state (replicate 2 PStart)) c /\
    Forall (fun p => exists ok, p = PDone ok) (g_threads c) /\
    count granted (g_threads c) = 1%nat.
Proof.
  eexists. assert (Hr : rtc (gstep GModel wit_svc wit_attempt)
              (mkGconf (20 * Second) wit_state (replicate 2 PStart))
              (mkGconf (20 * Second) (tryStartAttempt_write wit_svc wit_attempt (20 * Second) wit_state).1
                 [PDone false; PDone true])).
  { eapply rtc_l; [apply (gstep_read _ _ _ _ _ _ 0%nat); reflexivity|].
    eapply rtc_l; [apply (gstep_read _ _ _ _ _ _ 1%nat); reflexivity|].
    eapply rtc_l; [apply (gstep_write _ _ _ _ _ (tryStartAttempt_write wit_svc wit_attempt (20 * Second) wit_state).1 _ 1%nat true); vm_compute; reflexivity|].
    eapply rtc_l; [eapply (gstep_write _ _ _ _ _ _ _ 0%nat false); vm_compute; reflexivity|].
    apply rtc_refl. }
  assert (Hd : Forall (fun p => exists ok, p = PDone ok) [PDone false; PDone true]) by (repeat constructor; eauto).
  split; [exact Hr|]. split; [exact Hd|].
  refine (proj2 (half_open_single_flight GModel wit_svc wit_attempt wit_state wit_open (20 * Second) 2 _ _ _ _ _ Hr _) _ Hd);
    vm_compute; congruence.
Defined.

Definition wit_fail (t : Z) (ra : option Z) : failureEvent := mkFailureEvent 503 "HTTP 503" ra t t t.

Lemma circuit_opens_at_threshold_witness :
  let es := [wit_fail (1 * Second) None; wit_fail (2 * Second) None] in
  OpenUntil (getBreaker (modelState wit_svc
    (recordFailures wit_svc wit_attempt (es ++ [wit_fail (3 * Second) (Some (90 * Second))])
       (mkState ∅ ∅ ∅ ∅ 0 false)) wit_attempt)) = 93 * Second.
Proof.
  intros es.
  refine (proj1 (proj2 (proj2 (circuit_opens_at_threshold wit_svc wit_attempt es
    (wit_fail (3 * Second) (Some (90 * Second))) (mkState ∅ ∅ ∅ ∅ 0 false) _ _ _ _ _))));
    vm_compute; congruence.
Defined.

Lemma recordFailure_never_shortens_witness :
  exists s', modelState wit_svc (recordFailure wit_svc wit_attempt 503 "again" (Some (1 * Second))
                 (5 * Second) (5 * Second) (5 * Second) wit_state) wit_attempt = Some s' /\
    OpenUntil wit_open <= OpenUntil s'.
Proof.
  destruct (recordFailure_never_shortens wit_svc wit_attempt 503 "again" (Some (1 * Second))
    (5 * Second) (5 * Second) (5 * Second) wit_state wit_open) as (s' & H1 & H2 & _);
    [vm_compute; reflexivity|vm_compute; congruence|]. exists s'. split; [exact H1|exact H2].
Defined.

Lemma failed_probe_restarts_count_witness :
  OpenUntil (failModel wit_svc wit_attempt 500 "probe" None (20 * Second) (20 * Second) (20 * Second) wit_open) = 0.
Proof.
  destruct (failed_probe_restarts_count wit_svc wit_attempt 500 "probe" None
    (20 * Second) (20 * Second) (20 * Second) wit_state wit_open) as (_ & _ & H & _);
    [vm_compute; reflexivity|vm_compute; congruence..|]. apply H. vm_compute. reflexivity.
Defined.
