(* ===== verification/HostBreaker.v ===== *)
(** * HostBreaker: the per-host circuit breaker of the transport
    ([GlobalBreakerTransport], router_breaker.go)

    [RoundTrip] holds the mutex twice, around the upstream call: [admitHost] is
    the first section, [resolve] the second.  [hstep] interleaves the sections
    of concurrent requests. *)

From S2P Require Import Prelude.
From Stdlib Require Import Lia ZArith String.
#[local] Open Scope string_scope.
#[local] Open Scope Z_scope.

Record hostBreakerState := mkHost {
  failures : Z;
  openUntil : Z;
  probeUntil : Z;
}.

Record GlobalBreakerTransport := mkTransport {
  t_FailureThreshold : Z;
  t_Cooldown : Z;
  hosts : gmap string hostBreakerState;
}.

Definition zeroHost : hostBreakerState := mkHost 0 0 0.

Definition set_host (t : GlobalBreakerTransport) (host : string) (hb : hostBreakerState) : GlobalBreakerTransport :=
  mkTransport (t_FailureThreshold t) (t_Cooldown t) (<[host := hb]> (hosts t)).

(** [hostState] creates the entry of an unknown host. *)
Definition hostState (t : GlobalBreakerTransport) (host : string) : GlobalBreakerTransport * hostBreakerState :=
  match hosts t !! host with
  | Some hb => (t, hb)
  | None => (set_host t host zeroHost, zeroHost)
  end.

Inductive admission :=
| RefusedOpen
| RefusedProbeInFlight
| Passed (probing : bool).

Definition hostProbeTTL (t : GlobalBreakerTransport) : Z :=
  if t_Cooldown t <? 60 * Second then 60 * Second else t_Cooldown t.

Definition admitHost (t : GlobalBreakerTransport) (host : string) (now : Z) : GlobalBreakerTransport * admission :=
  let '(t, hb) := hostState t host in
  if Before now (openUntil hb) then (t, RefusedOpen)
  else if negb (IsZero (openUntil hb)) then
    if Before now (probeUntil hb) then (t, RefusedProbeInFlight)
    else (set_host t host (mkHost (failures hb) (openUntil hb) (time_Add now (hostProbeTTL t))), Passed true)
  else (t, Passed false).

(** What the base transport returned: a response with its status, or an error
    together with the test [errors.Is(err, context.Canceled) ||
    req.Context().Err() != nil]. *)
Inductive roundTripResult :=
| RTError (cancelled : bool)
| RTResponse (status : Z).

Definition resolve (t : GlobalBreakerTransport) (host : string) (probing : bool) (res : roundTripResult) (now : Z) : GlobalBreakerTransport :=
  let '(t, hb) := hostState t host in
  let hb := mkHost (failures hb) (openUntil hb) 0 in
  match res with
  | RTError true => set_host t host hb
  | RTError false =>
      let f := wrap64 (failures hb + 1) in
      set_host t host
        (if t_FailureThreshold t <=? f then mkHost f (time_Add now (t_Cooldown t)) (probeUntil hb)
         else mkHost f (openUntil hb) (probeUntil hb))
  | RTResponse status =>
      if (500 <=? status) && probing then
        set_host t host (mkHost (failures hb) (time_Add now (t_Cooldown t)) (probeUntil hb))
      else if (status =? 429) || (500 <=? status) then set_host t host hb
      else set_host t host (mkHost 0 0 (probeUntil hb))
  end.

(** One request with nothing in between: [res] is the base transport's answer. *)
Definition RoundTrip (t : GlobalBreakerTransport) (host : string) (now1 : Z) (res : roundTripResult) (now2 : Z) : GlobalBreakerTransport * admission :=
  match admitHost t host now1 with
  | (t, Passed probing) => (resolve t host probing res now2, Passed probing)
  | (t, refused) => (t, refused)
  end.

(** ** Concurrent requests to one host *)

Inductive hostPc := HStart | HFlight (probing : bool) | HDone.

Record hconf := mkHconf { h_now : Z; h_t : GlobalBreakerTransport; h_reqs : list hostPc }.

(** Time passes, or a request takes the first section. *)
Inductive harrive (host : string) : hconf -> hconf -> Prop :=
| harrive_tick now now' t rs :
    now <= now' -> harrive host (mkHconf now t rs) (mkHconf now' t rs)
| harrive_admit now t t' rs i a :
    rs !! i = Some HStart -> admitHost t host now = (t', a) ->
    harrive host (mkHconf now t rs)
      (mkHconf now t' (<[i := match a with Passed p => HFlight p | _ => HDone end]> rs)).

(** Or a request in flight takes the second. *)
Inductive hstep (host : string) : hconf -> hconf -> Prop :=
| hstep_arrive c c' : harrive host c c' -> hstep host c c'
| hstep_resolve now t rs i probing res :
    rs !! i = Some (HFlight probing) ->
    hstep host (mkHconf now t rs) (mkHconf now (resolve t host probing res now) (<[i := HDone]> rs)).

Definition probes (rs : list hostPc) : nat :=
  count (fun p => match p with HFlight true => true | _ => false end) rs.

(** ** Lemmas *)

Lemma hostState_lookup t host :
  hosts (hostState t host).1 !! host = Some (hostState t host).2 /\
  t_FailureThreshold (hostState t host).1 = t_FailureThreshold t /\
  t_Cooldown (hostState t host).1 = t_Cooldown t /\
  (forall h, h <> host -> hosts (hostState t host).1 !! h = hosts t !! h).
Proof.
  unfold hostState. destruct (hosts t !! host) eqn:E; simpl; split_and!; auto.
  - apply lookup_insert_eq.
  - intros h Hh. by rewrite lookup_insert_ne.
Qed.

Definition hostOf (t : GlobalBreakerTransport) (host : string) : hostBreakerState := (hostState t host).2.

Lemma hostOf_set t host hb : hostOf (set_host t host hb) host = hb.
Proof. unfold hostOf, hostState. simpl. by rewrite lookup_insert_eq. Qed.

Lemma hostOf_hostState t host : hostOf (hostState t host).1 host = hostOf t host.
Proof. unfold hostOf, hostState. destruct (hosts t !! host) eqn:E; simpl; [by rewrite E|by rewrite lookup_insert_eq]. Qed.

(** The second section, on every branch. *)
Lemma resolve_hostOf t host probing res now :
  let hb := hostOf t host in
  hostOf (resolve t host probing res now) host =
  match res with
  | RTError true => mkHost (failures hb) (openUntil hb) 0
  | RTError false =>
      if t_FailureThreshold t <=? wrap64 (failures hb + 1)
      then mkHost (wrap64 (failures hb + 1)) (now + t_Cooldown t) 0
      else mkHost (wrap64 (failures hb + 1)) (openUntil hb) 0
  | RTResponse status =>
      if (500 <=? status) && probing then mkHost (failures hb) (now + t_Cooldown t) 0
      else if (status =? 429) || (500 <=? status) then mkHost (failures hb) (openUntil hb) 0
      else zeroHost
  end.
Proof.
  cbv zeta. unfold resolve. destruct (hostState_lookup t host) as (_ & H1 & H2 & _).
  change (hostOf t host) with ((hostState t host).2).
  destruct (hostState t host) as [t1 hb]. simpl in *. unfold time_Add. rewrite H1, H2.
  destruct res as [[]|status]; simpl; repeat case_match; by rewrite ?hostOf_set.
Qed.

Lemma resolve_config t host probing res now :
  t_FailureThreshold (resolve t host probing res now) = t_FailureThreshold t /\
  t_Cooldown (resolve t host probing res now) = t_Cooldown t.
Proof.
  unfold resolve. destruct (hostState_lookup t host) as (_ & H1 & H2 & _).
  destruct (hostState t host) as [t1 hb]. simpl in *.
  destruct res as [[]|status]; simpl; repeat case_match; auto.
Qed.

Lemma admit_closed t host now :
  0 <= now -> openUntil (hostOf t host) = 0 ->
  admitHost t host now = ((hostState t host).1, Passed false).
Proof.
  intros Hn H0. unfold admitHost, hostOf in *. destruct (hostState t host) as [t1 hb]; simpl in *.
  unfold Before, IsZero. rewrite H0. by rewrite (proj2 (Z.ltb_ge _ _)) by lia.
Qed.

(** Every section touches the entry of its own host only. *)
Lemma admit_other t host now h :
  h <> host -> hosts (admitHost t host now).1 !! h = hosts t !! h.
Proof.
  intros Hh. destruct (hostState_lookup t host) as (_ & _ & _ & H). rewrite <- (H h Hh).
  unfold admitHost. destruct (hostState t host) as [t1 hb].
  repeat case_match; simpl; by rewrite ?lookup_insert_ne.
Qed.

Lemma resolve_other t host probing res now h :
  h <> host -> hosts (resolve t host probing res now) !! h = hosts t !! h.
Proof.
  intros Hh. destruct (hostState_lookup t host) as (_ & _ & _ & H). rewrite <- (H h Hh).
  unfold resolve. destruct (hostState t host) as [t1 hb].
  repeat case_match; simpl; by rewrite lookup_insert_ne.
Qed.

Lemma RoundTrip_other t host n1 res n2 h :
  h <> host -> hosts (RoundTrip t host n1 res n2).1 !! h = hosts t !! h.
Proof.
  intros Hh. unfold RoundTrip. pose proof (admit_other t host n1 h Hh) as Ha.
  destruct (admitHost t host n1) as [t1 []]; simpl in *; [done|done|]. by rewrite resolve_other.
Qed.

Lemma RoundTrip_closed t host n1 res n2 :
  0 <= n1 -> openUntil (hostOf t host) = 0 ->
  hostOf (RoundTrip t host n1 res n2).1 host = hostOf (resolve t host false res n2) host /\
  (RoundTrip t host n1 res n2).2 = Passed false /\
  t_FailureThreshold (RoundTrip t host n1 res n2).1 = t_FailureThreshold t /\
  t_Cooldown (RoundTrip t host n1 res n2).1 = t_Cooldown t.
Proof.
  intros Hn H0. unfold RoundTrip. rewrite (admit_closed t host n1 Hn H0). simpl.
  destruct (hostState_lookup t host) as (_ & H1 & H2 & _).
  destruct (resolve_config (hostState t host).1 host false res n2) as [-> ->].
  split_and!; auto. rewrite !resolve_hostOf. cbv zeta. by rewrite !hostOf_hostState, H1, H2.
Qed.

(** ** The specification of a closed circuit

    [evidence] counts the transport errors since the last healthy answer; a
    cancelled request, a 429 and a 5xx count for nothing. *)

Definition evidence_step (n : Z) (res : roundTripResult) : Z :=
  match res with
  | RTError true => n
  | RTError false => n + 1
  | RTResponse status => if (status =? 429) || (500 <=? status) then n else 0
  end.

Definition evidence (rs : list roundTripResult) : Z := fold_left evidence_step rs 0.

Record exchange := mkExchange { ex_start : Z; ex_res : roundTripResult; ex_end : Z }.

Definition run_host (t : GlobalBreakerTransport) (host : string) (es : list exchange) : GlobalBreakerTransport :=
  fold_left (fun t e => (RoundTrip t host (ex_start e) (ex_res e) (ex_end e)).1) es t.

(** No prefix of the exchanges brings the count to the threshold. *)
Definition below (threshold n : Z) (es : list exchange) : Prop :=
  forall k, fold_left evidence_step (ex_res <$> take k es) n < threshold.

Lemma below_cons threshold n e es :
  below threshold n (e :: es) -> n < threshold /\ below threshold (evidence_step n (ex_res e)) es.
Proof. intros H. split; [apply (H 0%nat)|]. intros k. apply (H (S k)). Qed.

Lemma evidence_step_nonneg n r : 0 <= n -> 0 <= evidence_step n r.
Proof. intros Hn. destruct r as [[]|s]; simpl; [lia|lia|]. case_match; lia. Qed.

Lemma evidence_nonneg rs n : 0 <= n -> 0 <= fold_left evidence_step rs n.
Proof. revert n. induction rs; intros n Hn; simpl; auto using evidence_step_nonneg. Qed.

(** One exchange on a closed circuit, below the threshold. *)
Lemma RoundTrip_below t host n e :
  0 <= n -> t_FailureThreshold t <= max_int64 -> hostOf t host = mkHost n 0 0 -> 0 <= ex_start e ->
  evidence_step n (ex_res e) < t_FailureThreshold t ->
  hostOf (RoundTrip t host (ex_start e) (ex_res e) (ex_end e)).1 host = mkHost (evidence_step n (ex_res e)) 0 0.
Proof.
  intros Hn Ht Hh Hs Hlt.
  destruct (RoundTrip_closed t host (ex_start e) (ex_res e) (ex_end e)) as (-> & _); [done|by rewrite Hh|].
  rewrite resolve_hostOf. cbv zeta. rewrite Hh. simpl.
  destruct (ex_res e) as [[]|status]; simpl in *; [done| |].
  - rewrite wrap64_id by (unfold in_int64, min_int64, max_int64, two63 in *; lia).
    by rewrite (proj2 (Z.leb_gt _ _)) by lia.
  - rewrite andb_false_r. by case_match.
Qed.

Lemma run_host_below es : forall t host n,
  0 <= n -> t_FailureThreshold t <= max_int64 -> hostOf t host = mkHost n 0 0 ->
  Forall (fun e => 0 <= ex_start e) es -> below (t_FailureThreshold t) n es ->
  hostOf (run_host t host es) host = mkHost (fold_left evidence_step (ex_res <$> es) n) 0 0 /\
  t_FailureThreshold (run_host t host es) = t_FailureThreshold t /\
  t_Cooldown (run_host t host es) = t_Cooldown t.
Proof.
  induction es as [|e es IH]; intros t host n Hn Ht Hh Hs Hb; [done|].
  inversion_clear Hs as [|? ? Hs0 Hs1]. apply below_cons in Hb as [_ Hb].
  destruct (RoundTrip_closed t host (ex_start e) (ex_res e) (ex_end e)) as (_ & _ & H1 & H2);
    [done|by rewrite Hh|].
  pose proof (RoundTrip_below t host n e Hn Ht Hh Hs0 (Hb 0%nat)) as Hr.
  cbn [run_host fold_left fmap list_fmap]. unfold run_host in IH. rewrite <- H1 in Ht, Hb |- *. rewrite <- H2.
  apply IH; auto using evidence_step_nonneg.
Qed.

Lemma admit_open t host now :
  Before now (openUntil (hostOf t host)) = true -> (admitHost t host now).2 = RefusedOpen.
Proof. unfold admitHost, hostOf. destruct (hostState t host) as [t1 hb]. simpl. by intros ->. Qed.

(** ** Single flight *)

Definition hostInv (host : string) (t0 : Z) (c : hconf) : Prop :=
  t0 <= h_now c /\
  let hb := hostOf (h_t c) host in
  openUntil hb <> 0 /\ openUntil hb <= t0 /\
  (h_now c < t0 + hostProbeTTL (h_t c) ->
   (probeUntil hb <= t0 /\ Forall (eq HStart) (h_reqs c)) \/
   (t0 + hostProbeTTL (h_t c) <= probeUntil hb /\ probes (h_reqs c) = 1%nat)).

Lemma hostProbeTTL_pos t : 0 < hostProbeTTL t.
Proof. unfold hostProbeTTL, Second, Millisecond. destruct (Z.ltb_spec (t_Cooldown t) (60 * (1000 * 1000000))); lia. Qed.

(** The first section on a half-open circuit. *)
Lemma admit_half_open t host now :
  openUntil (hostOf t host) <> 0 -> openUntil (hostOf t host) <= now ->
  let hb := hostOf t host in
  hostProbeTTL (admitHost t host now).1 = hostProbeTTL t /\
  if now <? probeUntil hb
  then hostOf (admitHost t host now).1 host = hb /\ (admitHost t host now).2 = RefusedProbeInFlight
  else hostOf (admitHost t host now).1 host = mkHost (failures hb) (openUntil hb) (now + hostProbeTTL t) /\
       (admitHost t host now).2 = Passed true.
Proof.
  intros H0 Hle. cbv zeta. destruct (hostState_lookup t host) as (Hl & H1 & H2 & _).
  pose proof (hostOf_hostState t host) as Hh. unfold admitHost.
  change (hostOf t host) with ((hostState t host).2) in *.
  destruct (hostState t host) as [t1 hb]. simpl in *. unfold Before, IsZero, time_Add.
  rewrite (proj2 (Z.ltb_ge now (openUntil hb))), (proj2 (Z.eqb_neq (openUntil hb) 0)) by lia.
  simpl. assert (Ht : hostProbeTTL t1 = hostProbeTTL t) by (unfold hostProbeTTL; by rewrite H2).
  destruct (now <? probeUntil hb); simpl.
  - auto.
  - split_and!; auto. rewrite hostOf_set. by rewrite Ht.
Qed.

Lemma HStart_probes rs : Forall (eq HStart) rs -> probes rs = 0%nat.
Proof. intros H. apply count_none. eapply Forall_impl; [exact H|]. by intros ? <-. Qed.

Lemma hostInv_arrive host t0 c c' : hostInv host t0 c -> harrive host c c' -> hostInv host t0 c'.
Proof.
  intros (Ht & Hnz & Hou & Halt) Hstep.
  destruct Hstep as [now now' t rs Hle|now t t' rs i a Hi Ha]; unfold hostInv; simpl in *.
  - split_and!; auto; [lia|]. intros. apply Halt. lia.
  - destruct (admit_half_open t host now Hnz ltac:(lia)) as [Httl Hcase]. rewrite Ha in Httl, Hcase.
    simpl in Httl, Hcase. rewrite Httl. pose proof (hostProbeTTL_pos t) as Hpos.
    pose proof (count_insert (fun p => match p with HFlight true => true | _ => false end) rs i _
      (match a with Passed p => HFlight p | _ => HDone end) Hi) as Hc.
    fold (probes rs) in Hc. simpl in Hc.
    destruct (Z.ltb_spec now (probeUntil (hostOf t host))) as [Hlt|Hge]; destruct Hcase as [-> ->]; simpl.
    + split_and!; auto. intros Hn. right. split; [destruct (Halt Hn) as [[? _]|[? _]]; lia|].
      destruct (Halt Hn) as [[? _]|[_ Hp]]; [lia|]. unfold probes in *. simpl in Hc. lia.
    + split_and!; auto. intros Hn. right. split; [lia|].
      destruct (Halt Hn) as [[_ Hf]|[? _]]; [|lia].
      apply HStart_probes in Hf. unfold probes in *. simpl in Hc. lia.
Qed.

Lemma hostInv_rtc host t0 c c' : hostInv host t0 c -> rtc (harrive host) c c' -> hostInv host t0 c'.
Proof. intros Hi Hr. induction Hr; eauto using hostInv_arrive. Qed.

(** ** Theorems *)

(** C8: the host circuit refines the count of transport errors.  On a fresh
    host, requests run one after another whose counted errors stay below the
    threshold leave the circuit closed with exactly that count; cancelled
    requests, 429 and 5xx answers do not move it and a healthy answer clears
    it.  The error that reaches the threshold opens the circuit for the
    cooldown: every later request is refused without reaching the upstream
    until it has passed.  Other hosts keep their state throughout. *)
Theorem host_circuit_refines_evidence t host es e :
  t_FailureThreshold t <= max_int64 -> hosts t !! host = None ->
  Forall (fun e => 0 <= ex_start e) es -> 0 <= ex_start e ->
  below (t_FailureThreshold t) 0 es ->
  hostOf (run_host t host es) host = mkHost (evidence (ex_res <$> es)) 0 0 /\
  (forall h, h <> host -> hosts (run_host t host es) !! h = hosts t !! h) /\
  (ex_res e = RTError false -> t_FailureThreshold t <= evidence (ex_res <$> es) + 1 ->
   let t' := run_host t host (es ++ [e]) in
   hostOf t' host = mkHost (t_FailureThreshold t) (ex_end e + t_Cooldown t) 0 /\
   (forall now, now < ex_end e + t_Cooldown t -> (admitHost t' host now).2 = RefusedOpen)).
Proof.
  intros Ht Hfresh Hs He Hb.
  assert (H0 : hostOf t host = mkHost 0 0 0) by (unfold hostOf, hostState; by rewrite Hfresh).
  destruct (run_host_below es t host 0 ltac:(done) Ht H0 Hs Hb) as (Hrun & H1 & H2).
  fold (evidence (ex_res <$> es)) in Hrun. split_and!; [done| |].
  - intros h Hh. clear -Hh. revert t. induction es as [|e es IH]; intros t; [done|].
    cbn [run_host fold_left]. unfold run_host in IH. rewrite IH. by apply RoundTrip_other.
  - intros Hres Hge. cbv zeta. assert (Hopen : hostOf (run_host t host (es ++ [e])) host
      = mkHost (t_FailureThreshold t) (ex_end e + t_Cooldown t) 0).
    { unfold run_host. rewrite fold_left_app. cbn [fold_left]. fold (run_host t host es).
      destruct (RoundTrip_closed (run_host t host es) host (ex_start e) (ex_res e) (ex_end e))
        as (-> & _); [done|by rewrite Hrun|].
      rewrite resolve_hostOf. cbv zeta. rewrite Hrun, H1, H2, Hres. simpl.
      pose proof (Hb (List.length es)) as Hlast. rewrite take_ge in Hlast by lia.
      fold (evidence (ex_res <$> es)) in Hlast.
      replace (evidence (ex_res <$> es) + 1) with (t_FailureThreshold t) by lia.
      pose proof (evidence_nonneg (ex_res <$> es) 0 ltac:(done)) as Hge0. fold (evidence (ex_res <$> es)) in Hge0.
      rewrite wrap64_id by (unfold in_int64, min_int64, max_int64, two63 in *; lia).
      by rewrite Z.leb_refl. }
    split; [done|]. intros now Hnow. apply admit_open. rewrite Hopen. simpl. by apply Z.ltb_lt.
Qed.

(** After the cooldown of a host circuit, as soon as any of the requests
    that arrive together has passed the first section, exactly one of them is
    in flight as the probe and no other reaches the upstream, until the probe
    window lapses or a request completes. *)
Theorem host_probe_single_flight host t0 t n c :
  openUntil (hostOf t host) <> 0 -> openUntil (hostOf t host) <= t0 -> probeUntil (hostOf t host) <= t0 ->
  rtc (harrive host) (mkHconf t0 t (replicate n HStart)) c ->
  h_now c < t0 + hostProbeTTL (h_t c) ->
  ~ Forall (eq HStart) (h_reqs c) ->
  probes (h_reqs c) = 1%nat.
Proof.
  intros H0 H1 H2 Hr Hn Hmoved.
  apply (hostInv_rtc host t0) in Hr.
  - destruct Hr as (_ & _ & _ & Halt). destruct (Halt Hn) as [[_ ?]|[_ ?]]; tauto.
  - split; [done|]. split_and!; auto. intros _. left. split; [done|]. simpl.
    by apply Forall_replicate.
Qed.

(** The single flight above does not survive a completion.  A request that
    was let through while the circuit was still closed may finish during the
    probe (here cancelled, which says nothing about the host); it releases the
    probe it does not hold, and a second probe is let through with the first
    still in flight and its window not lapsed. *)
Theorem host_stale_completion_admits_second_probe :
  exists t rs c, rs = [HFlight true; HFlight false; HStart] /\
    let host := "openrouter.ai" in
    Before 1000 (probeUntil (hostOf t host)) = true /\
    rtc (hstep host) (mkHconf 1000 t rs) c /\
    h_now c = 1000 /\ probes (h_reqs c) = 2%nat.
Proof.
  exists (mkTransport 3 (30 * Second) {["openrouter.ai" := mkHost 3 900 (950 + 60 * Second)]}).
  eexists _, _. split; [reflexivity|]. cbv zeta. split; [reflexivity|]. split; [|split].
  - eapply rtc_l; [eapply (hstep_resolve _ _ _ _ 1 false (RTError true)); reflexivity|].
    eapply rtc_l; [apply hstep_arrive; eapply (harrive_admit _ _ _ _ _ 2); [reflexivity|]|].
    { vm_compute. reflexivity. }
    apply rtc_refl.
  - reflexivity.
  - reflexivity.
Qed.

(** ** Witnesses *)

Definition wit_transport : GlobalBreakerTransport := mkTransport 2 (30 * Second) ∅.
Definition wit_exchanges : list exchange :=
  [mkExchange 10 (RTError false) 20; mkExchange 30 (RTResponse 200) 40;
   mkExchange 50 (RTError false) 60; mkExchange 70 (RTResponse 503) 80].

Lemma host_circuit_refines_evidence_witness :
  hostOf (run_host wit_transport "h" wit_exchanges) "h" = mkHost 1 0 0 /\
  (admitHost (run_host wit_transport "h" (wit_exchanges ++ [mkExchange 90 (RTError false) 100])) "h" 200).2 = RefusedOpen.
Proof.
  destruct (host_circuit_refines_evidence wit_transport "h" wit_exchanges (mkExchange 90 (RTError false) 100))
    as (H1 & _ & H2).
  - done.
  - reflexivity.
  - repeat constructor; done.
  - done.
  - intros k. do 5 (destruct k as [|k]; [reflexivity|]). reflexivity.
  - split; [exact H1|]. apply H2; [done|by vm_compute|done].
Defined.

Definition wit_half_open : GlobalBreakerTransport :=
  mkTransport 2 (30 * Second) {["h" := mkHost 2 900 0]}.

Lemma host_probe_single_flight_witness :
  probes [HFlight true; HDone] = 1%nat.
Proof.
  eapply (host_probe_single_flight "h" 1000 wit_half_open 2 (mkHconf 1000 _ [HFlight true; HDone])).
  - done.
  - done.
  - done.
  - eapply rtc_l; [eapply (harrive_admit _ _ _ _ _ 0); [reflexivity|vm_compute; reflexivity]|].
    eapply rtc_l; [eapply (harrive_admit _ _ _ _ _ 1); [reflexivity|vm_compute; reflexivity]|].
    apply rtc_refl.
  - reflexivity.
  - by inversion 1.
Defined.
