(* ===== verification/Scoring.v ===== *)
(** * Scoring: reliability scores and provider balance (router_scoring.go)

    Scores are binary64 values.  A decay is measured against two clocks, the
    wall time and the proxy-wide count of scored attempts; [scoreEnv] is a
    reading of both.  Ranking is a stable sort inside each provider and of
    the providers by their effective use. *)

From S2P Require Import Prelude Float Env Types Breaker.
From Stdlib Require Import Lia ZArith String SpecFloat.
#[local] Open Scope string_scope.
#[local] Open Scope Z_scope.

Definition scoreInitial : float64 := f1.
Definition scoreNeutral : float64 := flit 8 10.
Definition scoreSuccessStep : float64 := flit 2 10.
Definition scorePenaltyHard : float64 := flit 4 10.
Definition scorePenaltySoft : float64 := flit 2 10.
Definition scoreUnproven : float64 := flit 5 10.
Definition scoreStatusSoftOnly : Z := 0.
Definition defaultScoreRecovery : Z := 6 * Hour.
Definition defaultScoreRecoveryAttempts : Z := 50.

Definition scoringEnabled (env : environ) : bool := envBool env "PROXY_SCORING_ENABLED" true.

Record scoreEnv := mkScoreEnv {
  se_now : Z;
  se_seq : Z;
  se_duration : Z;
  se_attempts : Z;
}.

Definition newScoreEnv (env : environ) (now seq : Z) : scoreEnv :=
  let duration := envDurationSeconds env "PROXY_SCORING_RECOVERY_SECONDS" defaultScoreRecovery in
  let attempts := envInt env "PROXY_SCORING_RECOVERY_ATTEMPTS" defaultScoreRecoveryAttempts in
  mkScoreEnv now seq
    (if duration <=? 0 then defaultScoreRecovery else duration)
    (if attempts <? 1 then defaultScoreRecoveryAttempts else attempts).

(** ** Scores *)

Definition clamp01 (v : float64) : float64 :=
  if fltb v f0 then f0 else if fltb f1 v then f1 else v.

Definition scoreBaseline (state : modelBreakerState) : float64 :=
  if Successes state =? 0 then scoreUnproven else scoreNeutral.

Definition decayFraction (state : modelBreakerState) (env : scoreEnv) : float64 :=
  let elapsed := time_Sub (se_now env) (ScoreUpdatedAt state) in
  if elapsed <=? 0 then f0
  else
    let timeFrac := fdiv (f_of_Z elapsed) (f_of_Z (se_duration env)) in
    let evidence := wrap64 (se_seq env - ScoreAttemptSeq state) in
    if evidence <=? 0 then f0
    else
      let attemptFrac := fdiv (f_of_Z evidence) (f_of_Z (se_attempts env)) in
      let frac := if fltb attemptFrac timeFrac then attemptFrac else timeFrac in
      clamp01 frac.

Definition decayedScore (state : option modelBreakerState) (env : scoreEnv) : float64 :=
  match state with
  | None => scoreInitial
  | Some state =>
      if IsZero (ScoreUpdatedAt state) then scoreInitial
      else
        let baseline := scoreBaseline state in
        clamp01 (fadd (Score state) (fmul (fsub baseline (Score state)) (decayFraction state env)))
  end.

Definition set_Score (score : float64) (env : scoreEnv) (s : modelBreakerState) : modelBreakerState :=
  mkBreaker (ConsecutiveFailures s) (Successes s) (LastFailureCode s) (LastFailureReason s)
            (LastFailureAt s) (OpenUntil s) (ProbeUntil s) score (se_now env) (se_seq env).

Definition applyScoreSuccess (state : modelBreakerState) (env : scoreEnv) : modelBreakerState :=
  let base := decayedScore (Some state) env in
  set_Score (clamp01 (fadd base (fmul (fsub f1 base) scoreSuccessStep))) env state.

Definition scorePenalty (statusCode : Z) : float64 :=
  if (statusCode =? 429) || (statusCode =? 408) || (500 <=? statusCode)
  then scorePenaltyHard else scorePenaltySoft.

Definition applyScoreFailure (state : modelBreakerState) (statusCode : Z) (env : scoreEnv) : modelBreakerState :=
  let base := decayedScore (Some state) env in
  set_Score (clamp01 (fmul base (fsub f1 (scorePenalty statusCode)))) env state.

(** ** Operations on the service state *)

(** [s.scoreAttempts.Add(1)], and the clocks that include it. *)
Definition countScoredAttempt (env : environ) (now : Z) (st : RouterState) : RouterState * scoreEnv :=
  let seq := wrap64 (scoreAttempts st + 1) in
  (mkState (modelBreakers st) (providerBreakers st) (providerAttempts st) (providerBalance st) seq (scoresDirty st),
   newScoreEnv env now seq).

Definition markScoresDirty (st : RouterState) : RouterState :=
  mkState (modelBreakers st) (providerBreakers st) (providerAttempts st) (providerBalance st) (scoreAttempts st) true.

Definition penalizeScore (svc : RouterStatic) (env : environ) (attempt : modelAttempt) (statusCode now : Z) (st : RouterState) : RouterState :=
  let '(st, senv) := countScoredAttempt env now st in
  let state := set_ProbeUntil 0 (getBreaker (modelState svc st attempt)) in
  markScoresDirty
    (set_modelBreakers (<[breakerKey svc attempt := applyScoreFailure state statusCode senv]> (modelBreakers st)) st).

Definition recordSuccess (svc : RouterStatic) (env : environ) (attempt : modelAttempt) (now : Z) (st : RouterState) : RouterState :=
  let '(st, senv) := countScoredAttempt env now st in
  let state := getBreaker (modelState svc st attempt) in
  let state := closeBreaker (wrap64 (Successes state + 1)) state in
  markScoresDirty
    (set_modelBreakers (<[breakerKey svc attempt := applyScoreSuccess state senv]> (modelBreakers st)) st).

Definition scoreForAttempt (svc : RouterStatic) (st : RouterState) (attempt : modelAttempt) (env : scoreEnv) : float64 :=
  decayedScore (modelState svc st attempt) env.

(** ** Ranking *)

Record providerAttemptGroup := mkGroup {
  grp_provider : providerID;
  grp_attempts : list modelAttempt;
  grp_reliability : float64;
  grp_policyOrder : Z;
}.

(** One round of the grouping loop: the attempt joins the group of its
    provider, or opens one at the end with the next policy order. *)
Fixpoint addToGroup (n : Z) (attempt : modelAttempt) (groups : list providerAttemptGroup) : list providerAttemptGroup :=
  match groups with
  | [] => [mkGroup (Provider attempt) [attempt] f0 n]
  | g :: rest =>
      if str_eq (grp_provider g) (Provider attempt)
      then mkGroup (grp_provider g) (grp_attempts g ++ [attempt]) (grp_reliability g) (grp_policyOrder g) :: rest
      else g :: addToGroup n attempt rest
  end.

Definition normalizeAttempt (svc : RouterStatic) (attempt : modelAttempt) : modelAttempt :=
  set_Provider (normalizedProvider svc attempt) attempt.

Definition groupAttempts (svc : RouterStatic) (attempts : list modelAttempt) : list providerAttemptGroup :=
  fold_left (fun groups attempt => addToGroup (Z.of_nat (List.length groups)) (normalizeAttempt svc attempt) groups)
    attempts [].

Definition scoreLess (svc : RouterStatic) (st : RouterState) (env : scoreEnv) (a b : modelAttempt) : bool :=
  fltb (scoreForAttempt svc st b env) (scoreForAttempt svc st a env).

Definition rankGroup (svc : RouterStatic) (enabled : bool) (st : RouterState) (env : scoreEnv) (g : providerAttemptGroup) : providerAttemptGroup :=
  let attempts := if enabled then SliceStable (scoreLess svc st env) (grp_attempts g) else grp_attempts g in
  let reliability := match attempts with
                     | a :: _ => if enabled then scoreForAttempt svc st a env else scoreInitial
                     | [] => scoreInitial
                     end in
  mkGroup (grp_provider g) attempts reliability (grp_policyOrder g).

Definition balanceOf (st : RouterState) (provider : providerID) : Z := default 0 (providerBalance st !! provider).

Definition effectiveUse (st : RouterState) (g : providerAttemptGroup) : float64 :=
  fsub (f_of_Z (balanceOf st (grp_provider g))) (grp_reliability g).

Definition groupLess (st : RouterState) (g h : providerAttemptGroup) : bool :=
  let left := effectiveUse st g in
  let right := effectiveUse st h in
  if feqb left right then grp_policyOrder g <? grp_policyOrder h else fltb left right.

Definition rankedGroups (svc : RouterStatic) (enabled : bool) (st : RouterState) (env : scoreEnv) (attempts : list modelAttempt) : list providerAttemptGroup :=
  SliceStable (groupLess st) (rankGroup svc enabled st env <$> groupAttempts svc attempts).

Definition rankAttemptsLocked (svc : RouterStatic) (enabled : bool) (st : RouterState) (env : scoreEnv) (attempts : list modelAttempt) : list modelAttempt :=
  mjoin (grp_attempts <$> rankedGroups svc enabled st env attempts).

Definition rankAttemptsByScore (svc : RouterStatic) (env : environ) (st : RouterState) (now : Z) (attempts : list modelAttempt) : list modelAttempt :=
  if (List.length attempts <? 2)%nat then attempts
  else rankAttemptsLocked svc (scoringEnabled env) st (newScoreEnv env now (scoreAttempts st)) attempts.

(** ** Provider balance *)

Definition set_providerBalance (m : gmap providerID Z) (st : RouterState) : RouterState :=
  mkState (modelBreakers st) (providerBreakers st) (providerAttempts st) m (scoreAttempts st) (scoresDirty st).

Definition bump (m : gmap providerID Z) (provider : providerID) : gmap providerID Z :=
  <[provider := wrap64 (default 0 (m !! provider) + 1)]> m.

Definition maxBalance (svc : RouterStatic) (st : RouterState) (attempts : list modelAttempt) : Z :=
  fold_left (fun mx attempt =>
    let b := balanceOf st (normalizedProvider svc attempt) in
    if mx <? b then b else mx) attempts 0.

Definition balanceFloor (svc : RouterStatic) (st : RouterState) (attempts : list modelAttempt) : Z :=
  let floor := wrap64 (maxBalance svc st attempts - 1) in
  if floor <? 0 then 0 else floor.

(** The loop over the set of providers raises each one below the floor; a
    provider met twice is already there. *)
Definition raiseTo (floor : Z) (m : gmap providerID Z) (provider : providerID) : gmap providerID Z :=
  if default 0 (m !! provider) <? floor then <[provider := floor]> m else m.

Definition rebaseProviderBalanceLocked (svc : RouterStatic) (attempts : list modelAttempt) (st : RouterState) : RouterState :=
  set_providerBalance
    (fold_left (raiseTo (balanceFloor svc st attempts)) (normalizedProvider svc <$> attempts) (providerBalance st)) st.

Definition reserveProviderBalance (provider : providerID) (st : RouterState) : RouterState :=
  markScoresDirty (set_providerBalance (bump (providerBalance st) provider) st).

Definition recordProviderAttempt (provider : providerID) (balanceReserved : bool) (st : RouterState) : RouterState :=
  markScoresDirty
    (mkState (modelBreakers st) (providerBreakers st) (bump (providerAttempts st) provider)
       (if balanceReserved then providerBalance st else bump (providerBalance st) provider)
       (scoreAttempts st) (scoresDirty st)).

Definition rankAndReserveAttempts (svc : RouterStatic) (env : environ) (now : Z) (attempts : list modelAttempt) (st : RouterState) : RouterState * list modelAttempt :=
  match attempts with
  | [] => (st, attempts)
  | _ =>
      let senv := newScoreEnv env now (scoreAttempts st) in
      let st := rebaseProviderBalanceLocked svc attempts st in
      match rankAttemptsLocked svc (scoringEnabled env) st senv attempts with
      | [] => (st, [])   (* not reached: ranking keeps the attempts *)
      | first :: rest =>
          (markScoresDirty (set_providerBalance (bump (providerBalance st) (normalizedProvider svc first)) st),
           set_BalanceReserved true first :: rest)
      end
  end.

(** ** Lemmas: scores stay in the unit interval *)

Lemma clamp01_unit v : v <> S754_nan -> unit01 (clamp01 v).
Proof.
  intros Hv. unfold clamp01. destruct (fltb v f0) eqn:E0; [by split_and!|].
  destruct (fltb f1 v) eqn:E1; by split_and!.
Qed.

Lemma clamp01_id v : unit01 v -> clamp01 v = v.
Proof. intros (_ & H0 & H1). unfold clamp01. by rewrite H0, H1. Qed.

Definition goodEnv (env : scoreEnv) : Prop :=
  0 < se_duration env /\ in_int64 (se_duration env) /\ 1 <= se_attempts env /\ in_int64 (se_attempts env).

Lemma newScoreEnv_good env now seq : goodEnv (newScoreEnv env now seq).
Proof.
  unfold goodEnv, newScoreEnv. simpl.
  pose proof (envDurationSeconds_int64 env "PROXY_SCORING_RECOVERY_SECONDS" defaultScoreRecovery ltac:(by vm_compute)) as H1.
  pose proof (envInt_int64 env "PROXY_SCORING_RECOVERY_ATTEMPTS" defaultScoreRecoveryAttempts ltac:(by vm_compute)) as H2.
  destruct (Z.leb_spec (envDurationSeconds env "PROXY_SCORING_RECOVERY_SECONDS" defaultScoreRecovery) 0),
    (Z.ltb_spec (envInt env "PROXY_SCORING_RECOVERY_ATTEMPTS" defaultScoreRecoveryAttempts) 1); split_and!; auto; by vm_compute.
Qed.

Lemma time_Sub_int64 t u : in_int64 (time_Sub t u).
Proof. unfold in_int64, time_Sub, min_int64, max_int64, two63. lia. Qed.

Lemma ratio_not_nan n d : in_int64 n -> in_int64 d -> 0 < d -> fdiv (f_of_Z n) (f_of_Z d) <> S754_nan.
Proof. intros Hn Hd Hp. apply fdiv_not_nan; [by apply f_of_Z_int64|]. apply f_of_Z_finite; [done|lia]. Qed.

Lemma decayFraction_unit state env : goodEnv env -> unit01 (decayFraction state env).
Proof.
  intros (Hd & Hd' & Ha & Ha'). unfold decayFraction.
  destruct (_ <=? 0); [done|]. destruct (_ <=? 0); [done|]. apply clamp01_unit.
  assert (fdiv (f_of_Z (wrap64 (se_seq env - ScoreAttemptSeq state))) (f_of_Z (se_attempts env)) <> S754_nan)
    by (apply ratio_not_nan; auto using wrap64_range; lia).
  assert (fdiv (f_of_Z (time_Sub (se_now env) (ScoreUpdatedAt state))) (f_of_Z (se_duration env)) <> S754_nan)
    by (apply ratio_not_nan; auto using time_Sub_int64).
  by destruct (fltb _ _).
Qed.

Lemma clamp01_score v : v <> S754_nan -> canon v -> score01 (clamp01 v).
Proof.
  intros Hv Hc. split; [by apply clamp01_unit|]. unfold clamp01.
  destruct (fltb v f0); [done|]. by destruct (fltb f1 v).
Qed.

Lemma score01_f0 : score01 f0.
Proof. by repeat split. Qed.

Lemma score01_f1 : score01 f1.
Proof. by repeat split. Qed.

Lemma score01_baseline s : score01 (scoreBaseline s).
Proof. unfold scoreBaseline. destruct (_ =? 0); by repeat split. Qed.

Lemma scorePenalty_finite code : finite (fsub f1 (scorePenalty code)).
Proof. unfold scorePenalty. by destruct (_ || _). Qed.

#[local] Hint Resolve score01_f0 score01_f1 score01_baseline scorePenalty_finite : calvo.

Lemma score01_finite x : score01 x -> finite x.
Proof. intros [H _]. by apply unit01_finite. Qed.

Lemma score01_canon x : score01 x -> canon x.
Proof. by intros [_ H]. Qed.

Lemma decayedScore_range o env :
  goodEnv env -> (forall s, o = Some s -> score01 (Score s)) -> score01 (decayedScore o env).
Proof.
  intros He Ho. destruct o as [s|]; simpl; [|apply score01_f1]. specialize (Ho s eq_refl).
  destruct (IsZero _); [apply score01_f1|].
  apply clamp01_score.
  - apply fadd_nan_right; [by apply score01_finite|].
    apply fmul_not_nan; [auto using fsub_score_finite, score01_baseline|]. by apply unit01_finite, decayFraction_unit.
  - apply fadd_canon; [by apply score01_canon|apply fmul_canon].
Qed.

Lemma applyScoreSuccess_range s env :
  goodEnv env -> score01 (Score s) -> score01 (Score (applyScoreSuccess s env)).
Proof.
  intros He Hs. assert (Hd : score01 (decayedScore (Some s) env)) by (apply decayedScore_range; [done|by intros ? [= <-]]).
  unfold applyScoreSuccess. cbn [Score set_Score]. apply clamp01_score.
  - apply fadd_nan_right; [by apply score01_finite|].
    apply fmul_not_nan; [|done]. apply fsub_score_finite; [apply score01_f1|done].
  - apply fadd_canon; [by apply score01_canon|apply fmul_canon].
Qed.

Lemma applyScoreFailure_range s code env :
  goodEnv env -> score01 (Score s) -> score01 (Score (applyScoreFailure s code env)).
Proof.
  intros He Hs. assert (Hd : score01 (decayedScore (Some s) env)) by (apply decayedScore_range; [done|by intros ? [= <-]]).
  unfold applyScoreFailure. cbn [Score set_Score]. apply clamp01_score; [|apply fmul_canon].
  apply fmul_not_nan; [by apply score01_finite|]. apply scorePenalty_finite.
Qed.

(** ** The invariant of the service state *)

Definition scoresOK (st : RouterState) : Prop := map_Forall (fun _ s => score01 (Score s)) (modelBreakers st).

Lemma scoresOK_lookup st k s : scoresOK st -> modelBreakers st !! k = Some s -> score01 (Score s).
Proof. intros H Hk. by apply (H k). Qed.

Lemma scoresOK_get svc st attempt : scoresOK st -> score01 (Score (getBreaker (modelState svc st attempt))).
Proof.
  intros H. unfold modelState, getBreaker. destruct (modelBreakers st !! _) eqn:E; simpl.
  - by eapply scoresOK_lookup.
  - apply score01_f0.
Qed.

Lemma scoresOK_insert st k s :
  scoresOK st -> score01 (Score s) -> scoresOK (set_modelBreakers (<[k := s]> (modelBreakers st)) st).
Proof. intros H Hs. by apply map_Forall_insert_2. Qed.

(** The operations that write the model circuits, with their arguments. *)
Inductive scoreOp :=
| OpSuccess (attempt : modelAttempt) (now : Z)
| OpPenalize (attempt : modelAttempt) (statusCode now : Z)
| OpFailure (attempt : modelAttempt) (statusCode : Z) (reason : string) (retryAfter : option Z) (now1 now2 now3 : Z)
| OpResolveProbe (attempt : modelAttempt)
| OpTryStart (attempt : modelAttempt) (now1 now2 : Z)
| OpRank (attempts : list modelAttempt) (now : Z)
| OpReserve (provider : providerID)
| OpRecordAttempt (provider : providerID) (reserved : bool).

Definition runScoreOp (svc : RouterStatic) (env : environ) (st : RouterState) (op : scoreOp) : RouterState :=
  match op with
  | OpSuccess a now => recordSuccess svc env a now st
  | OpPenalize a code now => penalizeScore svc env a code now st
  | OpFailure a code reason ra n1 n2 n3 => recordFailure svc a code reason ra n1 n2 n3 st
  | OpResolveProbe a => resolveProbe svc a st
  | OpTryStart a n1 n2 => (tryStartAttempt svc a n1 n2 st).1
  | OpRank l now => (rankAndReserveAttempts svc env now l st).1
  | OpReserve p => reserveProviderBalance p st
  | OpRecordAttempt p r => recordProviderAttempt p r st
  end.

Lemma tryStartAttempt_scores svc a n1 n2 st : scoresOK st -> scoresOK (tryStartAttempt svc a n1 n2 st).1.
Proof.
  intros H. unfold tryStartAttempt. destruct (gateRead _ _); [done|].
  unfold tryStartAttempt_write. destruct (gateClaim _ _ _) as [[s|] ok] eqn:E; simpl; [|done].
  apply scoresOK_insert; [done|]. unfold gateClaim in E.
  destruct (modelState svc st a) as [s0|] eqn:Es; [|done]. unfold modelState in Es.
  destruct (IsZero _); [done|]. destruct (Before _ _); [done|]. destruct (Before _ _); [done|].
  injection E as <- <-. simpl. by eapply scoresOK_lookup.
Qed.

Lemma runScoreOp_scores svc env st op : scoresOK st -> scoresOK (runScoreOp svc env st op).
Proof.
  intros H. destruct op as [a now|a code now|a code reason ra n1 n2 n3|a|a n1 n2|l now|p|p r]; simpl; try done.
  - apply (scoresOK_insert (countScoredAttempt env now st).1); [done|].
    apply applyScoreSuccess_range; [apply newScoreEnv_good|]. simpl. by apply (scoresOK_get svc st a).
  - apply (scoresOK_insert (countScoredAttempt env now st).1); [done|].
    apply applyScoreFailure_range; [apply newScoreEnv_good|]. simpl. by apply (scoresOK_get svc st a).
  - apply scoresOK_insert; [done|].
    pose proof (failModel_spec svc a code reason ra n1 n2 n3 (getBreaker (modelState svc st a)))
      as (_ & _ & _ & _ & _ & -> & _). by apply scoresOK_get.
  - apply scoresOK_insert; [done|]. simpl. by apply scoresOK_get.
  - by apply tryStartAttempt_scores.
  - unfold rankAndReserveAttempts. destruct l; [done|]. by destruct (rankAttemptsLocked _ _ _ _ _).
Qed.

(** Every stored score, and every score a reader computes from it under
    any clocks, is a number between 0 and 1 after any sequence of operations
    on the service, in binary64 arithmetic: never NaN, never outside. *)
Theorem scores_stay_in_unit_interval svc env ops st attempt now seq :
  scoresOK st ->
  let st' := fold_left (runScoreOp svc env) ops st in
  scoresOK st' /\ unit01 (scoreForAttempt svc st' attempt (newScoreEnv env now seq)).
Proof.
  intros H. cbv zeta.
  assert (Hf : scoresOK (fold_left (runScoreOp svc env) ops st)).
  { revert st H. induction ops as [|op ops IH]; intros st H; [done|]. simpl. by apply IH, runScoreOp_scores. }
  split; [done|]. apply decayedScore_range; [apply newScoreEnv_good|].
  intros s Hs. by eapply scoresOK_lookup.
Qed.

(** Nothing is forgotten while nobody calls.  If no attempt was scored
    since the score was written, or no time has passed, the score reads the
    same whatever the other clock says. *)
Theorem idle_keeps_score s env :
  score01 (Score s) -> ScoreUpdatedAt s <> 0 ->
  se_seq env = ScoreAttemptSeq s \/ se_now env <= ScoreUpdatedAt s ->
  feqb (decayedScore (Some s) env) (Score s) = true.
Proof.
  intros Hs Hz Hidle.
  assert (Hf : decayFraction s env = f0).
  { unfold decayFraction. destruct Hidle as [He|Ht].
    - rewrite He, Z.sub_diag. by destruct (_ <=? 0).
    - rewrite (proj2 (Z.leb_le _ _)); [done|]. unfold time_Sub, max_int64, min_int64, two63. lia. }
  simpl. unfold IsZero. rewrite (proj2 (Z.eqb_neq _ _) Hz), Hf.
  assert (Hd : finite (fsub (scoreBaseline s) (Score s))).
  { apply fsub_score_finite; [apply score01_baseline|done]. }
  assert (Hm : exists sg, fmul (fsub (scoreBaseline s) (Score s)) f0 = S754_zero sg).
  { destruct (fsub _ _); simpl in Hd |- *; try done; eauto. }
  destruct Hm as [sg ->]. pose proof Hs as Hshape.
  apply score01_shape in Hshape as [[s0 Heq]|(m & e & Heq & _)].
  - rewrite Heq. by destruct s0, sg.
  - rewrite Heq in Hs |- *. simpl. rewrite clamp01_id by (by destruct Hs).
    apply feqb_key; [done..|]. unfold key_lt. lia.
Qed.

(** ** Lemmas: grouping and ranking *)

Definition ofProvider (p : providerID) (a : modelAttempt) : bool := str_eq p (Provider a).

(** A group holds the attempts of its provider seen so far, in order, and no
    two groups share a provider. *)
Definition groupsOf (l : list modelAttempt) (groups : list providerAttemptGroup) : Prop :=
  NoDup (grp_provider <$> groups) /\
  Forall (fun g => grp_attempts g = List.filter (ofProvider (grp_provider g)) l) groups /\
  (forall a, a ∈ l -> Provider a ∈ grp_provider <$> groups).

Lemma ofProvider_snoc p l a :
  List.filter (ofProvider p) (l ++ [a])%list =
  (List.filter (ofProvider p) l ++ (if decide (p = Provider a) then [a] else []))%list.
Proof.
  rewrite List.filter_app. simpl. unfold ofProvider at 2, str_eq.
  destruct (decide _) as [Hp|Hp]; [by rewrite bool_decide_eq_true_2|by rewrite bool_decide_eq_false_2].
Qed.

Lemma ofProvider_none p l : Forall (fun b => Provider b <> p) l -> List.filter (ofProvider p) l = [].
Proof.
  induction 1 as [|b l Hb _ IH]; simpl; [done|]. unfold ofProvider at 1, str_eq.
  by rewrite bool_decide_eq_false_2.
Qed.

Lemma ofProvider_skip g l a :
  grp_provider g <> Provider a ->
  grp_attempts g = List.filter (ofProvider (grp_provider g)) l ->
  grp_attempts g = List.filter (ofProvider (grp_provider g)) (l ++ [a])%list.
Proof. intros Hne Hg. rewrite ofProvider_snoc, decide_False by done. by rewrite app_nil_r. Qed.

Lemma addToGroup_spec n a l groups :
  NoDup (grp_provider <$> groups) ->
  Forall (fun g => grp_attempts g = List.filter (ofProvider (grp_provider g)) l) groups ->
  (Provider a ∉ grp_provider <$> groups -> Forall (fun b => Provider b <> Provider a) l) ->
  let groups' := addToGroup n a groups in
  NoDup (grp_provider <$> groups') /\
  Forall (fun g => grp_attempts g = List.filter (ofProvider (grp_provider g)) (l ++ [a])%list) groups' /\
  (forall p, p ∈ grp_provider <$> groups' <-> p = Provider a \/ p ∈ grp_provider <$> groups).
Proof.
  induction groups as [|g groups IH]; intros Hnd Hg Hnew; simpl.
  - split_and!; [by apply NoDup_singleton| |].
    + constructor; [|done]. simpl. rewrite ofProvider_snoc, decide_True by done.
      rewrite ofProvider_none; [done|]. apply Hnew. intros Hx. by apply elem_of_nil in Hx.
    + intros p. rewrite list_elem_of_singleton, elem_of_nil. tauto.
  - apply NoDup_cons in Hnd as [Hgn Hnd]. inversion_clear Hg as [|? ? Hg0 Hgs].
    unfold str_eq. case_bool_decide as Hp; simpl.
    + split_and!; [by apply NoDup_cons| |].
      * constructor; simpl.
        -- by rewrite ofProvider_snoc, decide_True, Hg0.
        -- rewrite Forall_forall in Hgs |- *. intros h Hh. apply ofProvider_skip; [|by apply Hgs].
           intros Hh'. apply Hgn. rewrite Hp, <- Hh'. by apply list_elem_of_fmap_2.
      * intros p. rewrite !elem_of_cons. rewrite Hp. tauto.
    + destruct (IH Hnd Hgs) as (H1 & H2 & H3).
      { intros Hn. apply Hnew. simpl. rewrite not_elem_of_cons. auto. }
      split_and!.
      * apply NoDup_cons. split; [|done]. rewrite H3. intros [?|?]; [by destruct Hp|done].
      * constructor; [by apply ofProvider_skip|done].
      * intros p. rewrite !elem_of_cons, H3. tauto.
Qed.

Lemma groupAttempts_spec svc attempts :
  groupsOf (normalizeAttempt svc <$> attempts) (groupAttempts svc attempts).
Proof.
  unfold groupAttempts.
  assert (Hgen : forall done groups, groupsOf done groups ->
    groupsOf (done ++ (normalizeAttempt svc <$> attempts))%list
      (fold_left (fun groups a => addToGroup (Z.of_nat (List.length groups)) (normalizeAttempt svc a) groups) attempts groups)).
  { induction attempts as [|a attempts IH]; intros l groups (H1 & H2 & H3); simpl; [by rewrite app_nil_r|].
    rewrite cons_middle, app_assoc. apply IH.
    destruct (addToGroup_spec (Z.of_nat (List.length groups)) (normalizeAttempt svc a) l groups H1 H2)
      as (N1 & N2 & N3).
    { intros Hn. apply Forall_forall. intros b Hb He. apply Hn. rewrite <- He. by apply H3. }
    split_and!; [done|done|]. intros b. rewrite elem_of_app, list_elem_of_singleton.
    intros [Hb| ->]; apply N3; [right; by apply H3|by left]. }
  apply (Hgen [] []). split_and!; [constructor|constructor|]. intros a. by rewrite elem_of_nil.
Qed.

(** The comparison of groups is a strict weak order. *)
Definition goodGroup (st : RouterState) (g : providerAttemptGroup) : Prop := effectiveUse st g <> S754_nan.

Lemma groupLess_asym st g h :
  goodGroup st g -> goodGroup st h -> groupLess st g h = true -> groupLess st h g = false.
Proof.
  unfold goodGroup, groupLess. intros Hg Hh.
  destruct (feqb (effectiveUse st g) (effectiveUse st h)) eqn:E1,
    (feqb (effectiveUse st h) (effectiveUse st g)) eqn:E2; intros H.
  - zbool. apply Z.ltb_ge. lia.
  - apply feqb_key in E1; [|done..]. rewrite <- not_true_iff_false, feqb_key in E2 by done. tauto.
  - apply feqb_key in E2; [|done..]. rewrite <- not_true_iff_false, feqb_key in E1 by done. tauto.
  - by apply fltb_asym.
Qed.

Lemma groupLess_cotrans st x y z :
  goodGroup st x -> goodGroup st y -> goodGroup st z ->
  groupLess st x z = true -> groupLess st x y = true \/ groupLess st y z = true.
Proof.
  assert (Hiff : forall g h, goodGroup st g -> goodGroup st h -> groupLess st g h = true <->
    key_lt (fkey (effectiveUse st g)) (fkey (effectiveUse st h)) \/
    (~ key_lt (fkey (effectiveUse st h)) (fkey (effectiveUse st g)) /\ grp_policyOrder g < grp_policyOrder h)).
  { intros g h Hg Hh. unfold groupLess.
    destruct (feqb (effectiveUse st g) (effectiveUse st h)) eqn:E.
    - apply feqb_key in E; [|done..]. rewrite Z.ltb_lt. tauto.
    - rewrite <- not_true_iff_false, feqb_key in E by done. rewrite fltb_key by done.
      unfold key_lt in *. lia. }
  intros Hx Hy Hz. rewrite !Hiff by done. unfold key_lt. lia.
Qed.

Lemma balance_not_nan st g :
  in_int64 (balanceOf st (grp_provider g)) -> score01 (grp_reliability g) -> goodGroup st g.
Proof. intros Hb Hr. apply fsub_not_nan; [by apply f_of_Z_int64|by apply score01_finite]. Qed.

Lemma filter_split_perm (f : modelAttempt -> bool) l :
  l ≡ₚ (List.filter f l ++ List.filter (fun a => negb (f a)) l)%list.
Proof.
  induction l as [|a l IH]; simpl; [done|]. destruct (f a); simpl; [by constructor|].
  rewrite <- Permutation_middle. by constructor.
Qed.

Lemma filter_filter_provider p q l : p <> q ->
  List.filter (ofProvider q) (List.filter (fun a => negb (ofProvider p a)) l) = List.filter (ofProvider q) l.
Proof.
  intros Hpq. induction l as [|a l IH]; simpl; [done|]. unfold ofProvider at 2, str_eq.
  case_bool_decide as Hp; simpl; rewrite IH; [|done].
  unfold ofProvider at 2, str_eq. by rewrite bool_decide_eq_false_2 by congruence.
Qed.

Lemma providers_partition ps : forall l,
  NoDup ps -> (forall a, a ∈ l -> Provider a ∈ ps) ->
  mjoin ((fun p => List.filter (ofProvider p) l) <$> ps) ≡ₚ l.
Proof.
  induction ps as [|p ps IH]; intros l Hnd Hin; simpl.
  - destruct l as [|a l]; [done|]. specialize (Hin a ltac:(left)). by apply elem_of_nil in Hin.
  - apply NoDup_cons in Hnd as [Hp Hnd]. etransitivity; [|symmetry; apply (filter_split_perm (ofProvider p) l)].
    apply Permutation_app_head. rewrite <- (IH (List.filter (fun a => negb (ofProvider p a)) l)); [|done|].
    + apply Permutation_refl'. f_equal. apply list_fmap_ext. intros i q Hq.
      rewrite filter_filter_provider; [done|]. intros ->. apply Hp. by eapply list_elem_of_lookup_2.
    + intros a Ha. apply list_elem_of_In, filter_In in Ha as [Ha Hn].
      apply list_elem_of_In, Hin, elem_of_cons in Ha as [Ha|Ha]; [|done].
      unfold ofProvider, str_eq in Hn. by rewrite bool_decide_eq_true_2 in Hn.
Qed.

Lemma mjoin_perm {A B} (f g : B -> list A) l : (forall x, f x ≡ₚ g x) -> mjoin (f <$> l) ≡ₚ mjoin (g <$> l).
Proof. intros H. induction l as [|x l IH]; simpl; [done|]. by rewrite H, IH. Qed.

Lemma mjoin_fmap_perm {A B} (f : B -> list A) l l' : l ≡ₚ l' -> mjoin (f <$> l) ≡ₚ mjoin (f <$> l').
Proof.
  induction 1 as [|x l l' _ IH|x y l|l l' l'' _ IH _ IH']; simpl; [done|by rewrite IH| |by rewrite IH].
  rewrite !app_assoc. apply Permutation_app_tail, Permutation_app_comm.
Qed.

Lemma rankGroup_attempts svc enabled st env g :
  grp_attempts (rankGroup svc enabled st env g) =
  if enabled then SliceStable (scoreLess svc st env) (grp_attempts g) else grp_attempts g.
Proof. done. Qed.

Lemma rank_perm svc enabled st env attempts :
  rankAttemptsLocked svc enabled st env attempts ≡ₚ normalizeAttempt svc <$> attempts.
Proof.
  unfold rankAttemptsLocked, rankedGroups.
  rewrite (mjoin_fmap_perm grp_attempts _ _ (SliceStable_perm _ _)), <- list_fmap_compose.
  rewrite (mjoin_perm _ grp_attempts).
  - destruct (groupAttempts_spec svc attempts) as (H1 & H2 & H3).
    rewrite <- (providers_partition _ _ H1 H3), <- list_fmap_compose. apply Permutation_refl'. f_equal.
    apply list_fmap_ext. intros i g Hg. rewrite Forall_forall in H2. apply H2. by eapply list_elem_of_lookup_2.
  - intros g. simpl. destruct enabled; [apply SliceStable_perm|done].
Qed.

Definition balancesOK (st : RouterState) : Prop := forall p, in_int64 (balanceOf st p).

Lemma rankGroup_good svc enabled st env g :
  scoresOK st -> balancesOK st -> goodEnv env -> goodGroup st (rankGroup svc enabled st env g).
Proof.
  intros Hs Hb He. apply balance_not_nan; [apply Hb|]. simpl.
  assert (Hd : forall a, score01 (scoreForAttempt svc st a env))
    by (intros a; apply decayedScore_range; [done|]; intros s Hm; by eapply scoresOK_lookup).
  destruct (if enabled then _ else _); [apply score01_f1|]. destruct enabled; auto using score01_f1.
Qed.


(** ** Lemmas: provider balance *)

Lemma raiseTo_lookup floor ps : forall m p,
  default 0 (fold_left (raiseTo floor) ps m !! p) =
  if decide (p ∈ ps) then Z.max floor (default 0 (m !! p)) else default 0 (m !! p).
Proof.
  induction ps as [|q ps IH]; intros m p; cbn [fold_left]; [by destruct (decide _) as [Hn|]; [apply elem_of_nil in Hn|]|].
  assert (Hr : default 0 (raiseTo floor m q !! p) =
               if decide (p = q) then Z.max floor (default 0 (m !! p)) else default 0 (m !! p)).
  { unfold raiseTo. destruct (Z.ltb_spec (default 0 (m !! q)) floor).
    - destruct (decide (p = q)) as [->|]; [rewrite lookup_insert_eq; simpl; lia|by rewrite lookup_insert_ne].
    - destruct (decide (p = q)) as [->|]; [lia|done]. }
  rewrite IH, Hr. destruct (decide (p = q)) as [->|Hpq].
  - rewrite (decide_True _ _ (P := q ∈ q :: ps)) by left. destruct (decide _); lia.
  - destruct (decide (p ∈ ps)) as [Hin|Hin]; [by rewrite decide_True by (by right)|].
    rewrite decide_False; [done|]. rewrite elem_of_cons. tauto.
Qed.

Lemma maxBalance_spec svc st attempts :
  0 <= maxBalance svc st attempts /\
  (forall p, p ∈ normalizedProvider svc <$> attempts -> balanceOf st p <= maxBalance svc st attempts) /\
  (maxBalance svc st attempts = 0 \/
   exists p, p ∈ normalizedProvider svc <$> attempts /\ maxBalance svc st attempts = balanceOf st p).
Proof.
  unfold maxBalance.
  set (f := fun mx a => let b := balanceOf st (normalizedProvider svc a) in if mx <? b then b else mx).
  assert (Hgen : forall acc,
    acc <= fold_left f attempts acc /\
    (forall p, p ∈ normalizedProvider svc <$> attempts -> balanceOf st p <= fold_left f attempts acc) /\
    (fold_left f attempts acc = acc \/
     exists p, p ∈ normalizedProvider svc <$> attempts /\ fold_left f attempts acc = balanceOf st p)).
  { induction attempts as [|a l IH]; intros acc; simpl.
    - split_and!; [done| |by left]. intros p Hp. by apply elem_of_nil in Hp.
    - destruct (IH (f acc a)) as (H1 & H2 & H3).
      assert (Hf : acc <= f acc a /\ balanceOf st (normalizedProvider svc a) <= f acc a /\
                   (f acc a = acc \/ f acc a = balanceOf st (normalizedProvider svc a)))
        by (unfold f; destruct (Z.ltb_spec acc (balanceOf st (normalizedProvider svc a))); lia).
      split_and!; [lia| |].
      + intros p [->|Hp]%elem_of_cons; [lia|by apply H2].
      + destruct H3 as [H3|(p & Hp & H3)].
        * destruct Hf as (_ & _ & [Hf|Hf]); [left; lia|].
          right. exists (normalizedProvider svc a). split; [left|lia].
        * right. exists p. split; [by right|done]. }
  apply Hgen.
Qed.

Lemma rebase_balance svc attempts st p :
  maxBalance svc st attempts <= max_int64 ->
  balanceOf (rebaseProviderBalanceLocked svc attempts st) p =
  if decide (p ∈ normalizedProvider svc <$> attempts)
  then Z.max (Z.max 0 (maxBalance svc st attempts - 1)) (balanceOf st p) else balanceOf st p.
Proof.
  intros Hm. unfold balanceOf, rebaseProviderBalanceLocked. simpl. rewrite raiseTo_lookup.
  assert (Hfl : balanceFloor svc st attempts = Z.max 0 (maxBalance svc st attempts - 1)).
  { unfold balanceFloor. destruct (maxBalance_spec svc st attempts) as (H0 & _).
    rewrite wrap64_id by (unfold in_int64, min_int64, max_int64, two63 in *; lia).
    destruct (Z.ltb_spec (maxBalance svc st attempts - 1) 0); lia. }
  by rewrite Hfl.
Qed.

Lemma bump_lookup m p q :
  default 0 (bump m p !! q) = if decide (q = p) then wrap64 (default 0 (m !! p) + 1) else default 0 (m !! q).
Proof.
  unfold bump. destruct (decide (q = p)) as [->|]; [by rewrite lookup_insert_eq|by rewrite lookup_insert_ne].
Qed.

Lemma normalizeAttempt_provider svc a :
  normalizedProvider svc (normalizeAttempt svc a) = Provider (normalizeAttempt svc a).
Proof.
  unfold normalizedProvider at 1. simpl. destruct (empty_str (normalizedProvider svc a)) eqn:E; [|done].
  simpl. apply empty_str_spec in E. unfold normalizedProvider in E |- *.
  destruct (empty_str (Provider a)) eqn:E1; simpl in *; [done|]. apply empty_str_spec in E. congruence.
Qed.

(** Reserving a request's primary attempt first brings every provider of
    the request within one call of the busiest of them, without ever lowering
    a count or touching a provider that does not take part; then it charges
    exactly one call to the provider ranked first, and marks that attempt and
    no other as charged. *)
Theorem reserve_charges_primary_once svc env now attempts st :
  attempts <> [] -> (forall p, 0 <= balanceOf st p < max_int64) ->
  let st1 := rebaseProviderBalanceLocked svc attempts st in
  let ps := normalizedProvider svc <$> attempts in
  (forall p q, p ∈ ps -> q ∈ ps -> balanceOf st1 p <= balanceOf st1 q + 1) /\
  (forall p, balanceOf st p <= balanceOf st1 p) /\
  (forall p, p ∉ ps -> balanceOf st1 p = balanceOf st p) /\
  exists first rest,
    rankAttemptsLocked svc (scoringEnabled env) st1 (newScoreEnv env now (scoreAttempts st)) attempts = first :: rest /\
    (rankAndReserveAttempts svc env now attempts st).2 = set_BalanceReserved true first :: rest /\
    Provider first ∈ ps /\
    forall p, balanceOf (rankAndReserveAttempts svc env now attempts st).1 p =
              balanceOf st1 p + (if decide (p = Provider first) then 1 else 0).
Proof.
  intros Hne Hb. cbv zeta. destruct (maxBalance_spec svc st attempts) as (M0 & M1 & M2).
  assert (Hmax : maxBalance svc st attempts < max_int64).
  { destruct M2 as [->|(p & _ & ->)]; [done|apply Hb]. }
  assert (Hreb : forall p, balanceOf (rebaseProviderBalanceLocked svc attempts st) p =
    if decide (p ∈ normalizedProvider svc <$> attempts)
    then Z.max (Z.max 0 (maxBalance svc st attempts - 1)) (balanceOf st p) else balanceOf st p)
    by (intros p; apply rebase_balance; lia).
  split_and!.
  - intros p q Hp Hq. rewrite !Hreb, !decide_True by done. specialize (M1 p Hp). pose proof (Hb q). lia.
  - intros p. rewrite Hreb. destruct (decide _); lia.
  - intros p Hp. by rewrite Hreb, decide_False.
  - set (senv := newScoreEnv env now (scoreAttempts st)).
    set (st1 := rebaseProviderBalanceLocked svc attempts st).
    pose proof (rank_perm svc (scoringEnabled env) st1 senv attempts) as Hperm.
    unfold rankAndReserveAttempts. destruct attempts as [|a0 l0]; [done|]. fold senv. fold st1.
    destruct (rankAttemptsLocked svc (scoringEnabled env) st1 senv (a0 :: l0)) as [|first rest] eqn:Er.
    { by apply Permutation_nil in Hperm. }
    assert (Hin : first ∈ normalizeAttempt svc <$> (a0 :: l0)) by (rewrite <- Hperm; left).
    apply list_elem_of_fmap in Hin as (a & -> & Ha).
    pose proof (normalizeAttempt_provider svc a) as Hprov.
    exists (normalizeAttempt svc a), rest. split_and!; [done|done|exact (list_elem_of_fmap_2 (normalizedProvider svc) _ a Ha)|].
    intros p. unfold balanceOf at 1. cbn [fst providerBalance markScoresDirty set_providerBalance].
    rewrite bump_lookup, Hprov. destruct (decide (p = _)) as [->|]; [|unfold balanceOf; lia].
    fold (balanceOf st1 (Provider (normalizeAttempt svc a))). apply wrap64_id.
    assert (Hle : 0 <= balanceOf st1 (Provider (normalizeAttempt svc a)) < max_int64).
    { unfold st1. rewrite Hreb. pose proof (Hb (Provider (normalizeAttempt svc a))). destruct (decide _); lia. }
    unfold in_int64, min_int64, max_int64, two63 in *. lia.
Qed.

(** ** Witnesses *)

Definition wit_scored : modelBreakerState := mkBreaker 0 2 0 "" 0 0 0 scoreNeutral 1000 5.
Definition wit_cerebras : modelAttempt := set_Provider "cerebras" wit_attempt.
Definition wit_scores : RouterState :=
  mkState {[breakerKey wit_svc wit_attempt := wit_scored]} ∅ ∅ {["cerebras" := 4]} 5 false.

Lemma wit_scores_ok : scoresOK wit_scores.
Proof. apply map_Forall_singleton. by repeat split. Qed.

Lemma wit_balances p : 0 <= balanceOf wit_scores p < max_int64.
Proof.
  unfold balanceOf, wit_scores. simpl. destruct (decide (p = "cerebras")) as [->|Hne].
  - rewrite lookup_singleton_eq. done.
  - by rewrite lookup_singleton_ne by congruence.
Qed.

Lemma scores_stay_in_unit_interval_witness :
  scoresOK (fold_left (runScoreOp wit_svc ∅) [OpSuccess wit_attempt 2000; OpPenalize wit_attempt 429 3000] wit_scores).
Proof.
  apply (scores_stay_in_unit_interval wit_svc ∅ [OpSuccess wit_attempt 2000; OpPenalize wit_attempt 429 3000]
           wit_scores wit_attempt 4000 7).
  exact wit_scores_ok.
Defined.

Lemma idle_keeps_score_witness :
  feqb (decayedScore (Some wit_scored) (newScoreEnv ∅ (1000 + 24 * Hour) 5)) scoreNeutral = true.
Proof.
  apply (idle_keeps_score wit_scored (newScoreEnv ∅ (1000 + 24 * Hour) 5)); [by repeat split|done|by left].
Defined.


(** The busy provider is ranked second although its model is unseen and the
    first one's score is lower; the idle provider is first charged up to one
    call less, then one. *)
Lemma reserve_charges_primary_once_witness :
  balanceOf (rankAndReserveAttempts wit_svc ∅ 2000 [wit_cerebras; wit_attempt] wit_scores).1 "openrouter" = 4 /\
  balanceOf (rebaseProviderBalanceLocked wit_svc [wit_cerebras; wit_attempt] wit_scores) "cerebras" <=
  balanceOf (rebaseProviderBalanceLocked wit_svc [wit_cerebras; wit_attempt] wit_scores) "openrouter" + 1.
Proof.
  destruct (reserve_charges_primary_once wit_svc ∅ 2000 [wit_cerebras; wit_attempt] wit_scores) as (H & _).
  - done.
  - exact wit_balances.
  - split; [by vm_compute|]. apply H; vm_compute; [left|right; left].
Defined.
