(* ===== verification/Quota.v ===== *)
(** * Quota: the ledger of upstream quotas (router_quota.go)

    Buckets are shared objects: a ticket keeps a pointer to the bucket it
    reserved in, and a reset may meanwhile put another bucket under the same
    key.  [lg_heap] is the store of bucket objects, [lg_buckets] the map from
    keys to objects, and a hold refers to its object.  A ledger has an identity
    ([lg_id]) because a ticket is only good for the ledger that issued it.
    Every exported method runs under the ledger's mutex and is one function
    from ledger to ledger; the receiver is not nil.  A loop over a Go map is a
    fold over [map_to_list]. *)

From S2P Require Import Prelude Types.
From Stdlib Require Import Lia ZArith String.
#[local] Open Scope string_scope.
#[local] Open Scope Z_scope.

(** ** Keys and observations *)

Record QuotaBucketKey := mkKey {
  key_Provider : string;
  key_Scope : string;
  key_ModelOrPool : string;
  key_Dimension : string;
  key_Window : string;
}.

#[global] Instance QuotaBucketKey_eq_dec : EqDecision QuotaBucketKey.
Proof. solve_decision. Defined.
#[global] Instance QuotaBucketKey_countable : Countable QuotaBucketKey.
Proof.
  refine (inj_countable' (fun k => (key_Provider k, key_Scope k, key_ModelOrPool k, key_Dimension k, key_Window k))
            (fun '(a, b, c, d, e) => mkKey a b c d e) _).
  by intros [].
Defined.

Definition QuotaDimensionRequests : string := "requests".
Definition QuotaDimensionTokens : string := "tokens".
Definition QuotaWindowMinute : string := "minute".
Definition QuotaWindowHour : string := "hour".
Definition QuotaWindowDay : string := "day".
Definition QuotaSourceProviderHeader : string := "provider_header".
Definition QuotaSourceProviderBody : string := "provider_body".
Definition QuotaSourceConfig : string := "config".
Definition QuotaSourceLocalEstimate : string := "local_estimate".
Definition QuotaConfidenceAuthoritative : string := "authoritative".
Definition QuotaConfidenceEstimated : string := "estimated".

Record QuotaObservation := mkObs {
  obs_Limit : Z;
  obs_Remaining : Z;
  obs_ResetAt : Z;
  obs_Source : string;
  obs_Confidence : string;
  obs_ObservedAt : Z;
}.

Record QuotaSnapshot := mkSnapshot {
  snap_Obs : QuotaObservation;
  snap_Key : QuotaBucketKey;
  snap_Reserved : Z;
  snap_Available : Z;
  snap_ProbeSettled : bool;
}.

Record QuotaReservation := mkReservation {
  res_Key : QuotaBucketKey;
  res_Cost : Z;
}.

Record QuotaSettlement := mkSettlement {
  set_Key : QuotaBucketKey;
  set_Actual : Z;
  set_Observation : option QuotaObservation;
}.

(** ** The ledger *)

Record quotaBucket := mkBucket {
  bk_observation : QuotaObservation;
  bk_reserved : Z;
  bk_probeSettled : bool;
}.

Record quotaHold := mkHold {
  hold_key : QuotaBucketKey;
  hold_cost : Z;
  hold_bucket : option nat;
}.

Abbreviation quotaTicketState := (gmap QuotaBucketKey quotaHold).

Record QuotaLedger := mkLedger {
  lg_id : nat;
  lg_heap : gmap nat quotaBucket;
  lg_next : nat;
  lg_buckets : gmap QuotaBucketKey nat;
  lg_tickets : gmap Z quotaTicketState;
  lg_nextTicketID : Z;
}.

Definition NewQuotaLedger (id : nat) : QuotaLedger := mkLedger id ∅ 0 ∅ ∅ 0.

Definition set_heap (h : gmap nat quotaBucket) (l : QuotaLedger) : QuotaLedger :=
  mkLedger (lg_id l) h (lg_next l) (lg_buckets l) (lg_tickets l) (lg_nextTicketID l).
Definition set_buckets (b : gmap QuotaBucketKey nat) (l : QuotaLedger) : QuotaLedger :=
  mkLedger (lg_id l) (lg_heap l) (lg_next l) b (lg_tickets l) (lg_nextTicketID l).
Definition set_tickets (t : gmap Z quotaTicketState) (l : QuotaLedger) : QuotaLedger :=
  mkLedger (lg_id l) (lg_heap l) (lg_next l) (lg_buckets l) t (lg_nextTicketID l).
Definition set_nextTicketID (n : Z) (l : QuotaLedger) : QuotaLedger :=
  mkLedger (lg_id l) (lg_heap l) (lg_next l) (lg_buckets l) (lg_tickets l) n.

(** [l.buckets[key]], dereferenced. *)
Definition bucketAt (l : QuotaLedger) (key : QuotaBucketKey) : option quotaBucket :=
  b ← lg_buckets l !! key; lg_heap l !! b.

(** [l.buckets[key] = &quotaBucket{observation: o}]. *)
Definition newBucket (key : QuotaBucketKey) (o : QuotaObservation) (l : QuotaLedger) : QuotaLedger :=
  mkLedger (lg_id l) (<[lg_next l := mkBucket o 0 false]> (lg_heap l)) (S (lg_next l))
           (<[key := lg_next l]> (lg_buckets l)) (lg_tickets l) (lg_nextTicketID l).

Definition set_observation (o : QuotaObservation) (b : quotaBucket) : quotaBucket :=
  mkBucket o (bk_reserved b) (bk_probeSettled b).
Definition set_reserved (r : Z) (b : quotaBucket) : quotaBucket :=
  mkBucket (bk_observation b) r (bk_probeSettled b).
Definition set_Remaining (r : Z) (o : QuotaObservation) : QuotaObservation :=
  mkObs (obs_Limit o) r (obs_ResetAt o) (obs_Source o) (obs_Confidence o) (obs_ObservedAt o).
Definition set_ObservedAt (t : Z) (o : QuotaObservation) : QuotaObservation :=
  mkObs (obs_Limit o) (obs_Remaining o) (obs_ResetAt o) (obs_Source o) (obs_Confidence o) t.

(** Write an observation through [l.buckets[key]], creating the bucket. *)
Definition putObservation (key : QuotaBucketKey) (o : QuotaObservation) (l : QuotaLedger) : QuotaLedger :=
  match lg_buckets l !! key with
  | Some b => set_heap (alter (set_observation o) b (lg_heap l)) l
  | None => newBucket key o l
  end.

Definition deleteBucket (key : QuotaBucketKey) (l : QuotaLedger) : QuotaLedger :=
  set_buckets (delete key (lg_buckets l)) l.

Definition validQuotaKey (key : QuotaBucketKey) : bool :=
  negb (empty_str (key_Provider key)) && negb (empty_str (key_Scope key)) &&
  negb (empty_str (key_ModelOrPool key)) && negb (empty_str (key_Dimension key)) &&
  negb (empty_str (key_Window key)).

Definition quotaKeyString (key : QuotaBucketKey) : string :=
  key_Provider key +:+ nul +:+ key_Scope key +:+ nul +:+ key_ModelOrPool key +:+ nul +:+
  key_Dimension key +:+ nul +:+ key_Window key.

(** A known reset time that has passed. *)
Definition expired (o : QuotaObservation) (now : Z) : bool :=
  negb (IsZero (obs_ResetAt o)) && negb (After (obs_ResetAt o) now).

Definition keepBucket (l : QuotaLedger) (now : Z) (b : nat) : bool :=
  match lg_heap l !! b with Some bk => negb (expired (bk_observation bk) now) | None => true end.

Definition purgeExpiredLocked (now : Z) (l : QuotaLedger) : QuotaLedger :=
  set_buckets (filter (fun '(_, b) => keepBucket l now b = true) (lg_buckets l)) l.

Definition normaliseQuotaObservation (o : QuotaObservation) (now : Z) : QuotaObservation :=
  let o := if IsZero (obs_ObservedAt o) then set_ObservedAt now o else o in
  if obs_Limit o <? obs_Remaining o then set_Remaining (obs_Limit o) o else o.

(** ** Observe, Snapshot, Keys, Reservations *)

Definition Observe (key : QuotaBucketKey) (o : QuotaObservation) (now : Z) (l : QuotaLedger) : QuotaLedger * bool :=
  if negb (validQuotaKey key) || (obs_Limit o <? 0) || (obs_Remaining o <? 0) then (l, false)
  else
    let o := if IsZero (obs_ObservedAt o) then set_ObservedAt now o else o in
    if expired o now then (deleteBucket key (purgeExpiredLocked now l), false)
    else
      let o := if obs_Limit o <? obs_Remaining o then set_Remaining (obs_Limit o) o else o in
      (putObservation key o (purgeExpiredLocked now l), true).

(** A minute bucket without a reset time, seen in an earlier minute. *)
Definition staleMinute (key : QuotaBucketKey) (o : QuotaObservation) (now : Z) : bool :=
  str_eq (key_Window key) QuotaWindowMinute && IsZero (obs_ResetAt o) && negb (IsZero (obs_ObservedAt o)) &&
  After (time_Truncate now Minute) (time_Truncate (obs_ObservedAt o) Minute).

Definition availableOf (b : quotaBucket) : Z :=
  let available := wrap64 (obs_Remaining (bk_observation b) - bk_reserved b) in
  if available <? 0 then 0 else available.

Definition Snapshot (key : QuotaBucketKey) (now : Z) (l : QuotaLedger) : QuotaLedger * option QuotaSnapshot :=
  let l := purgeExpiredLocked now l in
  match bucketAt l key with
  | None => (l, None)
  | Some b =>
      if staleMinute key (bk_observation b) now then (deleteBucket key l, None)
      else (l, Some (mkSnapshot (bk_observation b) key (bk_reserved b) (availableOf b) (bk_probeSettled b)))
  end.

Definition keyLess (a b : QuotaBucketKey) : bool := String.ltb (quotaKeyString a) (quotaKeyString b).

Definition Keys (now : Z) (l : QuotaLedger) : QuotaLedger * list QuotaBucketKey :=
  let l := purgeExpiredLocked now l in
  (l, SliceStable keyLess (fst <$> map_to_list (lg_buckets l))).

(** The test [ticket.ledger != l || ticket.id == 0] of the ticket methods. *)
Definition owns (l : QuotaLedger) (t : QuotaTicket) : bool :=
  bool_decide (tk_ledger t = Some (lg_id l)) && negb (tk_id t =? 0).

Definition Reservations (t : QuotaTicket) (l : QuotaLedger) : list QuotaReservation :=
  if negb (owns l t) then []
  else match lg_tickets l !! tk_id t with
       | None => []
       | Some holds =>
           SliceStable (fun a b => keyLess (res_Key a) (res_Key b))
             ((fun '(key, h) => mkReservation key (hold_cost h)) <$> map_to_list holds)
       end.

(** ** Reserving *)

Definition ReservationsForEstimate (requestBucket tokenBucket : QuotaBucketKey) (e : QuotaEstimate) : list QuotaReservation :=
  ((if 0 <? qe_Requests e then [mkReservation requestBucket (qe_Requests e)] else []) ++
   (if 0 <? qe_Tokens e then [mkReservation tokenBucket (qe_Tokens e)] else []))%list.

Fixpoint aggregateFrom (amounts : gmap QuotaBucketKey Z) (reservations : list QuotaReservation) : option (gmap QuotaBucketKey Z) :=
  match reservations with
  | [] => Some amounts
  | r :: rest =>
      if negb (validQuotaKey (res_Key r)) || (res_Cost r <? 0) then None
      else if res_Cost r =? 0 then aggregateFrom amounts rest
      else
        let sum := wrap64 (default 0 (amounts !! res_Key r) + res_Cost r) in
        if sum <? 0 then None else aggregateFrom (<[res_Key r := sum]> amounts) rest
  end.

Definition aggregateReservations (reservations : list QuotaReservation) : option (gmap QuotaBucketKey Z) :=
  aggregateFrom ∅ reservations.

(** The test of one dimension: room in the bucket, an unknown bucket, or the
    single bootstrap probe of an estimated one. *)
Definition fits (l : QuotaLedger) (key : QuotaBucketKey) (cost : Z) : bool :=
  match bucketAt l key with
  | None => true
  | Some b =>
      if cost <=? wrap64 (obs_Remaining (bk_observation b) - bk_reserved b) then true
      else str_eq (obs_Confidence (bk_observation b)) QuotaConfidenceEstimated &&
           (bk_reserved b =? 0) && negb (bk_probeSettled b)
  end.

Definition addReserved (cost : Z) (b : quotaBucket) : quotaBucket := set_reserved (wrap64 (bk_reserved b + cost)) b.

(** The second loop: count the cost in the bucket, if there is one. *)
Definition reserveOne (buckets : gmap QuotaBucketKey nat) (heap : gmap nat quotaBucket) (kc : QuotaBucketKey * Z) : gmap nat quotaBucket :=
  match buckets !! kc.1 with
  | Some b => alter (addReserved kc.2) b heap
  | None => heap
  end.

Definition makeHolds (l : QuotaLedger) (amounts : gmap QuotaBucketKey Z) : quotaTicketState :=
  map_imap (fun key cost => Some (mkHold key cost (lg_buckets l !! key))) amounts.

(** The unbounded loop, with fuel; [nextTicketID] is a [uint64]. *)
Fixpoint newTicketIDFrom (fuel : nat) (next : Z) (tickets : gmap Z quotaTicketState) : option Z :=
  match fuel with
  | O => None
  | S fuel =>
      let next := wrapU64 (next + 1) in
      if next =? 0 then newTicketIDFrom fuel next tickets
      else match tickets !! next with
           | Some _ => newTicketIDFrom fuel next tickets
           | None => Some next
           end
  end.

Definition newTicketIDLocked (l : QuotaLedger) : option Z :=
  newTicketIDFrom (size (lg_tickets l) + 2) (lg_nextTicketID l) (lg_tickets l).

Definition ReserveAll (reservations : list QuotaReservation) (now : Z) (l : QuotaLedger) : QuotaLedger * option QuotaTicket :=
  match aggregateReservations reservations with
  | None => (l, None)
  | Some amounts =>
      let l := purgeExpiredLocked now l in
      if forallb (fun '(key, cost) => fits l key cost) (map_to_list amounts) then
        let holds := makeHolds l amounts in
        let l1 := set_heap (fold_left (reserveOne (lg_buckets l)) (map_to_list amounts) (lg_heap l)) l in
        match newTicketIDLocked l1 with
        | Some id =>
            (set_tickets (<[id := holds]> (lg_tickets l1)) (set_nextTicketID id l1), Some (mkTicket (Some (lg_id l1)) id))
        | None => (l, None)   (* not reached below 2^64 - 2 tickets: [newTicketID_total] *)
        end
      else (l, None)
  end.

Definition Reserve (key : QuotaBucketKey) (cost now : Z) (l : QuotaLedger) : QuotaLedger * option QuotaTicket :=
  ReserveAll [mkReservation key cost] now l.

(** ** Releasing and reconciling *)

Definition subReserved (cost : Z) (b : quotaBucket) : quotaBucket :=
  set_reserved (wrap64 (bk_reserved b - minInt64 (bk_reserved b) cost)) b.

Definition releaseOne (heap : gmap nat quotaBucket) (kh : QuotaBucketKey * quotaHold) : gmap nat quotaBucket :=
  match hold_bucket kh.2 with
  | Some b => alter (subReserved (hold_cost kh.2)) b heap
  | None => heap
  end.

Definition releaseHoldsLocked (holds : quotaTicketState) (l : QuotaLedger) : QuotaLedger :=
  set_heap (fold_left releaseOne (map_to_list holds) (lg_heap l)) l.

Definition consumeTicketLocked (t : QuotaTicket) (l : QuotaLedger) : QuotaLedger * option quotaTicketState :=
  match lg_tickets l !! tk_id t with
  | None => (l, None)
  | Some holds => (set_tickets (delete (tk_id t) (lg_tickets l)) l, Some holds)
  end.

Definition Release (t : QuotaTicket) (now : Z) (l : QuotaLedger) : QuotaLedger * bool :=
  if negb (owns l t) then (l, false)
  else
    let l := purgeExpiredLocked now l in
    match consumeTicketLocked t l with
    | (l, None) => (l, false)
    | (l, Some holds) => (releaseHoldsLocked holds l, true)
    end.

(** The check of the settlements: [None] is the early [return false]. *)
Fixpoint settlementsByKey (byKey : gmap QuotaBucketKey QuotaSettlement) (ss : list QuotaSettlement) : option (gmap QuotaBucketKey QuotaSettlement) :=
  match ss with
  | [] => Some byKey
  | s :: rest =>
      if negb (validQuotaKey (set_Key s)) || (set_Actual s <? 0) then None
      else if bool_decide (is_Some (byKey !! set_Key s)) then None
      else if match set_Observation s with
              | Some o => (obs_Limit o <? 0) || (obs_Remaining o <? 0)
              | None => false
              end then None
      else settlementsByKey (<[set_Key s := s]> byKey) rest
  end.

Definition settleBucket (cost : Z) (b : quotaBucket) : quotaBucket :=
  mkBucket (bk_observation b) (wrap64 (bk_reserved b - minInt64 (bk_reserved b) cost)) true.

Definition chargeActual (actual : Z) (b : quotaBucket) : quotaBucket :=
  let o := bk_observation b in
  set_observation (set_Remaining (wrap64 (obs_Remaining o - minInt64 (obs_Remaining o) actual)) o) b.

Definition onHeld (h : quotaHold) (f : quotaBucket -> quotaBucket) (l : QuotaLedger) : QuotaLedger :=
  match hold_bucket h with Some b => set_heap (alter f b (lg_heap l)) l | None => l end.

(** One round of the settlement loop. *)
Definition reconcileOne (byKey : gmap QuotaBucketKey QuotaSettlement) (now : Z) (l : QuotaLedger) (kh : QuotaBucketKey * quotaHold) : QuotaLedger :=
  let '(key, h) := kh in
  let l := onHeld h (settleBucket (hold_cost h)) l in
  match byKey !! key with
  | Some s =>
      match set_Observation s with
      | Some o =>
          let o := normaliseQuotaObservation o now in
          if expired o now then deleteBucket key l else putObservation key o l
      | None => onHeld h (chargeActual (set_Actual s)) l
      end
  | None => onHeld h (chargeActual (hold_cost h)) l
  end.

Definition Reconcile (t : QuotaTicket) (ss : list QuotaSettlement) (now : Z) (l : QuotaLedger) : QuotaLedger * bool :=
  if negb (owns l t) then (l, false)
  else match settlementsByKey ∅ ss with
  | None => (l, false)
  | Some byKey =>
      let l := purgeExpiredLocked now l in
      match lg_tickets l !! tk_id t with
      | None => (l, false)
      | Some holds =>
          if forallb (fun '(key, _) => bool_decide (is_Some (holds !! key))) (map_to_list byKey) then
            let l := set_tickets (delete (tk_id t) (lg_tickets l)) l in
            (fold_left (reconcileOne byKey now) (map_to_list holds) l, true)
          else (l, false)
      end
  end.

(** ** The invariant

    [heldIn b holds] is what the listed holds reserve in bucket object [b].
    [okWith pend l] is the ledger's invariant while the holds [pend] are
    reserved in the heap but not, or no longer, on a ticket; between method
    calls [pend] is empty. *)

Definition holdOn (b : nat) (h : quotaHold) : Z :=
  if bool_decide (hold_bucket h = Some b) then hold_cost h else 0.

Definition heldIn (b : nat) (pend : list (QuotaBucketKey * quotaHold)) : Z :=
  foldr (fun kh acc => holdOn b kh.2 + acc) 0 pend.

Definition heldBy (b : nat) (holds : quotaTicketState) : Z := heldIn b (map_to_list holds).

Definition totalHeld (b : nat) (tickets : gmap Z quotaTicketState) : Z := msum (fun _ => heldBy b) tickets.

(** [own] is the key a bucket object was made for.  A hold refers to an object
    made for its own key, live under that key or replaced since. *)
Definition holdOK (own : nat -> QuotaBucketKey) (l : QuotaLedger) (key : QuotaBucketKey) (h : quotaHold) : Prop :=
  hold_key h = key /\ 0 < hold_cost h <= max_int64 /\
  forall b, hold_bucket h = Some b -> is_Some (lg_heap l !! b) /\ own b = key.

Definition obsOK (o : QuotaObservation) : Prop := 0 <= obs_Remaining o <= obs_Limit o /\ obs_Limit o <= max_int64.

Record okWith (own : nat -> QuotaBucketKey) (pend : list (QuotaBucketKey * quotaHold)) (l : QuotaLedger) : Prop := mkOk {
  ok_live : forall k b, lg_buckets l !! k = Some b -> is_Some (lg_heap l !! b);
  ok_own : forall k b, lg_buckets l !! k = Some b -> own b = k;
  ok_fresh : forall b, is_Some (lg_heap l !! b) -> (b < lg_next l)%nat;
  ok_hold : forall id holds k h, lg_tickets l !! id = Some holds -> holds !! k = Some h -> holdOK own l k h;
  ok_pend : Forall (fun kh => holdOK own l kh.1 kh.2) pend;
  ok_reserved : forall b bk, lg_heap l !! b = Some bk ->
    bk_reserved bk = totalHeld b (lg_tickets l) + heldIn b pend /\ bk_reserved bk <= max_int64;
  ok_obs : forall b bk, lg_heap l !! b = Some bk -> obsOK (bk_observation bk);
  ok_ids : forall id, is_Some (lg_tickets l !! id) -> 0 < id < two64;
  ok_next : 0 <= lg_nextTicketID l < two64;
}.

Definition ledgerOK (l : QuotaLedger) : Prop := exists own, okWith own [] l.

Section invariant.
Context (own : nat -> QuotaBucketKey).
#[local] Abbreviation holdOK := (holdOK own).
#[local] Abbreviation okWith := (okWith own).

(** ** Lemmas on sums of holds *)

Lemma heldIn_nonneg l b pend : Forall (fun kh => holdOK l kh.1 kh.2) pend -> 0 <= heldIn b pend.
Proof.
  induction 1 as [|kh pend (_ & Hc & _) _ IH]; simpl; [done|]. unfold holdOn. case_bool_decide; lia.
Qed.

Lemma holds_Forall l holds :
  (forall k h, holds !! k = Some h -> holdOK l k h) -> Forall (fun kh => holdOK l kh.1 kh.2) (map_to_list holds).
Proof. intros H. apply Forall_forall. intros [k h] Hkh. apply elem_of_map_to_list in Hkh. by apply H. Qed.

Lemma totalHeld_nonneg pend l b : okWith pend l -> 0 <= totalHeld b (lg_tickets l).
Proof.
  intros H. apply msum_nonneg. intros id holds Hid. apply (heldIn_nonneg l), holds_Forall.
  intros. by eapply ok_hold.
Qed.

Lemma totalHeld_delete b tickets id holds :
  tickets !! id = Some holds -> totalHeld b tickets = heldIn b (map_to_list holds) + totalHeld b (delete id tickets).
Proof. intros H. unfold totalHeld. by rewrite (msum_delete _ _ id holds H). Qed.

Lemma totalHeld_insert b tickets id holds :
  tickets !! id = None -> totalHeld b (<[id := holds]> tickets) = heldIn b (map_to_list holds) + totalHeld b tickets.
Proof. intros H. unfold totalHeld. by rewrite msum_insert. Qed.

(** ** Preservation, step by step *)

Lemma holdOK_mono l l' k h :
  (forall b, is_Some (lg_heap l !! b) -> is_Some (lg_heap l' !! b)) -> holdOK l k h -> holdOK l' k h.
Proof. intros H1 (Hk & Hc & Hb). split_and!; [done|lia|lia|]. intros b Hb'. destruct (Hb b Hb'); eauto. Qed.

(** Dropping keys. *)
Lemma okWith_buckets pend l m : m ⊆ lg_buckets l -> okWith pend l -> okWith pend (set_buckets m l).
Proof.
  intros Hsub H. assert (Hs : forall k b, m !! k = Some b -> lg_buckets l !! k = Some b)
    by (intros; by eapply lookup_weaken).
  assert (Hm : forall k h, holdOK l k h -> holdOK (set_buckets m l) k h)
    by (intros k h; by apply holdOK_mono).
  destruct H. constructor; simpl; eauto using Forall_impl.
Qed.

Lemma okWith_purge pend l now : okWith pend l -> okWith pend (purgeExpiredLocked now l).
Proof. apply okWith_buckets, map_filter_subseteq. Qed.

Lemma okWith_deleteBucket pend l key : okWith pend l -> okWith pend (deleteBucket key l).
Proof. apply okWith_buckets, delete_subseteq. Qed.

(** Changing the observation of a bucket object. *)
Lemma okWith_alter pend l b f :
  (forall bk, lg_heap l !! b = Some bk -> obsOK (bk_observation bk) -> obsOK (bk_observation (f bk))) ->
  (forall bk, bk_reserved (f bk) = bk_reserved bk) ->
  okWith pend l -> okWith pend (set_heap (alter f b (lg_heap l)) l).
Proof.
  intros Hobs Hres H.
  assert (Hdom : forall c, is_Some (alter f b (lg_heap l) !! c) <-> is_Some (lg_heap l !! c))
    by (intros; apply lookup_alter_is_Some).
  assert (Hm : forall k h, holdOK l k h -> holdOK (set_heap (alter f b (lg_heap l)) l) k h)
    by (intros k h; apply holdOK_mono; simpl; intros; by apply Hdom).
  destruct H. constructor; simpl; eauto.
  - intros k c Hk. by apply Hdom, (ok_live0 k).
  - intros c Hc. by apply ok_fresh0, Hdom.
  - eapply Forall_impl; [done|]. auto.
  - intros c bk. destruct (decide (c = b)) as [->|Hne]; [|by rewrite lookup_alter_ne; eauto].
    rewrite lookup_alter_eq. intros (bk0 & E & ->)%fmap_Some. rewrite Hres. eauto.
  - intros c bk. destruct (decide (c = b)) as [->|Hne]; [|by rewrite lookup_alter_ne; eauto].
    rewrite lookup_alter_eq. intros (bk0 & E & ->)%fmap_Some. eauto.
Qed.

Lemma totalHeld_unheld pend l b :
  okWith pend l -> lg_heap l !! b = None -> totalHeld b (lg_tickets l) = 0 /\ heldIn b pend = 0.
Proof.
  intros H Hb.
  assert (Hz : forall hs, Forall (fun kh => holdOK l kh.1 kh.2) hs -> heldIn b hs = 0).
  { induction 1 as [|kh hs (_ & _ & Hh) _ IH]; simpl; [done|]. unfold holdOn.
    case_bool_decide as E; [|lia]. destruct (Hh b E) as [[bk Hbk] _]. congruence. }
  split; [|apply Hz, H]. apply msum_zero. intros id holds Hid. apply Hz, holds_Forall.
  intros. by eapply ok_hold.
Qed.

Lemma okWith_charge pend l h actual : 0 <= actual -> okWith pend l -> okWith pend (onHeld h (chargeActual actual) l).
Proof.
  intros Ha H. unfold onHeld. destruct (hold_bucket h) as [b|]; [|done]. apply okWith_alter; [|done|done].
  intros bk _ [H1 H2]. unfold obsOK. simpl. rewrite minInt64_min.
  rewrite wrap64_id by (unfold in_int64, min_int64, max_int64, two63 in *; lia). lia.
Qed.

(** What a hold reserves is there to be taken back: the guard [minInt64] of the
    source never bites. *)
Lemma pend_covered k h pend l b bk :
  okWith ((k, h) :: pend) l -> lg_heap l !! b = Some bk -> hold_bucket h = Some b ->
  hold_cost h <= bk_reserved bk /\ wrap64 (bk_reserved bk - minInt64 (bk_reserved bk) (hold_cost h)) = bk_reserved bk - hold_cost h.
Proof.
  intros H Hbk Hh. destruct (ok_reserved _ _ _ H b bk Hbk) as [Hr Hm]. simpl in Hr. unfold holdOn in Hr.
  rewrite bool_decide_eq_true_2 in Hr by done.
  pose proof (totalHeld_nonneg _ _ b H). pose proof (ok_pend _ _ _ H) as Hp. inversion_clear Hp as [|? ? (_ & Hc & _) Hps].
  apply (heldIn_nonneg l b) in Hps. simpl in Hc. split; [lia|]. rewrite minInt64_min, Z.min_r by lia.
  apply wrap64_id. unfold in_int64, min_int64, max_int64, two63 in *. lia.
Qed.

(** Taking a pending hold out of its bucket, with or without a verdict. *)
Lemma okWith_take k h pend l f :
  (forall bk, bk_reserved (f bk) = wrap64 (bk_reserved bk - minInt64 (bk_reserved bk) (hold_cost h)) /\
              bk_observation (f bk) = bk_observation bk) ->
  okWith ((k, h) :: pend) l -> okWith pend (onHeld h f l).
Proof.
  intros Hf H. unfold onHeld. destruct (hold_bucket h) as [b|] eqn:Hh.
  - assert (Hdom : forall c, is_Some (alter f b (lg_heap l) !! c) <-> is_Some (lg_heap l !! c))
      by (intros; apply lookup_alter_is_Some).
    assert (Hm : forall k h, holdOK l k h -> holdOK (set_heap (alter f b (lg_heap l)) l) k h)
      by (intros ? ?; apply holdOK_mono; simpl; intros; by apply Hdom).
    pose proof (fun bk Hbk => pend_covered k h pend l b bk H Hbk Hh) as Hcov.
    destruct H. constructor; simpl; eauto.
    + intros ? c Hk. apply Hdom. eauto.
    + intros c Hc. by apply ok_fresh0, Hdom.
    + inversion_clear ok_pend0. eapply Forall_impl; [done|]. auto.
    + intros c bk. destruct (decide (c = b)) as [->|Hne].
      * rewrite lookup_alter_eq. intros (bk0 & E & ->)%fmap_Some.
        destruct (Hf bk0) as [-> _]. destruct (Hcov bk0 E) as [Hle ->].
        destruct (ok_reserved0 b bk0 E) as [Hr Hx]. simpl in Hr. unfold holdOn in Hr.
        rewrite bool_decide_eq_true_2 in Hr by done. inversion_clear ok_pend0 as [|? ? (_ & Hc & _) _]. simpl in Hc. lia.
      * rewrite lookup_alter_ne by done. intros E. destruct (ok_reserved0 c bk E) as [Hr Hx]. simpl in Hr.
        unfold holdOn in Hr. rewrite bool_decide_eq_false_2 in Hr by congruence. lia.
    + intros c bk. destruct (decide (c = b)) as [->|Hne]; [|by rewrite lookup_alter_ne; eauto].
      rewrite lookup_alter_eq. intros (bk0 & E & ->)%fmap_Some. destruct (Hf bk0) as [_ ->]. eauto.
  - destruct H. constructor; simpl; eauto; [by inversion ok_pend0|].
    intros c bk E. destruct (ok_reserved0 c bk E) as [Hr Hx]. simpl in Hr.
    unfold holdOn in Hr. rewrite bool_decide_eq_false_2 in Hr by congruence. lia.
Qed.

(** A ticket's holds become pending when it is consumed, and pending holds
    become a ticket's. *)
Lemma okWith_consume l id holds :
  okWith [] l -> lg_tickets l !! id = Some holds ->
  okWith (map_to_list holds) (set_tickets (delete id (lg_tickets l)) l).
Proof.
  intros H Hid. assert (Hp : Forall (fun kh => holdOK l kh.1 kh.2) (map_to_list holds))
    by (apply holds_Forall; intros; by eapply (ok_hold _ _ _ H)).
  destruct H. constructor; simpl; eauto.
  - intros i hs k h [_ Hi]%lookup_delete_Some. eauto.
  - intros b bk Hb. destruct (ok_reserved0 b bk Hb) as [Hr Hm]. rewrite (totalHeld_delete b _ id holds Hid) in Hr.
    simpl in Hr. lia.
  - intros i [? [_ Hi]%lookup_delete_Some]. eauto.
Qed.

Lemma okWith_issue l id holds :
  okWith (map_to_list holds) l -> lg_tickets l !! id = None -> 0 < id < two64 ->
  okWith [] (set_tickets (<[id := holds]> (lg_tickets l)) (set_nextTicketID id l)).
Proof.
  intros H Hid Hr. destruct H. constructor; simpl; eauto; [| | |lia].
  - intros i hs k h [[_ <-]|[_ Hi]]%lookup_insert_Some Hk; [|eauto].
    rewrite Forall_forall in ok_pend0. by apply (ok_pend0 (k, h)), elem_of_map_to_list.
  - intros b bk Hb. rewrite totalHeld_insert by done. destruct (ok_reserved0 b bk Hb). lia.
  - intros i [<-|[_ Hi]]%lookup_insert_is_Some; eauto.
Qed.

(** Counting one dimension in its bucket. *)
Definition roomFor (l : QuotaLedger) (kc : QuotaBucketKey * Z) : Prop :=
  0 < kc.2 <= max_int64 /\
  forall b bk, lg_buckets l !! kc.1 = Some b -> lg_heap l !! b = Some bk -> bk_reserved bk + kc.2 <= max_int64.

Lemma okWith_reserveOne pend l kc :
  okWith pend l -> roomFor l kc ->
  okWith ((kc.1, mkHold kc.1 kc.2 (lg_buckets l !! kc.1)) :: pend)
    (set_heap (reserveOne (lg_buckets l) (lg_heap l) kc) l).
Proof.
  intros H [Hc Hroom]. destruct kc as [k c]. simpl in *. unfold reserveOne. simpl.
  set (l' := set_heap (match lg_buckets l !! k with Some b => alter (addReserved c) b (lg_heap l) | None => lg_heap l end) l).
  assert (Hdom : forall b, is_Some (lg_heap l' !! b) <-> is_Some (lg_heap l !! b))
    by (intros b; simpl; destruct (lg_buckets l !! k); [apply lookup_alter_is_Some|done]).
  assert (Hm : forall k h, holdOK l k h -> holdOK l' k h)
    by (intros ? ?; apply holdOK_mono; intros; by apply Hdom).
  destruct H. constructor; try done; eauto.
  - intros k' b Hb. apply Hdom. eauto.
  - intros b Hb. apply ok_fresh0. by apply Hdom.
  - constructor; [|eapply Forall_impl; [done|]; auto]. split_and!; simpl; [done|lia|lia|].
    intros b Hb. split; [apply Hdom; eauto|eauto].
  - intros b bk. simpl. unfold holdOn. simpl. destruct (lg_buckets l !! k) as [b0|] eqn:Ek.
    + destruct (decide (b = b0)) as [->|Hne].
      * rewrite lookup_alter_eq, bool_decide_eq_true_2 by done. intros (bk0 & E & ->)%fmap_Some. simpl.
        destruct (ok_reserved0 b0 bk0 E) as [Hr Hx]. specialize (Hroom b0 bk0 eq_refl E).
        assert (0 <= bk_reserved bk0).
        { rewrite Hr. apply Z.add_nonneg_nonneg; [|by eapply heldIn_nonneg].
          apply (totalHeld_nonneg pend l); by constructor. }
        rewrite wrap64_id by (unfold in_int64, min_int64, max_int64, two63 in *; lia). lia.
      * rewrite lookup_alter_ne, bool_decide_eq_false_2 by congruence. intros E. destruct (ok_reserved0 b bk E). lia.
    + rewrite bool_decide_eq_false_2 by done. intros E. destruct (ok_reserved0 b bk E). lia.
  - intros b bk. simpl. destruct (lg_buckets l !! k) as [b0|]; [|eauto].
    destruct (decide (b = b0)) as [->|Hne]; [|rewrite lookup_alter_ne by done; eauto].
    rewrite lookup_alter_eq. intros (bk0 & E & ->)%fmap_Some. simpl. eauto.
Qed.

Lemma okWith_reserveAll kcs : forall pend l,
  NoDup kcs.*1 -> okWith pend l -> Forall (roomFor l) kcs ->
  okWith (((fun kc => (kc.1, mkHold kc.1 kc.2 (lg_buckets l !! kc.1))) <$> reverse kcs) ++ pend)
    (set_heap (fold_left (reserveOne (lg_buckets l)) kcs (lg_heap l)) l).
Proof.
  induction kcs as [|kc kcs IH]; intros pend l Hnd H Hroom; [by destruct l|].
  apply NoDup_cons in Hnd as [Hk Hnd]. inversion_clear Hroom as [|? ? Hr Hrs].
  rewrite reverse_cons, fmap_app, <- app_assoc. simpl.
  pose proof (okWith_reserveOne pend l kc H Hr) as H1.
  apply (IH _ _ Hnd) in H1; [exact H1|].
  rewrite Forall_forall in Hrs |- *. intros kc' Hin. destruct (Hrs kc' Hin) as [Hc Hb].
  split; [done|]. simpl. intros b bk Eb. unfold reserveOne. destruct (lg_buckets l !! kc.1) as [b0|] eqn:E0; [|eauto].
  rewrite lookup_alter_ne; [eauto|]. intros ->. apply Hk.
  rewrite <- (ok_own _ _ _ H _ _ E0), (ok_own _ _ _ H _ _ Eb). by apply list_elem_of_fmap_2.
Qed.

Lemma heldIn_perm b p q : p ≡ₚ q -> heldIn b p = heldIn b q.
Proof. unfold heldIn. induction 1; simpl; lia. Qed.

Lemma okWith_perm p q l : p ≡ₚ q -> okWith p l -> okWith q l.
Proof.
  intros Hp H. destruct H. constructor; eauto; [by rewrite <- Hp|].
  intros b bk Hb. rewrite <- (heldIn_perm b p q Hp). eauto.
Qed.

Lemma makeHolds_list l amounts :
  map_to_list (makeHolds l amounts) ≡ₚ
  (fun kc => (kc.1, mkHold kc.1 kc.2 (lg_buckets l !! kc.1))) <$> map_to_list amounts.
Proof.
  apply NoDup_Permutation.
  - apply NoDup_map_to_list.
  - apply (NoDup_fmap_1 fst). rewrite <- list_fmap_compose. apply NoDup_fst_map_to_list.
  - intros [k h]. rewrite elem_of_map_to_list, list_elem_of_fmap. unfold makeHolds. rewrite map_lookup_imap. split.
    + intros (c & Hc & [= <-])%bind_Some. exists (k, c). by rewrite elem_of_map_to_list.
    + intros ([k' c] & [= -> ->] & Hc). rewrite elem_of_map_to_list in Hc. by rewrite Hc.
Qed.

End invariant.

(** A new bucket object belongs to its key from then on. *)
Definition ownNew (own : nat -> QuotaBucketKey) (n : nat) (key : QuotaBucketKey) (b : nat) : QuotaBucketKey :=
  if decide (b = n) then key else own b.

Lemma okWith_newBucket own pend l key o :
  obsOK o -> okWith own pend l ->
  okWith (ownNew own (lg_next l) key) pend (newBucket key o l).
Proof.
  intros Ho H.
  assert (Hlt : forall b, is_Some (lg_heap l !! b) -> ownNew own (lg_next l) key b = own b /\ lg_next l <> b).
  { intros b Hb. apply (ok_fresh _ _ _ H) in Hb. unfold ownNew. rewrite decide_False by lia. split; [done|lia]. }
  assert (Hnone : lg_heap l !! lg_next l = None).
  { destruct (lg_heap l !! lg_next l) eqn:E; [|done]. by destruct (Hlt (lg_next l)); eauto. }
  destruct (totalHeld_unheld own pend l _ H Hnone) as [Ht Hp].
  assert (Hm : forall k h, holdOK own l k h -> holdOK (ownNew own (lg_next l) key) (newBucket key o l) k h).
  { intros k h (Hk & Hc & Hb). split_and!; [done|lia|lia|]. intros b Hb'. destruct (Hb b Hb') as [Hs Ho'].
    destruct (Hlt b Hs) as [-> Hne]. split; [|done]. simpl. by rewrite lookup_insert_ne. }
  destruct H. constructor; simpl; eauto.
  - intros k b. rewrite lookup_insert_Some. intros [[<- <-]|[_ Hk]]; [rewrite lookup_insert_eq; eauto|].
    apply ok_live0 in Hk. rewrite lookup_insert_ne; [done|by apply Hlt].
  - intros k b. rewrite lookup_insert_Some. intros [[<- <-]|[_ Hk]]; [unfold ownNew; by rewrite decide_True|].
    destruct (Hlt b (ok_live0 k b Hk)) as [-> _]. eauto.
  - intros b. rewrite lookup_insert_is_Some. intros [<-|[_ Hb]]; [lia|]. apply ok_fresh0 in Hb. lia.
  - eapply Forall_impl; [done|]. auto.
  - intros b bk. rewrite lookup_insert_Some. intros [[<- <-]|[_ Hb]]; [|eauto]. simpl. split; [lia|done].
  - intros b bk. rewrite lookup_insert_Some. intros [[<- <-]|[_ Hb]]; eauto.
Qed.

(** The owner of the objects that exist does not change. *)
Definition ownExt (l : QuotaLedger) (own own' : nat -> QuotaBucketKey) : Prop :=
  forall b, is_Some (lg_heap l !! b) -> own' b = own b.

Lemma okWith_putObservation own pend l key o :
  obsOK o -> okWith own pend l ->
  exists own', ownExt l own own' /\ okWith own' pend (putObservation key o l).
Proof.
  intros Ho H. unfold putObservation. destruct (lg_buckets l !! key).
  - exists own. split; [done|]. by apply okWith_alter.
  - exists (ownNew own (lg_next l) key). split; [|by apply okWith_newBucket].
    intros b Hb. apply (ok_fresh _ _ _ H) in Hb. unfold ownNew. rewrite decide_False; [done|lia].
Qed.

(** ** Lemmas on aggregation *)

Definition costFor (key : QuotaBucketKey) (rs : list QuotaReservation) : Z :=
  foldr (fun r acc => (if decide (res_Key r = key) then res_Cost r else 0) + acc) 0 rs.

Definition validReservation (r : QuotaReservation) : Prop := validQuotaKey (res_Key r) = true /\ 0 <= res_Cost r.

#[local] Instance validReservation_dec r : Decision (validReservation r).
Proof. unfold validReservation. apply _. Defined.

Definition amountsOK (amounts : gmap QuotaBucketKey Z) : Prop := map_Forall (fun _ c => 0 < c <= max_int64) amounts.

Lemma costFor_nonneg key rs : Forall validReservation rs -> 0 <= costFor key rs.
Proof. induction 1 as [|r rs [_ Hc] _ IH]; simpl; [done|]. destruct (decide _); lia. Qed.

Lemma amounts_nonneg amounts k : amountsOK amounts -> 0 <= default 0 (amounts !! k) <= max_int64.
Proof. intros H. destruct (amounts !! k) as [c|] eqn:E; simpl; [apply H in E; lia|done]. Qed.

Lemma aggregateFrom_spec rs : forall acc,
  Forall (fun r => res_Cost r <= max_int64) rs -> amountsOK acc ->
  match aggregateFrom acc rs with
  | Some amounts => Forall validReservation rs /\ amountsOK amounts /\
                    forall k, default 0 (amounts !! k) = default 0 (acc !! k) + costFor k rs
  | None => ~ Forall validReservation rs \/ exists k, max_int64 < default 0 (acc !! k) + costFor k rs
  end.
Proof.
  induction rs as [|r rs IH]; intros acc Hmax Hacc; simpl.
  { split_and!; auto. intros k. lia. }
  inversion_clear Hmax as [|? ? Hr Hrs].
  destruct (validQuotaKey (res_Key r)) eqn:Ev; simpl; [|left; intros Hf; inversion_clear Hf as [|? ? [? _] _]; congruence].
  destruct (Z.ltb_spec (res_Cost r) 0) as [Hn|Hn];
    [left; intros Hf; inversion_clear Hf as [|? ? [_ ?] _]; lia|].
  assert (Hv : validReservation r) by done.
  destruct (Z.eqb_spec (res_Cost r) 0) as [Hz|Hz].
  - specialize (IH acc Hrs Hacc). destruct (aggregateFrom acc rs) as [amounts|].
    + destruct IH as (H1 & H2 & H3). split_and!; auto. intros k. rewrite H3. destruct (decide _); lia.
    + destruct IH as [Hf|[k Hk]]; [left; intros Hf'; by inversion Hf'|].
      right. exists k. destruct (decide _); lia.
  - pose proof (amounts_nonneg acc (res_Key r) Hacc) as Hb.
    pose proof (wrap64_add_nonneg (default 0 (acc !! res_Key r)) (res_Cost r)) as Hw.
    rewrite Hw by (unfold nat_int64; lia). destruct (Z.leb_spec (default 0 (acc !! res_Key r) + res_Cost r) max_int64) as [Hle|Hgt]; simpl.
    + rewrite wrap64_id by (unfold in_int64, min_int64, two63; lia).
      set (acc' := <[res_Key r := _]> acc).
      assert (Hd : forall k, default 0 (acc' !! k) = default 0 (acc !! k) + (if decide (res_Key r = k) then res_Cost r else 0)).
      { intros k. unfold acc'. destruct (decide _) as [<-|]; [by rewrite lookup_insert_eq|rewrite lookup_insert_ne by done; lia]. }
      specialize (IH acc' Hrs). assert (Hok : amountsOK acc') by (apply map_Forall_insert_2; [lia|done]).
      specialize (IH Hok). destruct (aggregateFrom acc' rs) as [amounts|].
      * destruct IH as (H1 & H2 & H3). split_and!; auto. intros k. rewrite H3, Hd. lia.
      * destruct IH as [Hf|[k Hk]]; [left; intros Hf'; by inversion Hf'|]. right. exists k. rewrite Hd in Hk. lia.
    + destruct (decide (Forall validReservation rs)) as [Hf|Hf]; [|left; intros Hf'; by inversion Hf'].
      right. exists (res_Key r). rewrite decide_True by done. pose proof (costFor_nonneg (res_Key r) rs Hf). lia.
Qed.

(** ** Fresh ticket ids *)

Lemma wrapU64_succ a i : wrapU64 (wrapU64 (a + 1) + i) = wrapU64 (a + (i + 1)).
Proof. unfold wrapU64. rewrite Zplus_mod_idemp_l. f_equal. lia. Qed.

Lemma newTicketIDFrom_None fuel : forall next tickets,
  newTicketIDFrom fuel next tickets = None ->
  forall i, (i < fuel)%nat ->
    let id := wrapU64 (next + (Z.of_nat i + 1)) in id = 0 \/ is_Some (tickets !! id).
Proof.
  induction fuel as [|fuel IH]; intros next tickets H i Hi; [lia|]. simpl in H. cbv zeta.
  assert (Hrest : newTicketIDFrom fuel (wrapU64 (next + 1)) tickets = None /\
                  (wrapU64 (next + 1) = 0 \/ is_Some (tickets !! wrapU64 (next + 1)))).
  { destruct (Z.eqb_spec (wrapU64 (next + 1)) 0); [auto|].
    destruct (tickets !! wrapU64 (next + 1)); [eauto|done]. }
  destruct Hrest as [Hn Hfirst]. destruct i as [|i]; [exact Hfirst|].
  specialize (IH _ _ Hn i ltac:(lia)). cbv zeta in IH. rewrite wrapU64_succ in IH.
  by replace (Z.of_nat (S i) + 1) with (Z.of_nat i + 1 + 1) by lia.
Qed.

Lemma newTicketIDFrom_Some fuel : forall next tickets id,
  newTicketIDFrom fuel next tickets = Some id -> 0 < id < two64 /\ tickets !! id = None.
Proof.
  induction fuel as [|fuel IH]; intros next tickets id H; simpl in H; [done|].
  pose proof (Z.mod_pos_bound (next + 1) two64 ltac:(done)) as Hb. fold (wrapU64 (next + 1)) in Hb.
  destruct (Z.eqb_spec (wrapU64 (next + 1)) 0); [eauto|].
  destruct (tickets !! wrapU64 (next + 1)) eqn:E; [eauto|]. injection H as <-. split; [lia|done].
Qed.

Lemma newTicketID_total l :
  Z.of_nat (size (lg_tickets l)) + 2 <= two64 -> is_Some (newTicketIDLocked l).
Proof.
  intros Hsize. unfold newTicketIDLocked. set (n := (size (lg_tickets l) + 2)%nat).
  destruct (newTicketIDFrom n (lg_nextTicketID l) (lg_tickets l)) eqn:E; [eauto|exfalso].
  pose proof (newTicketIDFrom_None n _ _ E) as Hall. cbv zeta in Hall.
  set (f := fun i : nat => wrapU64 (lg_nextTicketID l + (Z.of_nat i + 1))).
  assert (Hnd : NoDup (f <$> seq 0 n)).
  { apply NoDup_fmap_2_strong; [|apply NoDup_seq]. intros i j Hi Hj Hf.
    apply elem_of_seq in Hi, Hj. unfold f, wrapU64 in Hf.
    assert (Hd : (Z.of_nat i - Z.of_nat j) mod two64 = 0).
    { replace (Z.of_nat i - Z.of_nat j)
        with ((lg_nextTicketID l + (Z.of_nat i + 1)) - (lg_nextTicketID l + (Z.of_nat j + 1))) by lia.
      rewrite Zminus_mod, Hf, Z.sub_diag. done. }
    apply Z.mod_divide in Hd as [q Hq]; [|done]. unfold n, two64 in *. nia. }
  assert (Hsub : f <$> seq 0 n ⊆+ 0 :: elements (dom (lg_tickets l))).
  { apply NoDup_submseteq; [done|]. intros x (i & -> & Hi)%list_elem_of_fmap. apply elem_of_seq in Hi.
    rewrite elem_of_cons, elem_of_elements, elem_of_dom. apply Hall. lia. }
  apply submseteq_length in Hsub. rewrite length_fmap, length_seq in Hsub. simpl in Hsub.
  pose proof (size_dom (lg_tickets l)) as Hd. unfold size at 1, set_size in Hd. unfold n in Hsub. simpl in Hd.
  rewrite Hd in Hsub. lia.
Qed.

(** ** Preservation by the methods *)

Lemma fits_room own l k c : okWith own [] l -> 0 < c <= max_int64 -> fits l k c = true -> roomFor l (k, c).
Proof.
  intros H Hc Hf. split; [done|]. simpl. intros b bk Hk Hb. unfold fits, bucketAt in Hf. rewrite Hk in Hf. simpl in Hf.
  rewrite Hb in Hf. destruct (ok_reserved _ _ _ H b bk Hb) as [Hr Hm].
  pose proof (totalHeld_nonneg _ _ _ b H) as Ht. simpl in Hr. destruct (ok_obs _ _ _ H b bk Hb) as [Ho1 Ho2].
  rewrite wrap64_sub_nonneg in Hf by (unfold nat_int64; lia).
  destruct (Z.leb_spec c (obs_Remaining (bk_observation bk) - bk_reserved bk)); [lia|]. zbool. lia.
Qed.

Lemma okWith_reserved own l amounts :
  okWith own [] l -> amountsOK amounts -> forallb (fun '(k, c) => fits l k c) (map_to_list amounts) = true ->
  okWith own (map_to_list (makeHolds l amounts))
    (set_heap (fold_left (reserveOne (lg_buckets l)) (map_to_list amounts) (lg_heap l)) l).
Proof.
  intros H Ha Hf. eapply okWith_perm.
  - rewrite makeHolds_list. apply fmap_Permutation, reverse_Permutation.
  - rewrite <- (app_nil_r (fmap _ _)). apply okWith_reserveAll; [apply NoDup_fst_map_to_list|done|].
    apply Forall_forall. intros [k c] Hin. rewrite forallb_forall in Hf.
    specialize (Hf (k, c) (proj1 (list_elem_of_In _ _) Hin)). apply elem_of_map_to_list in Hin.
    eapply fits_room; [done|by apply (Ha k)|done].
Qed.

Lemma aggregate_amountsOK rs amounts :
  Forall (fun r => res_Cost r <= max_int64) rs -> aggregateReservations rs = Some amounts -> amountsOK amounts.
Proof.
  intros Hrs Ha. pose proof (aggregateFrom_spec rs ∅ Hrs (map_Forall_empty _)) as H.
  unfold aggregateReservations in Ha. rewrite Ha in H. apply H.
Qed.

Lemma okWith_ReserveAll own rs now l :
  Forall (fun r => res_Cost r <= max_int64) rs -> okWith own [] l -> okWith own [] (ReserveAll rs now l).1.
Proof.
  intros Hrs H. unfold ReserveAll. destruct (aggregateReservations rs) as [amounts|] eqn:Ea; [|done].
  apply (okWith_purge _ _ _ now) in H. cbv zeta. destruct (forallb _ _) eqn:Ef; [|done].
  apply aggregate_amountsOK in Ea; [|done]. pose proof (okWith_reserved _ _ _ H Ea Ef) as H1.
  destruct (newTicketIDLocked _) as [id|] eqn:Ei; [|done].
  apply newTicketIDFrom_Some in Ei as [Hid Hn]. by apply okWith_issue.
Qed.

Lemma okWith_releaseFold own hl : forall l, okWith own hl l -> okWith own [] (set_heap (fold_left releaseOne hl (lg_heap l)) l).
Proof.
  induction hl as [|[k h] hl IH]; intros l H; [by destruct l|]. simpl.
  apply (okWith_take _ _ _ _ _ (subReserved (hold_cost h))) in H; [|done].
  specialize (IH _ H). unfold releaseOne at 2. simpl. unfold onHeld in IH. by destruct (hold_bucket h).
Qed.

Lemma okWith_Release own t now l : okWith own [] l -> okWith own [] (Release t now l).1.
Proof.
  intros H. unfold Release. destruct (negb _); [done|]. apply (okWith_purge _ _ _ now) in H. cbv zeta.
  unfold consumeTicketLocked. destruct (lg_tickets (purgeExpiredLocked now l) !! tk_id t) as [holds|] eqn:E; [|done].
  by apply okWith_releaseFold, okWith_consume.
Qed.

Definition settlementOK (s : QuotaSettlement) : Prop :=
  forall o, set_Observation s = Some o -> obs_Limit o <= max_int64.

(** What a settlement that passed the check satisfies. *)
Definition settled (s : QuotaSettlement) : Prop :=
  0 <= set_Actual s /\ forall o, set_Observation s = Some o -> 0 <= obs_Remaining o /\ 0 <= obs_Limit o <= max_int64.

Lemma settlementsByKey_ok ss : forall acc byKey,
  Forall settlementOK ss -> map_Forall (fun k s => set_Key s = k /\ settled s) acc ->
  settlementsByKey acc ss = Some byKey -> map_Forall (fun k s => set_Key s = k /\ settled s) byKey.
Proof.
  induction ss as [|s ss IH]; intros acc byKey Hss Hacc H; simpl in H; [by injection H as <-|].
  inversion_clear Hss as [|? ? Hs Hss'].
  destruct (negb (validQuotaKey (set_Key s)) || (set_Actual s <? 0)) eqn:E1; [done|].
  destruct (bool_decide _); [done|]. destruct (set_Observation s) as [o|] eqn:Eo.
  - destruct ((obs_Limit o <? 0) || (obs_Remaining o <? 0)) eqn:E2; [done|]. apply (IH _ _ Hss') in H; [done|].
    apply map_Forall_insert_2; [|done]. zbool. split; [done|]. split; [lia|]. intros ? [= <-]%(eq_trans (eq_sym Eo)).
    specialize (Hs o Eo). lia.
  - apply (IH _ _ Hss') in H; [done|]. apply map_Forall_insert_2; [|done]. zbool. split; [done|]. split; [lia|].
    intros o Ho. congruence.
Qed.

Lemma normalise_obsOK o now : 0 <= obs_Remaining o -> 0 <= obs_Limit o <= max_int64 -> obsOK (normaliseQuotaObservation o now).
Proof.
  intros H1 H2. unfold normaliseQuotaObservation, obsOK. destruct (IsZero _); simpl;
    destruct (Z.ltb_spec (obs_Limit o) (obs_Remaining o)); simpl; lia.
Qed.

Lemma okWith_reconcileOne own byKey now k h pend l :
  map_Forall (fun k s => set_Key s = k /\ settled s) byKey ->
  okWith own ((k, h) :: pend) l ->
  exists own', ownExt l own own' /\ okWith own' pend (reconcileOne byKey now l (k, h)).
Proof.
  intros Hby H. assert (Hc : 0 <= hold_cost h).
  { pose proof (ok_pend _ _ _ H) as Hp. inversion_clear Hp as [|? ? (_ & Hc & _) _]. simpl in Hc. lia. }
  apply (okWith_take _ _ _ _ _ (settleBucket (hold_cost h))) in H; [|done].
  assert (Hdom : forall b, is_Some (lg_heap l !! b) -> is_Some (lg_heap (onHeld h (settleBucket (hold_cost h)) l) !! b)).
  { intros b Hb. unfold onHeld. destruct (hold_bucket h); [by apply lookup_alter_is_Some|done]. }
  unfold reconcileOne. destruct (byKey !! k) as [s|] eqn:Es.
  - destruct (Hby k s Es) as [_ [Ha Ho]]. destruct (set_Observation s) as [o|] eqn:Eo.
    + destruct (Ho o eq_refl) as [Ho1 Ho2]. cbv zeta. destruct (expired _ _).
      * exists own. split; [done|]. by apply okWith_deleteBucket.
      * destruct (okWith_putObservation own pend _ k (normaliseQuotaObservation o now) (normalise_obsOK o now Ho1 Ho2) H)
          as (own' & He & Hok). exists own'. split; [|done]. intros b Hb. auto.
    + exists own. split; [done|]. by apply okWith_charge.
  - exists own. split; [done|]. by apply okWith_charge.
Qed.

Lemma okWith_reconcileFold byKey now hl : forall own l,
  map_Forall (fun k s => set_Key s = k /\ settled s) byKey ->
  okWith own hl l -> exists own', okWith own' [] (fold_left (reconcileOne byKey now) hl l).
Proof.
  induction hl as [|[k h] hl IH]; intros own l Hby H; [by exists own|]. simpl.
  destruct (okWith_reconcileOne own byKey now k h hl l Hby H) as (own' & _ & H'). eauto.
Qed.

Lemma Reconcile_ok own t ss now l :
  Forall settlementOK ss -> okWith own [] l -> exists own', okWith own' [] (Reconcile t ss now l).1.
Proof.
  intros Hss H. unfold Reconcile. destruct (negb _); [eauto|].
  destruct (settlementsByKey ∅ ss) as [byKey|] eqn:Eb; [|eauto].
  apply settlementsByKey_ok in Eb; [|done|apply map_Forall_empty].
  apply (okWith_purge _ _ _ now) in H. cbv zeta.
  destruct (lg_tickets (purgeExpiredLocked now l) !! tk_id t) as [holds|] eqn:E; [|eauto].
  destruct (forallb _ _); [|eauto]. simpl. eapply okWith_reconcileFold; [done|]. exact (okWith_consume _ _ _ _ H E).
Qed.

Lemma Observe_ok own key o now l :
  obs_Limit o <= max_int64 -> okWith own [] l -> exists own', okWith own' [] (Observe key o now l).1.
Proof.
  intros Hl H. unfold Observe. destruct (negb (validQuotaKey key) || (obs_Limit o <? 0) || (obs_Remaining o <? 0)) eqn:E; [eauto|].
  zbool. apply (okWith_purge _ _ _ now) in H. cbv zeta.
  destruct (expired _ now); simpl; [exists own; by apply okWith_deleteBucket|].
  edestruct (okWith_putObservation own [] (purgeExpiredLocked now l) key) as (own' & _ & Hok); [|exact H|eauto].
  apply (normalise_obsOK o now); lia.
Qed.

(** The exported methods that change the ledger. *)
Inductive ledgerOp :=
| LObserve (key : QuotaBucketKey) (o : QuotaObservation) (now : Z)
| LSnapshot (key : QuotaBucketKey) (now : Z)
| LKeys (now : Z)
| LReserveAll (rs : list QuotaReservation) (now : Z)
| LRelease (t : QuotaTicket) (now : Z)
| LReconcile (t : QuotaTicket) (ss : list QuotaSettlement) (now : Z).

Definition runLedgerOp (l : QuotaLedger) (op : ledgerOp) : QuotaLedger :=
  match op with
  | LObserve key o now => (Observe key o now l).1
  | LSnapshot key now => (Snapshot key now l).1
  | LKeys now => (Keys now l).1
  | LReserveAll rs now => (ReserveAll rs now l).1
  | LRelease t now => (Release t now l).1
  | LReconcile t ss now => (Reconcile t ss now l).1
  end.

(** The arguments are [int64] values. *)
Definition opInt64 (op : ledgerOp) : Prop :=
  match op with
  | LObserve _ o _ => obs_Limit o <= max_int64
  | LReserveAll rs _ => Forall (fun r => res_Cost r <= max_int64) rs
  | LReconcile _ ss _ => Forall settlementOK ss
  | _ => True
  end.

Lemma runLedgerOp_ok l op : opInt64 op -> ledgerOK l -> ledgerOK (runLedgerOp l op).
Proof.
  intros Hop [own H]. destruct op as [key o now|key now|now|rs now|t now|t ss now]; simpl in *.
  - by apply (Observe_ok own).
  - exists own. unfold Snapshot. apply (okWith_purge _ _ _ now) in H. cbv zeta.
    destruct (bucketAt _ key); [|done]. destruct (staleMinute _ _ _); [by apply okWith_deleteBucket|done].
  - exists own. by apply okWith_purge.
  - exists own. by apply okWith_ReserveAll.
  - exists own. by apply okWith_Release.
  - by apply (Reconcile_ok own).
Qed.

Lemma new_ledgerOK id : ledgerOK (NewQuotaLedger id).
Proof.
  exists (fun _ => mkKey "" "" "" "" ""). constructor; simpl.
  - intros k b Hk. by rewrite lookup_empty in Hk.
  - intros k b Hk. by rewrite lookup_empty in Hk.
  - intros b [? Hb]. by rewrite lookup_empty in Hb.
  - intros i hs k h Hi. by rewrite lookup_empty in Hi.
  - constructor.
  - intros b bk Hb. by rewrite lookup_empty in Hb.
  - intros b bk Hb. by rewrite lookup_empty in Hb.
  - intros i [? Hi]. by rewrite lookup_empty in Hi.
  - done.
Qed.

Lemma runLedgerOps_ok ops : forall l, Forall opInt64 ops -> ledgerOK l -> ledgerOK (fold_left runLedgerOp ops l).
Proof.
  induction ops as [|op ops IH]; intros l Hops H; [done|]. inversion_clear Hops. simpl.
  apply IH; [done|]. by apply runLedgerOp_ok.
Qed.

(** C2: conservation.  After any sequence of calls on a new ledger, what is
    reserved in a bucket object, live or replaced by a reset, is exactly the
    sum of the holds of the outstanding tickets on it: nothing leaks and
    nothing is returned twice.  The counter neither goes negative nor
    overflows, and an observed remaining stays between 0 and the limit. *)
Theorem reserved_is_sum_of_holds ops id b bk :
  Forall opInt64 ops ->
  let l := fold_left runLedgerOp ops (NewQuotaLedger id) in
  lg_heap l !! b = Some bk ->
  bk_reserved bk = totalHeld b (lg_tickets l) /\
  0 <= bk_reserved bk <= max_int64 /\
  0 <= obs_Remaining (bk_observation bk) <= obs_Limit (bk_observation bk).
Proof.
  intros Hops. cbv zeta. intros Hb.
  destruct (runLedgerOps_ok ops _ Hops (new_ledgerOK id)) as [own H].
  pose proof (totalHeld_nonneg _ _ _ b H). destruct (ok_reserved _ _ _ H b bk Hb) as [Hr Hm]. simpl in Hr.
  destruct (ok_obs _ _ _ H b bk Hb). lia.
Qed.

(** Aggregation is exact and overflow is refused.  The reservations of a
    request are accepted exactly when every key is complete, no cost is
    negative and no key's total exceeds [int64]; then each key is asked for
    exactly the sum of its costs, and keys whose costs are all zero for
    nothing. *)
Theorem aggregate_exact rs :
  Forall (fun r => res_Cost r <= max_int64) rs ->
  (is_Some (aggregateReservations rs) <->
     Forall validReservation rs /\ forall k, costFor k rs <= max_int64) /\
  (forall amounts, aggregateReservations rs = Some amounts ->
     forall k, amounts !! k = if decide (costFor k rs = 0) then None else Some (costFor k rs)).
Proof.
  intros Hrs. pose proof (aggregateFrom_spec rs ∅ Hrs (map_Forall_empty _)) as H.
  unfold aggregateReservations. destruct (aggregateFrom ∅ rs) as [amounts|].
  - destruct H as (H1 & H2 & H3). split.
    + split; [|eauto]. intros _. split; [done|]. intros k. specialize (H3 k). rewrite lookup_empty in H3. simpl in H3.
      pose proof (amounts_nonneg amounts k H2). lia.
    + intros ? [= <-] k. specialize (H3 k). rewrite lookup_empty in H3. simpl in H3. rewrite Z.add_0_l in H3. rewrite <- H3.
      destruct (amounts !! k) as [c|] eqn:E; simpl; [|done]. apply H2 in E. rewrite decide_False; [done|lia].
  - split; [|done]. split; [by intros [? ?]|]. intros [Hv Hk]. exfalso.
    destruct H as [?|[k Hx]]; [done|]. rewrite lookup_empty in Hx. simpl in Hx. specialize (Hk k). lia.
Qed.

(** ** Lemmas: the effect of a reservation, pointwise *)

Lemma reserveFold_other buckets kcs : forall heap b,
  (forall k, k ∈ kcs.*1 -> buckets !! k <> Some b) -> fold_left (reserveOne buckets) kcs heap !! b = heap !! b.
Proof.
  induction kcs as [|kc kcs IH]; intros heap b Hb; [done|]. simpl. rewrite IH.
  - unfold reserveOne. destruct (buckets !! kc.1) as [b0|] eqn:E; [|done].
    rewrite lookup_alter_ne; [done|]. intros ->. by apply (Hb kc.1); [left|].
  - intros k Hk. apply Hb. by right.
Qed.

Lemma reserveFold_at buckets (own : nat -> QuotaBucketKey) kcs : forall heap k b c,
  (forall k b, buckets !! k = Some b -> own b = k) -> NoDup kcs.*1 ->
  buckets !! k = Some b -> (k, c) ∈ kcs ->
  fold_left (reserveOne buckets) kcs heap !! b = addReserved c <$> heap !! b.
Proof.
  induction kcs as [|kc kcs IH]; intros heap k b c Hown Hnd Hk Hin; [by apply elem_of_nil in Hin|].
  apply NoDup_cons in Hnd as [Hnot Hnd]. simpl. apply elem_of_cons in Hin as [<-|Hin].
  - rewrite reserveFold_other.
    + unfold reserveOne. simpl. by rewrite Hk, lookup_alter_eq.
    + intros k' Hk' Hb. apply Hnot. simpl. apply Hown in Hk, Hb. by rewrite <- Hk, Hb.
  - rewrite (IH _ k b c) by done. unfold reserveOne. destruct (buckets !! kc.1) as [b0|] eqn:E; [|done].
    rewrite lookup_alter_ne; [done|]. intros ->. apply Hnot. apply Hown in Hk, E. rewrite <- E, Hk.
    by apply (list_elem_of_fmap_2 fst _ (k, c)).
Qed.

(** The bucket of a key after the reservation loop. *)
Lemma reserved_bucketAt own l amounts k :
  okWith own [] l -> amountsOK amounts -> forallb (fun '(k, c) => fits l k c) (map_to_list amounts) = true ->
  bucketAt (set_heap (fold_left (reserveOne (lg_buckets l)) (map_to_list amounts) (lg_heap l)) l) k =
  (fun bk => set_reserved (bk_reserved bk + default 0 (amounts !! k)) bk) <$> bucketAt l k.
Proof.
  intros H Ha Hf. unfold bucketAt. simpl. destruct (lg_buckets l !! k) as [b|] eqn:Ek; simpl; [|done].
  destruct (lg_heap l !! b) as [bk|] eqn:Eb.
  - destruct (amounts !! k) as [c|] eqn:Ec; simpl.
    + rewrite (reserveFold_at _ own _ _ k b c); [|apply H|apply NoDup_fst_map_to_list|done|by apply elem_of_map_to_list].
      rewrite Eb. simpl. unfold addReserved. rewrite forallb_forall in Hf.
      assert (Hr : roomFor l (k, c)).
      { eapply fits_room; [done|by apply (Ha k)|]. apply (Hf (k, c)), list_elem_of_In, elem_of_map_to_list, Ec. }
      destruct Hr as [Hc Hr]. specialize (Hr b bk Ek Eb). simpl in Hc, Hr.
      destruct (ok_reserved _ _ _ H b bk Eb) as [Hres _]. pose proof (totalHeld_nonneg _ _ _ b H). simpl in Hres.
      rewrite wrap64_id; [done|]. unfold in_int64, min_int64, two63. lia.
    + rewrite reserveFold_other; [rewrite Eb; simpl; rewrite Z.add_0_r; by destruct bk|].
      intros k' Hk' Hb. apply (ok_own _ _ _ H) in Hb, Ek. rewrite <- Hb, Ek in Hk'.
      apply list_elem_of_fmap in Hk' as ([k1 c] & -> & Hin). apply elem_of_map_to_list in Hin. simpl in *. congruence.
  - destruct (ok_live _ _ _ H k b Ek) as [? ?]. congruence.
Qed.

Lemma makeHolds_lookup l amounts k :
  makeHolds l amounts !! k = (fun c => mkHold k c (lg_buckets l !! k)) <$> amounts !! k.
Proof. unfold makeHolds. rewrite map_lookup_imap. by destruct (amounts !! k). Qed.

(** C26: a reservation takes everything or nothing.  When it succeeds, the
    ticket is new and owns exactly the aggregated cost of every key, and each
    known bucket counts exactly that much more.  It succeeds only if each
    known bucket had room for its cost, or is an unconfirmed estimate with no
    reservation in flight and no settled probe: a confirmed quota is never
    over-committed and an estimate by one bootstrap probe at most.  When it
    fails, nothing is counted anywhere and no ticket is issued. *)
Theorem reserve_all_or_nothing rs now l :
  ledgerOK l -> Forall (fun r => res_Cost r <= max_int64) rs ->
  match ReserveAll rs now l with
  | (l', Some t) =>
      exists amounts, aggregateReservations rs = Some amounts /\
      owns l' t = true /\ lg_tickets l !! tk_id t = None /\
      lg_tickets l' = <[tk_id t := makeHolds (purgeExpiredLocked now l) amounts]> (lg_tickets l) /\
      (forall k, hold_cost <$> makeHolds (purgeExpiredLocked now l) amounts !! k = amounts !! k) /\
      forall k, bucketAt l' k =
        (fun bk => set_reserved (bk_reserved bk + default 0 (amounts !! k)) bk) <$> bucketAt (purgeExpiredLocked now l) k /\
        (forall bk, bucketAt l' k = Some bk -> is_Some (amounts !! k) ->
           bk_reserved bk <= obs_Remaining (bk_observation bk) \/
           (obs_Confidence (bk_observation bk) = QuotaConfidenceEstimated /\
            bk_probeSettled bk = false /\ Some (bk_reserved bk) = amounts !! k))
  | (l', None) => lg_heap l' = lg_heap l /\ lg_tickets l' = lg_tickets l /\ lg_buckets l' ⊆ lg_buckets l
  end.
Proof.
  intros [own H] Hrs. unfold ReserveAll. destruct (aggregateReservations rs) as [amounts|] eqn:Ea; [|done].
  assert (Hsub : lg_buckets (purgeExpiredLocked now l) ⊆ lg_buckets l) by apply map_filter_subseteq.
  apply (okWith_purge _ _ _ now) in H. cbv zeta. destruct (forallb _ _) eqn:Ef; [|done].
  apply aggregate_amountsOK in Ea as Ham; [|done].
  destruct (newTicketIDLocked _) as [id|] eqn:Ei; [|done].
  apply newTicketIDFrom_Some in Ei as [Hid Hn]. exists amounts. simpl in Hn.
  split_and!; [done| |done|done| |].
  - unfold owns. simpl. rewrite bool_decide_eq_true_2 by done. simpl. apply negb_true_iff, Z.eqb_neq. simpl. lia.
  - intros k. rewrite makeHolds_lookup. by destruct (amounts !! k).
  - intros k. pose proof (reserved_bucketAt own _ amounts k H Ham Ef) as Hat.
    change (bucketAt (set_tickets _ _) k) with
      (bucketAt (set_heap (fold_left (reserveOne (lg_buckets (purgeExpiredLocked now l))) (map_to_list amounts)
        (lg_heap (purgeExpiredLocked now l))) (purgeExpiredLocked now l)) k).
    split; [exact Hat|]. intros bk Hbk [c Hc]. rewrite Hat in Hbk. apply fmap_Some in Hbk as (bk0 & E0 & ->).
    rewrite forallb_forall in Ef.
    specialize (Ef (k, c) (proj1 (list_elem_of_In _ _) (proj2 (elem_of_map_to_list _ _ _) Hc))). simpl in Ef.
    unfold fits in Ef. rewrite E0 in Ef. rewrite Hc. simpl.
    unfold bucketAt in E0. apply bind_Some in E0 as (b & Eb & E0).
    destruct (ok_reserved _ _ _ H b bk0 E0) as [Hr Hm]. pose proof (totalHeld_nonneg _ _ _ b H) as Ht. simpl in Hr, Ht.
    destruct (ok_obs _ _ _ H b bk0 E0). rewrite wrap64_sub_nonneg in Ef by (unfold nat_int64; lia).
    destruct (Z.leb_spec c (obs_Remaining (bk_observation bk0) - bk_reserved bk0)); [left; lia|].
    right. zbool. unfold str_eq in *. split_and!; [by eapply bool_decide_eq_true_1|done|f_equal; lia].
Qed.

(** The search for a ticket id ends: with fewer than 2^64 - 2 tickets
    outstanding it returns after at most two more rounds than there are
    tickets, and the id is nonzero, within [uint64] and unused, also across
    the wrap-around of the counter. *)
Theorem ticket_id_terminates_fresh l :
  Z.of_nat (size (lg_tickets l)) + 2 <= two64 ->
  exists id, newTicketIDLocked l = Some id /\ 0 < id < two64 /\ lg_tickets l !! id = None.
Proof.
  intros H. destruct (newTicketID_total l H) as [id Hid]. exists id. split; [done|].
  by apply newTicketIDFrom_Some in Hid.
Qed.

(** ** Lemmas: what a release leaves alone *)

(** Everything about a bucket but its counter. *)
Definition unreserved (b : quotaBucket) : quotaBucket := set_reserved 0 b.

Lemma unreserved_eq b r : unreserved (set_reserved r b) = unreserved b.
Proof. done. Qed.

Lemma bucket_eq a b : unreserved a = unreserved b -> bk_reserved a = bk_reserved b -> a = b.
Proof. destruct a, b. unfold unreserved, set_reserved. simpl. congruence. Qed.

Lemma alter_unreserved (f : quotaBucket -> quotaBucket) b c (heap : gmap nat quotaBucket) :
  (forall bk, unreserved (f bk) = unreserved bk) ->
  unreserved <$> alter f b heap !! c = unreserved <$> heap !! c.
Proof.
  intros Hf. destruct (decide (b = c)) as [->|Hne]; [|by rewrite lookup_alter_ne].
  rewrite lookup_alter_eq. destruct (heap !! c); simpl; by rewrite ?Hf.
Qed.

Lemma releaseFold_unreserved hl : forall heap c,
  unreserved <$> fold_left releaseOne hl heap !! c = unreserved <$> heap !! c.
Proof.
  induction hl as [|kh hl IH]; intros heap c; [done|]. simpl. rewrite IH. unfold releaseOne.
  destruct (hold_bucket kh.2); [by apply alter_unreserved|done].
Qed.

Lemma reserveFold_unreserved buckets kcs : forall heap c,
  unreserved <$> fold_left (reserveOne buckets) kcs heap !! c = unreserved <$> heap !! c.
Proof.
  induction kcs as [|kc kcs IH]; intros heap c; [done|]. simpl. rewrite IH. unfold reserveOne.
  destruct (buckets !! kc.1); [by apply alter_unreserved|done].
Qed.

Lemma Release_live t now l holds :
  owns l t = true -> lg_tickets l !! tk_id t = Some holds ->
  Release t now l = (releaseHoldsLocked holds (set_tickets (delete (tk_id t) (lg_tickets l)) (purgeExpiredLocked now l)), true).
Proof. intros Ho Ht. unfold Release, consumeTicketLocked. rewrite Ho. simpl. by rewrite Ht. Qed.

Lemma Release_dead t now l :
  owns l t = true -> lg_tickets l !! tk_id t = None -> Release t now l = (purgeExpiredLocked now l, false).
Proof. intros Ho Ht. unfold Release, consumeTicketLocked. rewrite Ho. simpl. by rewrite Ht. Qed.

Lemma Reconcile_dead t ss now l :
  lg_tickets l !! tk_id t = None -> (Reconcile t ss now l).2 = false /\ lg_heap (Reconcile t ss now l).1 = lg_heap l.
Proof.
  intros Ht. unfold Reconcile. destruct (negb _); [done|]. destruct (settlementsByKey ∅ ss); [|done].
  simpl. by rewrite Ht.
Qed.

(** A ticket is good exactly once and only for the ledger that issued it.
    Releasing an outstanding ticket returns to each bucket object exactly what
    the ticket held there and changes nothing else in any bucket; afterwards
    neither a release nor a reconciliation of the ticket does anything, and a
    zero or foreign ticket leaves the ledger as it is. *)
Theorem release_exactly_once t now l :
  ledgerOK l ->
  (owns l t = false -> Release t now l = (l, false)) /\
  (forall holds, owns l t = true -> lg_tickets l !! tk_id t = Some holds ->
   exists l', Release t now l = (l', true) /\
     lg_tickets l' = delete (tk_id t) (lg_tickets l) /\
     (forall b bk, lg_heap l !! b = Some bk ->
        lg_heap l' !! b = Some (set_reserved (bk_reserved bk - heldBy b holds) bk)) /\
     forall now' ss, Release t now' l' = (purgeExpiredLocked now' l', false) /\
       (Reconcile t ss now' l').2 = false /\ lg_heap (Reconcile t ss now' l').1 = lg_heap l').
Proof.
  intros [own H]. split; [intros Ho; unfold Release; by rewrite Ho|]. intros holds Ho Ht.
  rewrite (Release_live t now l holds Ho Ht). eexists. split; [done|]. split; [done|]. split.
  - intros b bk Hb. pose proof (okWith_Release own t now l H) as H'. rewrite (Release_live t now l holds Ho Ht) in H'.
    simpl in H'. pose proof (releaseFold_unreserved (map_to_list holds) (lg_heap l) b) as Hu. rewrite Hb in Hu. simpl in Hu.
    apply fmap_Some in Hu as (bk' & Hb' & Hu). simpl. rewrite Hb'. f_equal. apply bucket_eq; [done|].
    destruct (ok_reserved _ _ _ H b bk Hb) as [Hr _]. destruct (ok_reserved _ _ _ H' b bk' Hb') as [Hr' _].
    simpl in Hr, Hr' |- *. rewrite (totalHeld_delete b _ _ _ Ht) in Hr. unfold heldBy. lia.
  - intros now' ss. set (l' := releaseHoldsLocked _ _).
    assert (Hn : lg_tickets l' !! tk_id t = None) by apply lookup_delete_eq.
    split; [by apply Release_dead|]. by apply Reconcile_dead.
Qed.

Lemma ReserveAll_shape rs now l l' t :
  ReserveAll rs now l = (l', Some t) ->
  exists amounts id, t = mkTicket (Some (lg_id l)) id /\ 0 < id < two64 /\ lg_tickets l !! id = None /\
    let lp := purgeExpiredLocked now l in
    l' = mkLedger (lg_id l) (fold_left (reserveOne (lg_buckets lp)) (map_to_list amounts) (lg_heap l)) (lg_next l)
           (lg_buckets lp) (<[id := makeHolds lp amounts]> (lg_tickets l)) id.
Proof.
  unfold ReserveAll. destruct (aggregateReservations rs) as [amounts|]; [|done]. cbv zeta.
  destruct (forallb _ _); [|done]. destruct (newTicketIDLocked _) as [id|] eqn:Ei; [|done].
  apply newTicketIDFrom_Some in Ei as [Hid Hn]. intros [= <- <-]. by exists amounts, id.
Qed.

(** Reserving and then releasing is the identity on the counters: every
    bucket object and every other ticket is as before, whatever the clock
    readings of the two calls. *)
Theorem reserve_release_roundtrip rs now now' l l' t :
  ledgerOK l -> Forall (fun r => res_Cost r <= max_int64) rs ->
  ReserveAll rs now l = (l', Some t) ->
  exists l'', Release t now' l' = (l'', true) /\ lg_heap l'' = lg_heap l /\ lg_tickets l'' = lg_tickets l.
Proof.
  intros [own H] Hrs Hres. pose proof (okWith_ReserveAll own rs now l Hrs H) as H1. rewrite Hres in H1. simpl in H1.
  apply ReserveAll_shape in Hres as (amounts & id & -> & Hid & Hn & Hl'). cbv zeta in Hl'.
  set (holds := makeHolds (purgeExpiredLocked now l) amounts) in *.
  assert (Ho : owns l' (mkTicket (Some (lg_id l)) id) = true).
  { subst l'. unfold owns. simpl. rewrite bool_decide_eq_true_2 by done. simpl. apply negb_true_iff, Z.eqb_neq. lia. }
  assert (Ht : lg_tickets l' !! id = Some holds) by (subst l'; apply lookup_insert_eq).
  pose proof (okWith_Release own (mkTicket (Some (lg_id l)) id) now' l' H1) as H2.
  rewrite (Release_live _ now' l' holds Ho Ht) in H2 |- *. simpl in H2.
  assert (Hdel : delete id (lg_tickets l') = lg_tickets l) by (subst l'; by apply delete_insert_id).
  eexists. split; [done|]. simpl. rewrite Hdel in H2 |- *. split; [|done]. apply map_eq. intros b.
  pose proof (releaseFold_unreserved (map_to_list holds) (lg_heap l') b) as Hu.
  assert (Hu' : unreserved <$> lg_heap l' !! b = unreserved <$> lg_heap l !! b)
    by (subst l'; apply reserveFold_unreserved).
  rewrite Hu' in Hu.
  destruct (fold_left releaseOne (map_to_list holds) (lg_heap l') !! b) as [bk'|] eqn:E1, (lg_heap l !! b) as [bk|] eqn:E2;
    simpl in Hu; try done.
  f_equal. apply bucket_eq; [congruence|]. destruct (ok_reserved _ _ _ H b bk E2) as [-> _].
  by destruct (ok_reserved _ _ _ H2 b bk' E1) as [-> _].
Qed.

(** ** Lemmas: the effect of a reconciliation, key by key *)

(** Between two ledgers nothing of key [k] changed: neither the object under
    the key nor any object made for it. *)
Definition sameKey (own : nat -> QuotaBucketKey) (k : QuotaBucketKey) (l l' : QuotaLedger) : Prop :=
  lg_buckets l' !! k = lg_buckets l !! k /\
  forall b, is_Some (lg_heap l !! b) -> own b = k -> lg_heap l' !! b = lg_heap l !! b.

Lemma onHeld_other own k k' h f l :
  (forall b, hold_bucket h = Some b -> own b = k') -> k <> k' -> sameKey own k l (onHeld h f l).
Proof.
  intros Hh Hne. unfold onHeld. destruct (hold_bucket h) as [b0|]; [|done]. split; [done|].
  intros b _ Hb. simpl. rewrite lookup_alter_ne; [done|]. intros ->. by rewrite (Hh b eq_refl) in Hb.
Qed.

Lemma putObservation_other own pend k k' o l :
  okWith own pend l -> k <> k' -> sameKey own k l (putObservation k' o l).
Proof.
  intros H Hne. unfold putObservation. destruct (lg_buckets l !! k') as [b0|] eqn:E; split; simpl; try done.
  - intros b _ Hb. rewrite lookup_alter_ne; [done|]. intros ->. apply (ok_own _ _ _ H) in E. congruence.
  - by rewrite lookup_insert_ne.
  - intros b Hs Hb. apply (ok_fresh _ _ _ H) in Hs. rewrite lookup_insert_ne; [done|lia].
Qed.

Lemma sameKey_trans own k l l' l'' : sameKey own k l l' -> sameKey own k l' l'' -> sameKey own k l l''.
Proof.
  intros [H1 H2] [H3 H4]. split; [congruence|]. intros b Hs Hb. rewrite <- (H2 b Hs Hb). apply H4; [|done].
  by rewrite (H2 b Hs Hb).
Qed.

Lemma reconcileOne_other own byKey now k' h' pend l k :
  okWith own ((k', h') :: pend) l -> k <> k' -> sameKey own k l (reconcileOne byKey now l (k', h')).
Proof.
  intros H Hne. assert (Hh : forall b, hold_bucket h' = Some b -> own b = k').
  { pose proof (ok_pend _ _ _ H) as Hp. inversion_clear Hp as [|? ? (_ & _ & Hh) _]. intros b Hb. by apply Hh. }
  pose proof (onHeld_other own k k' h' (settleBucket (hold_cost h')) l Hh Hne) as H1.
  apply (okWith_take _ _ _ _ _ (settleBucket (hold_cost h'))) in H; [|done].
  unfold reconcileOne. eapply sameKey_trans; [exact H1|].
  destruct (byKey !! k') as [s|]; [destruct (set_Observation s)|]; cbv zeta;
    eauto using onHeld_other, putObservation_other.
  destruct (expired _ _); [|eauto using putObservation_other].
  split; [|done]. simpl. by rewrite lookup_delete_ne.
Qed.

(** The settlement of key [k], from [l] to [l']. *)
Definition settledAt (byKey : gmap QuotaBucketKey QuotaSettlement) (now : Z) (l l' : QuotaLedger) (k : QuotaBucketKey) (h : quotaHold) : Prop :=
  (forall b bk, hold_bucket h = Some b -> lg_heap l !! b = Some bk ->
     exists bk', lg_heap l' !! b = Some bk' /\ bk_reserved bk' = bk_reserved bk - hold_cost h /\ bk_probeSettled bk' = true /\
       ((byKey !! k) ≫= set_Observation = None ->
        let o := bk_observation bk in
        bk_observation bk' =
          set_Remaining (Z.max 0 (obs_Remaining o - default (hold_cost h) (set_Actual <$> byKey !! k))) o)) /\
  (forall o, (byKey !! k) ≫= set_Observation = Some o ->
     bk_observation <$> bucketAt l' k =
       let o := normaliseQuotaObservation o now in if expired o now then None else Some o).

Lemma onHeld_at h f l b bk :
  hold_bucket h = Some b -> lg_heap l !! b = Some bk -> lg_heap (onHeld h f l) !! b = Some (f bk).
Proof. intros Hh Hb. unfold onHeld. rewrite Hh. simpl. by rewrite lookup_alter_eq, Hb. Qed.

Lemma putObservation_at k o l :
  (forall b, lg_buckets l !! k = Some b -> is_Some (lg_heap l !! b)) ->
  bk_observation <$> bucketAt (putObservation k o l) k = Some o.
Proof.
  intros Hl. unfold putObservation, bucketAt. destruct (lg_buckets l !! k) as [b|] eqn:E; simpl.
  - rewrite E. simpl. destruct (Hl b eq_refl) as [bk Hb]. by rewrite lookup_alter_eq, Hb.
  - rewrite lookup_insert_eq. simpl. by rewrite lookup_insert_eq.
Qed.

Lemma putObservation_heap k o l b bk :
  lg_heap l !! b = Some bk -> (b < lg_next l)%nat ->
  exists o', lg_heap (putObservation k o l) !! b = Some (set_observation o' bk).
Proof.
  intros Hb Hlt. unfold putObservation. destruct (lg_buckets l !! k) as [b0|]; simpl.
  - destruct (decide (b0 = b)) as [->|]; [rewrite lookup_alter_eq, Hb; eauto|].
    rewrite lookup_alter_ne by done. exists (bk_observation bk). rewrite Hb. by destruct bk.
  - rewrite lookup_insert_ne by lia. exists (bk_observation bk). rewrite Hb. by destruct bk.
Qed.

Lemma reconcileOne_self own byKey now k h pend l :
  map_Forall (fun k s => set_Key s = k /\ settled s) byKey ->
  okWith own ((k, h) :: pend) l -> settledAt byKey now l (reconcileOne byKey now l (k, h)) k h.
Proof.
  intros Hby H. pose proof (fun b bk Hh Hb => pend_covered own k h pend l b bk H Hb Hh) as Hcov.
  pose proof (ok_obs _ _ _ H) as Hobs.
  assert (Hc : 0 <= hold_cost h).
  { pose proof (ok_pend _ _ _ H) as Hp. inversion_clear Hp as [|? ? (_ & Hc & _) _]. simpl in Hc. lia. }
  apply (okWith_take _ _ _ _ _ (settleBucket (hold_cost h))) in H; [|done].
  set (l1 := onHeld h (settleBucket (hold_cost h)) l) in *.
  assert (Hat : forall b bk, hold_bucket h = Some b -> lg_heap l !! b = Some bk ->
            lg_heap l1 !! b = Some (settleBucket (hold_cost h) bk)) by (intros; by apply onHeld_at).
  assert (Hcharge : forall actual, 0 <= actual -> forall b bk, hold_bucket h = Some b -> lg_heap l !! b = Some bk ->
    exists bk', lg_heap (onHeld h (chargeActual actual) l1) !! b = Some bk' /\
      bk_reserved bk' = bk_reserved bk - hold_cost h /\ bk_probeSettled bk' = true /\
      bk_observation bk' = set_Remaining (Z.max 0 (obs_Remaining (bk_observation bk) - actual)) (bk_observation bk)).
  { intros actual Ha b bk Hh Hb. eexists. split; [apply onHeld_at; eauto|]. simpl.
    destruct (Hcov b bk Hh Hb) as [_ ->]. destruct (Hobs b bk Hb) as [? ?]. split_and!; [done|done|].
    rewrite minInt64_min, wrap64_id by (unfold in_int64, min_int64, max_int64, two63 in *; lia). f_equal. lia. }
  unfold settledAt, reconcileOne. fold l1. destruct (byKey !! k) as [s|] eqn:Es; simpl.
  - destruct (Hby k s Es) as [_ [Ha _]]. destruct (set_Observation s) as [o|]; simpl.
    + split.
      * intros b bk Hh Hb. specialize (Hat b bk Hh Hb). destruct (Hcov b bk Hh Hb) as [_ Hsub].
        destruct (expired _ _); [eexists; split_and!; [exact Hat|done|done|done]|].
        assert (Hlt : (b < lg_next l1)%nat) by (apply (ok_fresh _ _ _ H); eauto).
        destruct (putObservation_heap k (normaliseQuotaObservation o now) l1 b _ Hat Hlt) as [o' Hp].
        eexists; split_and!; [exact Hp|done|done|done].
      * intros ? [= <-]. destruct (expired _ _).
        -- unfold bucketAt. simpl. by rewrite lookup_delete_eq.
        -- apply putObservation_at. apply H.
    + split; [|done]. intros b bk Hh Hb. destruct (Hcharge (set_Actual s) Ha b bk Hh Hb) as (bk' & ? & ? & ? & ?). eauto 10.
  - split; [|done]. intros b bk Hh Hb. destruct (Hcharge (hold_cost h) Hc b bk Hh Hb) as (bk' & ? & ? & ? & ?). eauto 10.
Qed.

Lemma reconcileFold_other byKey now hl : forall own l k,
  map_Forall (fun k s => set_Key s = k /\ settled s) byKey ->
  okWith own hl l -> k ∉ hl.*1 -> sameKey own k l (fold_left (reconcileOne byKey now) hl l).
Proof.
  induction hl as [|[k' h'] hl IH]; intros own l k Hby H Hk; [done|].
  cbn in Hk. apply not_elem_of_cons in Hk as [Hne Hk]. simpl.
  pose proof (reconcileOne_other own byKey now k' h' hl l k H Hne) as [H1 H2].
  destruct (okWith_reconcileOne own byKey now k' h' hl l Hby H) as (own' & He & H').
  destruct (IH own' _ k Hby H' Hk) as [H3 H4]. split; [exact (eq_trans H3 H1)|].
  intros b Hs Hb. rewrite <- (H2 b Hs Hb). apply H4; [by rewrite (H2 b Hs Hb)|]. by rewrite He.
Qed.

Lemma settledAt_later own byKey now l l1 l2 k h :
  (forall b, hold_bucket h = Some b -> own b = k) ->
  (forall k b, lg_buckets l1 !! k = Some b -> own b = k /\ is_Some (lg_heap l1 !! b)) ->
  settledAt byKey now l l1 k h -> sameKey own k l1 l2 -> settledAt byKey now l l2 k h.
Proof.
  intros Hown Hl [H1 H2] [H3 H4]. split.
  - intros b bk Hh Hb. destruct (H1 b bk Hh Hb) as (bk' & Hb' & Hrest). exists bk'. split; [|done].
    rewrite H4; eauto.
  - intros o Ho. rewrite <- (H2 o Ho). unfold bucketAt. rewrite H3.
    destruct (lg_buckets l1 !! k) as [b|] eqn:E; simpl; [|done]. destruct (Hl k b E). by rewrite H4.
Qed.

Lemma reconcileFold_settles byKey now hl : forall own l k h,
  map_Forall (fun k s => set_Key s = k /\ settled s) byKey ->
  okWith own hl l -> NoDup hl.*1 -> (k, h) ∈ hl -> settledAt byKey now l (fold_left (reconcileOne byKey now) hl l) k h.
Proof.
  induction hl as [|[k' h'] hl IH]; intros own l k h Hby H Hnd Hin; [by apply elem_of_nil in Hin|].
  cbn in Hnd. apply NoDup_cons in Hnd as [Hk' Hnd]. simpl.
  destruct (okWith_reconcileOne own byKey now k' h' hl l Hby H) as (own' & He & H').
  pose proof (ok_pend _ _ _ H) as Hp. rewrite Forall_forall in Hp. pose proof (Hp (k, h) Hin) as (_ & _ & Hh).
  apply elem_of_cons in Hin as [[= -> ->]|Hin].
  - eapply (settledAt_later own'); [| |by eapply reconcileOne_self|by apply reconcileFold_other].
    + intros b Hb. simpl in Hh. destruct (Hh b Hb). by rewrite He.
    + intros k b Hb. split; [by apply H'|by eapply ok_live].
  - assert (Hne : k <> k') by (intros ->; apply Hk'; by apply (list_elem_of_fmap_2 fst _ (k', h))).
    destruct (reconcileOne_other own byKey now k' h' hl l k H Hne) as [_ Hsame].
    destruct (IH own' _ k h Hby H' Hnd Hin) as [H1 H2]. split; [|done].
    intros b bk Hb Hbk. apply H1; [done|]. simpl in Hh. destruct (Hh b Hb) as [Hs Ho]. by rewrite Hsame.
Qed.

(** Reconciling an outstanding ticket with settlements of dimensions it
    holds succeeds, consumes the ticket, and settles every dimension: the
    bucket object gets back exactly the held cost and its bootstrap probe is
    spent; a dimension with a provider observation takes it as it is (clamped
    to its limit), or loses its bucket if the reported reset has passed;
    otherwise the remaining quota falls by the actual cost, or by the estimate
    when the dimension is not mentioned, and never below zero. *)
Theorem reconcile_settles_every_hold t ss now l holds byKey :
  ledgerOK l -> Forall settlementOK ss -> owns l t = true -> lg_tickets l !! tk_id t = Some holds ->
  settlementsByKey ∅ ss = Some byKey -> dom byKey ⊆ dom holds ->
  exists l', Reconcile t ss now l = (l', true) /\
    (forall k h, holds !! k = Some h -> settledAt byKey now (purgeExpiredLocked now l) l' k h).
Proof.
  intros [own H] Hss Ho Ht Hb Hdom. unfold Reconcile. rewrite Ho, Hb. simpl. rewrite Ht.
  assert (Hheld : forallb (fun '(key, _) => bool_decide (is_Some (holds !! key))) (map_to_list byKey) = true).
  { apply forallb_forall. intros [k s] Hin. apply list_elem_of_In, elem_of_map_to_list in Hin.
    apply bool_decide_eq_true_2, elem_of_dom, Hdom, elem_of_dom. eauto. }
  rewrite Hheld. eexists. split; [done|]. intros k h Hk.
  apply settlementsByKey_ok in Hb; [|done|apply map_Forall_empty].
  apply (okWith_purge _ _ _ now) in H.
  pose proof (okWith_consume own (purgeExpiredLocked now l) (tk_id t) holds H Ht) as Hc.
  apply (reconcileFold_settles byKey now (map_to_list holds) own _ k h Hb Hc).
  - apply NoDup_fst_map_to_list.
  - by apply elem_of_map_to_list.
Qed.

(** ** Witnesses *)

Definition wit_key : QuotaBucketKey := mkKey "groq" "organization" "llama" QuotaDimensionRequests QuotaWindowMinute.
Definition wit_obs : QuotaObservation := mkObs 10 10 0 QuotaSourceProviderHeader QuotaConfidenceAuthoritative 5.
Definition wit_ops : list ledgerOp := [LObserve wit_key wit_obs 5; LReserveAll [mkReservation wit_key 4] 6].
Definition wit_ledger : QuotaLedger := fold_left runLedgerOp wit_ops (NewQuotaLedger 0).
Definition wit_ticket : QuotaTicket := mkTicket (Some 0%nat) 1.

Lemma wit_ops_int64 : Forall opInt64 wit_ops.
Proof. by repeat constructor. Qed.

Lemma wit_ledger_ok : ledgerOK wit_ledger.
Proof. apply runLedgerOps_ok; [exact wit_ops_int64|apply new_ledgerOK]. Qed.

Lemma reserved_is_sum_of_holds_witness :
  exists bk, lg_heap wit_ledger !! 0%nat = Some bk /\ bk_reserved bk = totalHeld 0 (lg_tickets wit_ledger) /\ bk_reserved bk = 4.
Proof.
  exists (mkBucket wit_obs 4 false). split; [reflexivity|].
  split; [|reflexivity]. apply (reserved_is_sum_of_holds wit_ops 0 0 (mkBucket wit_obs 4 false) wit_ops_int64). reflexivity.
Defined.

Lemma aggregate_exact_witness :
  aggregateReservations [mkReservation wit_key 4; mkReservation wit_key 3] ≫= lookup wit_key = Some 7 /\
  is_Some (aggregateReservations [mkReservation wit_key 4; mkReservation wit_key 3]).
Proof.
  split; [vm_compute; reflexivity|]. apply aggregate_exact; [by repeat constructor|]. split; [by repeat constructor|].
  intros k. simpl. by destruct (decide _).
Defined.

Lemma reserve_all_or_nothing_witness :
  (ReserveAll [mkReservation wit_key 7] 7 wit_ledger).2 = None /\
  lg_heap (ReserveAll [mkReservation wit_key 7] 7 wit_ledger).1 = lg_heap wit_ledger.
Proof.
  assert (E : (ReserveAll [mkReservation wit_key 7] 7 wit_ledger).2 = None) by (vm_compute; reflexivity).
  assert (Hc : Forall (fun r => res_Cost r <= max_int64) [mkReservation wit_key 7]) by (by repeat constructor).
  pose proof (reserve_all_or_nothing [mkReservation wit_key 7] 7 wit_ledger wit_ledger_ok Hc) as H.
  destruct (ReserveAll [mkReservation wit_key 7] 7 wit_ledger) as [l' o]. simpl in E. subst o. split; [reflexivity|apply H].
Defined.

Lemma ticket_id_terminates_fresh_witness :
  exists id, newTicketIDLocked (mkLedger 0 ∅ 0 ∅ {[1 := ∅]} (two64 - 1)) = Some id /\ id = 2.
Proof.
  destruct (ticket_id_terminates_fresh (mkLedger 0 ∅ 0 ∅ {[1 := ∅]} (two64 - 1))) as (id & Hid & _); [by vm_compute|].
  exists id. split; [exact Hid|]. vm_compute in Hid. congruence.
Defined.

Lemma release_exactly_once_witness :
  exists l', Release wit_ticket 8 wit_ledger = (l', true) /\ Release wit_ticket 9 l' = (purgeExpiredLocked 9 l', false).
Proof.
  destruct (release_exactly_once wit_ticket 8 wit_ledger wit_ledger_ok) as [_ H].
  destruct (H {[wit_key := mkHold wit_key 4 (Some 0%nat)]}) as (l' & H1 & _ & _ & H2); [reflexivity|reflexivity|].
  exists l'. split; [exact H1|]. apply (H2 9 []).
Defined.

Lemma reserve_release_roundtrip_witness :
  exists l'', Release (mkTicket (Some 0%nat) 2) 9 (ReserveAll [mkReservation wit_key 2] 7 wit_ledger).1 = (l'', true) /\
    lg_heap l'' = lg_heap wit_ledger.
Proof.
  assert (E : (ReserveAll [mkReservation wit_key 2] 7 wit_ledger).2 = Some (mkTicket (Some 0%nat) 2))
    by (vm_compute; reflexivity).
  destruct (reserve_release_roundtrip [mkReservation wit_key 2] 7 9 wit_ledger
              (ReserveAll [mkReservation wit_key 2] 7 wit_ledger).1 (mkTicket (Some 0%nat) 2) wit_ledger_ok)
    as (l'' & H1 & H2 & _).
  - by repeat constructor.
  - rewrite <- E. exact (surjective_pairing (ReserveAll [mkReservation wit_key 2] 7 wit_ledger)).
  - exists l''. split; [exact H1|exact H2].
Defined.

Lemma reconcile_settles_every_hold_witness :
  exists l' bk, Reconcile wit_ticket [mkSettlement wit_key 3 None] 8 wit_ledger = (l', true) /\
    lg_heap l' !! 0%nat = Some bk /\ bk_reserved bk = 0 /\ obs_Remaining (bk_observation bk) = 7.
Proof.
  destruct (reconcile_settles_every_hold wit_ticket [mkSettlement wit_key 3 None] 8 wit_ledger
              {[wit_key := mkHold wit_key 4 (Some 0%nat)]} {[wit_key := mkSettlement wit_key 3 None]} wit_ledger_ok)
    as (l' & H1 & H2).
  - constructor; [|constructor]. intros o Ho. discriminate Ho.
  - reflexivity.
  - reflexivity.
  - reflexivity.
  - by rewrite !dom_singleton.
  - destruct (H2 wit_key _ (lookup_singleton_eq _ _)) as [H3 _].
    destruct (H3 0%nat (mkBucket wit_obs 4 false) eq_refl eq_refl) as (bk & H4 & H5 & _ & H6).
    exists l', bk. split_and!; [exact H1|exact H4|exact H5|]. rewrite H6; reflexivity.
Defined.
