(* ===== verification/Registry.v ===== *)
(** * Registry: providers, credentials and upstream endpoints
    (router_provider_registry.go, router_targets.go)

    A credential is what the executor puts on an upstream request.  The
    request context carries the HTTP layer's decision about locally configured
    keys; [AmbientProviderCredential] is the key store the command package
    injects, a function from provider names to a secret and a found flag. *)

From S2P Require Import Prelude Env Types Float Split Breaker.
From Stdlib Require Import Lia ZArith String Ascii.
#[local] Open Scope string_scope.
#[local] Open Scope Z_scope.

(** ** Provider profiles *)

Definition supportedDirectProviders : list providerID :=
  [providerOpenRouter; providerCerebras; providerGroq; providerOllama].

(** One target of a profile, with the (provider, model) pairs seen so far in
    the same JSON list. *)
Definition addTarget (acc : list providerModelTarget * list string) (target : providerModelTarget) : list providerModelTarget * list string :=
  let '(out, seen) := acc in
  let target := mkTarget (ToLower (TrimSpace (tgt_Provider target))) (TrimSpace (tgt_Model target)) in
  if negb (existsb (str_eq (tgt_Provider target)) supportedDirectProviders) || empty_str (tgt_Model target) then (out, seen)
  else
    let key := tgt_Provider target +:+ nul +:+ tgt_Model target in
    if existsb (str_eq key) seen then (out, seen)
    else ((out ++ [target])%list, key :: seen).

(** The decoded [ProviderProfiles] object as the list of its entries in the
    order the loop visits them; a profile is added to [out] only with its
    first valid target. *)
Definition addProfile (out : gmap string (list providerModelTarget)) (entry : string * list providerModelTarget) : gmap string (list providerModelTarget) :=
  let profile := TrimSpace entry.1 in
  if empty_str profile then out
  else
    match (fold_left addTarget entry.2 ([], [])).1 with
    | [] => out
    | targets => <[profile := (default [] (out !! profile) ++ targets)%list]> out
    end.

(** [None] is a document that does not parse or has no [ProviderProfiles]. *)
Definition parseProviderProfiles (schema : option (list (string * list providerModelTarget))) : option (gmap string (list providerModelTarget)) :=
  match schema with Some entries => Some (fold_left addProfile entries ∅) | None => None end.

(** ** Credentials *)

Record reqContext := mkContext {
  cx_ambient : bool;
  cx_affinity : string;
}.

Record credentialStore := mkCredentials {
  cr_env : environ;
  cr_AmbientProviderCredential : option (string -> string * bool);
}.

Definition ambientProviderCredentialsAllowed (cx : reqContext) : bool := cx_ambient cx.

(** [None] is a nil service. *)
Definition credentialProvider (s : option RouterStatic) (attempt : modelAttempt) : providerID :=
  if negb (empty_str (Provider attempt)) then Provider attempt
  else match s with None => providerOpenRouter | Some svc => defaultPolicyProvider svc end.

Definition resolvedAmbientProviderCredential (s : option RouterStatic) (cr : credentialStore) (provider : providerID) : string :=
  match s, cr_AmbientProviderCredential cr with
  | Some _, Some lookupSecret =>
      let '(secret, ok) := lookupSecret provider in
      if negb ok || (Z.of_nat (String.length secret) =? 0) then "" else TrimSpace secret
  | _, _ => ""
  end.

(** The configured key of a direct provider: the environment wins. *)
Definition directKey (s : option RouterStatic) (cr : credentialStore) (provider : providerID) (variable : string) : string :=
  let key := envValue (cr_env cr) variable in
  if empty_str key then resolvedAmbientProviderCredential s cr provider else key.

Definition providerCredential (s : option RouterStatic) (cr : credentialStore) (cx : reqContext) (attempt : modelAttempt) (openRouterRequestKey : string) : string * bool :=
  let p := Provider attempt in
  let key :=
    if str_eq p providerCerebras then
      if ambientProviderCredentialsAllowed cx then directKey s cr p "CEREBRAS_API_KEY" else ""
    else if str_eq p providerGroq then
      if ambientProviderCredentialsAllowed cx then directKey s cr p "GROQ_API_KEY" else ""
    else if str_eq p providerOllama || str_eq p providerLocal then
      if ambientProviderCredentialsAllowed cx then "local" else ""
    else if str_eq (credentialProvider s attempt) providerOpenRouter then TrimSpace openRouterRequestKey
    else "" in
  (key, negb (empty_str key)).

Definition chatCompletionsPath : string := "/v1/chat/completions".
Definition messagesPath : string := "/v1/messages".

Definition filterConfiguredAttempts (s : option RouterStatic) (cr : credentialStore) (cx : reqContext) (attempts : list modelAttempt) (openRouterRequestKey opPath : string) : list modelAttempt :=
  List.filter (fun attempt =>
    if str_eq opPath messagesPath && (str_eq (Provider attempt) providerCerebras || str_eq (Provider attempt) providerGroq)
    then false
    else (providerCredential s cr cx attempt openRouterRequestKey).2) attempts.

(** ** Endpoints *)

Definition defaultAnthropicBaseURL : string := "https://api.anthropic.com".
Definition defaultOpenAIBaseURL : string := "https://api.openai.com".
Definition defaultOllamaBaseURL : string := "http://ollama:11434".
Definition defaultOpenRouterChatURL : string := "https://openrouter.ai/api/v1/chat/completions".
Definition defaultOpenRouterMessagesURL : string := "https://openrouter.ai/api/v1/messages".
Definition defaultCerebrasChatURL : string := "https://api.cerebras.ai/v1/chat/completions".
Definition defaultGroqChatURL : string := "https://api.groq.com/openai/v1/chat/completions".

(** [strings.Replace(s, old, new, 1)] for a non-empty [old]. *)
Definition Replace1 (s old new : string) : string :=
  match String.index 0 old s with
  | Some i => String.substring 0 i s +:+ new +:+
              String.substring (i + String.length old) (String.length s - (i + String.length old)) s
  | None => s
  end.

Definition openRouterMessagesURL (env : environ) : string :=
  let u := envValue env "PROXY_OPENROUTER_MESSAGES_URL" in
  if negb (empty_str u) then u
  else
    let chat := envValue env "PROXY_OPENROUTER_URL" in
    if empty_str chat then defaultOpenRouterMessagesURL
    else if Contains chat "/chat/completions" then Replace1 chat "/chat/completions" "/messages"
    else TrimRightSlash chat +:+ "/messages".

Definition targetURL (env : environ) (variable def : string) : string :=
  let v := envValue env variable in
  if negb (empty_str v) then v else def.

Record AttemptTarget := mkAttemptTarget { URL : string; Agentic : bool }.

Definition isAgenticProfile (profile : string) : bool :=
  existsb (str_eq profile) ["agent"; "agentic"; "plan"].

(** [DefaultAttemptTargetResolver.Resolve]. *)
Definition Resolve (env : environ) (attempt : modelAttempt) (path : string) : AttemptTarget :=
  let agentic := envValue env "PROXY_AGENTIC_URL" in
  if isAgenticProfile (Profile attempt) && negb (empty_str agentic) then mkAttemptTarget agentic true
  else
    let p := Provider attempt in
    if str_eq p providerCerebras then mkAttemptTarget (targetURL env "PROXY_CEREBRAS_URL" defaultCerebrasChatURL) false
    else if str_eq p providerGroq then mkAttemptTarget (targetURL env "PROXY_GROQ_URL" defaultGroqChatURL) false
    else if str_eq p providerAnthropic then mkAttemptTarget (targetURL env "PROXY_ANTHROPIC_URL" defaultAnthropicBaseURL +:+ path) false
    else if str_eq p providerOpenAI then mkAttemptTarget (targetURL env "PROXY_OPENAI_URL" defaultOpenAIBaseURL +:+ path) false
    else if str_eq p providerOllama || str_eq p providerLocal then mkAttemptTarget (targetURL env "PROXY_OLLAMA_URL" defaultOllamaBaseURL +:+ path) false
    else if str_eq path messagesPath then mkAttemptTarget (openRouterMessagesURL env) false
    else mkAttemptTarget (targetURL env "PROXY_OPENROUTER_URL" defaultOpenRouterChatURL) false.

(** ** Lemmas and theorems *)

(** The endpoints that count as OpenRouter. *)
Definition openRouterEndpoint (env : environ) (url : string) : Prop :=
  url = openRouterMessagesURL env \/ url = targetURL env "PROXY_OPENROUTER_URL" defaultOpenRouterChatURL.

(** The caller's OpenRouter key reaches OpenRouter only.  An attempt that
    resolves to any other provider gets a credential that does not depend on
    the caller's key at all; an attempt that resolves to OpenRouter gets the
    trimmed key and, unless it is an agentic profile with an agent endpoint
    configured, is sent to an OpenRouter endpoint. *)
Theorem request_key_isolated s cr cx attempt path k :
  (credentialProvider s attempt <> providerOpenRouter ->
     forall k', providerCredential s cr cx attempt k = providerCredential s cr cx attempt k') /\
  (credentialProvider s attempt = providerOpenRouter ->
     providerCredential s cr cx attempt k = (TrimSpace k, negb (empty_str (TrimSpace k))) /\
     (Agentic (Resolve (cr_env cr) attempt path) = false ->
      openRouterEndpoint (cr_env cr) (URL (Resolve (cr_env cr) attempt path)))).
Proof.
  assert (Hc : forall p, p <> "" -> Provider attempt = p -> credentialProvider s attempt = p).
  { intros p Hne Hp. unfold credentialProvider. rewrite Hp. unfold empty_str.
    by rewrite bool_decide_eq_false_2 by done. }
  split.
  - intros Hne k'. unfold providerCredential. repeat case_match; try done.
    exfalso. apply Hne. by apply str_eq_spec.
  - intros Heq.
    assert (Hno : forall p, p <> "" -> p <> providerOpenRouter -> str_eq (Provider attempt) p = false).
    { intros p H1 H2. apply not_true_is_false. rewrite str_eq_spec. intros Hp. specialize (Hc p H1 Hp). congruence. }
    split.
    + unfold providerCredential. rewrite Heq, !Hno by done. done.
    + unfold Resolve. rewrite !Hno by done. simpl. unfold openRouterEndpoint. repeat case_match; simpl; auto; done.
Qed.

(** Without the operator's consent to ambient resources, the only attempts
    that survive the configuration filter are those that resolve to OpenRouter
    with a non-blank caller key: no stored provider key is spent and no request
    reaches the local model server. *)
Theorem public_requests_use_only_caller_key s cr cx attempts key opPath attempt :
  cx_ambient cx = false ->
  attempt ∈ filterConfiguredAttempts s cr cx attempts key opPath ->
  attempt ∈ attempts /\ credentialProvider s attempt = providerOpenRouter /\
  TrimSpace key <> "" /\ providerCredential s cr cx attempt key = (TrimSpace key, true).
Proof.
  intros Ha Hin. apply list_elem_of_In, filter_In in Hin as [Hin Hf]. apply list_elem_of_In in Hin.
  split; [done|]. destruct (_ && _); [done|]. unfold providerCredential, ambientProviderCredentialsAllowed in *.
  rewrite Ha in *. simpl in Hf. revert Hf. repeat case_match; simpl; try done.
  intros Hk. apply str_eq_spec in H2. split_and!; [done| |by rewrite Hk].
  intros He. by rewrite He in Hk.
Qed.

(** With an agent endpoint configured, the caller's OpenRouter key does
    travel elsewhere: an OpenRouter attempt of an agentic profile carries it to
    the agent endpoint. *)
Theorem agentic_endpoint_receives_request_key :
  exists s cr cx attempt,
    Provider attempt = providerOpenRouter /\
    providerCredential s cr cx attempt "sk-or-caller" = ("sk-or-caller", true) /\
    Resolve (cr_env cr) attempt chatCompletionsPath = mkAttemptTarget "http://agent.internal/v1" true /\
    ~ openRouterEndpoint (cr_env cr) "http://agent.internal/v1".
Proof.
  exists None, (mkCredentials {["PROXY_AGENTIC_URL" := "http://agent.internal/v1"]} None), (mkContext false ""),
    (newAttempt "agent" "m:free" providerOpenRouter (mkBreakerPolicy 3 60 true) "").
  split_and!; [done|vm_compute; reflexivity|vm_compute; reflexivity|]. intros [H|H]; vm_compute in H; discriminate H.
Qed.

Lemma public_requests_use_only_caller_key_witness :
  credentialProvider None (newAttempt "coding" "m:free" providerOpenRouter (mkBreakerPolicy 3 60 true) "") = providerOpenRouter.
Proof.
  apply (public_requests_use_only_caller_key None (mkCredentials ∅ None) (mkContext false "")
    [newAttempt "coding" "m" providerOllama (mkBreakerPolicy 3 60 true) "";
     newAttempt "coding" "m:free" providerOpenRouter (mkBreakerPolicy 3 60 true) ""] " sk-or-1 " chatCompletionsPath).
  - reflexivity.
  - vm_compute. left.
Defined.
