(* ===== verification/Affinity.v ===== *)
(** * Affinity: the session route cache (router_affinity.go)

    The store is a map from keys to list elements and a recency list of the
    elements, most recent first.  Elements have an identity; [af_next] is the
    next one.  The specification is a plain list of entries, and every method
    refines the list operation of the same name.  The session key is an HMAC
    of the credential and the session id; [mac] stands for it. *)

From S2P Require Import Prelude Types Float Breaker Registry.
From Stdlib Require Import Lia ZArith String.
#[local] Open Scope string_scope.
#[local] Open Scope Z_scope.

Record affinityRoute := mkRoute {
  rt_Provider : providerID;
  rt_Model : string;
  rt_usedAt : Z;
}.

Record affinityCacheEntry := mkEntry {
  en_key : string;
  en_route : affinityRoute;
}.

Record affinityStore := mkStore {
  af_ttl : Z;
  af_maxEntries : Z;
  af_entries : gmap string nat;
  af_recency : list (nat * affinityCacheEntry);
  af_next : nat;
}.

Definition newAffinityStore (ttl maxEntries : Z) : affinityStore :=
  mkStore (if ttl <=? 0 then 24 * Hour else ttl) (if maxEntries <? 1 then 8192 else maxEntries) ∅ [] 0.

Definition headerCalvoProxySession : string := "X-Calvoproxy-Session-Id".
Definition headerClaudeCodeSession : string := "X-Claude-Code-Session-Id".
Definition headerGenericSession : string := "X-Session-Id".
Definition headerOpenCodeSession : string := "X-Opencode-Session".

Section keys.
(** [hex(HMAC-SHA256(secret, credential ++ 0 ++ session))]. *)
Context (mac : string -> string).

Definition affinityKey (sessionID credential : string) : string :=
  if empty_str (TrimSpace sessionID) then ""
  else mac (TrimSpace credential +:+ nul +:+ TrimSpace sessionID).

(** [header] is [r.Header.Get]. *)
Definition keyForRequest (header : string -> string) (credential : string) : string :=
  match List.find (fun h => negb (empty_str (TrimSpace (header h))))
          [headerCalvoProxySession; headerClaudeCodeSession; headerGenericSession; headerOpenCodeSession] with
  | Some h => affinityKey (TrimSpace (header h)) credential
  | None => ""
  end.
End keys.

(** ** The recency list *)

(** [recency.Remove(element)]. *)
Definition listRemove (id : nat) (l : list (nat * affinityCacheEntry)) : list (nat * affinityCacheEntry) :=
  List.filter (fun e => negb (Nat.eqb e.1 id)) l.

Definition listGet (id : nat) (l : list (nat * affinityCacheEntry)) : option affinityCacheEntry :=
  snd <$> List.find (fun e => Nat.eqb e.1 id) l.

(** [element.Value = entry; recency.MoveToFront(element)]. *)
Definition listTouch (id : nat) (e : affinityCacheEntry) (l : list (nat * affinityCacheEntry)) : list (nat * affinityCacheEntry) :=
  (id, e) :: listRemove id l.

(** ** Methods *)

Definition removeEntry (s : affinityStore) (key : string) (id : nat) : affinityStore :=
  mkStore (af_ttl s) (af_maxEntries s) (delete key (af_entries s)) (listRemove id (af_recency s)) (af_next s).

Definition touchEntry (s : affinityStore) (id : nat) (e : affinityCacheEntry) : affinityStore :=
  mkStore (af_ttl s) (af_maxEntries s) (af_entries s) (listTouch id e (af_recency s)) (af_next s).

Definition preferred (key : string) (now : Z) (s : affinityStore) : affinityStore * option affinityRoute :=
  if empty_str key then (s, None)
  else match af_entries s !! key with
  | None => (s, None)
  | Some id =>
      match listGet id (af_recency s) with
      | None => (s, None)   (* the map has no dangling element: [store_refines] *)
      | Some entry =>
          let r := en_route entry in
          if af_ttl s <? time_Sub now (rt_usedAt r) then (removeEntry s key id, None)
          else
            let r := mkRoute (rt_Provider r) (rt_Model r) now in
            (touchEntry s id (mkEntry (en_key entry) r), Some r)
      end
  end.

(** [recency.Back()] and its removal, when the store has grown too large. *)
Definition evictOldest (s : affinityStore) : affinityStore :=
  if Z.of_nat (size (af_entries s)) <=? af_maxEntries s then s
  else match last (af_recency s) with
       | Some (id, oldest) => removeEntry s (en_key oldest) id
       | None => s
       end.

Definition pin (key : string) (attempt : modelAttempt) (now : Z) (s : affinityStore) : affinityStore :=
  if empty_str key || empty_str (Provider attempt) || empty_str (TrimSpace (Model attempt)) then s
  else
    let entry := mkEntry key (mkRoute (Provider attempt) (Model attempt) now) in
    match af_entries s !! key with
    | Some id => touchEntry s id entry
    | None =>
        evictOldest
          (mkStore (af_ttl s) (af_maxEntries s) (<[key := af_next s]> (af_entries s))
             ((af_next s, entry) :: af_recency s) (S (af_next s)))
    end.

Definition sameRoute (r : affinityRoute) (attempt : modelAttempt) : bool :=
  str_eq (rt_Provider r) (Provider attempt) && str_eq (rt_Model r) (Model attempt).

Definition forget (key : string) (attempt : modelAttempt) (s : affinityStore) : affinityStore :=
  if empty_str key then s
  else match af_entries s !! key with
  | None => s
  | Some id =>
      match listGet id (af_recency s) with
      | None => s
      | Some entry => if sameRoute (en_route entry) attempt then removeEntry s key id else s
      end
  end.

(** ** Session affinity on a chain *)

(** The first attempt on the preferred route moves to the front. *)
Fixpoint promote (r : affinityRoute) (before attempts : list modelAttempt) : option (list modelAttempt) :=
  match attempts with
  | [] => None
  | attempt :: rest =>
      if sameRoute r attempt then Some (attempt :: rev before ++ rest)%list
      else promote r (attempt :: before) rest
  end.

Definition applySessionAffinity (cx : reqContext) (now : Z) (s : affinityStore) (attempts : list modelAttempt) : affinityStore * list modelAttempt :=
  match preferred (cx_affinity cx) now s with
  | (s, None) => (s, attempts)
  | (s, Some r) => (s, default attempts (promote r [] attempts))
  end.

Definition recordAffinitySuccess (cx : reqContext) (attempt : modelAttempt) (now : Z) (s : affinityStore) : affinityStore :=
  pin (cx_affinity cx) attempt now s.

Definition recordAffinityFailure (cx : reqContext) (attempt : modelAttempt) (s : affinityStore) : affinityStore :=
  forget (cx_affinity cx) attempt s.

(** ** The specification: a bounded list of entries, most recent first *)

Abbreviation spec := (list affinityCacheEntry).

Definition dropKey (key : string) (l : spec) : spec := List.filter (fun e => negb (str_eq (en_key e) key)) l.
Definition findKey (key : string) (l : spec) : option affinityCacheEntry := List.find (fun e => str_eq (en_key e) key) l.

Definition spec_preferred (ttl : Z) (key : string) (now : Z) (l : spec) : spec * option affinityRoute :=
  if empty_str key then (l, None)
  else match findKey key l with
  | None => (l, None)
  | Some e =>
      if ttl <? time_Sub now (rt_usedAt (en_route e)) then (dropKey key l, None)
      else let r := mkRoute (rt_Provider (en_route e)) (rt_Model (en_route e)) now in
           (mkEntry key r :: dropKey key l, Some r)
  end.

Definition spec_pin (maxEntries : Z) (key : string) (attempt : modelAttempt) (now : Z) (l : spec) : spec :=
  if empty_str key || empty_str (Provider attempt) || empty_str (TrimSpace (Model attempt)) then l
  else take (Z.to_nat maxEntries) (mkEntry key (mkRoute (Provider attempt) (Model attempt) now) :: dropKey key l).

Definition spec_forget (key : string) (attempt : modelAttempt) (l : spec) : spec :=
  if empty_str key then l
  else match findKey key l with
       | Some e => if sameRoute (en_route e) attempt then dropKey key l else l
       | None => l
       end.

(** What the store represents, and when it is well formed: the map names
    exactly the elements of the list, one per key, and they fit the bound. *)
Definition contents (s : affinityStore) : spec := snd <$> af_recency s.

Record storeOK (s : affinityStore) : Prop := mkStoreOK {
  so_ids : NoDup (af_recency s).*1;
  so_keys : NoDup (en_key <$> contents s);
  so_map : forall key id, af_entries s !! key = Some id <-> exists e, (id, e) ∈ af_recency s /\ en_key e = key;
  so_next : Forall (fun e => (e.1 < af_next s)%nat) (af_recency s);
  so_bound : Z.of_nat (List.length (af_recency s)) <= af_maxEntries s;
  so_max : 1 <= af_maxEntries s;
}.

(** ** Lemmas *)

Lemma listGet_in l id e : NoDup l.*1 -> (id, e) ∈ l -> listGet id l = Some e.
Proof.
  unfold listGet. induction l as [|[i x] l IH]; intros Hnd Hin; [by apply elem_of_nil in Hin|].
  cbn in Hnd. apply NoDup_cons in Hnd as [Hi Hnd]. simpl. apply elem_of_cons in Hin as [[= -> ->]|Hin].
  - by rewrite Nat.eqb_refl.
  - destruct (Nat.eqb_spec i id) as [->|]; [|by apply IH]. exfalso. apply Hi.
    by apply (list_elem_of_fmap_2 fst _ (id, e)).
Qed.

Lemma findKey_in key e l : NoDup (en_key <$> l) -> e ∈ l -> en_key e = key -> findKey key l = Some e.
Proof.
  unfold findKey. induction l as [|x l IH]; intros Hnd Hin Hk; [by apply elem_of_nil in Hin|].
  cbn in Hnd. apply NoDup_cons in Hnd as [Hx Hnd]. simpl. unfold str_eq. apply elem_of_cons in Hin as [->|Hin].
  - by rewrite bool_decide_eq_true_2.
  - case_bool_decide as E; [|by apply IH]. exfalso. apply Hx. rewrite E, <- Hk. by apply list_elem_of_fmap_2.
Qed.

Lemma findKey_none key l : (forall e, e ∈ l -> en_key e <> key) -> findKey key l = None /\ dropKey key l = l.
Proof.
  induction l as [|x l IH]; intros H; [done|]. simpl. unfold str_eq.
  rewrite bool_decide_eq_false_2 by (apply H; left). destruct IH as [-> IH2]; [intros e He; apply H; by right|].
  split; [done|]. simpl. f_equal. exact IH2.
Qed.

Lemma dropKey_cons key x l :
  dropKey key (x :: l) = if decide (en_key x = key) then dropKey key l else x :: dropKey key l.
Proof. unfold dropKey. simpl. unfold str_eq at 1. destruct (decide _); simpl; [by rewrite bool_decide_eq_true_2|by rewrite bool_decide_eq_false_2]. Qed.

Lemma listRemove_cons id x l :
  listRemove id (x :: l) = if decide (x.1 = id) then listRemove id l else x :: listRemove id l.
Proof. unfold listRemove. simpl. destruct (Nat.eqb_spec x.1 id), (decide (x.1 = id)); try done; congruence. Qed.

Lemma listRemove_none id l : id ∉ l.*1 -> listRemove id l = l.
Proof.
  induction l as [|x l IH]; intros H; [done|]. cbn in H. apply not_elem_of_cons in H as [Hne H].
  rewrite listRemove_cons, decide_False by done. by rewrite IH.
Qed.

(** Removing an element of the list is dropping its key. *)
Lemma listRemove_contents l id e :
  NoDup l.*1 -> NoDup (en_key <$> (snd <$> l)) -> (id, e) ∈ l ->
  snd <$> listRemove id l = dropKey (en_key e) (snd <$> l).
Proof.
  induction l as [|[i x] l IH]; intros Hi Hk Hin; [done|]. cbn in Hi, Hk.
  apply NoDup_cons in Hi as [Hi1 Hi2]. apply NoDup_cons in Hk as [Hk1 Hk2].
  rewrite listRemove_cons, fmap_cons, dropKey_cons. cbn [fst snd].
  apply elem_of_cons in Hin as [[= -> ->]|Hin].
  - rewrite !decide_True by done. rewrite listRemove_none by done. symmetry. apply findKey_none.
    intros y Hy He. apply Hk1. rewrite <- He. by apply list_elem_of_fmap_2.
  - rewrite !decide_False; [cbn; f_equal; by apply IH| |].
    + intros He. apply Hk1. rewrite He. apply (list_elem_of_fmap_2 en_key).
      by apply (list_elem_of_fmap_2 snd _ (id, e)).
    + intros ->. apply Hi1. by apply (list_elem_of_fmap_2 fst _ (id, e)).
Qed.

Lemma listRemove_elem id l x : x ∈ listRemove id l <-> x ∈ l /\ x.1 <> id.
Proof.
  unfold listRemove. rewrite !list_elem_of_In, filter_In, negb_true_iff, Nat.eqb_neq. tauto.
Qed.

Lemma filter_NoDup_fmap {A B} (f : A -> B) (P : A -> bool) l : NoDup (f <$> l) -> NoDup (f <$> List.filter P l).
Proof.
  induction l as [|x l IH]; intros H; [done|]. cbn in H. apply NoDup_cons in H as [Hx H]. simpl.
  destruct (P x); [|by apply IH]. cbn. apply NoDup_cons. split; [|by apply IH].
  intros Hin. apply Hx. apply list_elem_of_fmap in Hin as (y & -> & Hy). apply list_elem_of_fmap_2.
  apply list_elem_of_In, filter_In in Hy as [Hy _]. by apply list_elem_of_In.
Qed.

Lemma filter_length_le {A} (P : A -> bool) (l : list A) : (List.length (List.filter P l) <= List.length l)%nat.
Proof. induction l as [|x l IH]; simpl; [lia|]. destruct (P x); simpl; lia. Qed.

Lemma store_lookup s key id :
  storeOK s -> af_entries s !! key = Some id ->
  exists e, (id, e) ∈ af_recency s /\ en_key e = key /\ listGet id (af_recency s) = Some e /\
    findKey key (contents s) = Some e /\ snd <$> listRemove id (af_recency s) = dropKey key (contents s).
Proof.
  intros H Hk. apply (so_map _ H) in Hk as (e & Hin & <-). exists e. split_and!; [done|done| | |].
  - apply listGet_in; [apply H|done].
  - apply findKey_in; [apply H| |done]. by apply (list_elem_of_fmap_2 snd _ (id, e)).
  - apply listRemove_contents; [apply H|apply H|done].
Qed.

Lemma store_lookup_none s key :
  storeOK s -> af_entries s !! key = None -> findKey key (contents s) = None /\ dropKey key (contents s) = contents s.
Proof.
  intros H Hk. apply findKey_none. intros e He Hek. unfold contents in He.
  apply list_elem_of_fmap in He as ([id e'] & -> & Hin).
  assert (af_entries s !! key = Some id) by (apply (so_map _ H); eauto). congruence.
Qed.

Lemma removeEntry_ok s key id :
  storeOK s -> af_entries s !! key = Some id ->
  storeOK (removeEntry s key id) /\ contents (removeEntry s key id) = dropKey key (contents s).
Proof.
  intros H Hk. destruct (store_lookup s key id H Hk) as (e & Hin & Hek & _ & _ & Hc). split; [|exact Hc].
  destruct H as [Hi Hks Hm Hn Hb Hx]. constructor; simpl; [| | | | |done].
  - by apply filter_NoDup_fmap.
  - unfold contents. simpl. rewrite Hc. by apply filter_NoDup_fmap.
  - intros k i. rewrite lookup_delete_Some, Hm. setoid_rewrite listRemove_elem. simpl. split.
    + intros [Hne (x & Hx' & <-)]. exists x. split_and!; [done| |done]. intros ->. apply Hne.
      assert (listGet id (af_recency s) = Some e) by (by apply listGet_in).
      assert (listGet id (af_recency s) = Some x) by (by apply listGet_in). congruence.
    + intros (x & [Hx' Hne] & <-). split; [|eauto]. intros Hkk. apply Hne.
      assert (H1 : af_entries s !! en_key x = Some i) by (apply Hm; eauto). congruence.
  - apply Forall_forall. intros x [Hx' _]%listRemove_elem. rewrite Forall_forall in Hn. by apply Hn.
  - unfold listRemove. pose proof (filter_length_le (fun e : nat * affinityCacheEntry => negb (e.1 =? id)%nat) (af_recency s)). lia.
Qed.

Lemma dropKey_not key l e : e ∈ dropKey key l -> en_key e <> key.
Proof.
  unfold dropKey, str_eq. rewrite list_elem_of_In, filter_In, negb_true_iff. intros [_ H] Hk.
  by rewrite bool_decide_eq_true_2 in H.
Qed.

Lemma touchEntry_ok s key id e' :
  storeOK s -> af_entries s !! key = Some id -> en_key e' = key ->
  storeOK (touchEntry s id e') /\ contents (touchEntry s id e') = e' :: dropKey key (contents s).
Proof.
  intros H Hk Hek'. destruct (removeEntry_ok s key id H Hk) as [Hr Hc].
  destruct (store_lookup s key id H Hk) as (e & Hin & Hek & _ & _ & Hc').
  assert (Hid : (id < af_next s)%nat) by (destruct H as [_ _ _ Hn _ _]; rewrite Forall_forall in Hn; by apply (Hn (id, e))).
  assert (Hlen : Z.of_nat (S (List.length (listRemove id (af_recency s)))) <= af_maxEntries s).
  { destruct H as [_ _ _ _ Hb _].
    assert (List.length (listRemove id (af_recency s)) < List.length (af_recency s))%nat; [|lia].
    clear -Hin. unfold listRemove. induction (af_recency s) as [|[i x] l IH]; [by apply elem_of_nil in Hin|]. simpl.
    apply elem_of_cons in Hin as [[= -> ->]|Hin].
    - rewrite Nat.eqb_refl. simpl. pose proof (filter_length_le (fun e : nat * affinityCacheEntry => negb (e.1 =? i)%nat) l). lia.
    - specialize (IH Hin). destruct (negb _); simpl; lia. }
  split; [|change (contents (touchEntry s id e')) with (e' :: (listRemove id (af_recency s)).*2); by rewrite Hc'].
  destruct Hr as [Hi Hks Hm Hn _ Hx]. simpl in Hi, Hm, Hn. constructor; simpl; [| | | |done|done].
  - apply NoDup_cons. split; [|done]. intros Hid'. apply list_elem_of_fmap in Hid' as (x & -> & Hx').
    by apply listRemove_elem in Hx' as [_ ?].
  - change (en_key <$> contents (touchEntry s id e')) with (en_key e' :: (en_key <$> (listRemove id (af_recency s)).*2)).
    apply NoDup_cons. split; [|exact Hks].
    change (en_key e' ∉ en_key <$> contents (removeEntry s key id)). rewrite Hc, Hek'. intros Hx'.
    apply list_elem_of_fmap in Hx' as (y & Hy1 & Hy2). by apply dropKey_not in Hy2.
  - intros k i. setoid_rewrite elem_of_cons. specialize (Hm k i). rewrite lookup_delete_Some in Hm. split.
    + intros Hki. destruct (decide (key = k)) as [->|Hne]; [exists e'; split; [left; congruence|done]|].
      destruct (proj1 Hm (conj Hne Hki)) as (x & ? & ?). eauto.
    + intros (x & [[= -> ->]|Hx'] & <-); [congruence|]. apply Hm. eauto.
  - constructor; [done|]. done.
Qed.

(** ** Growing and evicting *)

(** The map and the list have the same size. *)
Lemma entries_size s :
  NoDup (en_key <$> contents s) ->
  (forall key id, af_entries s !! key = Some id <-> exists e, (id, e) ∈ af_recency s /\ en_key e = key) ->
  size (af_entries s) = List.length (af_recency s).
Proof.
  intros Hk Hm. set (pairs := (fun x : nat * affinityCacheEntry => (en_key x.2, x.1)) <$> af_recency s).
  assert (Hf : pairs.*1 = en_key <$> contents s)
    by (unfold pairs, contents; by rewrite <- !list_fmap_compose).
  assert (He : af_entries s = list_to_map pairs).
  { apply map_eq. intros key. apply option_eq. intros id. rewrite Hm, <- elem_of_list_to_map by (by rewrite Hf).
    unfold pairs. rewrite list_elem_of_fmap. split.
    - intros (e & Hin & <-). by exists (id, e).
    - intros ([i e] & [= -> ->] & Hin). eauto. }
  rewrite He, map_size_list_to_map by (by rewrite Hf). unfold pairs. apply length_fmap.
Qed.

Lemma pin_new_ok s key e :
  storeOK s -> af_entries s !! key = None -> en_key e = key ->
  let s1 := mkStore (af_ttl s) (af_maxEntries s) (<[key := af_next s]> (af_entries s))
              ((af_next s, e) :: af_recency s) (S (af_next s)) in
  storeOK (evictOldest s1) /\ contents (evictOldest s1) = take (Z.to_nat (af_maxEntries s)) (e :: contents s).
Proof.
  intros H Hk Hek s1. destruct H as [Hi Hks Hm Hn Hb Hx].
  assert (Hfresh : af_next s ∉ (af_recency s).*1).
  { intros Hin. apply list_elem_of_fmap in Hin as (y & Hy & Hin). rewrite Forall_forall in Hn. specialize (Hn y Hin). lia. }
  assert (Hnokey : key ∉ en_key <$> contents s).
  { intros Hin. apply list_elem_of_fmap in Hin as (y & -> & Hin). unfold contents in Hin.
    apply list_elem_of_fmap in Hin as ([id z] & -> & Hin).
    assert (af_entries s !! en_key z = Some id) by (apply Hm; eauto). simpl in *. congruence. }
  assert (I1 : NoDup (af_recency s1).*1) by (by apply NoDup_cons).
  assert (I2 : NoDup (en_key <$> contents s1)) by (apply NoDup_cons; subst key; done).
  assert (I3 : forall k id, af_entries s1 !! k = Some id <-> exists e, (id, e) ∈ af_recency s1 /\ en_key e = k).
  { intros k id. simpl. rewrite lookup_insert_Some, Hm. setoid_rewrite elem_of_cons. split.
    - intros [[<- <-]|[Hne (x & ? & ?)]]; eauto.
    - intros (x & [[= -> ->]|Hin] & <-); [auto|]. right. split; [|eauto]. intros ->. apply Hnokey.
      apply list_elem_of_fmap_2. by apply (list_elem_of_fmap_2 snd _ (id, x)). }
  assert (I4 : Forall (fun x => (x.1 < af_next s1)%nat) (af_recency s1)).
  { constructor; [simpl; lia|]. eapply Forall_impl; [exact Hn|]. simpl. lia. }
  unfold evictOldest. rewrite (entries_size s1 I2 I3). destruct (Z.leb_spec (Z.of_nat (List.length (af_recency s1))) (af_maxEntries s1)) as [Hle|Hgt].
  - split; [by constructor|]. rewrite take_ge; [done|]. simpl. unfold contents. rewrite length_fmap. simpl in Hle. lia.
  - assert (Hlen : Z.of_nat (List.length (af_recency s1)) = af_maxEntries s + 1) by (simpl in *; lia).
    set (s2 := mkStore (af_ttl s1) (af_maxEntries s + 1) (af_entries s1) (af_recency s1) (af_next s1)).
    assert (H2 : storeOK s2) by (constructor; simpl; auto; simpl in *; lia).
    destruct (last (af_recency s1)) as [[id oldest]|] eqn:El; [|by apply last_None in El].
    apply last_Some in El as [l' El].
    assert (Hent : af_entries s2 !! en_key oldest = Some id).
    { apply (so_map _ H2). exists oldest. split; [|done]. change (af_recency s2) with (af_recency s1). rewrite El.
      apply elem_of_app. right. by left. }
    destruct (removeEntry_ok s2 (en_key oldest) id H2 Hent) as [[J1 J2 J3 J4 _ _] _].
    assert (Hrem : listRemove id (af_recency s1) = l').
    { rewrite El in I1 |- *. rewrite fmap_app in I1. apply NoDup_app in I1 as (_ & Hd & _).
      unfold listRemove. rewrite List.filter_app. simpl. rewrite Nat.eqb_refl. simpl. rewrite app_nil_r.
      apply listRemove_none. intros Hin. apply (Hd id Hin). by left. }
    assert (Hl' : Z.of_nat (List.length l') = af_maxEntries s) by (rewrite El, length_app in Hlen; simpl in Hlen; lia).
    split.
    + constructor; [exact J1|exact J2|exact J3|exact J4| |done].
      change (af_recency (removeEntry s1 (en_key oldest) id)) with (listRemove id (af_recency s1)). rewrite Hrem. simpl. lia.
    + change (contents (removeEntry s1 (en_key oldest) id)) with ((listRemove id (af_recency s1)).*2). rewrite Hrem.
      change (e :: contents s) with ((af_recency s1).*2). rewrite El, fmap_app.
      rewrite take_app_length'; [done|]. rewrite length_fmap. lia.
Qed.

Lemma preferred_refines s key now :
  storeOK s ->
  storeOK (preferred key now s).1 /\
  (contents (preferred key now s).1, (preferred key now s).2) = spec_preferred (af_ttl s) key now (contents s).
Proof.
  intros H. unfold preferred, spec_preferred. destruct (empty_str key); [done|].
  destruct (af_entries s !! key) as [id|] eqn:Ek.
  - destruct (store_lookup s key id H Ek) as (e & _ & Hek & -> & -> & _).
    destruct (removeEntry_ok s key id H Ek) as [R1 R2].
    destruct (touchEntry_ok s key id (mkEntry (en_key e) (mkRoute (rt_Provider (en_route e)) (rt_Model (en_route e)) now)) H Ek Hek) as [T1 T2].
    cbv zeta. destruct (af_ttl s <? time_Sub now (rt_usedAt (en_route e))); cbn [fst snd].
    + split; [done|]. by rewrite R2.
    + split; [done|]. rewrite T2. by subst key.
  - destruct (store_lookup_none s key H Ek) as [-> _]. done.
Qed.

Lemma pin_refines s key attempt now :
  storeOK s ->
  storeOK (pin key attempt now s) /\ contents (pin key attempt now s) = spec_pin (af_maxEntries s) key attempt now (contents s).
Proof.
  intros H. unfold pin, spec_pin. destruct (_ || _ || _); [done|]. cbv zeta.
  set (e := mkEntry key _). destruct (af_entries s !! key) as [id|] eqn:Ek.
  - destruct (touchEntry_ok s key id e H Ek eq_refl) as [T1 T2]. split; [done|]. rewrite T2, take_ge; [done|].
    rewrite <- T2. unfold contents. rewrite length_fmap. pose proof (so_bound _ T1) as Hb. simpl in Hb |- *.
    pose proof (so_max _ H). lia.
  - destruct (store_lookup_none s key H Ek) as [_ ->]. by apply pin_new_ok.
Qed.

Lemma forget_refines s key attempt :
  storeOK s -> storeOK (forget key attempt s) /\ contents (forget key attempt s) = spec_forget key attempt (contents s).
Proof.
  intros H. unfold forget, spec_forget. destruct (empty_str key); [done|].
  destruct (af_entries s !! key) as [id|] eqn:Ek.
  - destruct (store_lookup s key id H Ek) as (e & _ & _ & -> & -> & _).
    destruct (sameRoute (en_route e) attempt); [by apply removeEntry_ok|done].
  - destruct (store_lookup_none s key H Ek) as [-> _]. done.
Qed.

(** C32: the session cache refines a bounded least-recently-used list.  From a
    well-formed store every method answers as the list does and leaves a
    well-formed store that represents the list's result: a lookup refreshes
    its entry and moves it to the front or drops it when it has expired, a
    success records the route at the front and evicts the least recently used
    entry beyond the bound, and a failure forgets the route only if it is
    still the one that failed. *)
Theorem store_refines_lru s key attempt now :
  storeOK s ->
  (storeOK (preferred key now s).1 /\
   (contents (preferred key now s).1, (preferred key now s).2) = spec_preferred (af_ttl s) key now (contents s)) /\
  (storeOK (pin key attempt now s) /\ contents (pin key attempt now s) = spec_pin (af_maxEntries s) key attempt now (contents s)) /\
  (storeOK (forget key attempt s) /\ contents (forget key attempt s) = spec_forget key attempt (contents s)).
Proof. intros H. auto using preferred_refines, pin_refines, forget_refines. Qed.

Lemma promote_spec r attempts : forall before,
  match promote r before attempts with
  | Some out => exists pre a post, attempts = (pre ++ a :: post)%list /\ sameRoute r a = true /\
                  Forall (fun b => sameRoute r b = false) pre /\ out = (a :: rev before ++ pre ++ post)%list
  | None => Forall (fun b => sameRoute r b = false) attempts
  end.
Proof.
  induction attempts as [|x attempts IH]; intros before; simpl; [constructor|].
  destruct (sameRoute r x) eqn:E.
  - exists [], x, attempts. by split_and!.
  - specialize (IH (x :: before)). destruct (promote r (x :: before) attempts) as [out|].
    + destruct IH as (pre & a & post & -> & Ha & Hpre & ->). exists (x :: pre), a, post.
      split_and!; [done|done|by constructor|]. simpl. by rewrite <- app_assoc.
    + by constructor.
Qed.

(** Affinity only reorders.  The chain keeps its attempts; if the session
    has a live route and some attempt is on it, the first such attempt is
    first and the others keep their order; otherwise the chain is unchanged. *)
Theorem affinity_moves_preferred_first cx now s attempts :
  let out := (applySessionAffinity cx now s attempts).2 in
  out ≡ₚ attempts /\
  match (preferred (cx_affinity cx) now s).2 with
  | Some r => (exists pre a post, attempts = (pre ++ a :: post)%list /\ sameRoute r a = true /\
                 Forall (fun b => sameRoute r b = false) pre /\ out = (a :: pre ++ post)%list) \/
              (Forall (fun b => sameRoute r b = false) attempts /\ out = attempts)
  | None => out = attempts
  end.
Proof.
  cbv zeta. unfold applySessionAffinity. destruct (preferred (cx_affinity cx) now s) as [s' [r|]]; simpl; [|done].
  pose proof (promote_spec r attempts []) as Hp. destruct (promote r [] attempts) as [out|]; simpl; [|auto].
  destruct Hp as (pre & a & post & -> & Ha & Hpre & ->). simpl. split; [by rewrite Permutation_middle|].
  left. exists pre, a, post. by split_and!.
Qed.

Lemma new_store_ok ttl max : storeOK (newAffinityStore ttl max).
Proof.
  constructor; simpl; try constructor.
  - intros Hl. by rewrite lookup_empty in Hl.
  - intros (e & Hin & _). by apply elem_of_nil in Hin.
  - destruct (Z.ltb_spec max 1); lia.
  - destruct (Z.ltb_spec max 1); lia.
Qed.

Lemma store_refines_lru_witness :
  contents (pin "k1" (newAttempt "" "m" "groq" (mkBreakerPolicy 3 60 true) "") 7 (newAffinityStore 0 2)) =
  [mkEntry "k1" (mkRoute "groq" "m" 7)].
Proof.
  destruct (store_refines_lru (newAffinityStore 0 2) "k1" (newAttempt "" "m" "groq" (mkBreakerPolicy 3 60 true) "") 7
              (new_store_ok 0 2)) as (_ & [_ H] & _).
  rewrite H. vm_compute. reflexivity.
Defined.
