(* ===== verification/Admission.v ===== *)
(** * Admission: the cap on concurrent requests (router_admission.go)

    The semaphore is a buffered channel; its state is the number of tokens in
    it.  [acquire] selects between a free slot, the end of the request's
    context and the timer, so it is a relation.  [admissionHold] is one
    request's slot; a configuration holds one per request, and [astep] is one
    method call of one request. *)

From S2P Require Import Prelude Env.
From Stdlib Require Import Lia ZArith String.
#[local] Open Scope string_scope.
#[local] Open Scope Z_scope.

Record admissionControl := mkAdmission {
  ac_sem : option Z;   (* the channel's capacity; [None] is disabled *)
  ac_timeout : Z;
}.

Definition newAdmissionControl (env : environ) : admissionControl :=
  let max := envInt env "PROXY_MAX_CONCURRENT" 128 in
  if max <=? 0 then mkAdmission None 0
  else mkAdmission (Some max) (envDurationSeconds env "PROXY_ADMISSION_TIMEOUT_SECONDS" (5 * Second)).

(** The release function an [acquire] returns: a no-op, or one that takes a
    token out of the channel. *)
Inductive releaseFunc := NoOp | TakeToken.

(** [acquire a tokens tokens' free ok]. *)
Inductive acquire (a : admissionControl) (tokens : Z) : Z -> releaseFunc -> bool -> Prop :=
| acquire_disabled : ac_sem a = None -> acquire a tokens tokens NoOp true
| acquire_slot cap : ac_sem a = Some cap -> tokens < cap -> acquire a tokens (tokens + 1) TakeToken true
| acquire_giveup cap : ac_sem a = Some cap -> acquire a tokens tokens NoOp false.

Definition runRelease (free : releaseFunc) (tokens : Z) : Z :=
  match free with NoOp => tokens | TakeToken => tokens - 1 end.

Definition enabled (a : admissionControl) : bool := match ac_sem a with Some _ => true | None => false end.

Definition retryAfterSeconds (a : admissionControl) : Z :=
  if ac_timeout a <=? Second then 1 else ac_timeout a / Second.

(** ** One request's hold *)

Record admissionHold := mkHold { h_free : releaseFunc; h_held : bool }.

Definition zeroHold : admissionHold := mkHold NoOp false.

Inductive hold_acquire (a : admissionControl) (h : admissionHold) (tokens : Z) : admissionHold -> Z -> bool -> Prop :=
| hold_acquired tokens' free :
    acquire a tokens tokens' free true -> hold_acquire a h tokens (mkHold free true) tokens' true
| hold_refused tokens' free :
    acquire a tokens tokens' free false -> hold_acquire a h tokens h tokens' false.

Definition hold_release (h : admissionHold) (tokens : Z) : admissionHold * Z :=
  if h_held h then (mkHold (h_free h) false, runRelease (h_free h) tokens) else (h, tokens).

Inductive hold_reacquire (a : admissionControl) (h : admissionHold) (tokens : Z) : admissionHold -> Z -> bool -> Prop :=
| reacquire_held : h_held h = true -> hold_reacquire a h tokens h tokens true
| reacquire_again h' tokens' ok :
    h_held h = false -> hold_acquire a h tokens h' tokens' ok -> hold_reacquire a h tokens h' tokens' ok.

(** ** Concurrent requests *)

Record aconf := mkAconf { a_tokens : Z; a_holds : list admissionHold }.

Inductive astep (a : admissionControl) : aconf -> aconf -> Prop :=
| astep_arrive tokens hs h tokens' ok :
    hold_acquire a zeroHold tokens h tokens' ok -> astep a (mkAconf tokens hs) (mkAconf tokens' (h :: hs))
| astep_release tokens hs i h h' tokens' :
    hs !! i = Some h -> hold_release h tokens = (h', tokens') ->
    astep a (mkAconf tokens hs) (mkAconf tokens' (<[i := h']> hs))
| astep_reacquire tokens hs i h h' tokens' ok :
    hs !! i = Some h -> hold_reacquire a h tokens h' tokens' ok ->
    astep a (mkAconf tokens hs) (mkAconf tokens' (<[i := h']> hs)).

(** ** Retry-After *)

Section retry_after.
(** [http.ParseTime] of the net/http package. *)
Context (ParseTime : string -> option Z).

Definition parseRetryAfter (v : string) (now : Z) : Z :=
  let v := TrimSpace v in
  if empty_str v then 0
  else match Atoi v with
  | Some secs => if secs <? 0 then 0 else wrap64 (secs * Second)
  | None =>
      match ParseTime v with
      | Some t => let d := time_Sub t now in if 0 <? d then d else 0
      | None => 0
      end
  end.
End retry_after.

(** ** Lemmas and theorems *)

(** A hold that keeps a token of the channel. *)
Definition keepsToken (h : admissionHold) : bool :=
  match h_free h with TakeToken => h_held h | NoOp => false end.

Definition capacityOK (a : admissionControl) (tokens : Z) : Prop :=
  match ac_sem a with Some cap => 0 <= tokens <= cap | None => tokens = 0 end.

Definition admissionInv (a : admissionControl) (c : aconf) : Prop :=
  a_tokens c = Z.of_nat (count keepsToken (a_holds c)) /\ capacityOK a (a_tokens c).

Lemma acquire_tokens a tokens tokens' free ok :
  capacityOK a tokens -> acquire a tokens tokens' free ok ->
  capacityOK a tokens' /\ tokens' = tokens + (match free with TakeToken => 1 | NoOp => 0 end) /\
  (ok = false -> free = NoOp).
Proof.
  intros Hc H. unfold capacityOK in *.
  destruct H as [Hs|cap Hs Hlt|cap Hs]; rewrite Hs in *; split_and!; try lia; try done.
Qed.

Lemma hold_acquire_tokens a h tokens h' tokens' ok :
  capacityOK a tokens -> h_held h = false -> hold_acquire a h tokens h' tokens' ok ->
  capacityOK a tokens' /\ keepsToken h = false /\ tokens' = tokens + (if keepsToken h' then 1 else 0).
Proof.
  intros Hc Hh H. assert (Hk : keepsToken h = false) by (unfold keepsToken; rewrite Hh; by destruct (h_free h)).
  destruct H as [tokens' free Ha|tokens' free Ha]; apply acquire_tokens in Ha as (Hc' & Ht & Hf); auto.
  - split_and!; auto. unfold keepsToken. simpl. by destruct free.
  - rewrite Hk. rewrite (Hf eq_refl) in Ht. split_and!; auto.
Qed.

Lemma count_keeps_insert hs i h h' :
  hs !! i = Some h ->
  Z.of_nat (count keepsToken (<[i := h']> hs)) =
  Z.of_nat (count keepsToken hs) - (if keepsToken h then 1 else 0) + (if keepsToken h' then 1 else 0).
Proof. intros Hi. pose proof (count_insert keepsToken hs i h h' Hi). destruct (keepsToken h), (keepsToken h'); lia. Qed.

Lemma admissionInv_step a c c' : admissionInv a c -> astep a c c' -> admissionInv a c'.
Proof.
  intros [Ht Hc] Hstep. unfold admissionInv.
  destruct Hstep as [tokens hs h tokens' ok Ha|tokens hs i h h' tokens' Hi Hr|tokens hs i h h' tokens' ok Hi Hr]; simpl in *.
  - apply hold_acquire_tokens in Ha as (Hc' & _ & Ht'); [|done|done]. split; [|done].
    unfold count in *. simpl. destruct (keepsToken h); simpl; lia.
  - rewrite (count_keeps_insert hs i h h' Hi). unfold hold_release in Hr.
    assert (Hpos : keepsToken h = true -> 0 < tokens).
    { intros Hk. pose proof (count_keeps_insert hs i h zeroHold Hi) as Hz. rewrite Hk in Hz. simpl in Hz. lia. }
    unfold keepsToken in *. unfold capacityOK in *.
    destruct (h_held h) eqn:Eh; injection Hr as <- <-; simpl; rewrite ?Eh;
      destruct (h_free h) eqn:Ef; simpl; destruct (ac_sem a); try (split; [lia|try lia; done]).
    all: specialize (Hpos eq_refl); split; lia.
  - rewrite (count_keeps_insert hs i h h' Hi). destruct Hr as [Hh|h' tokens' ok Hh Ha].
    + split; [lia|done].
    + apply hold_acquire_tokens in Ha as (Hc' & Hk & Ht'); [|done|done]. rewrite Hk. split; [lia|done].
Qed.

(** C40: admission is sound and leaks nothing.  Whatever requests arrive,
    release and reacquire in whatever order, and however often a release is
    repeated, the channel holds exactly one token per request that holds a
    slot, never more than the capacity; when no request holds one it is
    empty again. *)
Theorem admission_never_exceeds_capacity a c :
  rtc (astep a) (mkAconf 0 []) c -> (forall cap, ac_sem a = Some cap -> 0 <= cap) ->
  a_tokens c = Z.of_nat (count keepsToken (a_holds c)) /\
  (forall cap, ac_sem a = Some cap -> Z.of_nat (count keepsToken (a_holds c)) <= cap) /\
  (Forall (fun h => h_held h = false) (a_holds c) -> a_tokens c = 0).
Proof.
  intros Hr Hcap. assert (Hi : admissionInv a c).
  { assert (H0 : admissionInv a (mkAconf 0 [])).
    { split; [done|]. unfold capacityOK. simpl. destruct (ac_sem a) as [cap|]; [|done]. specialize (Hcap cap eq_refl). lia. }
    clear Hcap. remember (mkAconf 0 []) as c0. clear Heqc0. induction Hr; eauto using admissionInv_step. }
  destruct Hi as [Ht Hc]. split_and!; [done| |].
  - intros cap Hs. unfold capacityOK in Hc. rewrite Hs in Hc. lia.
  - intros Hf. rewrite Ht, count_none; [done|]. eapply Forall_impl; [exact Hf|].
    intros h Hh. unfold keepsToken. rewrite Hh. by destruct (h_free h).
Qed.

(** The delay a Retry-After header asks for is computed without an
    overflow check: ten digits of seconds come out as a negative delay, which
    a caller that waits for positive delays ignores. *)
Theorem parseRetryAfter_overflows ParseTime now :
  parseRetryAfter ParseTime "9223372037" now < 0 /\
  parseRetryAfter ParseTime "9223372036" now = 9223372036 * Second.
Proof. by split; vm_compute. Qed.

Lemma admission_never_exceeds_capacity_witness :
  a_tokens (mkAconf 0 [mkHold TakeToken false]) = 0.
Proof.
  apply (admission_never_exceeds_capacity (mkAdmission (Some 1) Second) (mkAconf 0 [mkHold TakeToken false])).
  - eapply rtc_l; [eapply astep_arrive, hold_acquired, (acquire_slot _ _ 1); [reflexivity|lia]|].
    eapply rtc_l; [eapply (astep_release _ _ _ 0); reflexivity|]. apply rtc_refl.
  - intros cap [= <-]. lia.
  - by repeat constructor.
Defined.
