(* ===== verification/Fallback.v ===== *)
(** * Fallback: the loop over a chain of attempts (router_fallback.go)

    [Execute] runs the attempts in order until one succeeds, dropping what it
    learns to be unavailable.  The world [W] (the quota ledger, the breakers,
    the clock, the response writer) is abstract; what the loop calls is given
    as functions on it.  An attempt's executor is a finite tree: it may ask the
    loop to reserve the next attempt ([ReserveFallback]) before it returns.
    The request body an attempt is sent and its deadline do not influence the
    loop and are left to the executor. *)

From S2P Require Import Prelude Types Float Breaker Registry.
From Stdlib Require Import Lia ZArith String.
#[local] Open Scope string_scope.
#[local] Open Scope Z_scope.

(** ** Errors *)

(** An [error]: an [*attemptError], found by [errors.As], or any other. *)
Inductive goError := EAttempt (e : attemptError) | EOther (message : string).

Inductive chainFailureReason :=
| chainExhausted | chainTerminal | chainCancelled | chainTotalTimeout | chainExecutorError.

#[global] Instance chainFailureReason_eq_dec : EqDecision chainFailureReason.
Proof. solve_decision. Defined.

Record providerFailure := mkProviderFailure {
  pf_Provider : providerID;
  pf_Error : attemptError;
}.

Record chainError := mkChainError {
  ce_reason : chainFailureReason;
  ce_err : goError;
  ce_providerFailures : list providerFailure;
}.

Definition errAllFallbackModelsFailed : string := "all fallback models failed".

(** The state of the request's context. *)
Inductive ctxState := CtxLive | CtxCanceled | CtxDeadlineExceeded.

(** [None] is an error that is no [*chainError]. *)
Definition classifyChainFailure (ctx : ctxState) (err : option chainError) : chainFailureReason :=
  match ctx with
  | CtxCanceled => chainCancelled
  | CtxDeadlineExceeded => chainTotalTimeout
  | CtxLive => match err with Some e => ce_reason e | None => chainExhausted end
  end.

Definition isModelUnavailable (err : attemptError) : bool :=
  if StatusCode err =? 404 then true
  else if StatusCode err =? 400 then
    let m := ToLower (Message err) in
    Contains m "no endpoints found" || Contains m "not a valid model" ||
    Contains m "no allowed providers" || Contains m "unavailable"
  else false.

Definition shouldRetryAttempt (policy : RetryPolicy) (err : attemptError) : bool := ShouldRetry policy err.

(** ** Which attempts may run *)

Definition quotaFreePool : string := "free".

Definition quotaPoolKey (provider : providerID) (pool : string) : string := provider +:+ nul +:+ pool.

Record chainState := mkChain {
  ch_attempts : list modelAttempt;
  ch_unavailableProviders : gset string;
  ch_unavailablePools : gset string;
  ch_unavailableAttempts : gset nat;
}.

Definition quotaPoolUnavailable (attempt : modelAttempt) (unavailablePools : gset string) : bool :=
  if HasSuffix (ToLower (Model attempt)) ":free"
  then bool_decide (quotaPoolKey (Provider attempt) quotaFreePool ∈ unavailablePools)
  else false.

(** The three tests the loop and both searches share. *)
Definition executable (cs : chainState) (i : nat) (attempt : modelAttempt) : bool :=
  negb (bool_decide (i ∈ ch_unavailableAttempts cs)) &&
  negb (bool_decide (Provider attempt ∈ ch_unavailableProviders cs)) &&
  negb (quotaPoolUnavailable attempt (ch_unavailablePools cs)).

(** [nextExecutableAttempt] searches the indices [i], [i+1], ... *)
Fixpoint nextFrom (cs : chainState) (i : nat) (attempts : list modelAttempt) : option modelAttempt :=
  match attempts with
  | [] => None
  | candidate :: rest => if executable cs i candidate then Some candidate else nextFrom cs (S i) rest
  end.

Definition nextExecutableAttempt (cs : chainState) (currentIndex : nat) : option modelAttempt :=
  nextFrom cs (S currentIndex) (drop (S currentIndex) (ch_attempts cs)).

Definition set_attempts (l : list modelAttempt) (cs : chainState) : chainState :=
  mkChain l (ch_unavailableProviders cs) (ch_unavailablePools cs) (ch_unavailableAttempts cs).
Definition excludeProvider (p : providerID) (cs : chainState) : chainState :=
  mkChain (ch_attempts cs) ({[p]} ∪ ch_unavailableProviders cs) (ch_unavailablePools cs) (ch_unavailableAttempts cs).
Definition excludePool (k : string) (cs : chainState) : chainState :=
  mkChain (ch_attempts cs) (ch_unavailableProviders cs) ({[k]} ∪ ch_unavailablePools cs) (ch_unavailableAttempts cs).
Definition excludeAttempt (i : nat) (cs : chainState) : chainState :=
  mkChain (ch_attempts cs) (ch_unavailableProviders cs) (ch_unavailablePools cs) ({[i]} ∪ ch_unavailableAttempts cs).

Section execution.
Context {W : Type}.

(** What an executor does: return (no error is success), or call
    [ReserveFallback] and go on with its answer. *)
Inductive execTree :=
| TRet (w : W) (res : option goError)
| TReserve (w : W) (k : W -> bool -> execTree).

Record FallbackExecution := mkExecution {
  fx_Executor : modelAttempt -> W -> execTree;
  fx_ReserveQuota : option (modelAttempt -> W -> W * option QuotaTicket);
  fx_Release : QuotaTicket -> W -> W;
  fx_OnSuccess : modelAttempt -> W -> W;
  fx_OnFailure : modelAttempt -> W -> W;
  fx_Wait : nat -> W -> W;
  fx_RetryPolicy : RetryPolicy;
}.

Variable fx : FallbackExecution.

(** [reserveNextExecutableAttempt] at the indices of [idxs]. *)
Fixpoint reserveFrom (idxs : list nat) (cs : chainState) (w : W) : chainState * W * bool :=
  match idxs with
  | [] => (cs, w, false)
  | i :: rest =>
      match ch_attempts cs !! i with
      | None => (cs, w, false)
      | Some candidate =>
          if negb (executable cs i candidate) then reserveFrom rest cs w
          else match fx_ReserveQuota fx with
          | Some reserve =>
              if ticket_Valid (att_QuotaTicket candidate) then (cs, w, true)
              else match reserve candidate w with
              | (w, None) => reserveFrom rest (excludeAttempt i cs) w
              | (w, Some ticket) => (set_attempts (<[i := set_Ticket ticket candidate]> (ch_attempts cs)) cs, w, true)
              end
          | None => (cs, w, true)
          end
      end
  end.

Definition reserveNextExecutableAttempt (currentIndex : nat) (cs : chainState) (w : W) : chainState * W * bool :=
  reserveFrom (seq (S currentIndex) (List.length (ch_attempts cs) - S currentIndex)) cs w.

(** Running an executor; [reserve] is the closure it was given, nil when no
    executable attempt follows or quota is not reserved, and a nil closure
    counts as granted. *)
Fixpoint runTree (reserve : option (chainState -> W -> chainState * W * bool)) (t : execTree) (cs : chainState) : chainState * W * option goError :=
  match t with
  | TRet w res => (cs, w, res)
  | TReserve w k =>
      match reserve with
      | None => runTree reserve (k w true) cs
      | Some f => let '(cs, w, ok) := f cs w in runTree reserve (k w ok) cs
      end
  end.

(** ** The loop *)

Record loopState := mkLoop {
  lp_chain : chainState;
  lp_world : W;
  lp_lastErr : option goError;
  lp_failures : list providerFailure;
  lp_log : list (modelAttempt * option goError);   (* what was executed, oldest first *)
}.

Definition reportFailure (attempt : modelAttempt) (e : attemptError) (failures : list providerFailure) : list providerFailure :=
  if existsb (fun f => str_eq (pf_Provider f) (Provider attempt)) failures then failures
  else (failures ++ [mkProviderFailure (Provider attempt) e])%list.

(** What follows a failure: the next attempt at once, the end of the loop, or
    the next attempt after the backoff test. *)
Inductive verdict := VContinue | VBreak | VRetry.

Definition judge (attempt : modelAttempt) (err : goError) (cs : chainState) (failures : list providerFailure) : chainState * list providerFailure * verdict :=
  match err with
  | EOther _ => (cs, failures, VRetry)
  | EAttempt e =>
      if ProviderUnavailable e then (excludeProvider (Provider attempt) cs, reportFailure attempt e failures, VContinue)
      else if SkipProvider e then (excludeProvider (Provider attempt) cs, failures, VContinue)
      else
        let failures := if QuotaLimited e then reportFailure attempt e failures else failures in
        if negb (empty_str (QuotaPool e)) then (excludePool (quotaPoolKey (Provider attempt) (QuotaPool e)) cs, failures, VContinue)
        else if isModelUnavailable e || SkipModel e then (cs, failures, VContinue)
        else if negb (shouldRetryAttempt (fx_RetryPolicy fx) e) then (cs, failures, VBreak)
        else (cs, failures, VRetry)
  end.

Inductive loopEnd := EndSuccess | EndLoop (stoppedEarly : bool).

Fixpoint chainLoop (idxs : list nat) (st : loopState) : loopState * loopEnd :=
  match idxs with
  | [] => (st, EndLoop false)
  | i :: rest =>
      let cs := lp_chain st in
      match ch_attempts cs !! i with
      | None => (st, EndLoop false)
      | Some attempt0 =>
          if negb (executable cs i attempt0) then chainLoop rest st
          else
            let hasNext := bool_decide (is_Some (nextExecutableAttempt cs i)) in
            let attempt := set_position (Z.of_nat i + 1) (negb hasNext) attempt0 in
            let reserve := match fx_ReserveQuota fx with
                           | Some _ => if hasNext then Some (reserveNextExecutableAttempt i) else None
                           | None => None
                           end in
            let '(cs, w, res) := runTree reserve (fx_Executor fx attempt (lp_world st)) cs in
            let log := (lp_log st ++ [(attempt, res)])%list in
            match res with
            | None => (mkLoop cs (fx_OnSuccess fx attempt w) (lp_lastErr st) (lp_failures st) log, EndSuccess)
            | Some err =>
                let w := fx_OnFailure fx attempt w in
                let '(cs, failures, v) := judge attempt err cs (lp_failures st) in
                let st := mkLoop cs w (Some err) failures log in
                match v with
                | VContinue => chainLoop rest st
                | VBreak => (st, EndLoop (bool_decide (is_Some (nextExecutableAttempt cs i))))
                | VRetry =>
                    match nextExecutableAttempt cs i with
                    | Some next =>
                        if str_eq (Provider next) (Provider attempt)
                        then chainLoop rest (mkLoop cs (fx_Wait fx i w) (Some err) failures log)
                        else chainLoop rest st
                    | None => chainLoop rest st
                    end
                end
            end
      end
  end.

Definition releaseTickets (attempts : list modelAttempt) (w : W) : W :=
  fold_left (fun w attempt => if ticket_Valid (att_QuotaTicket attempt) then fx_Release fx (att_QuotaTicket attempt) w else w)
    attempts w.

Definition initialLoop (attempts : list modelAttempt) (w : W) : loopState :=
  mkLoop (mkChain attempts ∅ ∅ ∅) w None [] [].

(** The result: the final loop state, its world after the deferred release,
    and the returned error ([None] is nil). *)
Definition Execute (attempts : list modelAttempt) (w : W) : loopState * W * option chainError :=
  let '(st, e) := chainLoop (seq 0 (List.length attempts)) (initialLoop attempts w) in
  let w := releaseTickets (ch_attempts (lp_chain st)) (lp_world st) in
  match e with
  | EndSuccess => (st, w, None)
  | EndLoop stoppedEarly =>
      let reason := if stoppedEarly then chainTerminal else chainExhausted in
      match lp_lastErr st with
      | Some err => (st, w, Some (mkChainError reason err (lp_failures st)))
      | None => (st, w, Some (mkChainError chainExhausted (EOther errAllFallbackModelsFailed) []))
      end
  end.
End execution.

Arguments execTree : clear implicits.
Arguments FallbackExecution : clear implicits.
Arguments loopState : clear implicits.

(** [Execute] with an optional executor: without one it fails at once. *)
Definition ExecuteConfigured {W} (fx : option (FallbackExecution W)) (attempts : list modelAttempt) (w : W) : option chainError :=
  match fx with
  | None => Some (mkChainError chainExecutorError (EOther "fallback attempt executor is not configured") [])
  | Some fx => (Execute fx attempts w).2
  end.

(** ** What the client is told *)

Definition providerDisplayName (provider : providerID) : string :=
  if str_eq provider providerOpenRouter then "OpenRouter"
  else if str_eq provider providerCerebras then "Cerebras"
  else if str_eq provider providerGroq then "Groq"
  else provider.

(** [s[i:]]. *)
Definition from (i : nat) (s : string) : string := String.substring i (String.length s - i) s.

Definition safeProviderFailureSummary (err : attemptError) : string :=
  if HasPrefix (Message err) openRouterDailyFreeQuotaPrefix then
    match String.index 0 "Resets: " (Message err) with
    | Some resetAt =>
        let reset := from (resetAt + String.length "Resets: ") (Message err) in
        let reset := match String.index 0 "." reset with Some e => String.substring 0 e reset | None => reset end in
        "daily free-model quota exhausted; resets " +:+ reset
    | None => "daily free-model quota exhausted"
    end
  else if Timeout err then "timed out"
  else if (StatusCode err =? 401) || (StatusCode err =? 403) then "authentication or account authorization failed"
  else if (StatusCode err =? 429) || (StatusCode err =? 503) then "rate limited or temporarily unavailable"
  else if 500 <=? StatusCode err then "temporarily unavailable"
  else "request rejected".

Definition multiProviderUnavailableMessage (failures : list providerFailure) : string :=
  "All configured model providers are temporarily rate-limited or unavailable. " +:+
  String.concat "; " ((fun f => providerDisplayName (pf_Provider f) +:+ ": " +:+ safeProviderFailureSummary (pf_Error f)) <$> failures) +:+
  ". Automatic routing will retry them after their cooldowns.".

Definition errorMessage (e : goError) : string := match e with EAttempt a => Message a | EOther m => m end.

(** The error [Execute] returns, or an error of another executor. *)
Inductive dispatchError := DChain (e : chainError) | DOther (e : goError).

Definition fallbackErrorResponse (err : option dispatchError) : Z * string :=
  match err with
  | None => (502, errAllFallbackModelsFailed)
  | Some d =>
      let inner := match d with DChain e => ce_err e | DOther e => e end in
      let plain := match inner with
                   | EAttempt a => (if StatusCode a =? 0 then 502 else StatusCode a, Message a)
                   | EOther m => (502, m)
                   end in
      match d with
      | DChain e => if (1 <? List.length (ce_providerFailures e))%nat
                    then (503, multiProviderUnavailableMessage (ce_providerFailures e)) else plain
      | DOther _ => plain
      end
  end.

Definition fallbackRetryAfter (err : dispatchError) : Z :=
  match err with
  | DChain e => soonest (List.filter (fun d => 0 <? d) ((fun f => RetryAfter (pf_Error f)) <$> ce_providerFailures e))
  | DOther _ => 0
  end.

(** ** How the chain evolves

    Along a run exclusions only grow and an attempt changes in nothing but a
    ticket it did not have. *)

Definition ticketed (a a' : modelAttempt) : Prop :=
  a' = a \/ (ticket_Valid (att_QuotaTicket a) = false /\ exists t, a' = set_Ticket t a).

Record evolves (cs cs' : chainState) : Prop := mkEvolves {
  ev_attempts : Forall2 ticketed (ch_attempts cs) (ch_attempts cs');
  ev_providers : ch_unavailableProviders cs ⊆ ch_unavailableProviders cs';
  ev_pools : ch_unavailablePools cs ⊆ ch_unavailablePools cs';
  ev_indices : ch_unavailableAttempts cs ⊆ ch_unavailableAttempts cs';
}.

#[global] Instance ticketed_preorder : PreOrder ticketed.
Proof.
  split; [by left|]. intros a b c [->|[Hv [t ->]]] H2; [done|]. right. split; [done|].
  destruct H2 as [->|[_ [t' ->]]]; [by exists t|by exists t'].
Qed.

#[global] Instance evolves_preorder : PreOrder evolves.
Proof.
  split.
  - intros cs. constructor; [reflexivity|set_solver..].
  - intros a b c [] []. constructor; [by etransitivity|set_solver..].
Qed.

Lemma ticketed_fields a a' : ticketed a a' -> Provider a' = Provider a /\ Model a' = Model a /\ Profile a' = Profile a.
Proof. by intros [->|[_ [t ->]]]. Qed.

Lemma quotaPoolUnavailable_mono a a' p p' :
  Provider a' = Provider a -> Model a' = Model a -> p ⊆ p' ->
  quotaPoolUnavailable a p = true -> quotaPoolUnavailable a' p' = true.
Proof.
  intros H1 H2 Hsub. unfold quotaPoolUnavailable. rewrite H1, H2. destruct (HasSuffix _ _); [|done].
  rewrite !bool_decide_eq_true. set_solver.
Qed.

(** What may run later could have run before. *)
Lemma executable_mono cs cs' i a a' :
  evolves cs cs' -> ticketed a a' -> executable cs' i a' = true -> executable cs i a = true.
Proof.
  intros [_ Hp Hq Hi] (H1 & H2 & _)%ticketed_fields. unfold executable.
  rewrite !andb_true_iff, !negb_true_iff, !bool_decide_eq_false, H1. intros [[Ha Hb] Hc].
  split_and!; [set_solver|set_solver|]. apply not_true_is_false. intros Hx.
  rewrite (quotaPoolUnavailable_mono a a' _ _ H1 H2 Hq Hx) in Hc. done.
Qed.

Lemma evolves_lookup cs cs' i a :
  evolves cs cs' -> ch_attempts cs !! i = Some a -> exists a', ch_attempts cs' !! i = Some a' /\ ticketed a a'.
Proof. intros H Hi. destruct (Forall2_lookup_l _ _ _ _ _ (ev_attempts _ _ H) Hi) as (a' & ? & ?). eauto. Qed.

Lemma evolves_lookup_r cs cs' i a' :
  evolves cs cs' -> ch_attempts cs' !! i = Some a' -> exists a, ch_attempts cs !! i = Some a /\ ticketed a a'.
Proof. intros H Hi. destruct (Forall2_lookup_r _ _ _ _ _ (ev_attempts _ _ H) Hi) as (a & ? & ?). eauto. Qed.

Lemma ticket_at_evolves cs i a t :
  ch_attempts cs !! i = Some a -> ticket_Valid (att_QuotaTicket a) = false ->
  evolves cs (set_attempts (<[i := set_Ticket t a]> (ch_attempts cs)) cs).
Proof.
  intros Hi Hv. constructor; simpl; [|done|done|done].
  apply Forall2_same_length_lookup. split; [by rewrite length_insert|].
  intros j x y Hx Hy. destruct (decide (i = j)) as [->|Hne].
  - rewrite list_lookup_insert_eq in Hy by (by eapply lookup_lt_Some). simplify_eq. right. eauto.
  - rewrite list_lookup_insert_ne in Hy by done. left. congruence.
Qed.

Section run.
Context {W : Type} (fx : FallbackExecution W).

Lemma reserveFrom_evolves idxs : forall cs w, evolves cs (reserveFrom fx idxs cs w).1.1.
Proof.
  induction idxs as [|i idxs IH]; intros cs w; simpl; [done|].
  destruct (ch_attempts cs !! i) as [a|] eqn:Ei; [|done].
  destruct (negb (executable cs i a)); [apply IH|].
  destruct (fx_ReserveQuota fx) as [reserve|]; [|done].
  destruct (ticket_Valid (att_QuotaTicket a)) eqn:Ev; [done|].
  destruct (reserve a w) as [w' [t|]]; simpl; [by apply ticket_at_evolves|].
  etransitivity; [|apply IH]. constructor; simpl; [reflexivity|set_solver..].
Qed.

Lemma runTree_evolves (reserve : option (chainState -> W -> chainState * W * bool)) (t : execTree W) : forall cs,
  (forall f, reserve = Some f -> forall cs w, evolves cs (f cs w).1.1) ->
  evolves cs (runTree reserve t cs).1.1.
Proof.
  induction t as [w res|w k IH]; intros cs Hf; simpl; [done|].
  destruct reserve as [f|]; [|by apply IH].
  specialize (Hf f eq_refl cs w) as Hs. destruct (f cs w) as [[cs' w'] ok]. simpl in Hs.
  etransitivity; [exact Hs|]. by apply IH.
Qed.

Lemma judge_evolves a err cs fs : evolves cs (judge fx a err cs fs).1.1.
Proof.
  unfold judge. destruct err as [e|m]; [|done].
  destruct (ProviderUnavailable e); [constructor; simpl; [reflexivity|set_solver..]|].
  destruct (SkipProvider e); [constructor; simpl; [reflexivity|set_solver..]|]. cbv zeta.
  destruct (negb (empty_str (QuotaPool e))); [constructor; simpl; [reflexivity|set_solver..]|].
  destruct (_ || _); [done|]. by destruct (negb _).
Qed.

(** The closure given to the executor at index [i]. *)
Definition reserveClosure (cs : chainState) (i : nat) : option (chainState -> W -> chainState * W * bool) :=
  match fx_ReserveQuota fx with
  | Some _ => if bool_decide (is_Some (nextExecutableAttempt cs i)) then Some (reserveNextExecutableAttempt fx i) else None
  | None => None
  end.

Lemma reserveClosure_evolves cs i t cs0 : evolves cs0 (runTree (reserveClosure cs i) t cs0).1.1.
Proof.
  apply runTree_evolves. intros f. unfold reserveClosure. destruct (fx_ReserveQuota fx); [|done].
  destruct (bool_decide _); [|done]. intros [= <-] cs1 w. apply reserveFrom_evolves.
Qed.

(** ** The log

    An entry [x] rules out a later entry [y] when its error takes the
    provider, or the free pool of the provider, out of the chain. *)

Definition rulesOut (x y : modelAttempt * option goError) : bool :=
  match x.2 with
  | Some (EAttempt e) =>
      if ProviderUnavailable e || SkipProvider e then str_eq (Provider y.1) (Provider x.1)
      else str_eq (QuotaPool e) quotaFreePool && str_eq (Provider y.1) (Provider x.1) &&
           HasSuffix (ToLower (Model y.1)) ":free"
  | _ => false
  end.

Definition excluded (cs : chainState) (x : modelAttempt * option goError) : Prop :=
  forall i y, rulesOut x y = true -> executable cs i y.1 = false.

Lemma excluded_mono cs cs' x : evolves cs cs' -> excluded cs x -> excluded cs' x.
Proof.
  intros He Hx i y Hy. apply not_true_is_false. intros Hexec.
  specialize (Hx i y Hy).
  rewrite (executable_mono cs cs' i y.1 y.1 He (reflexivity _) Hexec) in Hx. done.
Qed.

Lemma judge_excluded a err cs fs : excluded (judge fx a err cs fs).1.1 (a, Some err).
Proof.
  intros i y. unfold rulesOut, judge. cbn [fst snd]. destruct err as [e|m]; [|done].
  assert (Hprov : forall cs, str_eq (Provider y.1) (Provider a) = true -> executable (excludeProvider (Provider a) cs) i y.1 = false).
  { intros cs0 Hp. apply str_eq_spec in Hp. unfold executable. simpl.
    rewrite (bool_decide_eq_true_2 (Provider y.1 ∈ _)) by set_solver. simpl. by rewrite andb_false_r. }
  destruct (ProviderUnavailable e); simpl; [by apply Hprov|]. destruct (SkipProvider e); simpl; [by apply Hprov|].
  rewrite !andb_true_iff, !str_eq_spec. intros [[Hpool Hp] Hfree]. rewrite Hpool. simpl.
  unfold executable. simpl. unfold quotaPoolUnavailable. rewrite Hfree, Hp.
  rewrite (bool_decide_eq_true_2 (quotaPoolKey _ _ ∈ _)) by set_solver. by rewrite andb_false_r.
Qed.
End run.

Lemma nextFrom_None cs l : forall i, nextFrom cs i l = None -> forall j a, l !! j = Some a -> executable cs (i + j) a = false.
Proof.
  induction l as [|x l IH]; intros i H j a Hj; [done|]. simpl in H. destruct (executable cs i x) eqn:E; [done|].
  destruct j as [|j]; simpl in Hj; [simplify_eq; by rewrite Nat.add_0_r|].
  replace (i + S j)%nat with (S i + j)%nat by lia. eauto.
Qed.

Lemma nextFrom_Some cs l b : forall i, nextFrom cs i l = Some b -> exists j, l !! j = Some b /\ executable cs (i + j) b = true.
Proof.
  induction l as [|x l IH]; intros i H; [done|]. simpl in H. destruct (executable cs i x) eqn:E.
  - injection H as <-. exists 0%nat. by rewrite Nat.add_0_r.
  - destruct (IH _ H) as (j & Hj & He). exists (S j). split; [done|]. by replace (i + S j)%nat with (S i + j)%nat by lia.
Qed.

Lemma nextExecutable_Some cs i b :
  nextExecutableAttempt cs i = Some b -> exists j, (i < j)%nat /\ ch_attempts cs !! j = Some b /\ executable cs j b = true.
Proof.
  intros H. apply nextFrom_Some in H as (j & Hj & He). rewrite lookup_drop in Hj. exists (S i + j)%nat. split_and!; [lia|done|done].
Qed.

(** Nothing after index [i] may run. *)
Lemma nextExecutable_None cs i j a :
  nextExecutableAttempt cs i = None -> (i < j)%nat -> ch_attempts cs !! j = Some a -> executable cs j a = false.
Proof.
  intros H Hij Hj. pose proof (nextFrom_None _ _ _ H (j - S i) a) as Hn. rewrite lookup_drop in Hn.
  replace (S i + (j - S i))%nat with j in Hn by lia. auto.
Qed.

Section loop.
Context {W : Type} (fx : FallbackExecution W) (attempts0 : list modelAttempt).
Implicit Types (st : loopState W) (x : modelAttempt * option goError).

Definition entryAt (k : nat) x : Prop :=
  exists i a a' last, (i < k)%nat /\ attempts0 !! i = Some a /\ ticketed a a' /\ x.1 = set_position (Z.of_nat i + 1) last a'.

Definition failed x : Prop := x.2 <> None.
Definition before x y : Prop := AttemptIndex x.1 < AttemptIndex y.1 /\ rulesOut x y = false.

Record loopInv (k : nat) st : Prop := mkLoopInv {
  li_chain : evolves (mkChain attempts0 ∅ ∅ ∅) (lp_chain st);
  li_tried : forall j a, (j < k)%nat -> ch_attempts (lp_chain st) !! j = Some a -> executable (lp_chain st) j a = true ->
               exists x, x ∈ lp_log st /\ AttemptIndex x.1 = Z.of_nat j + 1;
  li_log : Forall (entryAt k) (lp_log st);
  li_order : StronglySorted before (lp_log st);
  li_excl : Forall (excluded (lp_chain st)) (lp_log st);
  li_last : lp_lastErr st = last (lp_log st) ≫= snd;
  li_fail : NoDup (pf_Provider <$> lp_failures st);
}.

Lemma entryAt_mono k k' x : (k <= k')%nat -> entryAt k x -> entryAt k' x.
Proof. intros Hk (i & a & a' & l & Hi & H). exists i, a, a', l. split; [lia|done]. Qed.

Lemma reportFailure_NoDup a e fs : NoDup (pf_Provider <$> fs) -> NoDup (pf_Provider <$> reportFailure a e fs).
Proof.
  intros H. unfold reportFailure. destruct (existsb _ fs) eqn:E; [done|].
  rewrite fmap_app. apply NoDup_app. split_and!; [done| |by apply NoDup_singleton].
  intros p Hp Hx. apply list_elem_of_singleton in Hx as ->. apply list_elem_of_fmap in Hp as (f & Hf & Hin).
  apply not_true_iff_false in E. apply E, existsb_exists. exists f. split; [by apply list_elem_of_In|].
  apply str_eq_spec. simpl in Hf. congruence.
Qed.

Lemma judge_failures a err cs fs : NoDup (pf_Provider <$> fs) -> NoDup (pf_Provider <$> (judge fx a err cs fs).1.2).
Proof.
  intros H. unfold judge. destruct err as [e|m]; [|done].
  destruct (ProviderUnavailable e); [by apply reportFailure_NoDup|]. destruct (SkipProvider e); [done|]. cbv zeta.
  assert (H' : NoDup (pf_Provider <$> (if QuotaLimited e then reportFailure a e fs else fs)))
    by (destruct (QuotaLimited e); [by apply reportFailure_NoDup|done]).
  destruct (negb _); [done|]. destruct (_ || _); [done|]. by destruct (negb _).
Qed.

(** An attempt that may run extends the log. *)
Lemma log_extend k st a last_ res :
  loopInv k st -> ch_attempts (lp_chain st) !! k = Some a -> executable (lp_chain st) k a = true ->
  let x := (set_position (Z.of_nat k + 1) last_ a, res) in
  StronglySorted before (lp_log st ++ [x])%list /\ Forall (entryAt (S k)) (lp_log st ++ [x])%list.
Proof.
  intros H Ha Hex x. split.
  - apply StronglySorted_snoc; [apply H|]. apply Forall_forall. intros y Hy. split.
    + pose proof (li_log _ _ H) as Hl. rewrite Forall_forall in Hl.
      destruct (Hl y Hy) as (i & b & b' & l & Hi & _ & _ & ->). simpl. lia.
    + pose proof (li_excl _ _ H) as He. rewrite Forall_forall in He. apply not_true_is_false. intros Hr.
      specialize (He y Hy k (a, res) Hr). simpl in He. congruence.
  - apply Forall_app. split; [eapply Forall_impl; [apply H|]; intros y; apply entryAt_mono; lia|].
    constructor; [|constructor]. destruct (evolves_lookup_r _ _ _ _ (li_chain _ _ H) Ha) as (a0 & Ha0 & Ht).
    exists k, a0, a, last_. split_and!; [lia|done|done|done].
Qed.

(** One failed attempt. *)
Lemma loopInv_fail k st a last_ err cs1 w' :
  loopInv k st -> ch_attempts (lp_chain st) !! k = Some a -> executable (lp_chain st) k a = true ->
  evolves (lp_chain st) cs1 ->
  let attempt := set_position (Z.of_nat k + 1) last_ a in
  let '(cs2, fs, v) := judge fx attempt err cs1 (lp_failures st) in
  loopInv (S k) (mkLoop cs2 w' (Some err) fs (lp_log st ++ [(attempt, Some err)])%list).
Proof.
  intros H Ha Hex He attempt. destruct (log_extend k st a last_ (Some err) H Ha Hex) as [Hs Hl].
  pose proof (judge_evolves fx attempt err cs1 (lp_failures st)) as Hj.
  pose proof (judge_excluded fx attempt err cs1 (lp_failures st)) as Hx.
  pose proof (judge_failures attempt err cs1 (lp_failures st) (li_fail _ _ H)) as Hf.
  destruct (judge fx attempt err cs1 (lp_failures st)) as [[cs2 fs] v]. simpl in Hj, Hx, Hf.
  assert (He2 : evolves (lp_chain st) cs2) by (etransitivity; eauto).
  constructor; simpl; [| |exact Hl|exact Hs| |by rewrite last_snoc|done].
  - etransitivity; [apply H|done].
  - intros j b Hjk Hb Hexb. destruct (decide (j = k)) as [->|Hne].
    + eexists. split; [apply elem_of_app; right; by left|done].
    + destruct (evolves_lookup_r _ _ _ _ He2 Hb) as (b0 & Hb0 & Ht).
      destruct (li_tried _ _ H j b0 ltac:(lia) Hb0 (executable_mono _ _ _ _ _ He2 Ht Hexb)) as (y & Hy & Hi).
      exists y. split; [apply elem_of_app; by left|done].
  - apply Forall_app. split; [|by constructor]. eapply Forall_impl; [apply (li_excl _ _ H)|]. intros y. by apply excluded_mono.
Qed.

Lemma loopInv_skip k st a :
  loopInv k st -> ch_attempts (lp_chain st) !! k = Some a -> executable (lp_chain st) k a = false -> loopInv (S k) st.
Proof.
  intros H Ha Hex. destruct H. constructor; auto.
  - intros j b Hj Hb Hexb. destruct (decide (j = k)) as [->|]; [congruence|]. apply (li_tried0 j b); [lia|done|done].
  - eapply Forall_impl; [exact li_log0|]. intros y. apply entryAt_mono. lia.
Qed.

Lemma loopInv_init w : loopInv 0 (initialLoop attempts0 w).
Proof.
  constructor; simpl; [reflexivity| |constructor|constructor|constructor|done|constructor].
  intros j a Hj. lia.
Qed.

Lemma loopInv_world k cs w w' e fs log : loopInv k (mkLoop cs w e fs log) -> loopInv k (mkLoop cs w' e fs log).
Proof. intros []. constructor; done. Qed.

(** What a run leaves behind. *)
Definition loopPost st (e : loopEnd) : Prop :=
  evolves (mkChain attempts0 ∅ ∅ ∅) (lp_chain st) /\
  Forall (entryAt (List.length attempts0)) (lp_log st) /\
  StronglySorted before (lp_log st) /\
  NoDup (pf_Provider <$> lp_failures st) /\
  match e with
  | EndSuccess => exists l x, lp_log st = (l ++ [x])%list /\ x.2 = None /\ Forall failed l
  | EndLoop stoppedEarly =>
      Forall failed (lp_log st) /\ lp_lastErr st = last (lp_log st) ≫= snd /\
      if stoppedEarly then
        exists err j a, lp_lastErr st = Some (EAttempt err) /\ shouldRetryAttempt (fx_RetryPolicy fx) err = false /\
          ch_attempts (lp_chain st) !! j = Some a /\ executable (lp_chain st) j a = true /\
          Forall (fun x => AttemptIndex x.1 <= Z.of_nat j) (lp_log st)
      else forall j a, ch_attempts (lp_chain st) !! j = Some a -> executable (lp_chain st) j a = true ->
             exists x, x ∈ lp_log st /\ AttemptIndex x.1 = Z.of_nat j + 1
  end.

Lemma entryAt_all k st : (k <= List.length attempts0)%nat -> loopInv k st -> Forall (entryAt (List.length attempts0)) (lp_log st).
Proof. intros Hk H. eapply Forall_impl; [apply (li_log _ _ H)|]. intros y. by apply entryAt_mono. Qed.

(** The end of the loop, with nothing executable left. *)
Lemma loopPost_end k st :
  loopInv k st -> (k <= List.length attempts0)%nat -> Forall failed (lp_log st) ->
  (forall j a, (k <= j)%nat -> ch_attempts (lp_chain st) !! j = Some a -> executable (lp_chain st) j a = false) ->
  loopPost st (EndLoop false).
Proof.
  intros H Hk Hf Hrest. unfold loopPost. split_and!; [apply H|by eapply entryAt_all|apply H|apply H|done|apply H|].
  intros j a Hj Hex. destruct (decide (j < k)%nat) as [Hlt|Hge]; [by apply (li_tried _ _ H j a)|].
  rewrite (Hrest j a) in Hex; [done|lia|done].
Qed.

Lemma judge_break attempt err cs fs :
  (judge fx attempt err cs fs).2 = VBreak ->
  (judge fx attempt err cs fs).1.1 = cs /\ exists e, err = EAttempt e /\ shouldRetryAttempt (fx_RetryPolicy fx) e = false.
Proof.
  unfold judge. destruct err as [e|m]; [|done]. destruct (ProviderUnavailable e); [done|]. destruct (SkipProvider e); [done|].
  cbv zeta. destruct (negb (empty_str _)); [done|]. destruct (isModelUnavailable e || SkipModel e); [done|].
  destruct (shouldRetryAttempt _ e) eqn:E; simpl; [done|]. eauto.
Qed.

Lemma chainLoop_post n : forall k st,
  loopInv k st -> Forall failed (lp_log st) -> (k + n = List.length attempts0)%nat ->
  let '(st', e) := chainLoop fx (seq k n) st in loopPost st' e.
Proof.
  induction n as [|n IH]; intros k st H Hf Hn; cbn [seq chainLoop].
  { apply (loopPost_end k st H); [lia|done|]. intros j a Hj Ha. exfalso.
    apply lookup_lt_Some in Ha. rewrite <- (Forall2_length _ _ _ (ev_attempts _ _ (li_chain _ _ H))) in Ha. simpl in Ha. lia. }
  destruct (ch_attempts (lp_chain st) !! k) as [a|] eqn:Ha.
  2:{ exfalso. apply lookup_ge_None in Ha. rewrite <- (Forall2_length _ _ _ (ev_attempts _ _ (li_chain _ _ H))) in Ha. simpl in Ha. lia. }
  destruct (executable (lp_chain st) k a) eqn:Hex; simpl.
  2:{ apply IH; [by eapply loopInv_skip|done|lia]. }
  set (hasNext := bool_decide (is_Some (nextExecutableAttempt (lp_chain st) k))).
  set (attempt := set_position (Z.of_nat k + 1) (negb hasNext) a).
  change (match fx_ReserveQuota fx with Some _ => if hasNext then Some (reserveNextExecutableAttempt fx k) else None | None => None end)
    with (reserveClosure fx (lp_chain st) k).
  pose proof (reserveClosure_evolves fx (lp_chain st) k (fx_Executor fx attempt (lp_world st)) (lp_chain st)) as Hev.
  destruct (runTree _ _ _) as [[cs1 w] [err|]]; simpl in Hev.
  - pose proof (loopInv_fail k st a (negb hasNext) err cs1 (fx_OnFailure fx attempt w) H Ha Hex Hev) as Hinv. fold attempt in Hinv. cbv zeta in Hinv.
    pose proof (judge_break attempt err cs1 (lp_failures st)) as Hbr.
    destruct (judge fx attempt err cs1 (lp_failures st)) as [[cs2 fs] v]. simpl in Hbr.
    assert (Hf' : Forall failed (lp_log st ++ [(attempt, Some err)])%list) by (apply Forall_app; split; [done|by constructor]).
    destruct v.
    + apply IH; [exact Hinv|exact Hf'|lia].
    + destruct (Hbr eq_refl) as [_ (e & -> & Hnr)].
      destruct (nextExecutableAttempt cs2 k) as [b|] eqn:En; simpl.
      * apply nextExecutable_Some in En as (j & Hj & Hb & Hexb).
        unfold loopPost. split_and!; [apply Hinv|eapply entryAt_all; [|exact Hinv]; lia|apply Hinv|apply Hinv|done|apply Hinv|].
        exists e, j, b. split_and!; [done|done|done|done|]. eapply Forall_impl; [apply (li_log _ _ Hinv)|].
        intros y (i & c & c' & l & Hi & _ & _ & ->). simpl. lia.
      * apply (loopPost_end (S k)); [done|lia|done|].
        intros j c Hj Hc. by eapply nextExecutable_None; [exact En|lia|].
    + destruct (nextExecutableAttempt cs2 k) as [b|]; [destruct (str_eq _ _)|];
        (apply IH; [by eapply loopInv_world|done|lia]).
  - destruct (log_extend k st a (negb hasNext) None H Ha Hex) as [Hs Hl]. unfold loopPost. simpl.
    split_and!; [etransitivity; [apply H|done]| |done|apply H|by eexists _, _].
    eapply Forall_impl; [exact Hl|]. intros y. apply entryAt_mono. lia.
Qed.
End loop.

Lemma Execute_post {W} (fx : FallbackExecution W) attempts w :
  let '(st, _, err) := Execute fx attempts w in
  exists e, loopPost fx attempts st e /\
    err = match e with
          | EndSuccess => None
          | EndLoop stoppedEarly =>
              match lp_lastErr st with
              | Some er => Some (mkChainError (if stoppedEarly then chainTerminal else chainExhausted) er (lp_failures st))
              | None => Some (mkChainError chainExhausted (EOther errAllFallbackModelsFailed) [])
              end
          end.
Proof.
  unfold Execute. pose proof (chainLoop_post fx attempts (List.length attempts) 0 (initialLoop attempts w)
    (loopInv_init attempts w) ltac:(constructor) eq_refl) as H.
  destruct (chainLoop fx _ _) as [st e]. destruct e as [|early]; [by exists EndSuccess|].
  cbv zeta. destruct (lp_lastErr st) eqn:El; exists (EndLoop early); rewrite El; done.
Qed.

(** ** Theorems *)

(** C5: a chain runs its attempts in order, each at most once.  Every executed
    attempt is the chain's attempt of its index (with a ticket it may have been
    given meanwhile); indices strictly increase; and after an error that takes
    a provider, or a provider's free pool, out of the chain, no attempt of that
    provider, or no free model of it, is executed. *)
Theorem chain_in_order_without_excluded {W} (fx : FallbackExecution W) attempts w :
  let '(st, _, _) := Execute fx attempts w in
  StronglySorted (fun x y => AttemptIndex x.1 < AttemptIndex y.1 /\ rulesOut x y = false) (lp_log st) /\
  Forall (fun x => exists i a a' last, attempts !! i = Some a /\ ticketed a a' /\
                   x.1 = set_position (Z.of_nat i + 1) last a') (lp_log st).
Proof.
  pose proof (Execute_post fx attempts w) as H. destruct (Execute fx attempts w) as [[st w'] err].
  destruct H as (e & (_ & Hl & Hs & _) & _). split; [exact Hs|].
  eapply Forall_impl; [exact Hl|]. intros x (i & a & a' & l & _ & H). by exists i, a, a', l.
Qed.

(** The chain succeeds exactly when the last attempt it executed did, and
    then it stops: every attempt executed before it failed. *)
Theorem chain_stops_at_first_success {W} (fx : FallbackExecution W) attempts w :
  let '(st, _, err) := Execute fx attempts w in
  match err with
  | None => exists l x, lp_log st = (l ++ [x])%list /\ x.2 = None /\ Forall (fun y => y.2 <> None) l
  | Some ce => Forall (fun y => y.2 <> None) (lp_log st) /\
               (lp_log st <> [] -> Some (ce_err ce) = last (lp_log st) ≫= snd)
  end.
Proof.
  pose proof (Execute_post fx attempts w) as H. destruct (Execute fx attempts w) as [[st w'] err].
  destruct H as (e & (_ & _ & _ & _ & Hend) & ->). destruct e as [|early]; [exact Hend|].
  destruct Hend as (Hf & Hlast & _). destruct (lp_lastErr st) as [er|] eqn:El; simpl.
  - split; [exact Hf|]. intros _. congruence.
  - split; [exact Hf|]. intros Hne. exfalso. destruct (last (lp_log st)) as [x|] eqn:Ex.
    + simpl in Hlast. apply last_Some in Ex as [l Hlog]. rewrite Hlog in Hf. apply Forall_app in Hf as [_ Hx]. inversion_clear Hx. congruence.
    + by apply last_None in Ex.
Qed.

(** A failed chain left nothing untried, or says so.  If it reports
    "exhausted", every attempt that is still allowed to run was executed; if it
    reports "terminal", the last error was not retryable and some attempt that
    could have run was not. *)
Theorem chain_failure_reason_is_right {W} (fx : FallbackExecution W) attempts w :
  let '(st, _, err) := Execute fx attempts w in
  match err with
  | None => True
  | Some ce =>
      (ce_reason ce = chainExhausted /\
       forall j a, ch_attempts (lp_chain st) !! j = Some a -> executable (lp_chain st) j a = true ->
         exists x, x ∈ lp_log st /\ AttemptIndex x.1 = Z.of_nat j + 1) \/
      (ce_reason ce = chainTerminal /\
       exists e j a, ce_err ce = EAttempt e /\ shouldRetryAttempt (fx_RetryPolicy fx) e = false /\
         ch_attempts (lp_chain st) !! j = Some a /\ executable (lp_chain st) j a = true /\
         Forall (fun x => AttemptIndex x.1 <= Z.of_nat j) (lp_log st))
  end.
Proof.
  pose proof (Execute_post fx attempts w) as H. destruct (Execute fx attempts w) as [[st w'] err].
  destruct H as (e & (_ & _ & _ & _ & Hend) & ->). destruct e as [|[]]; [done| |].
  - destruct Hend as (_ & _ & er & j & a & Hl & H). rewrite Hl. right. split; [done|]. by exists er, j, a.
  - destruct Hend as (_ & _ & H). destruct (lp_lastErr st); by left.
Qed.

(** ** Tickets

    What the loop relies on from the store that issues quota tickets. *)

Class TicketStore (W : Type) (release : QuotaTicket -> W -> W) := {
  liveTicket : W -> QuotaTicket -> Prop;
  release_dead : forall t w, ticket_Valid t = true -> ~ liveTicket (release t w) t;
  release_keeps : forall t t' w, liveTicket (release t w) t' -> liveTicket w t';
}.

Section tickets.
Context {W : Type} (fx : FallbackExecution W) `{!TicketStore W (fx_Release fx)}.

Lemma releaseTickets_keeps attempts : forall w t, liveTicket (releaseTickets fx attempts w) t -> liveTicket w t.
Proof.
  induction attempts as [|a attempts IH]; intros w t H; [done|]. simpl in H. apply IH in H.
  destruct (ticket_Valid (att_QuotaTicket a)); [by apply release_keeps in H|done].
Qed.

Lemma releaseTickets_dead attempts a : forall w,
  a ∈ attempts -> ticket_Valid (att_QuotaTicket a) = true ->
  ~ liveTicket (releaseTickets fx attempts w) (att_QuotaTicket a).
Proof.
  induction attempts as [|b attempts IH]; intros w Hin Hv; [by apply elem_of_nil in Hin|]. simpl.
  apply elem_of_cons in Hin as [<-|Hin]; [|by apply IH].
  rewrite Hv. intros H. apply releaseTickets_keeps in H. by apply release_dead in H.
Qed.
End tickets.

(** No ticket outlives its chain.  However the chain ends, once it has
    returned every quota ticket its attempts came with, and every ticket
    reserved for a later attempt on the way, is settled or released: none of
    them is outstanding in the ledger. *)
Theorem chain_leaves_no_ticket {W} (fx : FallbackExecution W) `{!TicketStore W (fx_Release fx)} attempts w :
  let '(st, w', _) := Execute fx attempts w in
  (forall a, a ∈ attempts -> ticket_Valid (att_QuotaTicket a) = true -> ~ liveTicket w' (att_QuotaTicket a)) /\
  (forall a, a ∈ ch_attempts (lp_chain st) -> ticket_Valid (att_QuotaTicket a) = true -> ~ liveTicket w' (att_QuotaTicket a)).
Proof.
  pose proof (Execute_post fx attempts w) as H. unfold Execute in *. destruct (chainLoop fx _ _) as [st e].
  assert (Hdead : forall a, a ∈ ch_attempts (lp_chain st) -> ticket_Valid (att_QuotaTicket a) = true ->
    ~ liveTicket (releaseTickets fx (ch_attempts (lp_chain st)) (lp_world st)) (att_QuotaTicket a))
    by (intros; by apply releaseTickets_dead).
  assert (Hev : evolves (mkChain attempts ∅ ∅ ∅) (lp_chain st))
    by (destruct e; [|destruct (lp_lastErr st)]; by destruct H as (? & [? _] & _)).
  assert (Hinit : forall a, a ∈ attempts -> ticket_Valid (att_QuotaTicket a) = true ->
    ~ liveTicket (releaseTickets fx (ch_attempts (lp_chain st)) (lp_world st)) (att_QuotaTicket a)).
  { intros a Ha Hv. apply list_elem_of_lookup in Ha as [i Hi].
    destruct (evolves_lookup _ _ i a Hev Hi) as (a' & Hi' & [->|[Hv' _]]); [|congruence].
    apply Hdead; [by eapply list_elem_of_lookup_2|done]. }
  destruct e; [|destruct (lp_lastErr st)]; done.
Qed.

(** What the client is told.  With failures reported by two or more
    providers the answer is a 503 naming them; otherwise it carries the status
    and message of the last attempt's error, or 502 when that has none, so a
    failed request is never answered with status 0.  The Retry-After is the
    shortest positive one of the providers' failures. *)
Theorem failure_response_spec ce :
  let status := (fallbackErrorResponse (Some (DChain ce))).1 in
  (if (1 <? List.length (ce_providerFailures ce))%nat then status = 503
   else match ce_err ce with
        | EAttempt a => status <> 0 /\ (StatusCode a <> 0 -> status = StatusCode a)
        | EOther _ => status = 502
        end) /\
  let waits := List.filter (fun d => 0 <? d) ((fun f => RetryAfter (pf_Error f)) <$> ce_providerFailures ce) in
  (waits = [] -> fallbackRetryAfter (DChain ce) = 0) /\
  (waits <> [] -> fallbackRetryAfter (DChain ce) ∈ waits /\ Forall (fun d => fallbackRetryAfter (DChain ce) <= d) waits).
Proof.
  cbv zeta. split.
  - simpl. destruct (1 <? _)%nat; [done|]. destruct (ce_err ce) as [a|m]; [|done]. simpl.
    destruct (Z.eqb_spec (StatusCode a) 0); done.
  - simpl. set (waits := List.filter _ _).
    assert (Hpos : Forall (fun d => 0 < d) waits).
    { apply Forall_forall. intros d Hd. apply list_elem_of_In, filter_In in Hd as [_ Hd]. by apply Z.ltb_lt. }
    destruct (soonest_spec waits Hpos) as [H0 H1]. split; [intros ->; done|]. intros Hne. by destruct (H1 Hne) as (_ & ? & ?).
Qed.
