(* ===== verification/QuotaProviders.v ===== *)
(** * QuotaProviders: quota facts from provider responses
    (router_quota_providers.go)

    Headers are the list of the header map's entries in the order the loop
    visits them.  The standard parsers of durations and HTTP dates, and the
    decoding of OpenRouter's error body, are parameters. *)

From S2P Require Import Prelude Env Types Float Breaker Quota.
From Stdlib Require Import Lia ZArith String.
#[local] Open Scope string_scope.
#[local] Open Scope Z_scope.

Record providerQuotaObservation := mkPQO {
  pq_Provider : providerID;
  pq_Model : string;
  pq_Scope : string;
  pq_Dimension : string;
  pq_Window : string;
  pq_Limit : Z;
  pq_Remaining : Z;
  pq_HasLimit : bool;
  pq_HasRemaining : bool;
  pq_ResetAt : Z;
  pq_RetryAfter : Z;
  pq_ObservedAt : Z;
  pq_Source : string;
  pq_Classification : string;
  pq_Exhausted : bool;
}.

Definition providerQuotaScopeUnknown : string := "unknown".
Definition providerQuotaScopeAccount : string := "account".
Definition providerQuotaScopeFreePool : string := "free_pool".
Definition providerQuotaScopeModel : string := "model".
Definition providerQuotaDimensionUnknown : string := "unknown".
Definition providerQuotaDimensionRequests : string := "requests".
Definition providerQuotaDimensionTokens : string := "tokens".
Definition providerQuotaWindowUnknown : string := "unknown".
Definition providerQuotaWindowMinute : string := "minute".
Definition providerQuotaWindowDay : string := "day".
Definition providerQuotaSourceHeader : string := "provider_header".
Definition providerQuotaSourceErrorMetadata : string := "error_metadata".
Definition providerQuotaSourceStatusOnly : string := "status_only".
Definition providerQuotaKnown : string := "known".
Definition providerQuotaUnknown : string := "unknown".

Definition ledgerFact (o : providerQuotaObservation) : option (QuotaBucketKey * QuotaObservation) :=
  if negb (str_eq (pq_Classification o) providerQuotaKnown) || negb (pq_HasLimit o) || negb (pq_HasRemaining o) then None
  else if negb (str_eq (pq_Dimension o) QuotaDimensionRequests) && negb (str_eq (pq_Dimension o) QuotaDimensionTokens) then None
  else if negb (str_eq (pq_Window o) QuotaWindowMinute) && negb (str_eq (pq_Window o) QuotaWindowHour) &&
          negb (str_eq (pq_Window o) QuotaWindowDay) then None
  else
    let modelOrPool := if str_eq (pq_Scope o) providerQuotaScopeFreePool then "free" else pq_Model o in
    let source := if str_eq (pq_Source o) providerQuotaSourceErrorMetadata then QuotaSourceProviderBody
                  else QuotaSourceProviderHeader in
    Some (mkKey (pq_Provider o) (pq_Scope o) modelOrPool (pq_Dimension o) (pq_Window o),
          mkObs (pq_Limit o) (pq_Remaining o) (pq_ResetAt o) source QuotaConfidenceAuthoritative (pq_ObservedAt o)).

(** The value and whether it parsed; a negative number parses as a value with
    the flag unset. *)
Definition parseNonNegativeInt64 (raw : string) : Z * bool :=
  match ParseInt64 (TrimSpace raw) with
  | Some v => (v, 0 <=? v)
  | None => (0, false)
  end.

Abbreviation Header := (list (string * list string)).

Fixpoint headerValue (headers : Header) (name : string) : string :=
  match headers with
  | [] => ""
  | (key, values) :: rest =>
      match values with
      | v :: _ => if EqualFold key name then TrimSpace v else headerValue rest name
      | [] => headerValue rest name
      end
  end.

Fixpoint quotaHeader (headers : list (string * string)) (name : string) : string :=
  match headers with
  | [] => ""
  | (key, value) :: rest => if EqualFold key name then TrimSpace value else quotaHeader rest name
  end.

(** [int64((time.Duration(1<<63-1))/time.Second)]. *)
Definition maxSeconds : Z := max_int64 / Second.

(** [time.Unix(n, 0)] and [time.UnixMilli(n)]. *)
Definition time_Unix (sec : Z) : Z := unix_epoch + sec * Second.
Definition time_UnixMilli (ms : Z) : Z := unix_epoch + ms * Millisecond.

Section parsers.
Context (ParseTime : string -> option Z) (ParseDuration : string -> option Z).
(** The code, the headers and the limit source of an OpenRouter error body;
    [None] when the body does not decode. *)
Context (decodeError : string -> option (Z * list (string * string) * string)).

Definition parseRetryAfterAt (raw : string) (now : Z) : Z :=
  let raw := TrimSpace raw in
  let '(seconds, ok) := parseNonNegativeInt64 raw in
  if ok then (if seconds <=? maxSeconds then wrap64 (seconds * Second) else 0)
  else match ParseTime raw with
       | Some parsed => if After parsed now then time_Sub parsed now else 0
       | None => 0
       end.

Definition resetUnixMilliseconds (raw : string) (now : Z) : Z * bool :=
  let '(millis, ok) := parseNonNegativeInt64 raw in
  if negb ok || (millis =? 0) then (0, false) else (time_UnixMilli millis, true).

(** The branch of a bare non-negative integer. *)
Definition resetInteger (raw : string) (now : Z) : Z * bool :=
  let '(n, ok) := parseNonNegativeInt64 raw in
  if negb ok then (0, false)
  else if 1000000000000 <=? n then (time_UnixMilli n, true)
  else if 1000000000 <=? n then (time_Unix n, true)
  else if maxSeconds <? n then (0, false)
  else (time_Add now (wrap64 (n * Second)), true).

Definition resetDurationOrTimestamp (raw : string) (now : Z) : Z * bool :=
  let raw := TrimSpace raw in
  if empty_str raw then (0, false)
  else
    let notDuration := match ParseTime raw with Some parsed => (parsed, true) | None => resetInteger raw now end in
    match ParseDuration raw with
    | Some duration => if 0 <=? duration then (time_Add now duration, true) else notDuration
    | None => notDuration
    end.

Definition observationsFromFields (provider : providerID) (model scope dimension window limitRaw remainingRaw resetRaw : string) (now : Z) (source : string) (parseReset : string -> Z -> Z * bool) : list providerQuotaObservation :=
  let '(limit, hasLimit) := parseNonNegativeInt64 limitRaw in
  let '(remaining, hasRemaining) := parseNonNegativeInt64 remainingRaw in
  let remaining := if hasLimit && hasRemaining && (limit <? remaining) then limit else remaining in
  let '(resetAt, hasReset) := parseReset resetRaw now in
  if negb hasLimit && negb hasRemaining && negb hasReset then []
  else [mkPQO provider model scope dimension window limit remaining hasLimit hasRemaining resetAt 0 now source
          providerQuotaKnown (hasRemaining && (remaining =? 0))].

Definition observeOpenRouterQuota (model : string) (status : Z) (headers : Header) (body : string) (now : Z) : list providerQuotaObservation :=
  let generic := observationsFromFields providerOpenRouter model providerQuotaScopeAccount
      providerQuotaDimensionRequests providerQuotaWindowUnknown
      (headerValue headers "X-RateLimit-Limit") (headerValue headers "X-RateLimit-Remaining")
      (headerValue headers "X-RateLimit-Reset") now providerQuotaSourceHeader resetUnixMilliseconds in
  if status =? 429 then
    match decodeError body with
    | Some (code, hs, limitSource) =>
        if (code =? 429) && str_eq limitSource "openrouter_free_tier_daily" then
          observationsFromFields providerOpenRouter model providerQuotaScopeFreePool
            providerQuotaDimensionRequests providerQuotaWindowDay
            (quotaHeader hs "X-RateLimit-Limit") (quotaHeader hs "X-RateLimit-Remaining")
            (quotaHeader hs "X-RateLimit-Reset") now providerQuotaSourceErrorMetadata resetUnixMilliseconds
        else generic
    | None => generic
    end
  else generic.

Definition observeCerebrasQuota (model : string) (headers : Header) (now : Z) : list providerQuotaObservation :=
  (observationsFromFields providerCerebras model providerQuotaScopeModel
     providerQuotaDimensionRequests providerQuotaWindowDay
     (headerValue headers "X-RateLimit-Limit-Requests-Day")
     (headerValue headers "X-RateLimit-Remaining-Requests-Day")
     (headerValue headers "X-RateLimit-Reset-Requests-Day") now providerQuotaSourceHeader resetDurationOrTimestamp ++
   observationsFromFields providerCerebras model providerQuotaScopeModel
     providerQuotaDimensionTokens providerQuotaWindowMinute
     (headerValue headers "X-RateLimit-Limit-Tokens-Minute")
     (headerValue headers "X-RateLimit-Remaining-Tokens-Minute")
     (headerValue headers "X-RateLimit-Reset-Tokens-Minute") now providerQuotaSourceHeader resetDurationOrTimestamp)%list.

Definition observeGroqQuota (model : string) (headers : Header) (now : Z) : list providerQuotaObservation :=
  (observationsFromFields providerGroq model providerQuotaScopeModel
     providerQuotaDimensionRequests providerQuotaWindowDay
     (headerValue headers "X-RateLimit-Limit-Requests")
     (headerValue headers "X-RateLimit-Remaining-Requests")
     (headerValue headers "X-RateLimit-Reset-Requests") now providerQuotaSourceHeader resetDurationOrTimestamp ++
   observationsFromFields providerGroq model providerQuotaScopeModel
     providerQuotaDimensionTokens providerQuotaWindowMinute
     (headerValue headers "X-RateLimit-Limit-Tokens")
     (headerValue headers "X-RateLimit-Remaining-Tokens")
     (headerValue headers "X-RateLimit-Reset-Tokens") now providerQuotaSourceHeader resetDurationOrTimestamp)%list.

Definition set_RetryAfter (d : Z) (o : providerQuotaObservation) : providerQuotaObservation :=
  mkPQO (pq_Provider o) (pq_Model o) (pq_Scope o) (pq_Dimension o) (pq_Window o) (pq_Limit o) (pq_Remaining o)
    (pq_HasLimit o) (pq_HasRemaining o) (pq_ResetAt o) d (pq_ObservedAt o) (pq_Source o) (pq_Classification o) (pq_Exhausted o).

(** [clock] is the reading taken when no observation time is given. *)
Definition observeProviderQuota (provider : providerID) (model : string) (status : Z) (headers : Header) (body : string) (observedAt clock : Z) : list providerQuotaObservation :=
  let observedAt := if IsZero observedAt then clock else observedAt in
  let retryAfter := parseRetryAfterAt (headerValue headers "Retry-After") observedAt in
  let observations :=
    if str_eq provider providerOpenRouter then observeOpenRouterQuota model status headers body observedAt
    else if str_eq provider providerCerebras then observeCerebrasQuota model headers observedAt
    else if str_eq provider providerGroq then observeGroqQuota model headers observedAt
    else [] in
  match set_RetryAfter retryAfter <$> observations with
  | [] =>
      if status =? 429 then
        [mkPQO provider model providerQuotaScopeUnknown providerQuotaDimensionUnknown providerQuotaWindowUnknown
           0 0 false false 0 retryAfter observedAt providerQuotaSourceStatusOnly providerQuotaUnknown true]
      else []
  | os => os
  end.
End parsers.

(** ** Lemmas *)

Lemma parseNonNegativeInt64_range raw : (parseNonNegativeInt64 raw).2 = true -> nat_int64 (parseNonNegativeInt64 raw).1.
Proof.
  unfold parseNonNegativeInt64. destruct (ParseInt64 _) as [v|] eqn:E; simpl; [|done].
  intros H. apply ParseInt64_range in E. unfold in_int64, nat_int64 in *. zbool. lia.
Qed.

(** What every fact handed to the ledger satisfies. *)
Definition factOK (o : providerQuotaObservation) : Prop :=
  pq_HasLimit o = true -> pq_HasRemaining o = true ->
  0 <= pq_Remaining o <= pq_Limit o /\ pq_Limit o <= max_int64.

Lemma observationsFromFields_ok provider model scope dimension window l r rs now source parseReset :
  Forall factOK (observationsFromFields provider model scope dimension window l r rs now source parseReset).
Proof.
  unfold observationsFromFields.
  pose proof (parseNonNegativeInt64_range l) as Hl. pose proof (parseNonNegativeInt64_range r) as Hr.
  destruct (parseNonNegativeInt64 l) as [limit hasLimit], (parseNonNegativeInt64 r) as [remaining hasRemaining].
  destruct (parseReset rs now) as [resetAt hasReset]. destruct (_ && _ && negb hasReset); [constructor|].
  constructor; [|constructor]. intros H1 H2. simpl in *. subst. simpl. specialize (Hl eq_refl). specialize (Hr eq_refl).
  unfold nat_int64 in *. destruct (Z.ltb_spec limit remaining); lia.
Qed.

Lemma observeProviderQuota_ok ParseTime ParseDuration decodeError provider model status headers body observedAt clock :
  Forall factOK (observeProviderQuota ParseTime ParseDuration decodeError provider model status headers body observedAt clock).
Proof.
  unfold observeProviderQuota. set (os := if str_eq provider providerOpenRouter then _ else _).
  assert (H : Forall factOK os).
  { unfold os, observeOpenRouterQuota, observeCerebrasQuota, observeGroqQuota.
    repeat case_match; auto using observationsFromFields_ok; apply Forall_app; auto using observationsFromFields_ok. }
  clearbody os. destruct os as [|o os]; simpl.
  - destruct (status =? 429); [|constructor]. by repeat constructor.
  - inversion_clear H as [|? ? Ho Hos]. constructor; [done|]. rewrite Forall_fmap. done.
Qed.

(** Whatever a provider answers, the facts that reach the ledger are
    within range: the delay of a Retry-After is a non-negative [int64], a
    reported remaining lies between 0 and its limit, and a response that names
    no window or no dimension, or only a status, creates no bucket at all. *)
Theorem provider_facts_in_range ParseTime ParseDuration decodeError provider model status headers body observedAt clock o :
  o ∈ observeProviderQuota ParseTime ParseDuration decodeError provider model status headers body observedAt clock ->
  nat_int64 (parseRetryAfterAt ParseTime (headerValue headers "Retry-After") clock) /\
  match ledgerFact o with
  | Some (key, fact) =>
      0 <= obs_Remaining fact <= obs_Limit fact /\ obs_Limit fact <= max_int64 /\
      (key_Dimension key = QuotaDimensionRequests \/ key_Dimension key = QuotaDimensionTokens) /\
      (key_Window key = QuotaWindowMinute \/ key_Window key = QuotaWindowHour \/ key_Window key = QuotaWindowDay) /\
      obs_Confidence fact = QuotaConfidenceAuthoritative
  | None => pq_Classification o <> providerQuotaKnown \/ pq_HasLimit o = false \/ pq_HasRemaining o = false \/
            ~ In (pq_Dimension o) [QuotaDimensionRequests; QuotaDimensionTokens] \/
            ~ In (pq_Window o) [QuotaWindowMinute; QuotaWindowHour; QuotaWindowDay]
  end.
Proof.
  intros Hin. split.
  - unfold parseRetryAfterAt. pose proof (parseNonNegativeInt64_range (TrimSpace (headerValue headers "Retry-After"))) as Hr.
    destruct (parseNonNegativeInt64 _) as [s []]; simpl in *.
    + specialize (Hr eq_refl). unfold nat_int64, maxSeconds, Second, Millisecond, max_int64, two63 in *.
      destruct (Z.leb_spec s ((9223372036854775808 - 1) / (1000 * 1000000))) as [Hle|]; [|lia].
      assert (s * (1000 * 1000000) <= 9223372036854775807) by (change ((9223372036854775808 - 1) / (1000 * 1000000)) with 9223372036 in Hle; lia).
      rewrite wrap64_id by (unfold in_int64, min_int64, max_int64, two63; lia). lia.
    + destruct (ParseTime _); [|done]. unfold After. destruct (Z.ltb_spec clock z); [|done].
      unfold nat_int64, time_Sub, max_int64, min_int64, two63. lia.
  - pose proof (observeProviderQuota_ok ParseTime ParseDuration decodeError provider model status headers body observedAt clock) as Hok.
    rewrite Forall_forall in Hok. specialize (Hok o Hin). unfold factOK in Hok. unfold ledgerFact.
    destruct (str_eq (pq_Classification o) providerQuotaKnown) eqn:Ec; simpl; [|left; by apply str_eq_false].
    destruct (pq_HasLimit o); simpl; [|right; by left]. destruct (pq_HasRemaining o); simpl; [|right; right; by left].
    specialize (Hok eq_refl eq_refl).
    destruct (str_eq (pq_Dimension o) QuotaDimensionRequests) eqn:Ed1, (str_eq (pq_Dimension o) QuotaDimensionTokens) eqn:Ed2;
      simpl; strs; try (right; right; right; left; intros [?|[?|[]]]; congruence).
    all: destruct (str_eq (pq_Window o) QuotaWindowMinute) eqn:E1, (str_eq (pq_Window o) QuotaWindowHour) eqn:E2,
      (str_eq (pq_Window o) QuotaWindowDay) eqn:E3; simpl; strs;
      try (right; right; right; right; intros [?|[?|[?|[]]]]; congruence); destruct Hok as [[] ?]; split_and!; auto.
Qed.

Lemma provider_facts_in_range_witness :
  exists o, ledgerFact o <> None /\
    nat_int64 (parseRetryAfterAt (fun _ => None) (headerValue [("x-ratelimit-limit-requests", ["10"]); ("X-Ratelimit-Remaining-Requests", ["12"])] "Retry-After") 5).
Proof.
  exists (set_RetryAfter 0 (mkPQO "groq" "m" "model" "requests" "day" 10 10 true true 0 0 4 "provider_header" "known" false)).
  split; [by vm_compute|].
  apply (provider_facts_in_range (fun _ => None) (fun _ => None) (fun _ => None) "groq" "m" 200
    [("x-ratelimit-limit-requests", ["10"]); ("X-Ratelimit-Remaining-Requests", ["12"])] "" 4 5
    (set_RetryAfter 0 (mkPQO "groq" "m" "model" "requests" "day" 10 10 true true 0 0 4 "provider_header" "known" false))).
  vm_compute. left.
Defined.
