(* ===== verification/QuotaPolicy.v ===== *)
(** * QuotaPolicy: what a request costs and whether a provider can take it
    (router_quota_routing.go, lines 17-335)

    The scope of a bucket, the estimate of a request, the published free-tier
    defaults that stand in for unknown limits, the reservations an attempt
    needs, the test that they fit, the pressure they put on the tightest
    bucket, and the cooldowns after a refusal.  The ledger is passed through
    every call, because reading it removes what has expired.  [fingerprint] is
    the first six bytes of SHA-256 in hexadecimal. *)

From S2P Require Import Prelude Float Types Env Breaker Quota Fallback.
From Stdlib Require Import Lia ZArith String SpecFloat.
#[local] Open Scope string_scope.
#[local] Open Scope Z_scope.

(** ** Estimates *)

(** A decoded JSON value, as far as a token limit is read from it. *)
Inductive goValue :=
| VInt (n : Z)            (* int and int64 *)
| VFloat (f : float64)
| VNumber (s : string)    (* json.Number *)
| VOther.                 (* nil and every other type *)

(** A finite non-negative float as an integer: its floor, and whether
    [math.Trunc v == v]. *)
Definition float_floor (f : float64) : option (Z * bool) :=
  match f with
  | S754_zero _ => Some (0, true)
  | S754_finite false m e =>
      if 0 <=? e then Some (Z.pos m * 2 ^ e, true)
      else Some (Z.pos m / 2 ^ (- e), Z.pos m mod 2 ^ (- e) =? 0)
  | _ => None
  end.

(** [math.MaxInt64] rounds to 2^63 as a [float64], and Go leaves the conversion
    of 2^63 to the implementation: [conv] is its result. *)
Definition numericInt64 (conv : Z -> Z) (value : goValue) : Z * bool :=
  match value with
  | VInt n => (n, true)
  | VFloat f =>
      match float_floor f with
      | Some (n, true) => if n <=? two63 then (if n <? two63 then n else conv n, true) else (0, false)
      | _ => (0, false)
      end
  | VNumber s => match ParseInt64 s with Some n => (n, true) | None => (0, false) end
  | VOther => (0, false)
  end.

(** [len] is the length of the body encoded as JSON, and [body] its lookup.
    [math.Ceil(float64(len)/4)] is exact below 2^53. *)
Definition estimateRequestQuota (conv : Z -> Z) (env : environ) (len : Z) (body : string -> goValue) : QuotaEstimate :=
  let input := (len + 3) / 4 in
  let input := if input <? 1 then 1 else input in
  let fromKey key := let '(v, ok) := numericInt64 conv (body key) in if ok && (0 <=? v) then Some v else None in
  let '(output, explicit) :=
    match fromKey "max_completion_tokens" with
    | Some v => (v, true)
    | None => match fromKey "max_tokens" with
              | Some v => (v, true)
              | None => (envInt env "PROXY_DEFAULT_OUTPUT_TOKENS" 1024, false)
              end
    end in
  mkEstimate 1 (wrap64 (input + output)) input output explicit.

Definition providerQuotaEstimate (env : environ) (attempt : modelAttempt) (e : QuotaEstimate) : QuotaEstimate :=
  if qe_OutputExplicit e || (qe_InputTokens e <=? 0) then e
  else
    let output :=
      if str_eq (Provider attempt) providerCerebras then envInt env "PROXY_CEREBRAS_DEFAULT_MAX_COMPLETION_TOKENS" 32768
      else if str_eq (Provider attempt) providerGroq then envInt env "PROXY_GROQ_DEFAULT_MAX_COMPLETION_TOKENS" 4096
      else qe_OutputTokens e in
    let output := if output <? 0 then 0 else output in
    mkEstimate (qe_Requests e) (wrap64 (qe_InputTokens e + output)) (qe_InputTokens e) output (qe_OutputExplicit e).

(** The usage object of a response; [None] when the body does not decode. *)
Record usage := mkUsage {
  us_TotalTokens : Z;
  us_InputTokens : Z;
  us_OutputTokens : Z;
  us_PromptTokens : Z;
  us_CompletionTokens : Z;
}.

Definition actualResponseTokens (response : option usage) (fallback : Z) : Z :=
  match response with
  | None => fallback
  | Some u =>
      if 0 <? us_TotalTokens u then us_TotalTokens u
      else if 0 <? wrap64 (us_InputTokens u + us_OutputTokens u) then wrap64 (us_InputTokens u + us_OutputTokens u)
      else if 0 <? wrap64 (us_PromptTokens u + us_CompletionTokens u) then wrap64 (us_PromptTokens u + us_CompletionTokens u)
      else fallback
  end.

(** ** Resets and scopes *)

Definition Day : Z := 24 * Hour.

(** Midnight UTC: times count from midnight of the first day of year 1. *)
Definition nextUTCReset (now : Z) : Z := (now / Day + 1) * Day.

Definition nextMinuteReset (now : Z) : Z := time_Add (time_Truncate now Minute) Minute.

Definition publicQuotaScope (scope : string) : string :=
  match String.index 0 ":" scope with
  | Some n => String.substring 0 n scope
  | None => scope
  end.

Definition quotaHoldBudget (env : environ) : Z := wrap64 (envInt env "PROXY_QUOTA_HOLD_MAX_MS" 75000 * Millisecond).

Definition isFree (model : string) : bool := HasSuffix (ToLower model) ":free".

Section policy.
Context (fingerprint : string -> string) (svc : RouterStatic) (env : environ).

Definition credentialQuotaScope (scope credential : string) : string :=
  let credential := TrimSpace credential in
  if empty_str credential then scope else scope +:+ ":" +:+ fingerprint credential.

(** ** Bootstrap defaults *)

(** A default: the bucket, its limit and its reset. *)
Record bootEntry := mkBoot {
  be_key : QuotaBucketKey;
  be_limit : Z;
  be_reset : Z;
}.

Definition observeIfUnknown (now : Z) (l : QuotaLedger) (e : bootEntry) : QuotaLedger :=
  if be_limit e <=? 0 then l
  else match Snapshot (be_key e) now l with
       | (l, Some _) => l
       | (l, None) =>
           (Observe (be_key e) (mkObs (be_limit e) (be_limit e) (be_reset e) QuotaSourceConfig QuotaConfidenceEstimated now) now l).1
       end.

(** The calls of [observeIfUnknown], in order. *)
Definition bootstrapEntries (attempt : modelAttempt) (credential : string) (now : Z) : list bootEntry :=
  let provider := normalizedProvider svc attempt in
  let model := Model attempt in
  let scope := credentialQuotaScope "model" credential in
  if str_eq (Provider attempt) providerOpenRouter then
    if negb (isFree model) then []
    else
      let pool := credentialQuotaScope "free_pool" credential in
      [ mkBoot (mkKey provider pool quotaFreePool QuotaDimensionRequests QuotaWindowDay) (envInt env "PROXY_OPENROUTER_FREE_RPD" 50) (nextUTCReset now);
        mkBoot (mkKey provider pool quotaFreePool QuotaDimensionRequests QuotaWindowMinute) (envInt env "PROXY_OPENROUTER_FREE_RPM" 20) (nextMinuteReset now) ]
  else if str_eq (Provider attempt) providerCerebras then
    [ mkBoot (mkKey provider scope model QuotaDimensionRequests QuotaWindowDay) (envInt env "PROXY_CEREBRAS_RPD" 14400) (time_Add now (24 * Hour));
      mkBoot (mkKey provider scope model QuotaDimensionRequests QuotaWindowMinute) (envInt env "PROXY_CEREBRAS_RPM" 30) (nextMinuteReset now);
      mkBoot (mkKey provider scope model QuotaDimensionTokens QuotaWindowMinute) (envInt env "PROXY_CEREBRAS_TPM" 64000) (nextMinuteReset now);
      mkBoot (mkKey provider scope model QuotaDimensionTokens QuotaWindowDay) (envInt env "PROXY_CEREBRAS_TPD" 1000000) (time_Add now (24 * Hour)) ]
  else if str_eq (Provider attempt) providerGroq then
    let '(rpd, tpm, tpd) := if Contains (ToLower model) "llama-3.1-8b" then (14400, 6000, 500000) else (1000, 8000, 200000) in
    [ mkBoot (mkKey provider scope model QuotaDimensionRequests QuotaWindowDay) (envInt env "PROXY_GROQ_RPD" rpd) (time_Add now (24 * Hour));
      mkBoot (mkKey provider scope model QuotaDimensionRequests QuotaWindowMinute) (envInt env "PROXY_GROQ_RPM" 30) (nextMinuteReset now);
      mkBoot (mkKey provider scope model QuotaDimensionTokens QuotaWindowMinute) (envInt env "PROXY_GROQ_TPM" tpm) (nextMinuteReset now);
      mkBoot (mkKey provider scope model QuotaDimensionTokens QuotaWindowDay) (envInt env "PROXY_GROQ_TPD" tpd) (time_Add now (24 * Hour)) ]
  else [].

Definition ensureBootstrapQuota (attempt : modelAttempt) (credential : string) (now : Z) (l : QuotaLedger) : QuotaLedger :=
  fold_left (observeIfUnknown now) (bootstrapEntries attempt credential now) l.

(** ** Reservations, pressure, fit *)

(** The two [continue]s of the loop over the keys. *)
Definition drawsOn (attempt : modelAttempt) (credential : string) (key : QuotaBucketKey) : bool :=
  let free := str_eq (Provider attempt) providerOpenRouter && isFree (Model attempt) in
  let baseScope := if free then "free_pool" else "model" in
  str_eq (key_Provider key) (normalizedProvider svc attempt) &&
  str_eq (key_Scope key) (credentialQuotaScope baseScope credential) &&
  (str_eq (key_ModelOrPool key) (Model attempt) || (free && str_eq (key_ModelOrPool key) quotaFreePool)).

Definition costOf (e : QuotaEstimate) (key : QuotaBucketKey) : Z :=
  if str_eq (key_Dimension key) QuotaDimensionTokens then qe_Tokens e else qe_Requests e.

Definition quotaReservations (attempt : modelAttempt) (credential : string) (e : QuotaEstimate) (now : Z) (l : QuotaLedger) : QuotaLedger * list QuotaReservation :=
  let e := providerQuotaEstimate env attempt e in
  let l := ensureBootstrapQuota attempt credential now l in
  let '(l, keys) := Keys now l in
  (l, (fun key => mkReservation key (costOf e key)) <$>
        List.filter (fun key => drawsOn attempt credential key && (0 <? costOf e key)) keys).

Fixpoint pressureLoop (now : Z) (rs : list QuotaReservation) (pressure : float64) (l : QuotaLedger) : QuotaLedger * float64 :=
  match rs with
  | [] => (l, pressure)
  | r :: rest =>
      let '(l, snap) := Snapshot (res_Key r) now l in
      match snap with
      | None => pressureLoop now rest pressure l
      | Some s =>
          let limit := obs_Limit (snap_Obs s) in
          if limit <=? 0 then pressureLoop now rest pressure l
          else
            let predictedAvailable := wrap64 (snap_Available s - res_Cost r) in
            if predictedAvailable <? 0 then (l, f1)
            else
              let candidate := fdiv (f_of_Z (wrap64 (limit - predictedAvailable))) (f_of_Z limit) in
              pressureLoop now rest (if fltb pressure candidate then candidate else pressure) l
      end
  end.

Definition quotaPressure (attempt : modelAttempt) (credential : string) (e : QuotaEstimate) (now : Z) (l : QuotaLedger) : QuotaLedger * (float64 * bool) :=
  let '(l, rs) := quotaReservations attempt credential e now l in
  if (List.length rs =? 0)%nat then (l, (f0, false))
  else let '(l, p) := pressureLoop now rs f0 l in (l, (p, true)).

(** The test of one reservation against a snapshot. *)
Definition snapshotFits (s : QuotaSnapshot) (cost : Z) : bool :=
  (cost <=? snap_Available s) ||
  (str_eq (obs_Confidence (snap_Obs s)) QuotaConfidenceEstimated && (snap_Reserved s =? 0) && negb (snap_ProbeSettled s)).

Fixpoint fitLoop (now : Z) (rs : list QuotaReservation) (l : QuotaLedger) : QuotaLedger * bool :=
  match rs with
  | [] => (l, true)
  | r :: rest =>
      let '(l, snap) := Snapshot (res_Key r) now l in
      match snap with
      | None => fitLoop now rest l
      | Some s => if snapshotFits s (res_Cost r) then fitLoop now rest l else (l, false)
      end
  end.

Definition quotaCanFit (attempt : modelAttempt) (credential : string) (e : QuotaEstimate) (now : Z) (l : QuotaLedger) : QuotaLedger * bool :=
  let '(l, rs) := quotaReservations attempt credential e now l in fitLoop now rs l.

(** ** Cooldowns *)

Definition quotaCooldownKey (attempt : modelAttempt) : string :=
  normalizedProvider svc attempt +:+ nul +:+ Model attempt.

(** The zero time when the key has no entry. *)
Definition cooldownUntil (cooldowns : gmap string Z) (attempt : modelAttempt) : Z :=
  default 0 (cooldowns !! quotaCooldownKey attempt).

Definition quotaAttemptAvailable (cooldowns : gmap string Z) (attempt : modelAttempt) (now : Z) : bool :=
  negb (After (cooldownUntil cooldowns attempt) now).

Definition setQuotaCooldown (attempt : modelAttempt) (duration now : Z) (cooldowns : gmap string Z) : gmap string Z * Z :=
  let duration := if duration <=? 0 then 2 * Second else duration in
  let until := time_Add now duration in
  (if After until (cooldownUntil cooldowns attempt) then <[quotaCooldownKey attempt := until]> cooldowns else cooldowns, duration).

Definition quotaCooldownRemaining (cooldowns : gmap string Z) (attempt : modelAttempt) (now : Z) : Z :=
  let until := cooldownUntil cooldowns attempt in
  if negb (After until now) then 0 else time_Sub until now.

Definition reserveFallbackQuota (cooldowns : gmap string Z) (attempt : modelAttempt) (credential : string) (e : QuotaEstimate) (now : Z) (l : QuotaLedger) : QuotaLedger * option QuotaTicket :=
  if negb (quotaAttemptAvailable cooldowns attempt now) then (l, None)
  else let '(l, rs) := quotaReservations attempt credential e now l in ReserveAll rs now l.
End policy.

(** ** Ledgers with valid keys

    [ledgerValid]: every bucket and every hold is under a valid key.  With the
    ledger's own invariant it holds of every ledger the service can reach. *)

Definition ledgerValid (l : QuotaLedger) : Prop :=
  (forall k, is_Some (lg_buckets l !! k) -> validQuotaKey k = true) /\
  (forall id holds k, lg_tickets l !! id = Some holds -> is_Some (holds !! k) -> validQuotaKey k = true).

Definition kept (l : QuotaLedger) : Prop := ledgerOK l /\ ledgerValid l.

Lemma valid_buckets l m :
  (forall k, is_Some (m !! k) -> is_Some (lg_buckets l !! k)) -> ledgerValid l -> ledgerValid (set_buckets m l).
Proof. intros Hm [H1 H2]. split; simpl; eauto. Qed.

Lemma valid_purge now l : ledgerValid l -> ledgerValid (purgeExpiredLocked now l).
Proof. apply valid_buckets. intros k [b Hb]. apply map_lookup_filter_Some in Hb as [Hb _]. eauto. Qed.

Lemma valid_delete key l : ledgerValid l -> ledgerValid (deleteBucket key l).
Proof. apply valid_buckets. intros k [b Hb]. apply lookup_delete_Some in Hb as [_ Hb]. eauto. Qed.

Lemma valid_put key o l : validQuotaKey key = true -> ledgerValid l -> ledgerValid (putObservation key o l).
Proof.
  intros Hk [H1 H2]. unfold putObservation. destruct (lg_buckets l !! key) eqn:E; split; simpl; eauto.
  intros k [b Hb]. destruct (decide (key = k)) as [<-|Hne]; [done|]. rewrite lookup_insert_ne in Hb by done. eauto.
Qed.

Lemma valid_Observe key o now l : ledgerValid l -> ledgerValid (Observe key o now l).1.
Proof.
  intros H. unfold Observe. destruct (validQuotaKey key) eqn:Hk; simpl; [|done].
  destruct (_ || _); [done|]. cbv zeta. apply (valid_purge now) in H.
  destruct (expired _ now); simpl; auto using valid_delete, valid_put.
Qed.

Lemma valid_Snapshot key now l : ledgerValid l -> ledgerValid (Snapshot key now l).1.
Proof.
  intros H. apply (valid_purge now) in H. unfold Snapshot. cbv zeta. destruct (bucketAt _ key); [|done].
  destruct (staleMinute _ _ _); simpl; auto using valid_delete.
Qed.

Lemma valid_tickets l m :
  (forall id holds k, m !! id = Some holds -> is_Some (holds !! k) -> validQuotaKey k = true) ->
  ledgerValid l -> ledgerValid (set_tickets m l).
Proof. intros Hm [H1 H2]. split; eauto. Qed.

Lemma aggregate_keys rs : forall acc amounts k,
  aggregateFrom acc rs = Some amounts -> is_Some (amounts !! k) -> is_Some (acc !! k) \/ validQuotaKey k = true.
Proof.
  induction rs as [|r rs IH]; intros acc amounts k H Hk; simpl in H; [injection H as <-; auto|].
  destruct (validQuotaKey (res_Key r)) eqn:E; simpl in H; [|done]. destruct (_ <? 0); [done|].
  destruct (_ =? 0); [eauto|]. destruct (_ <? 0); [done|]. apply (IH _ _ k) in H as [H|H]; auto.
  destruct (decide (res_Key r = k)) as [<-|Hne]; [auto|]. rewrite lookup_insert_ne in H by done. auto.
Qed.

Lemma valid_ReserveAll rs now l : ledgerValid l -> ledgerValid (ReserveAll rs now l).1.
Proof.
  intros H. unfold ReserveAll. destruct (aggregateReservations rs) as [amounts|] eqn:Ea; [|done]. cbv zeta.
  apply (valid_purge now) in H. destruct (forallb _ _); [|done]. destruct (newTicketIDLocked _); [|done].
  apply (valid_tickets (set_nextTicketID z _)); [|done]. simpl. intros id holds k Hid Hk.
  apply lookup_insert_Some in Hid as [[_ <-]|[_ Hid]]; [|by apply (proj2 H id holds)].
  rewrite makeHolds_lookup, fmap_is_Some in Hk. apply (aggregate_keys rs ∅ amounts k) in Ea as [[? E]|]; [|done..].
  by rewrite lookup_empty in E.
Qed.

Lemma valid_consume id l : ledgerValid l -> ledgerValid (set_tickets (delete id (lg_tickets l)) l).
Proof.
  intros H. apply valid_tickets; [|done]. intros i holds k Hi. apply lookup_delete_Some in Hi as [_ Hi].
  by apply (proj2 H i).
Qed.

Lemma valid_Release t now l : ledgerValid l -> ledgerValid (Release t now l).1.
Proof.
  intros H. unfold Release. destruct (negb _); [done|]. apply (valid_purge now) in H. cbv zeta.
  unfold consumeTicketLocked. destruct (_ !! _); [|done]. by apply (valid_consume (tk_id t)) in H.
Qed.

Lemma valid_reconcileFold byKey now hl : forall l,
  (forall k h, (k, h) ∈ hl -> validQuotaKey k = true) -> ledgerValid l ->
  ledgerValid (fold_left (reconcileOne byKey now) hl l).
Proof.
  assert (Hon : forall h f l, ledgerValid l -> ledgerValid (onHeld h f l)).
  { intros h f l H. unfold onHeld. by destruct (hold_bucket h). }
  induction hl as [|[k h] hl IH]; intros l Hk H; [done|]. simpl. apply IH; [intros; eapply Hk; by right|].
  assert (validQuotaKey k = true) by (eapply Hk; by left). unfold reconcileOne.
  destruct (byKey !! k) as [s|]; [|auto]. destruct (set_Observation s); [|auto].
  destruct (expired _ _); auto using valid_delete, valid_put.
Qed.

Lemma valid_Reconcile t ss now l : ledgerValid l -> ledgerValid (Reconcile t ss now l).1.
Proof.
  intros H. unfold Reconcile. destruct (negb _); [done|]. destruct (settlementsByKey ∅ ss); [|done]. cbv zeta.
  apply (valid_purge now) in H. destruct (_ !! tk_id t) as [holds|] eqn:E; [|done]. destruct (forallb _ _); [|done].
  apply valid_reconcileFold; [|by apply valid_consume].
  intros k h Hkh. apply elem_of_map_to_list in Hkh. apply (proj2 H _ _ k E). eauto.
Qed.

Lemma runLedgerOp_kept l op : opInt64 op -> kept l -> kept (runLedgerOp l op).
Proof.
  intros Hop [H1 H2]. split; [by apply runLedgerOp_ok|].
  destruct op; simpl; auto using valid_Observe, valid_Snapshot, valid_ReserveAll, valid_Release, valid_Reconcile, valid_purge.
Qed.

Lemma reachable_kept ops id : Forall opInt64 ops -> kept (fold_left runLedgerOp ops (NewQuotaLedger id)).
Proof.
  intros Hops. assert (H : kept (NewQuotaLedger id)).
  { split; [apply new_ledgerOK|]. split; simpl; [intros k [? Hk]|intros ? ? ? Hk]; by rewrite lookup_empty in Hk. }
  revert H. generalize (NewQuotaLedger id). induction Hops as [|op ops Hop Hops IH]; intros l H; [done|].
  simpl. by apply IH, runLedgerOp_kept.
Qed.

(** ** Reading a tidy ledger

    [tidy now l]: well kept, and nothing in it has expired at [now].  Every
    reading starts by making the ledger tidy; on a tidy ledger a reading only
    drops the stale minute bucket it meets. *)

Definition tidy (now : Z) (l : QuotaLedger) : Prop :=
  kept l /\ forall k b, bucketAt l k = Some b -> expired (bk_observation b) now = false.

Section tidy_lemmas.
Context (now : Z).

Lemma bucketAt_purge l k b :
  bucketAt (purgeExpiredLocked now l) k = Some b <-> bucketAt l k = Some b /\ expired (bk_observation b) now = false.
Proof.
  unfold bucketAt, purgeExpiredLocked. simpl.
  destruct (filter _ (lg_buckets l) !! k) as [i|] eqn:E; simpl.
  - apply map_lookup_filter_Some in E as [E1 E2]. rewrite E1. simpl. unfold keepBucket in E2.
    destruct (lg_heap l !! i); [|naive_solver]. apply negb_true_iff in E2. naive_solver.
  - apply map_lookup_filter_None in E as [E|E]; [rewrite E; simpl; naive_solver|].
    destruct (lg_buckets l !! k) as [i|]; simpl; [|naive_solver]. specialize (E i eq_refl). unfold keepBucket in E.
    destruct (lg_heap l !! i); [|naive_solver]. split; [done|]. intros [[= ->] Hx]. by rewrite Hx in E.
Qed.

Lemma tidy_purge l : kept l -> tidy now (purgeExpiredLocked now l).
Proof.
  intros [[own H] H2]. split; [split; [exists own; by apply okWith_purge|by apply valid_purge]|].
  intros k b Hb. by apply bucketAt_purge in Hb as [_ ?].
Qed.

Lemma purge_tidy l : tidy now l -> purgeExpiredLocked now l = l.
Proof.
  intros [_ H]. unfold purgeExpiredLocked. rewrite map_filter_id; [by destruct l|].
  intros k b Hb. unfold keepBucket. destruct (lg_heap l !! b) as [bk|] eqn:E; [|done].
  rewrite (H k bk); [done|]. unfold bucketAt. by rewrite Hb.
Qed.

Lemma bucketAt_delete key l k : bucketAt (deleteBucket key l) k = if decide (key = k) then None else bucketAt l k.
Proof.
  unfold bucketAt, deleteBucket. simpl. destruct (decide (key = k)) as [<-|Hne]; [by rewrite lookup_delete_eq|].
  by rewrite lookup_delete_ne.
Qed.

Lemma tidy_delete key l : tidy now l -> tidy now (deleteBucket key l).
Proof.
  intros [[[own H] Hv] He]. split; [split; [exists own; by apply okWith_deleteBucket|by apply valid_delete]|].
  intros k b. rewrite bucketAt_delete. destruct (decide _); [done|]. apply He.
Qed.

Lemma bucketAt_None l k : kept l -> bucketAt l k = None -> lg_buckets l !! k = None.
Proof.
  intros [[own H] _] Hb. unfold bucketAt in Hb. destruct (lg_buckets l !! k) as [i|] eqn:E; [|done]. simpl in Hb.
  destruct (ok_live _ _ _ H k i E). congruence.
Qed.

Lemma bucketAt_valid l k b : kept l -> bucketAt l k = Some b -> validQuotaKey k = true.
Proof.
  intros [_ [H _]] Hb. apply H. unfold bucketAt in Hb. destruct (lg_buckets l !! k) eqn:E; [eauto|done].
Qed.

Lemma Snapshot_tidy key l :
  tidy now l ->
  Snapshot key now l =
    match bucketAt l key with
    | None => (l, None)
    | Some b => if staleMinute key (bk_observation b) now then (deleteBucket key l, None)
                else (l, Some (mkSnapshot (bk_observation b) key (bk_reserved b) (availableOf b) (bk_probeSettled b)))
    end.
Proof. intros H. unfold Snapshot. by rewrite purge_tidy. Qed.

Lemma Snapshot_purge key l : kept l -> Snapshot key now l = Snapshot key now (purgeExpiredLocked now l).
Proof. intros H. unfold Snapshot. by rewrite (purge_tidy (purgeExpiredLocked now l)) by by apply tidy_purge. Qed.

(** ** Bootstrap entries *)

(** Nothing left to do for the default. *)
Definition steady (l : QuotaLedger) (e : bootEntry) : Prop :=
  be_limit e <= 0 \/ validQuotaKey (be_key e) = false \/
  exists b, bucketAt l (be_key e) = Some b /\ staleMinute (be_key e) (bk_observation b) now = false.

Definition entryOK (e : bootEntry) : Prop := 0 <= now < be_reset e /\ be_limit e <= max_int64.

Definition bootObs (e : bootEntry) : QuotaObservation :=
  mkObs (be_limit e) (be_limit e) (be_reset e) QuotaSourceConfig QuotaConfidenceEstimated now.

Lemma steady_id l e : tidy now l -> steady l e -> observeIfUnknown now l e = l.
Proof.
  intros Ht [H|[H|(b & Hb & Hs)]]; unfold observeIfUnknown.
  - by destruct (Z.leb_spec (be_limit e) 0); [|lia].
  - destruct (_ <=? 0); [done|]. rewrite Snapshot_tidy by done. destruct (bucketAt l (be_key e)) as [b|] eqn:Eb.
    + apply bucketAt_valid in Eb; [congruence|apply Ht].
    + unfold Observe. by rewrite H.
  - destruct (_ <=? 0); [done|]. rewrite Snapshot_tidy by done. by rewrite Hb, Hs.
Qed.

Lemma steady_eq l l' e : bucketAt l' (be_key e) = bucketAt l (be_key e) -> steady l e -> steady l' e.
Proof. unfold steady. intros ->. done. Qed.

Lemma bucketAt_new l key o k :
  kept l -> bucketAt (newBucket key o l) k = if decide (key = k) then Some (mkBucket o 0 false) else bucketAt l k.
Proof.
  intros [[own H] _]. unfold bucketAt, newBucket. simpl. destruct (decide (key = k)) as [<-|Hne].
  - rewrite lookup_insert_eq. simpl. by rewrite lookup_insert_eq.
  - rewrite lookup_insert_ne by done. destruct (lg_buckets l !! k) as [i|] eqn:E; simpl; [|done].
    rewrite lookup_insert_ne; [done|]. pose proof (ok_fresh _ _ _ H i (ok_live _ _ _ H k i E)). lia.
Qed.

Lemma expired_bootObs e : entryOK e -> expired (bootObs e) now = false.
Proof.
  intros [H _]. unfold expired, bootObs, IsZero, After. simpl.
  destruct (Z.eqb_spec (be_reset e) 0), (Z.ltb_spec now (be_reset e)); simpl; try done; lia.
Qed.

Lemma stale_bootObs e : entryOK e -> staleMinute (be_key e) (bootObs e) now = false.
Proof.
  intros [H _]. unfold staleMinute, bootObs, IsZero. simpl.
  destruct (Z.eqb_spec (be_reset e) 0); [lia|]. by rewrite andb_false_r.
Qed.

(** A default that is needed: the bucket is made, and nothing else changes. *)
Lemma boot_new l e :
  entryOK e -> 0 < be_limit e -> validQuotaKey (be_key e) = true -> tidy now l -> bucketAt l (be_key e) = None ->
  (Observe (be_key e) (bootObs e) now l).1 = newBucket (be_key e) (bootObs e) l /\
  tidy now (newBucket (be_key e) (bootObs e) l).
Proof.
  intros He Hl Hk Ht Hb. pose proof (bucketAt_None _ _ (proj1 Ht) Hb) as Hn.
  assert (Heq : (Observe (be_key e) (bootObs e) now l).1 = newBucket (be_key e) (bootObs e) l).
  { unfold Observe. rewrite Hk. simpl. destruct (Z.ltb_spec (be_limit e) 0); [lia|]. simpl. rewrite purge_tidy by done.
    assert (Hx : expired (if IsZero now then set_ObservedAt now (bootObs e) else bootObs e) now = false)
      by (destruct (IsZero now); by apply expired_bootObs).
    rewrite Hx. replace (if IsZero now then set_ObservedAt now (bootObs e) else bootObs e) with (bootObs e)
      by (by destruct (IsZero now)).
    simpl. rewrite Z.ltb_irrefl. unfold putObservation. by rewrite Hn. }
  split; [done|]. split.
  - split; [|rewrite <- Heq; apply valid_Observe, Ht]. destruct Ht as [[[own H] _] _]. rewrite <- Heq.
    eapply (Observe_ok own); [|done]. apply He.
  - intros k b. rewrite bucketAt_new by apply Ht. destruct (decide _); [intros [= <-]; by apply expired_bootObs|apply Ht].
Qed.

Lemma oiu_spec l e :
  entryOK e -> tidy now l ->
  let l' := observeIfUnknown now l e in
  tidy now l' /\ steady l' e /\ (forall k, k <> be_key e -> bucketAt l' k = bucketAt l k) /\ lg_tickets l' = lg_tickets l.
Proof.
  intros He Ht. cbv zeta. unfold observeIfUnknown. destruct (Z.leb_spec (be_limit e) 0) as [|Hpos]; [split_and!; [done|by left|done|done]|].
  assert (Hnew : forall l1, tidy now l1 -> bucketAt l1 (be_key e) = None ->
    let l' := (Observe (be_key e) (bootObs e) now l1).1 in
    tidy now l' /\ steady l' e /\ (forall k, k <> be_key e -> bucketAt l' k = bucketAt l1 k) /\ lg_tickets l' = lg_tickets l1).
  { intros l1 H1 Hn. cbv zeta. destruct (validQuotaKey (be_key e)) eqn:Hk.
    - destruct (boot_new l1 e He Hpos Hk H1 Hn) as [-> Ht1]. split_and!; [done| | |done].
      + right; right. exists (mkBucket (bootObs e) 0 false). rewrite bucketAt_new by apply H1.
        rewrite decide_True by done. split; [done|by apply stale_bootObs].
      + intros k Hne. rewrite bucketAt_new by apply H1. by rewrite decide_False by congruence.
    - unfold Observe. rewrite Hk. simpl. split_and!; try done. right; by left. }
  rewrite Snapshot_tidy by done. destruct (bucketAt l (be_key e)) as [b|] eqn:Eb.
  - destruct (staleMinute _ _ _) eqn:Es; [|split_and!; [done| |done|done]; right; right; eauto].
    assert (Hd : bucketAt (deleteBucket (be_key e) l) (be_key e) = None) by (rewrite bucketAt_delete; by rewrite decide_True).
    destruct (Hnew _ (tidy_delete (be_key e) l Ht) Hd) as (H1 & H2 & H3 & H4). split_and!; try done.
    intros k Hk. rewrite H3 by done. rewrite bucketAt_delete. by rewrite decide_False by congruence.
  - by apply Hnew.
Qed.
End tidy_lemmas.

(** ** What one attempt reserves *)

(** The costs are [int64] values. *)
Definition estimateOK (e : QuotaEstimate) : Prop := qe_Requests e <= max_int64 /\ qe_Tokens e <= max_int64.

Lemma estimateOK_provider env attempt e : estimateOK e -> estimateOK (providerQuotaEstimate env attempt e).
Proof.
  intros [H1 H2]. unfold providerQuotaEstimate. destruct (_ || _); [done|]. split; simpl; [done|]. apply wrap64_range.
Qed.

Lemma costOf_le e k : estimateOK e -> costOf e k <= max_int64.
Proof. intros [H1 H2]. unfold costOf. by destruct (str_eq _ _). Qed.

Section attempt_lemmas.
Context (fingerprint : string -> string) (svc : RouterStatic) (env : environ) (now : Z) (Hnow : 0 <= now).
#[local] Abbreviation entries := (bootstrapEntries fingerprint svc env).
#[local] Abbreviation draws := (drawsOn fingerprint svc).

Lemma resets_later : now < nextUTCReset now /\ now < nextMinuteReset now /\ now < time_Add now (24 * Hour).
Proof.
  unfold nextUTCReset, nextMinuteReset, time_Truncate, time_Add, Day, Hour, Minute, Second, Millisecond.
  pose proof (Z.div_mod now (24 * (60 * (60 * (1000 * 1000000)))) ltac:(lia)).
  pose proof (Z.mod_pos_bound now (24 * (60 * (60 * (1000 * 1000000)))) ltac:(lia)).
  pose proof (Z.mod_pos_bound now (60 * (1000 * 1000000)) ltac:(lia)). lia.
Qed.

Lemma entries_ok attempt credential : Forall (entryOK now) (entries attempt credential now).
Proof.
  destruct resets_later as (H1 & H2 & H3).
  assert (Hi : forall key d, d <= max_int64 -> 0 <= d -> envInt env key d <= max_int64).
  { intros key d Hd H0. apply envInt_int64. unfold in_int64, min_int64, two63. lia. }
  unfold bootstrapEntries, entryOK. repeat case_match; repeat constructor; simpl; try lia; apply Hi; unfold max_int64, two63; simplify_eq; lia.
Qed.

Lemma boot_fold es : forall l,
  Forall (entryOK now) es -> tidy now l ->
  let l' := fold_left (observeIfUnknown now) es l in
  tidy now l' /\ (forall k, ~ In k (be_key <$> es) -> bucketAt l' k = bucketAt l k) /\ lg_tickets l' = lg_tickets l.
Proof.
  induction es as [|e es IH]; intros l Hes Ht; [done|]. inversion_clear Hes as [|? ? He Hes']. simpl.
  destruct (oiu_spec now l e He Ht) as (H1 & _ & H3 & H4). destruct (IH _ Hes' H1) as (I1 & I2 & I3).
  split_and!; [done| |congruence]. intros k Hk. rewrite I2 by tauto. apply H3. intros ->. tauto.
Qed.

(** Later defaults do not undo earlier ones: a later one for the same key finds
    the bucket and leaves it. *)
Lemma oiu_keeps l e e' : entryOK now e' -> tidy now l -> steady now l e -> steady now (observeIfUnknown now l e') e.
Proof.
  intros He' Ht Hs. destruct (decide (be_key e' = be_key e)) as [Heq|Hne].
  - destruct Hs as [H|[H|(b & Hb & Hst)]]; [by left|right; by left|]. rewrite (steady_id now l e' Ht); [right; right; eauto|].
    right; right. exists b. by rewrite Heq.
  - apply (steady_eq now l); [|done]. apply oiu_spec; congruence.
Qed.

Lemma boot_steady es : forall l,
  Forall (entryOK now) es -> tidy now l ->
  let l' := fold_left (observeIfUnknown now) es l in
  Forall (steady now l') es /\ (forall e, steady now l e -> steady now l' e).
Proof.
  induction es as [|e es IH]; intros l Hes Ht; [done|]. inversion_clear Hes as [|? ? He Hes']. simpl.
  destruct (oiu_spec now l e He Ht) as (H1 & H2 & _ & _). destruct (IH _ Hes' H1) as (I1 & I2).
  split; [constructor; auto|]. intros e' Hs. apply I2. by apply oiu_keeps.
Qed.

Lemma boot_steady_id es l : tidy now l -> Forall (steady now l) es -> fold_left (observeIfUnknown now) es l = l.
Proof. intros Ht. induction 1 as [|e es He _ IH]; [done|]. simpl. by rewrite steady_id. Qed.

(** Reading an untidy ledger tidies it first. *)
Lemma oiu_purge l e :
  entryOK now e -> kept l -> kept (observeIfUnknown now l e) /\
  purgeExpiredLocked now (observeIfUnknown now l e) = observeIfUnknown now (purgeExpiredLocked now l) e.
Proof.
  intros He Hk. pose proof (tidy_purge now l Hk) as Ht. destruct (oiu_spec now _ e He Ht) as (H1 & _).
  destruct (Z.leb_spec (be_limit e) 0) as [Hle|Hgt].
  - assert (Hid : forall m, observeIfUnknown now m e = m) by (intros; unfold observeIfUnknown; by destruct (Z.leb_spec (be_limit e) 0); [|lia]).
    by rewrite !Hid.
  - assert (Heq : observeIfUnknown now l e = observeIfUnknown now (purgeExpiredLocked now l) e).
    { unfold observeIfUnknown. destruct (Z.leb_spec (be_limit e) 0); [lia|]. by rewrite Snapshot_purge. }
    rewrite Heq. split; [apply H1|by apply purge_tidy].
Qed.

Lemma boot_purge es : forall l,
  Forall (entryOK now) es -> kept l ->
  purgeExpiredLocked now (fold_left (observeIfUnknown now) es l) = fold_left (observeIfUnknown now) es (purgeExpiredLocked now l).
Proof.
  induction es as [|e es IH]; intros l Hes Hk; [done|]. inversion_clear Hes as [|? ? He Hes']. simpl.
  destruct (oiu_purge l e He Hk) as [Hk' <-]. by apply IH.
Qed.

Lemma quotaReservations_purge attempt credential e l :
  kept l -> quotaReservations fingerprint svc env attempt credential e now l =
            quotaReservations fingerprint svc env attempt credential e now (purgeExpiredLocked now l).
Proof.
  intros Hk. pose proof (entries_ok attempt credential) as He. unfold quotaReservations, ensureBootstrapQuota, Keys. cbv zeta.
  rewrite boot_purge by done.
  by rewrite (purge_tidy now (fold_left _ _ (purgeExpiredLocked now l))) by (by apply boot_fold, tidy_purge).
Qed.

Definition readyFor (attempt : modelAttempt) (credential : string) (l : QuotaLedger) : Prop :=
  tidy now l /\ Forall (steady now l) (entries attempt credential now).

Lemma quotaReservations_spec attempt credential e l l' rs :
  tidy now l -> quotaReservations fingerprint svc env attempt credential e now l = (l', rs) ->
  l' = ensureBootstrapQuota fingerprint svc env attempt credential now l /\
  readyFor attempt credential l' /\ lg_tickets l' = lg_tickets l /\
  NoDup (res_Key <$> rs) /\
  forall r, r ∈ rs <-> is_Some (bucketAt l' (res_Key r)) /\ draws attempt credential (res_Key r) = true /\
                      res_Cost r = costOf (providerQuotaEstimate env attempt e) (res_Key r) /\ 0 < res_Cost r.
Proof.
  intros Ht H. pose proof (entries_ok attempt credential) as He.
  destruct (boot_fold _ l He Ht) as (H1 & _ & H3). destruct (boot_steady _ l He Ht) as (H4 & _).
  unfold quotaReservations, Keys in H. cbv zeta in H. fold (ensureBootstrapQuota fingerprint svc env attempt credential now l) in H1, H3, H4.
  rewrite purge_tidy in H by done. injection H as <- <-. set (l' := ensureBootstrapQuota _ _ _ _ _ _ _) in *.
  split_and?; [done|done|done| |].
  - rewrite <- list_fmap_compose. unfold compose. simpl. rewrite list_fmap_id. apply NoDup_ListNoDup, List.NoDup_filter, NoDup_ListNoDup.
    rewrite SliceStable_perm. apply NoDup_fst_map_to_list.
  - intros r. rewrite list_elem_of_fmap. setoid_rewrite list_elem_of_In. setoid_rewrite List.filter_In.
    setoid_rewrite <- list_elem_of_In. setoid_rewrite SliceStable_elem_of.
    assert (Hdom : forall k, k ∈ (map_to_list (lg_buckets l')).*1 <-> is_Some (bucketAt l' k)).
    { intros k. split.
      - intros ([k' i] & -> & Hi%elem_of_map_to_list)%list_elem_of_fmap. destruct H1 as [[[own Hok] _] _].
        unfold bucketAt. simpl. rewrite Hi. simpl. by apply (ok_live _ _ _ Hok k').
      - intros [b Hb]. unfold bucketAt in Hb. destruct (lg_buckets l' !! k) as [i|] eqn:E; [|done].
        apply list_elem_of_fmap. exists (k, i). by rewrite elem_of_map_to_list. }
    setoid_rewrite Hdom. split.
    + intros (k & -> & Hk & [Hd Hc%Z.ltb_lt]%andb_true_iff). done.
    + destruct r as [k c]. simpl. intros (Hk & Hd & -> & Hc%Z.ltb_lt). exists k. by rewrite Hd, Hc.
Qed.
End attempt_lemmas.

(** ** Readings *)

(** What a loop of snapshots does to a tidy ledger: it may drop stale minute
    buckets. *)
Definition reads (now : Z) (l l' : QuotaLedger) : Prop :=
  tidy now l' /\ lg_tickets l' = lg_tickets l /\
  forall k, bucketAt l' k = bucketAt l k \/
            bucketAt l' k = None /\ exists b, bucketAt l k = Some b /\ staleMinute k (bk_observation b) now = true.

Lemma reads_refl now l : tidy now l -> reads now l l.
Proof. intros H. unfold reads. split_and?; auto. Qed.

Lemma reads_trans now l1 l2 l3 : reads now l1 l2 -> reads now l2 l3 -> reads now l1 l3.
Proof.
  intros (_ & T1 & H1) (H & T2 & H2). unfold reads; split_and?; [done|congruence|]. intros k.
  destruct (H2 k) as [->|(E & b & Hb & Hs)]; [apply H1|]. right. split; [done|]. exists b. split; [|done].
  destruct (H1 k) as [E1|[E1 _]]; congruence.
Qed.

Lemma reads_Snapshot now key l : tidy now l -> reads now l (Snapshot key now l).1.
Proof.
  intros H. rewrite Snapshot_tidy by done. destruct (bucketAt l key) as [b|] eqn:Eb; [|by apply reads_refl].
  destruct (staleMinute _ _ _) eqn:Es; [|by apply reads_refl]. simpl. unfold reads; split_and?; [by apply tidy_delete|done|].
  intros k. rewrite bucketAt_delete. destruct (decide (key = k)) as [<-|]; [right|by left]. eauto.
Qed.

Lemma reads_steady now l l' e : reads now l l' -> steady now l e -> steady now l' e.
Proof.
  intros (_ & _ & H) Hs. destruct (H (be_key e)) as [E|(_ & b & Hb & Hst)]; [by apply (steady_eq now l)|].
  destruct Hs as [?|[?|(b' & Hb' & Hst')]]; [by left|right; by left|congruence].
Qed.

Lemma reads_pressureLoop now rs : forall p l, tidy now l -> reads now l (pressureLoop now rs p l).1.
Proof.
  induction rs as [|r rs IH]; intros p l H; simpl; [by apply reads_refl|].
  pose proof (reads_Snapshot now (res_Key r) l H) as H1. destruct (Snapshot _ _ _) as [l1 [s|]]; simpl in *.
  - destruct (_ <=? 0); [eapply reads_trans; [done|apply IH, H1]|].
    destruct (_ <? 0); [done|]. eapply reads_trans; [done|apply IH, H1].
  - eapply reads_trans; [done|apply IH, H1].
Qed.

Lemma snapshotFits_fits l k b c :
  bucketAt l k = Some b -> 0 < c ->
  snapshotFits (mkSnapshot (bk_observation b) k (bk_reserved b) (availableOf b) (bk_probeSettled b)) c = fits l k c.
Proof.
  intros Hb Hc. unfold fits, snapshotFits, availableOf. rewrite Hb. simpl.
  destruct (Z.ltb_spec (wrap64 (obs_Remaining (bk_observation b) - bk_reserved b)) 0),
    (Z.leb_spec c (wrap64 (obs_Remaining (bk_observation b) - bk_reserved b))); try lia; simpl; try done.
  by destruct (Z.leb_spec c 0); [lia|].
Qed.

Lemma fits_bucketAt l l' k c : bucketAt l' k = bucketAt l k -> fits l' k c = fits l k c.
Proof. unfold fits. by intros ->. Qed.

(** A bucket the attempt can use: current and with room. *)
Definition usable (now : Z) (l : QuotaLedger) (k : QuotaBucketKey) (c : Z) : Prop :=
  forall b, bucketAt l k = Some b -> staleMinute k (bk_observation b) now = false /\ fits l k c = true.

Lemma usable_reads now l l' k c : reads now l l' -> usable now l k c -> usable now l' k c.
Proof.
  intros (_ & _ & H) Hu b Hb. destruct (H k) as [E|[E _]]; [|congruence].
  rewrite (fits_bucketAt l) by done. apply Hu. congruence.
Qed.

Lemma fitLoop_spec now rs : forall l l' ok,
  Forall (fun r => 0 < res_Cost r) rs -> tidy now l -> fitLoop now rs l = (l', ok) ->
  reads now l l' /\
  if ok then Forall (fun r => usable now l' (res_Key r) (res_Cost r)) rs
  else exists r, r ∈ rs /\ is_Some (bucketAt l' (res_Key r)) /\ fits l' (res_Key r) (res_Cost r) = false.
Proof.
  induction rs as [|r rs IH]; intros l l' ok Hrs Ht H; simpl in H.
  { injection H as <- <-. split; [by apply reads_refl|done]. }
  inversion_clear Hrs as [|? ? Hc Hrs']. pose proof (reads_Snapshot now (res_Key r) l Ht) as H1.
  assert (Hrest : forall l1, reads now l l1 -> usable now l1 (res_Key r) (res_Cost r) -> fitLoop now rs l1 = (l', ok) ->
    reads now l l' /\ if ok then Forall (fun r => usable now l' (res_Key r) (res_Cost r)) (r :: rs)
    else exists r0, r0 ∈ r :: rs /\ is_Some (bucketAt l' (res_Key r0)) /\ fits l' (res_Key r0) (res_Cost r0) = false).
  { intros l1 Hl1 Hu Hf. destruct (IH l1 l' ok Hrs' (proj1 Hl1) Hf) as [I1 I2]. split; [by eapply reads_trans|].
    destruct ok; [constructor; [by apply (usable_reads now l1)|done]|]. destruct I2 as (r0 & ? & ?). exists r0.
    split; [by right|done]. }
  rewrite Snapshot_tidy in H, H1 by done. destruct (bucketAt l (res_Key r)) as [b|] eqn:Eb.
  - destruct (staleMinute _ _ _) eqn:Es; simpl in H1.
    + apply (Hrest _ H1); [|done]. intros b'. rewrite bucketAt_delete. by rewrite decide_True.
    + rewrite (snapshotFits_fits l) in H by done. destruct (fits l (res_Key r) (res_Cost r)) eqn:Ef.
      * apply (Hrest l H1); [|done]. intros b' Hb'. split; [congruence|done].
      * injection H as <- <-. split; [done|]. exists r. split; [by left|]. by rewrite Eb.
  - apply (Hrest l H1); [|done]. intros b' Hb'. congruence.
Qed.

(** ** When a reservation is granted *)

Lemma costFor_notin k rs : k ∉ res_Key <$> rs -> costFor k rs = 0.
Proof.
  induction rs as [|r rs IH]; [done|]. simpl. intros Hk. apply not_elem_of_cons in Hk as [H1 H2]. unfold costFor in *. simpl.
  rewrite IH by done. case_decide; [congruence|lia].
Qed.

Lemma costFor_at rs r : NoDup (res_Key <$> rs) -> r ∈ rs -> costFor (res_Key r) rs = res_Cost r.
Proof.
  induction rs as [|r' rs IH]; simpl; intros Hnd Hr; [by apply elem_of_nil in Hr|].
  apply NoDup_cons in Hnd as [H1 H2]. apply elem_of_cons in Hr as [<-|Hr].
  - pose proof (costFor_notin _ _ H1) as Hz. unfold costFor in *. simpl. rewrite Hz. case_decide; [lia|congruence].
  - specialize (IH H2 Hr). unfold costFor in *. simpl. rewrite IH. case_decide; [|lia].
    exfalso. apply H1. apply list_elem_of_fmap. exists r. by split; [congruence|].
Qed.

Definition reservationOK (r : QuotaReservation) : Prop := validQuotaKey (res_Key r) = true /\ 0 < res_Cost r <= max_int64.

Lemma aggregate_distinct rs :
  NoDup (res_Key <$> rs) -> Forall reservationOK rs ->
  exists amounts, aggregateReservations rs = Some amounts /\
    forall k c, amounts !! k = Some c <-> mkReservation k c ∈ rs.
Proof.
  intros Hnd Hrs. assert (Hle : Forall (fun r => res_Cost r <= max_int64) rs) by (eapply Forall_impl; [exact Hrs|intros ? []; lia]).
  pose proof (aggregateFrom_spec rs ∅ Hle (map_Forall_empty _)) as H. unfold aggregateReservations.
  rewrite Forall_forall in Hrs.
  assert (Hcost : forall k, costFor k rs = 0 \/ exists r, r ∈ rs /\ res_Key r = k /\ costFor k rs = res_Cost r).
  { intros k. destruct (decide (k ∈ res_Key <$> rs)) as [Hk|Hk]; [right|left; by apply costFor_notin].
    apply list_elem_of_fmap in Hk as (r & -> & Hr). exists r. split_and?; [done|done|]. by apply costFor_at. }
  destruct (aggregateFrom ∅ rs) as [amounts|].
  - exists amounts. split; [done|]. destruct H as (_ & Ha & Hd). setoid_rewrite lookup_empty in Hd. simpl in Hd.
    intros k c. split.
    + intros Hk. pose proof (Ha k c Hk) as Hc. simpl in Hc. specialize (Hd k). rewrite Hk in Hd. simpl in Hd.
      destruct (Hcost k) as [E|([k' c'] & Hr & E1 & E2)]; [lia|]. simpl in *. subst k'. by replace c with c' by lia.
    + intros Hr. specialize (Hd k). pose proof (costFor_at rs (mkReservation k c) Hnd Hr) as E. simpl in E.
      destruct (Hrs _ Hr) as [_ Hc]. simpl in Hc. destruct (amounts !! k); simpl in Hd; [f_equal|]; lia.
  - exfalso. setoid_rewrite lookup_empty in H. simpl in H. destruct H as [H|[k H]].
    + apply H, Forall_forall. intros r Hr. destruct (Hrs r Hr). split; [done|lia].
    + destruct (Hcost k) as [E|(r & Hr & _ & E)]; [unfold max_int64, two63 in H; lia|]. destruct (Hrs r Hr). lia.
Qed.

Lemma ReserveAll_grants rs now l :
  tidy now l -> NoDup (res_Key <$> rs) -> Forall reservationOK rs -> Z.of_nat (size (lg_tickets l)) + 2 <= two64 ->
  is_Some (ReserveAll rs now l).2 <-> Forall (fun r => fits l (res_Key r) (res_Cost r) = true) rs.
Proof.
  intros Ht Hnd Hrs Hsize. destruct (aggregate_distinct rs Hnd Hrs) as (amounts & Ha & Hk).
  unfold ReserveAll. rewrite Ha. cbv zeta. rewrite purge_tidy by done. set (l1 := set_heap _ _).
  destruct (newTicketID_total l1) as [id Hid]; [done|]. rewrite Hid.
  assert (Hall : forallb (fun '(key, cost) => fits l key cost) (map_to_list amounts) = true <->
                 Forall (fun r => fits l (res_Key r) (res_Cost r) = true) rs).
  { rewrite List.forallb_forall, Forall_forall. split.
    - intros H [k c] Hr. apply (H (k, c)). apply list_elem_of_In, elem_of_map_to_list. by apply Hk.
    - intros H [k c] Hr. apply list_elem_of_In, elem_of_map_to_list, Hk in Hr. by apply (H _ Hr). }
  destruct (forallb _ _); simpl; rewrite <- Hall; [|split; [intros []|]; done]. split; [done|]. eauto.
Qed.

Section prediction.
Context (fingerprint : string -> string) (svc : RouterStatic) (env : environ) (now : Z) (Hnow : 0 <= now).
#[local] Abbreviation reservations := (quotaReservations fingerprint svc env).

(** The ledger holds what [quotaCanFit] established for the attempt. *)
Definition fittingFor (attempt : modelAttempt) (credential : string) (e : QuotaEstimate) (l : QuotaLedger) : Prop :=
  readyFor fingerprint svc env now attempt credential l /\
  forall k, drawsOn fingerprint svc attempt credential k = true ->
    let c := costOf (providerQuotaEstimate env attempt e) k in 0 < c -> usable now l k c.

Lemma readyFor_reads attempt credential l l' :
  reads now l l' -> readyFor fingerprint svc env now attempt credential l -> readyFor fingerprint svc env now attempt credential l'.
Proof. intros Hr [H1 H2]. split; [apply Hr|]. eapply Forall_impl; [exact H2|]. intros e He. by apply (reads_steady now l). Qed.

Lemma ready_reservations attempt credential e l :
  estimateOK e -> readyFor fingerprint svc env now attempt credential l ->
  exists rs, reservations attempt credential e now l = (l, rs) /\ NoDup (res_Key <$> rs) /\ Forall reservationOK rs /\
    forall r, r ∈ rs <-> is_Some (bucketAt l (res_Key r)) /\ drawsOn fingerprint svc attempt credential (res_Key r) = true /\
                        res_Cost r = costOf (providerQuotaEstimate env attempt e) (res_Key r) /\ 0 < res_Cost r.
Proof.
  intros He [Ht Hs]. destruct (reservations attempt credential e now l) as [l' rs] eqn:E.
  apply (quotaReservations_spec _ _ _ _ Hnow) in E as (H1 & _ & _ & H4 & H5); [|done].
  unfold ensureBootstrapQuota in H1. rewrite (boot_steady_id now _ l Ht Hs) in H1. subst l'. exists rs.
  split_and?; [done|done| |done]. rewrite Forall_forall. intros r Hr. apply H5 in Hr as ([b Hb] & _ & Hc & Hp).
  split; [by eapply bucketAt_valid, Hb; apply Ht|]. split; [done|]. rewrite Hc. by apply costOf_le, estimateOK_provider.
Qed.

Lemma canFit_spec attempt credential e l l' ok :
  kept l -> quotaCanFit fingerprint svc env attempt credential e now l = (l', ok) ->
  readyFor fingerprint svc env now attempt credential l' /\ lg_tickets l' = lg_tickets l /\
  if ok then fittingFor attempt credential e l'
  else exists k, let c := costOf (providerQuotaEstimate env attempt e) k in
    drawsOn fingerprint svc attempt credential k = true /\ 0 < c /\ is_Some (bucketAt l' k) /\ fits l' k c = false.
Proof.
  intros Hk H. unfold quotaCanFit in H. rewrite (quotaReservations_purge _ _ _ _ Hnow) in H by done.
  pose proof (tidy_purge now l Hk) as Ht. destruct (reservations attempt credential e now _) as [l1 rs] eqn:E.
  apply (quotaReservations_spec _ _ _ _ Hnow) in E as (_ & H2 & H3 & _ & H5); [|done].
  apply fitLoop_spec in H as [Hr H]; [| |apply H2].
  2: { apply Forall_forall. intros r Hr. by apply H5 in Hr as (_ & _ & _ & ?). }
  pose proof (readyFor_reads _ _ _ _ Hr H2) as H2'.
  split; [done|]. split; [rewrite (proj1 (proj2 Hr)); by rewrite H3|]. destruct ok.
  - split; [done|]. intros k Hd c Hc b Hb. rewrite Forall_forall in H.
    assert (Hin : mkReservation k c ∈ rs); [|by apply (H _ Hin)].
    apply H5. simpl. split_and?; [|done..]. destruct (proj2 (proj2 Hr) k) as [<-|[? _]]; [eauto|congruence].
  - destruct H as (r & Hin & Hs & Hf). apply H5 in Hin as (_ & Hd & Hc & Hp). exists (res_Key r). cbv zeta. by rewrite <- Hc.
Qed.

Lemma fitting_reserves attempt credential e l :
  estimateOK e -> fittingFor attempt credential e l -> Z.of_nat (size (lg_tickets l)) + 2 <= two64 ->
  exists rs, reservations attempt credential e now l = (l, rs) /\ is_Some (ReserveAll rs now l).2.
Proof.
  intros He [Hr Hf] Hs. destruct (ready_reservations _ _ _ _ He Hr) as (rs & E & Hnd & Hok & Hin). exists rs. split; [done|].
  apply ReserveAll_grants; [apply Hr|done..|]. apply Forall_forall. intros r (Hb & Hd & Hc & Hp)%Hin.
  destruct Hb as [b Hb]. rewrite Hc in Hp |- *. by apply (Hf _ Hd Hp b).
Qed.
End prediction.

(** C3: the test [quotaCanFit] predicts the reservation exactly.  On every
    ledger the service can reach, an attempt it accepts can be reserved in
    full right after, and one it rejects cannot: an attempt is neither routed
    to a provider that will refuse it nor skipped while it would have fitted,
    and the single probe of an unconfirmed default counts the same way in
    both.  The test itself issues no ticket. *)
Theorem canFit_predicts_reservation fingerprint svc env ops id attempt credential e now :
  Forall opInt64 ops -> estimateOK e -> 0 <= now ->
  let l := fold_left runLedgerOp ops (NewQuotaLedger id) in
  Z.of_nat (size (lg_tickets l)) + 2 <= two64 ->
  let '(l1, ok) := quotaCanFit fingerprint svc env attempt credential e now l in
  let '(l2, rs) := quotaReservations fingerprint svc env attempt credential e now l1 in
  lg_tickets l1 = lg_tickets l /\
  (ok = true <-> exists l3 t, ReserveAll rs now l2 = (l3, Some t)).
Proof.
  intros Hops He Hnow l Hsize. pose proof (reachable_kept ops id Hops) as Hk. fold l in Hk.
  destruct (quotaCanFit _ _ _ _ _ _ _ l) as [l1 ok] eqn:E. apply (canFit_spec _ _ _ _ Hnow) in E as (Hr & Htk & H); [|done].
  destruct (ready_reservations _ _ _ _ Hnow _ _ _ _ He Hr) as (rs & E & Hnd & Hok & Hin). rewrite E. split; [done|].
  assert (Hg : is_Some (ReserveAll rs now l1).2 <-> exists l3 t, ReserveAll rs now l1 = (l3, Some t)).
  { destruct (ReserveAll rs now l1) as [l3 [t|]]; simpl; split; [eauto|eauto|intros []; done|intros (? & ? & ?); done]. }
  rewrite <- Hg. destruct ok; split; try done.
  - intros _. destruct (fitting_reserves _ _ _ _ Hnow _ _ _ _ He H) as (rs' & E' & Hs); [by rewrite Htk|]. congruence.
  - rewrite ReserveAll_grants; [|apply Hr|done|done|by rewrite Htk]. rewrite Forall_forall. intros Hall.
    destruct H as (k & Hd & Hc & Hb & Hf). specialize (Hall (mkReservation k _) (proj2 (Hin (mkReservation k _)) (conj Hb (conj Hd (conj eq_refl Hc))))).
    simpl in Hall. congruence.
Qed.

Definition wit_groq : modelAttempt := newAttempt "auto" "llama" providerGroq (mkBreakerPolicy 0 0 false) "".
Definition wit_estimate : QuotaEstimate := mkEstimate 1 500 100 400 true.
Definition wit_canFit : QuotaLedger * bool := quotaCanFit (fun c => c) wit_svc ∅ wit_groq "key" wit_estimate 5 (NewQuotaLedger 0).

Lemma canFit_predicts_reservation_witness :
  let '(l2, rs) := quotaReservations (fun c => c) wit_svc ∅ wit_groq "key" wit_estimate 5 wit_canFit.1 in
  exists l3 t, ReserveAll rs 5 l2 = (l3, Some t).
Proof.
  pose proof (canFit_predicts_reservation (fun c => c) wit_svc ∅ [] 0 wit_groq "key" wit_estimate 5
    ltac:(constructor) ltac:(split; vm_compute; discriminate) ltac:(lia) ltac:(vm_compute; discriminate)) as H.
  assert (Hok : wit_canFit.2 = true) by (vm_compute; reflexivity).
  change (quotaCanFit _ _ _ _ _ _ _ _) with wit_canFit in H. destruct wit_canFit as [l1 ok]. cbn [fst snd] in Hok |- *.
  destruct (quotaReservations _ _ _ _ _ _ _ l1) as [l2 rs]. apply H, Hok.
Defined.
