(* ===== verification/QuotaRouting.v ===== *)
(** * QuotaRouting: choosing a provider by quota (router_quota_routing.go,
    lines 337-573, and the latency samples of router_counters.go)

    [quotaRankAndReserve] groups the attempts that can run by provider, sorts
    the groups, interleaves them and reserves the first that still fits.
    [race n] is what other requests did to the ledger before its n-th
    reservation.  [clock] gives the readings of the clock: 0 the decision's
    own, 1 the ranking by score, 2 and 3 the two lookups of the session's
    route, 4+i the score of the i-th group.  The trace of the scores is not
    modelled: it only reads. *)

From S2P Require Import Prelude Float Types Env Breaker Scoring Quota Registry Affinity Fallback QuotaProviders QuotaPolicy.
From Stdlib Require Import Lia ZArith String.
#[local] Open Scope string_scope.
#[local] Open Scope Z_scope.

(** ** Latency samples *)

(** [firstEventStat]: the sum in nanoseconds and the number of samples. *)
Record firstEventStat := mkStat { st_sumNanos : Z; st_count : Z }.

Definition observeLatency (key : string) (d : Z) (stats : gmap string firstEventStat) : gmap string firstEventStat :=
  let stat := default (mkStat 0 0) (stats !! key) in
  <[key := mkStat (wrap64 (st_sumNanos stat + d)) (wrap64 (st_count stat + 1))]> stats.

Definition recordFirstTokenLatency (svc : RouterStatic) (attempt : modelAttempt) (d : Z) (stats : gmap string firstEventStat) : gmap string firstEventStat :=
  observeLatency (breakerKey svc attempt) d stats.

(** [sumNanos / count], which truncates towards zero. *)
Definition meanFirstTokenLatency (svc : RouterStatic) (stats : gmap string firstEventStat) (attempt : modelAttempt) : Z * Z :=
  match stats !! breakerKey svc attempt with
  | None => (0, 0)
  | Some stat => if st_count stat <=? 0 then (0, 0) else (Z.quot (st_sumNanos stat) (st_count stat), st_count stat)
  end.

Definition absDuration (value : Z) : Z := if value <? 0 then wrap64 (- value) else value.

(** ** Groups *)

Record routeGroup := mkRouteGroup {
  rg_provider : providerID;
  rg_attempts : list modelAttempt;
  rg_pressure : float64;
  rg_known : bool;
  rg_reliability : float64;
  rg_latency : Z;
  rg_latencySamples : Z;
  rg_order : Z;
  rg_preferred : bool;
}.

(** [policyProviderOrder]: the providers numbered by first appearance. *)
Definition policyProviderOrder (svc : RouterStatic) (attempts : list modelAttempt) : gmap providerID Z :=
  fold_left (fun m attempt =>
      let provider := normalizedProvider svc attempt in
      if bool_decide (is_Some (m !! provider)) then m else <[provider := Z.of_nat (size m)]> m)
    attempts ∅.

(** The attempt joins the group of its provider, or opens one. *)
Fixpoint joinGroup (order : gmap providerID Z) (pref : bool) (attempt : modelAttempt) (groups : list routeGroup) : list routeGroup :=
  match groups with
  | [] => [mkRouteGroup (Provider attempt) [attempt] f0 false f0 0 0 (default 0 (order !! Provider attempt)) pref]
  | g :: rest =>
      if str_eq (rg_provider g) (Provider attempt)
      then mkRouteGroup (rg_provider g) (rg_attempts g ++ [attempt]) (rg_pressure g) (rg_known g) (rg_reliability g)
             (rg_latency g) (rg_latencySamples g) (rg_order g) (rg_preferred g || pref) :: rest
      else g :: joinGroup order pref attempt rest
  end.

Definition pressureBand : float64 := flit 5 100.

(** [routeLess] is the comparison given to [sort.SliceStable]. *)
Definition routeLess (env : environ) (g h : routeGroup) : bool :=
  if xorb (rg_preferred g) (rg_preferred h) then rg_preferred g
  else if rg_known g && rg_known h && fltb pressureBand (fabs (fsub (rg_pressure g) (rg_pressure h)))
  then fltb (rg_pressure g) (rg_pressure h)
  else
    let minSamples := envInt env "PROXY_QUOTA_LATENCY_MIN_SAMPLES" 3 in
    let latencyBudget := wrap64 (envInt env "PROXY_QUOTA_LATENCY_BUDGET_MS" 1000 * Millisecond) in
    if (minSamples <=? rg_latencySamples g) && (minSamples <=? rg_latencySamples h) &&
       (latencyBudget <? absDuration (wrap64 (rg_latency g - rg_latency h)))
    then rg_latency g <? rg_latency h
    else if negb (feqb (rg_reliability g) (rg_reliability h)) then fltb (rg_reliability h) (rg_reliability g)
    else rg_order g <? rg_order h.

(** ** Interleaving *)

(** One round: the attempts at [depth], of the groups that have one. *)
Definition atDepth {A} (groups : list (list A)) (depth : nat) : list A := omap (fun g => g !! depth) groups.

(** The rounds until one adds nothing; the longest group bounds them. *)
Fixpoint interleaveFrom {A} (fuel depth : nat) (groups : list (list A)) : list A :=
  match fuel with
  | O => []
  | S fuel =>
      match atDepth groups depth with
      | [] => []
      | row => (row ++ interleaveFrom fuel (S depth) groups)%list
      end
  end.

Definition interleave {A} (groups : list (list A)) : list A :=
  interleaveFrom (S (foldr Nat.max 0%nat (List.length <$> groups))) 0 groups.

(** ** The decision *)

Section routing.
Context (fingerprint : string -> string) (svc : RouterStatic) (env : environ).
Context (cr : credentialStore) (cx : reqContext) (openRouterCredential : string).

Definition credentialFor (attempt : modelAttempt) : string :=
  (providerCredential (Some svc) cr cx attempt openRouterCredential).1.

(** One round of the loop over the ranked attempts. *)
Definition considerAttempt (cooldowns : gmap string Z) (e : QuotaEstimate) (now : Z) (order : gmap providerID Z) (route : option affinityRoute)
    (acc : QuotaLedger * list routeGroup) (attempt : modelAttempt) : QuotaLedger * list routeGroup :=
  let attempt := normalizeAttempt svc attempt in
  if negb (quotaAttemptAvailable svc cooldowns attempt now) then acc
  else
    let '(l, ok) := quotaCanFit fingerprint svc env attempt (credentialFor attempt) e now acc.1 in
    if negb ok then (l, acc.2)
    else
      let pref := match route with Some r => sameRoute r attempt | None => false end in
      (l, joinGroup order pref attempt acc.2).

(** The measures of each group are those of its first attempt. *)
Definition measureGroup (st : RouterState) (stats : gmap string firstEventStat) (e : QuotaEstimate) (now clock : Z) (g : routeGroup) (l : QuotaLedger) : QuotaLedger * routeGroup :=
  match rg_attempts g with
  | [] => (l, g)   (* a group has an attempt: [joinGroup] *)
  | a :: _ =>
      let '(l, (pressure, known)) := quotaPressure fingerprint svc env a (credentialFor a) e now l in
      let reliability := scoreForAttempt svc st a (newScoreEnv env clock (scoreAttempts st)) in
      let '(latency, samples) := meanFirstTokenLatency svc stats a in
      (l, mkRouteGroup (rg_provider g) (rg_attempts g) pressure known reliability latency samples (rg_order g) (rg_preferred g))
  end.

Fixpoint measureGroups (st : RouterState) (stats : gmap string firstEventStat) (e : QuotaEstimate) (now : Z) (clock : nat -> Z) (i : nat) (groups : list routeGroup) (l : QuotaLedger) : QuotaLedger * list routeGroup :=
  match groups with
  | [] => (l, [])
  | g :: rest =>
      let '(l, g) := measureGroup st stats e now (clock i) g l in
      let '(l, rest) := measureGroups st stats e now clock (S i) rest l in
      (l, g :: rest)
  end.

(** What the decision reads and writes. *)
Record routingState := mkRouting {
  ro_ledger : QuotaLedger;
  ro_affinity : affinityStore;
  ro_cooldowns : gmap string Z;
  ro_breakers : RouterState;
  ro_stats : gmap string firstEventStat;
}.

(** Up to the interleaved list (line 440). *)
Definition quotaRank (clock : nat -> Z) (attempts : list modelAttempt) (e : QuotaEstimate) (s : routingState) : routingState * list modelAttempt :=
  let now := clock 0%nat in
  let order := policyProviderOrder svc attempts in
  let '(aff, base) := applySessionAffinity cx (clock 2%nat) (ro_affinity s)
                        (rankAttemptsByScore svc env (ro_breakers s) (clock 1%nat) attempts) in
  let '(aff, route) := preferred (cx_affinity cx) (clock 3%nat) aff in
  let '(l, groups) := fold_left (considerAttempt (ro_cooldowns s) e now order route) base (ro_ledger s, []) in
  let '(l, groups) := measureGroups (ro_breakers s) (ro_stats s) e now (fun i => clock (4 + i)%nat) 0 groups l in
  (mkRouting l aff (ro_cooldowns s) (ro_breakers s) (ro_stats s),
   interleave (rg_attempts <$> SliceStable (routeLess env) groups)).

Fixpoint reserveRanked (race : nat -> QuotaLedger -> QuotaLedger) (e : QuotaEstimate) (now : Z) (n : nat) (ranked : list modelAttempt) (l : QuotaLedger) : QuotaLedger * list modelAttempt :=
  match ranked with
  | [] => (l, [])
  | a :: rest =>
      let '(l, rs) := quotaReservations fingerprint svc env a (credentialFor a) e now (race n l) in
      match ReserveAll rs now l with
      | (l, Some ticket) => (l, set_Estimate (providerQuotaEstimate env a e) (set_Ticket ticket a) :: rest)
      | (l, None) => reserveRanked race e now (S n) rest l
      end
  end.

Definition set_ledger (l : QuotaLedger) (s : routingState) : routingState :=
  mkRouting l (ro_affinity s) (ro_cooldowns s) (ro_breakers s) (ro_stats s).

Definition quotaRankAndReserve (race : nat -> QuotaLedger -> QuotaLedger) (clock : nat -> Z) (attempts : list modelAttempt) (e : QuotaEstimate) (s : routingState) : routingState * list modelAttempt :=
  match attempts with
  | [] => (s, [])
  | _ =>
      let '(s, ranked) := quotaRank clock attempts e s in
      let '(l, ranked) := reserveRanked race e (clock 0%nat) 0 ranked (ro_ledger s) in
      (set_ledger l s, ranked)
  end.

(** ** Settling *)

Definition set_ResetAt (t : Z) (o : QuotaObservation) : QuotaObservation :=
  mkObs (obs_Limit o) (obs_Remaining o) t (obs_Source o) (obs_Confidence o) (obs_ObservedAt o).

(** One observation of the response: the fact under its scoped key. *)
Definition recordFact (credential : string) (now : Z) (acc : gmap QuotaBucketKey QuotaObservation * QuotaLedger) (o : providerQuotaObservation) : gmap QuotaBucketKey QuotaObservation * QuotaLedger :=
  match ledgerFact o with
  | None => acc
  | Some (key, fact) =>
      let key := mkKey (key_Provider key) (credentialQuotaScope fingerprint (pq_Scope o) credential) (key_ModelOrPool key) (key_Dimension key) (key_Window key) in
      let fact := if IsZero (obs_ResetAt fact) && str_eq (key_Window key) QuotaWindowMinute then set_ResetAt (nextMinuteReset now) fact else fact in
      (<[key := fact]> acc.1, (Observe key fact now acc.2).1)
  end.

Definition settlementFor (attempt : modelAttempt) (actualTokens : Z) (facts : gmap QuotaBucketKey QuotaObservation) (r : QuotaReservation) : QuotaSettlement :=
  let actual :=
    if str_eq (key_Dimension (res_Key r)) QuotaDimensionTokens
    then if actualTokens <=? 0 then qe_Tokens (att_QuotaEstimate attempt) else actualTokens
    else qe_Requests (att_QuotaEstimate attempt) in
  mkSettlement (res_Key r) actual (facts !! res_Key r).

(** The new ledger, whether the scores were marked dirty, and the result. *)
Definition observeAndSettleQuota (ParseTime ParseDuration : string -> option Z) (decodeError : string -> option (Z * list (string * string) * string))
    (ticket : QuotaTicket) (attempt : modelAttempt) (credential : string) (status : Z) (headers : Header) (body : string) (actualTokens now clock : Z) (l : QuotaLedger)
    : QuotaLedger * bool * list providerQuotaObservation :=
  let observations := observeProviderQuota ParseTime ParseDuration decodeError (Provider attempt) (Model attempt) status headers body now clock in
  let '(facts, l) := fold_left (recordFact credential now) observations (∅, l) in
  if negb (ticket_Valid ticket) then (l, negb (bool_decide (facts = ∅)), observations)
  else
    let settlements := settlementFor attempt actualTokens facts <$> Reservations ticket l in
    ((Reconcile ticket settlements now l).1, true, observations).

(** ** Health and waits *)

Record QuotaHealthSnapshot := mkHealth {
  qh_Scope : string;
  qh_ModelOrPool : string;
  qh_Dimension : string;
  qh_Window : string;
  qh_Limit : Z;
  qh_Remaining : Z;
  qh_Reserved : Z;
  qh_Available : Z;
  qh_ResetAt : Z;
  qh_Source : string;
  qh_Confidence : string;
}.

Fixpoint healthLoop (now : Z) (keys : list QuotaBucketKey) (l : QuotaLedger) : QuotaLedger * list QuotaHealthSnapshot :=
  match keys with
  | [] => (l, [])
  | key :: rest =>
      let '(l, snap) := Snapshot key now l in
      let '(l, out) := healthLoop now rest l in
      (l, match snap with
          | None => out
          | Some s =>
              let o := snap_Obs s in
              mkHealth (publicQuotaScope (key_Scope key)) (key_ModelOrPool key) (key_Dimension key) (key_Window key)
                (obs_Limit o) (obs_Remaining o) (snap_Reserved s) (snap_Available s) (obs_ResetAt o) (obs_Source o) (obs_Confidence o) :: out
          end)
  end.

Definition quotaHealth (provider : providerID) (now : Z) (l : QuotaLedger) : QuotaLedger * list QuotaHealthSnapshot :=
  let '(l, keys) := Keys now l in
  healthLoop now (List.filter (fun key => str_eq (key_Provider key) provider) keys) l.

(** The inner loop of [quotaRetryAfterForAttempts]: the longest wait. *)
Fixpoint waitLoop (now : Z) (rs : list QuotaReservation) (readyIn : Z) (l : QuotaLedger) : QuotaLedger * Z :=
  match rs with
  | [] => (l, readyIn)
  | r :: rest =>
      let '(l, snap) := Snapshot (res_Key r) now l in
      match snap with
      | None => waitLoop now rest readyIn l
      | Some s =>
          let reset := obs_ResetAt (snap_Obs s) in
          if (res_Cost r <=? snap_Available s) || IsZero reset || negb (After reset now) then waitLoop now rest readyIn l
          else
            let wait := time_Sub reset now in
            waitLoop now rest (if readyIn <? wait then wait else readyIn) l
      end
  end.

Definition attemptReadyIn (cooldowns : gmap string Z) (e : QuotaEstimate) (now : Z) (attempt : modelAttempt) (l : QuotaLedger) : QuotaLedger * Z :=
  let readyIn := quotaCooldownRemaining svc cooldowns attempt now in
  let '(l, rs) := quotaReservations fingerprint svc env attempt (credentialFor attempt) e now l in
  waitLoop now rs readyIn l.

Fixpoint retryLoop (cooldowns : gmap string Z) (e : QuotaEstimate) (now : Z) (attempts : list modelAttempt) (soonest : Z) (l : QuotaLedger) : QuotaLedger * Z :=
  match attempts with
  | [] => (l, soonest)
  | attempt :: rest =>
      let '(l, d) := attemptReadyIn cooldowns e now attempt l in
      retryLoop cooldowns e now rest (if (0 <? d) && ((soonest =? 0) || (d <? soonest)) then d else soonest) l
  end.

Definition quotaRetryAfterForAttempts (cooldowns : gmap string Z) (attempts : list modelAttempt) (e : QuotaEstimate) (now : Z) (l : QuotaLedger) : QuotaLedger * Z :=
  retryLoop cooldowns e now attempts 0 l.
End routing.

(** ** Looking at one attempt does not spoil another

    What [quotaCanFit] found for an attempt stays true while other attempts
    are examined: the defaults they install are for other buckets, or are
    already there. *)

Definition normal (svc : RouterStatic) (a : modelAttempt) : Prop := normalizedProvider svc a = Provider a.

Lemma normalizeAttempt_normal svc a : normal svc (normalizeAttempt svc a).
Proof. apply normalizeAttempt_provider. Qed.

Lemma scope_distinct fingerprint c c' :
  credentialQuotaScope fingerprint "model" c <> credentialQuotaScope fingerprint "free_pool" c'.
Proof. unfold credentialQuotaScope. by repeat case_match. Qed.

(** A default of [b] on which [a] draws is one of [a]'s own. *)
Lemma shared_entry fingerprint svc env now a ca b cb e :
  normal svc a -> normal svc b ->
  In e (bootstrapEntries fingerprint svc env b cb now) -> drawsOn fingerprint svc a ca (be_key e) = true ->
  In e (bootstrapEntries fingerprint svc env a ca now).
Proof.
  intros Ha Hb Hin Hd. unfold drawsOn in Hd. unfold bootstrapEntries in Hin |- *. rewrite Ha in *. rewrite Hb in *.
  destruct (str_eq (Provider b) providerOpenRouter) eqn:E1; [|destruct (str_eq (Provider b) providerCerebras) eqn:E2;
    [|destruct (str_eq (Provider b) providerGroq) eqn:E3; [|done]]]; strs.
  - destruct (isFree (Model b)); [|done].
    assert (Hk : key_Provider (be_key e) = Provider b /\ key_Scope (be_key e) = credentialQuotaScope fingerprint "free_pool" cb)
      by (destruct Hin as [<-|[<-|[]]]; done).
    destruct Hk as [Hk1 Hk2]. zbool. strs. rewrite Hk2 in *. assert (Hp : Provider a = providerOpenRouter) by congruence.
    rewrite Hp in *. simpl in *. destruct (isFree (Model a)); simpl in *; [|by symmetry in H1; apply scope_distinct in H1].
    rewrite <- H1. by rewrite E1 in Hin.
  - assert (Hk : key_Provider (be_key e) = Provider b /\ key_Scope (be_key e) = credentialQuotaScope fingerprint "model" cb /\
      key_ModelOrPool (be_key e) = Model b) by (destruct Hin as [<-|[<-|[<-|[<-|[]]]]]; done).
    destruct Hk as (Hk1 & Hk2 & Hk3). zbool. strs. assert (Hp : Provider a = providerCerebras) by congruence.
    rewrite Hp, Hk2, Hk3 in *. simpl in *. destruct H0 as [H0|H0]; [|done]. strs. rewrite <- H1, <- H0. rewrite Hb, E2 in Hin. by rewrite Ha, Hp.
  - assert (Hk : key_Provider (be_key e) = Provider b /\ key_Scope (be_key e) = credentialQuotaScope fingerprint "model" cb /\
      key_ModelOrPool (be_key e) = Model b)
      by (destruct (Contains _ _); destruct Hin as [<-|[<-|[<-|[<-|[]]]]]; done).
    destruct Hk as (Hk1 & Hk2 & Hk3). zbool. strs. assert (Hp : Provider a = providerGroq) by congruence.
    rewrite Hp, Hk2, Hk3 in *. simpl in *. destruct H0 as [H0|H0]; [|done]. strs. rewrite <- H1, <- H0. rewrite Hb, E3 in Hin. by rewrite Ha, Hp.
Qed.

Section fitting.
Context (fingerprint : string -> string) (svc : RouterStatic) (env : environ) (now : Z) (Hnow : 0 <= now).
Context (e : QuotaEstimate).
#[local] Abbreviation fitting := (fun a ca => fittingFor fingerprint svc env now a ca e).

Lemma fitting_reads a ca l l' : reads now l l' -> fitting a ca l -> fitting a ca l'.
Proof.
  intros Hr [H1 H2]. split; [by apply (readyFor_reads _ _ _ _ _ _ l)|]. intros k Hd c Hc.
  apply (usable_reads now l); [done|]. by apply H2.
Qed.

Lemma fitting_boot a ca b cb es : forall l,
  normal svc a -> normal svc b -> (forall x, In x es -> In x (bootstrapEntries fingerprint svc env b cb now)) ->
  fitting a ca l -> fitting a ca (fold_left (observeIfUnknown now) es l).
Proof.
  induction es as [|x es IH]; intros l Ha Hb Hes Hf; [done|]. simpl. apply IH; [done|done|intros; apply Hes; by right|].
  pose proof (entries_ok fingerprint svc env now Hnow b cb) as Hok. rewrite List.Forall_forall in Hok.
  assert (Hx : entryOK now x) by (apply Hok, Hes; by left). destruct Hf as [[Ht Hs] Hu].
  destruct (oiu_spec now l x Hx Ht) as (H1 & _ & H3 & _). split.
  - split; [done|]. eapply Forall_impl; [exact Hs|]. intros y Hy. by apply oiu_keeps.
  - intros k Hd c Hc. destruct (decide (k = be_key x)) as [->|Hne].
    + rewrite (steady_id now l x Ht); [by apply Hu|]. rewrite List.Forall_forall in Hs. apply Hs.
      eapply shared_entry; [done|exact Hb|apply Hes; by left|done].
    + intros bk Hbk. rewrite (fits_bucketAt l) by auto. apply (Hu k Hd Hc). by rewrite <- H3.
Qed.

Lemma fitting_reservations a ca b cb l l' rs :
  normal svc a -> normal svc b -> quotaReservations fingerprint svc env b cb e now l = (l', rs) ->
  fitting a ca l -> fitting a ca l'.
Proof.
  intros Ha Hb H Hf. apply (quotaReservations_spec _ _ _ _ Hnow) in H as [-> _]; [|apply Hf].
  by apply (fitting_boot a ca b cb).
Qed.

Lemma fitting_canFit a ca b cb l l' ok :
  normal svc a -> normal svc b -> quotaCanFit fingerprint svc env b cb e now l = (l', ok) ->
  fitting a ca l -> fitting a ca l'.
Proof.
  intros Ha Hb H Hf. unfold quotaCanFit in H.
  destruct (quotaReservations fingerprint svc env b cb e now l) as [l1 rs] eqn:E.
  pose proof (fitting_reservations a ca b cb l l1 rs Ha Hb E Hf) as Hf1.
  apply fitLoop_spec in H as [Hr _]; [by apply (fitting_reads a ca l1)| |apply Hf1].
  apply (quotaReservations_spec _ _ _ _ Hnow) in E as (_ & _ & _ & _ & H5); [|apply Hf].
  apply Forall_forall. intros r Hr. by apply H5 in Hr as (_ & _ & _ & ?).
Qed.

Lemma fitting_pressure a ca b cb l :
  normal svc a -> normal svc b -> fitting a ca l -> fitting a ca (quotaPressure fingerprint svc env b cb e now l).1.
Proof.
  intros Ha Hb Hf. unfold quotaPressure.
  destruct (quotaReservations fingerprint svc env b cb e now l) as [l1 rs] eqn:E.
  pose proof (fitting_reservations a ca b cb l l1 rs Ha Hb E Hf) as Hf1. destruct (_ =? _)%nat; [done|].
  pose proof (reads_pressureLoop now rs f0 l1 (proj1 (proj1 Hf1))) as Hr. destruct (pressureLoop now rs f0 l1). simpl in *.
  by apply (fitting_reads a ca l1).
Qed.

Lemma pressure_tickets b cb l :
  tidy now l -> lg_tickets (quotaPressure fingerprint svc env b cb e now l).1 = lg_tickets l.
Proof.
  intros Ht. unfold quotaPressure. destruct (quotaReservations fingerprint svc env b cb e now l) as [l1 rs] eqn:E.
  apply (quotaReservations_spec _ _ _ _ Hnow) in E as (_ & [H2 _] & H3 & _); [|done]. destruct (_ =? _)%nat; [done|].
  pose proof (reads_pressureLoop now rs f0 l1 H2) as (_ & Hr & _). destruct (pressureLoop now rs f0 l1). simpl in *. congruence.
Qed.
End fitting.

(** ** Groups and rounds *)

(** A group per provider, each with an attempt. *)
Definition groupOK (g : routeGroup) : Prop :=
  rg_attempts g <> [] /\ Forall (fun a => Provider a = rg_provider g) (rg_attempts g).
Definition shape (groups : list routeGroup) : Prop := NoDup (rg_provider <$> groups) /\ Forall groupOK groups.

Definition members (groups : list routeGroup) : list modelAttempt := mjoin (rg_attempts <$> groups).

Lemma joinGroup_providers order pref a groups :
  rg_provider <$> joinGroup order pref a groups =
  if decide (Provider a ∈ rg_provider <$> groups) then rg_provider <$> groups else ((rg_provider <$> groups) ++ [Provider a])%list.
Proof.
  induction groups as [|g groups IH]; [done|]. cbn [joinGroup].
  destruct (str_eq (rg_provider g) (Provider a)) eqn:E; strs; rewrite !fmap_cons; cbn [rg_provider].
  - rewrite decide_True; [done|]. rewrite E. by left.
  - rewrite IH. destruct (decide (Provider a ∈ rg_provider <$> groups)).
    + rewrite decide_True; [done|]. by right.
    + rewrite decide_False; [done|]. apply not_elem_of_cons. by split; [congruence|].
Qed.

Lemma joinGroup_shape order pref a groups : shape groups -> shape (joinGroup order pref a groups).
Proof.
  intros [H1 H2]. split.
  - rewrite joinGroup_providers. case_decide as H; [done|]. apply NoDup_app. split_and?; [done| |apply NoDup_singleton].
    intros x Hx Hx'. apply list_elem_of_singleton in Hx'. by subst.
  - clear H1. induction H2 as [|g groups [Hg1 Hg2] Hgs IH]; simpl; [by repeat constructor|].
    destruct (str_eq (rg_provider g) (Provider a)) eqn:E; strs; [|by repeat constructor].
    constructor; [|done]. split; simpl; [by destruct (rg_attempts g)|]. apply Forall_app. split; [done|]. by repeat constructor.
Qed.

Lemma joinGroup_members order pref a groups : members (joinGroup order pref a groups) ≡ₚ a :: members groups.
Proof.
  unfold members. induction groups as [|g groups IH]; simpl; [done|]. destruct (str_eq _ _); simpl.
  - rewrite <- app_assoc. simpl. symmetry. apply Permutation_middle.
  - rewrite IH. symmetry. apply Permutation_middle.
Qed.

Lemma drop_row {A} d (gs : list (list A)) : mjoin (drop d <$> gs) ≡ₚ (atDepth gs d ++ mjoin (drop (S d) <$> gs))%list.
Proof.
  induction gs as [|g gs IH]; simpl; [done|]. rewrite IH. unfold atDepth at 2. simpl.
  destruct (g !! d) as [x|] eqn:E; simpl.
  - rewrite (drop_S _ _ _ E). simpl. fold (atDepth gs d). rewrite !app_assoc. constructor.
    apply Permutation_app_tail, Permutation_app_comm.
  - apply lookup_ge_None in E. rewrite !drop_ge by lia. done.
Qed.

Lemma interleaveFrom_perm {A} fuel : forall d (gs : list (list A)),
  Forall (fun g => List.length g <= d + fuel)%nat gs -> interleaveFrom fuel d gs ≡ₚ mjoin (drop d <$> gs).
Proof.
  induction fuel as [|fuel IH]; intros d gs Hgs; simpl.
  { induction Hgs as [|g gs Hg _ IH]; simpl; [done|]. rewrite <- IH, drop_ge by lia. done. }
  rewrite (drop_row d gs). rewrite <- (IH (S d)) by (eapply Forall_impl; [exact Hgs|]; simpl; lia).
  destruct (atDepth gs d) eqn:E; [|done]. simpl. destruct fuel; [done|]. simpl.
  assert (Hn : atDepth gs (S d) = []); [|by rewrite Hn].
  clear -E. induction gs as [|g gs IH]; [done|]. unfold atDepth in *. simpl in *. destruct (g !! d) eqn:E1; [done|].
  apply lookup_ge_None in E1. rewrite (proj2 (lookup_ge_None g (S d))) by lia. by apply IH.
Qed.

Lemma interleave_perm {A} (gs : list (list A)) : interleave gs ≡ₚ mjoin gs.
Proof.
  unfold interleave. rewrite interleaveFrom_perm.
  - f_equiv. induction gs as [|g gs IH]; simpl; [done|]. by rewrite drop_0, IH.
  - assert (H : Forall (fun g => List.length g <= foldr Nat.max 0 (List.length <$> gs))%nat gs);
      [|eapply Forall_impl; [exact H|]; simpl; lia].
    induction gs as [|g gs IH]; constructor; rewrite fmap_cons; cbn [foldr]; [lia|]. eapply Forall_impl; [exact IH|].
    intros x Hx; cbv beta in *; lia.
Qed.

(** The first round takes the first attempt of every group. *)
Lemma interleave_first {A} (gs : list (list A)) :
  Forall (fun g => g <> []) gs -> exists heads rest,
    interleave gs = (heads ++ rest)%list /\ Forall2 (fun g h => head g = Some h) gs heads.
Proof.
  intros Hgs. exists (atDepth gs 0).
  assert (H2 : Forall2 (fun g h => head g = Some h) gs (atDepth gs 0)).
  { unfold atDepth. induction Hgs as [|g gs Hg _ IH]; simpl; [constructor|]. destruct g as [|x g]; [done|]. by constructor. }
  unfold interleave. simpl. destruct (atDepth gs 0) eqn:E; [exists []|eexists]; done.
Qed.

(** ** The decision, step by step *)

Section decision.
Context (fingerprint : string -> string) (svc : RouterStatic) (env : environ).
Context (cr : credentialStore) (cx : reqContext) (openRouterCredential : string).
Context (now : Z) (Hnow : 0 <= now) (e : QuotaEstimate) (cooldowns : gmap string Z).
#[local] Abbreviation credentialFor := (credentialFor svc cr cx openRouterCredential).

(** A candidate: ready to run, with room in every bucket it draws on. *)
Definition candidate (l : QuotaLedger) (a : modelAttempt) : Prop :=
  normal svc a /\ quotaAttemptAvailable svc cooldowns a now = true /\
  fittingFor fingerprint svc env now a (credentialFor a) e l.

Lemma consider_fold order route base : forall l groups l' groups',
  kept l -> shape groups -> Forall (candidate l) (members groups) ->
  fold_left (considerAttempt fingerprint svc env cr cx openRouterCredential cooldowns e now order route) base (l, groups) = (l', groups') ->
  kept l' /\ shape groups' /\ Forall (candidate l') (members groups') /\ lg_tickets l' = lg_tickets l /\
  members groups' ⊆+ (members groups ++ (normalizeAttempt svc <$> base))%list.
Proof.
  induction base as [|a base IH]; intros l groups l' groups' Hk Hs Hc H; simpl in H.
  { injection H as <- <-. split_and?; try done. simpl. by rewrite app_nil_r. }
  unfold considerAttempt at 2 in H. cbn [fst snd] in H. set (b := normalizeAttempt svc a) in *.
  assert (Hb : normal svc b) by apply normalizeAttempt_normal.
  destruct (quotaAttemptAvailable svc cooldowns b now) eqn:Ea; cbn [negb] in H.
  2: { apply IH in H as (H1 & H2 & H3 & H4 & H5); [|done..]. split_and?; try done. etrans; [exact H5|].
       apply submseteq_skips_l. by constructor. }
  destruct (quotaCanFit fingerprint svc env b (credentialFor b) e now l) as [l1 ok] eqn:Ef.
  assert (Hc1 : Forall (candidate l1) (members groups)).
  { eapply Forall_impl; [exact Hc|]. intros x (Hx1 & Hx2 & Hx3). do 2 (split; [done|]).
    by apply (fitting_canFit _ _ _ _ Hnow _ x _ b (credentialFor b) l l1 ok). }
  apply (canFit_spec _ _ _ _ Hnow) in Ef as (Hr & Ht & Hf); [|done].
  destruct ok; cbn [negb] in H.
  - apply IH in H as (H1 & H2 & H3 & H4 & H5); [|apply Hr|by apply joinGroup_shape|by rewrite joinGroup_members; constructor].
    split_and?; [done|done|done|congruence|]. etrans; [exact H5|]. rewrite joinGroup_members. simpl. fold b. by rewrite Permutation_middle.
  - apply IH in H as (H1 & H2 & H3 & H4 & H5); [|apply Hr|done..].
    split_and?; [done|done|done|congruence|]. etrans; [exact H5|]. apply submseteq_skips_l. by constructor.
Qed.

Lemma measure_fold st stats clock gs : forall i (all : list modelAttempt) l l' gs',
  shape gs -> (forall a, a ∈ members gs -> a ∈ all) -> kept l -> Forall (candidate l) all ->
  measureGroups fingerprint svc env cr cx openRouterCredential st stats e now clock i gs l = (l', gs') ->
  kept l' /\ Forall (candidate l') all /\ lg_tickets l' = lg_tickets l /\
  rg_attempts <$> gs' = rg_attempts <$> gs /\ rg_provider <$> gs' = rg_provider <$> gs.
Proof.
  induction gs as [|g gs IH]; intros i all l l' gs' [Hs1 Hs2] Hin Hk Hc H; simpl in H; [by injection H as <- <-|].
  inversion_clear Hs2 as [|? ? [Hg1 Hg2] Hgs]. apply NoDup_cons in Hs1 as [_ Hs1].
  unfold measureGroup in H. destruct (rg_attempts g) as [|a rest] eqn:Eg; [done|].
  assert (Ha : a ∈ all) by (apply Hin; unfold members; simpl; rewrite Eg; by left).
  rewrite Forall_forall in Hc. destruct (Hc a Ha) as (Hn & _ & Hf). pose proof (proj1 (proj1 Hf)) as Ht.
  pose proof (pressure_tickets fingerprint svc env now Hnow e a (credentialFor a) l Ht) as Htk.
  assert (Hc1 : Forall (candidate (quotaPressure fingerprint svc env a (credentialFor a) e now l).1) all).
  { apply Forall_forall. intros y Hy. destruct (Hc y Hy) as (Hx1 & Hx2 & Hx3). do 2 (split; [done|]). by apply fitting_pressure. }
  destruct (quotaPressure _ _ _ _ _ _ _ l) as [l1 [p k]]. cbn [fst] in Htk, Hc1.
  destruct (meanFirstTokenLatency svc stats a) as [lat n].
  destruct (measureGroups _ _ _ _ _ _ _ _ _ _ _ _ gs l1) as [l2 gs2] eqn:E. injection H as <- <-.
  assert (Hk1 : kept l1).
  { rewrite Forall_forall in Hc1. apply (Hc1 a Ha). }
  apply (IH _ all) in E as (I1 & I2 & I3 & I4 & I5); [|done| |done|done].
  - split_and?; [done|done|congruence| |]; rewrite !fmap_cons; cbn [rg_attempts rg_provider]; [by rewrite Eg, I4|by rewrite I5].
  - intros y Hy. apply Hin. unfold members. rewrite fmap_cons. simpl. apply elem_of_app. by right.
Qed.

Lemma base_perm st aff clock attempts :
  normalizeAttempt svc <$> (applySessionAffinity cx (clock 2%nat) aff (rankAttemptsByScore svc env st (clock 1%nat) attempts)).2
  ≡ₚ normalizeAttempt svc <$> attempts.
Proof.
  assert (Hr : normalizeAttempt svc <$> rankAttemptsByScore svc env st (clock 1%nat) attempts ≡ₚ normalizeAttempt svc <$> attempts).
  { unfold rankAttemptsByScore. destruct (_ <? _)%nat; [done|]. rewrite rank_perm, <- list_fmap_compose.
    apply Permutation_refl', list_fmap_ext. intros i a _. unfold compose, normalizeAttempt. simpl.
    fold (normalizeAttempt svc a). by rewrite normalizeAttempt_provider. }
  rewrite <- Hr. apply fmap_Permutation. unfold applySessionAffinity.
  destruct (preferred _ _ _) as [s' [r|]]; simpl; [|done].
  pose proof (promote_spec r (rankAttemptsByScore svc env st (clock 1%nat) attempts) []) as Hp.
  destruct (promote _ _ _); simpl; [|done]. destruct Hp as (pre & a & post & -> & _ & _ & ->). simpl. by rewrite Permutation_middle.
Qed.
End decision.

Lemma quotaRank_spec fingerprint svc env cr cx key clock attempts e s s' ranked :
  kept (ro_ledger s) -> 0 <= clock 0%nat ->
  quotaRank fingerprint svc env cr cx key clock attempts e s = (s', ranked) ->
  kept (ro_ledger s') /\ lg_tickets (ro_ledger s') = lg_tickets (ro_ledger s) /\
  Forall (candidate fingerprint svc env cr cx key (clock 0%nat) e (ro_cooldowns s) (ro_ledger s')) ranked /\
  ranked ⊆+ normalizeAttempt svc <$> attempts /\
  exists gs, ranked = interleave (rg_attempts <$> gs) /\ shape gs.
Proof.
  intros Hk Hnow H. unfold quotaRank in H. pose proof (base_perm svc env cx (ro_breakers s) (ro_affinity s) clock attempts) as Hp.
  destruct (applySessionAffinity _ _ _ _) as [aff base]. cbn [snd] in Hp.
  destruct (preferred _ _ aff) as [aff' route].
  destruct (fold_left _ base _) as [l1 gs1] eqn:E1.
  apply (consider_fold fingerprint svc env cr cx key _ Hnow) in E1 as (H1 & H2 & H3 & H4 & H5); [|done|split; constructor|constructor].
  destruct (measureGroups _ _ _ _ _ _ _ _ _ _ _ _ gs1 l1) as [l2 gs2] eqn:E2.
  apply (measure_fold fingerprint svc env cr cx key _ Hnow e (ro_cooldowns s) _ _ _ _ _ (members gs1)) in E2 as (I1 & I2 & I3 & I4 & I5); [|done..].
  injection H as <- <-. cbn [ro_ledger].
  assert (Hm : interleave (rg_attempts <$> SliceStable (routeLess env) gs2) ≡ₚ members gs1).
  { rewrite interleave_perm. rewrite (mjoin_fmap_perm rg_attempts _ _ (SliceStable_perm (routeLess env) gs2)).
    unfold members. by rewrite I4. }
  split_and?; [done|congruence|by rewrite Hm|rewrite Hm; etrans; [exact H5|]; simpl; by rewrite Hp|].
  exists (SliceStable (routeLess env) gs2). split; [done|]. split.
  - rewrite (SliceStable_perm (routeLess env) gs2), I5. apply H2.
  - rewrite (SliceStable_perm (routeLess env) gs2). destruct H2 as [_ H2]. clear -H2 I4 I5.
    revert gs1 H2 I4 I5. induction gs2 as [|g gs2 IH]; intros [|g1 gs1] H2 I4 I5; try done.
    injection I4 as I4 I4'. injection I5 as I5 I5'. inversion_clear H2 as [|? ? [Ha Hb] Hr].
    constructor; [|by apply (IH gs1)]. split; [by rewrite I4|by rewrite I4, I5].
Qed.

Lemma reserveRanked_first fingerprint svc env cr cx key race e now n a rest l l1 rs t l2 :
  quotaReservations fingerprint svc env a (credentialFor svc cr cx key a) e now (race n l) = (l1, rs) ->
  ReserveAll rs now l1 = (l2, Some t) ->
  reserveRanked fingerprint svc env cr cx key race e now n (a :: rest) l =
  (l2, set_Estimate (providerQuotaEstimate env a e) (set_Ticket t a) :: rest).
Proof. intros E1 E2. cbn [reserveRanked]. by rewrite E1, E2. Qed.

(** C7: the primary is reserved, and the first choice is honoured.  On any
    ledger the service can reach, and when no other request interferes between
    the ranking and the reservation, the list that is returned is the ranked
    list itself, nothing dropped, its first attempt carrying a new ticket of
    this ledger together with its own estimate; no other ticket is issued, and
    when nothing can run the list is empty and no ticket is issued at all. *)
Theorem first_choice_is_reserved fingerprint svc env cr cx key clock attempts e s ops id :
  Forall opInt64 ops -> ro_ledger s = fold_left runLedgerOp ops (NewQuotaLedger id) ->
  estimateOK e -> 0 <= clock 0%nat -> Z.of_nat (size (lg_tickets (ro_ledger s))) + 2 <= two64 ->
  let ranked := (quotaRank fingerprint svc env cr cx key clock attempts e s).2 in
  let '(s2, out) := quotaRankAndReserve fingerprint svc env cr cx key (fun _ l => l) clock attempts e s in
  match ranked with
  | [] => out = [] /\ lg_tickets (ro_ledger s2) = lg_tickets (ro_ledger s)
  | a :: rest =>
      exists t holds, out = set_Estimate (providerQuotaEstimate env a e) (set_Ticket t a) :: rest /\
        owns (ro_ledger s2) t = true /\ lg_tickets (ro_ledger s) !! tk_id t = None /\
        lg_tickets (ro_ledger s2) = <[tk_id t := holds]> (lg_tickets (ro_ledger s))
  end.
Proof.
  intros Hops Hs He Hnow Hsize. cbv zeta. pose proof (reachable_kept ops id Hops) as Hk. rewrite <- Hs in Hk. clear Hs Hops.
  destruct (quotaRank _ _ _ _ _ _ clock attempts e s) as [s1 ranked] eqn:E. cbn [snd].
  pose proof E as E'. apply quotaRank_spec in E' as (H1 & H2 & H3 & H4 & _); [|done|done].
  unfold quotaRankAndReserve. destruct attempts as [|a0 attempts].
  { apply submseteq_nil_r in H4 as ->. done. }
  rewrite E. destruct ranked as [|a rest]; [done|]. inversion_clear H3 as [|? ? (_ & _ & Hf) _].
  destruct (fitting_reserves _ _ _ _ Hnow _ _ _ _ He Hf) as (rs & E1 & [t Ht]); [by rewrite H2|].
  destruct (ReserveAll rs (clock 0%nat) (ro_ledger s1)) as [l2 ot] eqn:E2. cbn [snd] in Ht. subst ot.
  rewrite (reserveRanked_first _ _ _ _ _ _ (fun _ l => l) e _ 0 a rest _ _ _ _ _ E1 E2). cbn [ro_ledger set_ledger].
  apply ReserveAll_shape in E2 as (amounts & i & -> & Hi & Hn & ->). exists (mkTicket (Some (lg_id (ro_ledger s1))) i).
  eexists. cbn [tk_id lg_tickets]. rewrite <- H2. split_and?; [done| |done|done].
  unfold owns. cbn [tk_ledger tk_id lg_id]. rewrite bool_decide_eq_true_2 by done. by destruct (Z.eqb_spec i 0); [lia|].
Qed.

(** What is offered.  Every ranked attempt is one of the request's own,
    none more often than it was asked for, out of its cooldown, and with room
    in every bucket it draws on; and the list is interleaved: its first [k]
    attempts, [k] being the number of providers in it, are on pairwise
    different providers, so that cutting the chain at [MaxAttempts] keeps as
    many providers as it can. *)
Theorem offers_interleave_providers fingerprint svc env cr cx key clock attempts e s ops id :
  Forall opInt64 ops -> ro_ledger s = fold_left runLedgerOp ops (NewQuotaLedger id) -> 0 <= clock 0%nat ->
  let '(s1, ranked) := quotaRank fingerprint svc env cr cx key clock attempts e s in
  ranked ⊆+ normalizeAttempt svc <$> attempts /\
  Forall (fun a => quotaAttemptAvailable svc (ro_cooldowns s) a (clock 0%nat) = true /\
    forall k b, drawsOn fingerprint svc a (credentialFor svc cr cx key a) k = true -> bucketAt (ro_ledger s1) k = Some b ->
      let c := costOf (providerQuotaEstimate env a e) k in 0 < c -> fits (ro_ledger s1) k c = true) ranked /\
  let providers : gset string := list_to_set (Provider <$> ranked) in
  NoDup (Provider <$> take (size providers) ranked) /\
  providers = list_to_set (Provider <$> take (size providers) ranked).
Proof.
  intros Hops Hs Hnow. pose proof (reachable_kept ops id Hops) as Hk. rewrite <- Hs in Hk.
  destruct (quotaRank _ _ _ _ _ _ clock attempts e s) as [s1 ranked] eqn:E.
  apply quotaRank_spec in E as (H1 & H2 & H3 & H4 & gs & -> & Hsh); [|done|done]. split; [done|]. split.
  { eapply Forall_impl; [exact H3|]. intros a (_ & Ha & Hf). split; [done|]. intros k b Hd Hb c Hc. by apply (proj2 Hf k Hd Hc b). }
  cbv zeta. destruct Hsh as [Hnd Hg].
  destruct (interleave_first (rg_attempts <$> gs)) as (heads & rest & Hr & Hh).
  { rewrite Forall_fmap. eapply Forall_impl; [exact Hg|]. by intros g [? _]. }
  assert (Hp : Provider <$> heads = rg_provider <$> gs).
  { clear -Hg Hh. revert heads Hh. induction Hg as [|g gs [_ Hg] _ IH]; intros heads Hh; simpl in Hh; inversion_clear Hh as [|? h ? hs Hd Ht]; [done|].
    simpl. f_equal; [|by apply IH]. destruct (rg_attempts g); [done|]. injection Hd as ->. by inversion_clear Hg. }
  assert (Hset : (list_to_set (Provider <$> interleave (rg_attempts <$> gs)) : gset string) = list_to_set (Provider <$> heads)).
  { rewrite (list_to_set_perm_L _ _ (fmap_Permutation Provider _ _ (interleave_perm _))), Hp.
    clear -Hg. induction Hg as [|g gs [Hg1 Hg2] _ IH]; [done|]. rewrite !fmap_cons. cbn [mjoin list_join]. rewrite fmap_app, list_to_set_app_L, list_to_set_cons.
    f_equal; [|exact IH]. destruct (rg_attempts g) as [|a as']; [done|]. clear Hg1 IH.
    apply set_eq. intros x. rewrite elem_of_list_to_set, elem_of_singleton, list_elem_of_fmap. rewrite Forall_forall in Hg2. split.
    - intros (y & -> & Hy). by apply Hg2.
    - intros ->. exists a. split; [symmetry; apply Hg2; by left|by left]. }
  assert (Hsize : size (list_to_set (Provider <$> heads) : gset string) = List.length heads).
  { rewrite Hp. rewrite size_list_to_set by done. rewrite <- Hp. apply length_fmap. }
  rewrite Hset, Hsize, Hr, take_app_length. split; [by rewrite Hp|done].
Qed.

(** ** Settling a ticket *)

Lemma ledgerFact_range o k f : factOK o -> ledgerFact o = Some (k, f) -> obsOK f.
Proof.
  intros Hok H. unfold ledgerFact in H. destruct (str_eq _ providerQuotaKnown), (pq_HasLimit o) eqn:E1, (pq_HasRemaining o) eqn:E2; try done.
  simpl in H. destruct (_ && _); [done|]. destruct (_ && _); [done|]. injection H as <- <-. by apply Hok.
Qed.

Lemma recordFacts_spec fingerprint credential now os : forall facts l facts' l',
  Forall factOK os -> map_Forall (fun _ f => obsOK f) facts -> kept l ->
  fold_left (recordFact fingerprint credential now) os (facts, l) = (facts', l') ->
  map_Forall (fun _ f => obsOK f) facts' /\ kept l' /\ lg_tickets l' = lg_tickets l /\ lg_id l' = lg_id l.
Proof.
  induction os as [|o os IH]; intros facts l facts' l' Hos Hf Hk H; cbn [fold_left] in H; [by injection H as <- <-|].
  inversion_clear Hos as [|? ? Ho Hos']. unfold recordFact at 2 in H. destruct (ledgerFact o) as [[k f]|] eqn:E; [|by apply (IH facts l)].
  apply ledgerFact_range in E; [|done]. cbv zeta in H. cbn [fst snd] in H.
  match type of H with fold_left _ _ (<[?k0 := ?f0]> _, _) = _ => set (key := k0) in *; set (fact := f0) in * end.
  assert (Hfact : obsOK fact) by (unfold fact; by destruct (_ && _)).
  assert (Hobs : kept (Observe key fact now l).1 /\ lg_tickets (Observe key fact now l).1 = lg_tickets l /\ lg_id (Observe key fact now l).1 = lg_id l).
  { split; [destruct Hk as [[own Hk] Hv]; split; [|by apply valid_Observe]; eapply (Observe_ok own); [apply Hfact|done]|].
    unfold Observe. destruct (_ || _); [done|]. cbv zeta. destruct (expired _ _); [done|]. simpl. unfold putObservation. by destruct (lg_buckets _ !! _). }
  destruct Hobs as (Hk1 & Ht1 & Hi1). apply IH in H as (H1 & H2 & H3 & H4); [|done|by apply map_Forall_insert_2|done].
  split_and?; [done|done|by rewrite H3|by rewrite H4].
Qed.

(** Settlements of distinct valid keys pass the check of [Reconcile]. *)
Lemma settlementsByKey_total ss : forall acc,
  NoDup (set_Key <$> ss) -> (forall k, k ∈ set_Key <$> ss -> acc !! k = None) ->
  Forall (fun s => validQuotaKey (set_Key s) = true /\ 0 <= set_Actual s /\ forall o, set_Observation s = Some o -> obsOK o) ss ->
  exists byKey, settlementsByKey acc ss = Some byKey /\ dom byKey = dom acc ∪ list_to_set (set_Key <$> ss).
Proof.
  induction ss as [|s ss IH]; intros acc Hnd Hacc Hss; cbn [settlementsByKey fmap list_fmap list_to_set].
  { exists acc. split; [done|]. set_solver. }
  inversion_clear Hss as [|? ? (Hv & Ha & Ho) Hss']. apply NoDup_cons in Hnd as [Hn Hnd].
  rewrite Hv. destruct (Z.ltb_spec (set_Actual s) 0); [lia|]. simpl.
  rewrite (Hacc (set_Key s)) by (by left). simpl.
  destruct (set_Observation s) as [o|] eqn:Eo.
  - destruct (Ho o eq_refl) as [? ?]. destruct (Z.ltb_spec (obs_Limit o) 0), (Z.ltb_spec (obs_Remaining o) 0); try lia. simpl.
    destruct (IH (<[set_Key s := s]> acc) Hnd) as (byKey & B1 & B2); [|done|exists byKey; split; [done|set_solver]].
    intros k Hk. rewrite lookup_insert_ne; [apply Hacc; by right|]. by intros <-.
  - destruct (IH (<[set_Key s := s]> acc) Hnd) as (byKey & B1 & B2); [|done|exists byKey; split; [done|set_solver]].
    intros k Hk. rewrite lookup_insert_ne; [apply Hacc; by right|]. by intros <-.
Qed.

Lemma reconcileFold_tickets byKey now hl : forall l, lg_tickets (fold_left (reconcileOne byKey now) hl l) = lg_tickets l.
Proof.
  induction hl as [|[k h] hl IH]; intros l; [done|]. cbn [fold_left]. rewrite IH.
  assert (Hon : forall f m, lg_tickets (onHeld h f m) = lg_tickets m) by (intros; unfold onHeld; by destruct (hold_bucket h)).
  unfold reconcileOne. destruct (byKey !! k) as [s|]; [|by rewrite !Hon]. destruct (set_Observation s); [|by rewrite !Hon].
  cbv zeta. destruct (expired _ _); [by simpl; rewrite Hon|]. unfold putObservation. case_match; simpl; by rewrite Hon.
Qed.

Lemma Reservations_live t l holds :
  owns l t = true -> lg_tickets l !! tk_id t = Some holds ->
  NoDup (res_Key <$> Reservations t l) /\ forall k, k ∈ res_Key <$> Reservations t l <-> is_Some (holds !! k).
Proof.
  intros Ho Ht. unfold Reservations. rewrite Ho, Ht. cbn [negb]. rewrite SliceStable_perm, <- list_fmap_compose.
  assert (E : (res_Key ∘ (fun '(key, h) => mkReservation key (hold_cost h))) <$> map_to_list holds = fst <$> map_to_list holds)
    by (apply list_fmap_ext; by intros i [k h] _).
  split; [rewrite E; apply NoDup_fst_map_to_list|]. intros k.
  rewrite (fmap_Permutation res_Key _ _ (SliceStable_perm _ _)), <- list_fmap_compose, E, list_elem_of_fmap. split.
  - intros ([k' h] & -> & H%elem_of_map_to_list). eauto.
  - intros [h H]. exists (k, h). by rewrite elem_of_map_to_list.
Qed.

Lemma Reconcile_id t ss now l : lg_id (Reconcile t ss now l).1 = lg_id l.
Proof.
  assert (Hone : forall byKey hl m, lg_id (fold_left (reconcileOne byKey now) hl m) = lg_id m).
  { intros byKey hl. induction hl as [|[k h] hl IH]; intros m; [done|]. cbn [fold_left]. rewrite IH.
    assert (Hon : forall f m', lg_id (onHeld h f m') = lg_id m') by (intros; unfold onHeld; by destruct (hold_bucket h)).
    unfold reconcileOne. destruct (byKey !! k) as [s|]; [|by rewrite !Hon]. destruct (set_Observation s); [|by rewrite !Hon].
    cbv zeta. destruct (expired _ _); [by simpl; rewrite Hon|]. unfold putObservation. case_match; simpl; by rewrite Hon. }
  unfold Reconcile. repeat (case_match; try done). simpl. by rewrite Hone.
Qed.

(** Settling on any ledger that keeps its invariant. *)
Lemma settle_kept fingerprint ParseTime ParseDuration decodeError ticket holds attempt credential status headers body actualTokens now clock l :
  kept l -> owns l ticket = true -> lg_tickets l !! tk_id ticket = Some holds ->
  0 <= qe_Requests (att_QuotaEstimate attempt) -> 0 <= qe_Tokens (att_QuotaEstimate attempt) ->
  let '(l', dirty, _) := observeAndSettleQuota fingerprint ParseTime ParseDuration decodeError ticket attempt credential
                           status headers body actualTokens now clock l in
  lg_tickets l' = delete (tk_id ticket) (lg_tickets l) /\ dirty = true /\ kept l' /\ lg_id l' = lg_id l.
Proof.
  intros Hk Ho Ht Hr Htk.
  unfold observeAndSettleQuota. set (os := observeProviderQuota _ _ _ _ _ _ _ _ _ _).
  assert (Hos : Forall factOK os) by apply observeProviderQuota_ok.
  destruct (fold_left _ os (∅, l)) as [facts l1] eqn:E.
  apply recordFacts_spec in E as (Hf & Hk1 & Ht1 & Hi1); [|done|apply map_Forall_empty|done].
  assert (Hvalid : ticket_Valid ticket = true).
  { unfold owns in Ho. apply andb_true_iff in Ho as [Ho1%bool_decide_eq_true_1 Ho2]. unfold ticket_Valid. by rewrite Ho1. }
  rewrite Hvalid. cbn [negb]. set (ss := settlementFor attempt actualTokens facts <$> Reservations ticket l1).
  assert (Ho1 : owns l1 ticket = true) by (unfold owns in *; by rewrite Hi1).
  rewrite <- Ht1 in Ht. destruct (Reservations_live ticket l1 holds Ho1 Ht) as [Hnd Hin].
  assert (Hkeys : set_Key <$> ss = res_Key <$> Reservations ticket l1)
    by (unfold ss; rewrite <- list_fmap_compose; by apply list_fmap_ext).
  destruct (settlementsByKey_total ss ∅) as (byKey & Hb & Hdom).
  { by rewrite Hkeys. }
  { intros k _. apply lookup_empty. }
  { unfold ss. rewrite Forall_fmap. apply Forall_forall. intros r Hres. simpl. split_and?.
    - apply (proj2 (proj2 Hk1) _ _ _ Ht). apply Hin, list_elem_of_fmap. eauto.
    - destruct (str_eq _ _); [|done]. destruct (Z.leb_spec actualTokens 0); lia.
    - intros o Hoo. by apply (Hf _ _ Hoo). }
  assert (Hrec : exists l', Reconcile ticket ss now l1 = (l', true) /\ lg_tickets l' = delete (tk_id ticket) (lg_tickets l1)).
  { unfold Reconcile. rewrite Ho1, Hb. cbn [negb]. cbv zeta. cbn [lg_tickets purgeExpiredLocked set_buckets]. rewrite Ht.
    assert (Hall : forallb (fun '(key, _) => bool_decide (is_Some (holds !! key))) (map_to_list byKey) = true).
    { apply List.forallb_forall. intros [k s] Hks. apply list_elem_of_In, elem_of_map_to_list in Hks.
      apply bool_decide_eq_true_2, Hin. rewrite <- Hkeys. apply elem_of_dom_2 in Hks. rewrite Hdom in Hks. set_solver. }
    rewrite Hall. eexists. split; [done|]. by rewrite reconcileFold_tickets. }
  destruct Hrec as (l' & Hrec & Htl). rewrite Hrec. cbn [fst].
  assert (Hkl : kept l').
  { split; [|replace l' with (Reconcile ticket ss now l1).1 by (by rewrite Hrec); apply valid_Reconcile, Hk1].
    destruct Hk1 as [[own Hok] _]. destruct (Reconcile_ok own ticket ss now l1) as [own' Hok']; [|done|exists own'; by rewrite Hrec in Hok'].
    unfold ss. rewrite Forall_fmap. apply Forall_forall. intros r _ o Hoo. by apply (Hf _ _ Hoo). }
  rewrite <- Ht1, <- Hi1. split_and?; [done|done|done|]. change l' with (l', true).1. by rewrite <- Hrec, Reconcile_id.
Qed.

(** Settling a ticket of this ledger, spent already or not, takes it off the ledger. *)
Lemma settle_deletes fingerprint ParseTime ParseDuration decodeError ticket attempt credential status headers body actualTokens now clock l :
  kept l -> owns l ticket = true ->
  0 <= qe_Requests (att_QuotaEstimate attempt) -> 0 <= qe_Tokens (att_QuotaEstimate attempt) ->
  let l' := (observeAndSettleQuota fingerprint ParseTime ParseDuration decodeError ticket attempt credential
               status headers body actualTokens now clock l).1.1 in
  lg_tickets l' = delete (tk_id ticket) (lg_tickets l) /\ kept l' /\ lg_id l' = lg_id l.
Proof.
  intros Hk Ho Hr Htk. destruct (lg_tickets l !! tk_id ticket) as [holds|] eqn:Ht.
  - pose proof (settle_kept fingerprint ParseTime ParseDuration decodeError ticket holds attempt credential status headers body actualTokens now clock l
      Hk Ho Ht Hr Htk) as H. destruct (observeAndSettleQuota _ _ _ _ _ _ _ _ _ _ _ _ _ _) as [[l' d] os]. by destruct H as (? & _ & ? & ?).
  - unfold observeAndSettleQuota. set (os := observeProviderQuota _ _ _ _ _ _ _ _ _ _).
    assert (Hos : Forall factOK os) by apply observeProviderQuota_ok. rewrite delete_id by done.
    destruct (fold_left _ os (∅, l)) as [facts l1] eqn:E.
    apply recordFacts_spec in E as (Hf & Hk1 & Ht1 & Hi1); [|done|apply map_Forall_empty|done].
    destruct (negb _); [done|]. unfold Reservations. rewrite Ht1, Ht. destruct (negb (owns l1 ticket)) eqn:Hn; simpl;
      unfold Reconcile; rewrite Hn; simpl; [done|]. rewrite Ht1, Ht. simpl. rewrite Ht1, Hi1. split_and!; [done| |done].
    by apply (tidy_purge now l1 Hk1).
Qed.

Lemma Release_deletes ticket now l :
  kept l -> owns l ticket = true ->
  let l' := (Release ticket now l).1 in lg_tickets l' = delete (tk_id ticket) (lg_tickets l) /\ kept l' /\ lg_id l' = lg_id l.
Proof.
  intros Hk Ho. cbv zeta. split_and!.
  - destruct (lg_tickets l !! tk_id ticket) as [holds|] eqn:Ht; [by rewrite (Release_live ticket now l holds Ho Ht)|].
    rewrite (Release_dead ticket now l Ho Ht), delete_id; done.
  - apply (runLedgerOp_kept l (LRelease ticket now) I Hk).
  - destruct (lg_tickets l !! tk_id ticket) as [holds|] eqn:Ht; [by rewrite (Release_live ticket now l holds Ho Ht)|].
    by rewrite (Release_dead ticket now l Ho Ht).
Qed.

(** An answered attempt settles its ticket, whatever the provider said.
    On any ledger the service can reach, for any status, headers, body and
    token count, a ticket that was outstanding is consumed exactly once and no
    other ticket changes; the ledger stays consistent, so every bucket
    reserves exactly what the remaining tickets hold; settling or releasing
    the same ticket again does nothing. *)
Theorem settle_consumes_ticket fingerprint ParseTime ParseDuration decodeError ops id ticket holds attempt credential status headers body actualTokens now clock :
  Forall opInt64 ops ->
  let l := fold_left runLedgerOp ops (NewQuotaLedger id) in
  owns l ticket = true -> lg_tickets l !! tk_id ticket = Some holds ->
  0 <= qe_Requests (att_QuotaEstimate attempt) -> 0 <= qe_Tokens (att_QuotaEstimate attempt) ->
  let '(l', dirty, _) := observeAndSettleQuota fingerprint ParseTime ParseDuration decodeError ticket attempt credential
                           status headers body actualTokens now clock l in
  lg_tickets l' = delete (tk_id ticket) (lg_tickets l) /\ dirty = true /\
  (forall b bk, lg_heap l' !! b = Some bk -> bk_reserved bk = totalHeld b (lg_tickets l')) /\
  (forall ss now', (Reconcile ticket ss now' l').2 = false) /\ (forall now', (Release ticket now' l').2 = false).
Proof.
  intros Hops l Ho Ht Hr Htk. pose proof (reachable_kept ops id Hops) as Hk. fold l in Hk.
  pose proof (settle_kept fingerprint ParseTime ParseDuration decodeError ticket holds attempt credential status headers body actualTokens now clock l
    Hk Ho Ht Hr Htk) as H.
  destruct (observeAndSettleQuota _ _ _ _ _ _ _ _ _ _ _ _ _ _) as [[l' dirty] obs]. destruct H as (Htl & Hd & [[own Hok] _] & Hid).
  assert (Hgone : lg_tickets l' !! tk_id ticket = None) by (rewrite Htl; apply lookup_delete_eq).
  split_and?; [done|done| | |].
  - intros b bk Hbk. destruct (ok_reserved _ _ _ Hok b bk Hbk) as [Hres _]. simpl in Hres. lia.
  - intros ss' now'. by apply Reconcile_dead.
  - intros now'. destruct (owns l' ticket) eqn:Ho'; [|unfold Release; by rewrite Ho']. by rewrite Release_dead.
Qed.

(** ** The ledger as the ticket store of a chain

    The interface [TicketStore] against which the fallback loop is proved. *)

#[global] Instance quotaTicketStore (now : Z) : TicketStore QuotaLedger (fun t l => (Release t now l).1).
Proof.
  exists (fun l t => owns l t = true /\ is_Some (lg_tickets l !! tk_id t)).
  - intros t l Hv [Ho [holds Ht]]. unfold Release in Ho, Ht. destruct (owns l t) eqn:E; cbn [negb] in Ho, Ht; [|cbn [fst] in Ho; congruence].
    cbv zeta in Ht. unfold consumeTicketLocked in Ht. cbn [lg_tickets purgeExpiredLocked set_buckets] in Ht.
    destruct (lg_tickets l !! tk_id t) eqn:E2; cbn [fst] in Ht.
    + cbn [lg_tickets releaseHoldsLocked set_heap set_tickets] in Ht. by rewrite lookup_delete_eq in Ht.
    + cbn [lg_tickets purgeExpiredLocked set_buckets] in Ht. congruence.
  - intros t t' l. unfold Release. destruct (owns l t) eqn:E; cbn [negb]; [|done]. cbv zeta. unfold consumeTicketLocked.
    cbn [lg_tickets purgeExpiredLocked set_buckets].
    destruct (lg_tickets l !! tk_id t) eqn:E2; cbn [fst]; [|done].
    intros [Ho [h Ht]]. split; [done|]. cbn [lg_tickets releaseHoldsLocked set_heap set_tickets] in Ht.
    apply lookup_delete_Some in Ht as [_ Ht]. eauto.
Defined.

(** ** How long to wait *)

(** The bucket is short of [c], and says until when. *)
Definition shortUntil (now : Z) (b : quotaBucket) (c w : Z) : Prop :=
  availableOf b < c /\ obs_ResetAt (bk_observation b) <> 0 /\ now < obs_ResetAt (bk_observation b) /\
  w = time_Sub (obs_ResetAt (bk_observation b)) now.

Lemma waitLoop_spec now rs : forall acc l l' d,
  tidy now l -> waitLoop now rs acc l = (l', d) ->
  reads now l l' /\ acc <= d /\
  Forall (fun r => forall b, bucketAt l' (res_Key r) = Some b ->
    staleMinute (res_Key r) (bk_observation b) now = false /\ forall w, shortUntil now b (res_Cost r) w -> w <= d) rs /\
  (d = acc \/ exists r b, r ∈ rs /\ bucketAt l' (res_Key r) = Some b /\ shortUntil now b (res_Cost r) d).
Proof.
  induction rs as [|r rs IH]; intros acc l l' d Ht H; cbn [waitLoop] in H.
  { injection H as <- <-. split_and?; [by apply reads_refl|done|constructor|by left]. }
  assert (Hgo : forall l1 acc1, reads now l l1 -> waitLoop now rs acc1 l1 = (l', d) ->
    (acc1 = acc \/ exists b, bucketAt l1 (res_Key r) = Some b /\ staleMinute (res_Key r) (bk_observation b) now = false /\ shortUntil now b (res_Cost r) acc1) ->
    acc <= acc1 ->
    (forall b, bucketAt l1 (res_Key r) = Some b -> staleMinute (res_Key r) (bk_observation b) now = false /\ forall w, shortUntil now b (res_Cost r) w -> w <= acc1) ->
    reads now l l' /\ acc <= d /\
    Forall (fun r => forall b, bucketAt l' (res_Key r) = Some b ->
      staleMinute (res_Key r) (bk_observation b) now = false /\ forall w, shortUntil now b (res_Cost r) w -> w <= d) (r :: rs) /\
    (d = acc \/ exists r0 b, r0 ∈ r :: rs /\ bucketAt l' (res_Key r0) = Some b /\ shortUntil now b (res_Cost r0) d)).
  { intros l1 acc1 Hr Hw Hacc Hle Hb. apply IH in Hw as (I1 & I2 & I3 & I4); [|apply Hr].
    pose proof (proj2 (proj2 I1) (res_Key r)) as Hkey. split_and?; [by eapply reads_trans|lia| |].
    - constructor; [|done]. intros b Hbk. destruct Hkey as [E|[E _]]; [|congruence]. rewrite E in Hbk.
      destruct (Hb b Hbk) as [Hs Hw]. split; [done|]. intros w Hshort. specialize (Hw w Hshort). lia.
    - destruct I4 as [->|(r0 & b & ? & ?)]; [|right; exists r0, b; split; [by right|done]].
      destruct Hacc as [->|(b & Hb1 & Hb2 & Hb3)]; [by left|]. right. exists r, b. split; [by left|]. split; [|done].
      destruct Hkey as [->|(_ & b' & Hb' & Hst)]; [done|congruence]. }
  pose proof (reads_Snapshot now (res_Key r) l Ht) as Hr. rewrite Snapshot_tidy in H, Hr by done.
  destruct (bucketAt l (res_Key r)) as [b|] eqn:Eb.
  - destruct (staleMinute _ _ _) eqn:Es; cbn [fst] in Hr.
    + apply (Hgo _ _ Hr H); [by left|lia|]. intros b'. rewrite bucketAt_delete. by rewrite decide_True.
    + cbn [snap_Obs snap_Available] in H. unfold shortUntil in Hgo.
      destruct (_ || _) eqn:Eo.
      * apply (Hgo _ _ Hr H); [by left|lia|]. intros b' Hb'. rewrite Eb in Hb'. injection Hb' as <-. split; [done|].
        intros w (W1 & W2 & W3 & _). exfalso. apply orb_true_iff in Eo as [Eo|Eo]; [apply orb_true_iff in Eo as [Eo|Eo]|]; zbool; lia.
      * zbool. apply (Hgo _ _ Hr H).
        -- destruct (Z.ltb_spec acc (time_Sub (obs_ResetAt (bk_observation b)) now)); [right|by left]. exists b. done.
        -- destruct (Z.ltb_spec acc (time_Sub (obs_ResetAt (bk_observation b)) now)); lia.
        -- intros b' Hb'. rewrite Eb in Hb'. injection Hb' as <-. split; [done|]. intros w (_ & _ & _ & ->).
           destruct (Z.ltb_spec acc (time_Sub (obs_ResetAt (bk_observation b)) now)); lia.
  - apply (Hgo _ _ Hr H); [by left|lia|]. intros b' Hb'. cbn [fst] in Hb'. congruence.
Qed.

Lemma Forall2_mem {A B} (P Q : A -> B -> Prop) l k :
  (forall a b, a ∈ l -> P a b -> Q a b) -> Forall2 P l k -> Forall2 Q l k.
Proof.
  intros H H2. induction H2 as [|a b l k Hab _ IH]; constructor; [apply H; [by left|done]|].
  apply IH. intros a' b' Ha'. apply H. by right.
Qed.

Section waiting.
Context (fingerprint : string -> string) (svc : RouterStatic) (env : environ).
Context (cr : credentialStore) (cx : reqContext) (openRouterCredential : string).
Context (now : Z) (Hnow : 0 <= now) (e : QuotaEstimate) (cooldowns : gmap string Z).
#[local] Abbreviation credentialFor := (credentialFor svc cr cx openRouterCredential).

Definition drawn (a : modelAttempt) (k : QuotaBucketKey) (c : Z) : Prop :=
  drawsOn fingerprint svc a (credentialFor a) k = true /\ c = costOf (providerQuotaEstimate env a e) k /\ 0 < c.

(** [d] is when the attempt can run: its cooldown is over and every bucket it
    draws on that is short has been reset, and not before. *)
Definition readyExactly (l : QuotaLedger) (a : modelAttempt) (d : Z) : Prop :=
  quotaCooldownRemaining svc cooldowns a now <= d /\
  (forall k c b w, drawn a k c -> bucketAt l k = Some b -> shortUntil now b c w -> w <= d) /\
  (d = quotaCooldownRemaining svc cooldowns a now \/
   exists k c b, drawn a k c /\ bucketAt l k = Some b /\ shortUntil now b c d).

(** The attempt's buckets are installed and current. *)
Definition viewed (a : modelAttempt) (l : QuotaLedger) : Prop :=
  readyFor fingerprint svc env now a (credentialFor a) l /\
  forall k c b, drawn a k c -> bucketAt l k = Some b -> staleMinute k (bk_observation b) now = false.

Lemma readyExactly_same l l' a d :
  (forall k c, drawn a k c -> bucketAt l' k = bucketAt l k) -> readyExactly l a d -> readyExactly l' a d.
Proof.
  intros Hs (H1 & H2 & H3). unfold readyExactly. split_and?; [done| |].
  - intros k c b w Hd Hb. rewrite (Hs k c Hd) in Hb. by apply (H2 k c b w).
  - destruct H3 as [?|(k & c & b & Hd & Hb & Hw)]; [by left|]. right. exists k, c, b. by rewrite (Hs k c Hd).
Qed.

Lemma viewed_reads a l l' : reads now l l' -> viewed a l -> viewed a l' /\ forall k c, drawn a k c -> bucketAt l' k = bucketAt l k.
Proof.
  intros Hr [H1 H2]. assert (Hs : forall k c, drawn a k c -> bucketAt l' k = bucketAt l k).
  { intros k c Hd. destruct (proj2 (proj2 Hr) k) as [|(_ & b & Hb & Hst)]; [done|]. rewrite (H2 k c b Hd Hb) in Hst. done. }
  split; [|done]. split; [by apply (readyFor_reads _ _ _ _ _ _ l)|]. intros k c b Hd. rewrite (Hs k c Hd). by apply H2 with c.
Qed.

Lemma viewed_boot a b es : forall l,
  normal svc a -> normal svc b -> (forall x, In x es -> In x (bootstrapEntries fingerprint svc env b (credentialFor b) now)) ->
  viewed a l -> let l' := fold_left (observeIfUnknown now) es l in viewed a l' /\ forall k c, drawn a k c -> bucketAt l' k = bucketAt l k.
Proof.
  induction es as [|x es IH]; intros l Ha Hb Hes Hv; [done|]. cbn [fold_left].
  pose proof (entries_ok fingerprint svc env now Hnow b (credentialFor b)) as Hok. rewrite List.Forall_forall in Hok.
  assert (Hx : entryOK now x) by (apply Hok, Hes; by left). destruct Hv as [[Ht Hs] Hu].
  assert (Hsame : forall k c, drawn a k c -> bucketAt (observeIfUnknown now l x) k = bucketAt l k).
  { intros k c (Hd & _). destruct (decide (k = be_key x)) as [->|Hne]; [|by apply oiu_spec].
    rewrite (steady_id now l x Ht); [done|]. rewrite List.Forall_forall in Hs. apply Hs.
    eapply shared_entry; [done|exact Hb|apply Hes; by left|done]. }
  destruct (IH (observeIfUnknown now l x)) as [I1 I2]; [done|done|intros; apply Hes; by right| |].
  - split.
    + split; [by apply oiu_spec|]. eapply Forall_impl; [exact Hs|]. intros y Hy. by apply oiu_keeps.
    + intros k c bk Hd. rewrite (Hsame k c Hd). by apply Hu with c.
  - split; [done|]. intros k c Hd. by rewrite (I2 k c Hd), (Hsame k c Hd).
Qed.

Lemma viewed_ready a b l l' d :
  normal svc a -> normal svc b -> viewed a l ->
  attemptReadyIn fingerprint svc env cr cx openRouterCredential cooldowns e now b l = (l', d) ->
  viewed a l' /\ forall k c, drawn a k c -> bucketAt l' k = bucketAt l k.
Proof.
  intros Ha Hb Hv H. unfold attemptReadyIn in H. destruct (quotaReservations _ _ _ _ _ _ _ _) as [l1 rs] eqn:E.
  apply (quotaReservations_spec _ _ _ _ Hnow) in E as (-> & H2 & _); [|apply Hv].
  destruct (viewed_boot a b _ l Ha Hb (fun _ Hx => Hx) Hv) as [V1 V2].
  apply waitLoop_spec in H as (Hr & _); [|apply H2]. destruct (viewed_reads a _ l' Hr V1) as [V3 V4].
  split; [done|]. intros k c Hd. rewrite (V4 k c Hd). by apply V2 with c.
Qed.

Lemma attemptReadyIn_spec b l l' d :
  kept l -> attemptReadyIn fingerprint svc env cr cx openRouterCredential cooldowns e now b l = (l', d) ->
  kept l' /\ viewed b l' /\ readyExactly l' b d.
Proof.
  intros Hk H. unfold attemptReadyIn in H. rewrite (quotaReservations_purge _ _ _ _ Hnow) in H by done.
  pose proof (tidy_purge now l Hk) as Ht. destruct (quotaReservations _ _ _ _ _ _ _ _) as [l1 rs] eqn:E.
  apply (quotaReservations_spec _ _ _ _ Hnow) in E as (_ & H2 & _ & _ & H5); [|done].
  apply waitLoop_spec in H as (Hr & Hle & Hall & Hex); [|apply H2]. rewrite Forall_forall in Hall.
  assert (Hin : forall k c bk, drawn b k c -> bucketAt l' k = Some bk -> mkReservation k c ∈ rs).
  { intros k c bk (Hd & -> & Hp) Hbk. apply H5. split_and?; try done. cbn [res_Key].
    destruct (proj2 (proj2 Hr) k) as [<-|[? _]]; [eauto|congruence]. }
  split; [apply Hr|]. split.
  - split; [by apply (readyFor_reads _ _ _ _ _ _ l1)|]. intros k c bk Hd Hbk. by apply (Hall _ (Hin k c bk Hd Hbk) bk).
  - unfold readyExactly. split_and?; [done| |].
    + intros k c bk w Hd Hbk Hw. by apply (proj2 (Hall _ (Hin k c bk Hd Hbk) bk Hbk)).
    + destruct Hex as [->|(r & bk & Hr1 & Hr2 & Hr3)]; [by left|]. right. exists (res_Key r), (res_Cost r), bk.
      apply H5 in Hr1 as (_ & Hd & Hc & Hp). split; [|done]. done.
Qed.

(** The waits of the whole list, against the final ledger. *)
Lemma retryLoop_spec attempts : forall seen ds soon l l' r,
  Forall (normal svc) attempts -> Forall (normal svc) seen -> kept l ->
  Forall (fun a => viewed a l) seen -> Forall2 (readyExactly l) seen ds ->
  retryLoop fingerprint svc env cr cx openRouterCredential cooldowns e now attempts soon l = (l', r) ->
  exists ds', Forall2 (readyExactly l') (seen ++ attempts)%list (ds ++ ds')%list /\ r = fold_left soonest_step (List.filter (fun d => 0 <? d) ds') soon.
Proof.
  induction attempts as [|b attempts IH]; intros seen ds soon l l' r Hn Hd Hk Hv H2 H; cbn [retryLoop] in H.
  { injection H as <- <-. exists []. rewrite !app_nil_r. by split. }
  inversion_clear Hn as [|? ? Hb Hn']. destruct (attemptReadyIn _ _ _ _ _ _ _ _ _ b l) as [l1 d] eqn:E.
  destruct (attemptReadyIn_spec b l l1 d Hk E) as (Hk1 & Hv1 & Hr1).
  rewrite Forall_forall in Hd, Hv.
  assert (Hkeep : forall a, a ∈ seen -> viewed a l1 /\ forall k c, drawn a k c -> bucketAt l1 k = bucketAt l k)
    by (intros a Ha; apply (viewed_ready a b l l1 d); auto).
  apply (IH (seen ++ [b])%list (ds ++ [d])%list) in H as (ds' & I1 & I2); [|done| |done| |].
  - exists (d :: ds'). rewrite <- !app_assoc in I1. split; [done|]. rewrite I2. cbn [List.filter].
    destruct (Z.ltb_spec 0 d); done.
  - apply Forall_app. split; [by apply Forall_forall|constructor; [done|constructor]].
  - apply Forall_app. split; [apply Forall_forall; intros a Ha; by apply Hkeep|constructor; [done|constructor]].
  - apply Forall2_app; [|constructor; [done|constructor]]. eapply Forall2_mem; [|exact H2].
    intros a d' Ha Hrd. apply (readyExactly_same l); [by apply Hkeep|done].
Qed.
End waiting.

(** The advertised wait is the right one.  Each attempt has an exact time
    at which it can run: when its cooldown is over and every bucket it draws on
    that is short of its cost has been reset.  The wait that is returned is
    zero when no attempt has to wait for a known time, and otherwise the
    soonest of these times, so that a client that returns then finds at least
    one provider free and none was free earlier. *)
Theorem retry_after_is_soonest fingerprint svc env cr cx key cooldowns e attempts now ops id :
  Forall opInt64 ops -> 0 <= now -> Forall (normal svc) attempts ->
  let l := fold_left runLedgerOp ops (NewQuotaLedger id) in
  let '(l', r) := quotaRetryAfterForAttempts fingerprint svc env cr cx key cooldowns attempts e now l in
  exists ds, Forall2 (readyExactly fingerprint svc env cr cx key now e cooldowns l') attempts ds /\
    (r = 0 <-> Forall (fun d => d <= 0) ds) /\
    (r <> 0 -> 0 < r /\ r ∈ ds /\ Forall (fun d => 0 < d -> r <= d) ds).
Proof.
  intros Hops Hnow Hn l. pose proof (reachable_kept ops id Hops) as Hk. fold l in Hk.
  destruct (quotaRetryAfterForAttempts _ _ _ _ _ _ _ _ _ _ l) as [l' r] eqn:E.
  apply (retryLoop_spec fingerprint svc env cr cx key now Hnow e cooldowns attempts [] []) in E as (ds & H1 & H2); [|done|constructor|done|constructor|constructor].
  exists ds. split; [done|]. fold (soonest (List.filter (fun d => 0 <? d) ds)) in H2.
  assert (Hpos : Forall (fun d => 0 < d) (List.filter (fun d => 0 <? d) ds)).
  { apply Forall_forall. intros d Hd. apply list_elem_of_In, List.filter_In in Hd as [_ Hd]. by zbool. }
  destruct (soonest_spec _ Hpos) as [S1 S2]. rewrite <- H2 in *.
  assert (Hnil : List.filter (fun d => 0 <? d) ds = [] <-> Forall (fun d => d <= 0) ds).
  { clear. induction ds as [|d ds IH]; simpl; [by split|]. destruct (Z.ltb_spec 0 d).
    - split; [done|]. intros H'. inversion_clear H'. lia.
    - rewrite IH. split; [by constructor|]. by inversion_clear 1. }
  split; [by rewrite S1|]. intros Hr. destruct S2 as (P1 & P2 & P3); [by rewrite <- S1|]. split_and?; [done| |].
  - apply list_elem_of_In, List.filter_In in P2 as [P2 _]. by apply list_elem_of_In.
  - rewrite Forall_forall in P3 |- *. intros d Hd Hp. apply P3, list_elem_of_In, List.filter_In. split; [by apply list_elem_of_In|].
    by apply Z.ltb_lt.
Qed.

(** ** Witnesses *)

Definition wit_exec : FallbackExecution QuotaLedger :=
  mkExecution (fun a l => TRet l (Some (EOther "connection refused"))) None (fun t l => (Release t 7 l).1)
    (fun _ l => l) (fun _ l => l) (fun _ l => l) (mkRetryPolicy 3 [] false false 0 0).

Definition wit_ticketed : modelAttempt := set_Ticket wit_ticket wit_groq.

Lemma chain_leaves_no_ticket_witness :
  is_Some (lg_tickets wit_ledger !! tk_id wit_ticket) /\
  (let '(_, l, _) := Execute wit_exec [wit_ticketed] wit_ledger in ~ (owns l wit_ticket = true /\ is_Some (lg_tickets l !! tk_id wit_ticket))).
Proof.
  split; [apply (bool_decide_eq_true_1 _); vm_compute; reflexivity|].
  pose proof (@chain_leaves_no_ticket QuotaLedger wit_exec (quotaTicketStore 7) [wit_ticketed] wit_ledger) as H.
  destruct (Execute wit_exec [wit_ticketed] wit_ledger) as [[st l] err]. destruct H as [H _].
  apply (H wit_ticketed); [left|reflexivity].
Defined.

Definition wit_credentials : credentialStore := mkCredentials ∅ None.
Definition wit_context : reqContext := mkContext true "".
Definition wit_routing : routingState :=
  mkRouting (NewQuotaLedger 0) (newAffinityStore 0 0) ∅ (mkState ∅ ∅ ∅ ∅ 0 false) ∅.
Definition wit_clock (n : nat) : Z := 1000 + Z.of_nat n.
Definition wit_chain : list modelAttempt := [wit_groq; wit_attempt; wit_groq].
Definition wit_outcome : routingState * list modelAttempt :=
  quotaRankAndReserve (fun c => c) wit_svc ∅ wit_credentials wit_context "key" (fun _ l => l) wit_clock wit_chain wit_estimate wit_routing.
Definition wit_ranked : list modelAttempt :=
  (quotaRank (fun c => c) wit_svc ∅ wit_credentials wit_context "key" wit_clock wit_chain wit_estimate wit_routing).2.

Lemma first_choice_is_reserved_witness :
  exists t holds, head wit_outcome.2 = Some (set_Estimate (providerQuotaEstimate ∅ wit_groq wit_estimate) (set_Ticket t wit_groq)) /\
    owns (ro_ledger wit_outcome.1) t = true /\ lg_tickets (ro_ledger wit_outcome.1) = <[tk_id t := holds]> ∅.
Proof.
  pose proof (first_choice_is_reserved (fun c => c) wit_svc ∅ wit_credentials wit_context "key" wit_clock wit_chain wit_estimate wit_routing [] 0
    ltac:(constructor) eq_refl ltac:(split; vm_compute; discriminate) ltac:(vm_compute; discriminate) ltac:(vm_compute; discriminate)) as H.
  cbv zeta in H. fold wit_outcome in H. fold wit_ranked in H.
  assert (Hr : wit_ranked = [wit_groq; wit_attempt; wit_groq]) by (vm_compute; reflexivity). rewrite Hr in H.
  destruct wit_outcome as [s2 out]. destruct H as (t & holds & H1 & H2 & _ & H4). exists t, holds.
  cbn [fst snd]. rewrite H1. split; [reflexivity|]. split; [exact H2|exact H4].
Defined.

Lemma offers_interleave_providers_witness :
  NoDup (Provider <$> take (size (list_to_set (Provider <$> wit_ranked) : gset string)) wit_ranked) /\
  (Provider <$> wit_ranked) = ["groq"; "openrouter"; "groq"].
Proof.
  split; [|vm_compute; reflexivity].
  pose proof (offers_interleave_providers (fun c => c) wit_svc ∅ wit_credentials wit_context "key" wit_clock wit_chain wit_estimate wit_routing [] 0
    ltac:(constructor) eq_refl ltac:(vm_compute; discriminate)) as H.
  unfold wit_ranked. destruct (quotaRank _ _ _ _ _ _ _ _ _ _) as [s1 ranked]. cbn [snd]. apply H.
Defined.

Definition wit_headers : Header := [("x-ratelimit-limit-requests", ["10"]); ("X-Ratelimit-Remaining-Requests", ["7"])].
Definition wit_settle (l : QuotaLedger) : QuotaLedger * bool * list providerQuotaObservation :=
  observeAndSettleQuota (fun c => c) (fun _ => None) (fun _ => None) (fun _ => None) wit_ticket wit_groq "key" 200 wit_headers "" 42 8 8 l.

Lemma settle_consumes_ticket_witness : lg_tickets (wit_settle wit_ledger).1.1 = delete 1 (lg_tickets wit_ledger).
Proof.
  assert (Hlive : is_Some (lg_tickets wit_ledger !! tk_id wit_ticket)) by (apply (bool_decide_eq_true_1 _); vm_compute; reflexivity).
  destruct Hlive as [holds E].
  pose proof (settle_consumes_ticket (fun c => c) (fun _ => None) (fun _ => None) (fun _ => None) wit_ops 0 wit_ticket holds wit_groq "key" 200
    wit_headers "" 42 8 8 wit_ops_int64
    ltac:(vm_compute; reflexivity) E ltac:(vm_compute; discriminate) ltac:(vm_compute; discriminate)) as H.
  cbv zeta in H. change (fold_left runLedgerOp wit_ops (NewQuotaLedger 0)) with wit_ledger in H.
  unfold wit_settle. revert H. generalize wit_ledger. intros l H.
  destruct (observeAndSettleQuota _ _ _ _ _ _ _ _ _ _ _ _ _ l) as [[l' dirty] os]. exact (proj1 H).
Defined.

Lemma retry_after_is_soonest_witness :
  let until := 30 * Second in
  let cooldowns := {[quotaCooldownKey wit_svc wit_groq := until]} : gmap string Z in
  (quotaRetryAfterForAttempts (fun c => c) wit_svc ∅ wit_credentials wit_context "key" cooldowns [wit_groq] wit_estimate 5 wit_ledger).2 = until - 5 /\
  exists l' ds, Forall2 (readyExactly (fun c => c) wit_svc ∅ wit_credentials wit_context "key" 5 wit_estimate cooldowns l') [wit_groq] ds.
Proof.
  split; [vm_compute; reflexivity|].
  pose proof (retry_after_is_soonest (fun c => c) wit_svc ∅ wit_credentials wit_context "key" {[quotaCooldownKey wit_svc wit_groq := 30 * Second]}
    wit_estimate [wit_groq] 5 wit_ops 0 wit_ops_int64 ltac:(lia) ltac:(repeat constructor)) as H.
  cbv zeta in H. destruct (quotaRetryAfterForAttempts _ _ _ _ _ _ _ _ _ _ _) as [l' r]. destruct H as (ds & H & _). exists l', ds. exact H.
Defined.
