(* ===== verification/Health.v ===== *)
(** * Health: what the proxy reports about itself (router_breaker.go, lines
    209-247 and 310-536, router_provider_breaker.go, lines 112-132)

    [healthFacts] is the short form the policy engine reads on every request,
    [Health] the full report.  [strict] and [warnings] are the validation state
    of the model policy; the policy's names and hashes, its own health record
    and the timestamp of the report are constants of a request and left out.
    [clock] gives the two readings of each availability test. *)

From S2P Require Import Prelude Float Types Env Breaker Scoring Quota Registry Affinity Fallback QuotaProviders QuotaPolicy QuotaRouting.
From Stdlib Require Import Lia ZArith String.
#[local] Open Scope string_scope.
#[local] Open Scope Z_scope.

(** ** The attempts the configuration knows *)

Definition stringsLess (a b : string) : bool := String.ltb a b.

(** One candidate: kept unless its breaker key was seen before. *)
Definition addKnown (svc : RouterStatic) (acc : gset string * list modelAttempt) (candidate : modelAttempt) : gset string * list modelAttempt :=
  let '(seen, attempts) := acc in
  let key := breakerKey svc candidate in
  if bool_decide (key ∈ seen) then acc else ({[key]} ∪ seen, (attempts ++ [candidate])%list).

(** The keys are distinct, so the result does not depend on how the sort
    treats equal elements.  Go ranges over the profiles in no fixed order; that
    of [map_to_list] is one of them, and it matters only when two profiles give
    the same key, the profile names being equal up to surrounding blanks. *)
Definition allKnownAttempts (svc : RouterStatic) : list modelAttempt :=
  if negb (bool_decide (providerProfiles svc = ∅)) then
    let candidates := mjoin ((fun '(profile, targets) =>
      (fun target => newAttempt profile (tgt_Model target) (tgt_Provider target) (defaultBreakerPolicy svc) "") <$> targets)
        <$> map_to_list (providerProfiles svc)) in
    SliceStable (fun a b => stringsLess (breakerKey svc a) (breakerKey svc b)) (fold_left (addKnown svc) candidates (∅, [])).2
  else
    let candidates := mjoin ((fun '(profile, chain) =>
      (fun model => newAttempt profile model (defaultPolicyProvider svc) (defaultBreakerPolicy svc) "") <$> chain)
        <$> map_to_list (policy_Profiles svc)) in
    SliceStable (fun a b => if str_eq (Profile a) (Profile b) then stringsLess (Model a) (Model b) else stringsLess (Profile a) (Profile b))
      (fold_left (addKnown svc) candidates (∅, [])).2.

(** ** Circuits *)

Record BreakerSnapshot := mkBreakerSnapshot {
  bs_Model : string;
  bs_ConsecutiveFailures : Z;
  bs_Successes : Z;
  bs_LastFailureCode : Z;
  bs_LastFailureReason : string;
  bs_LastFailureAt : Z;
  bs_OpenUntil : Z;
  bs_Score : float64;
  bs_State : string;
}.

Definition isOpen (state : modelBreakerState) (now : Z) : bool := After (OpenUntil state) now.

Definition circuitState (state : modelBreakerState) (now : Z) : string :=
  if isOpen state now then "open" else if negb (IsZero (OpenUntil state)) then "half-open" else "closed".

Definition circuitSnapshot (env : scoreEnv) (model : string) (state : modelBreakerState) : BreakerSnapshot :=
  mkBreakerSnapshot model (ConsecutiveFailures state) (Successes state) (LastFailureCode state) (LastFailureReason state)
    (LastFailureAt state) (OpenUntil state) (decayedScore (Some state) env) (circuitState state (se_now env)).

(** The counting loops. *)
Definition openCircuits {K} `{Countable K} (m : gmap K modelBreakerState) (now : Z) : Z :=
  Z.of_nat (List.length (List.filter (fun '(_, state) => isOpen state now) (map_to_list m))).

Definition providerBreakerSnapshot (st : RouterState) (provider : providerID) (now : Z) : BreakerSnapshot :=
  match providerBreakers st !! provider with
  | None => mkBreakerSnapshot ("provider:" +:+ provider) 0 0 0 "" 0 0 f0 "closed"
  | Some state =>
      mkBreakerSnapshot ("provider:" +:+ provider) (ConsecutiveFailures state) (Successes state) (LastFailureCode state)
        (LastFailureReason state) (LastFailureAt state) (OpenUntil state) f0 (circuitState state now)
  end.

(** ** Configuration of providers *)

Definition ambientKeyConfigured (cr : credentialStore) (ambientKeyPresent : option bool) : bool :=
  match ambientKeyPresent with
  | Some present => present
  | None => negb (empty_str (envValue (cr_env cr) "OPENROUTER_API_KEY"))
  end.

Definition ambientProviderCredentialConfigured (cr : credentialStore) (provider : providerID) : bool :=
  match cr_AmbientProviderCredential cr with
  | None => false
  | Some f => let '(secret, ok) := f provider in ok && negb (empty_str secret)
  end.

Definition providerConfigured (cr : credentialStore) (ambientKeyPresent : option bool) (provider : providerID) : bool :=
  if str_eq provider providerCerebras then negb (empty_str (envValue (cr_env cr) "CEREBRAS_API_KEY")) || ambientProviderCredentialConfigured cr provider
  else if str_eq provider providerGroq then negb (empty_str (envValue (cr_env cr) "GROQ_API_KEY")) || ambientProviderCredentialConfigured cr provider
  else ambientKeyConfigured cr ambientKeyPresent.

(** [best] starts at -1; a score is never negative. *)
Definition providerReliabilityLocked (svc : RouterStatic) (st : RouterState) (provider : providerID) (attempts : list modelAttempt) (env : scoreEnv) : float64 :=
  let step best attempt :=
    if str_eq (normalizedProvider svc attempt) provider then
      let score := decayedScore (modelState svc st attempt) env in
      if fltb best score then score else best
    else best in
  let best := fold_left step attempts (f_of_Z (-1)) in
  if fltb best f0 then f0 else best.

(** ** The reports *)

Record ProviderSnapshot := mkProviderSnapshot {
  ps_Provider : string;
  ps_Configured : bool;
  ps_State : string;
  ps_Attempts : Z;
  ps_ReliabilityScore : float64;
  ps_Quota : list QuotaHealthSnapshot;
  ps_ConsecutiveFailures : Z;
  ps_LastFailureCode : Z;
  ps_LastFailureReason : string;
  ps_LastFailureAt : Z;
  ps_OpenUntil : Z;
}.

Record ProxyHealth := mkProxyHealth {
  ph_Status : string;
  ph_Ready : bool;
  ph_OpenCircuitCount : Z;
  ph_ConfiguredAPIKey : bool;
  ph_DefaultExecutor : string;
  ph_Profiles : list string;
  ph_FailureThreshold : Z;
  ph_CooldownSeconds : Z;
  ph_RequestTimeoutSecs : Z;
  ph_Providers : list ProviderSnapshot;
  ph_Circuits : list BreakerSnapshot;
  ph_Quotas : list QuotaSnapshot;
}.

(** The loop over the known attempts, which stops at the first available. *)
Fixpoint anyAvailable (svc : RouterStatic) (st : RouterState) (clock : nat -> Z * Z) (i : nat) (attempts : list modelAttempt) : bool :=
  match attempts with
  | [] => false
  | attempt :: rest =>
      if isModelAvailableLocked svc st attempt (clock i).1 (clock i).2 then true else anyAvailable svc st clock (S i) rest
  end.

(** Status and readiness, from the open circuits, availability and validation. *)
Definition verdictOf (openCount : Z) (available strict : bool) (warnings : nat) : string * bool :=
  let '(status, ready) := (if 0 <? openCount then "degraded" else "ok", true) in
  let '(status, ready) := if negb available then ("unavailable", false) else (status, ready) in
  if strict && (0 <? warnings)%nat then ("unavailable", false) else (status, ready).

Definition healthFacts (svc : RouterStatic) (st : RouterState) (strict : bool) (warnings : nat) (now : Z) (clock : nat -> Z * Z) : string * bool * Z :=
  let openCount := openCircuits (modelBreakers st) now + openCircuits (providerBreakers st) now in
  let available := anyAvailable svc st clock 0 (allKnownAttempts svc) in
  (verdictOf openCount available strict warnings, openCount).

Definition knownProviders : list providerID := [providerOpenRouter; providerCerebras; providerGroq].

Fixpoint providerReports (svc : RouterStatic) (cr : credentialStore) (ambientKeyPresent : option bool) (st : RouterState) (env : scoreEnv) (known : list modelAttempt)
    (providers : list providerID) (l : QuotaLedger) : QuotaLedger * list ProviderSnapshot :=
  match providers with
  | [] => (l, [])
  | provider :: rest =>
      let '(l, quota) := quotaHealth provider (se_now env) l in
      let state := providerBreakers st !! provider in
      let reportWith := mkProviderSnapshot provider (providerConfigured cr ambientKeyPresent provider) in
      let attempts := default 0 (providerAttempts st !! provider) in
      let reliability := providerReliabilityLocked svc st provider known env in
      let report := match state with
        | Some s => reportWith (circuitState s (se_now env)) attempts reliability quota
                      (ConsecutiveFailures s) (LastFailureCode s) (LastFailureReason s) (LastFailureAt s) (OpenUntil s)
        | None => reportWith "closed" attempts reliability quota 0 0 "" 0 0
        end in
      let '(l, reports) := providerReports svc cr ambientKeyPresent st env known rest l in
      (l, report :: reports)
  end.

Fixpoint quotaSnapshots (now : Z) (keys : list QuotaBucketKey) (l : QuotaLedger) : QuotaLedger * list QuotaSnapshot :=
  match keys with
  | [] => (l, [])
  | key :: rest =>
      let '(l, snap) := Snapshot key now l in
      let '(l, snaps) := quotaSnapshots now rest l in
      (l, match snap with Some s => s :: snaps | None => snaps end)
  end.

Definition profileNames (profiles : gmap string (list string)) : list string :=
  SliceStable stringsLess (fst <$> map_to_list profiles).

(** [int(d.Seconds())]: the double is within an ulp of the duration, so the
    truncation is that of the duration below 2^22 seconds. *)
Definition wholeSeconds (d : Z) : Z := Z.quot d Second.

Definition Health (svc : RouterStatic) (env : environ) (cr : credentialStore) (ambientKeyPresent : option bool) (st : RouterState) (strict : bool) (warnings : nat)
    (now : Z) (clock : nat -> Z * Z) (l : QuotaLedger) : QuotaLedger * ProxyHealth :=
  let senv := newScoreEnv env now (scoreAttempts st) in
  let circuits := SliceStable (fun a b => stringsLess (bs_Model a) (bs_Model b))
                    ((fun '(model, state) => circuitSnapshot senv model state) <$> map_to_list (modelBreakers st)) in
  let known := allKnownAttempts svc in
  let '(l, providers) := providerReports svc cr ambientKeyPresent st senv known knownProviders l in
  let openProviders := Z.of_nat (List.length (List.filter
    (fun p => str_eq (ps_State p) "open") providers)) in
  let openCount := openCircuits (modelBreakers st) now + openProviders in
  let '(l, keys) := Keys now l in
  let '(l, quotas) := quotaSnapshots now keys l in
  let quotas := SliceStable (fun a b => keyLess (snap_Key a) (snap_Key b)) quotas in
  let available := anyAvailable svc st clock 0 known in
  let '(status, ready) := verdictOf openCount available strict warnings in
  (l, mkProxyHealth status ready openCount
        (existsb (providerConfigured cr ambientKeyPresent) knownProviders)
        (defaultPolicyProvider svc) (profileNames (policy_Profiles svc))
        (cfg_FailureThreshold (config svc)) (wholeSeconds (cfg_Cooldown (config svc))) (wholeSeconds (cfg_RequestTimeout (config svc)))
        providers circuits quotas).

Definition Ready (svc : RouterStatic) (env : environ) (cr : credentialStore) (ambientKeyPresent : option bool) (st : RouterState) (strict : bool) (warnings : nat)
    (now : Z) (clock : nat -> Z * Z) (l : QuotaLedger) : bool :=
  ph_Ready (Health svc env cr ambientKeyPresent st strict warnings now clock l).2.

(** ** Counting open circuits *)

Definition isOpenAt {K} `{Countable K} (m : gmap K modelBreakerState) (k : K) (now : Z) : Z :=
  match m !! k with Some s => if isOpen s now then 1 else 0 | None => 0 end.

Lemma filter_length_perm {A} (f : A -> bool) (l l' : list A) :
  l ≡ₚ l' -> List.length (List.filter f l) = List.length (List.filter f l').
Proof. induction 1; simpl; repeat case_match; simpl; congruence. Qed.

Lemma openCircuits_delete {K} `{Countable K} (m : gmap K modelBreakerState) (k : K) (now : Z) :
  openCircuits m now = isOpenAt m k now + openCircuits (delete k m) now.
Proof.
  unfold isOpenAt. destruct (m !! k) as [s|] eqn:E.
  - unfold openCircuits. rewrite <- (filter_length_perm _ _ _ (map_to_list_delete m k s E)).
    simpl. destruct (isOpen s now); simpl; lia.
  - rewrite delete_id by done. done.
Qed.

Lemma openCircuits_pos {K} `{Countable K} (m : gmap K modelBreakerState) (now : Z) :
  0 < openCircuits m now -> exists k s, m !! k = Some s /\ isOpen s now = true.
Proof.
  unfold openCircuits. intros Hpos.
  destruct (List.filter _ (map_to_list m)) as [|[k s] l] eqn:E; [simpl in Hpos; lia|].
  assert (Hin : In (k, s) (List.filter (fun '(_, state) => isOpen state now) (map_to_list m))) by (rewrite E; left; done).
  apply filter_In in Hin as [Hin Hopen]. exists k, s. split; [|done].
  by apply elem_of_map_to_list, list_elem_of_In.
Qed.

Lemma openCircuits_nonneg {K} `{Countable K} (m : gmap K modelBreakerState) (now : Z) : 0 <= openCircuits m now.
Proof. unfold openCircuits. lia. Qed.

(** The breakers of providers the full report does not list. *)
Definition unlisted (m : gmap providerID modelBreakerState) : gmap providerID modelBreakerState :=
  filter (fun kv => kv.1 ∉ knownProviders) m.

Lemma unlisted_open (m : gmap providerID modelBreakerState) (now : Z) :
  0 < openCircuits (unlisted m) now -> exists p s, m !! p = Some s /\ (p ∉ knownProviders) /\ isOpen s now = true.
Proof.
  intros (p & s & Hp & Hs)%openCircuits_pos. apply map_lookup_filter_Some in Hp as [Hp Hn]. eauto.
Qed.

Lemma openCircuits_known (m : gmap providerID modelBreakerState) (now : Z) :
  openCircuits m now =
    isOpenAt m providerOpenRouter now + isOpenAt m providerCerebras now + isOpenAt m providerGroq now + openCircuits (unlisted m) now.
Proof.
  rewrite (openCircuits_delete m providerOpenRouter), (openCircuits_delete (delete providerOpenRouter m) providerCerebras),
    (openCircuits_delete (delete providerCerebras (delete providerOpenRouter m)) providerGroq).
  replace (delete providerGroq (delete providerCerebras (delete providerOpenRouter m))) with (unlisted m).
  - assert (E : forall p q, p <> q -> forall m' : gmap providerID modelBreakerState, isOpenAt (delete q m') p now = isOpenAt m' p now)
      by (intros p q Hne m'; unfold isOpenAt; by rewrite lookup_delete_ne).
    rewrite !E by discriminate. lia.
  - apply map_eq. intros p. apply option_eq. intros s. unfold unlisted.
    rewrite map_lookup_filter_Some, !lookup_delete_Some. simpl. unfold knownProviders. set_solver.
Qed.

Lemma circuitState_open (s : modelBreakerState) (now : Z) : str_eq (circuitState s now) "open" = isOpen s now.
Proof. unfold circuitState. destruct (isOpen s now), (IsZero (OpenUntil s)); reflexivity. Qed.

Definition reportedOpen (reports : list ProviderSnapshot) : Z :=
  Z.of_nat (List.length (List.filter (fun p => str_eq (ps_State p) "open") reports)).

Lemma providerReports_open svc cr akp st env known providers l :
  reportedOpen (providerReports svc cr akp st env known providers l).2 =
    foldr (fun p n => isOpenAt (providerBreakers st) p (se_now env) + n) 0 providers.
Proof.
  revert l. induction providers as [|p rest IH]; intros l; [done|]. simpl.
  destruct (quotaHealth p (se_now env) l) as [l1 quota].
  specialize (IH l1). destruct (providerReports svc cr akp st env known rest l1) as [l2 reports]. simpl in *.
  rewrite <- IH. unfold reportedOpen, isOpenAt. simpl.
  destruct (providerBreakers st !! p) as [s|]; simpl; [rewrite circuitState_open; destruct (isOpen s (se_now env))|]; simpl List.length; lia.
Qed.

(** ** Readiness *)

Lemma anyAvailable_spec svc st clock i attempts :
  anyAvailable svc st clock i attempts = true <->
  exists j a, attempts !! j = Some a /\ isModelAvailableLocked svc st a (clock (i + j)%nat).1 (clock (i + j)%nat).2 = true.
Proof.
  revert i. induction attempts as [|a rest IH]; intros i; simpl.
  - split; [done|]. by intros (j & a & Hj & _).
  - destruct (isModelAvailableLocked svc st a _ _) eqn:E.
    + split; [|done]. intros _. exists 0%nat, a. by rewrite Nat.add_0_r.
    + rewrite IH. split.
      * intros (j & b & Hj & Hb). exists (S j), b. by rewrite Nat.add_succ_r.
      * intros ([|j] & b & Hj & Hb); simpl in Hj; [simplify_eq; rewrite Nat.add_0_r in Hb; congruence|].
        exists j, b. simpl. by rewrite <- Nat.add_succ_r.
Qed.

Lemma Health_verdict svc env cr akp st strict warnings now clock l :
  let h := (Health svc env cr akp st strict warnings now clock l).2 in
  ph_OpenCircuitCount h + openCircuits (unlisted (providerBreakers st)) now
    = openCircuits (modelBreakers st) now + openCircuits (providerBreakers st) now /\
  (ph_Status h, ph_Ready h) = verdictOf (ph_OpenCircuitCount h) (anyAvailable svc st clock 0 (allKnownAttempts svc)) strict warnings.
Proof.
  intros h. subst h. unfold Health.
  pose proof (providerReports_open svc cr akp st (newScoreEnv env now (scoreAttempts st)) (allKnownAttempts svc) knownProviders l) as Hopen.
  destruct (providerReports _ _ _ _ _ _ _ _) as [l1 providers]. destruct (Keys now l1) as [l2 keys].
  destruct (quotaSnapshots now keys l2) as [l3 quotas]. destruct (verdictOf _ _ _ _) as [status ready] eqn:E. simpl.
  split; [|done]. rewrite (openCircuits_known (providerBreakers st) now).
  unfold reportedOpen in Hopen. simpl in Hopen. lia.
Qed.

(** The short report and the full one agree: at the same readings
    [healthFacts] and [Health] give the same readiness, which holds exactly
    when some configured attempt passes its breakers and strict validation
    raised no warning; the short open-circuit count exceeds the full one by
    exactly the open circuits of providers the full report does not list, and
    the statuses differ only when there is such a circuit. *)
Theorem health_facts_agree (svc : RouterStatic) (env : environ) (cr : credentialStore) (akp : option bool) (st : RouterState) (strict : bool) (warnings : nat)
    (now : Z) (clock : nat -> Z * Z) (l : QuotaLedger) :
  let '(status, ready, openCount) := healthFacts svc st strict warnings now clock in
  let h := (Health svc env cr akp st strict warnings now clock l).2 in
  ready = ph_Ready h /\
  (ready = true <-> (strict && (0 <? warnings)%nat) = false /\
     exists i a, allKnownAttempts svc !! i = Some a /\ isModelAvailableLocked svc st a (clock i).1 (clock i).2 = true) /\
  openCount = ph_OpenCircuitCount h + openCircuits (unlisted (providerBreakers st)) now /\
  (status = ph_Status h \/
     exists p s, providerBreakers st !! p = Some s /\ (p ∉ knownProviders) /\ isOpen s now = true).
Proof.
  unfold healthFacts. destruct (verdictOf _ _ _ _) as [status ready] eqn:Hfacts.
  set (h := (Health svc env cr akp st strict warnings now clock l).2).
  pose proof (Health_verdict svc env cr akp st strict warnings now clock l) as [Hcount Hverdict]. fold h in Hcount, Hverdict.
  pose proof (anyAvailable_spec svc st clock 0 (allKnownAttempts svc)) as Havail. simpl in Havail. rewrite <- Havail. clear Havail.
  rewrite <- Hcount in *. clear Hcount. clearbody h.
  generalize dependent (anyAvailable svc st clock 0 (allKnownAttempts svc)). intros available Hfacts Hverdict.
  pose proof (openCircuits_nonneg (unlisted (providerBreakers st)) now) as Hnn.
  pose proof (unlisted_open (providerBreakers st) now) as Hex.
  generalize dependent (openCircuits (unlisted (providerBreakers st)) now). intros extra Hfacts Hnn Hex.
  unfold verdictOf in *. destruct (Z.eq_dec extra 0) as [->|E0].
  - rewrite Z.add_0_r in *. destruct available, (strict && (0 <? warnings)%nat); simpl in *; simplify_eq; intuition congruence.
  - specialize (Hex ltac:(lia)). destruct available, (strict && (0 <? warnings)%nat); simpl in *; simplify_eq; intuition congruence.
Qed.
