(* ===== verification/Eligibility.v ===== *)
(** * Eligibility: which models may serve a request (router_capabilities.go,
    router_context_window.go, router_profile_timeout.go, and the capability
    filter and rescue of router.go)

    The capability index merges what OpenRouter advertises with the manual
    overrides; a model is used for images or tools only when it is known to
    support them.  A context window excludes a model that the request cannot
    fit.  A profile may shorten an attempt's deadline.  A decoded JSON object
    whose keys are normalised is the list of its entries in iteration order. *)

From S2P Require Import Prelude Float Types Env Breaker Quota Registry Fallback QuotaPolicy.
From Stdlib Require Import Lia ZArith String SpecFloat.
#[local] Open Scope string_scope.
#[local] Open Scope Z_scope.

(** ** The capability index *)

Definition capVision : string := "vision".
Definition capTools : string := "tools".
Definition capReasoning : string := "reasoning".
Definition capReasoningEffort : string := "reasoning_effort".

Record capabilityIndex := mkIndex {
  ci_caps : gmap string (gset string);
  ci_overrides : gmap string (list string);
  ci_auto : gmap string (gset string);
}.

(** One override of a model: ["cap"] grants, ["!cap"] denies. *)
Definition applyOverride (set : gset string) (c : string) : gset string :=
  let c := TrimSpace c in
  if empty_str c then set
  else if HasPrefix c "!" then set ∖ {[TrimPrefix c "!"]}
  else {[c]} ∪ set.

(** The two loops touch each model's entry on its own. *)
Definition mergeModel (auto : option (gset string)) (override : option (list string)) : option (gset string) :=
  match override with
  | None => auto
  | Some list => Some (fold_left applyOverride list (default ∅ auto))
  end.

Definition rebuildLocked (idx : capabilityIndex) : capabilityIndex :=
  mkIndex (merge mergeModel (ci_auto idx) (ci_overrides idx)) (ci_overrides idx) (ci_auto idx).

Definition newCapabilityIndex (overrides : gmap string (list string)) : capabilityIndex :=
  rebuildLocked (mkIndex ∅ overrides ∅).

Definition setOverrides (overrides : gmap string (list string)) (idx : capabilityIndex) : capabilityIndex :=
  rebuildLocked (mkIndex (ci_caps idx) overrides (ci_auto idx)).

Definition setAuto (auto : gmap string (gset string)) (idx : capabilityIndex) : capabilityIndex :=
  rebuildLocked (mkIndex (ci_caps idx) (ci_overrides idx) auto).

Definition known (idx : capabilityIndex) (model : string) : bool :=
  bool_decide (is_Some (ci_caps idx !! TrimSpace model)).

Definition satisfies (idx : capabilityIndex) (model : string) (required : list string) : bool :=
  match required with
  | [] => true
  | _ =>
      match ci_caps idx !! TrimSpace model with
      | None => false
      | Some set => forallb (fun c => bool_decide (c ∈ set)) required
      end
  end.

(** [sort.Strings]. *)
Definition sortStrings (l : list string) : list string := SliceStable String.ltb l.

Definition capableModels (idx : capabilityIndex) (required : list string) : list string :=
  sortStrings (fst <$> List.filter (fun '(_, set) => forallb (fun c => bool_decide (c ∈ set)) required) (map_to_list (ci_caps idx))).

Definition capsRequired (hasImages hasTools : bool) : list string :=
  ((if hasImages then [capVision] else []) ++ (if hasTools then [capTools] else []))%list.

(** A model of the [/models] answer, and the loop that derives capabilities;
    [None] is the error of an answer without models. *)
Record openRouterModel := mkORModel {
  or_ID : string;
  or_InputModalities : list string;
  or_SupportedParameters : list string;
}.

Definition capsOfModel (m : openRouterModel) : gset string :=
  let fromModality (set : gset string) mod_ := if EqualFold mod_ "image" then {[capVision]} ∪ set else set in
  let fromParameter (set : gset string) p :=
    if EqualFold p "tools" then {[capTools]} ∪ set
    else if EqualFold p capReasoning then {[capReasoning]} ∪ set
    else if EqualFold p capReasoningEffort then {[capReasoningEffort]} ∪ set
    else set in
  fold_left fromParameter (or_SupportedParameters m) (fold_left fromModality (or_InputModalities m) ∅).

Definition deriveCapabilities (data : list openRouterModel) : option (gmap string (gset string)) :=
  let out := fold_left (fun (out : gmap string (gset string)) m =>
    if empty_str (or_ID m) then out else <[or_ID m := capsOfModel m]> out) data ∅ in
  if bool_decide (out = ∅) then None else Some out.

(** ** Filter and rescue *)

Definition rescueAttempt (svc : RouterStatic) (category opPath model : string) (provider : providerID) : modelAttempt :=
  newAttempt category model provider (defaultBreakerPolicy svc) opPath.

Definition pairKey (target : providerModelTarget) : string := tgt_Provider target +:+ nul +:+ tgt_Model target.

(** One target of the innermost loop; the state is [seen] and [out]. *)
Definition rescueTarget (svc : RouterStatic) (idx : capabilityIndex) (category opPath : string) (required : list string) (provider : providerID)
    (acc : gset string * list modelAttempt) (target : providerModelTarget) : gset string * list modelAttempt :=
  let '(seen, out) := acc in
  if negb (str_eq (tgt_Provider target) provider) || bool_decide (pairKey target ∈ seen) || negb (satisfies idx (tgt_Model target) required)
  then acc
  else ({[pairKey target]} ∪ seen, (out ++ [rescueAttempt svc category opPath (tgt_Model target) (tgt_Provider target)])%list).

Definition rescueProviders : list providerID := [providerOpenRouter; providerCerebras; providerGroq].

(** One model of the policy's own chains, which name no provider. *)
Definition rescueModel (idx : capabilityIndex) (required : list string) (acc : gset string * list string) (m : string) : gset string * list string :=
  let '(seen, models) := acc in
  if bool_decide (m ∈ seen) then acc
  else ({[m]} ∪ seen, if satisfies idx m required then (models ++ [m])%list else models).

Definition capabilityRescue (svc : RouterStatic) (idx : capabilityIndex) (category opPath : string) (required : list string) : list modelAttempt :=
  if negb (bool_decide (providerProfiles svc = ∅)) then
    let profileNames := sortStrings (fst <$> map_to_list (providerProfiles svc)) in
    let targets := mjoin ((fun profile => default [] (providerProfiles svc !! profile)) <$> profileNames) in
    (fold_left (fun acc provider => fold_left (rescueTarget svc idx category opPath required provider) targets acc)
       rescueProviders (∅, [])).2
  else
    let models := (fold_left (rescueModel idx required) (mjoin (snd <$> map_to_list (policy_Profiles svc))) (∅, [])).2 in
    (fun m => rescueAttempt svc category opPath m (defaultPolicyProvider svc)) <$> sortStrings models.

(** The warning about unknown models is a log line. *)
Definition applyCapabilityFilter (svc : RouterStatic) (idx : capabilityIndex) (attempts : list modelAttempt) (category opPath : string) (required : list string) : list modelAttempt :=
  let capable := List.filter (fun a => satisfies idx (Model a) required) attempts in
  if (0 <? List.length capable)%nat then capable else capabilityRescue svc idx category opPath required.

Definition visionChainServes (idx : capabilityIndex) (chain : list string) (hasTools : bool) : bool :=
  let required := if hasTools then ["vision"; "tools"] else ["vision"] in
  existsb (fun model => negb (known idx model) || satisfies idx model required) chain.

(** ** Context windows *)

Record contextWindow := mkWindow {
  cw_ContextTokens : Z;
  cw_OutputReserveTokens : Z;
}.

Definition providerModelKey (provider : providerID) (model : string) : string :=
  ToLower (TrimSpace provider) +:+ nul +:+ TrimSpace model.

Definition addWindow (provider : string) (out : gmap string contextWindow) (entry : string * contextWindow) : gmap string contextWindow :=
  let '(model, window) := entry in
  if cw_ContextTokens window <=? 0 then out
  else
    let window := if cw_OutputReserveTokens window <? 0 then mkWindow (cw_ContextTokens window) 0 else window in
    <[providerModelKey provider model := window]> out.

Definition parseContextWindows (schema : option (list (string * list (string * contextWindow)))) : option (gmap string contextWindow) :=
  match schema with
  | None => None
  | Some providers => Some (fold_left (fun out '(provider, models) => fold_left (addWindow provider) models out) providers ∅)
  end.

(** [math.Ceil(float64(len)/3)] is exact below 2^51. *)
Definition estimateRequestContext (len : Z) (e : QuotaEstimate) : QuotaEstimate :=
  let input := (len + 2) / 3 in
  let input := if input <? 1 then 1 else input in
  mkEstimate (qe_Requests e) (wrap64 (input + qe_OutputTokens e)) input (qe_OutputTokens e) (qe_OutputExplicit e).

Definition outputFor (e : QuotaEstimate) (window : contextWindow) : Z :=
  if negb (qe_OutputExplicit e) && (0 <? cw_OutputReserveTokens window) then cw_OutputReserveTokens window else qe_OutputTokens e.

(** The test that excludes an attempt. *)
Definition tooLarge (windows : gmap string contextWindow) (e : QuotaEstimate) (attempt : modelAttempt) : bool :=
  match windows !! providerModelKey (Provider attempt) (Model attempt) with
  | None => false
  | Some window => cw_ContextTokens window <? wrap64 (qe_InputTokens e + outputFor e window)
  end.

Definition contextStep (windows : gmap string contextWindow) (e : QuotaEstimate) (acc : list modelAttempt * Z) (attempt : modelAttempt) : list modelAttempt * Z :=
  let '(out, excluded) := acc in
  if tooLarge windows e attempt then (out, excluded + 1) else ((out ++ [attempt])%list, excluded).

Definition filterContextFit (windows : gmap string contextWindow) (attempts : list modelAttempt) (e : QuotaEstimate) : list modelAttempt * Z :=
  if bool_decide (windows = ∅) then (attempts, 0) else fold_left (contextStep windows e) attempts ([], 0).

(** ** Profile timeouts *)

Definition maxProfileTimeoutSeconds : Z := 600.

Definition addTimeout (out : gmap string Z) (entry : string * float64) : gmap string Z :=
  let '(profile, seconds) := entry in
  let profile := TrimSpace profile in
  if empty_str profile then out
  else if fltb seconds f0 || feqb seconds f0 || fltb (f_of_Z maxProfileTimeoutSeconds) seconds then out
  else match float_floor (fmul seconds (f_of_Z Second)) with
       | Some (d, _) => <[profile := d]> out
       | None => out   (* not a number: JSON has none *)
       end.

Definition parseProfileTimeouts (schema : option (list (string * float64))) : option (gmap string Z) :=
  match schema with None => None | Some entries => Some (fold_left addTimeout entries ∅) end.

Definition attemptTimeoutForProfile (timeouts : gmap string Z) (profile : string) (current : Z) : Z :=
  match timeouts !! TrimSpace profile with
  | None => current
  | Some override =>
      if override <=? 0 then current
      else if (0 <? current) && (current <=? override) then current
      else override
  end.

(** ** What the index publishes *)

(** What an override says of a capability, and the last word of a list. *)
Definition mention (c entry : string) : option bool :=
  let x := TrimSpace entry in
  if empty_str x then None
  else if HasPrefix x "!" then (if str_eq (TrimPrefix x "!") c then Some false else None)
  else if str_eq x c then Some true else None.

Definition lastWord (c : string) (entries : list string) : option bool :=
  fold_left (fun acc entry => match mention c entry with Some b => Some b | None => acc end) entries None.

Lemma overrides_last_word c entries : forall acc set,
  (c ∈ set <-> acc = true) ->
  (c ∈ fold_left applyOverride entries set <->
   default acc (fold_left (fun w entry => match mention c entry with Some b => Some b | None => w end) entries None) = true).
Proof.
  assert (Hgen : forall acc set w, (c ∈ set <-> default acc w = true) ->
    (c ∈ fold_left applyOverride entries set <->
     default acc (fold_left (fun w entry => match mention c entry with Some b => Some b | None => w end) entries w) = true)).
  { induction entries as [|x entries IH]; intros acc set w H; [done|]. cbn [fold_left]. apply IH. unfold applyOverride, mention.
    destruct (empty_str (TrimSpace x)); [done|]. destruct (HasPrefix (TrimSpace x) "!").
    - destruct (str_eq (TrimPrefix (TrimSpace x) "!") c) eqn:E; strs; [|rewrite <- H; set_solver].
      simpl. rewrite E. set_solver.
    - destruct (str_eq (TrimSpace x) c) eqn:E; strs; [|rewrite <- H; set_solver]. simpl. rewrite E. set_solver. }
  intros acc set H. by apply Hgen.
Qed.

(** Whether a model has the capability: the last override that names it
    decides, and without one the advertised data. *)
Definition hasCap (idx : capabilityIndex) (model c : string) : bool :=
  default (bool_decide (c ∈ (default ∅ (ci_auto idx !! model) : gset string)))
    (lastWord c (default [] (ci_overrides idx !! model))).

(** Capabilities fail closed.  After any refresh or reload, a model
    satisfies a non-empty requirement exactly when the index has heard of it
    and it has every required capability: the last override naming the
    capability decides, and advertised data only where no override does.  A
    model without any data satisfies nothing but the empty requirement. *)
Theorem capability_fail_closed idx model required :
  satisfies (rebuildLocked idx) model required = true <->
  required = [] \/
  ((is_Some (ci_auto idx !! TrimSpace model) \/ is_Some (ci_overrides idx !! TrimSpace model)) /\
   Forall (fun c => hasCap idx (TrimSpace model) c = true) required).
Proof.
  unfold satisfies. destruct required as [|c0 cs]; [split; [by left|done]|]. cbn [ci_caps rebuildLocked].
  set (m := TrimSpace model). set (required := c0 :: cs). rewrite lookup_merge.
  assert (Hset : forall set, diag_None mergeModel (ci_auto idx !! m) (ci_overrides idx !! m) = Some set ->
    forall c, bool_decide (c ∈ set) = hasCap idx m c).
  { intros set Hs c. apply Bool.eq_iff_eq_true. rewrite bool_decide_eq_true. unfold hasCap, lastWord.
    set (a := default ∅ (ci_auto idx !! m)).
    rewrite <- (overrides_last_word c (default [] (ci_overrides idx !! m)) (bool_decide (c ∈ a)) a) by (by rewrite bool_decide_eq_true).
    unfold diag_None, mergeModel in Hs. unfold a. destruct (ci_auto idx !! m), (ci_overrides idx !! m); simplify_eq/=; done. }
  destruct (diag_None mergeModel (ci_auto idx !! m) (ci_overrides idx !! m)) as [set|] eqn:E.
  - rewrite List.forallb_forall, Forall_forall. setoid_rewrite (Hset set eq_refl). setoid_rewrite <- list_elem_of_In.
    split; [|by intros [?|[_ ?]]]. intros H. right. split; [|done].
    unfold diag_None in E. destruct (ci_auto idx !! m); [left; eauto|]. destruct (ci_overrides idx !! m); [right; eauto|done].
  - split; [done|]. intros [?|[[[x Hx]|[x Hx]] _]]; [done|..]; exfalso; unfold diag_None, mergeModel in E; rewrite Hx in E;
      [destruct (ci_overrides idx !! m)|destruct (ci_auto idx !! m)]; done.
Qed.

(** ** The rescue *)

Definition attemptKey (a : modelAttempt) : string := Provider a +:+ nul +:+ Model a.

Section rescue.
Context (svc : RouterStatic) (idx : capabilityIndex) (category opPath : string) (required : list string).

(** What the loops keep: [seen] holds the keys of [out], each once, and every
    attempt is capable and on a configured target. *)
Definition rescueInv (targets : list providerModelTarget) (acc : gset string * list modelAttempt) : Prop :=
  (forall k, k ∈ acc.1 <-> k ∈ attemptKey <$> acc.2) /\ NoDup (attemptKey <$> acc.2) /\
  Forall (fun a => satisfies idx (Model a) required = true /\
    exists t, t ∈ targets /\ a = rescueAttempt svc category opPath (tgt_Model t) (tgt_Provider t)) acc.2.

Lemma rescueTarget_inv all p acc t :
  t ∈ all -> rescueInv all acc ->
  let acc' := rescueTarget svc idx category opPath required p acc t in
  rescueInv all acc' /\ acc.1 ⊆ acc'.1 /\
  (tgt_Provider t = p -> satisfies idx (tgt_Model t) required = true -> pairKey t ∈ acc'.1).
Proof.
  intros Ht (H1 & H2 & H3). destruct acc as [seen out]. cbn [fst snd] in *. unfold rescueTarget.
  destruct (str_eq (tgt_Provider t) p) eqn:Ep; strs; cbn [negb orb]; [|by split].
  destruct (bool_decide (pairKey t ∈ seen)) eqn:Es; cbn [orb].
  { apply bool_decide_eq_true_1 in Es. by split. }
  apply bool_decide_eq_false_1 in Es. destruct (satisfies idx (tgt_Model t) required) eqn:Esat; cbn [negb]; [|by split].
  set (a := rescueAttempt svc category opPath (tgt_Model t) (tgt_Provider t)).
  assert (Ha : attemptKey a = pairKey t) by done. cbn [fst snd]. split; [|set_solver]. unfold rescueInv. cbn [fst snd].
  rewrite fmap_app, list_fmap_singleton, Ha. split_and?.
  - intros k. rewrite elem_of_union, elem_of_singleton, elem_of_app, list_elem_of_singleton, H1. tauto.
  - apply NoDup_app. split_and?; [done| |apply NoDup_singleton]. intros k Hk Hk'. apply list_elem_of_singleton in Hk' as ->. by apply Es, H1.
  - apply Forall_app. split; [done|]. constructor; [|constructor]. split; [done|]. by exists t.
Qed.

Lemma rescue_inner all p targets : forall acc,
  (forall t, t ∈ targets -> t ∈ all) -> rescueInv all acc ->
  let acc' := fold_left (rescueTarget svc idx category opPath required p) targets acc in
  rescueInv all acc' /\ acc.1 ⊆ acc'.1 /\
  (forall t, t ∈ targets -> tgt_Provider t = p -> satisfies idx (tgt_Model t) required = true -> pairKey t ∈ acc'.1).
Proof.
  induction targets as [|t targets IH]; intros acc Hall Hinv; cbn [fold_left].
  { split_and!; [by apply Hinv..|done|]. intros t Ht. by apply elem_of_nil in Ht. }
  destruct (rescueTarget_inv all p acc t) as (I1 & I2 & I3); [apply Hall; by left|done|].
  destruct (IH _ (fun t' Ht' => Hall t' (list_elem_of_further _ _ _ Ht')) I1) as (J1 & J2 & J3). split; [done|]. split; [set_solver|].
  intros t' Ht' Hp Hs. apply elem_of_cons in Ht' as [->|Ht']; [|by apply J3]. apply J2. by apply I3.
Qed.

Lemma rescue_outer all ps : forall acc,
  rescueInv all acc ->
  let acc' := fold_left (fun acc p => fold_left (rescueTarget svc idx category opPath required p) all acc) ps acc in
  rescueInv all acc' /\ acc.1 ⊆ acc'.1 /\
  (forall t, t ∈ all -> tgt_Provider t ∈ ps -> satisfies idx (tgt_Model t) required = true -> pairKey t ∈ acc'.1).
Proof.
  induction ps as [|p ps IH]; intros acc Hinv; cbn [fold_left].
  { split; [done|]. split; [done|]. intros t _ Ht. by apply elem_of_nil in Ht. }
  destruct (rescue_inner all p all acc (fun _ H => H) Hinv) as (I1 & I2 & I3).
  destruct (IH _ I1) as (J1 & J2 & J3). split; [done|]. split; [set_solver|].
  intros t Ht Hp Hs. apply elem_of_cons in Hp as [Hp|Hp]; [|by apply J3]. apply J2. by apply I3.
Qed.

(** The chains without providers. *)
Lemma rescueModel_fold ms : forall acc,
  NoDup acc.2 -> (forall m, m ∈ acc.2 <-> m ∈ acc.1 /\ satisfies idx m required = true) ->
  let acc' := fold_left (rescueModel idx required) ms acc in
  NoDup acc'.2 /\ (forall m, m ∈ acc'.2 <-> (m ∈ acc.1 \/ m ∈ ms) /\ satisfies idx m required = true).
Proof.
  induction ms as [|m ms IH]; intros [seen models] Hnd Hin; cbn [fold_left fst snd] in *.
  { split; [done|]. intros m. rewrite Hin. setoid_rewrite elem_of_nil. tauto. }
  destruct (IH (rescueModel idx required (seen, models) m)) as [I1 I2].
  - unfold rescueModel. case_bool_decide; [done|]. cbn [snd]. destruct (satisfies idx m required); [|done].
    apply NoDup_app. split_and?; [done| |apply NoDup_singleton]. intros x Hx Hx'. apply list_elem_of_singleton in Hx' as ->.
    by apply Hin in Hx as [? _].
  - unfold rescueModel. case_bool_decide; [done|]. cbn [fst snd]. intros x. rewrite elem_of_union, elem_of_singleton.
    destruct (satisfies idx m required) eqn:E.
    + rewrite elem_of_app, list_elem_of_singleton, Hin. split; [|tauto]. intros [[? ?]| ->]; tauto.
    + rewrite Hin. split; [tauto|]. intros [[->|?] ?]; [congruence|tauto].
  - split; [done|]. intros x. rewrite I2. unfold rescueModel. case_bool_decide; cbn [fst]; rewrite ?elem_of_union, ?elem_of_singleton, elem_of_cons; [|tauto].
    split; [tauto|]. intros [[?|[->|?]] ?]; tauto.
Qed.
End rescue.

(** Every target of the configured provider profiles. *)
Definition configuredTarget (svc : RouterStatic) (provider : providerID) (model : string) : Prop :=
  exists profile targets, providerProfiles svc !! profile = Some targets /\ mkTarget provider model ∈ targets.

(** Every model of the policy's chains. *)
Definition configuredModel (svc : RouterStatic) (model : string) : Prop :=
  exists profile chain, policy_Profiles svc !! profile = Some chain /\ model ∈ chain.

Lemma rescue_targets svc t :
  t ∈ mjoin ((fun profile => default [] (providerProfiles svc !! profile)) <$> sortStrings (fst <$> map_to_list (providerProfiles svc))) <->
  configuredTarget svc (tgt_Provider t) (tgt_Model t).
Proof.
  rewrite list_elem_of_join. setoid_rewrite list_elem_of_fmap. unfold configuredTarget. split.
  - intros (l & Ht & profile & -> & Hp). destruct (providerProfiles svc !! profile) as [targets|] eqn:E; [|by apply elem_of_nil in Ht].
    exists profile, targets. by destruct t.
  - intros (profile & targets & E & Ht). exists targets. split; [by destruct t|]. exists profile. rewrite E. split; [done|].
    unfold sortStrings. rewrite SliceStable_elem_of, list_elem_of_fmap. exists (profile, targets). by rewrite elem_of_map_to_list.
Qed.

(** The capability filter.  Every attempt that passes is known to support
    what the request needs.  If the planned chain has such an attempt, exactly
    those remain, in order.  Otherwise the rescue offers, once each, exactly
    the capable pairs of the operator's own profiles (or the capable models of
    the policy's chains on the default provider): it never leaves what was
    configured and never overlooks a capable target. *)
Theorem capability_filter_spec svc idx attempts category opPath required :
  let out := applyCapabilityFilter svc idx attempts category opPath required in
  let capable := List.filter (fun a => satisfies idx (Model a) required) attempts in
  Forall (fun a => satisfies idx (Model a) required = true) out /\
  (capable <> [] -> out = capable) /\
  (capable = [] ->
   NoDup (attemptKey <$> out) /\
   Forall (fun a => Profile a = category /\ Path a = opPath) out /\
   if bool_decide (providerProfiles svc = ∅)
   then forall m, m ∈ Model <$> out <-> configuredModel svc m /\ satisfies idx m required = true
   else Forall (fun a => configuredTarget svc (Provider a) (Model a)) out /\
        forall p m, configuredTarget svc p m -> p ∈ rescueProviders -> satisfies idx m required = true ->
          (p +:+ nul +:+ m) ∈ attemptKey <$> out).
Proof.
  cbv zeta. unfold applyCapabilityFilter. set (capable := List.filter _ attempts).
  assert (Hcap : Forall (fun a => satisfies idx (Model a) required = true) capable).
  { apply Forall_forall. intros a Ha. by apply list_elem_of_In, List.filter_In in Ha as [_ ?]. }
  destruct capable as [|a0 capable']; cbn [List.length Nat.ltb Nat.leb]; [|by split_and?].
  unfold capabilityRescue. destruct (bool_decide (providerProfiles svc = ∅)) eqn:E; cbn [negb].
  - destruct (rescueModel_fold idx required (mjoin (snd <$> map_to_list (policy_Profiles svc))) (∅, [])) as [Hnd Hin];
      [constructor|cbn [fst snd]; set_solver|].
    set (ms := (fold_left _ _ _).2) in *. cbn [fst] in Hin.
    assert (Hms : forall m, m ∈ ms <-> configuredModel svc m /\ satisfies idx m required = true).
    { intros m. rewrite Hin, list_elem_of_join. setoid_rewrite list_elem_of_fmap. unfold configuredModel. split.
      - intros [[H|(l & Hm & [k l'] & -> & Hk%elem_of_map_to_list)] Hs]; [set_solver|]. eauto.
      - intros [(profile & chain & Hp & Hm) Hs]. split; [right|done]. exists chain. split; [done|]. exists (profile, chain). by rewrite elem_of_map_to_list. }
    assert (Hmodel : Model <$> ((fun m => rescueAttempt svc category opPath m (defaultPolicyProvider svc)) <$> sortStrings ms) = sortStrings ms).
    { rewrite <- list_fmap_compose. apply list_fmap_id. }
    split_and?; [| |intros _; split_and?].
    + rewrite Forall_fmap. apply Forall_forall. intros m Hm. unfold sortStrings in Hm. rewrite SliceStable_elem_of in Hm. by apply Hms in Hm as [_ Hm].
    + done.
    + rewrite <- list_fmap_compose. apply (NoDup_fmap_2_strong _ (sortStrings ms)).
      * intros x y _ _ Hxy. unfold compose, attemptKey in Hxy. cbn in Hxy. by simplify_eq.
      * unfold sortStrings. by rewrite SliceStable_perm.
    + rewrite Forall_fmap. by apply Forall_forall.
    + intros m. rewrite Hmodel. unfold sortStrings. rewrite SliceStable_elem_of. apply Hms.
  - set (targets := mjoin _).
    destruct (rescue_outer svc idx category opPath required targets rescueProviders (∅, [])) as ((I1 & I2 & I3) & _ & I5).
    { unfold rescueInv. cbn [fst snd]. split_and?; [set_solver|constructor|constructor]. }
    set (acc := fold_left _ _ _) in *. split_and?; [| |intros _; split_and?].
    + eapply Forall_impl; [exact I3|]. by intros a [? _].
    + done.
    + done.
    + eapply Forall_impl; [exact I3|]. by intros a (_ & t & _ & ->).
    + eapply Forall_impl; [exact I3|]. intros a (_ & t & Ht & ->). by apply rescue_targets in Ht.
    + intros p m Hc Hp Hs. apply I1. apply (I5 (mkTarget p m)); [by apply rescue_targets|done|done].
Qed.

(** ** Context fit and deadlines *)

Lemma contextStep_fold windows e attempts : forall out n,
  fold_left (contextStep windows e) attempts (out, n) =
  ((out ++ List.filter (fun a => negb (tooLarge windows e a)) attempts)%list,
   n + Z.of_nat (List.length (List.filter (tooLarge windows e) attempts))).
Proof.
  induction attempts as [|a attempts IH]; intros out n; cbn [fold_left List.filter].
  { rewrite app_nil_r. simpl. by rewrite Z.add_0_r. }
  unfold contextStep at 2. destruct (tooLarge windows e a); cbn [negb]; rewrite IH; simpl; f_equal; [lia|].
  by rewrite <- app_assoc.
Qed.

(** The context filter keeps, in order, the attempts whose window is unknown or
    holds the prompt and the output, and counts the others. *)
Theorem context_fit_exact windows attempts e :
  0 <= qe_InputTokens e -> 0 <= qe_OutputTokens e ->
  map_Forall (fun _ w => 0 <= cw_OutputReserveTokens w /\ qe_InputTokens e + Z.max (qe_OutputTokens e) (cw_OutputReserveTokens w) <= max_int64) windows ->
  let '(out, excluded) := filterContextFit windows attempts e in
  Z.of_nat (List.length out) + excluded = Z.of_nat (List.length attempts) /\
  forall a, a ∈ out <-> a ∈ attempts /\
    forall w, windows !! providerModelKey (Provider a) (Model a) = Some w -> qe_InputTokens e + outputFor e w <= cw_ContextTokens w.
Proof.
  intros H1 H2 Hw. unfold filterContextFit. case_bool_decide as E.
  { subst windows. split; [lia|]. intros a. split; [|by intros [? _]]. intros Ha. split; [done|]. intros w. by rewrite lookup_empty. }
  rewrite contextStep_fold. cbn [app]. split.
  - pose proof (List.filter_length (tooLarge windows e) attempts). lia.
  - intros a. rewrite !list_elem_of_In, List.filter_In. apply and_iff_compat_l. unfold tooLarge.
    destruct (windows !! _) as [w|] eqn:Ew; [|by split]. specialize (Hw _ _ Ew) as [Hr Hm].
    rewrite wrap64_id by (unfold outputFor, in_int64, min_int64, max_int64, two63 in *; destruct (_ && _); lia).
    rewrite negb_true_iff, Z.ltb_ge. split; [by intros ? ? [= <-]|]. intros H. by apply H.
Qed.

(** A profile's timeout only ever shortens a deadline. *)
Theorem profile_timeout_only_shrinks timeouts profile current :
  0 < current -> 0 < attemptTimeoutForProfile timeouts profile current <= current.
Proof.
  intros H. unfold attemptTimeoutForProfile. destruct (_ !! _) as [d|]; [|lia].
  destruct (Z.leb_spec d 0); [lia|]. destruct (Z.ltb_spec 0 current), (Z.leb_spec current d); simpl; lia.
Qed.
