(* ===== verification/TraceRing.v ===== *)
(** * TraceRing: the recent decisions (router_trace_ring.go)

    A ring of the last [capacity] traces with an index by id, and the two
    views of a trace: the admin channel carries free text, the client's own
    channel does not.  A trace is shared by pointer between the ring and the
    index; it is published when it is complete, so it is a value here.  The
    receiver is not nil. *)

From S2P Require Import Prelude Float.
From Stdlib Require Import Lia ZArith String.
#[local] Open Scope string_scope.
#[local] Open Scope Z_scope.

Record policyTraceStep := mkStep {
  stp_Name : string;
  stp_Matched : bool;
  stp_Detail : string;
}.

Record traceAttempt := mkTraceAttempt {
  ta_Model : string;
  ta_Index : Z;
  ta_Score : float64;
  ta_Status : Z;
  ta_Kind : string;
  ta_Reason : string;
}.

(** What the tool-result guard did to the request (router_compress.go). *)
Record compressionStat := mkCompression {
  cs_OriginalBytes : Z;
  cs_SavedBytes : Z;
  cs_Engines : list string;
}.

Definition noCompression : compressionStat := mkCompression 0 0 [].

Record routeTrace := mkTrace {
  tr_ID : string;
  tr_Profile : string;
  tr_RequestedModel : string;
  tr_RuleID : string;
  tr_PolicyReason : string;
  tr_PolicySteps : list policyTraceStep;
  tr_Outcome : string;
  tr_CapsRequired : list string;
  tr_Planned : Z;
  tr_AfterCaps : Z;
  tr_Eligible : Z;
  tr_ExcludedByBreaker : Z;
  tr_ExcludedByQuota : Z;
  tr_Attempts : list traceAttempt;
  tr_Served : option traceAttempt;
  tr_compression : compressionStat;
  tr_scores : gmap string float64;
}.

(** ** The ring *)

Record traceRing := mkRing {
  rg_entries : list (option routeTrace);
  rg_byID : gmap string routeTrace;
  rg_next : nat;
}.

Definition newTraceRing (capacity : Z) : traceRing :=
  mkRing (replicate (Z.to_nat (if capacity <? 1 then 1 else capacity)) None) ∅ 0.

(** [add] of a trace that is not nil. *)
Definition add (trace : routeTrace) (r : traceRing) : traceRing :=
  if empty_str (tr_ID trace) then r
  else
    let byID := match rg_entries r !! rg_next r with
                | Some (Some evicted) => delete (tr_ID evicted) (rg_byID r)
                | _ => rg_byID r
                end in
    mkRing (<[rg_next r := Some trace]> (rg_entries r)) (<[tr_ID trace := trace]> byID)
           ((rg_next r + 1) mod List.length (rg_entries r))%nat.

Definition get (id : string) (r : traceRing) : option routeTrace := rg_byID r !! id.

(** The loop of [recent]: [i] runs from 1 to the size, until [limit] entries. *)
Fixpoint recentFrom (r : traceRing) (limit : Z) (n i : nat) (out : list routeTrace) : list routeTrace :=
  match n with
  | O => out
  | S n =>
      if limit <=? Z.of_nat (List.length out) then out
      else
        let size := List.length (rg_entries r) in
        let idx := ((rg_next r + size - i) mod size)%nat in
        match rg_entries r !! idx with
        | Some (Some entry) => recentFrom r limit n (S i) (out ++ [entry])
        | _ => recentFrom r limit n (S i) out
        end
  end.

Definition recent (limit : Z) (r : traceRing) : list routeTrace :=
  if limit <? 1 then [] else recentFrom r limit (List.length (rg_entries r)) 1 [].

(** ** Views *)

Record traceStepView := mkStepView { sv_Name : string; sv_Matched : bool; sv_Detail : string }.

Record traceView := mkView {
  vw_ID : string;
  vw_RuleID : string;
  vw_RequestedModel : string;
  vw_PolicyReason : string;
  vw_PolicySteps : list traceStepView;
  vw_Profile : string;
  vw_Outcome : string;
  vw_Caps : list string;
  vw_Planned : Z;
  vw_Eligible : Z;
  vw_Excluded : Z;
  vw_Attempts : list traceAttempt;
  vw_Served : option traceAttempt;
}.

Definition viewAttempt (adminChannel : bool) (a : traceAttempt) : traceAttempt :=
  mkTraceAttempt (ta_Model a) (ta_Index a) (ta_Score a) (ta_Status a) (ta_Kind a) (if adminChannel then ta_Reason a else "").

Definition viewStep (adminChannel : bool) (s : policyTraceStep) : traceStepView :=
  mkStepView (stp_Name s) (stp_Matched s) (if adminChannel then stp_Detail s else "").

Definition view (adminChannel : bool) (t : routeTrace) : traceView :=
  mkView (tr_ID t) (tr_RuleID t) (tr_RequestedModel t) (if adminChannel then tr_PolicyReason t else "")
    (viewStep adminChannel <$> tr_PolicySteps t) (tr_Profile t) (tr_Outcome t) (tr_CapsRequired t)
    (tr_Planned t) (tr_Eligible t) (tr_ExcludedByBreaker t)
    (viewAttempt adminChannel <$> tr_Attempts t) (viewAttempt adminChannel <$> tr_Served t).

Definition RecentDecisions (limit : Z) (r : traceRing) : list traceView := view true <$> recent limit r.

Definition Decision (id : string) (r : traceRing) : option traceView := view true <$> get id r.

(** ** The ring holds the last traces

    [holds n w r]: the ring of size [n] holds exactly the traces [w], newest
    first, and the index finds exactly these. *)

Definition slot (n next i : nat) : nat := ((next + n - i) mod n)%nat.

Lemma slot_spec n next i : (next < n)%nat -> (1 <= i <= n)%nat -> slot n next i = if (i <=? next)%nat then (next - i)%nat else (next + n - i)%nat.
Proof.
  intros H1 H2. unfold slot. destruct (Nat.leb_spec i next).
  - replace (next + n - i)%nat with ((next - i) + 1 * n)%nat by lia. rewrite Nat.Div0.mod_add. apply Nat.mod_small. lia.
  - apply Nat.mod_small. lia.
Qed.

Lemma next_spec n next : (next < n)%nat -> ((next + 1) mod n = if (S next =? n)%nat then 0 else S next)%nat.
Proof.
  intros H. rewrite Nat.add_1_r. destruct (Nat.eqb_spec (S next) n) as [->|]; [apply Nat.Div0.mod_same|apply Nat.mod_small; lia].
Qed.

Record holds (n : nat) (w : list routeTrace) (r : traceRing) : Prop := mkHolds {
  h_size : List.length (rg_entries r) = n;
  h_next : (rg_next r < n)%nat;
  h_len : (List.length w <= n)%nat;
  h_slot : forall i, (1 <= i <= n)%nat -> rg_entries r !! slot n (rg_next r) i = Some (w !! (i - 1)%nat);
  h_ids : NoDup (tr_ID <$> w);
  h_byID : forall id t, rg_byID r !! id = Some t <-> t ∈ w /\ tr_ID t = id;
}.

Lemma holds_new capacity : holds (Z.to_nat (Z.max 1 capacity)) [] (newTraceRing capacity).
Proof.
  unfold newTraceRing. replace (if capacity <? 1 then 1 else capacity) with (Z.max 1 capacity) by (destruct (Z.ltb_spec capacity 1); lia).
  constructor; cbn [rg_entries rg_byID rg_next].
  - apply length_replicate.
  - lia.
  - simpl. lia.
  - intros i Hi. rewrite lookup_replicate_2; [done|]. unfold slot. apply Nat.mod_upper_bound. lia.
  - constructor.
  - intros id t. rewrite lookup_empty. split; [done|]. intros [H _]. by apply elem_of_nil in H.
Qed.

(** Advancing [next] shifts every slot by one. *)
Lemma slot_next n next i : (next < n)%nat -> (2 <= i <= n)%nat -> slot n ((next + 1) mod n) i = slot n next (i - 1) /\ next <> slot n next (i - 1).
Proof.
  intros H1 H2. rewrite next_spec, (slot_spec n next) by lia.
  destruct (Nat.eqb_spec (S next) n); rewrite slot_spec by lia;
    [destruct (Nat.leb_spec i 0)|destruct (Nat.leb_spec i (S next))]; destruct (Nat.leb_spec (i - 1) next); lia.
Qed.

Lemma slot_newest n next : (next < n)%nat -> slot n ((next + 1) mod n) 1 = next.
Proof.
  intros H. rewrite next_spec by lia. destruct (Nat.eqb_spec (S next) n); rewrite slot_spec by lia;
    [destruct (Nat.leb_spec 1 0)|destruct (Nat.leb_spec 1 (S next))]; lia.
Qed.

(** The window without its last place, where the evicted trace was. *)
Lemma window_kept n (w : list routeTrace) x :
  NoDup (tr_ID <$> w) -> (List.length w <= S n)%nat -> x ∈ take n w <-> x ∈ w /\ w !! n <> Some x.
Proof.
  intros Hid Hl. rewrite <- (take_drop n w) in Hid. rewrite <- (take_drop n w) at 2. rewrite elem_of_app. destruct (w !! n) as [y|] eqn:Ey.
  - rewrite (drop_S _ _ _ Ey), (drop_ge w (S n)) in Hid |- * by lia. rewrite list_elem_of_singleton. split; [|naive_solver].
    intros Hx. split; [by left|]. intros [= ->]. rewrite fmap_app in Hid. apply NoDup_app in Hid as (_ & Hid & _).
    apply (Hid (tr_ID x)); [|by left]. apply list_elem_of_fmap. eauto.
  - apply lookup_ge_None in Ey. rewrite drop_ge by lia. rewrite elem_of_nil. naive_solver.
Qed.

Lemma evicted_index n w (byID : gmap string routeTrace) id t :
  NoDup (tr_ID <$> w) -> (forall id t, byID !! id = Some t <-> t ∈ w /\ tr_ID t = id) ->
  match w !! n with Some evicted => delete (tr_ID evicted) byID | None => byID end !! id = Some t <->
  (t ∈ w /\ w !! n <> Some t) /\ tr_ID t = id.
Proof.
  intros Hid Hby. destruct (w !! n) as [y|] eqn:Ey; [|rewrite Hby; naive_solver]. rewrite lookup_delete_Some, Hby. split.
  - intros (Hne & Hin & Heq). split; [|done]. split; [done|]. intros [= ->]. done.
  - intros ((Hin & Hne) & Heq). split; [|done]. intros Heq'. apply Hne. f_equal.
    apply list_elem_of_lookup in Hin as [j Hj]. assert (Hjn : j = n); [|congruence].
    eapply (NoDup_lookup _ j n (tr_ID t) Hid); rewrite list_lookup_fmap; [by rewrite Hj|rewrite Ey; simpl; congruence].
Qed.

Lemma holds_add n w r t :
  holds n w r -> tr_ID t <> "" -> tr_ID t ∉ tr_ID <$> w -> holds n (take n (t :: w)) (add t r).
Proof.
  intros [Hs Hn Hl Hsl Hid Hby] Ht Hnew. unfold add. destruct (empty_str (tr_ID t)) eqn:E; strs; [done|].
  assert (Hlast : rg_entries r !! rg_next r = Some (w !! (n - 1)%nat)).
  { specialize (Hsl n ltac:(lia)). rewrite slot_spec in Hsl by lia. destruct (Nat.leb_spec n (rg_next r)); [lia|].
    by replace (rg_next r + n - n)%nat with (rg_next r) in Hsl by lia. }
  rewrite Hlast. destruct n as [|n]; [lia|]. cbn [take]. rewrite Nat.sub_succ, Nat.sub_0_r in *.
  constructor; cbn [rg_entries rg_byID rg_next].
  - by rewrite length_insert.
  - rewrite Hs. apply Nat.mod_upper_bound. lia.
  - cbn [List.length]. rewrite length_take. lia.
  - rewrite Hs. intros i Hi. destruct (decide (i = 1%nat)) as [->|Hi1]; [by rewrite slot_newest, list_lookup_insert_eq by lia|].
    destruct (slot_next (S n) (rg_next r) i) as [-> Hne]; [lia|lia|]. rewrite list_lookup_insert_ne, Hsl by (done || lia).
    destruct i as [|[|i]]; [lia|lia|]. cbn [Nat.sub]. rewrite Nat.sub_0_r. simpl. by rewrite lookup_take_lt by lia.
  - rewrite fmap_cons. apply NoDup_cons. rewrite <- (take_drop n w), fmap_app in Hid. apply NoDup_app in Hid as (Hid & _). split; [|done].
    intros H. apply Hnew. rewrite <- (take_drop n w), fmap_app. apply elem_of_app. by left.
  - intros id t'. rewrite elem_of_cons, window_kept, lookup_insert_Some, evicted_index by done. split.
    + intros [[<- <-]|[Hne [Hin Heq]]]; [by split; [left|]|]. split; [by right|done].
    + intros [[->|[Hin Hne]] Heq]; [by left|]. right. split; [|done]. intros Heq'. apply Hnew. apply list_elem_of_fmap. exists t'. split; [congruence|done].
Qed.

Lemma recentFrom_holds n w r limit k : forall i out,
  holds n w r -> (i + k = n + 1)%nat -> (1 <= i)%nat -> (List.length out <= Z.to_nat limit)%nat -> 0 <= limit ->
  recentFrom r limit k i out = (out ++ take (Z.to_nat limit - List.length out) (drop (i - 1) w))%list.
Proof.
  induction k as [|k IH]; intros i out H Hik Hi Hout Hlim; cbn [recentFrom].
  { rewrite drop_ge; [by rewrite take_nil, app_nil_r|]. pose proof (h_len _ _ _ H). lia. }
  destruct (Z.leb_spec limit (Z.of_nat (List.length out))).
  { replace (Z.to_nat limit - List.length out)%nat with 0%nat by lia. by rewrite take_0, app_nil_r. }
  cbv zeta. rewrite (h_size _ _ _ H). fold (slot n (rg_next r) i). rewrite (h_slot _ _ _ H i) by lia.
  destruct (w !! (i - 1)%nat) as [x|] eqn:Ex.
  - rewrite IH; [|done|lia|lia|rewrite length_app; simpl; lia|lia]. rewrite (drop_S _ _ _ Ex).
    replace (S i - 1)%nat with (S (i - 1)) by lia. rewrite length_app. cbn [List.length].
    replace (Z.to_nat limit - List.length out)%nat with (S (Z.to_nat limit - (List.length out + 1))) by lia. cbn [take].
    by rewrite <- app_assoc.
  - rewrite IH by (done || lia). apply lookup_ge_None in Ex. by rewrite !drop_ge by lia.
Qed.

(** The ring is the list of the last decisions.  After recording any
    traces with distinct ids in a ring of [n] entries, [recent] returns the
    newest [limit] of the last [n], newest first, and looking up an id finds
    exactly the traces among the last [n]: an evicted decision is gone from
    both, and a kept one is in both. *)
Theorem ring_is_last_decisions capacity ts limit :
  NoDup (tr_ID <$> ts) -> Forall (fun t => tr_ID t <> "") ts ->
  let n := Z.to_nat (Z.max 1 capacity) in
  let r := fold_left (fun r t => add t r) ts (newTraceRing capacity) in
  let w := take n (rev ts) in
  recent limit r = take (Z.to_nat limit) w /\
  (forall id t, get id r = Some t <-> t ∈ w /\ tr_ID t = id).
Proof.
  intros Hnd Hne n r w.
  assert (Hgen : forall done r0, holds n (take n (rev done)) r0 -> NoDup (tr_ID <$> done ++ ts)%list ->
    holds n (take n (rev (done ++ ts))) (fold_left (fun r t => add t r) ts r0)).
  { clear r w Hnd. induction Hne as [|t ts Ht _ IH]; intros seen r0 H Hnd; cbn [fold_left]; [by rewrite app_nil_r|].
    replace (seen ++ t :: ts)%list with ((seen ++ [t]) ++ ts)%list in * by (by rewrite <- app_assoc). apply IH; [|done].
    assert (Htake : take n (rev (seen ++ [t])) = take n (t :: take n (rev seen))).
    { rewrite rev_app_distr. cbn [rev app]. destruct n; [done|]. cbn [take]. f_equal. rewrite take_take. f_equal. lia. }
    rewrite Htake. apply holds_add; [done|done|]. rewrite fmap_app, fmap_app in Hnd. apply NoDup_app in Hnd as (Hnd & _).
    apply NoDup_app in Hnd as (_ & Hnd & _). intros Hin. apply (Hnd (tr_ID t)); [|by left].
    apply list_elem_of_fmap in Hin as (x & -> & Hx). apply list_elem_of_fmap. exists x. split; [done|].
    apply list_elem_of_In. rewrite in_rev. apply list_elem_of_In. by eapply subseteq_take. }
  assert (H : holds n w r).
  { apply (Hgen [] (newTraceRing capacity)); [|done]. cbn [rev]. rewrite take_nil. apply holds_new. }
  split; [|apply (h_byID _ _ _ H)]. unfold recent. destruct (Z.ltb_spec limit 1).
  - by replace (Z.to_nat limit) with 0%nat by lia.
  - rewrite (recentFrom_holds n w r limit _ 1 []) by (try done; try apply H; try (rewrite (h_size _ _ _ H)); simpl; lia).
    cbn [app List.length]. by rewrite Nat.sub_0_r, drop_0.
Qed.

(** The client's own channel carries no free text. *)
Lemma client_view_hides_reasons t :
  vw_PolicyReason (view false t) = "" /\ Forall (fun s => sv_Detail s = "") (vw_PolicySteps (view false t)) /\
  Forall (fun a => ta_Reason a = "") (vw_Attempts (view false t)) /\
  (forall a, vw_Served (view false t) = Some a -> ta_Reason a = "").
Proof.
  split_and?; [done| | |]; simpl.
  - rewrite Forall_fmap. by apply Forall_forall.
  - rewrite Forall_fmap. by apply Forall_forall.
  - intros a Ha. destruct (tr_Served t); [|done]. by injection Ha as <-.
Qed.

Definition wit_trace (id : string) : routeTrace := mkTrace id "coding" "" "r1" "" [] "served" [] 3 3 2 1 0 [] None noCompression ∅.

Lemma ring_is_last_decisions_witness :
  let r := fold_left (fun r t => add t r) [wit_trace "a"; wit_trace "b"; wit_trace "c"] (newTraceRing 2) in
  recent 5 r = [wit_trace "c"; wit_trace "b"] /\ (get "a" r = Some (wit_trace "a") -> False).
Proof.
  destruct (ring_is_last_decisions 2 [wit_trace "a"; wit_trace "b"; wit_trace "c"] 5) as [H1 H2].
  - apply (bool_decide_eq_true_1 _). vm_compute. reflexivity.
  - repeat constructor; discriminate.
  - cbv zeta. split; [exact H1|]. intros H. apply H2 in H as [H _]. vm_compute in H.
    inversion_clear H as [|? ? ? H']. inversion_clear H' as [|? ? ? H'']. inversion_clear H''.
Defined.
