(* ===== verification/Trace.v ===== *)
(** * Trace: recording a request's route (router_trace.go)

    A trace is a pointer, nil when tracing is off: [option routeTrace], and
    every recording method on nil does nothing.  The random id is an argument.
    Strings are bytes; [strings.Map] replaces runes, so the encoded runes are
    cut out first. *)

From S2P Require Import Prelude Float Types Env Text Breaker TraceRing.
From Stdlib Require Import Lia ZArith Ascii String.
From stdpp Require Import pretty.
#[local] Open Scope string_scope.
#[local] Open Scope Z_scope.

(** ** Recording *)

Definition outcomeServed : string := "served".
Definition outcomeCapsPinned : string := "caps_pinned".
Definition outcomeCapsNone : string := "caps_none".
Definition outcomeAllCooling : string := "all_cooling".
Definition outcomeChainFailed : string := "chain_failed".
Definition outcomeAdmissionAfterHold : string := "admission_after_hold".

Definition traceEnabled (env : environ) : bool := envBool env "PROXY_ROUTE_TRACE" true.

Definition newRouteTrace (env : environ) (id profile : string) : option routeTrace :=
  if negb (traceEnabled env) then None
  else Some (mkTrace id profile "" "" "" [] "" [] 0 0 0 0 0 [] None noCompression ∅).

Definition recordPolicy (ruleID reason requestedModel : string) (steps : list policyTraceStep) (t : routeTrace) : routeTrace :=
  mkTrace (tr_ID t) (tr_Profile t) requestedModel ruleID reason steps (tr_Outcome t) (tr_CapsRequired t)
    (tr_Planned t) (tr_AfterCaps t) (tr_Eligible t) (tr_ExcludedByBreaker t) (tr_ExcludedByQuota t)
    (tr_Attempts t) (tr_Served t) (tr_compression t) (tr_scores t).

Definition recordChain (planned afterCaps eligible : Z) (required : list string) (t : routeTrace) : routeTrace :=
  let excluded := afterCaps - eligible - tr_ExcludedByQuota t in
  mkTrace (tr_ID t) (tr_Profile t) (tr_RequestedModel t) (tr_RuleID t) (tr_PolicyReason t) (tr_PolicySteps t) (tr_Outcome t) required
    planned afterCaps eligible (if excluded <? 0 then 0 else excluded) (tr_ExcludedByQuota t)
    (tr_Attempts t) (tr_Served t) (tr_compression t) (tr_scores t).

Definition recordQuotaExclusions (n : Z) (t : routeTrace) : routeTrace :=
  if n <=? 0 then t
  else mkTrace (tr_ID t) (tr_Profile t) (tr_RequestedModel t) (tr_RuleID t) (tr_PolicyReason t) (tr_PolicySteps t) (tr_Outcome t) (tr_CapsRequired t)
    (tr_Planned t) (tr_AfterCaps t) (tr_Eligible t) (tr_ExcludedByBreaker t) n
    (tr_Attempts t) (tr_Served t) (tr_compression t) (tr_scores t).

Definition recordCompression (stat : compressionStat) (t : routeTrace) : routeTrace :=
  mkTrace (tr_ID t) (tr_Profile t) (tr_RequestedModel t) (tr_RuleID t) (tr_PolicyReason t) (tr_PolicySteps t) (tr_Outcome t) (tr_CapsRequired t)
    (tr_Planned t) (tr_AfterCaps t) (tr_Eligible t) (tr_ExcludedByBreaker t) (tr_ExcludedByQuota t)
    (tr_Attempts t) (tr_Served t) stat (tr_scores t).

Definition recordScores (models : list string) (scores : list float64) (t : routeTrace) : routeTrace :=
  if negb (List.length models =? List.length scores)%nat then t
  else mkTrace (tr_ID t) (tr_Profile t) (tr_RequestedModel t) (tr_RuleID t) (tr_PolicyReason t) (tr_PolicySteps t) (tr_Outcome t) (tr_CapsRequired t)
    (tr_Planned t) (tr_AfterCaps t) (tr_Eligible t) (tr_ExcludedByBreaker t) (tr_ExcludedByQuota t)
    (tr_Attempts t) (tr_Served t) (tr_compression t)
    (fold_left (fun m kv => <[kv.1 := kv.2]> m) (combine models scores) ∅).

(** [t.scores[model]], zero when it is not there. *)
Definition scoreOf (t : routeTrace) (model : string) : float64 := default f0 (tr_scores t !! model).

Definition recordAttemptFailure (model : string) (index status : Z) (kind reason : string) (t : routeTrace) : routeTrace :=
  mkTrace (tr_ID t) (tr_Profile t) (tr_RequestedModel t) (tr_RuleID t) (tr_PolicyReason t) (tr_PolicySteps t) (tr_Outcome t) (tr_CapsRequired t)
    (tr_Planned t) (tr_AfterCaps t) (tr_Eligible t) (tr_ExcludedByBreaker t) (tr_ExcludedByQuota t)
    (tr_Attempts t ++ [mkTraceAttempt model index (scoreOf t model) status kind (truncateReason reason)])
    (tr_Served t) (tr_compression t) (tr_scores t).

Definition recordServed (model : string) (index : Z) (t : routeTrace) : routeTrace :=
  mkTrace (tr_ID t) (tr_Profile t) (tr_RequestedModel t) (tr_RuleID t) (tr_PolicyReason t) (tr_PolicySteps t) outcomeServed (tr_CapsRequired t)
    (tr_Planned t) (tr_AfterCaps t) (tr_Eligible t) (tr_ExcludedByBreaker t) (tr_ExcludedByQuota t)
    (tr_Attempts t) (Some (mkTraceAttempt model index (scoreOf t model) 200 "ok" ""))
    (tr_compression t) (tr_scores t).

Definition set_Outcome (outcome : string) (t : routeTrace) : routeTrace :=
  mkTrace (tr_ID t) (tr_Profile t) (tr_RequestedModel t) (tr_RuleID t) (tr_PolicyReason t) (tr_PolicySteps t) outcome (tr_CapsRequired t)
    (tr_Planned t) (tr_AfterCaps t) (tr_Eligible t) (tr_ExcludedByBreaker t) (tr_ExcludedByQuota t)
    (tr_Attempts t) (tr_Served t) (tr_compression t) (tr_scores t).

Definition recordTraceFailure (attempt : modelAttempt) (status : Z) (kind reason : string) (t : option routeTrace) : option routeTrace :=
  recordAttemptFailure (Model attempt) (AttemptIndex attempt) status kind reason <$> t.

Definition traceKindFor (e : attemptError) : string :=
  if SkipModel e then "skip" else if Timeout e then "timeout" else "http".

(** ** Sanitising *)

Definition letterOrDigit (c : ascii) : bool := byteIn 97 122 c || byteIn 65 90 c || byteIn 48 57 c.

Definition safeByte (c : ascii) : bool :=
  letterOrDigit c || existsb (Ascii.eqb c) ["."; "_"; "/"; "+"; "-"]%char.

(** The replacement of the first rune; every safe rune is one byte. *)
Fixpoint sanitizeFrom (fuel : nat) (s : bytes) : bytes :=
  match fuel, s with
  | S fuel, c :: _ =>
      (if safeByte c then c else "_"%char) :: sanitizeFrom fuel (drop (runeLen s) s)
  | _, _ => []
  end.

Definition traceSanitize (value : string) : string :=
  let s := list_ascii_of_string value in string_of_list_ascii (sanitizeFrom (List.length s) s).

Definition traceMaxRuleID : nat := 64.

Definition traceRuleID (ruleID : string) : string :=
  if empty_str ruleID then ""
  else
    let sanitized := traceSanitize ruleID in
    if (traceMaxRuleID <? String.length sanitized)%nat then "" else sanitized.

Definition traceShortModel (model : string) : string :=
  let model := match afterLastSlash model with
               | Some rest => if empty_str rest then model else rest
               | None => model
               end in
  traceSanitize (TrimSuffix model ":free").

Definition attemptCode (a : traceAttempt) : string :=
  if 0 <? ta_Status a then pretty (ta_Status a)
  else if negb (empty_str (ta_Kind a)) then traceSanitize (ta_Kind a)
  else "err".

(** ** The header *)

Definition humanBytes (n : Z) : string :=
  if 1024 <=? n then FormatFixed 1 (fdiv (f_of_Z n) (f_of_Z 1024)) +:+ "k" else pretty n.

Definition traceNoCompress : string := "off".

Definition compression_header (c : compressionStat) : string :=
  if cs_SavedBytes c <=? 0 then traceNoCompress else "-" +:+ humanBytes (cs_SavedBytes c).

Definition traceHeader : string := "X-Calvoproxy-Route".
Definition traceIDHeader : string := "X-Calvoproxy-Decision-Id".
Definition traceVersion : string := "v1".
Definition traceFieldSep : string := ";".
Definition traceMaxHeader : nat := 512.
Definition truncated : string := ";trunc=1".

(** The closure [build] of [renderTraceHeader]. *)
Definition buildHeader (protected : list string) (shape brk : string) (prev : list string) (withShape : bool) : string :=
  let fields := (protected
    ++ (if withShape then (if empty_str shape then [] else [shape]) ++ (if empty_str brk then [] else [brk]) else [])
    ++ (match prev with [] => [] | _ => ["prev=" +:+ String.concat "," prev] end))%list in
  String.concat traceFieldSep fields.

(** The loop that drops the entries of [prev] from the end: [n] of them are
    still to be tried. *)
Fixpoint trimPrev (protected : list string) (shape brk : string) (prev : list string) (n : nat) : option string :=
  let attempt k :=
    let out := buildHeader protected shape brk (take k prev) true in
    if (String.length out + String.length truncated <=? traceMaxHeader)%nat then Some (out +:+ truncated) else None in
  match n with
  | O => None
  | S k => match attempt k with Some out => Some out | None => trimPrev protected shape brk prev k end
  end.

Definition renderTraceHeader (protected : list string) (shape brk : string) (prev : list string) : string :=
  let full := buildHeader protected shape brk prev true in
  if (String.length full <=? traceMaxHeader)%nat then full
  else match trimPrev protected shape brk prev (List.length prev) with
       | Some out => out
       | None => buildHeader protected shape brk [] false +:+ truncated
       end.

Definition protectedFields (t : routeTrace) : list string :=
  ([traceVersion; "p=" +:+ traceSanitize (tr_Profile t); "cmp=" +:+ compression_header (tr_compression t)]
   ++ (if negb (empty_str (tr_Outcome t)) && negb (str_eq (tr_Outcome t) outcomeServed) then ["o=" +:+ traceSanitize (tr_Outcome t)] else [])
   ++ (match tr_Served t with
       | Some a => ("s=" +:+ FormatFixed 2 (ta_Score a)) :: (if 1 <? ta_Index a then ["a=" +:+ pretty (ta_Index a)] else [])
       | None => []
       end)
   ++ (match tr_CapsRequired t with [] => [] | caps => ["caps=" +:+ traceSanitize (String.concat "+" caps)] end)
   ++ (let rid := traceRuleID (tr_RuleID t) in if empty_str rid then [] else ["rid=" +:+ rid]))%list.

Definition shapeField (t : routeTrace) : string :=
  "n=" +:+ pretty (tr_Planned t) +:+ "/" +:+ pretty (tr_AfterCaps t) +:+ "/" +:+ pretty (tr_Eligible t).

Definition excludedField (t : routeTrace) : string :=
  let brk := if 0 <? tr_ExcludedByBreaker t then "brk=" +:+ pretty (tr_ExcludedByBreaker t) else "" in
  if 0 <? tr_ExcludedByQuota t
  then (if empty_str brk then "" else brk +:+ ";") +:+ "q=" +:+ pretty (tr_ExcludedByQuota t)
  else brk.

Definition prevEntries (t : routeTrace) : list string :=
  (fun a => traceShortModel (ta_Model a) +:+ ":" +:+ attemptCode a) <$> tr_Attempts t.

Definition header (t : routeTrace) : string :=
  renderTraceHeader (protectedFields t) (shapeField t) (excludedField t) (prevEntries t).

(** [failTrace]: the outcome is stamped on the trace. *)
Definition failTrace (outcome : string) (t : option routeTrace) : option routeTrace := set_Outcome outcome <$> t.

(** ** What the header can carry *)

(** The bytes of a header: the safe ones and the separators. *)
Definition headerByte (c : ascii) : bool := safeByte c || existsb (Ascii.eqb c) [";"; "="; ","; ":"]%char.

Lemma digit_header c : digitByte c = true -> headerByte c = true.
Proof. unfold digitByte, headerByte, safeByte, letterOrDigit. intros ->. by rewrite !orb_true_r. Qed.

Lemma safe_header c : safeByte c = true -> headerByte c = true.
Proof. unfold headerByte. by intros ->. Qed.

Lemma sanitize_safe fuel : forall s, Forall (fun c => safeByte c = true) (sanitizeFrom fuel s).
Proof. induction fuel as [|fuel IH]; intros [|c s]; simpl; constructor; auto. by destruct (safeByte c) eqn:E. Qed.

Lemma sanitize_header value : strAll headerByte (traceSanitize value).
Proof. apply strAll_of_list. eapply Forall_impl; [apply sanitize_safe|]. intros c. apply safe_header. Qed.

Lemma pretty_header (z : Z) : strAll headerByte (pretty z).
Proof. by apply strAll_pretty_Z; [apply digit_header|]. Qed.

Lemma fixed_header prec x : strAll headerByte (FormatFixed prec x).
Proof. apply strAll_FormatFixed; [apply digit_header|by repeat constructor]. Qed.

Create HintDb trace.
#[local] Hint Resolve sanitize_header pretty_header fixed_header : trace.
#[local] Hint Extern 1 (strAll headerByte _) => (by repeat constructor) : trace.

(** A text, or a list of texts, put together from safe pieces. *)
Ltac header_text :=
  repeat match goal with
  | |- Forall (strAll headerByte) [] => apply Forall_nil; exact I
  | |- Forall (strAll headerByte) (_ :: _) => apply Forall_cons; split
  | |- Forall (strAll headerByte) (if ?b then _ else _) => destruct b
  | |- strAll headerByte (_ +:+ _) => apply strAll_app; split
  | |- strAll headerByte (if ?b then _ else _) => destruct b
  end; auto with trace.

Lemma compression_safe c : strAll headerByte (compression_header c).
Proof. unfold compression_header, humanBytes. header_text. Qed.

Lemma ruleID_safe r : strAll headerByte (traceRuleID r).
Proof. unfold traceRuleID. header_text. Qed.

#[local] Hint Resolve compression_safe ruleID_safe : trace.

Lemma protected_safe t : Forall (strAll headerByte) (protectedFields t).
Proof.
  unfold protectedFields. rewrite !Forall_app. split_and!; [header_text|..].
  - header_text.
  - destruct (tr_Served t) as [a|]; header_text.
  - destruct (tr_CapsRequired t); header_text.
  - cbv zeta. header_text.
Qed.

Lemma shape_safe t : strAll headerByte (shapeField t).
Proof. unfold shapeField. header_text. Qed.

Lemma excluded_safe t : strAll headerByte (excludedField t).
Proof. unfold excludedField. header_text. Qed.

Lemma prev_safe t : Forall (strAll headerByte) (prevEntries t).
Proof.
  unfold prevEntries. rewrite Forall_fmap. apply Forall_forall. intros a _. unfold compose.
  unfold traceShortModel, attemptCode. header_text.
Qed.

Lemma build_safe protected shape brk prev b :
  Forall (strAll headerByte) protected -> strAll headerByte shape -> strAll headerByte brk -> Forall (strAll headerByte) prev ->
  strAll headerByte (buildHeader protected shape brk prev b).
Proof.
  intros Hp Hs Hb Hv. unfold buildHeader. apply strAll_concat; [by repeat constructor|].
  rewrite !Forall_app. split_and!; [done| |].
  - destruct b; [|constructor]. rewrite Forall_app. split; header_text.
  - destruct prev; header_text. apply strAll_concat; [by repeat constructor|done].
Qed.

(** The candidates of the rendering: everything, then fewer and fewer
    entries, then the protected fields alone. *)
Lemma trimPrev_shape protected shape brk prev n out :
  trimPrev protected shape brk prev n = Some out ->
  exists k, (k < n)%nat /\ out = buildHeader protected shape brk (take k prev) true +:+ truncated /\ (String.length out <= traceMaxHeader)%nat.
Proof.
  induction n as [|n IH]; cbn [trimPrev]; [done|].
  destruct (Nat.leb_spec (String.length (buildHeader protected shape brk (take n prev) true) + String.length truncated) traceMaxHeader) as [Hle|].
  - intros [= <-]. exists n. split_and!; [lia|done|]. by rewrite strlen_app.
  - intros (k & ? & ?)%IH. exists k. split; [lia|done].
Qed.

(** The trace without the text written elsewhere: the upstream's error
    messages, the policy's reasons and details, the model the client named. *)
Definition redactAttempt (a : traceAttempt) : traceAttempt :=
  mkTraceAttempt (ta_Model a) (ta_Index a) (ta_Score a) (ta_Status a) (ta_Kind a) "".

Definition redact (t : routeTrace) : routeTrace :=
  mkTrace (tr_ID t) (tr_Profile t) "" (tr_RuleID t) "" [] (tr_Outcome t) (tr_CapsRequired t)
    (tr_Planned t) (tr_AfterCaps t) (tr_Eligible t) (tr_ExcludedByBreaker t) (tr_ExcludedByQuota t)
    (redactAttempt <$> tr_Attempts t) (redactAttempt <$> tr_Served t) (tr_compression t) ∅.

Lemma header_redact t : header t = header (redact t).
Proof.
  unfold header, prevEntries. simpl. rewrite <- list_fmap_compose. f_equal.
  unfold protectedFields. simpl. by destruct (tr_Served t).
Qed.

Lemma build_protected protected shape brk : buildHeader protected shape brk [] false = String.concat ";" protected.
Proof. unfold buildHeader. simpl. by rewrite app_nil_r. Qed.

(** What the rendering keeps: everything when it fits; otherwise a declared
    truncation that fits, or the protected fields. *)
Lemma render_cases protected shape brk prev :
  let full := buildHeader protected shape brk prev true in
  let out := renderTraceHeader protected shape brk prev in
  (String.length full <= traceMaxHeader /\ out = full)%nat \/
  (traceMaxHeader < String.length full)%nat /\
    ((exists k, (k < List.length prev)%nat /\ out = buildHeader protected shape brk (take k prev) true +:+ truncated /\
        (String.length out <= traceMaxHeader)%nat) \/
     out = String.concat ";" protected +:+ truncated).
Proof.
  cbv zeta. unfold renderTraceHeader. destruct (Nat.leb_spec (String.length (buildHeader protected shape brk prev true)) traceMaxHeader); [by left|].
  right. split; [done|]. destruct (trimPrev _ _ _ _ _) as [out|] eqn:E.
  - left. apply trimPrev_shape in E as (k & ? & ? & ?). eauto.
  - right. by rewrite build_protected.
Qed.

(** What the route header tells a client.  Whatever profile, model names,
    rule or outcome went in, the header is made of letters, digits and the
    separators alone, so it cannot break the framing; it is the same for any
    two traces that differ only in error messages, policy texts and the model
    the client named, so none of these leaks; it stays within 512 bytes
    whenever its protected fields do, and it is the complete rendering unless
    that is longer than 512 bytes, in which case it ends in [;trunc=1]. *)
Theorem trace_header_contract t :
  strAll headerByte (header t) /\
  header t = header (redact t) /\
  (String.length (header t) <= Nat.max traceMaxHeader (String.length (String.concat ";" (protectedFields t)) + String.length truncated))%nat /\
  (let full := buildHeader (protectedFields t) (shapeField t) (excludedField t) (prevEntries t) true in
   if (String.length full <=? traceMaxHeader)%nat then header t = full else exists kept, header t = kept +:+ truncated).
Proof.
  pose proof (protected_safe t) as Hp. pose proof (shape_safe t) as Hs. pose proof (excluded_safe t) as He. pose proof (prev_safe t) as Hv.
  split_and!; [|apply header_redact|..]; unfold header;
    destruct (render_cases (protectedFields t) (shapeField t) (excludedField t) (prevEntries t)) as [[Hl ->]|[Hl [(k & Hk & Ho & Hb)| ->]]].
  - by apply build_safe.
  - rewrite Ho. header_text. apply build_safe; auto. by apply Forall_take.
  - header_text. apply strAll_concat; [by repeat constructor|done].
  - lia.
  - lia.
  - rewrite strlen_app. lia.
  - cbv zeta. apply Nat.leb_le in Hl. by rewrite Hl.
  - cbv zeta. apply Nat.leb_gt in Hl. rewrite Hl, Ho. eauto.
  - cbv zeta. apply Nat.leb_gt in Hl. rewrite Hl. eauto.
Qed.
