(* ===== verification/Stream.v ===== *)
(** * Stream: piping a streamed response (router_stream.go)

    [streamCopy] is a loop around a [select] over four channels, fed by a
    reader goroutine, two timers and the request's context.  Its state is
    explicit and a run is a sequence of events: time passes, the reader
    obtains its next chunk, the context is cancelled, or one case of the
    select is taken.  An event that is not enabled changes nothing, so every
    list of events is a possible schedule and every schedule is one.  A write to
    the client takes time: between the select that takes a chunk and the event
    that its write and flush are over the loop looks at no channel, and a client
    that does not read keeps it there.  The idle timer is armed at [ss_armed];
    the maximal lifetime counts from [ss_start]. *)

From S2P Require Import Prelude Float Types Env Text.
From Stdlib Require Import Lia ZArith Ascii String.
#[local] Open Scope string_scope.
#[local] Open Scope Z_scope.

(** [isEventStream], of the response's content type. *)
Definition isEventStream (contentType : string) : bool := Contains (ToLower contentType) "text/event-stream".

Inductive streamOutcome :=
| streamCompleted | streamStalled | streamUpstreamError | streamMaxReached | streamClientGone.

#[global] Instance streamOutcome_eq_dec : EqDecision streamOutcome.
Proof. solve_decision. Defined.

Definition upstreamFault (o : streamOutcome) : bool :=
  match o with streamStalled | streamUpstreamError => true | _ => false end.

Definition outcome_String (o : streamOutcome) : string :=
  match o with
  | streamCompleted => "completed"
  | streamStalled => "stalled (idle timeout)"
  | streamUpstreamError => "upstream read error"
  | streamMaxReached => "max duration reached"
  | streamClientGone => "client disconnected"
  end.

(** ** The reader goroutine *)

(** One [body.Read]: the bytes it returned and its error, if any ([true] is
    [io.EOF]). *)
Record readResult := mkRead { rd_data : string; rd_err : option bool }.

Inductive chunk := CData (data : string) | CErr (eof : bool).

(** The chunks the goroutine sends: the data of a read when there is some,
    then its error, after which it returns. *)
Fixpoint readerChunks (reads : list readResult) : list chunk :=
  match reads with
  | [] => []
  | r :: rest =>
      let data := if empty_str (rd_data r) then [] else [CData (rd_data r)] in
      match rd_err r with
      | Some eof => (data ++ [CErr eof])%list
      | None => (data ++ readerChunks rest)%list
      end
  end.

(** ** The loop *)

Record streamState := mkStream {
  ss_now : Z;
  ss_queue : list chunk;     (* what the reader has not handed over yet *)
  ss_ready : bool;           (* the first of these waits in the send *)
  ss_start : Z;
  ss_armed : Z;
  ss_ctxDone : bool;
  ss_writing : option string; (* the data of the write under way *)
  ss_written : string;
}.

Definition startStream (now : Z) (reads : list readResult) : streamState :=
  mkStream now (readerChunks reads) false now now false None "".

Inductive selectCase := SelChunk | SelIdle | SelMax | SelCtx.

(** [EvWritten]: the write under way is over; [werr] tells whether it failed. *)
Inductive streamEvent :=
| EvTick (d : Z)
| EvRead
| EvCancel
| EvSelect (c : selectCase)
| EvWritten (werr : bool).

(** A chunk received from the reader, in the first case of the select and in
    the inner select of the idle case: data is handed to the client's writer. *)
Definition onChunk (c : chunk) (rest : list chunk) (s : streamState) : streamState * option streamOutcome :=
  let received w := mkStream (ss_now s) rest false (ss_start s) (ss_armed s) (ss_ctxDone s) w (ss_written s) in
  match c with
  | CData data => (received (Some data), None)
  | CErr eof => (received None, Some (if eof then streamCompleted else if ss_ctxDone s then streamClientGone else streamUpstreamError))
  end.

(** The write and the flush are over: the idle timer is armed again. *)
Definition onWritten (data : string) (werr : bool) (s : streamState) : streamState * option streamOutcome :=
  if werr then (mkStream (ss_now s) (ss_queue s) (ss_ready s) (ss_start s) (ss_armed s) (ss_ctxDone s) None (ss_written s), Some streamClientGone)
  else (mkStream (ss_now s) (ss_queue s) (ss_ready s) (ss_start s) (ss_now s) (ss_ctxDone s) None (ss_written s +:+ data), None).

Definition pending (s : streamState) : option (chunk * list chunk) :=
  if ss_ready s then match ss_queue s with [] => None | c :: rest => Some (c, rest) end else None.

Section loop.
Context (idle max : Z).

(** The loop is at its select and the case can be taken. *)
Definition enabled (c : selectCase) (s : streamState) : bool :=
  match ss_writing s with
  | Some _ => false
  | None =>
      match c with
      | SelChunk => match pending s with Some _ => true | None => false end
      | SelIdle => ss_armed s + idle <=? ss_now s
      | SelMax => (0 <? max) && (ss_start s + max <=? ss_now s)
      | SelCtx => ss_ctxDone s
      end
  end.

(** One round of the loop, the case [c] having been chosen. *)
Definition selectRound (c : selectCase) (s : streamState) : streamState * option streamOutcome :=
  match c with
  | SelChunk => match pending s with Some (ch, rest) => onChunk ch rest s | None => (s, None) end
  | SelIdle => match pending s with Some (ch, rest) => onChunk ch rest s | None => (s, Some streamStalled) end
  | SelMax => (s, Some streamMaxReached)
  | SelCtx => (s, Some streamClientGone)
  end.

Definition streamStep (s : streamState) (e : streamEvent) : streamState * option streamOutcome :=
  match e with
  | EvTick d => (mkStream (ss_now s + Z.max 0 d) (ss_queue s) (ss_ready s) (ss_start s) (ss_armed s) (ss_ctxDone s) (ss_writing s) (ss_written s), None)
  | EvRead => (mkStream (ss_now s) (ss_queue s) (match ss_queue s with [] => false | _ => true end) (ss_start s) (ss_armed s) (ss_ctxDone s) (ss_writing s) (ss_written s), None)
  | EvCancel => (mkStream (ss_now s) (ss_queue s) (ss_ready s) (ss_start s) (ss_armed s) true (ss_writing s) (ss_written s), None)
  | EvSelect c => if enabled c s then selectRound c s else (s, None)
  | EvWritten werr => match ss_writing s with Some data => onWritten data werr s | None => (s, None) end
  end.

(** [None]: the schedule ends before the loop does. *)
Fixpoint runStream (events : list streamEvent) (s : streamState) : streamState * option streamOutcome :=
  match events with
  | [] => (s, None)
  | e :: rest =>
      match streamStep s e with
      | (s, None) => runStream rest s
      | (s, Some o) => (s, Some o)
      end
  end.

Definition streamCopy (reads : list readResult) (now : Z) (events : list streamEvent) : streamState * option streamOutcome :=
  runStream events (startStream now reads).
End loop.

(** ** What reaches the client *)

Fixpoint dataOf (l : list chunk) : string :=
  match l with
  | CData d :: rest => d +:+ dataOf rest
  | _ => ""
  end.

Definition isData (c : chunk) : Prop := match c with CData _ => True | CErr _ => False end.

(** The times at which the client had taken what it was sent, with the data. *)
Fixpoint deliveries (idle max : Z) (events : list streamEvent) (s : streamState) : list (Z * string) :=
  match events with
  | [] => []
  | e :: rest =>
      let here := match e, ss_writing s with EvWritten false, Some data => [(ss_now s, data)] | _, _ => [] end in
      match streamStep idle max s e with
      | (s', None) => (here ++ deliveries idle max rest s')%list
      | (_, Some _) => []
      end
  end.

Fixpoint textOf (ds : list (Z * string)) : string :=
  match ds with [] => "" | d :: ds => d.2 +:+ textOf ds end.

Definition writing (s : streamState) : list chunk := match ss_writing s with Some data => [CData data] | None => [] end.

(** What [streamCopy] has done with the chunks: [took] were written, at most
    one is being written. *)
Record streamInv (src : list chunk) (t0 : Z) (s : streamState) : Prop := mkStreamInv {
  si_split : exists took, src = (took ++ writing s ++ ss_queue s)%list /\ Forall isData took /\ ss_written s = dataOf took;
  si_start : ss_start s = t0;
  si_armed : t0 <= ss_armed s <= ss_now s;
}.

Lemma dataOf_split took rest : Forall isData took -> dataOf (took ++ rest) = dataOf took +:+ dataOf rest.
Proof. induction 1 as [|x l Hx _ IH]; simpl; [done|]. destruct x; [|done]. by rewrite IH, (assoc_L String.append). Qed.

Lemma dataOf_app took c : Forall isData took -> dataOf (took ++ [CData c]) = dataOf took +:+ c.
Proof. intros H. rewrite dataOf_split by done. cbn [dataOf]. by rewrite (right_id_L "" String.append). Qed.

Lemma pending_Some s c rest : pending s = Some (c, rest) -> ss_ready s = true /\ ss_queue s = c :: rest.
Proof. unfold pending. destruct (ss_ready s), (ss_queue s); by intros [= -> ->]. Qed.

Section runs.
Context (idle max : Z) (src : list chunk) (t0 : Z).

Lemma streamInv_start reads : streamInv (readerChunks reads) t0 (startStream t0 reads).
Proof. split; simpl; [exists []|..]; done. Qed.

Lemma streamInv_prefix s : streamInv src t0 s -> exists rest, dataOf src = ss_written s +:+ rest.
Proof. intros [(took & -> & Hd & ->) _ _]. rewrite dataOf_split by done. eauto. Qed.

(** Receiving a chunk at the select, and the end of its write. *)
Lemma onChunk_inv c rest s s' :
  streamInv src t0 s -> ss_writing s = None -> ss_queue s = c :: rest -> onChunk c rest s = (s', None) -> streamInv src t0 s'.
Proof.
  intros [(took & Hs & Hd & Hw) Hst Ha] Hn Hq. unfold onChunk. destruct c as [d|eof]; [|done]. intros [= <-].
  split; [|done|done]. exists took. rewrite Hs, Hq. unfold writing. by rewrite Hn.
Qed.

Lemma onWritten_inv d s s' : streamInv src t0 s -> ss_writing s = Some d -> onWritten d false s = (s', None) -> streamInv src t0 s'.
Proof.
  intros [(took & Hs & Hd & Hw) Hst Ha] Hn. unfold onWritten. intros [= <-]. split; [|done|simpl; lia].
  exists (took ++ [CData d])%list. rewrite Hs. unfold writing. rewrite Hn, <- (assoc_L (++)). simpl.
  split_and!; [done|apply Forall_app; split; [done|by repeat constructor]|by rewrite dataOf_app, Hw].
Qed.

Lemma enabled_atSelect c s : enabled idle max c s = true -> ss_writing s = None.
Proof. unfold enabled. by destruct (ss_writing s). Qed.

Lemma streamStep_inv s e s' : streamInv src t0 s -> streamStep idle max s e = (s', None) -> streamInv src t0 s'.
Proof.
  intros Hi. destruct e as [d| | |c|werr]; cbn [streamStep].
  1-3: (intros [= <-]; destruct Hi; split; [done|done|simpl; lia]).
  - destruct (enabled idle max c s) eqn:En; [|by intros [= <-]]. apply enabled_atSelect in En.
    destruct c; simpl; [..|done|done]; destruct (pending s) as [[ch rest]|] eqn:E; try done; try (by intros [= <-]);
      apply pending_Some in E as [_ E]; by apply onChunk_inv.
  - destruct (ss_writing s) as [d|] eqn:E; [|by intros [= <-]]. destruct werr; [done|]. by apply onWritten_inv.
Qed.

(** What the end of the loop says about the stream, the context and time. *)
Definition endSpec (e : streamEvent) (s : streamState) (o : streamOutcome) : Prop :=
  (exists rest, dataOf src = ss_written s +:+ rest) /\
  match o with
  | streamCompleted => ss_written s = dataOf src /\ CErr true ∈ src
  | streamUpstreamError => ss_written s = dataOf src /\ CErr false ∈ src /\ ss_ctxDone s = false
  | streamStalled => ss_armed s + idle <= ss_now s /\ pending s = None /\ ss_writing s = None
  | streamMaxReached => 0 < max /\ t0 + max <= ss_now s
  | streamClientGone => ss_ctxDone s = true \/ e = EvWritten true
  end.

Lemma onChunk_end e c rest s s' o :
  streamInv src t0 s -> ss_writing s = None -> ss_queue s = c :: rest -> onChunk c rest s = (s', Some o) -> endSpec e s' o.
Proof.
  intros [(took & Hs & Hd & Hw) Hst Ha] Hn Hq. unfold onChunk, endSpec. destruct c as [d|eof]; [done|].
  assert (Hall : ss_written s = dataOf src).
  { rewrite Hs, Hq. unfold writing. rewrite Hn, dataOf_split, Hw by done. simpl. by rewrite (right_id_L "" String.append). }
  assert (Hin : CErr eof ∈ src) by (rewrite Hs, Hq; set_solver).
  intros [= <- <-]. simpl. split; [exists ""; by rewrite (right_id_L "" String.append)|].
  destruct eof; [done|]. destruct (ss_ctxDone s) eqn:E; auto.
Qed.

Lemma streamStep_end s e s' o : streamInv src t0 s -> streamStep idle max s e = (s', Some o) -> endSpec e s' o.
Proof.
  intros Hi. destruct e as [d| | |c|werr]; cbn [streamStep]; try done.
  - destruct (enabled idle max c s) eqn:En; [|done]. pose proof (enabled_atSelect _ _ En) as Hn. intros H.
    unfold enabled in En. rewrite Hn in En. destruct c; simpl in H, En.
    + destruct (pending s) as [[ch rest]|] eqn:E; [|done]. apply pending_Some in E as [_ E]. by eapply onChunk_end.
    + destruct (pending s) as [[ch rest]|] eqn:E; [apply pending_Some in E as [_ E]; by eapply onChunk_end|].
      injection H as <- <-. split; [by apply streamInv_prefix|]. split; [by apply Z.leb_le|done].
    + injection H as <- <-. split; [by apply streamInv_prefix|]. apply andb_true_iff in En as [?%Z.ltb_lt En%Z.leb_le].
      by rewrite <- (si_start _ _ _ Hi).
    + injection H as <- <-. split; [by apply streamInv_prefix|]. by left.
  - destruct (ss_writing s) as [d|] eqn:E; [|done]. unfold onWritten. destruct werr; [|done]. intros [= <- <-].
    split; [exact (streamInv_prefix s Hi)|by right].
Qed.

(** What a step delivers, and the idle timer it leaves. *)
Definition delivered (s : streamState) (e : streamEvent) : list (Z * string) :=
  match e, ss_writing s with EvWritten false, Some data => [(ss_now s, data)] | _, _ => [] end.

Lemma streamStep_delivers s e s' o : streamInv src t0 s -> streamStep idle max s e = (s', o) ->
  let ds := match o with Some _ => [] | None => delivered s e end in
  ss_written s' = ss_written s +:+ textOf ds /\ ss_armed s <= ss_armed s' /\ Forall (fun d => d.1 <= ss_armed s') ds.
Proof.
  intros [_ _ Ha]. pose proof (right_id_L "" String.append) as Hr. destruct e as [d| | |c|werr]; cbn [streamStep].
  1-3: (intros [= <- <-]; simpl; split_and!; [by rewrite Hr|done|done]).
  - destruct (enabled idle max c s); [|intros [= <- <-]; simpl; split_and!; [by rewrite Hr|done|done]].
    destruct c; simpl; try (destruct (pending s) as [[[] ?]|]); intros [= <- <-]; simpl; (split_and!; [by rewrite Hr|done|done]).
  - destruct (ss_writing s) as [d|] eqn:E; unfold delivered, onWritten; rewrite E; destruct werr; intros [= <- <-]; simpl;
      (split_and!; [by rewrite ?Hr|lia|by repeat constructor]).
Qed.

Lemma runStream_spec events : forall s,
  streamInv src t0 s ->
  let '(s', o) := runStream idle max events s in
  let ds := deliveries idle max events s in
  ss_written s' = ss_written s +:+ textOf ds /\ ss_armed s <= ss_armed s' /\ Forall (fun d => d.1 <= ss_armed s') ds /\
  match o with None => streamInv src t0 s' | Some o => exists e, e ∈ events /\ endSpec e s' o end.
Proof.
  induction events as [|e events IH]; intros s Hi; cbn [runStream deliveries].
  { split_and!; [by rewrite (right_id_L "" String.append)|done|done|done]. }
  destruct (streamStep idle max s e) as [s1 o] eqn:E. destruct (streamStep_delivers s e s1 o Hi E) as (Hw & Ha & Hd). destruct o as [o|].
  - split_and!; [done|done|done|]. exists e. split; [left|]. by eapply streamStep_end.
  - specialize (IH s1 (streamStep_inv _ _ _ Hi E)). destruct (runStream idle max events s1) as [s2 o]. destruct IH as (Hw2 & Ha2 & Hd2 & Ho).
    fold (delivered s e). split_and!.
    + rewrite Hw2, Hw, <- (assoc_L String.append). f_equal. generalize (delivered s e). intros l. induction l as [|x l IHl]; [done|].
      cbn [app textOf]. by rewrite <- IHl, (assoc_L String.append).
    + lia.
    + apply Forall_app. split; [|done]. eapply Forall_impl; [exact Hd|]. simpl. intros x Hx. lia.
    + destruct o as [o|]; [|done]. destruct Ho as (e' & Hin & Ho). exists e'. split; [by right|done].
Qed.
End runs.

(** C31: how a stream ends.  For every upstream, every schedule of reads,
    timers, cancellation and writes, what the client has received is what was
    delivered to it, in order and without loss, and a prefix of what the
    upstream sent.  A stream counted as completed was delivered in full and
    ended in EOF; one blamed on an upstream error was delivered up to the error
    while the client was still there; one counted as stalled had no byte
    waiting, was not held up by a write, and at least the idle time lies behind
    its start and behind each of its deliveries; the lifetime limit only fires
    when it is set and has passed; and the client is reported gone only if it
    cancelled or could not be written to. *)
Theorem stream_outcome_honest idle max reads t0 events :
  let src := readerChunks reads in
  let ds := deliveries idle max events (startStream t0 reads) in
  let '(s, o) := streamCopy idle max reads t0 events in
  ss_written s = textOf ds /\ (exists rest, dataOf src = ss_written s +:+ rest) /\
  match o with
  | None => True
  | Some streamCompleted => ss_written s = dataOf src /\ CErr true ∈ src
  | Some streamUpstreamError => ss_written s = dataOf src /\ CErr false ∈ src /\ ss_ctxDone s = false
  | Some streamStalled => pending s = None /\ ss_writing s = None /\ t0 + idle <= ss_now s /\ Forall (fun d => d.1 + idle <= ss_now s) ds
  | Some streamMaxReached => 0 < max /\ t0 + max <= ss_now s
  | Some streamClientGone => ss_ctxDone s = true \/ EvWritten true ∈ events
  end.
Proof.
  cbv zeta. unfold streamCopy.
  pose proof (runStream_spec idle max (readerChunks reads) t0 events (startStream t0 reads) (streamInv_start t0 reads)) as H.
  destruct (runStream idle max events _) as [s [o|]]; destruct H as (Hw & Ha & Hd & H).
  - destruct H as (e & Hin & Hpre & H). split_and!; [done|done|]. destruct o; try done.
    + destruct H as (Harm & Hp & Hn). simpl in Ha. split_and!; [done|done|lia|]. eapply Forall_impl; [exact Hd|]. simpl. lia.
    + destruct H as [H| ->]; [by left|by right].
  - split_and!; [done| |done]. by eapply streamInv_prefix.
Qed.

(** ** The loop ends *)

(** The rounds a schedule really makes: the select cases taken while enabled. *)
Fixpoint rounds (idle max : Z) (events : list streamEvent) (s : streamState) : nat :=
  match events with
  | [] => 0
  | e :: rest =>
      let n := match e with EvSelect c => if enabled idle max c s then 1 else 0 | _ => 0 end in
      match streamStep idle max s e with
      | (s, None) => n + rounds idle max rest s
      | (_, Some _) => n
      end
  end%nat.

(** A round either ends the loop or consumes a chunk; a write neither. *)
Lemma round_consumes idle max c s s' :
  enabled idle max c s = true -> selectRound c s = (s', None) -> List.length (ss_queue s) = S (List.length (ss_queue s')).
Proof.
  intros En. pose proof (enabled_atSelect _ _ _ _ En) as Hn. unfold enabled in En. rewrite Hn in En.
  destruct c; simpl in *; try done; destruct (pending s) as [[ch rest]|] eqn:E; try done;
    apply pending_Some in E as [_ ->]; unfold onChunk; destruct ch; try done; by intros [= <-].
Qed.

Lemma rounds_bound idle max events : forall s,
  let n := rounds idle max events s in
  match (runStream idle max events s).2 with
  | None => (n + List.length (ss_queue (runStream idle max events s).1) = List.length (ss_queue s))%nat
  | Some _ => (n <= S (List.length (ss_queue s)))%nat
  end.
Proof.
  induction events as [|e events IH]; intros s; cbn [rounds runStream]; [simpl; lia|].
  destruct e as [d| | |c|werr]; cbn [streamStep]; [match goal with |- context [runStream _ _ events ?s'] => exact (IH s') end..| |].
  - destruct (enabled idle max c s) eqn:En; [|exact (IH s)].
    destruct (selectRound c s) as [s1 [o|]] eqn:E; simpl; [lia|].
    apply (round_consumes idle max) in E; [|done]. specialize (IH s1). simpl in IH.
    destruct (runStream idle max events s1) as [s2 [o|]]; simpl in *; lia.
  - destruct (ss_writing s) as [data|]; [|exact (IH s)]. destruct werr; cbn [onWritten]; [simpl; lia|].
    match goal with |- context [runStream _ _ events ?s'] => exact (IH s') end.
Qed.

(** The client takes what it is sent, and the idle time passes. *)
Definition beat (idle : Z) : list streamEvent := [EvWritten false; EvTick idle; EvSelect SelIdle].

Definition beats (idle : Z) (n : nat) : list streamEvent := mjoin (replicate n (beat idle)).

Lemma runStream_app idle max es es' s :
  runStream idle max (es ++ es') s = match runStream idle max es s with (s', None) => runStream idle max es' s' | r => r end.
Proof.
  revert s. induction es as [|e es IH]; intros s; [done|]. cbn [app runStream]. destruct (streamStep idle max s e) as [s1 [o|]]; [done|apply IH].
Qed.

Lemma runStream_queue idle max events s : (List.length (ss_queue (runStream idle max events s).1) <= List.length (ss_queue s))%nat.
Proof.
  revert s. induction events as [|e events IH]; intros s; [done|]. cbn [runStream].
  assert (H : (List.length (ss_queue (streamStep idle max s e).1) <= List.length (ss_queue s))%nat).
  { destruct e as [d| | |c|werr]; cbn [streamStep fst ss_queue]; try lia.
    - destruct (enabled idle max c s); [|done]. destruct c; simpl; try lia; (destruct (pending s) as [[[] rest]|] eqn:E; simpl; [| |lia]);
        apply pending_Some in E as [_ ->]; simpl; lia.
    - destruct (ss_writing s); [|done]. by destruct werr. }
  destruct (streamStep idle max s e) as [s1 [o|]]; [done|]. specialize (IH s1). simpl in *. lia.
Qed.

Lemma beat_progress idle max src t0 s : streamInv src t0 s ->
  match runStream idle max (beat idle) s with
  | (s', None) => List.length (ss_queue s) = S (List.length (ss_queue s')) /\ streamInv src t0 s'
  | (_, Some _) => True
  end.
Proof.
  intros Hi. pose proof (runStream_spec idle max src t0 (beat idle) s Hi) as Hspec.
  pose proof (rounds_bound idle max (beat idle) s) as Hb. cbv zeta in Hb.
  destruct (runStream idle max (beat idle) s) as [s' [o|]] eqn:E; [done|]. destruct Hspec as (_ & _ & _ & Hs').
  split; [|done]. rewrite <- Hb. cbn [fst snd]. cut (rounds idle max (beat idle) s = 1%nat); [lia|]. clear Hb.
  unfold beat in *. cbn [rounds runStream streamStep] in *.
  set (s1 := match ss_writing s with Some d => onWritten d false s | None => (s, None) end) in *.
  assert (Hs1 : s1.2 = None /\ ss_writing s1.1 = None /\ streamInv src t0 s1.1).
  { subst s1. destruct (ss_writing s) as [d|] eqn:Ew; [|by split_and!]. split_and!; [done|done|]. eapply onWritten_inv; [exact Hi|exact Ew|reflexivity]. }
  destruct s1 as [s1 o]. destruct Hs1 as (Ho & Hn & [_ _ Ha]). simpl in Ho, Hn, Ha. subst o.
  set (s2 := mkStream (ss_now s1 + Z.max 0 idle) _ _ _ _ _ _ _) in *.
  assert (En : enabled idle max SelIdle s2 = true).
  { unfold enabled. subst s2. cbn [ss_writing ss_armed ss_now]. rewrite Hn. apply Z.leb_le. lia. }
  rewrite En in *. by destruct (selectRound SelIdle s2) as [s3 [o|]].
Qed.

Lemma beats_end idle max src t0 n : forall s, streamInv src t0 s -> (List.length (ss_queue s) < n)%nat ->
  (runStream idle max (beats idle n) s).2 <> None.
Proof.
  induction n as [|n IH]; intros s Hi Hn; [lia|]. change (beats idle (S n)) with (beat idle ++ beats idle n)%list. rewrite runStream_app.
  pose proof (beat_progress idle max src t0 s Hi) as Hb. destruct (runStream idle max (beat idle) s) as [s' [o|]]; [done|].
  destruct Hb as [Hq Hi']. apply IH; [done|lia].
Qed.


(** The lifetime limit is no backstop against the client: a copy whose write the
    client does not take is still there long after the limit, the idle time and
    the end of the request. *)
Example unread_stream_outlives_its_limit :
  let run later := streamCopy 5 60 [mkRead "data: hi" None] 0 ([EvRead; EvSelect SelChunk] ++ later) in
  (run [EvTick 1000; EvSelect SelMax; EvSelect SelIdle; EvCancel; EvSelect SelCtx]).2 = None /\
  (run [EvTick 1000; EvWritten false; EvSelect SelMax]).2 = Some streamMaxReached.
Proof. done. Qed.

(** ** Waiting for the first event

    The body is what the upstream will send until its end.  The wait reads
    it line by line ahead of the client; [timerFirst] tells whether the budget
    ran out before the reading goroutine reported. *)

Definition newline : ascii := ascii_of_nat 10.

(** [br.ReadBytes('\n')]: the line with its newline and the rest, or [None]
    when the body ends first. *)
Fixpoint cutLine (s : bytes) : option (bytes * bytes) :=
  match s with
  | [] => None
  | c :: rest =>
      if Ascii.eqb c newline then Some ([c], rest)
      else match cutLine rest with
           | Some (line, rest') => Some (c :: line, rest')
           | None => None
           end
  end.

Definition bytes_of (s : string) : bytes := list_ascii_of_string s.

Definition keepalive (line : bytes) : bool :=
  match trim_both line with [] => true | c :: _ => Ascii.eqb c ":"%char end.

Definition dataLine (line : bytes) : bool :=
  match Prelude.strip_prefix (bytes_of "data:") (trim_both line) with Some _ => true | None => false end.

Record firstEventResult := mkFirstEvent {
  fe_consumed : bytes;
  fe_ok : bool;
  fe_reader : bytes;     (* what is left in the buffered reader *)
}.

(** The goroutine of [awaitFirstStreamEvent]; every line shortens the body. *)
Fixpoint scanFirstEvent (fuel : nat) (seen body : bytes) : firstEventResult :=
  match fuel with
  | O => mkFirstEvent seen false body
  | S fuel =>
      match cutLine body with
      | None => mkFirstEvent (seen ++ body) false []
      | Some (line, rest) =>
          if keepalive line then scanFirstEvent fuel (seen ++ line) rest
          else if dataLine line then mkFirstEvent (seen ++ line) true rest
          else scanFirstEvent fuel (seen ++ line) rest
      end
  end.

Definition firstEvent (body : bytes) : firstEventResult := scanFirstEvent (S (List.length body)) [] body.

(** [io.MultiReader(bytes.NewReader(consumed), reader)], read to its end:
    the reader of both wrappers. *)
Definition replayed (r : firstEventResult) : bytes := fe_consumed r ++ fe_reader r.

(** The bytes the returned reader will give, whether an event arrived, and
    whether the wait timed out. *)
Definition awaitFirstStreamEvent (timerFirst : bool) (body : bytes) : bytes * bool * bool :=
  let r := firstEvent body in
  if timerFirst then (replayed r, false, true) else (replayed r, fe_ok r, false).

(** The complete lines of a body: those that end in a newline. *)
Fixpoint completeLines (fuel : nat) (body : bytes) : list bytes :=
  match fuel with
  | O => []
  | S fuel => match cutLine body with Some (line, rest) => line :: completeLines fuel rest | None => [] end
  end.

Definition linesOf (body : bytes) : list bytes := completeLines (S (List.length body)) body.

Lemma cutLine_split s line rest : cutLine s = Some (line, rest) -> s = (line ++ rest)%list /\ line <> [].
Proof.
  revert line rest. induction s as [|c s IH]; simpl; [done|]. intros line rest. destruct (Ascii.eqb c newline); [by intros [= <- <-]|].
  destruct (cutLine s) as [[l r]|]; [|done]. intros [= <- <-]. destruct (IH l r eq_refl) as [-> _]. done.
Qed.

Lemma data_not_keepalive line : dataLine line = true -> keepalive line = false.
Proof.
  unfold dataLine, keepalive, bytes_of. destruct (trim_both line) as [|c t]; [done|]. cbn [list_ascii_of_string Prelude.strip_prefix].
  destruct (Ascii.eqb_spec "d" c) as [<-|]; done.
Qed.

(** What the scan stops at: the first complete line that carries data. *)
Lemma scan_spec fuel : forall seen body,
  (List.length body < fuel)%nat ->
  let r := scanFirstEvent fuel seen body in
  (fe_consumed r ++ fe_reader r = seen ++ body)%list /\
  if fe_ok r
  then exists before line after, completeLines fuel body = (before ++ line :: after)%list /\
       Forall (fun l => dataLine l = false) before /\ dataLine line = true /\ fe_consumed r = (seen ++ mjoin before ++ line)%list
  else Forall (fun l => dataLine l = false) (completeLines fuel body) /\ fe_reader r = [].
Proof.
  induction fuel as [|fuel IH]; intros seen body Hlen; [lia|]. cbn [scanFirstEvent completeLines].
  destruct (cutLine body) as [[line rest]|] eqn:E; [|simpl; split; [apply app_nil_r|by constructor]].
  apply cutLine_split in E as [-> Hne].
  assert (Hlt : (List.length rest < fuel)%nat) by (rewrite length_app in Hlen; destruct line; [done|simpl in Hlen; lia]).
  destruct (dataLine line) eqn:Ed.
  - rewrite (data_not_keepalive line Ed). simpl. split; [by rewrite (assoc_L (++))|].
    exists [], line, (completeLines fuel rest). split_and!; [done|constructor|done|done].
  - replace (if keepalive line then scanFirstEvent fuel (seen ++ line) rest else scanFirstEvent fuel (seen ++ line) rest)
      with (scanFirstEvent fuel (seen ++ line) rest) by (by destruct (keepalive line)).
    destruct (IH (seen ++ line)%list rest Hlt) as [Hj Hr]. split; [by rewrite Hj, (assoc_L (++))|].
    destruct (fe_ok _); [|destruct Hr; split; [by constructor|done]].
    destruct Hr as (before & l & after & Hc & Hf & Hd & Hcons). exists (line :: before), l, after.
    split_and!; [by rewrite Hc|by constructor|done|]. rewrite Hcons. simpl. by rewrite <- !(assoc_L (++)).
Qed.

(** The pre-commit wait is lossless and not fooled by keepalives.
    Whether or not the budget runs out, the reader it returns replays the body
    exactly as the upstream sent it; without a timeout an event is reported
    exactly when some complete line carries [data:], comments and blank lines
    not counting, and nothing is read past the first such line; and a body
    without one is read to its end. *)
Theorem first_event_lossless timerFirst body :
  let '(reader, gotEvent, timedOut) := awaitFirstStreamEvent timerFirst body in
  reader = body /\ timedOut = timerFirst /\
  gotEvent = negb timerFirst && existsb dataLine (linesOf body) /\
  (if existsb dataLine (linesOf body)
   then exists before line after, linesOf body = (before ++ line :: after)%list /\ dataLine line = true /\
        Forall (fun l => dataLine l = false) before /\ fe_consumed (firstEvent body) = (mjoin before ++ line)%list
   else fe_reader (firstEvent body) = []).
Proof.
  unfold awaitFirstStreamEvent, firstEvent, replayed, linesOf.
  destruct (scan_spec (S (List.length body)) [] body) as [Hj Hr]; [lia|].
  set (r := scanFirstEvent _ _ _) in *. set (ls := completeLines _ _) in *.
  assert (Hok : existsb dataLine ls = fe_ok r).
  { destruct (fe_ok r).
    - destruct Hr as (before & line & after & -> & _ & Hd & _). rewrite existsb_app. simpl. by rewrite Hd, orb_true_r.
    - destruct Hr as [Hf _]. induction Hf as [|l ls' Hl _ IHf]; simpl; [done|]. by rewrite Hl. }
  rewrite Hok. destruct timerFirst; (split_and!; [done|done|by destruct (fe_ok r)|]);
    (destruct (fe_ok r); [destruct Hr as (before & line & after & ? & ? & ? & ?); exists before, line, after; done|apply Hr]).
Qed.
