(* ===== verification/Errors.v ===== *)
(** * Errors: what an upstream failure means (router_breaker.go, lines 652-694,
    router_provider_error.go, provider_adapter.go, the retry classification of
    cervo-retry)

    Decoding a JSON error body into the fields that are read is a parameter;
    so is the formatting of a date. *)

From S2P Require Import Prelude Float Types Env Breaker Fallback QuotaProviders.
From Stdlib Require Import Lia ZArith String.
From stdpp Require Import pretty.
#[local] Open Scope string_scope.
#[local] Open Scope Z_scope.

(** ** Classification *)

(** An error of the transport: its text, and whether [errors.Is] finds
    [context.DeadlineExceeded] in it or [errors.As] a [net.Error] that timed
    out. *)
Record transportError := mkTransportError {
  te_text : string;
  te_deadline : bool;
  te_netTimeout : bool;
}.

Record Classification := mkClassification {
  cl_StatusCode : Z;
  cl_Message : string;
  cl_BreakerEligible : bool;
  cl_Retryable : bool;
}.

(** [cervoretry.ClassifyTransportError] of an error that is not nil. *)
Definition ClassifyTransportError (err : transportError) : Classification :=
  if te_deadline err || te_netTimeout err
  then mkClassification 504 ("upstream timeout: " +:+ te_text err) true true
  else mkClassification 502 ("transport error: " +:+ te_text err) true true.

Definition newAttemptError (status : Z) (message : string) (eligible retryable : bool) : attemptError :=
  mkAttemptError status message eligible retryable false false false false false false "" 0.

Definition classifyTransportError (err : transportError) : attemptError :=
  let c := ClassifyTransportError err in
  let lowerMessage := ToLower (cl_Message c) in
  mkAttemptError (cl_StatusCode c) (cl_Message c) (cl_BreakerEligible c) (cl_Retryable c)
    (te_deadline err || te_netTimeout err)
    (Contains lowerMessage "eof" || Contains lowerMessage "connection reset")
    false false false false "" 0.

(** [cervoretry.ClassifyHTTPStatus]: the status to answer with, whether the
    breaker counts it, whether it may be retried.  Its message, which quotes
    the body, is not read by the router. *)
Definition ClassifyHTTPStatus (statusCode : Z) : Z * bool * bool :=
  if statusCode =? 429 then (503, true, true)
  else if 500 <=? statusCode then (502, true, true)
  else if statusCode =? 408 then (504, true, true)
  else (statusCode, false, false).

(** The closed vocabulary of the observable messages. *)
Definition safeHTTPMessage (statusCode : Z) : string :=
  if (statusCode =? 400) || (statusCode =? 422) then "request rejected"
  else if (statusCode =? 401) || (statusCode =? 403) then "provider authentication failed"
  else if statusCode =? 429 then "rate limited"
  else if (statusCode =? 504) || (statusCode =? 408) then "timeout"
  else "upstream unavailable".

Definition classifyHTTPError (statusCode : Z) : attemptError :=
  let '(status, eligible, retryable) := ClassifyHTTPStatus statusCode in
  newAttemptError status (safeHTTPMessage statusCode) eligible retryable.

(** ** Relayed errors *)

Section bodies.
(** [error.message] and [error.metadata.provider_name] of a body that decodes. *)
Context (decodeRelayed : string -> option (string * string)).

Definition relayedMarker : string := "Provider returned error".

Definition isProviderRelayedError (body : string) : bool :=
  if empty_str body then false
  else if negb (Contains body relayedMarker) then false
  else match decodeRelayed body with
       | None => false
       | Some (message, providerName) =>
           if negb (str_eq message relayedMarker) then false
           else negb (empty_str (TrimSpace providerName))
       end.

(** ** The daily free quota *)

Record dailyFreeQuotaDetails := mkDetails {
  dq_Message : string;
  dq_Reset : Z;
}.

Context (decodeError : string -> option (Z * list (string * string) * string)).
(** The reset in UTC, with the local time appended in another zone. *)
Context (formatReset : Z -> string).

Definition usageText (limit remaining : string) : string :=
  match ParseInt64 limit, ParseInt64 remaining with
  | Some limitValue, Some remainingValue =>
      if (0 <=? remainingValue) && (remainingValue <=? limitValue)
      then pretty (limitValue - remainingValue) +:+ "/" +:+ pretty limitValue
      else "no requests remaining"
  | _, _ => "no requests remaining"
  end.

Definition openRouterDailyFreeQuotaDetails (body : string) : option dailyFreeQuotaDetails :=
  match decodeError body with
  | None => None
  | Some (code, headers, limitSource) =>
      if negb (code =? 429) || negb (str_eq limitSource "openrouter_free_tier_daily") then None
      else
        let usage := usageText (quotaHeader headers "X-RateLimit-Limit") (quotaHeader headers "X-RateLimit-Remaining") in
        let '(resetText, reset) :=
          match ParseInt64 (quotaHeader headers "X-RateLimit-Reset") with
          | Some resetMillis => (formatReset (time_UnixMilli resetMillis), time_UnixMilli resetMillis)
          | None => ("at the next daily reset", 0)
          end in
        Some (mkDetails (openRouterDailyFreeQuotaPrefix +:+ " (" +:+ usage +:+ "). Resets: " +:+ resetText +:+
          ". Switching to another :free model will not help; wait for the reset or use a direct provider/paid model.") reset)
  end.

Definition openRouterDailyFreeQuotaMessage (body : string) : string * bool :=
  match openRouterDailyFreeQuotaDetails body with
  | Some details => (dq_Message details, true)
  | None => ("", false)
  end.
End bodies.

(** ** Requests a provider cannot accept *)

Definition schemaMarkers : list string :=
  ["property '"; "unsupported property"; "field is not supported"; "parameter is not supported";
   "not currently supported"; "unsupported parameter"].

Definition isUnsupportedSchemaError (status : Z) (body : string) : bool :=
  if negb (status =? 400) then false
  else existsb (Contains (ToLower body)) schemaMarkers.

(** The adapter's answer, by provider. *)
Definition IsCompatibilityError (provider : providerID) (status : Z) (body : string) : bool :=
  if str_eq provider providerCerebras || str_eq provider providerGroq
  then isUnsupportedSchemaError status body else false.
