(* ===== verification/Counters.v ===== *)
(** * Counters: the router's event counters (router_counters.go)

    Atomic 64-bit counters that wrap, and the two latency series per model.
    The counters are a map from their names, so that one operation bumps any
    of them; [Counters] reads them into the exported record. *)

From S2P Require Import Prelude Float Types Breaker Fallback Stream QuotaRouting.
From Stdlib Require Import Lia ZArith String.
#[local] Open Scope string_scope.
#[local] Open Scope Z_scope.

Inductive counter :=
| streamsCompleted | streamsStalled | streamsUpstreamErr | streamsMaxReached | streamsClientGone
| admissionRejected | capabilityRefused | unknownProfileRejected | paidEmbeddingRefused | streamFirstEventTimeouts
| chainFailedCancelled | chainFailedTotalTimeout | chainFailedTerminal | chainFailedExhausted | chainFailedExecutorError
| allModelsCooling | quotaHeld.

#[global] Instance counter_eq_dec : EqDecision counter.
Proof. solve_decision. Defined.

Record routerCounters := mkCounters {
  rc_count : counter -> Z;
  rc_firstEvent : gmap string firstEventStat;
  rc_firstToken : gmap string firstEventStat;
}.

Definition zeroCounters : routerCounters := mkCounters (fun _ => 0) ∅ ∅.

(** [c.Add(1)]. *)
Definition countEvent (c : counter) (k : routerCounters) : routerCounters :=
  mkCounters (fun c' => if decide (c' = c) then wrap64 (rc_count k c + 1) else rc_count k c') (rc_firstEvent k) (rc_firstToken k).

Definition chainCounter (reason : chainFailureReason) : counter :=
  match reason with
  | chainCancelled => chainFailedCancelled
  | chainTotalTimeout => chainFailedTotalTimeout
  | chainTerminal => chainFailedTerminal
  | chainExhausted => chainFailedExhausted
  | chainExecutorError => chainFailedExecutorError
  end.

Definition recordChainFailure (reason : chainFailureReason) : routerCounters -> routerCounters := countEvent (chainCounter reason).

Definition streamCounter (o : streamOutcome) : counter :=
  match o with
  | streamCompleted => streamsCompleted
  | streamStalled => streamsStalled
  | streamUpstreamError => streamsUpstreamErr
  | streamMaxReached => streamsMaxReached
  | streamClientGone => streamsClientGone
  end.

Definition recordStreamOutcome (o : streamOutcome) : routerCounters -> routerCounters := countEvent (streamCounter o).

Definition recordFirstEventLatency (svc : RouterStatic) (attempt : modelAttempt) (d : Z) (k : routerCounters) : routerCounters :=
  mkCounters (rc_count k) (observeLatency (breakerKey svc attempt) d (rc_firstEvent k)) (rc_firstToken k).

Record ModelLatency := mkModelLatency {
  ml_Model : string;
  ml_SumSeconds : float64;
  ml_Count : Z;
}.

Definition snapshotLatency (from : gmap string firstEventStat) : list ModelLatency :=
  SliceStable (fun a b => String.ltb (ml_Model a) (ml_Model b))
    ((fun '(model, stat) => mkModelLatency model (fdiv (f_of_Z (st_sumNanos stat)) (f_of_Z Second)) (st_count stat)) <$> map_to_list from).

(** The exported snapshot: every counter by name, and the two series. *)
Record RouterCounters := mkRouterCounters {
  RC_count : counter -> Z;
  RC_FirstEventLatency : list ModelLatency;
  RC_FirstTokenLatency : list ModelLatency;
}.

Definition Counters (k : routerCounters) : RouterCounters :=
  mkRouterCounters (rc_count k) (snapshotLatency (rc_firstEvent k)) (snapshotLatency (rc_firstToken k)).
