(* ===== verification/Http.v ===== *)
(** * Http: writing to the client (router_http.go)

    The response writer is its header map, the status once it is sent, and the
    bytes written.  Header names are canonical, as net/http parses and stores
    them.  The JSON encodings of an error and of a trace view are parameters;
    the tracing headers of the upstream request are not modelled. *)

From S2P Require Import Prelude Float Types Text TraceRing Trace QuotaProviders.
From Stdlib Require Import Lia ZArith Ascii String.
#[local] Open Scope string_scope.
#[local] Open Scope Z_scope.

Record responseWriter := mkWriter {
  rw_header : gmap string (list string);
  rw_statuses : list Z;   (* of the WriteHeader calls; the first is the response's *)
  rw_body : string;
}.

Definition newWriter : responseWriter := mkWriter ∅ [] "".

Definition header_Set (key value : string) (h : gmap string (list string)) : gmap string (list string) := <[key := [value]]> h.

Definition header_Add (key value : string) (h : gmap string (list string)) : gmap string (list string) :=
  <[key := (default [] (h !! key) ++ [value])%list]> h.

Definition onHeader (f : gmap string (list string) -> gmap string (list string)) (w : responseWriter) : responseWriter :=
  mkWriter (f (rw_header w)) (rw_statuses w) (rw_body w).

(** Only the first [WriteHeader] counts; a later one is superfluous.  The codes
    are those of three digits: net/http panics on any other, which an upstream
    that answers with a status below 100 can bring about. *)
Definition WriteHeader (status : Z) (w : responseWriter) : responseWriter :=
  mkWriter (rw_header w) (rw_statuses w ++ [status])%list (rw_body w).

Definition Write (data : string) (w : responseWriter) : responseWriter :=
  mkWriter (rw_header w) (match rw_statuses w with [] => [200] | l => l end) (rw_body w +:+ data).

(** ** The upstream request *)

Definition proxyTitleHeader : string := "CalvoProxy Smart Proxy".

Definition applyProxyHeaders (apiKey : string) (h : gmap string (list string)) : gmap string (list string) :=
  header_Set "X-Title" proxyTitleHeader (header_Set "Content-Type" "application/json" (header_Set "Authorization" ("Bearer " +:+ apiKey) h)).

Record upstreamRequest := mkUpstreamRequest {
  ur_method : string;
  ur_url : string;
  ur_header : gmap string (list string);
  ur_body : string;
}.

(** [badURL]: what [http.NewRequestWithContext] makes of a URL. *)
Definition newUpstreamRequest {E} (badURL : string -> option E) (method targetURL body apiKey : string) : E + upstreamRequest :=
  match badURL targetURL with
  | Some err => inl err
  | None => inr (mkUpstreamRequest method targetURL (applyProxyHeaders apiKey ∅) body)
  end.

(** ** Responses *)

Definition addValues (key : string) (values : list string) (dst : gmap string (list string)) : gmap string (list string) :=
  fold_left (fun h v => header_Add key v h) values dst.

Definition copyHeaders (src : Header) (skipKeys : list string) (dst : gmap string (list string)) : gmap string (list string) :=
  let skip := ToLower <$> skipKeys in
  fold_left (fun h '(key, values) => if existsb (str_eq (ToLower key)) skip then h else addValues key values h) src dst.

Definition writeProxyResponse (status : Z) (src : Header) (body : string) (w : responseWriter) : responseWriter :=
  let w := onHeader (copyHeaders src ["content-length"; "content-encoding"]) w in
  let w := onHeader (header_Set "Content-Length" (pretty (Z.of_nat (String.length body)))) w in
  Write body (WriteHeader status w).

Definition streamProxyResponse (status : Z) (src : Header) (w : responseWriter) : responseWriter :=
  WriteHeader status (onHeader (copyHeaders src [traceHeader; traceIDHeader]) w).

Definition setRouteTraceHeaders (t : option routeTrace) (h : gmap string (list string)) : gmap string (list string) :=
  match t with
  | None => h
  | Some trace =>
      let h := header_Set traceHeader (header trace) h in
      if empty_str (tr_ID trace) then h else header_Set traceIDHeader (tr_ID trace) h
  end.

Definition traceJSONHeader : string := "X-Calvoproxy-Trace-Json".

Section encodings.
Context (encodeView : traceView -> string) (encodeError : string -> string).

(** [full]: the client asked for the JSON form. *)
Definition setRouteTraceHeadersWithFull (full : bool) (t : option routeTrace) (h : gmap string (list string)) : gmap string (list string) :=
  let h := setRouteTraceHeaders t h in
  match t with
  | Some trace => if full then header_Set traceJSONHeader (encodeView (view false trace)) h else h
  | None => h
  end.

Definition setServedModelHeaders (full : bool) (t : option routeTrace) (attempt : modelAttempt) (h : gmap string (list string)) : gmap string (list string) :=
  let h := header_Set "X-Calvoproxy-Profile" (Profile attempt) (header_Set "X-Calvoproxy-Model" (Model attempt) h) in
  let h := if 0 <? AttemptIndex attempt then header_Set "X-Calvoproxy-Attempt" (pretty (AttemptIndex attempt)) h else h in
  setRouteTraceHeadersWithFull full t h.

(** [writeJSONError]. *)
Definition writeJSONError (status : Z) (message : string) (w : responseWriter) : responseWriter :=
  Write (encodeError message) (WriteHeader status (onHeader (header_Set "Content-Type" "application/json") w)).
End encodings.

(** ** The proxy's own headers

    A header the proxy set is what the client sees, unless copying the
    upstream's headers appends to it. *)

Lemma addValues_other key values dst k : k <> key -> addValues key values dst !! k = dst !! k.
Proof.
  unfold addValues. revert dst. induction values as [|v vs IH]; intros dst Hk; simpl; [done|].
  rewrite IH by done. by apply lookup_insert_ne.
Qed.

Lemma copyHeaders_skip src skip dst k :
  existsb (str_eq (ToLower k)) (ToLower <$> skip) = true -> copyHeaders src skip dst !! k = dst !! k.
Proof.
  intros Hs. unfold copyHeaders. revert dst. induction src as [|[key values] src IH]; intros dst; cbn [fold_left]; [done|].
  rewrite IH. destruct (existsb (str_eq (ToLower key)) (ToLower <$> skip)) eqn:E; [done|]. apply addValues_other. intros ->. congruence.
Qed.

(** A streamed response carries the trace headers the proxy wrote, whatever
    the upstream sends under the same names. *)
Lemma stream_trace_headers status src w k :
  k = traceHeader \/ k = traceIDHeader -> rw_header (streamProxyResponse status src w) !! k = rw_header w !! k.
Proof. intros [-> | ->]; apply copyHeaders_skip; vm_compute; reflexivity. Qed.

(** A buffered response does not: the upstream can add a second value to the
    route header. *)
Theorem buffered_response_keeps_upstream_trace_header :
  let w := onHeader (setRouteTraceHeaders (Some (mkTrace "id" "simple" "" "" "" [] "" [] 0 0 0 0 0 [] None noCompression ∅))) newWriter in
  rw_header (writeProxyResponse 200 [(traceHeader, ["v1;p=INJECTED"])] "{}" w) !! traceHeader
    = Some ["v1;p=simple;cmp=off;n=0/0/0"; "v1;p=INJECTED"].
Proof. vm_compute. reflexivity. Qed.
