(* ===== verification/Upstream.v ===== *)
(** * Upstream: one attempt (router_upstream.go)

    [executeAttempt] gates the attempt, makes sure it holds quota, sends the
    request and turns the reply into a response or an error, keeping the
    breakers, the scores, the quota ledger and the trace in step.  The service
    state it works on is [world]; a program over it is a [prog].  The reply of
    the upstream is an argument: a transport error, or a response with its
    status, its headers and the reads of its body.  [clock] gives the readings
    of the clock, one per [time.Now()]; the locks of other requests are not
    interleaved here. *)

From S2P Require Import Prelude Float Types Env Text Breaker Scoring Quota Registry Affinity Admission Fallback.
From S2P Require Import QuotaProviders QuotaPolicy QuotaRouting TraceRing Trace Stream Errors Http Counters.
From Stdlib Require Import Lia ZArith Ascii String.
#[local] Open Scope string_scope.
#[local] Open Scope Z_scope.

(** ** The service state and programs over it *)

Record world := mkWorld {
  w_ledger : QuotaLedger;
  w_affinity : affinityStore;
  w_cooldowns : gmap string Z;
  w_breakers : RouterState;
  w_counters : routerCounters;
  w_trace : option routeTrace;
  w_writer : responseWriter;
  w_ring : traceRing;
  w_tick : nat;
}.

Definition prog (A : Type) : Type := world -> world * A.

Definition ret {A} (a : A) : prog A := fun w => (w, a).
Definition bind {A B} (m : prog A) (k : A -> prog B) : prog B := fun w => let '(w, a) := m w in k a w.

Declare Scope prog_scope.
Delimit Scope prog_scope with prog.
Notation "x <- m ;; k" := (bind m (fun x => k)) (at level 100, m at next level, right associativity) : prog_scope.
Notation "m1 ;; m2" := (bind m1 (fun _ => m2)) (at level 100, right associativity) : prog_scope.
#[local] Open Scope prog_scope.

Definition onLedger {A} (f : QuotaLedger -> QuotaLedger * A) : prog A := fun w =>
  let '(l, a) := f (w_ledger w) in
  (mkWorld l (w_affinity w) (w_cooldowns w) (w_breakers w) (w_counters w) (w_trace w) (w_writer w) (w_ring w) (w_tick w), a).
Definition onAffinity (f : affinityStore -> affinityStore) : prog unit := fun w =>
  (mkWorld (w_ledger w) (f (w_affinity w)) (w_cooldowns w) (w_breakers w) (w_counters w) (w_trace w) (w_writer w) (w_ring w) (w_tick w), tt).
Definition onCooldowns {A} (f : gmap string Z -> gmap string Z * A) : prog A := fun w =>
  let '(c, a) := f (w_cooldowns w) in
  (mkWorld (w_ledger w) (w_affinity w) c (w_breakers w) (w_counters w) (w_trace w) (w_writer w) (w_ring w) (w_tick w), a).
Definition onBreakersR {A} (f : RouterState -> RouterState * A) : prog A := fun w =>
  let '(b, a) := f (w_breakers w) in
  (mkWorld (w_ledger w) (w_affinity w) (w_cooldowns w) b (w_counters w) (w_trace w) (w_writer w) (w_ring w) (w_tick w), a).
Definition onBreakers (f : RouterState -> RouterState) : prog unit := onBreakersR (fun b => (f b, tt)).
Definition onCounters (f : routerCounters -> routerCounters) : prog unit := fun w =>
  (mkWorld (w_ledger w) (w_affinity w) (w_cooldowns w) (w_breakers w) (f (w_counters w)) (w_trace w) (w_writer w) (w_ring w) (w_tick w), tt).
Definition onTrace (f : option routeTrace -> option routeTrace) : prog unit := fun w =>
  (mkWorld (w_ledger w) (w_affinity w) (w_cooldowns w) (w_breakers w) (w_counters w) (f (w_trace w)) (w_writer w) (w_ring w) (w_tick w), tt).
Definition onWriter (f : responseWriter -> responseWriter) : prog unit := fun w =>
  (mkWorld (w_ledger w) (w_affinity w) (w_cooldowns w) (w_breakers w) (w_counters w) (w_trace w) (f (w_writer w)) (w_ring w) (w_tick w), tt).
Definition gets {A} (f : world -> A) : prog A := fun w => (w, f w).

(** ** What the upstream answers *)

Record response := mkResponse {
  rs_status : Z;
  rs_header : Header;
  rs_reads : list readResult;        (* the body, read by read *)
  rs_readError : string;             (* the text of a read error *)
  rs_timerFirst : bool;              (* the first-event budget runs out first *)
  rs_events : list streamEvent;      (* how the copying of a stream is scheduled *)
  rs_usage : option usage;           (* the usage object of a buffered body *)
}.

Inductive upstreamReply :=
| RError (err : transportError) (ctx : ctxState)
| RResponse (r : response).

(** [resp.Header.Get(name)]: the first value. *)
Definition headerGet (h : Header) (name : string) : string :=
  match List.find (fun '(k, _) => str_eq k name) h with Some (_, v :: _) => v | _ => "" end.

(** [io.ReadAll(io.LimitReader(body, limit))]: the bytes, and whether a read
    failed.  A read that holds more than what is left of the limit is cut there
    and its error is never seen; one that ends at the limit still brings its
    error; and nothing at all is read at a limit that is not positive. *)
Fixpoint readAll (limit : Z) (reads : list readResult) : string * bool :=
  if limit <=? 0 then ("", false)
  else match reads with
  | [] => ("", false)
  | r :: rest =>
      let data := rd_data r in
      let n := Z.of_nat (String.length data) in
      if limit <? n then (String.substring 0 (Z.to_nat limit) data, false)
      else match rd_err r with
      | Some eof => (data, negb eof)
      | None => let '(more, err) := readAll (limit - n) rest in (data +:+ more, err)
      end
  end.

(** All the data a body carries, and its end. *)
Definition bodyBytes (reads : list readResult) : bytes := list_ascii_of_string (dataOf (readerChunks reads)).

Fixpoint bodyEnd (reads : list readResult) : option bool :=
  match reads with
  | [] => None
  | r :: rest => match rd_err r with Some eof => Some eof | None => bodyEnd rest end
  end.

(** The reads of the replaying reader: what was consumed, then the rest. *)
Definition replayReads (reads : list readResult) : list readResult :=
  let r := firstEvent (bodyBytes reads) in
  [mkRead (string_of_list_ascii (fe_consumed r)) None; mkRead (string_of_list_ascii (fe_reader r)) (bodyEnd reads)].

(** ** The configuration of a request *)

Section attempt.
Context (fingerprint : string -> string) (ParseTime ParseDuration : string -> option Z).
Context (decodeError : string -> option (Z * list (string * string) * string)) (decodeRelayed : string -> option (string * string)).
Context (encodeView : traceView -> string) (badURL : string -> option transportError) (transformResponse : string -> string).
Context (svc : RouterStatic) (env : environ) (cr : credentialStore) (cx : reqContext) (apiKey : string) (traceFull : bool).
(** The wire body built for an attempt, and the estimate made from it. *)
Context (wireBody : modelAttempt -> string) (wireEstimate : modelAttempt -> QuotaEstimate).
Context (clock : nat -> Z) (reply : modelAttempt -> upstreamRequest -> upstreamReply).

(** [time.Now()]. *)
Definition now : prog Z := fun w =>
  (mkWorld (w_ledger w) (w_affinity w) (w_cooldowns w) (w_breakers w) (w_counters w) (w_trace w) (w_writer w) (w_ring w) (S (w_tick w)), clock (w_tick w)).

Definition settle (ticket : QuotaTicket) (attempt : modelAttempt) (credential : string) (status : Z) (headers : Header) (body : string) (actual : Z) : prog (list providerQuotaObservation) :=
  t1 <- now ;; t2 <- now ;;
  res <- onLedger (fun l =>
    let '(l, dirty, obs) := observeAndSettleQuota fingerprint ParseTime ParseDuration decodeError ticket attempt credential status headers body actual t1 t2 l in
    (l, (dirty, obs))) ;;
  (if res.1 : bool then onBreakers markScoresDirty else ret tt) ;;
  ret res.2.

(** The deferred cleanup of an attempt's ticket. *)
Definition finishTicket (ticket : QuotaTicket) (attempt : modelAttempt) (credential : string) (sent settled : bool) : prog unit :=
  if negb (ticket_Valid ticket) || settled then ret tt
  else if negb sent then t <- now ;; onLedger (fun l => ((Release ticket t l).1, tt))
  else settle ticket attempt credential 0 [] "" (qe_Tokens (att_QuotaEstimate attempt)) ;; ret tt.

Definition resolveBoth (attempt : modelAttempt) : prog unit :=
  onBreakers (resolveProbe svc attempt) ;; onBreakers (resolveProviderProbe (Provider attempt)).

Definition penalize (attempt : modelAttempt) (status : Z) : prog unit :=
  t <- now ;; onBreakers (penalizeScore svc env attempt status t).

Definition failWith (attempt : modelAttempt) (status : Z) (message : string) (retryAfter : option Z) : prog unit :=
  t1 <- now ;; t2 <- now ;; t3 <- now ;; onBreakers (recordFailure svc attempt status message retryAfter t1 t2 t3).

Definition softError (status : Z) (quotaLimited : bool) (message : string) : attemptError :=
  mkAttemptError status message false true false false true false false quotaLimited "" 0.

(** Lines 30-37: the estimate the attempt is charged with. *)
Definition withEstimate (attempt : modelAttempt) : modelAttempt :=
  let e := att_QuotaEstimate attempt in
  if (qe_Requests e <=? 0) || (qe_Tokens e <=? 0)
  then set_Estimate (providerQuotaEstimate env attempt (wireEstimate attempt)) attempt
  else attempt.

(** Lines 52-64: the two half-open gates. *)
Definition gate (attempt : modelAttempt) : prog (option attemptError) :=
  t1 <- now ;; t2 <- now ;;
  ok <- onBreakersR (tryStartProvider svc attempt t1 t2) ;;
  if negb ok then ret (Some (softError 503 false ("provider " +:+ Provider attempt +:+ " is cooling down")))
  else
    t3 <- now ;; t4 <- now ;;
    ok <- onBreakersR (tryStartAttempt svc attempt t3 t4) ;;
    if negb ok then
      onBreakers (resolveProviderProbe (Provider attempt)) ;;
      onTrace (recordTraceFailure attempt 0 "probe" "recovery probe already in flight") ;;
      ret (Some (softError 503 false ("recovery probe already in flight for " +:+ Model attempt)))
    else ret None.

(** Lines 66-80: the path and the request. *)
Definition opPath (attempt : modelAttempt) : string :=
  if empty_str (Path attempt) then chatCompletionsPath else Path attempt.

Definition buildRequest (attempt : modelAttempt) (providerKey : string) : transportError + upstreamRequest :=
  newUpstreamRequest badURL "POST" (URL (Resolve env attempt (opPath attempt))) (wireBody attempt) providerKey.

(** Lines 81-89: an attempt without a ticket reserves one. *)
Definition claimTicket (attempt : modelAttempt) (providerKey : string) : prog (option QuotaTicket) :=
  if ticket_Valid (att_QuotaTicket attempt) then ret (Some (att_QuotaTicket attempt))
  else
    t <- now ;; cooldowns <- gets w_cooldowns ;;
    onLedger (reserveFallbackQuota fingerprint svc env cooldowns attempt providerKey (att_QuotaEstimate attempt) t).

(** Lines 99-136: the request got no answer. *)
Definition transportFailure (attempt : modelAttempt) (err : transportError) (ctx : ctxState) : prog attemptError :=
  match ctx with
  | CtxCanceled =>
      resolveBoth attempt ;;
      ret (mkAttemptError 503 "request cancelled before the upstream responded" false false false false true false false false "" 0)
  | _ =>
      let attErr := classifyTransportError err in
      onTrace (recordTraceFailure attempt 0 "transport" (Message attErr)) ;;
      penalize attempt (StatusCode attErr) ;;
      (if BreakerEligible attErr then failWith attempt (StatusCode attErr) (Message attErr) None else ret tt) ;;
      onBreakers (resolveProviderProbe (Provider attempt)) ;;
      ret attErr
  end.

(** ** An error status *)

Definition quotaLimitedStatus (status : Z) : bool := (status =? 429) || (status =? 413).

Definition providerAccountFailure (status : Z) (body : string) : bool :=
  ((status =? 401) || (status =? 403) || (status =? 402)) && negb (isProviderRelayedError decodeRelayed body).

(** A failure that says nothing about the model. *)
Definition nonModelFailure (status : Z) (body : string) : bool := quotaLimitedStatus status || providerAccountFailure status body.

(** The longest Retry-After the response or its observations name. *)
Definition longestRetryAfter (observations : list providerQuotaObservation) (fromHeader : Z) : Z :=
  fold_left (fun d o => if d <? pq_RetryAfter o then pq_RetryAfter o else d) observations fromHeader.

Definition poolExhausted (observations : list providerQuotaObservation) : bool :=
  existsb (fun o => pq_Exhausted o && str_eq (pq_Scope o) providerQuotaScopeFreePool) observations.

(** The error an error status becomes; [cooldown] is the cooldown that was set
    when the status is a quota limit. *)
Definition httpError (attempt : modelAttempt) (status : Z) (body : string) (exhausted : bool) (cooldown : Z) : attemptError :=
  let e := classifyHTTPError status in
  let quotaLimited := quotaLimitedStatus status in
  let incompatible := IsCompatibilityError (Provider attempt) status body in
  mkAttemptError (StatusCode e) (Message e) (BreakerEligible e) (Retryable e) (Timeout e) (EOF e)
    (quotaLimited || (status =? 400) || isProviderRelayedError decodeRelayed body || incompatible)
    incompatible
    (providerAccountFailure status body && negb (str_eq (Provider attempt) providerOpenRouter))
    quotaLimited
    (if quotaLimited && exhausted then quotaFreePool else "")
    (if quotaLimited then cooldown else 0).

(** Lines 140-263. *)
Definition httpFailure (attempt : modelAttempt) (providerKey : string) (ticket : QuotaTicket) (r : response) : prog attemptError :=
  let status := rs_status r in
  let body := (readAll maxErrorBodyBytes (rs_reads r)).1 in
  t <- now ;;
  observations <- settle ticket attempt providerKey status (rs_header r) body (qe_Tokens (att_QuotaEstimate attempt)) ;;
  let retryAfter := longestRetryAfter observations (parseRetryAfter ParseTime (headerGet (rs_header r) "Retry-After") t) in
  cooldown <- (if quotaLimitedStatus status then
                 t <- now ;; d <- onCooldowns (setQuotaCooldown svc attempt retryAfter t) ;; resolveBoth attempt ;; ret d
               else ret retryAfter) ;;
  let attErr := httpError attempt status body (poolExhausted observations) cooldown in
  onTrace (recordTraceFailure attempt status (traceKindFor attErr) (Message attErr)) ;;
  (if nonModelFailure status body then ret tt else penalize attempt (StatusCode attErr)) ;;
  (if BreakerEligible attErr && negb (nonModelFailure status body)
   then failWith attempt (StatusCode attErr) (Message attErr) (Some cooldown) else ret tt) ;;
  (if ProviderUnavailable attErr
   then t <- now ;; onBreakers (recordProviderFailure svc attempt (StatusCode attErr) (Message attErr) true cooldown t)
   else onBreakers (resolveProviderProbe (Provider attempt))) ;;
  (if nonModelFailure status body || negb (BreakerEligible attErr) then onBreakers (resolveProbe svc attempt) else ret tt) ;;
  ret attErr.

(** ** A streamed answer *)

(** The schedule of a copy, continued until it ends by beats in which the
    client takes what it was sent and the idle timer runs; a client that never
    reads again, which holds the copy for ever, is outside. *)
Definition fullSchedule (idle : Z) (reads : list readResult) (events : list streamEvent) : list streamEvent :=
  (events ++ beats idle (S (List.length (readerChunks reads))))%list.

(** Lines 334-360: the headers are committed and the body is copied. *)
Definition serveStream (attempt : modelAttempt) (r : response) (reads : list readResult) : prog (option goError) :=
  onTrace (fmap (recordServed (Model attempt) (AttemptIndex attempt))) ;;
  trace <- gets w_trace ;;
  onWriter (onHeader (setServedModelHeaders encodeView traceFull trace attempt)) ;;
  onWriter (streamProxyResponse (rs_status r) (rs_header r)) ;;
  t <- now ;;
  let idle := streamIdleTimeout env in
  let '(s, o) := streamCopy idle (streamMaxDuration env) reads t (fullSchedule idle reads (rs_events r)) in
  let outcome := default streamStalled o in
  onWriter (Write (ss_written s)) ;;
  onCounters (recordStreamOutcome outcome) ;;
  (if decide (outcome = streamCompleted) then
     t <- now ;; onBreakers (recordSuccess svc env attempt t) ;; onBreakers (resolveProviderSuccess (Provider attempt))
   else if upstreamFault outcome then
     penalize attempt 502 ;;
     failWith attempt 502 ("stream ended abnormally: " +:+ outcome_String outcome) None ;;
     onBreakers (resolveProviderProbe (Provider attempt))
   else ret tt) ;;
  ret None.

(** Lines 300-322: the queued model is abandoned. *)
Definition abandonStream (attempt : modelAttempt) : prog (option goError) :=
  penalize attempt scoreStatusSoftOnly ;;
  onCounters (countEvent streamFirstEventTimeouts) ;;
  ret (Some (EAttempt (softError 503 false ("no stream event from " +:+ Model attempt +:+ " within the first-event budget")))).

Definition runProg {A} (m : prog A) (k : A -> world -> execTree world) (w : world) : execTree world :=
  let '(w, a) := m w in k a w.

Definition finish (res : option goError) (w : world) : execTree world := TRet w res.

(** Lines 268-361. *)
Definition streamBranch (attempt : modelAttempt) (providerKey : string) (ticket : QuotaTicket) (attemptStart : Z) (r : response) : world -> execTree world :=
  runProg (settle ticket attempt providerKey (rs_status r) (rs_header r) "" (qe_Tokens (att_QuotaEstimate attempt)) ;; resolveBoth attempt) (fun _ =>
  if (0 <? streamFirstEventTimeout env) && negb (LastInChain attempt) then
    let '(_, gotEvent, timedOut) := awaitFirstStreamEvent (rs_timerFirst r) (bodyBytes (rs_reads r)) in
    runProg (t1 <- now ;; t2 <- now ;; onCounters (recordFirstEventLatency svc attempt (time_Sub t2 t1))) (fun _ w =>
      let serve := runProg (
        (if gotEvent : bool
         then t <- now ;; onCounters (fun k => mkCounters (rc_count k) (rc_firstEvent k)
                            (recordFirstTokenLatency svc attempt (time_Sub t attemptStart) (rc_firstToken k)))
         else ret tt) ;;
        serveStream attempt r (replayReads (rs_reads r))) finish in
      if timedOut : bool
      then TReserve w (fun w granted => if granted then runProg (abandonStream attempt) finish w else serve w)
      else serve w)
  else runProg (serveStream attempt r (rs_reads r)) finish).

(** ** A buffered answer *)

(** Lines 367-383: the body could not be read, or is too long. *)
Definition badBody (attempt : modelAttempt) (message : string) : prog attemptError :=
  penalize attempt 502 ;;
  failWith attempt 502 message None ;;
  onBreakers (resolveProviderProbe (Provider attempt)) ;;
  ret (mkAttemptError 502 message false true false false false false false false "" 0).

(** Lines 384-397. *)
Definition serveBuffered (attempt : modelAttempt) (providerKey : string) (ticket : QuotaTicket) (r : response) (body : string) : prog unit :=
  settle ticket attempt providerKey (rs_status r) (rs_header r) body (actualResponseTokens (rs_usage r) (qe_Tokens (att_QuotaEstimate attempt))) ;;
  t <- now ;;
  onBreakers (recordSuccess svc env attempt t) ;;
  onBreakers (resolveProviderSuccess (Provider attempt)) ;;
  let body := if str_eq (opPath attempt) chatCompletionsPath then transformResponse body else body in
  onTrace (fmap (recordServed (Model attempt) (AttemptIndex attempt))) ;;
  trace <- gets w_trace ;;
  onWriter (onHeader (setServedModelHeaders encodeView traceFull trace attempt)) ;;
  onWriter (writeProxyResponse (rs_status r) (rs_header r) body).

Definition bufferedBranch (attempt : modelAttempt) (providerKey : string) (ticket : QuotaTicket) (r : response) : prog (option goError) :=
  let limit := maxResponseBytes env in
  let '(body, failed) := readAll (wrap64 (limit + 1)) (rs_reads r) in
  if failed then
    e <- badBody attempt ("truncated upstream response: " +:+ rs_readError r) ;;
    finishTicket ticket attempt providerKey true false ;; ret (Some (EAttempt e))
  else if limit <? Z.of_nat (String.length body) then
    e <- badBody attempt "upstream response exceeds PROXY_MAX_RESPONSE_BYTES" ;;
    finishTicket ticket attempt providerKey true false ;; ret (Some (EAttempt e))
  else serveBuffered attempt providerKey ticket r body ;; ret None.

(** ** The attempt *)

(** Lines 95-397: the request is sent. *)
Definition sendAttempt (attempt : modelAttempt) (providerKey : string) (ticket : QuotaTicket) (req : upstreamRequest) : world -> execTree world :=
  runProg (t <- now ;; onBreakers (recordProviderAttempt (Provider attempt) (BalanceReserved attempt)) ;; ret t) (fun attemptStart =>
    match reply attempt req with
    | RError err ctx =>
        runProg (e <- transportFailure attempt err ctx ;; finishTicket ticket attempt providerKey true false ;; ret (Some (EAttempt e))) finish
    | RResponse r =>
        if negb (rs_status r =? 200)
        then runProg (e <- httpFailure attempt providerKey ticket r ;; ret (Some (EAttempt e))) finish
        else if isEventStream (headerGet (rs_header r) "Content-Type")
        then streamBranch attempt providerKey ticket attemptStart r
        else runProg (bufferedBranch attempt providerKey ticket r) finish
    end).

Definition executeAttempt (attempt0 : modelAttempt) : world -> execTree world :=
  let '(providerKey, configured) := providerCredential (Some svc) cr cx attempt0 apiKey in
  if negb configured
  then finish (Some (EAttempt (softError 503 false ("provider " +:+ Provider attempt0 +:+ " is not configured"))))
  else
    let attempt := withEstimate attempt0 in
    let ticket := att_QuotaTicket attempt in
    runProg (gate attempt) (fun gated =>
      match gated with
      | Some e => runProg (finishTicket ticket attempt providerKey false false ;; ret (Some (EAttempt e))) finish
      | None =>
          match buildRequest attempt providerKey with
          | inl err => runProg (resolveBoth attempt ;; finishTicket ticket attempt providerKey false false ;;
                                ret (Some (EAttempt (classifyTransportError err)))) finish
          | inr req =>
              runProg (claimTicket attempt providerKey) (fun claimed =>
                match claimed with
                | None => runProg (resolveBoth attempt ;;
                    ret (Some (EAttempt (softError 429 true (providerDisplayName (Provider attempt) +:+
                      " is temporarily rate-limited for this model; trying another provider"))))) finish
                | Some ticket => sendAttempt attempt providerKey ticket req
                end)
          end
      end).
End attempt.
