(* ===== verification/UpstreamSpec.v ===== *)
(** * UpstreamSpec: what an attempt guarantees (router_upstream.go)

    Three promises of [executeAttempt] to the fallback loop, on every path:
    its quota ticket is settled or released, the half-open probes it claimed
    are given back, and it reports an error only when nothing was written to
    the client.  Programs are followed by a frame predicate ([keeps]) and a
    triple ([leads]); trees of the executor by [treePost]. *)

From S2P Require Import Prelude Float Types Env Text Breaker Scoring Quota Registry Affinity Admission Fallback.
From S2P Require Import QuotaProviders QuotaPolicy QuotaRouting TraceRing Trace Stream Errors Http Counters Upstream.
From Stdlib Require Import Lia ZArith Ascii String.
#[local] Open Scope string_scope.
#[local] Open Scope Z_scope.
#[local] Open Scope prog_scope.

(** ** Frames *)

Definition keeps {A T} (view : world -> T) (m : prog A) : Prop := forall w, view (m w).1 = view w.

Section frames.
Context {T : Type} (view : world -> T).

Lemma keeps_ret {A} (a : A) : keeps view (ret a).
Proof. done. Qed.

Lemma keeps_gets {A} (f : world -> A) : keeps view (gets f).
Proof. done. Qed.

Lemma keeps_bind {A B} (m : prog A) (k : A -> prog B) : keeps view m -> (forall a, keeps view (k a)) -> keeps view (bind m k).
Proof. intros Hm Hk w. unfold bind. specialize (Hm w). destruct (m w) as [w1 a]. simpl in Hm. by rewrite Hk. Qed.

Lemma keeps_if {A} (b : bool) (m1 m2 : prog A) : keeps view m1 -> keeps view m2 -> keeps view (if b then m1 else m2).
Proof. by destruct b. Qed.
End frames.

(** The updates of one component leave the others alone. *)
Ltac frame_prim := intros ?w; unfold onLedger, onAffinity, onCooldowns, onBreakers, onBreakersR, onCounters, onTrace, onWriter, now; simpl; try case_match; reflexivity.

Create HintDb frame.
#[export] Hint Resolve keeps_ret keeps_gets : frame.
#[export] Hint Extern 1 (keeps _ (onLedger _)) => frame_prim : frame.
#[export] Hint Extern 1 (keeps _ (onAffinity _)) => frame_prim : frame.
#[export] Hint Extern 1 (keeps _ (onCooldowns _)) => frame_prim : frame.
#[export] Hint Extern 1 (keeps _ (onBreakers _)) => frame_prim : frame.
#[export] Hint Extern 1 (keeps _ (onBreakersR _)) => frame_prim : frame.
#[export] Hint Extern 1 (keeps _ (onCounters _)) => frame_prim : frame.
#[export] Hint Extern 1 (keeps _ (onTrace _)) => frame_prim : frame.
#[export] Hint Extern 1 (keeps _ (onWriter _)) => frame_prim : frame.
#[export] Hint Extern 1 (keeps _ (now _)) => frame_prim : frame.

Ltac frame :=
  repeat first
    [ progress intros
    | apply keeps_bind
    | apply keeps_if
    | match goal with |- keeps _ (match ?x with _ => _ end) => destruct x end
    | match goal with |- keeps _ (let '(_, _) := ?x in _) => destruct x end
    | solve [eauto with frame] ].

(** ** Triples *)

Definition leads {A} (P : world -> Prop) (m : prog A) (Q : A -> world -> Prop) : Prop :=
  forall w, P w -> Q (m w).2 (m w).1.

Lemma leads_bind {A B} P (m : prog A) R (k : A -> prog B) Q :
  leads P m R -> (forall a, leads (R a) (k a) Q) -> leads P (bind m k) Q.
Proof. intros Hm Hk w Hw. unfold bind. specialize (Hm w Hw). destruct (m w) as [w1 a]. by apply Hk. Qed.

Lemma leads_if {A} P (b : bool) (m1 m2 : prog A) Q : leads P m1 Q -> leads P m2 Q -> leads P (if b then m1 else m2) Q.
Proof. by destruct b. Qed.

Lemma leads_keeps {A T} (view : world -> T) (P : T -> Prop) (m : prog A) :
  keeps view m -> leads (fun w => P (view w)) m (fun _ w => P (view w)).
Proof. intros Hm w Hw. by rewrite Hm. Qed.

Lemma leads_weaken {A} (P P' : world -> Prop) (m : prog A) Q : (forall w, P w -> P' w) -> leads P' m Q -> leads P m Q.
Proof. intros H Hm w Hw. by apply Hm, H. Qed.

Lemma leads_ret {A} (a : A) (P : world -> Prop) (Q : A -> world -> Prop) : (forall w, P w -> Q a w) -> leads P (ret a) Q.
Proof. intros H w Hw. by apply H. Qed.

Lemma leads_breakers f (P Q : RouterState -> Prop) :
  (forall x, P x -> Q (f x)) -> leads (fun w => P (w_breakers w)) (onBreakers f) (fun _ w => Q (w_breakers w)).
Proof. intros H w Hw. by apply H. Qed.

(** ** Trees *)

(** The result of a tree, when the worlds the reservations of the loop lead
    to are related by [R] to those they start from. *)
Fixpoint treePost (R : world -> world -> Prop) (Q : option goError -> world -> Prop) (t : execTree world) : Prop :=
  match t with
  | TRet w res => Q res w
  | TReserve w k => forall w' ok, R w w' -> treePost R Q (k w' ok)
  end.

(** The world in which a tree first returns or asks the loop. *)
Definition treeNow (t : execTree world) : world := match t with TRet w _ => w | TReserve w _ => w end.

Lemma treePost_run {A} R Q (m : prog A) (k : A -> world -> execTree world) w :
  treePost R Q (k (m w).2 (m w).1) -> treePost R Q (runProg m k w).
Proof. unfold runProg. by destruct (m w). Qed.

(** Reserving the next attempt moves the ledger and the clock alone. *)
Definition reserving (w w' : world) : Prop :=
  w_writer w' = w_writer w /\ w_breakers w' = w_breakers w /\ w_trace w' = w_trace w.

Section attempt.
Context (fingerprint : string -> string) (ParseTime ParseDuration : string -> option Z).
Context (decodeError : string -> option (Z * list (string * string) * string)) (decodeRelayed : string -> option (string * string)).
Context (encodeView : traceView -> string) (badURL : string -> option transportError) (transformResponse : string -> string).
Context (svc : RouterStatic) (env : environ) (cr : credentialStore) (cx : reqContext) (apiKey : string) (traceFull : bool).
Context (wireBody : modelAttempt -> string) (wireEstimate : modelAttempt -> QuotaEstimate).
Context (clock : nat -> Z) (reply : modelAttempt -> upstreamRequest -> upstreamReply).

#[local] Abbreviation exec := (executeAttempt fingerprint ParseTime ParseDuration decodeError decodeRelayed encodeView badURL transformResponse
  svc env cr cx apiKey traceFull wireBody wireEstimate clock reply).
#[local] Abbreviation settle := (settle fingerprint ParseTime ParseDuration decodeError clock).
#[local] Abbreviation finishTicket := (finishTicket fingerprint ParseTime ParseDuration decodeError clock).
#[local] Abbreviation httpFailure := (httpFailure fingerprint ParseTime ParseDuration decodeError decodeRelayed svc env clock).

(** ** The client sees one answer *)

Section writer.

(** What the client can see of a request: the response, and the outcome of the
    decision trace. *)
Definition client (w : world) : responseWriter * option string := (w_writer w, tr_Outcome <$> w_trace w).

#[local] Abbreviation quiet := (keeps client).

Lemma recordTraceFailure_outcome a status kind reason t : tr_Outcome <$> recordTraceFailure a status kind reason t = tr_Outcome <$> t.
Proof. by destruct t. Qed.

Lemma traceFailure_quiet a status kind reason : quiet (onTrace (recordTraceFailure a status kind reason)).
Proof. intros w. unfold client, onTrace. simpl. by rewrite recordTraceFailure_outcome. Qed.
#[local] Hint Resolve traceFailure_quiet | 0 : frame.

Lemma settle_quiet t a c s h b n : quiet (settle t a c s h b n).
Proof. unfold Upstream.settle. frame. Qed.
#[local] Hint Resolve settle_quiet : frame.

Lemma finishTicket_quiet t a c s1 s2 : quiet (finishTicket t a c s1 s2).
Proof. unfold Upstream.finishTicket. frame. Qed.

Lemma resolveBoth_quiet a : quiet (resolveBoth svc a).
Proof. unfold resolveBoth. frame. Qed.

Lemma penalize_quiet a s : quiet (penalize svc env clock a s).
Proof. unfold penalize. frame. Qed.

Lemma failWith_quiet a s m r : quiet (failWith svc clock a s m r).
Proof. unfold failWith. frame. Qed.

#[local] Hint Resolve finishTicket_quiet resolveBoth_quiet penalize_quiet failWith_quiet : frame.

Lemma gate_quiet a : quiet (gate svc clock a).
Proof. unfold gate. frame. Qed.

Lemma claimTicket_quiet a k : quiet (claimTicket fingerprint svc env clock a k).
Proof. unfold claimTicket. frame. Qed.

Lemma transportFailure_quiet a e c : quiet (transportFailure svc env clock a e c).
Proof. unfold transportFailure. frame. Qed.

Lemma httpFailure_quiet a k t r : quiet (httpFailure a k t r).
Proof. unfold Upstream.httpFailure. frame. Qed.

Lemma badBody_quiet a m : quiet (badBody svc env clock a m).
Proof. unfold badBody. frame. Qed.

Lemma abandonStream_quiet a : quiet (abandonStream svc env clock a).
Proof. unfold abandonStream. frame. Qed.

(** The stages of a served response: nothing sent, the trace stamped, the
    status committed. *)
Definition unsent (c : responseWriter * option string) : Prop := rw_statuses c.1 = [].
Definition stamped (o : option string) : Prop := o = None \/ o = Some outcomeServed.
Definition announced (c : responseWriter * option string) : Prop := rw_statuses c.1 = [] /\ stamped c.2.
Definition committed (c : responseWriter * option string) : Prop := rw_statuses c.1 = [200] /\ stamped c.2.

Lemma leads_onWriter f (P Q : responseWriter * option string -> Prop) :
  (forall x o, P (x, o) -> Q (f x, o)) -> leads (fun w => P (client w)) (onWriter f) (fun _ w => Q (client w)).
Proof. intros H w Hw. by apply H. Qed.

Lemma leads_served m i : leads (fun w => unsent (client w)) (onTrace (fmap (recordServed m i))) (fun _ w => announced (client w)).
Proof. intros w Hw. split; [done|]. unfold stamped. simpl. destruct (w_trace w); simpl; auto. Qed.

Lemma WriteHeader_commits x o : announced (x, o) -> committed (WriteHeader 200 x, o).
Proof. intros [Hx Ho]. split; [|done]. unfold WriteHeader. simpl in *. by rewrite Hx. Qed.

(** Past a step that the client does not see. *)
Ltac pass P := eapply leads_bind; [apply (leads_keeps client P); frame|intros ?].

Lemma serveStream_commits a r reads :
  rs_status r = 200 ->
  leads (fun w => unsent (client w)) (serveStream encodeView svc env traceFull clock a r reads) (fun res w => res = None /\ committed (client w)).
Proof.
  intros Hr. unfold serveStream. eapply leads_bind; [apply leads_served|intros ?]. pass announced.
  eapply leads_bind; [apply (leads_onWriter _ announced announced); done|intros ?].
  eapply leads_bind; [apply (leads_onWriter _ announced committed); intros x o Hx; unfold streamProxyResponse; rewrite Hr; by apply WriteHeader_commits|intros ?].
  pass committed. cbv zeta. destruct (streamCopy _ _ _ _ _) as [s o].
  eapply leads_bind; [apply (leads_onWriter _ committed committed); intros x o' [Hx Ho]; split; [simpl in *; by rewrite Hx|done]|intros ?].
  pass committed. pass committed. by apply leads_ret.
Qed.

Lemma serveBuffered_commits a k t r body :
  rs_status r = 200 ->
  leads (fun w => unsent (client w))
    (serveBuffered fingerprint ParseTime ParseDuration decodeError encodeView transformResponse svc env traceFull clock a k t r body)
    (fun _ w => committed (client w)).
Proof.
  intros Hr. unfold serveBuffered. pass unsent. pass unsent. pass unsent. pass unsent. cbv zeta.
  eapply leads_bind; [apply leads_served|intros ?]. pass announced.
  eapply leads_bind; [apply (leads_onWriter _ announced announced); done|intros ?].
  apply (leads_onWriter _ announced committed). intros x o Hx. unfold writeProxyResponse. cbv zeta. rewrite Hr.
  match goal with |- committed (Write _ (WriteHeader 200 ?y), o) => destruct (WriteHeader_commits y o Hx) as [H1 H2] end.
  split; [simpl in *; by rewrite H1|done].
Qed.

(** The errors of an attempt never carry the status of a success. *)
Definition notOK (e : goError) : Prop := match e with EAttempt a => StatusCode a <> 200 | EOther _ => True end.

Definition oneAnswer (c : responseWriter * option string) (res : option goError) (w' : world) : Prop :=
  match res with Some e => client w' = c /\ notOK e | None => committed (client w') end.

Lemma oneAnswer_error {A} c (m : prog A) (f : A -> goError) w :
  keeps client m -> (forall w, notOK (f (m w).2)) -> client w = c -> treePost reserving (oneAnswer c) (runProg (e <- m ;; ret (Some (f e))) finish w).
Proof. intros Hm Hf <-. apply treePost_run. simpl. specialize (Hm w). specialize (Hf w). unfold bind. destruct (m w). by simpl in *. Qed.

Lemma reserving_client w w' : reserving w w' -> client w' = client w.
Proof. intros (H1 & _ & H3). unfold client. by rewrite H1, H3. Qed.

Lemma oneAnswer_stream c a k t start r w :
  rs_status r = 200 -> unsent c -> client w = c ->
  treePost reserving (oneAnswer c) (streamBranch fingerprint ParseTime ParseDuration decodeError encodeView svc env traceFull clock a k t start r w).
Proof.
  intros Hr Hx Hw. unfold streamBranch. apply treePost_run.
  assert (Hq : forall A (m : prog A) w, keeps client m -> client w = c -> client (m w).1 = c) by (intros A m w1 Hm <-; apply Hm).
  assert (Hserve : forall (m : prog unit) reads w, keeps client m -> client w = c ->
    treePost reserving (oneAnswer c) (runProg (m ;; serveStream encodeView svc env traceFull clock a r reads) finish w)).
  { intros m reads w1 Hm H1. apply treePost_run. simpl.
    destruct (leads_bind (fun w => unsent (client w)) m _ _ _ (leads_keeps client unsent m Hm) (fun _ => serveStream_commits a r reads Hr) w1) as [E1 E2];
      [by rewrite H1|]. by rewrite E1. }
  set (w1 := (_ w).1). assert (H1 : client w1 = c) by (apply Hq; [frame|done]).
  destruct (0 <? streamFirstEventTimeout env), (negb (LastInChain a)); simpl; try (apply (Hserve (ret tt)); [apply keeps_ret|done]).
  destruct (awaitFirstStreamEvent _ _) as [[reader gotEvent] timedOut]. apply treePost_run.
  set (w2 := (_ w1).1). assert (H2 : client w2 = c) by (apply Hq; [frame|done]).
  destruct timedOut; [|apply Hserve; [frame|done]]. intros w3 ok H3%reserving_client. rewrite H2 in H3.
  destruct ok; [|apply Hserve; [frame|done]]. apply treePost_run.
  change (client (abandonStream svc env clock a w3).1 = c /\ 503 <> 200). by rewrite abandonStream_quiet.
Qed.

Lemma badBody_status a m w : StatusCode (badBody svc env clock a m w).2 <> 200.
Proof. done. Qed.

Lemma oneAnswer_buffered c a k t r w :
  rs_status r = 200 -> unsent c -> client w = c ->
  treePost reserving (oneAnswer c)
    (runProg (bufferedBranch fingerprint ParseTime ParseDuration decodeError encodeView transformResponse svc env traceFull clock a k t r) finish w).
Proof.
  intros Hr Hx Hw. unfold bufferedBranch. destruct (readAll _ _) as [body failed]. cbv zeta.
  assert (Hbad : forall m, treePost reserving (oneAnswer c)
    (runProg (e <- badBody svc env clock a m ;; finishTicket t a k true false ;; ret (Some (EAttempt e))) finish w)).
  { intros m. assert (Hq : keeps client (e <- badBody svc env clock a m ;; finishTicket t a k true false ;; ret e)) by frame.
    specialize (Hq w). pose proof (badBody_status a m w) as Hs. apply treePost_run. unfold bind in *.
    destruct (badBody _ _ _ _ _ w) as [w1 e], (finishTicket _ _ _ _ _ w1). simpl in *. split; [congruence|done]. }
  destruct failed; [apply Hbad|]. destruct (maxResponseBytes env <? _); [apply Hbad|].
  apply treePost_run. pose proof (serveBuffered_commits a k t r body Hr w) as H. simpl in *.
  unfold bind. destruct (serveBuffered _ _ _ _ _ _ _ _ _ _ _ _ _ _ _ w) as [w' []]. simpl in *. apply H. by rewrite Hw.
Qed.

(** Past a step whose effect does not matter. *)
Ltac ignore := apply (leads_bind (fun _ => True) _ (fun _ _ => True)); [done|intros ?].

Lemma transportFailure_status a err ctx w : StatusCode (transportFailure svc env clock a err ctx w).2 <> 200.
Proof.
  assert (H : leads (fun _ => True) (transportFailure svc env clock a err ctx) (fun e _ => StatusCode e <> 200)); [|by apply H].
  unfold transportFailure. destruct ctx; repeat ignore; apply leads_ret; intros _ _; try done; simpl; unfold ClassifyTransportError; by case_match.
Qed.

Lemma ClassifyHTTPStatus_status s : s <> 200 -> (ClassifyHTTPStatus s).1.1 <> 200.
Proof. intros H. unfold ClassifyHTTPStatus. by repeat case_match. Qed.

Lemma httpError_status a status body b d : status <> 200 -> StatusCode (httpError decodeRelayed a status body b d) <> 200.
Proof.
  intros H. unfold httpError, classifyHTTPError. pose proof (ClassifyHTTPStatus_status status H) as Hs.
  by destruct (ClassifyHTTPStatus status) as [[s e] r].
Qed.

Lemma httpFailure_status a k t r w : rs_status r <> 200 -> StatusCode (httpFailure a k t r w).2 <> 200.
Proof.
  intros Hr. assert (H : leads (fun _ => True) (httpFailure a k t r) (fun e _ => StatusCode e <> 200)); [|by apply H].
  unfold Upstream.httpFailure. cbv zeta. repeat ignore. apply leads_ret. intros _ _. by apply httpError_status.
Qed.

Lemma oneAnswer_send c a k t req w :
  unsent c -> client w = c ->
  treePost reserving (oneAnswer c)
    (sendAttempt fingerprint ParseTime ParseDuration decodeError decodeRelayed encodeView transformResponse svc env traceFull clock reply a k t req w).
Proof.
  intros Hx Hw. unfold sendAttempt. apply treePost_run. set (w1 := (_ w).1).
  assert (H1 : client w1 = c) by (rewrite <- Hw; by apply (leads_keeps client (fun y => y = client w) _); [frame|]).
  destruct (reply a req) as [err ctx|r].
  - assert (Hq : keeps client (e <- transportFailure svc env clock a err ctx ;; finishTicket t a k true false ;; ret e))
      by (apply keeps_bind; [apply transportFailure_quiet|frame]).
    specialize (Hq w1). pose proof (transportFailure_status a err ctx w1) as Hs. apply treePost_run. unfold bind in *.
    destruct (transportFailure _ _ _ _ _ _ w1) as [w2 e], (finishTicket _ _ _ _ _ w2). simpl in *. split; [congruence|done].
  - destruct (Z.eqb_spec (rs_status r) 200) as [Hr|Hr]; simpl; [|apply oneAnswer_error; [apply httpFailure_quiet|intros w2; by apply httpFailure_status|done]].
    destruct (isEventStream _); [by apply oneAnswer_stream|by apply oneAnswer_buffered].
Qed.

Lemma gate_status a w e : (gate svc clock a w).2 = Some e -> StatusCode e <> 200.
Proof.
  unfold gate, bind. cbn -[tryStartProvider tryStartAttempt]. unfold onBreakersR.
  destruct (tryStartProvider _ _ _ _ _) as [st1 ok1]. cbn -[tryStartAttempt]. destruct ok1; cbn -[tryStartAttempt]; [|by intros [= <-]].
  destruct (tryStartAttempt _ _ _ _ _) as [st2 ok2]. cbn. destruct ok2; cbn; [done|by intros [= <-]].
Qed.

Lemma exec_oneAnswer a w : unsent (client w) -> treePost reserving (oneAnswer (client w)) (exec a w).
Proof.
  intros Hx. unfold executeAttempt.
  destruct (providerCredential _ _ _ _ _) as [key configured]. destruct (negb configured); [done|]. cbv zeta.
  set (a' := withEstimate _ _ _). apply treePost_run. set (w1 := (_ w).1). pose proof (gate_status a' w) as Hgs.
  assert (H1 : client w1 = client w) by apply gate_quiet. rewrite <- H1 in Hx.
  destruct (gate _ _ _ w).2 as [e|]; [|destruct (buildRequest _ _ _ _ _) as [err|req]].
  - apply (oneAnswer_error _ _ (fun _ => EAttempt e)); [apply finishTicket_quiet|intros _; by apply Hgs|done].
  - assert (Hq : keeps client (resolveBoth svc a' ;; finishTicket (att_QuotaTicket a') a' key false false)) by frame.
    specialize (Hq w1). apply treePost_run. unfold bind in *. destruct (resolveBoth _ _ w1) as [w2 []], (finishTicket _ _ _ _ _ w2). simpl in *.
    split; [congruence|]. unfold ClassifyTransportError. by case_match.
  - apply treePost_run. set (w2 := (_ w1).1). assert (H2 : client w2 = client w1) by apply claimTicket_quiet. rewrite <- H2 in Hx.
    rewrite <- H1, <- H2. destruct (claimTicket _ _ _ _ _ _ w1).2 as [t|]; [by apply oneAnswer_send|].
    apply (oneAnswer_error _ _ (fun _ => _)); [apply resolveBoth_quiet|done|done].
Qed.

(** C28: an attempt answers the client at most once, and exactly when it
    succeeds.  Whatever the upstream does and however the loop answers its
    reservations, an attempt that returns an error has written nothing, not
    even a header, so the next attempt can still answer, and its error is no
    success status; an attempt that returns without error has committed a 200
    response, and the decision trace, if there is one, says so. *)
Theorem attempt_commits_once a w :
  rw_statuses (w_writer w) = [] ->
  treePost reserving (fun res w' => match res with
                                    | Some e => w_writer w' = w_writer w /\ notOK e
                                    | None => rw_statuses (w_writer w') = [200] /\ forall t, w_trace w' = Some t -> tr_Outcome t = outcomeServed
                                    end) (exec a w).
Proof.
  intros Hx. pose proof (exec_oneAnswer a w Hx) as H. revert H. generalize (exec a w) as t. clear Hx.
  induction t as [w' res|w' k IH]; simpl.
  - intros H. destruct res as [e|]; [destruct H as [H1 H2]; split; [by injection H1|done]|]. destruct H as [H1 H2]. split; [done|].
    intros t Ht. unfold stamped, client in H2. rewrite Ht in H2. simpl in H2. destruct H2 as [H2|H2]; congruence.
  - intros H w2 ok Hr. apply IH, H, Hr.
Qed.
End writer.

(** ** The probes are given back *)

Definition probeFree (o : option modelBreakerState) : Prop :=
  match o with Some s => ProbeUntil s = 0 | None => True end.

Section probes.
Context (a : modelAttempt).

Definition modelFree (st : RouterState) : Prop := probeFree (modelState svc st a).
Definition providerFree (st : RouterState) : Prop := probeFree (providerBreakers st !! Provider a).
Definition bothFree (st : RouterState) : Prop := modelFree st /\ providerFree st.

(** What each update of the breakers does to the two claims of this attempt. *)
Lemma modelFree_set st s : ProbeUntil s = 0 -> modelFree (set_modelBreakers (<[breakerKey svc a := s]> (modelBreakers st)) st).
Proof. intros H. unfold modelFree, modelState. simpl. by rewrite lookup_insert_eq. Qed.

Lemma providerFree_set st s : ProbeUntil s = 0 -> providerFree (set_providerBreakers (<[Provider a := s]> (providerBreakers st)) st).
Proof. intros H. unfold providerFree. simpl. by rewrite lookup_insert_eq. Qed.

Lemma failModel_ProbeUntil status m ra t1 t2 t3 s : ProbeUntil (failModel svc a status m ra t1 t2 t3 s) = 0.
Proof. unfold failModel. case_match; [by rewrite openFor_ProbeUntil|done]. Qed.

Lemma recordFailure_frees status m ra t1 t2 t3 st : modelFree (recordFailure svc a status m ra t1 t2 t3 st).
Proof. apply modelFree_set, failModel_ProbeUntil. Qed.

Lemma resolveProbe_frees st : modelFree (resolveProbe svc a st).
Proof. by apply modelFree_set. Qed.

Lemma penalizeScore_frees status t st : modelFree (penalizeScore svc env a status t st).
Proof.
  unfold penalizeScore, countScoredAttempt. unfold modelFree, modelState. simpl. rewrite lookup_insert_eq. simpl.
  unfold applyScoreFailure, set_Score. by repeat case_match.
Qed.

Lemma recordSuccess_frees t st : modelFree (recordSuccess svc env a t st).
Proof.
  unfold recordSuccess, countScoredAttempt, modelFree, modelState. simpl. rewrite lookup_insert_eq. simpl.
  unfold applyScoreSuccess, set_Score. by repeat case_match.
Qed.

Lemma resolveProviderProbe_frees st : providerFree (resolveProviderProbe (Provider a) st).
Proof.
  unfold resolveProviderProbe. destruct (providerBreakers st !! Provider a) eqn:E; [by apply providerFree_set|].
  unfold providerFree. by rewrite E.
Qed.

Lemma resolveProviderSuccess_frees st : providerFree (resolveProviderSuccess (Provider a) st).
Proof. by apply providerFree_set. Qed.

Lemma recordProviderFailure_frees status m now_ ra t st : providerFree (recordProviderFailure svc a status m now_ ra t st).
Proof. apply providerFree_set. case_match; [by rewrite openFor_ProbeUntil|done]. Qed.

Lemma resolveProviderProbe_model st : modelFree st -> modelFree (resolveProviderProbe (Provider a) st).
Proof. unfold resolveProviderProbe. by case_match. Qed.

(** The programs: what they establish, and what they leave alone. *)
#[local] Abbreviation mfree := (fun w => modelFree (w_breakers w)).
#[local] Abbreviation both := (fun w => bothFree (w_breakers w)).
#[local] Abbreviation any := (fun _ : world => True).

Lemma leads_any {A} (m : prog A) : leads any m (fun _ => any).
Proof. done. Qed.

Lemma leads_breaker_op f (P Q : RouterState -> Prop) :
  (forall st, P st -> Q (f st)) -> leads (fun w => P (w_breakers w)) (onBreakers f) (fun _ w => Q (w_breakers w)).
Proof. apply leads_breakers. Qed.

Lemma leads_then {A B} P (m : prog A) (R : world -> Prop) (k : A -> prog B) Q :
  leads P m (fun _ => R) -> (forall x, leads R (k x) Q) -> leads P (bind m k) Q.
Proof. intros Hm Hk. by apply (leads_bind P m (fun _ => R) k Q). Qed.

Lemma free_provider_op : leads mfree (onBreakers (resolveProviderProbe (Provider a))) (fun _ => both).
Proof. apply (leads_breaker_op _ modelFree bothFree). intros st H. split; [by apply resolveProviderProbe_model|apply resolveProviderProbe_frees]. Qed.

Lemma resolveBoth_frees : leads any (resolveBoth svc a) (fun _ => both).
Proof.
  unfold resolveBoth. apply (leads_then _ _ mfree); [|intros _; apply free_provider_op].
  intros w _. apply resolveProbe_frees.
Qed.

Lemma penalize_frees status : leads any (penalize svc env clock a status) (fun _ => mfree).
Proof. intros w _. apply penalizeScore_frees. Qed.

Lemma failWith_frees status m ra : leads any (failWith svc clock a status m ra) (fun _ => mfree).
Proof. intros w _. apply recordFailure_frees. Qed.

Lemma bothFree_dirty st : bothFree st -> bothFree (markScoresDirty st).
Proof. done. Qed.

(** A program that leaves the breakers alone, or only marks them dirty. *)
Definition inert {A} (m : prog A) : Prop := leads both m (fun _ => both).

Lemma inert_keeps {A} (m : prog A) : keeps w_breakers m -> inert m.
Proof. apply (leads_keeps w_breakers bothFree). Qed.

Lemma inert_bind {A B} (m : prog A) (k : A -> prog B) : inert m -> (forall x, inert (k x)) -> inert (bind m k).
Proof. apply leads_then. Qed.

Lemma settle_inert t b c s h body n : inert (settle t b c s h body n).
Proof.
  unfold Upstream.settle. apply inert_bind; [apply inert_keeps; frame|intros ?]. apply inert_bind; [apply inert_keeps; frame|intros ?].
  apply inert_bind; [apply inert_keeps; frame|intros res]. apply inert_bind; [|intros; apply inert_keeps; frame].
  apply leads_if; [by apply leads_breakers|apply inert_keeps; frame].
Qed.

Lemma finishTicket_inert t b c s1 s2 : inert (finishTicket t b c s1 s2).
Proof.
  unfold Upstream.finishTicket. repeat apply leads_if; [apply inert_keeps; frame|apply inert_keeps; frame|].
  apply inert_bind; [apply settle_inert|intros; apply inert_keeps; frame].
Qed.

Lemma transportFailure_frees err ctx : leads any (transportFailure svc env clock a err ctx) (fun _ => both).
Proof.
  unfold transportFailure. destruct ctx; try (apply (leads_then _ _ both); [apply resolveBoth_frees|intros; by apply leads_ret]);
    (apply (leads_then _ _ any); [done|intros _]; apply (leads_then _ _ mfree); [apply penalize_frees|intros _];
     apply (leads_then _ _ mfree); [apply leads_if; [by eapply leads_weaken, failWith_frees|by apply leads_ret]|intros _];
     apply (leads_then _ _ both); [apply free_provider_op|intros; by apply leads_ret]).
Qed.

Lemma badBody_frees m : leads any (badBody svc env clock a m) (fun _ => both).
Proof.
  unfold badBody. apply (leads_then _ _ any); [done|intros _]. apply (leads_then _ _ mfree); [apply failWith_frees|intros _].
  apply (leads_then _ _ both); [apply free_provider_op|intros; by apply leads_ret].
Qed.

Lemma httpFailure_frees k t r : leads any (httpFailure a k t r) (fun _ => both).
Proof.
  unfold Upstream.httpFailure. cbv zeta. apply (leads_then _ _ any); [done|intros t1]. apply (leads_then _ _ any); [done|intros obs].
  apply (leads_then _ _ any); [done|intros cooldown]. apply (leads_then _ _ any); [done|intros _]. apply (leads_then _ _ any); [done|intros _].
  set (e := httpError _ _ _ _ _ _). set (nonModel := nonModelFailure _ _ _).
  set (counted := BreakerEligible e && negb nonModel).
  replace (nonModel || negb (BreakerEligible e)) with (negb counted) by (unfold counted; by destruct (BreakerEligible e), nonModel).
  apply (leads_then _ _ (fun w => if counted then modelFree (w_breakers w) else True)).
  { destruct counted; [apply failWith_frees|done]. }
  intros _. apply (leads_then _ _ (fun w => (if counted then modelFree (w_breakers w) else True) /\ providerFree (w_breakers w))).
  { apply leads_if.
    - intros w Hw. split; [by destruct counted|apply recordProviderFailure_frees].
    - intros w Hw. split; [destruct counted; [by apply resolveProviderProbe_model|done]|apply resolveProviderProbe_frees]. }
  intros _. apply (leads_then _ _ both); [|intros; by apply leads_ret].
  destruct counted; [by apply leads_ret|]. intros w [_ Hw]. split; [apply resolveProbe_frees|done].
Qed.

Lemma serveStream_frees r reads : leads both (serveStream encodeView svc env traceFull clock a r reads) (fun _ => both).
Proof.
  unfold serveStream. do 5 (apply inert_bind; [apply inert_keeps; frame|intros ?]). cbv zeta. destruct (streamCopy _ _ _ _ _) as [s o].
  do 2 (apply inert_bind; [apply inert_keeps; frame|intros _]). apply inert_bind; [|intros _; by apply leads_ret].
  destruct (decide _).
  - intros w _. split; [apply (recordSuccess_frees (clock (w_tick w)))|apply resolveProviderSuccess_frees].
  - apply leads_if; [|by apply leads_ret]. apply (leads_then _ _ any); [done|intros _]. apply (leads_then _ _ mfree); [apply failWith_frees|intros _].
    apply free_provider_op.
Qed.

Lemma serveBuffered_frees k t r body :
  leads any (serveBuffered fingerprint ParseTime ParseDuration decodeError encodeView transformResponse svc env traceFull clock a k t r body) (fun _ => both).
Proof.
  unfold serveBuffered. apply (leads_then _ _ any); [done|intros _]. apply (leads_then _ _ any); [done|intros now_].
  apply (leads_then _ _ mfree); [intros w _; apply recordSuccess_frees|intros _].
  apply (leads_then _ _ both); [intros w Hw; split; [done|apply resolveProviderSuccess_frees]|intros _]. cbv zeta.
  do 3 (apply inert_bind; [apply inert_keeps; frame|intros ?]). apply inert_keeps. frame.
Qed.

#[local] Abbreviation released := (fun (_ : option goError) w => bothFree (w_breakers w)).

Lemma released_run {A} P (m : prog A) f w :
  leads P m (fun _ => both) -> P w -> treePost reserving released (runProg (x <- m ;; ret (f x)) finish w).
Proof. intros Hm Hw. apply treePost_run. specialize (Hm w Hw). unfold bind. by destruct (m w). Qed.

Lemma released_stream k t start r w :
  treePost reserving released (streamBranch fingerprint ParseTime ParseDuration decodeError encodeView svc env traceFull clock a k t start r w).
Proof.
  unfold streamBranch. apply treePost_run. set (w1 := (_ w).1).
  assert (H1 : both w1) by (apply (leads_then any _ any _ (fun _ => both)); [done|intros; apply resolveBoth_frees|done]).
  assert (Hserve : forall (m : prog unit) reads w, inert m -> both w ->
    treePost reserving released (runProg (m ;; serveStream encodeView svc env traceFull clock a r reads) finish w)).
  { intros m reads w2 Hm H2. apply treePost_run. apply (inert_bind m (fun _ => serveStream encodeView svc env traceFull clock a r reads)); [done| |done].
    intros _. apply serveStream_frees. }
  destruct (0 <? streamFirstEventTimeout env), (negb (LastInChain a)); simpl; try (apply (Hserve (ret tt)); [by apply leads_ret|done]).
  destruct (awaitFirstStreamEvent _ _) as [[reader gotEvent] timedOut]. apply treePost_run. set (w2 := (_ w1).1).
  assert (H2 : both w2) by (apply (inert_keeps (A := unit)); [frame|done]).
  assert (Hg : inert (if gotEvent : bool then t <- now clock ;; onCounters (fun k => mkCounters (rc_count k) (rc_firstEvent k)
                            (recordFirstTokenLatency svc a (time_Sub t start) (rc_firstToken k))) else ret tt)) by (apply inert_keeps; frame).
  destruct timedOut; [|by apply Hserve]. intros w3 ok (_ & H3 & _).
  assert (H3' : both w3) by (by rewrite H3). destruct ok; [|by apply Hserve].
  unfold abandonStream. apply treePost_run.
  apply (leads_bind both _ (fun _ => both) _ (fun _ => both)); [|intros; apply inert_bind; [apply inert_keeps; frame|intros; by apply leads_ret]|done].
  intros w4 [_ H4]. split; [apply penalizeScore_frees|done].
Qed.

Lemma released_buffered k t r w :
  treePost reserving released
    (runProg (bufferedBranch fingerprint ParseTime ParseDuration decodeError encodeView transformResponse svc env traceFull clock a k t r) finish w).
Proof.
  unfold bufferedBranch. destruct (readAll _ _) as [body failed]. cbv zeta.
  assert (Hbad : forall m, treePost reserving released
    (runProg (e <- badBody svc env clock a m ;; finishTicket t a k true false ;; ret (Some (EAttempt e))) finish w)).
  { intros m. apply treePost_run. apply (leads_then any _ both _ (fun _ => both)); [apply badBody_frees| |done].
    intros. apply inert_bind; [apply finishTicket_inert|intros; by apply leads_ret]. }
  destruct failed; [apply Hbad|]. destruct (maxResponseBytes env <? _); [apply Hbad|].
  apply (released_run any _ (fun _ => None)); [apply serveBuffered_frees|done].
Qed.
End probes.

Lemma bothFree_estimate a st : bothFree (withEstimate env wireEstimate a) st <-> bothFree a st.
Proof. unfold withEstimate. by case_match. Qed.

(** A refused gate has claimed nothing. *)
Lemma gate_refused a w e :
  (gate svc clock a w).2 = Some e ->
  modelBreakers (w_breakers (gate svc clock a w).1) = modelBreakers (w_breakers w) /\
  (providerBreakers (w_breakers (gate svc clock a w).1) = providerBreakers (w_breakers w) \/ providerFree a (w_breakers (gate svc clock a w).1)).
Proof.
  unfold gate, bind, now, onBreakersR. cbn -[tryStartProvider tryStartAttempt].
  destruct (tryStartProvider svc a _ _ (w_breakers w)) as [st1 ok1] eqn:E1. cbn -[tryStartProvider tryStartAttempt].
  assert (H1 : modelBreakers st1 = modelBreakers (w_breakers w) /\ (ok1 = false -> st1 = w_breakers w)).
  { unfold tryStartProvider, tryStartProvider_write, gateRead, gateClaim in E1. repeat (case_match; simplify_eq/=; try done). }
  destruct H1 as [Hm Hp]. destruct ok1; cbn -[tryStartProvider tryStartAttempt]; [|intros _; rewrite Hp by done; auto].
  destruct (tryStartAttempt svc a _ _ st1) as [st2 ok2] eqn:E2. destruct ok2; [done|]. intros _. simpl.
  assert (H2 : st2 = st1) by (unfold tryStartAttempt, tryStartAttempt_write, gateRead, gateClaim in E2; repeat (case_match; simplify_eq/=; try done)).
  subst st2. split; [unfold resolveProviderProbe; by case_match|right; apply resolveProviderProbe_frees].
Qed.

(** An attempt never leaks a half-open probe.  If its gates let it
    through, then on every path (a bad target, no quota, a cancelled or failed
    transport, any error status, an abandoned, broken or completed stream, a
    truncated, oversized or good body) the probe claims on its model and its
    provider are released when it returns; if a gate refused it, it leaves the
    model circuits as they were and holds no claim on the provider. *)
Theorem attempt_releases_probes a w :
  (providerCredential (Some svc) cr cx a apiKey).2 = true ->
  treePost reserving (fun _ w' =>
    match (gate svc clock (withEstimate env wireEstimate a) w).2 with
    | None => bothFree a (w_breakers w')
    | Some _ => modelBreakers (w_breakers w') = modelBreakers (w_breakers w) /\
        (providerBreakers (w_breakers w') = providerBreakers (w_breakers w) \/ providerFree a (w_breakers w'))
    end) (exec a w).
Proof.
  intros Hc. unfold executeAttempt. destruct (providerCredential _ _ _ _ _) as [key configured]. simpl in Hc. subst configured. cbv zeta. cbn [negb].
  set (a' := withEstimate _ _ _). assert (Hp : Provider a' = Provider a) by (unfold a', withEstimate; by case_match).
  apply treePost_run. destruct (gate svc clock a' w).2 as [e|] eqn:Hg.
  - destruct (gate_refused a' w e Hg) as [Hm Hpr]. unfold providerFree in Hpr |- *. rewrite Hp in Hpr. apply treePost_run. simpl.
    assert (Hq : keeps w_breakers (finishTicket (att_QuotaTicket a') a' key false false)) by (unfold Upstream.finishTicket; frame).
    specialize (Hq (gate svc clock a' w).1). unfold bind. destruct (finishTicket _ _ _ _ _ _). simpl in *. by rewrite Hq.
  - set (w1 := (gate svc clock a' w).1).
    assert (Hgoal : forall t, treePost reserving (fun _ w' => bothFree a' (w_breakers w')) t -> treePost reserving (fun _ w' => bothFree a (w_breakers w')) t).
    { induction t as [w2 res|w2 k IH]; simpl; [apply bothFree_estimate|]. intros H w3 ok H3. by apply IH, H. }
    apply Hgoal. destruct (buildRequest _ _ _ _ _) as [err|req].
    + apply treePost_run. simpl.
      apply (leads_then (fun _ => True) _ (fun w => bothFree a' (w_breakers w)) _ (fun _ w => bothFree a' (w_breakers w)));
        [apply resolveBoth_frees|intros _; apply inert_bind; [apply finishTicket_inert|intros; by apply leads_ret]|done].
    + apply treePost_run. set (w2 := (_ w1).1). destruct (claimTicket _ _ _ _ _ _ w1).2 as [t|].
      2: { by apply (released_run a' (fun _ => True) _ (fun _ => _)); [apply resolveBoth_frees|]. }
      unfold sendAttempt. apply treePost_run. set (w3 := (_ w2).1). destruct (reply a' req) as [err ctx|r].
      * apply treePost_run. simpl.
        apply (leads_then (fun _ => True) _ (fun w => bothFree a' (w_breakers w)) _ (fun _ w => bothFree a' (w_breakers w)));
          [apply transportFailure_frees|intros; apply inert_bind; [apply finishTicket_inert|intros; by apply leads_ret]|done].
      * destruct (negb _); [by apply (released_run a' (fun _ => True)); [apply httpFailure_frees|]|].
        destruct (isEventStream _); [apply released_stream|apply released_buffered].
Qed.

(** ** The ticket is spent *)

Section tickets.
Context (Hclock : forall n, 0 <= clock n).

(** The tickets a ledger has outstanding, with its identity. *)
Definition outstanding : Type := nat * gmap Z quotaTicketState.
Definition outstandingOf (l : QuotaLedger) : outstanding := (lg_id l, lg_tickets l).

(** [T] is outstanding, or will be once the ticket [t] of this ledger is off it. *)
Definition spent (T : outstanding) (l : QuotaLedger) : Prop := kept l /\ outstandingOf l = T.

Definition held (t : QuotaTicket) (T : outstanding) (l : QuotaLedger) : Prop :=
  kept l /\ owns l t = true /\ (lg_id l, delete (tk_id t) (lg_tickets l)) = T.

Definition carries (t : QuotaTicket) (T : outstanding) (l : QuotaLedger) : Prop :=
  if ticket_Valid t then held t T l else spent T l.

Lemma leads_ledger {A} (f : QuotaLedger -> QuotaLedger * A) (P : QuotaLedger -> Prop) (Q : A -> QuotaLedger -> Prop) :
  (forall l, P l -> Q (f l).2 (f l).1) -> leads (fun w => P (w_ledger w)) (onLedger f) (fun x w => Q x (w_ledger w)).
Proof. intros H w Hw. unfold onLedger. specialize (H _ Hw). by destruct (f (w_ledger w)). Qed.

(** Past a step that does not touch the ledger. *)
Ltac skip P := eapply leads_bind; [apply (leads_keeps w_ledger P); frame|intros ?].

Context (a : modelAttempt) (Hr : 0 <= qe_Requests (att_QuotaEstimate a)) (Ht : 0 <= qe_Tokens (att_QuotaEstimate a)).

Lemma settle_spends t T k status h body n :
  leads (fun w => held t T (w_ledger w)) (settle t a k status h body n) (fun _ w => spent T (w_ledger w)).
Proof.
  unfold Upstream.settle. skip (held t T). skip (held t T). eapply leads_bind.
  - apply (leads_ledger _ (held t T) (fun _ => spent T)). intros l (Hk & Ho & <-).
    pose proof (settle_deletes fingerprint ParseTime ParseDuration decodeError t a k status h body n a0 a1 l Hk Ho Hr Ht) as (H1 & H2 & H3).
    destruct (observeAndSettleQuota _ _ _ _ _ _ _ _ _ _ _ _ _ _) as [[l' d] obs]. split; [done|]. unfold outstandingOf. simpl in *. by rewrite H1, H3.
  - intros res. skip (spent T). by apply leads_ret.
Qed.

Lemma Release_spends t T now_ l : held t T l -> spent T (Release t now_ l).1.
Proof.
  intros (Hk & Ho & <-). destruct (Release_deletes t now_ l Hk Ho) as (H1 & H2 & H3). split; [done|]. unfold outstandingOf. by rewrite H1, H3.
Qed.

Lemma held_valid t T l : held t T l -> ticket_Valid t = true.
Proof.
  intros (_ & Ho & _). unfold owns in Ho. apply andb_true_iff in Ho as [Ho%bool_decide_eq_true_1 H]. unfold ticket_Valid. by rewrite Ho.
Qed.

Lemma finishTicket_spends t T k (sent : bool) :
  leads (fun w => carries t T (w_ledger w)) (finishTicket t a k sent false) (fun _ w => spent T (w_ledger w)).
Proof.
  unfold Upstream.finishTicket, carries. rewrite orb_false_r. destruct (ticket_Valid t); cbn [negb]; [|by apply leads_ret].
  destruct sent; cbn [negb].
  - eapply leads_bind; [apply settle_spends|intros; by apply leads_ret].
  - skip (held t T). apply (leads_ledger _ (held t T) (fun _ => spent T)). intros l Hl. by apply Release_spends.
Qed.

Context (He : estimateOK (att_QuotaEstimate a)).

Lemma quotaReservations_id b k e now_ l' rs l :
  quotaReservations fingerprint svc env b k e now_ l = (l', rs) -> lg_id l' = lg_id l.
Proof.
  unfold quotaReservations, Keys. cbv zeta. intros [= <- _]. cbn [lg_id purgeExpiredLocked set_buckets]. unfold ensureBootstrapQuota.
  generalize (bootstrapEntries fingerprint svc env b k now_). intros es. revert l. induction es as [|x es IH]; intros l; [done|].
  cbn [fold_left]. rewrite IH. unfold observeIfUnknown, Snapshot, Observe, putObservation. cbv zeta. repeat (case_match; simplify_eq/=; try done).
Qed.

(** A ticket reserved on the fly is a new one of this ledger. *)
Lemma reserveAll_holds T b k e now_ l :
  estimateOK e -> 0 <= now_ -> spent T l ->
  let '(l1, rs) := quotaReservations fingerprint svc env b k e now_ l in
  let '(l', o) := ReserveAll rs now_ l1 in
  match o with Some t => held t T l' /\ lg_tickets l !! tk_id t = None /\ tk_ledger t = Some (lg_id l) | None => spent T l' end.
Proof.
  intros He' Hn [Hk HT]. rewrite (quotaReservations_purge _ _ _ _ Hn) by done.
  pose proof (tidy_purge now_ l Hk) as Htd. destruct (quotaReservations _ _ _ _ _ _ _ _) as [l1 rs] eqn:E.
  pose proof (quotaReservations_id b k e now_ l1 rs (purgeExpiredLocked now_ l) E) as Hid.
  apply (quotaReservations_spec _ _ _ _ Hn) in E as (_ & [[Hk1 _] _] & H3 & _ & H5); [|done].
  assert (Hk2 : kept (ReserveAll rs now_ l1).1).
  { apply (runLedgerOp_kept l1 (LReserveAll rs now_)); [|done]. apply Forall_forall. intros r Hin. apply H5 in Hin as (_ & _ & -> & _).
    by apply costOf_le, estimateOK_provider. }
  change (lg_id l1 = lg_id l) in Hid. change (lg_tickets l1 = lg_tickets l) in H3.
  destruct (ReserveAll rs now_ l1) as [l2 [t|]] eqn:E2; simpl in Hk2.
  - apply ReserveAll_shape in E2 as (amounts & i & -> & Hi & Hfresh & ->). rewrite H3 in Hfresh. split; [|by rewrite <- Hid].
    unfold held. cbn [tk_id lg_tickets lg_id]. split_and?; [done| |].
    + unfold owns. cbn [tk_ledger tk_id lg_id]. rewrite bool_decide_eq_true_2 by done. by destruct (Z.eqb_spec i 0); [lia|].
    + rewrite delete_insert_id by by rewrite H3. by rewrite H3, Hid.
  - split; [done|]. unfold outstandingOf in *. unfold ReserveAll in E2.
    assert (Hsame : lg_id l2 = lg_id l1 /\ lg_tickets l2 = lg_tickets l1) by (repeat (case_match; simplify_eq/=; try done)).
    destruct Hsame as [-> ->]. by rewrite H3, Hid.
Qed.

Lemma reserve_holds T cooldowns b k e now_ l :
  estimateOK e -> 0 <= now_ -> spent T l ->
  let '(l', o) := reserveFallbackQuota fingerprint svc env cooldowns b k e now_ l in
  match o with Some t => held t T l' /\ lg_tickets l !! tk_id t = None /\ tk_ledger t = Some (lg_id l) | None => spent T l' end.
Proof.
  intros He' Hn HT. unfold reserveFallbackQuota. destruct (negb _); [done|]. pose proof (reserveAll_holds T b k e now_ l He' Hn HT) as H.
  by destruct (quotaReservations _ _ _ _ _ _ _ _).
Qed.

Lemma claimTicket_holds T k :
  leads (fun w => carries (att_QuotaTicket a) T (w_ledger w)) (claimTicket fingerprint svc env clock a k)
    (fun o w => match o with Some t => held t T (w_ledger w) | None => spent T (w_ledger w) end).
Proof.
  unfold claimTicket, carries. destruct (ticket_Valid (att_QuotaTicket a)); [by apply leads_ret|].
  intros w Hw. unfold bind, now, gets, onLedger. cbn.
  pose proof (reserve_holds T (w_cooldowns w) a k _ (clock (w_tick w)) (w_ledger w) He (Hclock _) Hw) as H.
  destruct (reserveFallbackQuota _ _ _ _ _ _ _ _ _) as [l' [t|]]; [apply H|done].
Qed.
(** The ledger where the attempt returns, or asks the loop for the next
    ticket; past that question it does not touch the ledger again. *)
Definition settledBy (T : outstanding) (t : execTree world) : Prop :=
  spent T (w_ledger (treeNow t)) /\
  match t with
  | TRet _ _ => True
  | TReserve _ k => forall w' ok, exists res w'', k w' ok = TRet w'' res /\ w_ledger w'' = w_ledger w'
  end.

Lemma settledBy_run {X} (P : QuotaLedger -> Prop) T (m : prog X) f w :
  leads (fun w => P (w_ledger w)) m (fun _ w => spent T (w_ledger w)) -> P (w_ledger w) -> settledBy T (runProg (x <- m ;; ret (f x)) finish w).
Proof. intros Hm Hw. unfold settledBy, runProg, bind. specialize (Hm w Hw). by destruct (m w). Qed.

Lemma serveStream_ledger b r reads : keeps w_ledger (serveStream encodeView svc env traceFull clock b r reads).
Proof. unfold serveStream, penalize, failWith. frame. Qed.

Lemma abandonStream_ledger b : keeps w_ledger (abandonStream svc env clock b).
Proof. unfold abandonStream, penalize. frame. Qed.

(** A tree that returns without touching the ledger. *)
Definition bystander (w : world) (t : execTree world) : Prop := exists res w', t = TRet w' res /\ w_ledger w' = w_ledger w.

Lemma bystander_run (m : prog (option goError)) w : keeps w_ledger m -> bystander w (runProg m finish w).
Proof. intros Hm. specialize (Hm w). unfold bystander, runProg. destruct (m w) as [w' res]. by exists res, w'. Qed.

Lemma bystander_serve b (m : prog unit) r reads w :
  keeps w_ledger m -> bystander w (runProg (m ;; serveStream encodeView svc env traceFull clock b r reads) finish w).
Proof. intros Hm. apply bystander_run, keeps_bind; [done|intros; apply serveStream_ledger]. Qed.

Lemma settledBy_bystander T w t : spent T (w_ledger w) -> bystander w t -> settledBy T t.
Proof. intros Hw (res & w' & -> & E). split; [|done]. simpl. by rewrite E. Qed.

Lemma settledBy_stream t T k start r w :
  held t T (w_ledger w) ->
  settledBy T (streamBranch fingerprint ParseTime ParseDuration decodeError encodeView svc env traceFull clock a k t start r w).
Proof.
  intros Hw. unfold streamBranch.
  match goal with |- context [runProg ?m ?f w] => assert (H1 : spent T (w_ledger (m w).1)) end.
  { apply (leads_bind _ _ _ (fun _ => resolveBoth svc a) (fun _ w => spent T (w_ledger w)) (settle_spends t T k _ _ _ _)); [|exact Hw].
    intros _. apply (leads_keeps w_ledger (spent T)). unfold resolveBoth. frame. }
  unfold runProg at 1. destruct (bind _ _ w) as [w1 []]. simpl in H1.
  destruct (0 <? streamFirstEventTimeout env), (negb (LastInChain a)); simpl;
    try (apply (settledBy_bystander T w1); [done|apply bystander_run, serveStream_ledger]).
  destruct (awaitFirstStreamEvent _ _) as [[reader gotEvent] timedOut].
  match goal with |- context [runProg ?m ?f w1] => assert (H2 : keeps w_ledger m) by frame end.
  specialize (H2 w1). unfold runProg at 1. destruct (bind _ _ w1) as [w2 []]. simpl in H2. rewrite <- H2 in H1.
  destruct timedOut; [|apply (settledBy_bystander T w2); [done|apply bystander_serve; frame]].
  split; [exact H1|]. intros w3 [|]; [apply bystander_run, abandonStream_ledger|apply bystander_serve; frame].
Qed.

Lemma settledBy_buffered t T k r w :
  held t T (w_ledger w) ->
  settledBy T (runProg (bufferedBranch fingerprint ParseTime ParseDuration decodeError encodeView transformResponse svc env traceFull clock a k t r) finish w).
Proof.
  intros Hw. unfold bufferedBranch. destruct (readAll _ _) as [body failed]. cbv zeta.
  assert (Hc : carries t T (w_ledger w)) by (unfold carries; by rewrite (held_valid t T (w_ledger w) Hw)).
  assert (Hbad : forall m, settledBy T
    (runProg (e <- badBody svc env clock a m ;; finishTicket t a k true false ;; ret (Some (EAttempt e))) finish w)).
  { intros m. split; [|unfold runProg; by destruct (bind _ _ w)]. unfold runProg.
    assert (H : leads (fun w => carries t T (w_ledger w)) (e <- badBody svc env clock a m ;; finishTicket t a k true false ;; ret (Some (EAttempt e))) (fun _ w => spent T (w_ledger w))).
    { unfold badBody, penalize, failWith. skip (carries t T). eapply leads_bind; [apply finishTicket_spends|intros; by apply leads_ret]. }
    specialize (H w Hc). by destruct (bind _ _ w). }
  destruct failed; [apply Hbad|]. destruct (maxResponseBytes env <? _); [apply Hbad|].
  apply (settledBy_run (held t T) T _ (fun _ => None)); [|done]. unfold serveBuffered.
  eapply leads_bind; [apply settle_spends|intros ?]. apply (leads_keeps w_ledger (spent T)). frame.
Qed.

Lemma httpFailure_spends t T k r : leads (fun w => held t T (w_ledger w)) (httpFailure a k t r) (fun _ w => spent T (w_ledger w)).
Proof.
  unfold Upstream.httpFailure. cbv zeta. skip (held t T). eapply leads_bind; [apply settle_spends|intros obs].
  apply (leads_keeps w_ledger (spent T)). unfold resolveBoth, penalize, failWith. frame.
Qed.

Lemma settledBy_send t T k req w :
  held t T (w_ledger w) ->
  settledBy T (sendAttempt fingerprint ParseTime ParseDuration decodeError decodeRelayed encodeView transformResponse svc env traceFull clock reply a k t req w).
Proof.
  intros Hw. unfold sendAttempt.
  match goal with |- context [runProg ?m ?f w] => assert (H1 : keeps w_ledger m) by frame end.
  specialize (H1 w). unfold runProg at 1. destruct (bind _ _ w) as [w1 start]. simpl in H1. rewrite <- H1 in Hw. clear H1 w.
  assert (Hc : carries t T (w_ledger w1)) by (unfold carries; by rewrite (held_valid t T (w_ledger w1) Hw)).
  destruct (reply a req) as [err ctx|r].
  - split; [|unfold runProg; by destruct (bind _ _ w1)]. unfold runProg.
    assert (H : leads (fun w => carries t T (w_ledger w)) (e <- transportFailure svc env clock a err ctx ;; finishTicket t a k true false ;; ret (Some (EAttempt e))) (fun _ w => spent T (w_ledger w))).
    { unfold transportFailure, resolveBoth, penalize, failWith. skip (carries t T). eapply leads_bind; [apply finishTicket_spends|intros; by apply leads_ret]. }
    specialize (H w1 Hc). by destruct (bind _ _ w1).
  - destruct (negb _); [by apply (settledBy_run (held t T)); [apply httpFailure_spends|]|].
    destruct (isEventStream _); [by apply settledBy_stream|by apply settledBy_buffered].
Qed.
End tickets.

Lemma withEstimate_ticket a : att_QuotaTicket (withEstimate env wireEstimate a) = att_QuotaTicket a.
Proof. unfold withEstimate. by case_match. Qed.

Lemma attempt_settles a w T :
  let e := att_QuotaEstimate (withEstimate env wireEstimate a) in
  (forall n, 0 <= clock n) -> (providerCredential (Some svc) cr cx a apiKey).2 = true ->
  0 <= qe_Requests e <= max_int64 -> 0 <= qe_Tokens e <= max_int64 ->
  carries (att_QuotaTicket a) T (w_ledger w) ->
  settledBy T (exec a w).
Proof.
  intros e Hclock Hc [Hr Hr'] [Ht Ht'] Hw. assert (He : estimateOK e) by done. subst e. unfold executeAttempt.
  destruct (providerCredential _ _ _ _ _) as [key configured]. simpl in Hc. subst configured. cbv zeta. cbn [negb].
  rewrite <- (withEstimate_ticket a) in Hw. set (a' := withEstimate _ _ _) in *.
  assert (Hg : keeps w_ledger (gate svc clock a')) by (unfold gate; frame). specialize (Hg w). unfold runProg at 1.
  destruct (gate svc clock a' w) as [w1 gated]. simpl in Hg. rewrite <- Hg in Hw. clear Hg.
  assert (Hend : forall e, settledBy T (runProg (finishTicket (att_QuotaTicket a') a' key false false ;; ret (Some e)) finish w1))
    by (intros e; by apply (settledBy_run (carries (att_QuotaTicket a') T) T _ (fun _ => Some e)); [apply finishTicket_spends|]).
  destruct gated as [e|]; [apply Hend|]. destruct (buildRequest _ _ _ _ _) as [err|req].
  { assert (Hb : keeps w_ledger (resolveBoth svc a')) by (unfold resolveBoth; frame). specialize (Hb w1). unfold runProg, bind at 1.
    destruct (resolveBoth svc a' w1) as [w2 []]. simpl in Hb. rewrite <- Hb in Hw. clear Hend.
    by apply (settledBy_run (carries (att_QuotaTicket a') T) T _ (fun _ => Some _)); [apply finishTicket_spends|]. }
  pose proof (claimTicket_holds Hclock a' He T key w1 Hw) as Hcl. unfold runProg at 1. destruct (claimTicket _ _ _ _ _ _ w1) as [w2 [t|]]; simpl in Hcl.
  - by apply settledBy_send.
  - apply (settledBy_run (spent T) T _ (fun _ => Some _)); [|done]. apply (leads_keeps w_ledger (spent T)). unfold resolveBoth. frame.
Qed.

(** Without a credential the attempt returns before its cleanup is deferred:
    nothing changes, and its ticket is left to the release at the end of the
    chain. *)
Lemma unconfigured_attempt_keeps_ticket a w :
  (providerCredential (Some svc) cr cx a apiKey).2 = false ->
  exec a w = TRet w (Some (EAttempt (softError 503 false ("provider " +:+ Provider a +:+ " is not configured")))).
Proof. intros Hc. unfold executeAttempt. destruct (providerCredential _ _ _ _ _) as [key configured]. simpl in Hc. by subst configured. Qed.

(** C27: an attempt for which there is a credential spends exactly its own
    ticket, once.  On every path the ticket it was given, or the one it reserves
    for itself when it has none, is off the ledger by the time the attempt
    returns or asks the loop for another model's ticket, every other outstanding
    ticket is as it was, and the ledger keeps its invariant; past that question,
    whatever the answer, the attempt returns without touching the ledger again.
    An attempt for which there is none changes nothing at all: it returns an
    error and its ticket is still outstanding, left to the release at the end of
    the chain.  The amounts of the attempt's estimate are amounts of an int64
    that are not negative, and the clock does not show a time before Go's zero
    time. *)
Theorem attempt_settles_own_ticket a w T :
  let e := att_QuotaEstimate (withEstimate env wireEstimate a) in
  (forall n, 0 <= clock n) -> 0 <= qe_Requests e <= max_int64 -> 0 <= qe_Tokens e <= max_int64 ->
  carries (att_QuotaTicket a) T (w_ledger w) ->
  if (providerCredential (Some svc) cr cx a apiKey).2 then settledBy T (exec a w)
  else exists err, exec a w = TRet w (Some (EAttempt err)) /\ StatusCode err = 503 /\ carries (att_QuotaTicket a) T (w_ledger (treeNow (exec a w))).
Proof.
  intros e Hclock Hr Ht Hw. destruct (providerCredential _ _ _ _ _).2 eqn:Hc; [by apply attempt_settles|].
  rewrite unconfigured_attempt_keeps_ticket by done. by eexists.
Qed.
End attempt.

(** ** Witnesses *)

Section witness.
#[local] Abbreviation wit_run reply_ :=
  (executeAttempt (fun c => c) (fun _ => None) (fun _ => None) (fun _ => None) (fun _ => None) (fun _ => "") (fun _ => None) (fun b => b)
     wit_svc ∅ wit_credentials wit_context "key" false (fun _ => "{}") (fun _ => wit_estimate) wit_clock (fun _ _ => reply_)).

Definition wit_world : world :=
  mkWorld wit_ledger (newAffinityStore 0 0) ∅ (mkState ∅ ∅ ∅ ∅ 0 false) zeroCounters None newWriter (newTraceRing 16) 0.

Definition wit_request : modelAttempt := set_Ticket wit_ticket wit_attempt.

Definition wit_good : upstreamReply :=
  RResponse (mkResponse 200 [("Content-Type", ["application/json"])] [mkRead "[]" (Some true)] "" false [] None).
Definition wit_limited : upstreamReply :=
  RResponse (mkResponse 429 [("Retry-After", ["30"])] [mkRead "slow down" (Some true)] "" false [] None).

(** Whether a tree returns without asking the loop, and then whether with success. *)
Definition returned (t : execTree world) : option bool :=
  match t with TRet _ None => Some true | TRet _ (Some _) => Some false | TReserve _ _ => None end.

(** A good answer is committed, a rate limit leaves the writer alone. *)
Lemma attempt_commits_once_witness :
  rw_statuses (w_writer (treeNow (wit_run wit_good wit_request wit_world))) = [200] /\
  w_writer (treeNow (wit_run wit_limited wit_request wit_world)) = newWriter.
Proof.
  pose proof (attempt_commits_once (fun c => c) (fun _ => None) (fun _ => None) (fun _ => None) (fun _ => None) (fun _ => "") (fun _ => None) (fun b => b)
     wit_svc ∅ wit_credentials wit_context "key" false (fun _ => "{}") (fun _ => wit_estimate) wit_clock) as H.
  assert (E1 : returned (wit_run wit_good wit_request wit_world) = Some true) by (vm_compute; reflexivity).
  assert (E2 : returned (wit_run wit_limited wit_request wit_world) = Some false) by (vm_compute; reflexivity).
  pose proof (H (fun _ _ => wit_good) wit_request wit_world eq_refl) as H1. pose proof (H (fun _ _ => wit_limited) wit_request wit_world eq_refl) as H2.
  destruct (wit_run wit_good wit_request wit_world) as [w1 [e1|]|]; [discriminate E1| |discriminate E1].
  destruct (wit_run wit_limited wit_request wit_world) as [w2 [e2|]|]; [|discriminate E2|discriminate E2]. exact (conj (proj1 H1) (proj1 H2)).
Defined.

(** A probe that was claimed and then answered is released. *)
Lemma attempt_releases_probes_witness :
  bothFree wit_svc wit_request (w_breakers (treeNow (wit_run wit_limited wit_request wit_world))).
Proof.
  pose proof (attempt_releases_probes (fun c => c) (fun _ => None) (fun _ => None) (fun _ => None) (fun _ => None) (fun _ => "") (fun _ => None) (fun b => b)
     wit_svc ∅ wit_credentials wit_context "key" false (fun _ => "{}") (fun _ => wit_estimate) wit_clock (fun _ _ => wit_limited) wit_request wit_world
     ltac:(vm_compute; reflexivity)) as H.
  assert (E : returned (wit_run wit_limited wit_request wit_world) = Some false) by (vm_compute; reflexivity).
  assert (G : (gate wit_svc wit_clock (withEstimate ∅ (fun _ => wit_estimate) wit_request) wit_world).2 = None) by (vm_compute; reflexivity).
  rewrite G in H. destruct (wit_run wit_limited wit_request wit_world) as [w [e|]|]; [exact H|discriminate E|discriminate E].
Defined.

(** The ticket of the attempt is the only one, and is gone afterwards. *)
Lemma attempt_settles_own_ticket_witness :
  is_Some (lg_tickets wit_ledger !! 1) /\ lg_tickets (w_ledger (treeNow (wit_run wit_good wit_request wit_world))) = ∅.
Proof.
  assert (Hlive : is_Some (lg_tickets wit_ledger !! 1)) by (apply (bool_decide_eq_true_1 _); vm_compute; reflexivity).
  split; [exact Hlive|].
  pose proof (attempt_settles_own_ticket (fun c => c) (fun _ => None) (fun _ => None) (fun _ => None) (fun _ => None) (fun _ => "") (fun _ => None) (fun b => b)
     wit_svc ∅ wit_credentials wit_context "key" false (fun _ => "{}") (fun _ => wit_estimate) wit_clock (fun _ _ => wit_good) wit_request wit_world (0%nat, ∅)
     ltac:(intros n; unfold wit_clock; lia) ltac:(vm_compute; split; discriminate) ltac:(vm_compute; split; discriminate)) as H.
  assert (Hc : held wit_ticket (0%nat, ∅) wit_ledger).
  { split; [exact (reachable_kept wit_ops 0 wit_ops_int64)|]. split; [vm_compute; reflexivity|]. vm_compute. reflexivity. }
  specialize (H Hc). replace (providerCredential _ _ _ _ _).2 with true in H by (vm_compute; reflexivity). destruct H as [[_ Hs] _]. exact (f_equal snd Hs).
Defined.
End witness.
