(* ===== verification/Planner.v ===== *)
(** * Planner: from a request to its chain (router.go, router_model_attempts.go)

    Which profile a request runs under, which names are refused, and the chain
    of attempts a policy decision plans.  The model policy itself is the
    vendored package cervo-model-policy: its [Select], [ResolveProfileAlias]
    and [ResolveModelAlias] are arguments. *)

From S2P Require Import Prelude Float Types Env Text Breaker Scoring Quota Registry Affinity Admission Fallback.
From S2P Require Import QuotaProviders QuotaPolicy QuotaRouting Health Eligibility TraceRing Trace Stream Errors Http Counters Upstream.
From Stdlib Require Import Lia ZArith Ascii String.
#[local] Open Scope string_scope.
#[local] Open Scope Z_scope.
#[local] Open Scope prog_scope.

(** ** The decision of the policy engine *)

(** What a decision permits; 0 is no bound. *)
Record Limits := mkLimits {
  lim_MaxBodyBytes : Z;
  lim_MaxTokens : Z;
  lim_AllowStream : bool;
  lim_AllowTools : bool;
  lim_AllowImages : bool;
}.

Definition noLimits : Limits := mkLimits 0 0 false false false.

Record policyDecision := mkDecision {
  pd_Allow : bool;
  pd_Target : string;
  pd_Executor : providerID;
  pd_FallbackExecutors : list providerID;
  pd_Reason : string;
  pd_RuleID : string;
  pd_PolicySteps : list policyTraceStep;
  pd_AuditClass : string;
  pd_RequiresAudit : bool;
  pd_Timeout : Z;
  pd_RetryPolicy : RetryPolicy;
  pd_BreakerPolicy : BreakerPolicy;
  pd_Limits : Limits;
}.

Definition defaultPolicyTimeout : Z := 45 * Second.
Definition serviceCervoCore : string := "cervocore".

Definition defaultAllowedDecision : policyDecision :=
  mkDecision true serviceCervoCore providerOpenRouter [] "" "" [] "" false defaultPolicyTimeout
    (mkRetryPolicy 1 [] false false 0 0) (mkBreakerPolicy 3 (60 * Second) true) noLimits.

(** What [Select] returns: the profile and its chain of models. *)
Record modelDecision := mkModelDecision {
  md_Profile : string;
  md_ModelChain : list string;
}.

Section planner.
Context (ResolveProfileAlias : string -> option string) (ResolveModelAlias : string -> string -> string * string).
Context (Select : string -> string -> modelDecision).
Context (svc : RouterStatic).

(** ** Planning *)

Definition planKey (provider : providerID) (model : string) : string := provider +:+ nul +:+ model.

(** One pass of the inner loop; the state is [seen] and [attempts]. *)
Definition planStep (decision : policyDecision) (profile model : string) (acc : gset string * list modelAttempt) (provider : providerID) : gset string * list modelAttempt :=
  let '(seen, attempts) := acc in
  if bool_decide (planKey provider model ∈ seen) then acc
  else ({[planKey provider model]} ∪ seen, (attempts ++ [newAttempt profile model provider (pd_BreakerPolicy decision) ""])%list).

Definition planProviders (decision : policyDecision) : list providerID :=
  if empty_str (pd_Executor decision) then [providerOpenRouter] else pd_Executor decision :: pd_FallbackExecutors decision.

(** No model was asked for by name, or the profile was. *)
Definition unpinned (requestedModel profile : string) : bool :=
  let m := TrimSpace requestedModel in
  empty_str m || EqualFold m "auto" || EqualFold m profile.

Definition Plan (decision : policyDecision) (category requestedModel : string) : list modelAttempt :=
  let md := Select category requestedModel in
  let targets := default [] (providerProfiles svc !! md_Profile md) in
  if (0 <? List.length targets)%nat && unpinned requestedModel (md_Profile md)
  then (fun t => newAttempt (md_Profile md) (tgt_Model t) (tgt_Provider t) (pd_BreakerPolicy decision) "") <$> targets
  else (fold_left (fun acc model => fold_left (planStep decision (md_Profile md) model) (planProviders decision) acc)
          (md_ModelChain md) (∅, [])).2.

(** ** The profile of a request *)

(** The last of the named profiles that resolves wins. *)
Definition override (selected raw : string) : string := default selected (ResolveProfileAlias raw).

Definition determineProfile (idx : capabilityIndex) (classified forced : string) (params headers : list string) (hasImages hasTools : bool) : string :=
  let selected := fold_left override headers (fold_left override params (override classified forced)) in
  let selected := match policy_Profiles svc !! "vision" with
                  | Some chain => if hasImages && visionChainServes idx chain hasTools then "vision" else selected
                  | None => selected
                  end in
  match policy_Profiles svc !! selected with
  | None => policy_DefaultProfile svc
  | Some _ => selected
  end.

(** [strings.SplitN(s, "/", 2)] when it has two parts. *)
Fixpoint cutSlash (s : string) : option (string * string) :=
  match s with
  | EmptyString => None
  | String c rest =>
      if Ascii.eqb c "/"%char then Some ("", rest)
      else match cutSlash rest with Some (a, b) => Some (String c a, b) | None => None end
  end.

Definition resolveModelAlias (category requestedModel : string) : string * string :=
  let pinned :=
    match cutSlash (TrimSpace requestedModel) with
    | Some (prefix, name) =>
        if str_eq (ToLower (TrimSpace prefix)) "calvoproxy" then ResolveProfileAlias name else None
    | None => None
    end in
  match pinned with
  | Some alias => (alias, "auto")
  | None => ResolveModelAlias category requestedModel
  end.

(** ** Unknown names *)

(** The tests that make a name known. *)
Definition knownName (name : string) : bool :=
  empty_str name || Contains name "/" || EqualFold name "auto" ||
  bool_decide (is_Some (ResolveProfileAlias name)) ||
  bool_decide (is_Some (policy_Profiles svc !! name)) ||
  existsb (fun chain => existsb (fun model => EqualFold (TrimSpace model) name) chain) (snd <$> map_to_list (policy_Profiles svc)).

Section reject.
Context (env : environ) (encodeError : string -> string) (quote : string -> string).

Definition unknownProfileMessage (name : string) : string :=
  "unknown profile " +:+ quote name +:+ "; known profiles: " +:+ String.concat ", " (profileNames (policy_Profiles svc)) +:+
  " (pin a specific model with its full vendor/model id)".

Definition rejectUnknownProfile (requestedModel : string) : prog bool :=
  let name := TrimSpace requestedModel in
  if knownName name then ret false
  else
    onCounters (countEvent unknownProfileRejected) ;;
    if negb (envBool env "PROXY_STRICT_PROFILE_NAMES" false) then ret false
    else onWriter (writeJSONError encodeError 404 (unknownProfileMessage name)) ;; ret true.
End reject.
End planner.

(** ** What is planned *)

Section plan_lemmas.
Context (decision : policyDecision) (profile : string).

Definition plannedKey (a : modelAttempt) : string := planKey (Provider a) (Model a).

(** What the loop has planned so far: no pair twice, [seen] its keys, and the
    pairs of [done] up to their first occurrence, in order. *)
Definition planInv (done : list (string * providerID)) (acc : gset string * list modelAttempt) : Prop :=
  acc.1 = list_to_set (plannedKey <$> acc.2) /\ NoDup (plannedKey <$> acc.2) /\
  (forall a, a ∈ acc.2 -> (Model a, Provider a) ∈ done /\ a = newAttempt profile (Model a) (Provider a) (pd_BreakerPolicy decision) "") /\
  (forall m p, (m, p) ∈ done -> planKey p m ∈ (plannedKey <$> acc.2)).

Lemma planStep_inv done model acc provider :
  planInv done acc -> planInv (done ++ [(model, provider)]) (planStep decision profile model acc provider).
Proof.
  destruct acc as [seen attempts]. intros (H1 & H2 & H3 & H4). simpl in *. unfold planStep. case_bool_decide as Hin.
  - split_and!; [done|done| |]; simpl.
    + intros a Ha. destruct (H3 a Ha) as [Hd ->]. split; [apply elem_of_app; by left|done].
    + intros m p [Hd|Hd%list_elem_of_singleton]%elem_of_app; [by apply H4|]. simplify_eq. by apply elem_of_list_to_set in Hin.
  - set (a0 := newAttempt profile model provider (pd_BreakerPolicy decision) "").
    assert (Hk : plannedKey a0 = planKey provider model) by done. split_and!; simpl; rewrite ?fmap_app; simpl.
    + rewrite list_to_set_app_L. simpl. rewrite H1, Hk. set_solver.
    + apply NoDup_app. split_and!; [done| |apply NoDup_singleton]. intros k Hkk Hk2%list_elem_of_singleton. subst k. apply Hin. rewrite H1. by apply elem_of_list_to_set.
    + intros a [Ha|Ha%list_elem_of_singleton]%elem_of_app; [|subst a].
      * destruct (H3 a Ha) as [Hd ->]. split; [apply elem_of_app; by left|done].
      * split; [apply elem_of_app; right; by left|done].
    + intros m p [Hd|Hd%list_elem_of_singleton]%elem_of_app; apply elem_of_app; [left; by apply H4|right; simplify_eq; by left].
Qed.

Lemma planProviders_inv providers model : forall done acc,
  planInv done acc -> planInv (done ++ (pair model <$> providers)) (fold_left (planStep decision profile model) providers acc).
Proof.
  induction providers as [|p ps IH]; intros done acc H; simpl; [by rewrite app_nil_r|].
  replace (done ++ _)%list with ((done ++ [(model, p)]) ++ (pair model <$> ps))%list by by rewrite <- app_assoc.
  by apply IH, planStep_inv.
Qed.

Lemma planModels_inv providers models : forall done acc,
  planInv done acc ->
  planInv (done ++ mjoin ((fun m => pair m <$> providers) <$> models))
    (fold_left (fun acc model => fold_left (planStep decision profile model) providers acc) models acc).
Proof.
  induction models as [|m ms IH]; intros done acc H; simpl; [by rewrite app_nil_r|].
  rewrite app_assoc. by apply IH, planProviders_inv.
Qed.
End plan_lemmas.

(** The planned chain is exactly what the policy allows.  Every attempt
    runs under the selected profile with the decision's breaker policy, no
    ticket and no estimate; with provider targets and no pinned model the chain
    is the profile's targets, in order; otherwise every model of the chain is
    planned on every executor of the decision, no provider-model pair twice
    and no other pair at all. *)
Theorem plan_is_policy_product Select svc decision category requestedModel :
  let md := Select category requestedModel in
  let chain := Plan Select svc decision category requestedModel in
  Forall (fun a => Profile a = md_Profile md /\ att_BreakerPolicy a = pd_BreakerPolicy decision /\
                   att_QuotaTicket a = noTicket /\ att_QuotaEstimate a = zeroEstimate) chain /\
  ((exists targets, providerProfiles svc !! md_Profile md = Some targets /\ targets <> [] /\ unpinned requestedModel (md_Profile md) = true /\
      (fun a => mkTarget (Provider a) (Model a)) <$> chain = targets) \/
   (NoDup (plannedKey <$> chain) /\
    (forall a, a ∈ chain -> Model a ∈ md_ModelChain md /\ Provider a ∈ planProviders decision) /\
    (forall m p, m ∈ md_ModelChain md -> p ∈ planProviders decision -> planKey p m ∈ (plannedKey <$> chain)))).
Proof.
  cbv zeta. unfold Plan. set (md := Select category requestedModel). destruct (_ && _) eqn:E.
  - apply andb_true_iff in E as [E1 E2]. apply Nat.ltb_lt in E1. split.
    { apply Forall_fmap, Forall_true. intros t. done. }
    left. destruct (providerProfiles svc !! md_Profile md) as [targets|]; simpl in *; [|lia]. exists targets. split_and!; [done| |done|].
    + intros ->. simpl in E1. lia.
    + rewrite <- list_fmap_compose. rewrite <- (list_fmap_id targets) at 2. apply list_fmap_ext. by intros ? [? ?] ?.
  - clear E. pose proof (planModels_inv decision (md_Profile md) (planProviders decision) (md_ModelChain md) [] (∅, [])) as H.
    destruct H as (_ & H2 & H3 & H4).
    { split_and!; [done|by apply NoDup_nil| |]; intros; by exfalso; eapply not_elem_of_nil. }
    set (chain := (fold_left _ _ _).2) in *. simpl in H3, H4. split; [|right; split_and!; [done| |]].
    + apply Forall_forall. intros a Ha. by destruct (H3 a Ha) as [_ ->].
    + intros a Ha. destruct (H3 a Ha) as [Hd _]. apply list_elem_of_join in Hd as (l & Hl & (m & -> & Hm)%list_elem_of_fmap).
      apply list_elem_of_fmap in Hl as (p & [= -> ->] & Hp). done.
    + intros m p Hm Hp. apply H4, list_elem_of_join. exists (pair m <$> planProviders decision). split; apply list_elem_of_fmap; eauto.
Qed.

(** A request always gets a configured profile.  Whatever the prompt, the
    path, the query and the headers say, the profile is one of the policy's or
    its default; an image request the vision chain can serve gets that chain;
    and otherwise the last resolvable name wins, the headers after the query,
    the query after the path, the path after the prompt. *)
Theorem profile_is_configured RA svc idx classified forced params headers hasImages hasTools :
  let p := determineProfile RA svc idx classified forced params headers hasImages hasTools in
  (is_Some (policy_Profiles svc !! p) \/ p = policy_DefaultProfile svc) /\
  (forall chain, policy_Profiles svc !! "vision" = Some chain -> hasImages = true -> visionChainServes idx chain hasTools = true -> p = "vision") /\
  (hasImages = false -> forall before raw after name, (forced :: params ++ headers)%list = (before ++ raw :: after)%list ->
     RA raw = Some name -> Forall (fun r => RA r = None) after -> is_Some (policy_Profiles svc !! name) -> p = name).
Proof.
  cbv zeta. unfold determineProfile. rewrite <- fold_left_app. change (fold_left (override RA) (params ++ headers)%list (override RA classified forced)) with (fold_left (override RA) (forced :: params ++ headers)%list classified).
  set (sel := fold_left _ _ _). split_and!.
  - case_match eqn:E; [left; by rewrite E|by right].
  - intros chain Hv -> Hs. rewrite Hv, Hs. simpl. by rewrite Hv.
  - intros -> before raw after name Hl Hr Ha [c Hn].
    assert (Hs : sel = name).
    { subst sel. rewrite Hl, fold_left_app. simpl. unfold override at 2. rewrite Hr. simpl. clear -Ha. induction Ha as [|r after H _ IH]; [done|].
      simpl. unfold override at 2. by rewrite H. }
    rewrite Hs. clear Hs. clearbody sel. destruct (policy_Profiles svc !! "vision"); simpl; by rewrite Hn.
Qed.
