(* ===== verification/Dispatch.v ===== *)
(** * Dispatch: a request through its chain (router.go, router_fallback.go)

    [dispatchChain] plans the chain, drops what cannot serve the request, waits
    for a quota reset when nothing can run now, and hands the rest to the
    fallback loop of [Fallback] with the attempts of [Upstream] as executor.
    The schedule of the request is an argument: the replies of the upstreams,
    the readings of the clock, how each wait for quota ends and whether the
    admission slot is granted again after it, and the state of the request's
    context when the chain has failed. *)

From S2P Require Import Prelude Float Types Env Text Breaker Scoring Quota Registry Affinity Admission Fallback.
From S2P Require Import QuotaProviders QuotaPolicy QuotaRouting Health Eligibility TraceRing Trace Stream Errors Http Counters Upstream Planner.
From Stdlib Require Import Lia ZArith Ascii String.
#[local] Open Scope string_scope.
#[local] Open Scope Z_scope.
#[local] Open Scope prog_scope.

(** ** The chain as programs *)

(** A function of the routing decision, on the service state. *)
Definition routingOf (w : world) : routingState :=
  mkRouting (w_ledger w) (w_affinity w) (w_cooldowns w) (w_breakers w) (rc_firstToken (w_counters w)).

Definition skipTicks (n : nat) : prog unit := fun w =>
  (mkWorld (w_ledger w) (w_affinity w) (w_cooldowns w) (w_breakers w) (w_counters w) (w_trace w) (w_writer w) (w_ring w) (n + w_tick w), tt).

Definition onRouting {A} (f : routingState -> routingState * A) : prog A := fun w =>
  let '(s, a) := f (routingOf w) in
  (mkWorld (ro_ledger s) (ro_affinity s) (ro_cooldowns s) (ro_breakers s)
     (mkCounters (rc_count (w_counters w)) (rc_firstEvent (w_counters w)) (ro_stats s)) (w_trace w) (w_writer w) (w_ring w) (w_tick w), a).

Definition quotaHoldSettle : Z := 150 * Millisecond.

(** The clock between two readings of a request. *)
Definition later (clock : nat -> Z) (k : nat) (n : nat) : Z := clock (k + n)%nat.

Section dispatch.
Context (fingerprint : string -> string) (ParseTime ParseDuration : string -> option Z).
Context (decodeError : string -> option (Z * list (string * string) * string)) (decodeRelayed : string -> option (string * string)).
Context (encodeView : traceView -> string) (encodeError : string -> string) (badURL : string -> option transportError) (transformResponse : string -> string).
Context (Select : string -> string -> modelDecision).
Context (svc : RouterStatic) (env : environ) (cr : credentialStore) (cx : reqContext) (apiKey : string) (traceFull : bool).
Context (admission : admissionControl) (idx : capabilityIndex) (windows : gmap string contextWindow) (timeouts : gmap string Z).
(** What the body of the request becomes: the guard's report, the estimates of
    the body that is sent, the wire body of an attempt and its estimate. *)
Context (compression : option compressionStat) (estimate contextEstimate : QuotaEstimate).
Context (wireBody : modelAttempt -> string) (wireEstimate : modelAttempt -> QuotaEstimate).
(** The schedule. *)
Context (clock : nat -> Z) (reply : modelAttempt -> upstreamRequest -> upstreamReply).
Context (slept granted : nat -> bool) (ctxAtEnd : ctxState).

#[local] Abbreviation now := (now clock).

(** ** The fallback loop on the service state *)

Definition reserveQuota (attempt : modelAttempt) (w : world) : world * option QuotaTicket :=
  let '(credential, configured) := providerCredential (Some svc) cr cx attempt apiKey in
  if negb configured then (w, None)
  else
    let e := att_QuotaEstimate attempt in
    let e := if (qe_Requests e <=? 0) || (qe_Tokens e <=? 0) then providerQuotaEstimate env attempt estimate else e in
    (t <- now ;; cooldowns <- gets w_cooldowns ;; onLedger (reserveFallbackQuota fingerprint svc env cooldowns attempt credential e t)) w.

Definition releaseTicket (ticket : QuotaTicket) : prog unit :=
  t <- now ;; onLedger (fun l => ((Release ticket t l).1, tt)).

Definition executeFallbacks (retry : RetryPolicy) : FallbackExecution world :=
  mkExecution
    (executeAttempt fingerprint ParseTime ParseDuration decodeError decodeRelayed encodeView badURL transformResponse
       svc env cr cx apiKey traceFull wireBody wireEstimate clock reply)
    (Some reserveQuota)
    (fun ticket w => (releaseTicket ticket w).1)
    (fun attempt w => ((t <- now ;; onAffinity (recordAffinitySuccess cx attempt t)) w).1)
    (fun attempt w => (onAffinity (recordAffinityFailure cx attempt) w).1)
    (fun _ w => w)
    retry.

(** ** Refusals *)

(** [failTrace] with the headers it commits. *)
Definition failTraceWith (outcome : string) : prog unit :=
  onTrace (failTrace outcome) ;;
  trace <- gets w_trace ;;
  onWriter (onHeader (setRouteTraceHeadersWithFull encodeView traceFull trace)).

Definition refuse (outcome : string) (status : Z) (message : string) : prog unit :=
  failTraceWith outcome ;; onWriter (writeJSONError encodeError status message).

(** A Retry-After of at least one second. *)
Definition retryAfterHeader (wait : Z) : prog unit :=
  if 0 <? wait then
    let secs := wholeSeconds wait in
    onWriter (onHeader (header_Set "Retry-After" (pretty (if secs <? 1 then 1 else secs))))
  else ret tt.

(** ** Waiting for quota *)

Definition holdForQuotaReset (deadline : option Z) (wait : Z) (timerFirst : bool) : prog bool :=
  tooLate <- (match deadline with
              | Some d => t <- now ;; ret (time_Sub d t <? wrap64 (wrap64 (wait + quotaHoldSettle) + 2 * Second))
              | None => ret false
              end) ;;
  if tooLate : bool then ret false
  else onCounters (countEvent quotaHeld) ;; ret timerFirst.

Definition reacquireHold (again : bool) (h : admissionHold) : admissionHold * bool :=
  if h_held h then (h, true)
  else match ac_sem admission with
       | None => (mkHold NoOp true, true)
       | Some _ => if again then (mkHold TakeToken true, true) else (h, false)
       end.

Inductive gateResult :=
| GReady (models : list modelAttempt)      (* the chain that may run *)
| GAnswered                                (* the client was refused *)
| GOutOfFuel.

Definition quotaWaitFor (attempts : list modelAttempt) : prog Z :=
  t <- now ;; cooldowns <- gets w_cooldowns ;;
  onLedger (quotaRetryAfterForAttempts fingerprint svc env cr cx apiKey cooldowns attempts estimate t).

(** Nothing can run: the client is told when to come back. *)
Definition allCooling (attempts : list modelAttempt) : prog unit :=
  t <- now ;; st <- gets w_breakers ;;
  let breakerWait := retryAfterForAttempts svc st t attempts in
  quotaWait <- quotaWaitFor attempts ;;
  let wait := if (breakerWait <=? 0) || ((0 <? quotaWait) && (quotaWait <? breakerWait)) then quotaWait else breakerWait in
  onCounters (countEvent allModelsCooling) ;;
  retryAfterHeader wait ;;
  t <- now ;;
  let quotaMessage := dailyFreeQuotaReasonForAttempts svc st t attempts in
  let message :=
    if negb (empty_str quotaMessage) then quotaMessage
    else if 0 <? quotaWait then "All configured model providers are temporarily rate-limited for this request size. Retrying after the earliest quota reset; your request was not sent upstream. Compact the conversation or start a new session if this repeats."
    else "All models are temporarily rate-limited or unhealthy. Cooling down before retry." in
  refuse outcomeAllCooling 503 message.

(** One pass of the gates: the attempts that may run now, and those that were
    left before quota. *)
Definition gates (attempts : list modelAttempt) : prog (list modelAttempt * list modelAttempt * Z * nat) :=
  st <- gets w_breakers ;;
  k <- gets w_tick ;;
  let available := filterAvailableAttempts svc st (fun i => (later clock k (2 * i)%nat, later clock k (2 * i + 1)%nat)) attempts in
  skipTicks (2 * List.length attempts)%nat ;;
  let '(fitting, excluded) := filterContextFit windows available contextEstimate in
  k <- gets w_tick ;;
  ready <- onRouting (quotaRankAndReserve fingerprint svc env cr cx apiKey (fun _ l => l) (later clock k) fitting estimate) ;;
  skipTicks (4 + List.length fitting)%nat ;;
  ret (ready, fitting, excluded, List.length available).

(** The loop of [dispatchChain]; [n] counts the waits. *)
Fixpoint gateLoop (fuel n : nat) (deadline : option Z) (budget : Z) (attempts : list modelAttempt) (h : admissionHold) : prog (admissionHold * gateResult) :=
  match fuel with
  | O => ret (h, GOutOfFuel)
  | S fuel =>
      g <- gates attempts ;;
      let '(ready, fitting, excluded, before) := g in
      if (0 <? before)%nat && (List.length fitting =? 0)%nat && (excluded =? Z.of_nat before) then
        refuse outcomeAllCooling 422 "Request context exceeds every eligible model's safe window. Compact the conversation or start a new session." ;;
        ret (h, GAnswered)
      else
        onTrace (fmap (recordQuotaExclusions (Z.of_nat (List.length fitting) - Z.of_nat (List.length ready)))) ;;
        if (0 <? List.length ready)%nat then ret (h, GReady ready)
        else
          wait <- (if (0 <? List.length fitting)%nat then quotaWaitFor fitting else ret 0) ;;
          if (0 <? wait) && (wait <=? budget) then
            let h := (hold_release h 0).1 in
            held <- holdForQuotaReset deadline wait (slept n) ;;
            if held : bool then
              let '(h, ok) := reacquireHold (granted n) h in
              if ok then gateLoop fuel (S n) deadline (wrap64 (budget - wrap64 (wait + quotaHoldSettle))) attempts h
              else
                onCounters (countEvent admissionRejected) ;;
                onWriter (onHeader (header_Set "Retry-After" (pretty (retryAfterSeconds admission)))) ;;
                refuse outcomeAdmissionAfterHold 503 "Server at capacity (PROXY_MAX_CONCURRENT) after waiting for quota. Retry shortly." ;;
                ret (h, GAnswered)
            else allCooling attempts ;; ret (h, GAnswered)
          else allCooling attempts ;; ret (h, GAnswered)
  end.

(** Enough passes: each wait takes at least [quotaHoldSettle] off the budget. *)
Definition gateFuel (budget : Z) : nat := S (S (Z.to_nat (budget / quotaHoldSettle))).

(** ** The chain *)

Definition truncateChain (retry : RetryPolicy) (models : list modelAttempt) : list modelAttempt :=
  if (0 <? MaxAttempts retry) && (MaxAttempts retry <? Z.of_nat (List.length models)) then take (Z.to_nat (MaxAttempts retry)) models else models.

(** The deadline of one attempt, which bounds the call to the upstream. *)
Definition perAttemptTimeout (decision : policyDecision) (category : string) : Z :=
  let perAttempt := cfg_RequestTimeout (config svc) in
  let perAttempt := if (0 <? pd_Timeout decision) && (pd_Timeout decision <? perAttempt) then pd_Timeout decision else perAttempt in
  attemptTimeoutForProfile timeouts category perAttempt.

(** The chain failed: one reason, one answer. *)
Definition chainFailed (err : chainError) : prog unit :=
  let d := DChain err in
  onCounters (recordChainFailure (classifyChainFailure ctxAtEnd (Some err))) ;;
  let '(status, message) := fallbackErrorResponse (Some d) in
  retryAfterHeader (fallbackRetryAfter d) ;;
  refuse outcomeChainFailed status message.

(** The chain is run; the primary's ticket is released at the end. *)
Definition runChain (decision : policyDecision) (planned afterCaps : Z) (required : list string) (models : list modelAttempt) : prog unit :=
  let primary := default noTicket (att_QuotaTicket <$> head models) in
  deferredAt <- now ;;
  let models := truncateChain (pd_RetryPolicy decision) models in
  onTrace (fmap (recordChain planned afterCaps (Z.of_nat (List.length models)) required)) ;;
  err <- (fun w => let '(_, w, err) := Execute (executeFallbacks (pd_RetryPolicy decision)) models w in (w, err)) ;;
  (match err with None => ret tt | Some err => chainFailed err end) ;;
  (if ticket_Valid primary then onLedger (fun l => ((Release primary deferredAt l).1, tt)) else ret tt).

(** ** The request *)

Definition pinnedIncapable (required : list string) (requestedModel : string) : bool :=
  (0 <? List.length required)%nat && negb (empty_str requestedModel) && negb (EqualFold (TrimSpace requestedModel) "auto") &&
  negb (satisfies idx requestedModel required).

(** The attempts that are configured and capable, with the number planned. *)
Definition eligibleAttempts (decision : policyDecision) (category requestedModel opPath : string) (required : list string) : Z * list modelAttempt :=
  let attempts := Plan Select svc decision category requestedModel in
  let planned := Z.of_nat (List.length attempts) in
  let attempts := if empty_str opPath then attempts else set_Path opPath <$> attempts in
  let attempts := filterConfiguredAttempts (Some svc) cr cx attempts apiKey opPath in
  (planned,
   if (0 <? List.length required)%nat
   then filterConfiguredAttempts (Some svc) cr cx (applyCapabilityFilter svc idx attempts category opPath required) apiKey opPath
   else attempts).

(** The body of [dispatchChain], with [onTrace] for the trace in the context. *)
Definition dispatchSteps (traceID : string) (decision : policyDecision) (category requestedModel : string) (stream : bool) (opPath : string)
    (required : list string) (h : admissionHold) : prog admissionHold :=
  onTrace (fun _ => recordPolicy (pd_RuleID decision) (pd_Reason decision) requestedModel (pd_PolicySteps decision) <$> newRouteTrace env traceID category) ;;
  deadline <- (if negb stream && (0 <? cfg_TotalTimeout (config svc)) then t <- now ;; ret (Some (time_Add t (cfg_TotalTimeout (config svc)))) else ret None) ;;
  if pinnedIncapable required requestedModel then
    onCounters (countEvent capabilityRefused) ;;
    refuse outcomeCapsPinned 422 ("requested model " +:+ requestedModel +:+ " does not support " +:+ String.concat "+" required) ;;
    ret h
  else
    let '(planned, attempts) := eligibleAttempts decision category requestedModel opPath required in
    if (0 <? List.length required)%nat && (List.length attempts =? 0)%nat then
      onCounters (countEvent capabilityRefused) ;;
      refuse outcomeCapsNone 503 ("No available model supports " +:+ String.concat "+" required +:+ " for this request.") ;;
      ret h
    else
      let afterCaps := Z.of_nat (List.length attempts) in
      (match compression with Some stat => onTrace (fmap (recordCompression stat)) | None => ret tt end) ;;
      let budget := quotaHoldBudget env in
      gated <- gateLoop (gateFuel budget) 0 deadline budget attempts h ;;
      let '(h, result) := gated in
      match result with
      | GReady models => runChain decision planned afterCaps required models ;; ret h
      | _ => ret h
      end.

(** The trace is published last, on every path. *)
Definition finishTrace : prog unit := fun w =>
  match w_trace w with
  | None => (w, tt)
  | Some t => (mkWorld (w_ledger w) (w_affinity w) (w_cooldowns w) (w_breakers w) (w_counters w) (w_trace w) (w_writer w) (add t (w_ring w)) (w_tick w), tt)
  end.

Definition dispatchChain (traceID : string) (decision : policyDecision) (category requestedModel : string) (stream : bool) (opPath : string)
    (required : list string) (h : admissionHold) : prog admissionHold :=
  h <- dispatchSteps traceID decision category requestedModel stream opPath required h ;; finishTrace ;; ret h.
End dispatch.
