(* ===== verification/DispatchSpec.v ===== *)
(** * DispatchSpec: what a dispatched request guarantees

    The promises of [Upstream]'s attempts, carried through the fallback loop
    and the gates of [dispatchChain]: the client gets exactly one answer and
    the decision trace tells which, the waits for quota end, and the request
    leaves the ledger with the tickets it found there. *)

From S2P Require Import Prelude Float Types Env Text Breaker Scoring Quota Registry Affinity Admission Fallback.
From S2P Require Import QuotaProviders QuotaPolicy QuotaRouting Health Eligibility TraceRing Trace Stream Errors Http Counters Upstream UpstreamSpec Planner Dispatch.
From Stdlib Require Import Lia ZArith Ascii String.
#[local] Open Scope string_scope.
#[local] Open Scope Z_scope.
#[local] Open Scope prog_scope.

(** ** Invariants of the fallback loop *)

Lemma judge_attempts {W} (fx : FallbackExecution W) a err cs fs : ch_attempts (judge fx a err cs fs).1.1 = ch_attempts cs.
Proof. unfold judge. destruct err; [|done]. by repeat case_match. Qed.

Lemma runTree_post (R : world -> world -> Prop) Q reserve t : forall cs,
  (forall w, R w w) -> (forall f cs w, reserve = Some f -> R w (f cs w).1.2) -> treePost R Q t ->
  Q (runTree reserve t cs).2 (runTree reserve t cs).1.2.
Proof.
  induction t as [w res|w k IH]; intros cs Hr Hf H; simpl; [done|].
  destruct reserve as [f|]; [|by apply IH, H, Hr].
  pose proof (Hf f cs w eq_refl) as Hw. destruct (f cs w) as [[cs' w'] ok]. by apply IH, H.
Qed.

Section chain_invariant.
Context {W : Type} (fx : FallbackExecution W).
(** [Inv] between attempts, [Done] after a success, [Err] of every error. *)
Context (Inv Done : list modelAttempt -> W -> Prop) (Err : goError -> Prop).

Definition attemptOK : Prop := forall i cs w a0 last_, Inv (ch_attempts cs) w -> ch_attempts cs !! i = Some a0 ->
  let attempt := set_position (Z.of_nat i + 1) last_ a0 in
  let r := runTree (reserveClosure fx cs i) (fx_Executor fx attempt w) cs in
  match r.2 with
  | None => Done (ch_attempts r.1.1) (fx_OnSuccess fx attempt r.1.2)
  | Some err => Err err /\ Inv (ch_attempts r.1.1) (fx_OnFailure fx attempt r.1.2)
  end.

Context (Hattempt : attemptOK) (Hwait : forall l i w, Inv l w -> Inv l (fx_Wait fx i w)).

Lemma chainLoop_invariant idxs : forall st,
  Inv (ch_attempts (lp_chain st)) (lp_world st) -> (forall err, lp_lastErr st = Some err -> Err err) ->
  let '(st', e) := chainLoop fx idxs st in
  match e with
  | EndSuccess => Done (ch_attempts (lp_chain st')) (lp_world st')
  | EndLoop _ => Inv (ch_attempts (lp_chain st')) (lp_world st') /\ forall err, lp_lastErr st' = Some err -> Err err
  end.
Proof.
  induction idxs as [|i idxs IH]; intros st Hi He; simpl; [done|].
  destruct (ch_attempts (lp_chain st) !! i) as [a0|] eqn:Ha; [|done]. destruct (negb _); [by apply IH|].
  pose proof (Hattempt i (lp_chain st) (lp_world st) a0 (negb (bool_decide (is_Some (nextExecutableAttempt (lp_chain st) i)))) Hi Ha) as H.
  cbv zeta in H. unfold reserveClosure in H. destruct (runTree _ _ _) as [[cs w] res]. cbn [fst snd] in H.
  destruct res as [err|]; [|done]. destruct H as [Herr Hinv].
  match goal with |- context [judge fx ?a err cs ?fs] => pose proof (judge_attempts fx a err cs fs) as Hj; destruct (judge fx a err cs fs) as [[cs2 fs2] v] end.
  cbn [fst] in Hj. rewrite <- Hj in Hinv.
  assert (Hl : forall e, Some err = Some e -> Err e) by (by intros e [= <-]).
  destruct v; [by apply IH|done|]. destruct (nextExecutableAttempt cs2 i) as [nxt|]; [|by apply IH]. destruct (str_eq (Provider nxt) _); [|by apply IH].
  apply IH; [by apply Hwait|done].
Qed.

(** The deferred release is left to the caller. *)
Lemma Execute_invariant attempts w :
  Inv attempts w ->
  exists st, Execute fx attempts w = (st, releaseTickets fx (ch_attempts (lp_chain st)) (lp_world st), (Execute fx attempts w).2) /\
  match (Execute fx attempts w).2 with
  | None => Done (ch_attempts (lp_chain st)) (lp_world st)
  | Some e => Inv (ch_attempts (lp_chain st)) (lp_world st) /\ (Err (ce_err e) \/ ce_err e = EOther errAllFallbackModelsFailed)
  end.
Proof.
  intros Hi. unfold Execute. pose proof (chainLoop_invariant (seq 0 (List.length attempts)) (initialLoop attempts w) Hi) as H.
  destruct (chainLoop _ _ _) as [st e]. destruct e as [|early]; [exists st; split; [done|by apply H]|].
  destruct H as [H1 H2]; [done|]. destruct (lp_lastErr st) as [err|]; exists st; (split; [done|]); simpl; split; auto.
Qed.
End chain_invariant.

Section dispatch.
Context (fingerprint : string -> string) (ParseTime ParseDuration : string -> option Z).
Context (decodeError : string -> option (Z * list (string * string) * string)) (decodeRelayed : string -> option (string * string)).
Context (encodeView : traceView -> string) (encodeError : string -> string) (badURL : string -> option transportError) (transformResponse : string -> string).
Context (Select : string -> string -> modelDecision).
Context (svc : RouterStatic) (env : environ) (cr : credentialStore) (cx : reqContext) (apiKey : string) (traceFull : bool).
Context (admission : admissionControl) (idx : capabilityIndex) (windows : gmap string contextWindow).
Context (compression : option compressionStat) (estimate contextEstimate : QuotaEstimate).
Context (wireBody : modelAttempt -> string) (wireEstimate : modelAttempt -> QuotaEstimate).
Context (clock : nat -> Z) (reply : modelAttempt -> upstreamRequest -> upstreamReply).
Context (slept granted : nat -> bool) (ctxAtEnd : ctxState).

#[local] Abbreviation fallbacks := (executeFallbacks fingerprint ParseTime ParseDuration decodeError decodeRelayed encodeView badURL transformResponse
  svc env cr cx apiKey traceFull estimate wireBody wireEstimate clock reply).
#[local] Abbreviation loop := (gateLoop fingerprint encodeView encodeError svc env cr cx apiKey traceFull admission windows estimate contextEstimate clock slept granted).
#[local] Abbreviation cooling := (allCooling fingerprint encodeView encodeError svc env cr cx apiKey traceFull estimate clock).
#[local] Abbreviation refuse := (refuse encodeView encodeError traceFull).
#[local] Abbreviation waitFor := (quotaWaitFor fingerprint svc env cr cx apiKey estimate clock).
#[local] Abbreviation gates := (gates fingerprint svc env cr cx apiKey windows estimate contextEstimate clock).
#[local] Abbreviation steps := (dispatchSteps fingerprint ParseTime ParseDuration decodeError decodeRelayed encodeView encodeError badURL transformResponse Select
  svc env cr cx apiKey traceFull admission idx windows compression estimate contextEstimate wireBody wireEstimate clock reply slept granted ctxAtEnd).
#[local] Abbreviation dispatch := (dispatchChain fingerprint ParseTime ParseDuration decodeError decodeRelayed encodeView encodeError badURL transformResponse Select
  svc env cr cx apiKey traceFull admission idx windows compression estimate contextEstimate wireBody wireEstimate clock reply slept granted ctxAtEnd).

(** Publishing the trace touches nothing but the ring. *)
Lemma finishTrace_keeps {V} (view : world -> V) :
  (forall w ring, view (mkWorld (w_ledger w) (w_affinity w) (w_cooldowns w) (w_breakers w) (w_counters w) (w_trace w) (w_writer w) ring (w_tick w)) = view w) ->
  keeps view finishTrace.
Proof. intros H w. unfold finishTrace. destruct (w_trace w) eqn:E; [|done]. simpl. rewrite <- E. apply H. Qed.


(** ** The waits end *)

Lemma settle_positive : 0 < quotaHoldSettle.
Proof. by vm_compute. Qed.

(** What a wait leaves of the budget, and the passes that are enough for it. *)
Lemma budget_after wait b :
  0 < wait <= b -> b <= max_int64 - quotaHoldSettle ->
  wrap64 (b - wrap64 (wait + quotaHoldSettle)) = b - wait - quotaHoldSettle.
Proof.
  intros Hw Hb. pose proof settle_positive. rewrite (wrap64_id (wait + _)); [rewrite wrap64_id; [lia|]|]; unfold in_int64, min_int64, max_int64, two63 in *; lia.
Qed.

Definition passes (b : Z) : nat := if b <=? 0 then 1%nat else gateFuel b.

Lemma passes_fuel b : (passes b <= gateFuel b)%nat.
Proof. unfold passes, gateFuel. destruct (b <=? 0); lia. Qed.

Lemma passes_after wait b : 0 < wait <= b -> (passes (b - wait - quotaHoldSettle) < passes b)%nat.
Proof.
  intros Hw. pose proof settle_positive as Hs. unfold passes, gateFuel. destruct (Z.leb_spec b 0); [lia|].
  destruct (Z.leb_spec (b - wait - quotaHoldSettle) 0); [lia|].
  assert ((b - wait - quotaHoldSettle) / quotaHoldSettle < b / quotaHoldSettle).
  { replace b with ((b - quotaHoldSettle) + 1 * quotaHoldSettle) at 2 by lia. rewrite Z.div_add by lia.
    enough ((b - wait - quotaHoldSettle) / quotaHoldSettle <= (b - quotaHoldSettle) / quotaHoldSettle) by lia. apply Z.div_le_mono; lia. }
  assert (0 <= (b - wait - quotaHoldSettle) / quotaHoldSettle) by (apply Z.div_pos; lia). lia.
Qed.

Lemma gateLoop_ends fuel : forall n deadline budget attempts h,
  (passes budget <= fuel)%nat -> budget <= max_int64 - quotaHoldSettle ->
  leads (fun _ => True) (loop fuel n deadline budget attempts h) (fun r _ => r.2 <> GOutOfFuel).
Proof.
  induction fuel as [|fuel IH]; intros n deadline budget attempts h Hf Hb.
  { unfold passes, gateFuel in Hf. destruct (budget <=? 0); lia. }
  cbn [gateLoop]. eapply (leads_bind _ _ (fun _ _ => True)); [done|]. intros [[[ready fitting] excluded] before].
  apply leads_if; [apply (leads_bind _ _ (fun _ _ => True)); [done|intros _; by apply leads_ret]|].
  apply (leads_bind _ _ (fun _ _ => True)); [done|intros _]. apply leads_if; [by apply leads_ret|].
  apply (leads_bind _ _ (fun _ _ => True)); [done|intros wait].
  destruct (Z.ltb_spec 0 wait), (Z.leb_spec wait budget); cbn [andb]; try (apply (leads_bind _ _ (fun _ _ => True)); [done|intros _; by apply leads_ret]).
  apply (leads_bind _ _ (fun _ _ => True)); [done|intros held].
  destruct held; [|apply (leads_bind _ _ (fun _ _ => True)); [done|intros _; by apply leads_ret]].
  destruct (reacquireHold _ _ _) as [h' ok]. destruct ok.
  - rewrite budget_after by done. apply IH; [pose proof (passes_after wait budget); lia|pose proof settle_positive; lia].
  - do 3 (apply (leads_bind _ _ (fun _ _ => True)); [done|intros _]). by apply leads_ret.
Qed.

(** ** One answer *)

(** The client has an answer, and the trace, if there is one, tells whether it
    was served. *)
Definition answered (c : responseWriter * option string) : Prop :=
  exists s, rw_statuses c.1 = [s] /\ forall o, c.2 = Some o -> (o = outcomeServed <-> s = 200).

Lemma committed_answered c : committed c -> answered c.
Proof. intros [H1 H2]. exists 200. split; [done|]. intros o Ho. unfold stamped in H2. rewrite Ho in H2. destruct H2 as [|[= ->]]; done. Qed.

#[local] Hint Extern 1 (keeps _ (skipTicks _)) => (intros ?w; reflexivity) : frame.

Lemma onRouting_client {A} (f : routingState -> routingState * A) : keeps client (onRouting f).
Proof. intros w. unfold onRouting. by destruct (f (routingOf w)). Qed.
#[local] Hint Resolve onRouting_client : frame.

Lemma quotaWaitFor_client attempts : keeps client (waitFor attempts).
Proof. unfold quotaWaitFor. frame. Qed.
#[local] Hint Resolve quotaWaitFor_client : frame.

Lemma holdForQuotaReset_client deadline wait timer : keeps client (holdForQuotaReset clock deadline wait timer).
Proof. unfold holdForQuotaReset. frame. Qed.
#[local] Hint Resolve holdForQuotaReset_client : frame.

Lemma gates_client attempts : keeps client (gates attempts).
Proof. unfold Dispatch.gates. frame. Qed.
#[local] Hint Resolve gates_client : frame.

Lemma recordQuotaExclusions_outcome n t : tr_Outcome (recordQuotaExclusions n t) = tr_Outcome t.
Proof. unfold recordQuotaExclusions. by case_match. Qed.

(** A note in the trace that leaves the outcome alone. *)
Lemma note_client f : (forall t, tr_Outcome (f t) = tr_Outcome t) -> keeps client (onTrace (fmap f)).
Proof. intros Hf w. unfold client, onTrace. simpl. f_equal. destruct (w_trace w); simpl; [by rewrite Hf|done]. Qed.

#[local] Abbreviation open := (fun w => unsent (client w)).
#[local] Abbreviation closed := (fun w => answered (client w)).

Lemma open_header f : leads open (onWriter (onHeader f)) (fun _ => open).
Proof. by intros w Hw. Qed.

Lemma open_keeps {A} (m : prog A) : keeps client m -> leads open m (fun _ => open).
Proof. apply (leads_keeps client unsent). Qed.

Lemma refuse_answers outcome status message :
  outcome <> outcomeServed -> status <> 200 -> leads open (refuse outcome status message) (fun _ => closed).
Proof.
  intros Ho Hs w Hw. exists status. unfold Dispatch.refuse, failTraceWith, bind. cbn. unfold unsent in Hw. cbn in Hw. rewrite Hw. split; [done|].
  destruct (w_trace w) as [t|]; simpl; [|done]. by intros o [= <-].
Qed.

Lemma retryAfterHeader_open wait : leads open (retryAfterHeader wait) (fun _ => open).
Proof. unfold retryAfterHeader. apply leads_if; [apply open_header|by apply leads_ret]. Qed.

(** Past a step that only the service sees. *)
Ltac onward := eapply leads_bind; [apply open_keeps; frame|intros ?].

Lemma allCooling_answers attempts : leads open (cooling attempts) (fun _ => closed).
Proof.
  unfold allCooling. onward. onward. cbv zeta. onward. onward. eapply leads_bind; [apply retryAfterHeader_open|intros ?]. onward.
  by apply refuse_answers.
Qed.

Lemma gateLoop_answers fuel : forall n deadline budget attempts h,
  leads open (loop fuel n deadline budget attempts h)
    (fun r w => match r.2 with GAnswered => closed w | _ => open w end).
Proof.
  assert (Hret : forall (m : prog unit) h, leads open m (fun _ => closed) ->
    leads open (m ;; ret (h, GAnswered)) (fun (r : admissionHold * gateResult) w => match r.2 with GAnswered => closed w | _ => open w end)).
  { intros m h Hm. eapply leads_bind; [exact Hm|intros ?]. by apply leads_ret. }
  induction fuel as [|fuel IH]; intros n deadline budget attempts h; [by apply leads_ret|].
  cbn [gateLoop]. eapply leads_bind; [apply open_keeps, gates_client|]. intros [[[ready fitting] excluded] before].
  apply leads_if; [by apply Hret, refuse_answers|].
  eapply leads_bind; [apply open_keeps, note_client, recordQuotaExclusions_outcome|intros ?]. apply leads_if; [by apply leads_ret|].
  onward. apply leads_if; [|apply Hret, allCooling_answers]. onward. apply leads_if; [|apply Hret, allCooling_answers].
  destruct (reacquireHold _ _ _) as [h' ok]. apply leads_if; [apply IH|]. onward.
  eapply leads_bind; [apply open_header|intros ?]. by apply Hret, refuse_answers.
Qed.

(** The chain. *)
Lemma reserveQuota_reserving a w : reserving w (reserveQuota fingerprint svc env cr cx apiKey estimate clock a w).1.
Proof.
  unfold reserveQuota. destruct (providerCredential _ _ _ _ _) as [k configured]. destruct (negb configured); [done|].
  unfold bind, onLedger. cbn. by destruct (reserveFallbackQuota _ _ _ _ _ _ _ _ _).
Qed.

Lemma reserveFrom_reserving retry idxs : forall cs w, reserving w (reserveFrom (fallbacks retry) idxs cs w).1.2.
Proof.
  assert (Htrans : forall w1 w2 w3, reserving w1 w2 -> reserving w2 w3 -> reserving w1 w3) by (unfold reserving; intuition congruence).
  induction idxs as [|i idxs IH]; intros cs w; [done|]. cbn [reserveFrom]. destruct (_ !! i) as [a|]; [|done].
  destruct (negb _); [apply IH|]. cbn [fx_ReserveQuota executeFallbacks]. destruct (ticket_Valid _); [done|].
  pose proof (reserveQuota_reserving a w) as H. destruct (reserveQuota _ _ _ _ _ _ _ _ a w) as [w' [t|]]; [done|].
  by apply (Htrans _ w').
Qed.

Lemma chain_attempt_answers retry c :
  unsent c -> attemptOK (fallbacks retry) (fun _ w => client w = c) (fun _ w => committed (client w)) notOK.
Proof.
  intros Hc i cs w a0 last_ Hw Ha. cbv zeta. set (a := set_position _ _ a0). subst c.
  pose proof (exec_oneAnswer fingerprint ParseTime ParseDuration decodeError decodeRelayed encodeView badURL transformResponse
    svc env cr cx apiKey traceFull wireBody wireEstimate clock reply a w Hc) as H.
  assert (Hp : oneAnswer (client w) (runTree (reserveClosure (fallbacks retry) cs i) (fx_Executor (fallbacks retry) a w) cs).2
                 (runTree (reserveClosure (fallbacks retry) cs i) (fx_Executor (fallbacks retry) a w) cs).1.2).
  { apply (runTree_post reserving); [done| |exact H]. intros f cs' w' Hf. unfold reserveClosure in Hf. cbn in Hf.
    case_bool_decide; [|done]. injection Hf as <-. apply reserveFrom_reserving. }
  destruct (runTree _ _ _) as [[cs' w'] [err|]]; cbn in Hp |- *; [by destruct Hp|done].
Qed.

Lemma releaseTickets_client retry attempts : forall w, client (releaseTickets (fallbacks retry) attempts w) = client w.
Proof. induction attempts as [|a attempts IH]; intros w; [done|]. unfold releaseTickets in *. cbn [fold_left]. rewrite IH. by case_match. Qed.

Lemma fallbackErrorResponse_notOK e : notOK (ce_err e) -> (fallbackErrorResponse (Some (DChain e))).1 <> 200.
Proof.
  intros H. unfold fallbackErrorResponse. case_match; [done|]. unfold notOK in H. destruct (ce_err e) as [a|]; [|done].
  simpl. by destruct (Z.eqb_spec (StatusCode a) 0).
Qed.

Lemma chainFailed_answers e : notOK (ce_err e) -> leads open (chainFailed encodeView encodeError traceFull ctxAtEnd e) (fun _ => closed).
Proof.
  intros He%fallbackErrorResponse_notOK. unfold chainFailed. cbv zeta. onward.
  destruct (fallbackErrorResponse _) as [status message]. eapply leads_bind; [apply retryAfterHeader_open|intros ?]. by apply refuse_answers.
Qed.

Lemma runChain_answers decision planned afterCaps required models :
  leads open (runChain fingerprint ParseTime ParseDuration decodeError decodeRelayed encodeView encodeError badURL transformResponse
    svc env cr cx apiKey traceFull estimate wireBody wireEstimate clock reply ctxAtEnd decision planned afterCaps required models) (fun _ => closed).
Proof.
  unfold runChain. cbv zeta. onward. eapply leads_bind; [by apply open_keeps, note_client|intros ?].
  apply (leads_bind _ _ (fun err w => match err with None => closed w | Some e => open w /\ notOK (ce_err e) end)).
  - intros w Hw. set (ms := truncateChain _ _).
    destruct (Execute_invariant (fallbacks (pd_RetryPolicy decision)) (fun _ w' => client w' = client w) (fun _ w' => committed (client w')) notOK
      (chain_attempt_answers _ _ Hw) (fun _ _ _ H => H) ms w eq_refl) as (st & E & H).
    destruct (Execute _ ms w) as [[st' w'] err]. cbn in E, H. injection E as -> ->. cbn. rewrite releaseTickets_client.
    destruct err as [e|]; [|by apply committed_answered]. destruct H as [Hc H]. rewrite Hc. destruct H as [H|H]; [by split|]. by rewrite H.
  - intros err. apply (leads_bind _ _ (fun _ => closed)).
    + destruct err as [e|]; [|by apply leads_ret]. intros w [Hw He]. by apply chainFailed_answers.
    + intros ?. apply (leads_keeps client answered). frame.
Qed.

Lemma dispatchSteps_answers traceID decision category requestedModel stream opPath required h :
  quotaHoldBudget env <= max_int64 - quotaHoldSettle ->
  leads open (steps traceID decision category requestedModel stream opPath required h) (fun _ => closed).
Proof.
  intros Hb. assert (Hend : forall (m : prog unit), leads open m (fun _ => closed) -> leads open (m ;; ret h) (fun _ => closed)).
  { intros m Hm. eapply leads_bind; [exact Hm|intros ?]. by apply leads_ret. }
  unfold dispatchSteps. apply (leads_bind _ _ (fun _ => open)); [by intros w Hw|intros ?]. onward.
  apply leads_if; [onward; by apply Hend, refuse_answers|]. destruct (eligibleAttempts _ _ _ _ _ _ _ _ _ _ _) as [planned attempts].
  apply leads_if; [onward; by apply Hend, refuse_answers|]. cbv zeta.
  eapply leads_bind; [apply open_keeps; destruct compression; [by apply note_client|frame]|intros ?].
  apply (leads_bind _ _ (fun r w => match r.2 with GReady _ => open w | GAnswered => closed w | GOutOfFuel => False end)).
  - intros w Hw. pose proof (gateLoop_answers (gateFuel (quotaHoldBudget env)) 0 a0 (quotaHoldBudget env) attempts h w Hw) as H1.
    pose proof (gateLoop_ends (gateFuel (quotaHoldBudget env)) 0 a0 (quotaHoldBudget env) attempts h) as H2.
    destruct (loop _ _ _ _ _ _ w) as [w' [h' r]] eqn:E. specialize (H2 (passes_fuel _) Hb w I).
    rewrite E in H2. simpl in *. by destruct r.
  - intros [h' r]. destruct r; simpl; [eapply leads_bind; [apply runChain_answers|intros ?]; by apply leads_ret|by apply leads_ret|by intros w []].
Qed.

Lemma dispatchChain_answers traceID decision category requestedModel stream opPath required h :
  quotaHoldBudget env <= max_int64 - quotaHoldSettle ->
  leads open (dispatch traceID decision category requestedModel stream opPath required h) (fun _ => closed).
Proof.
  intros Hb. unfold dispatchChain. eapply leads_bind; [by apply dispatchSteps_answers|intros ?].
  apply (leads_keeps client answered), keeps_bind; [by apply finishTrace_keeps|intros ?; apply keeps_ret].
Qed.

(** Every dispatched request gets exactly one answer.  Whatever the
    upstreams reply, however the waits for quota end and whatever the state of
    the service, a request whose response was not started leaves with one
    status committed and no more; and when the decision is traced, the trace
    says "served" exactly when that status is 200, and it is the newest entry
    of the ring. *)
Theorem dispatch_answers_once traceID decision category requestedModel stream opPath required h w :
  quotaHoldBudget env <= max_int64 - quotaHoldSettle -> rw_statuses (w_writer w) = [] ->
  let w' := (dispatch traceID decision category requestedModel stream opPath required h w).1 in
  answered (client w') /\ forall t, w_trace w' = Some t -> exists ring, w_ring w' = add t ring.
Proof.
  intros Hb Hw. cbv zeta. split; [by apply dispatchChain_answers|]. unfold dispatchChain, bind.
  destruct (steps _ _ _ _ _ _ _ _ w) as [w1 h1]. unfold finishTrace. destruct (w_trace w1) as [t1|] eqn:E; simpl; intros t Ht; [|congruence].
  rewrite E in Ht || idtac. simplify_eq. by eexists.
Qed.

(** ** No ticket is left behind *)

Section tickets.
Context (Hclock : forall n, 0 <= clock n).

Definition inRange (e : QuotaEstimate) : Prop := 0 <= qe_Requests e <= max_int64 /\ 0 <= qe_Tokens e <= max_int64.

Context (Hbase : estimateOK estimate) (Hwire : forall a, inRange (providerQuotaEstimate env a (wireEstimate a))).

(** The tickets of a chain. *)
Definition ticketIDs (attempts : list modelAttempt) : list Z :=
  omap (fun a => if ticket_Valid (att_QuotaTicket a) then Some (tk_id (att_QuotaTicket a)) else None) attempts.

Lemma ticketIDs_cons a attempts :
  ticketIDs (a :: attempts) = ((if ticket_Valid (att_QuotaTicket a) then [tk_id (att_QuotaTicket a)] else []) ++ ticketIDs attempts)%list.
Proof. unfold ticketIDs. simpl. by destruct (ticket_Valid (att_QuotaTicket a)). Qed.

(** An attempt as it was planned. *)
Definition planned (a : modelAttempt) : Prop := att_QuotaTicket a = noTicket /\ att_QuotaEstimate a = zeroEstimate.

Section chain.
Context (L : nat) (T0 : gmap Z quotaTicketState).

(** The tickets of the chain are of this ledger and none of [T0]; besides
    them, [T0] is what is outstanding. *)
Definition ticketInv (attempts : list modelAttempt) (l : QuotaLedger) : Prop :=
  kept l /\ lg_id l = L /\
  Forall (fun a => (ticket_Valid (att_QuotaTicket a) = true -> tk_ledger (att_QuotaTicket a) = Some L) /\ estimateOK (att_QuotaEstimate a)) attempts /\
  (forall id, id ∈ ticketIDs attempts -> T0 !! id = None) /\
  (forall id, id ∉ ticketIDs attempts -> lg_tickets l !! id = T0 !! id).

Lemma ticketIDs_elem a attempts : a ∈ attempts -> ticket_Valid (att_QuotaTicket a) = true -> tk_id (att_QuotaTicket a) ∈ ticketIDs attempts.
Proof. intros Ha Hv. apply list_elem_of_omap. exists a. by rewrite Hv. Qed.

Lemma ticketInv_owns attempts l a :
  ticketInv attempts l -> a ∈ attempts -> ticket_Valid (att_QuotaTicket a) = true -> owns l (att_QuotaTicket a) = true.
Proof.
  intros (_ & HL & Hf & _) Ha Hv. rewrite Forall_forall in Hf. destruct (Hf a Ha) as [Ho _]. specialize (Ho Hv).
  unfold owns. rewrite Ho, HL, bool_decide_eq_true_2 by done. unfold ticket_Valid in Hv. rewrite Ho in Hv. by simpl in *.
Qed.

(** Taking a ticket of the chain, or nothing, off the ledger. *)
Lemma ticketInv_spend attempts l l' id :
  ticketInv attempts l -> kept l' -> lg_id l' = lg_id l -> id ∈ ticketIDs attempts -> lg_tickets l' = delete id (lg_tickets l) -> ticketInv attempts l'.
Proof.
  intros (_ & HL & Hf & H1 & H2) Hk Hi Hid Ht. split_and!; [done|congruence|done|done|].
  intros id' Hn. rewrite Ht, lookup_delete_ne by (intros ->; done). by apply H2.
Qed.

Lemma ticketInv_same attempts l l' :
  ticketInv attempts l -> kept l' -> lg_id l' = lg_id l -> lg_tickets l' = lg_tickets l -> ticketInv attempts l'.
Proof. intros (_ & HL & Hf & H1 & H2) Hk Hi Ht. split_and!; [done|congruence|done|done|]. by rewrite Ht. Qed.

(** An attempt of the chain gets a new ticket. *)
Lemma ticketIDs_insert attempts i a t id :
  attempts !! i = Some a -> ticket_Valid (att_QuotaTicket a) = false -> ticket_Valid t = true ->
  id ∈ ticketIDs (<[i := set_Ticket t a]> attempts) <-> id = tk_id t \/ id ∈ ticketIDs attempts.
Proof.
  intros Hi Ha Ht. revert i Hi. induction attempts as [|b attempts IH]; intros [|i] Hi; simplify_eq/=.
  - rewrite Ht, Ha. by rewrite elem_of_cons.
  - rewrite Hi in IH || idtac. specialize (IH i Hi). destruct (ticket_Valid (att_QuotaTicket b)); rewrite ?elem_of_cons, IH; intuition.
Qed.

Lemma ticketInv_reserve attempts i a l l' t :
  ticketInv attempts l -> attempts !! i = Some a -> ticket_Valid (att_QuotaTicket a) = false ->
  held t (outstandingOf l) l' -> lg_tickets l !! tk_id t = None -> tk_ledger t = Some (lg_id l) ->
  ticketInv (<[i := set_Ticket t a]> attempts) l'.
Proof.
  intros (_ & HL & Hf & H1 & H2) Hi Ha Hh Hfresh Hl. pose proof (held_valid t _ _ Hh) as Hv. destruct Hh as (Hk & _ & [= Hid Hd]).
  split_and!; [done|congruence| | |].
  - apply Forall_insert; [done|]. rewrite Forall_forall in Hf. destruct (Hf a) as [_ He]; [by eapply list_elem_of_lookup_2|]. split; [|done].
    intros _. simpl. congruence.
  - intros id [->|Hin]%(ticketIDs_insert attempts i a t id Hi Ha Hv); [|by apply H1].
    destruct (decide (tk_id t ∈ ticketIDs attempts)) as [Hin|Hin]; [by apply H1|]. rewrite <- H2 by done. done.
  - intros id Hn. assert (Hn' : ~ (id = tk_id t \/ id ∈ ticketIDs attempts)) by (by rewrite <- (ticketIDs_insert attempts i a t id Hi Ha Hv)).
    assert (Hne : id <> tk_id t) by tauto. rewrite <- (lookup_delete_ne (lg_tickets l') (tk_id t) id) by done. rewrite Hd. apply H2. tauto.
Qed.

#[local] Abbreviation chainInv := (fun attempts w => ticketInv attempts (w_ledger w)).

Lemma reserveFrom_tickets retry idxs : forall cs w,
  chainInv (ch_attempts cs) w ->
  chainInv (ch_attempts (reserveFrom (fallbacks retry) idxs cs w).1.1) (reserveFrom (fallbacks retry) idxs cs w).1.2.
Proof.
  induction idxs as [|i idxs IH]; intros cs w H; [done|]. cbn [reserveFrom]. destruct (ch_attempts cs !! i) as [a|] eqn:Ha; [|done].
  destruct (negb _); [by apply IH|]. cbn [fx_ReserveQuota executeFallbacks]. destruct (ticket_Valid (att_QuotaTicket a)) eqn:Hv; [done|].
  unfold reserveQuota. destruct (providerCredential _ _ _ _ _) as [k configured]. destruct (negb configured); [by apply IH|].
  set (e := if _ || _ then _ else _). unfold bind, onLedger, Upstream.now, gets. cbn [w_ledger w_cooldowns w_tick].
  assert (He : estimateOK e).
  { unfold e. destruct (_ || _); [by apply estimateOK_provider|]. destruct H as (_ & _ & Hf & _). rewrite Forall_forall in Hf.
    apply (Hf a). by eapply list_elem_of_lookup_2. }
  pose proof (reserve_holds fingerprint svc env (outstandingOf (w_ledger w)) (w_cooldowns w) a k e (clock (w_tick w)) (w_ledger w) He (Hclock _)) as Hr.
  destruct (reserveFallbackQuota _ _ _ _ _ _ _ _ _) as [l' [t|]]; specialize (Hr (conj (proj1 H) eq_refl)).
  - destruct Hr as (Hh & Hfresh & Hl). cbn. by apply (ticketInv_reserve _ _ _ (w_ledger w)).
  - apply IH. cbn. destruct Hr as [Hk [= Hid Ht]]. by apply (ticketInv_same _ (w_ledger w)).
Qed.

(** An attempt of the chain, up to its return or its question. *)
Lemma attempt_tickets a0 attempts i last_ w :
  chainInv attempts w -> attempts !! i = Some a0 ->
  let t := fx_Executor (fallbacks (mkRetryPolicy 0 [] false false 0 0)) (set_position (Z.of_nat i + 1) last_ a0) w in
  chainInv attempts (treeNow t) /\
  match t with TRet _ _ => True | TReserve _ k => forall w' ok, exists res w'', k w' ok = TRet w'' res /\ w_ledger w'' = w_ledger w' end.
Proof.
  intros H Hi. cbv zeta. set (a := set_position _ _ a0). assert (Ha : a0 ∈ attempts) by (by eapply list_elem_of_lookup_2).
  cbn [fx_Executor executeFallbacks].
  destruct (providerCredential (Some svc) cr cx a apiKey).2 eqn:Hc.
  2: { by rewrite unconfigured_attempt_keeps_ticket. }
  set (e := att_QuotaEstimate (withEstimate env wireEstimate a)).
  assert (He : inRange e).
  { unfold e, withEstimate. destruct (_ || _) eqn:E; [apply Hwire|]. apply orb_false_iff in E as [E1%Z.leb_gt E2%Z.leb_gt].
    destruct H as (_ & _ & Hf & _). rewrite Forall_forall in Hf. destruct (Hf a0 Ha) as [_ [He1 He2]]. split; simpl in *; lia. }
  destruct He as [He1 He2].
  pose proof (attempt_settles fingerprint ParseTime ParseDuration decodeError decodeRelayed encodeView badURL transformResponse
    svc env cr cx apiKey traceFull wireBody wireEstimate clock reply a w) as Hs.
  pose proof (ticketInv_owns attempts (w_ledger w) a0 H Ha) as Ho.
  destruct (ticket_Valid (att_QuotaTicket a0)) eqn:Hv.
  - destruct (Hs (lg_id (w_ledger w), delete (tk_id (att_QuotaTicket a0)) (lg_tickets (w_ledger w))) Hclock Hc He1 He2) as [[Hk [= Hid Ht]] Hrest].
    { unfold carries. cbn. rewrite Hv. split_and!; [apply H|by apply Ho|done]. }
    split; [|exact Hrest]. by apply (ticketInv_spend _ (w_ledger w) _ (tk_id (att_QuotaTicket a0))); [..|apply ticketIDs_elem|].
  - destruct (Hs (outstandingOf (w_ledger w)) Hclock Hc He1 He2) as [[Hk [= Hid Ht]] Hrest].
    { unfold carries. cbn. rewrite Hv. split; [apply H|done]. }
    split; [|exact Hrest]. by apply (ticketInv_same _ (w_ledger w)).
Qed.

Lemma chain_attempt_tickets retry : attemptOK (fallbacks retry) chainInv chainInv (fun _ => True).
Proof.
  intros i cs w a0 last_ Hw Ha. cbv zeta. destruct (attempt_tickets a0 (ch_attempts cs) i last_ w Hw Ha) as [H1 H2].
  change (fx_Executor (fallbacks (mkRetryPolicy 0 [] false false 0 0))) with (fx_Executor (fallbacks retry)) in H1, H2.
  set (a := set_position _ _ a0) in *. destruct (fx_Executor (fallbacks retry) a w) as [w1 res|w1 k].
  { cbn. by destruct res. }
  assert (Hend : forall w' ok reserve cs', chainInv (ch_attempts cs') w' ->
    let r := runTree reserve (k w' ok) cs' in chainInv (ch_attempts r.1.1) r.1.2).
  { intros w' ok reserve cs' H. destruct (H2 w' ok) as (res & w'' & -> & E). cbn. by rewrite E. }
  assert (Hgoal : let r := runTree (reserveClosure (fallbacks retry) cs i) (TReserve w1 k) cs in chainInv (ch_attempts r.1.1) r.1.2).
  { cbn [runTree]. unfold reserveClosure. cbn [fx_ReserveQuota executeFallbacks]. case_bool_decide; [|by apply Hend].
    pose proof (reserveFrom_tickets retry (seq (S i) (List.length (ch_attempts cs) - S i)) cs w1 H1) as Hr.
    unfold reserveNextExecutableAttempt. destruct (reserveFrom _ _ cs w1) as [[cs' w'] ok]. by apply Hend. }
  cbv zeta in Hgoal. destruct (runTree _ _ cs) as [[cs' w'] [err|]]; cbn in *; [by split|done].
Qed.

(** The deferred release of the chain. *)
Lemma releaseTickets_tickets retry attempts : forall w,
  chainInv attempts w -> chainInv [] (releaseTickets (fallbacks retry) attempts w).
Proof.
  induction attempts as [|a attempts IH]; intros w H; [done|]. unfold releaseTickets in *. cbn [fold_left]. apply IH.
  pose proof (ticketInv_owns _ _ a H ltac:(left)) as Ho. destruct H as (Hk & HL & Hf & H1 & H2). inversion_clear Hf as [|? ? _ Hf'].
  rewrite ticketIDs_cons in H1, H2.
  destruct (ticket_Valid (att_QuotaTicket a)); simpl in H1, H2; [|by split_and!].
  destruct (Release_deletes (att_QuotaTicket a) (clock (w_tick w)) (w_ledger w) Hk (Ho eq_refl)) as (E1 & E2 & E3).
  change ((Release _ _ _).1) with (w_ledger (fx_Release (fallbacks retry) (att_QuotaTicket a) w)) in E1, E2, E3.
  set (l' := w_ledger (fx_Release (fallbacks retry) (att_QuotaTicket a) w)) in *. split_and!; [done|congruence|done| |].
  - intros id Hid. apply H1. by right.
  - intros id Hid. rewrite E1. destruct (decide (id = tk_id (att_QuotaTicket a))) as [->|Hne].
    + rewrite lookup_delete_eq. symmetry. apply H1. by left.
    + rewrite lookup_delete_ne by done. apply H2. rewrite elem_of_cons. tauto.
Qed.
End chain.

(** The attempts that reach the gates are as they were planned. *)
Lemma Plan_planned decision category requestedModel : Forall planned (Plan Select svc decision category requestedModel).
Proof.
  unfold Plan. cbv zeta. destruct (_ && _).
  - apply Forall_fmap, Forall_true. by intros t.
  - pose proof (planModels_inv decision (md_Profile (Select category requestedModel)) (planProviders decision) (md_ModelChain (Select category requestedModel)) [] (∅, [])) as H.
    destruct H as (_ & _ & H3 & _); [split_and!; [done|by apply NoDup_nil|intros a Ha; by apply elem_of_nil in Ha|intros m p Hm; by apply elem_of_nil in Hm]|].
    apply Forall_forall. intros a Ha. by destruct (H3 a Ha) as [_ ->].
Qed.

Lemma Forall_filter_planned (f : modelAttempt -> bool) l : Forall planned l -> Forall planned (List.filter f l).
Proof. rewrite !Forall_forall. intros H a Ha. apply list_elem_of_In, List.filter_In in Ha as [Ha _]. by apply H, list_elem_of_In. Qed.

Lemma rescue_planned category opPath required : Forall planned (capabilityRescue svc idx category opPath required).
Proof.
  unfold capabilityRescue. destruct (negb _); cbv zeta.
  - match goal with |- context [fold_left (fun acc p => fold_left _ ?ts acc)] => pose proof (rescue_outer svc idx category opPath required ts rescueProviders (∅, [])) as H end.
    destruct H as ((_ & _ & H) & _); [split_and!; [intros k; by rewrite elem_of_nil|by apply NoDup_nil|constructor]|].
    eapply Forall_impl; [exact H|]. intros a (_ & t & _ & ->). done.
  - apply Forall_fmap, Forall_true. by intros m.
Qed.

Lemma eligible_planned decision category requestedModel opPath required :
  Forall planned (eligibleAttempts Select svc cr cx apiKey idx decision category requestedModel opPath required).2.
Proof.
  unfold eligibleAttempts. cbv zeta. cbn [snd].
  set (l := if empty_str opPath then _ else _). assert (H : Forall planned l).
  { unfold l. case_match; [apply Plan_planned|]. apply Forall_fmap. eapply Forall_impl; [apply Plan_planned|]. by intros a. }
  destruct (0 <? _)%nat; [|by apply Forall_filter_planned]. apply Forall_filter_planned. unfold applyCapabilityFilter. cbv zeta.
  case_match; [by do 2 apply Forall_filter_planned|apply rescue_planned].
Qed.

Lemma available_planned st ck i attempts : Forall planned attempts -> Forall planned (filterAvailableFrom svc st ck i attempts).
Proof. intros H. revert i. induction H as [|a attempts Ha H IH]; intros i; [constructor|]. simpl. case_match; [constructor; auto|auto]. Qed.

Lemma context_planned attempts e : Forall planned attempts -> Forall planned (filterContextFit windows attempts e).1.
Proof.
  intros H. unfold filterContextFit. case_bool_decide; [done|]. assert (Hg : forall acc, Forall planned acc.1 -> Forall planned (fold_left (contextStep windows e) attempts acc).1);
    [|by apply Hg; constructor].
  induction H as [|a attempts Ha H IH]; intros [out n] Hacc; [done|]. cbn [fold_left]. apply IH. unfold contextStep. case_match; [done|].
  apply Forall_app. split; [done|by constructor].
Qed.

(** ** The gates *)

Section gate.
Context (T0 : gmap Z quotaTicketState).

Definition clean (l : QuotaLedger) : Prop := kept l /\ lg_tickets l = T0.

(** The chain that may run: its primary holds the only new ticket. *)
Definition readyChain (models : list modelAttempt) (l : QuotaLedger) : Prop :=
  match models with
  | [] => clean l
  | primary :: rest => ticket_Valid (att_QuotaTicket primary) = true /\ Forall planned rest /\ ticketInv (lg_id l) T0 models l
  end.

Lemma ticketIDs_planned l : Forall planned l -> ticketIDs l = [].
Proof. intros H. induction H as [|a l [Ha _] H IH]; [done|]. by rewrite ticketIDs_cons, Ha, IH. Qed.

Lemma planned_entry L a : planned a -> (ticket_Valid (att_QuotaTicket a) = true -> tk_ledger (att_QuotaTicket a) = Some L) /\ estimateOK (att_QuotaEstimate a).
Proof. intros [-> ->]. split; [done|]. split; vm_compute; discriminate. Qed.

Lemma reserveRanked_ready now_ ranked : forall n l,
  0 <= now_ -> Forall planned ranked -> clean l ->
  let '(l', out) := reserveRanked fingerprint svc env cr cx apiKey (fun _ l => l) estimate now_ n ranked l in readyChain out l'.
Proof.
  induction ranked as [|a rest IH]; intros n l Hn Hp Hl; [done|]. inversion_clear Hp as [|? ? Ha Hrest]. cbn [reserveRanked].
  pose proof (reserveAll_holds fingerprint svc env (outstandingOf l) a (credentialFor svc cr cx apiKey a) estimate now_ l Hbase Hn (conj (proj1 Hl) eq_refl)) as H.
  destruct (quotaReservations _ _ _ _ _ _ _ _) as [l1 rs]. destruct (ReserveAll rs now_ l1) as [l2 [t|]].
  - destruct H as (Hh & Hfresh & Hid). pose proof (held_valid t _ _ Hh) as Hv. destruct Hh as (Hk & _ & [= Hi Hd]). destruct Hl as [_ HT].
    rewrite HT in Hd, Hfresh. split; [done|]. split; [done|].
    assert (Hids : ticketIDs (set_Estimate (providerQuotaEstimate env a estimate) (set_Ticket t a) :: rest) = [tk_id t])
      by (rewrite ticketIDs_cons, (ticketIDs_planned rest Hrest); simpl; by rewrite Hv).
    split_and!; [done|done| | |].
    + constructor; [split; [simpl; congruence|by apply estimateOK_provider]|]. eapply Forall_impl; [exact Hrest|]. apply planned_entry.
    + rewrite Hids. by intros id ->%list_elem_of_singleton.
    + rewrite Hids. intros id Hne. rewrite <- Hd. rewrite lookup_delete_ne; [done|]. intros <-. apply Hne. by left.
  - apply IH; [done|done|]. destruct H as [Hk [= _ Ht]]. split; [done|]. destruct Hl as [_ <-]. done.
Qed.

Lemma rankAndReserve_ready ck attempts s :
  0 <= ck 0%nat -> Forall planned attempts -> clean (ro_ledger s) ->
  let '(s', out) := quotaRankAndReserve fingerprint svc env cr cx apiKey (fun _ l => l) ck attempts estimate s in readyChain out (ro_ledger s').
Proof.
  intros Hn Hp Hl. unfold quotaRankAndReserve. destruct attempts as [|a0 attempts]; [done|].
  destruct (quotaRank _ _ _ _ _ _ _ _ _ _) as [s1 ranked] eqn:E. apply quotaRank_spec in E as (H1 & H2 & _ & H4 & _); [|apply Hl|done].
  pose proof (reserveRanked_ready (ck 0%nat) ranked 0 (ro_ledger s1) Hn) as H.
  destruct (reserveRanked _ _ _ _ _ _ _ _ _ _ _ _) as [l out]. apply H.
  - apply Forall_forall. intros b Hb. eapply elem_of_submseteq in H4; [|exact Hb]. apply list_elem_of_fmap in H4 as (c & -> & Hc).
    rewrite Forall_forall in Hp. by apply Hp in Hc.
  - split; [done|]. rewrite H2. apply Hl.
Qed.

Lemma retryLoop_clean now_ cooldowns attempts : forall soon l, 0 <= now_ -> clean l ->
  clean (retryLoop fingerprint svc env cr cx apiKey cooldowns estimate now_ attempts soon l).1.
Proof.
  induction attempts as [|b attempts IH]; intros soon l Hn [Hk HT]; cbn [retryLoop]; [done|].
  destruct (attemptReadyIn _ _ _ _ _ _ _ _ _ b l) as [l1 d] eqn:E. assert (Hl1 : clean l1).
  { unfold attemptReadyIn in E. rewrite (quotaReservations_purge _ _ _ _ Hn) in E by done. pose proof (tidy_purge now_ l Hk) as Ht.
    destruct (quotaReservations _ _ _ _ _ _ _ _) as [l2 rs] eqn:E2. apply (quotaReservations_spec _ _ _ _ Hn) in E2 as (_ & [H2 _] & H3 & _); [|done].
    apply waitLoop_spec in E as ([[Hk1 _] [Ht1 _]] & _); [|done]. split; [done|]. rewrite Ht1, H3. exact HT. }
  case_match; by apply IH.
Qed.

#[local] Abbreviation ledger P := (fun w => P (w_ledger w)).

Lemma quotaWaitFor_clean attempts : leads (ledger clean) (waitFor attempts) (fun _ => ledger clean).
Proof.
  intros w Hw. unfold quotaWaitFor, bind, onLedger. cbn. unfold quotaRetryAfterForAttempts.
  pose proof (retryLoop_clean (clock (w_tick w)) (w_cooldowns w) attempts 0 (w_ledger w) (Hclock _) Hw) as H. by destruct (retryLoop _ _ _ _ _ _ _ _ _ _ _ _).
Qed.

Lemma gates_ready attempts :
  Forall planned attempts -> leads (ledger clean) (gates attempts) (fun r w => (r.1.1.2 = [] -> r.1.1.1 = []) /\ readyChain r.1.1.1 (w_ledger w)).
Proof.
  intros Hp w Hw. unfold Dispatch.gates, bind, gets, skipTicks. cbn -[filterContextFit Nat.mul].
  match goal with |- context [filterContextFit windows ?av _] => pose proof (context_planned av contextEstimate (available_planned _ _ _ _ Hp)) as Hc end.
  destruct (filterContextFit _ _ _) as [fitting excluded]. cbn -[Nat.mul] in Hc |- *. unfold onRouting.
  match goal with |- context [quotaRankAndReserve _ _ _ _ _ _ _ ?ck fitting estimate ?s] =>
    pose proof (rankAndReserve_ready ck fitting s (Hclock _) Hc Hw) as H;
    assert (Hnil : fitting = [] -> (quotaRankAndReserve fingerprint svc env cr cx apiKey (fun _ l => l) ck fitting estimate s).2 = []) by (by intros ->);
    destruct (quotaRankAndReserve _ _ _ _ _ _ _ ck fitting estimate s) as [s' out] end.
  exact (conj Hnil H).
Qed.

Lemma allCooling_clean attempts : leads (ledger clean) (cooling attempts) (fun _ => ledger clean).
Proof.
  unfold allCooling. eapply leads_bind; [apply (leads_keeps w_ledger clean); frame|intros ?]. eapply leads_bind; [apply (leads_keeps w_ledger clean); frame|intros ?].
  cbv zeta. eapply leads_bind; [apply quotaWaitFor_clean|intros ?]. apply (leads_keeps w_ledger clean). unfold retryAfterHeader, Dispatch.refuse, failTraceWith. frame.
Qed.

Lemma gateLoop_ready fuel : forall n deadline budget attempts h,
  Forall planned attempts ->
  leads (ledger clean) (loop fuel n deadline budget attempts h)
    (fun r w => match r.2 with GReady models => models <> [] /\ readyChain models (w_ledger w) | _ => clean (w_ledger w) end).
Proof.
  set (Q := fun (r : admissionHold * gateResult) w => match r.2 with GReady models => models <> [] /\ readyChain models (w_ledger w) | _ => clean (w_ledger w) end).
  assert (Hret : forall (m : prog unit) h, leads (ledger clean) m (fun _ => ledger clean) -> leads (ledger clean) (m ;; ret (h, GAnswered)) Q).
  { intros m h Hm. eapply leads_bind; [exact Hm|intros ?]. by apply leads_ret. }
  assert (Hrefuse : forall o s m, keeps w_ledger (refuse o s m)) by (intros; unfold Dispatch.refuse, failTraceWith; frame).
  induction fuel as [|fuel IH]; intros n deadline budget attempts h Hp; [by apply leads_ret|].
  cbn [gateLoop]. eapply leads_bind; [by apply gates_ready|]. intros [[[ready fitting] excluded] before]. cbn [fst snd].
  destruct ready as [|primary ready].
  - apply (leads_weaken _ (ledger clean)); [by intros w [_ H]|]. apply leads_if; [apply Hret, (leads_keeps w_ledger clean), Hrefuse|].
    eapply leads_bind; [apply (leads_keeps w_ledger clean); frame|intros ?]. cbn [List.length Nat.ltb Nat.leb].
    eapply leads_bind; [apply leads_if; [apply quotaWaitFor_clean|by apply leads_ret]|intros wait].
    apply leads_if; [|apply Hret, allCooling_clean]. eapply leads_bind; [apply (leads_keeps w_ledger clean); unfold holdForQuotaReset; frame|intros held].
    apply leads_if; [|apply Hret, allCooling_clean]. destruct (reacquireHold _ _ _) as [h' ok]. apply leads_if; [by apply IH|].
    do 2 (eapply leads_bind; [apply (leads_keeps w_ledger clean); frame|intros ?]). apply Hret, (leads_keeps w_ledger clean), Hrefuse.
  - destruct fitting as [|b fitting]; [by intros w [H _]; specialize (H eq_refl)|]. cbn [List.length Nat.eqb]. rewrite andb_false_r. cbn [andb].
    apply (leads_weaken _ (fun w => readyChain (primary :: ready) (w_ledger w))); [by intros w [_ H]|].
    eapply leads_bind; [apply (leads_keeps w_ledger (readyChain (primary :: ready))); frame|intros ?]. by apply leads_ret.
Qed.
End gate.

(** Cutting the chain at [MaxAttempts] keeps the primary. *)
Lemma truncateChain_ids retry primary rest :
  Forall planned rest ->
  ticketIDs (truncateChain retry (primary :: rest)) = ticketIDs (primary :: rest) /\ forall x, x ∈ truncateChain retry (primary :: rest) -> x ∈ primary :: rest.
Proof.
  intros Hp. unfold truncateChain. destruct (_ && _) eqn:E; [|done]. apply andb_true_iff in E as [E _]. apply Z.ltb_lt in E.
  assert (Hn : exists n, Z.to_nat (MaxAttempts retry) = S n) by (exists (Z.to_nat (MaxAttempts retry) - 1)%nat; lia). destruct Hn as [n ->]. cbn [take].
  assert (Hids : forall l, Forall planned l -> ticketIDs (primary :: l) = ticketIDs [primary]).
  { intros l Hl. by rewrite !ticketIDs_cons, (ticketIDs_planned l Hl). }
  split.
  - rewrite (Hids rest Hp), Hids; [done|by apply Forall_take].
  - intros x. rewrite !elem_of_cons. intros [->|Hx]; [by left|]. right. by eapply elem_of_take in Hx as (i & Hi & _); eapply list_elem_of_lookup_2.
Qed.

Lemma runChain_clean T0 decision planned_ afterCaps required models :
  models <> [] ->
  leads (fun w => readyChain T0 models (w_ledger w))
    (runChain fingerprint ParseTime ParseDuration decodeError decodeRelayed encodeView encodeError badURL transformResponse
       svc env cr cx apiKey traceFull estimate wireBody wireEstimate clock reply ctxAtEnd decision planned_ afterCaps required models)
    (fun _ w => clean T0 (w_ledger w)).
Proof.
  intros Hne. destruct models as [|primary rest]; [done|]. set (models := primary :: rest) in *. unfold runChain. cbv zeta.
  eapply leads_bind; [apply (leads_keeps w_ledger (readyChain T0 models)); frame|intros deferredAt].
  eapply leads_bind; [apply (leads_keeps w_ledger (readyChain T0 models)); frame|intros ?].
  set (ms := truncateChain _ models). set (tk := att_QuotaTicket primary).
  apply (leads_bind _ _ (fun _ w => exists L, ticket_Valid tk = true /\ T0 !! tk_id tk = None /\ tk_ledger tk = Some L /\ ticketInv L T0 [] (w_ledger w))).
  - intros w (Hv & Hrest & Hinv). set (L := lg_id (w_ledger w)) in *.
    destruct (truncateChain_ids (pd_RetryPolicy decision) primary rest Hrest) as [Hids Hsub]. fold models ms in Hids, Hsub.
    assert (Hms' : ticketInv L T0 ms (w_ledger w)).
    { destruct Hinv as (H1 & H2 & H3 & H4 & H5). split_and!; [done|done| |by rewrite Hids|by rewrite Hids]. rewrite Forall_forall in H3 |- *. auto. }
    destruct (Execute_invariant (fallbacks (pd_RetryPolicy decision)) (fun l w => ticketInv L T0 l (w_ledger w)) (fun l w => ticketInv L T0 l (w_ledger w)) (fun _ => True)
      (chain_attempt_tickets L T0 _) (fun _ _ _ H => H) ms w Hms') as (st & E & H).
    destruct (Execute _ ms w) as [[st' w'] err]. cbn in E, H. injection E as -> ->. cbn. exists L.
    assert (Hend : ticketInv L T0 (ch_attempts (lp_chain st)) (w_ledger (lp_world st))) by (destruct err; [apply H|done]).
    split_and!; [done| | |by apply releaseTickets_tickets].
    + apply Hinv. apply ticketIDs_elem; [left|done].
    + destruct Hinv as (_ & _ & Hf & _). inversion_clear Hf as [|? ? [Hl _] _]. by apply Hl.
  - intros err. apply (leads_bind _ _ (fun _ w => exists L, ticket_Valid tk = true /\ T0 !! tk_id tk = None /\ tk_ledger tk = Some L /\ ticketInv L T0 [] (w_ledger w))).
    + apply (leads_keeps w_ledger (fun l => exists L, ticket_Valid tk = true /\ T0 !! tk_id tk = None /\ tk_ledger tk = Some L /\ ticketInv L T0 [] l)).
      destruct err; [|apply keeps_ret]. unfold chainFailed, retryAfterHeader, Dispatch.refuse, failTraceWith. frame.
    + intros ?. change (default noTicket (att_QuotaTicket <$> head models)) with tk. intros w (L & Hv & HT & Hl & Hk & HL & _ & _ & Hout). rewrite Hv.
      assert (Ho : owns (w_ledger w) tk = true).
      { unfold owns. rewrite Hl, HL, bool_decide_eq_true_2 by done. unfold ticket_Valid in Hv. rewrite Hl in Hv. by simpl in *. }
      destruct (Release_deletes tk deferredAt (w_ledger w) Hk Ho) as (E1 & E2 & E3). split; [exact E2|]. change (lg_tickets (Release tk deferredAt (w_ledger w)).1 = T0).
      rewrite E1. assert (Hsame : lg_tickets (w_ledger w) = T0) by (apply map_eq; intros id; apply Hout, not_elem_of_nil).
      rewrite Hsame. by apply delete_id.
Qed.

Lemma dispatch_clean T0 traceID decision category requestedModel stream opPath required h :
  leads (fun w => clean T0 (w_ledger w)) (dispatch traceID decision category requestedModel stream opPath required h) (fun _ w => clean T0 (w_ledger w)).
Proof.
  unfold dispatchChain. eapply leads_bind; [|intros ?; apply (leads_keeps w_ledger (clean T0)), keeps_bind; [by apply finishTrace_keeps|intros ?; apply keeps_ret]].
  unfold dispatchSteps. pose proof (eligible_planned decision category requestedModel opPath required) as Hp.
  eapply leads_bind; [apply (leads_keeps w_ledger (clean T0)); frame|intros ?]. eapply leads_bind; [apply (leads_keeps w_ledger (clean T0)); frame|intros deadline].
  apply leads_if; [apply (leads_keeps w_ledger (clean T0)); unfold Dispatch.refuse, failTraceWith; frame|].
  destruct (eligibleAttempts _ _ _ _ _ _ _ _ _ _ _) as [n attempts].
  apply leads_if; [apply (leads_keeps w_ledger (clean T0)); unfold Dispatch.refuse, failTraceWith; frame|]. cbv zeta.
  eapply leads_bind; [apply (leads_keeps w_ledger (clean T0)); frame|intros ?].
  eapply leads_bind; [by apply (gateLoop_ready T0)|]. intros [h' r]. destruct r as [models| |]; cbn [snd]; [|by apply leads_ret..].
  intros w [Hne Hw].
  match goal with |- clean T0 (w_ledger (?m w).1) => enough (H : leads (fun w => readyChain T0 models (w_ledger w)) m (fun _ w => clean T0 (w_ledger w))) by (by apply H) end.
  eapply leads_bind; [by apply runChain_clean|intros ?; by apply leads_ret].
Qed.
End tickets.

(** C6: a request leaves the ledger as it found it.  Whatever the upstreams
    reply, however many waits and fallbacks there are, and also when the client
    is refused, every ticket the request took (for its primary, for the
    fallbacks it reserved, for the attempts that reserved their own) is off the
    ledger when it returns, the tickets of other requests are untouched, and
    the ledger keeps its invariant.  It is assumed that the estimates of what a
    request costs fit in 64 bits and those of its attempts are not negative. *)
Theorem dispatch_leaves_no_ticket traceID decision category requestedModel stream opPath required h w :
  (forall n, 0 <= clock n) -> estimateOK estimate -> (forall a, inRange (providerQuotaEstimate env a (wireEstimate a))) -> kept (w_ledger w) ->
  let w' := (dispatch traceID decision category requestedModel stream opPath required h w).1 in
  lg_tickets (w_ledger w') = lg_tickets (w_ledger w) /\ kept (w_ledger w').
Proof.
  intros Hclock Hbase Hwire Hk. cbv zeta.
  destruct (dispatch_clean Hclock Hbase Hwire (lg_tickets (w_ledger w)) traceID decision category requestedModel stream opPath required h w (conj Hk eq_refl)) as [H1 H2].
  by split.
Qed.

(** The chain runs only under the request's admission slot.  A request
    that was admitted gives its slot up while it waits for quota; whenever the
    gates then let its chain run, it holds a slot again. *)
Theorem chain_runs_admitted fuel n deadline budget attempts h w :
  h_held h = true ->
  match (loop fuel n deadline budget attempts h w).2 with (h', GReady _) => h_held h' = true | _ => True end.
Proof.
  intros Hh. enough (H : leads (fun _ => True) (loop fuel n deadline budget attempts h) (fun r _ => match r with (h', GReady _) => h_held h' = true | _ => True end))
    by (by apply H).
  revert n budget h Hh. induction fuel as [|fuel IH]; intros n budget h Hh; [by apply leads_ret|]. cbn [gateLoop].
  assert (Hret : forall (m : prog unit) h, leads (fun _ => True) (m ;; ret (h, GAnswered)) (fun r _ => match r with (h', GReady _) => h_held h' = true | _ => True end)).
  { intros m h0. apply (leads_bind _ _ (fun _ _ => True)); [done|intros ?; by apply leads_ret]. }
  apply (leads_bind _ _ (fun _ _ => True)); [done|]. intros [[[ready fitting] excluded] before]. apply leads_if; [apply Hret|].
  apply (leads_bind _ _ (fun _ _ => True)); [done|intros _]. apply leads_if; [by apply leads_ret|].
  apply (leads_bind _ _ (fun _ _ => True)); [done|intros wait]. apply leads_if; [|apply Hret].
  apply (leads_bind _ _ (fun _ _ => True)); [done|intros held]. apply leads_if; [|apply Hret].
  destruct (reacquireHold _ _ _) as [h' ok] eqn:E. destruct ok.
  - apply IH. unfold reacquireHold in E. repeat case_match; by simplify_eq.
  - do 2 (apply (leads_bind _ _ (fun _ _ => True)); [done|intros _]). apply Hret.
Qed.
End dispatch.

(** ** Witnesses *)

Section witness.
Definition wit_Select (category requestedModel : string) : modelDecision := mkModelDecision category ["vendor/model:free"; "vendor/other:free"].
Definition wit_hold : admissionHold := mkHold TakeToken true.
Definition wit_admission : admissionControl := mkAdmission (Some 2) (5 * Second).

(** One request that is answered, on a service with a ticket outstanding. *)
Definition wit_dispatch (reply_ : upstreamReply) : world * admissionHold :=
  dispatchChain (fun c => c) (fun _ => None) (fun _ => None) (fun _ => None) (fun _ => None) (fun _ => "") (fun m => m) (fun _ => None) (fun b => b) wit_Select
    wit_svc ∅ wit_credentials wit_context "key" false wit_admission (newCapabilityIndex ∅) ∅ None wit_estimate wit_estimate
    (fun _ => "{}") (fun _ => wit_estimate) wit_clock (fun _ _ => reply_) (fun _ => true) (fun _ => true) CtxLive
    "id" defaultAllowedDecision "simple" "" false "" [] wit_hold wit_world.

Lemma wit_budget : quotaHoldBudget ∅ <= max_int64 - quotaHoldSettle.
Proof. vm_compute. discriminate. Qed.

Lemma dispatch_answers_once_witness :
  rw_statuses (w_writer (wit_dispatch wit_good).1) = [200] /\
  answered (client (wit_dispatch wit_limited).1) /\
  forall t, w_trace (wit_dispatch wit_limited).1 = Some t -> exists ring, w_ring (wit_dispatch wit_limited).1 = add t ring.
Proof.
  split; [vm_compute; reflexivity|]. unfold wit_dispatch.
  pose proof (dispatch_answers_once (fun c => c) (fun _ => None) (fun _ => None) (fun _ => None) (fun _ => None) (fun _ => "") (fun m => m) (fun _ => None) (fun b => b) wit_Select
    wit_svc ∅ wit_credentials wit_context "key" false wit_admission (newCapabilityIndex ∅) ∅ None wit_estimate wit_estimate
    (fun _ => "{}") (fun _ => wit_estimate) wit_clock (fun _ _ => wit_limited) (fun _ => true) (fun _ => true) CtxLive
    "id" defaultAllowedDecision "simple" "" false "" [] wit_hold wit_world wit_budget eq_refl) as H.
  cbv zeta in H. exact H.
Defined.

Lemma wit_clock_pos n : 0 <= wit_clock n.
Proof. unfold wit_clock. lia. Qed.

Lemma wit_estimate_ok : estimateOK wit_estimate.
Proof. split; vm_compute; discriminate. Qed.

Lemma wit_range a : inRange (providerQuotaEstimate ∅ a wit_estimate).
Proof. unfold providerQuotaEstimate. simpl. repeat case_match; split; vm_compute; split; discriminate. Qed.

Lemma dispatch_leaves_no_ticket_witness :
  lg_tickets (w_ledger (wit_dispatch wit_good).1) = lg_tickets wit_ledger.
Proof.
  unfold wit_dispatch. pose proof (dispatch_leaves_no_ticket (fun c => c) (fun _ => None) (fun _ => None) (fun _ => None) (fun _ => None) (fun _ => "") (fun m => m) (fun _ => None) (fun b => b) wit_Select
    wit_svc ∅ wit_credentials wit_context "key" false wit_admission (newCapabilityIndex ∅) ∅ None wit_estimate wit_estimate
    (fun _ => "{}") (fun _ => wit_estimate) wit_clock (fun _ _ => wit_good) (fun _ => true) (fun _ => true) CtxLive
    "id" defaultAllowedDecision "simple" "" false "" [] wit_hold wit_world
    wit_clock_pos wit_estimate_ok wit_range (reachable_kept wit_ops 0 wit_ops_int64)) as H.
  cbv zeta in H. exact (proj1 H).
Defined.

(** The chain of an admitted request is let through, under its slot. *)
Lemma chain_runs_admitted_witness :
  exists h, (gateLoop (fun c => c) (fun _ => "") (fun m => m) wit_svc ∅ wit_credentials wit_context "key" false wit_admission ∅ wit_estimate wit_estimate
    wit_clock (fun _ => true) (fun _ => true) 2 0 None (75 * Second) [wit_attempt] wit_hold wit_world).2.1 = h /\ h_held h = true.
Proof.
  pose proof (chain_runs_admitted (fun c => c) (fun _ => "") (fun m => m) wit_svc ∅ wit_credentials wit_context "key" false wit_admission ∅ wit_estimate wit_estimate
    wit_clock (fun _ => true) (fun _ => true) 2 0 None (75 * Second) [wit_attempt] wit_hold wit_world eq_refl) as H.
  eexists. split; [reflexivity|].
  assert (E : match (gateLoop (fun c => c) (fun _ => "") (fun m => m) wit_svc ∅ wit_credentials wit_context "key" false wit_admission ∅ wit_estimate wit_estimate
    wit_clock (fun _ => true) (fun _ => true) 2 0 None (75 * Second) [wit_attempt] wit_hold wit_world).2.2 with GReady _ => true | _ => false end = true) by (vm_compute; reflexivity).
  destruct (gateLoop _ _ _ _ _ _ _ _ _ _ _ _ _ _ _ _ _ _ _ _ _ _ _) as [w [h' r]]. destruct r; [exact H|discriminate E|discriminate E].
Defined.
End witness.
