(* ===== verification/Json.v ===== *)
(** * Json: decoded bodies

    The values [encoding/json] decodes a body into, with the integers the
    router itself stores in one, the type assertions it makes on them, and what
    the quota estimate reads from a body.  A body is a Go map: [None] is the nil
    map, which JSON [null] decodes to. *)

From S2P Require Import Prelude Float Types Env Quota QuotaPolicy Eligibility.
From Stdlib Require Import Lia ZArith Ascii String SpecFloat.
#[local] Open Scope string_scope.
#[local] Open Scope Z_scope.

#[warnings="-register-all"]
Inductive json :=
| JNull
| JBool (b : bool)
| JNum (f : float64)
| JInt (n : Z)                       (* an int the router has put there *)
| JStr (s : string)
| JArr (l : list json)
| JObj (m : gmap string json).

Abbreviation object := (gmap string json).

(** ** Type assertions *)

Definition asStr (j : json) : option string := match j with JStr s => Some s | _ => None end.
Definition asArr (j : json) : option (list json) := match j with JArr l => Some l | _ => None end.
Definition asObj (j : json) : option object := match j with JObj m => Some m | _ => None end.
Definition asBool (j : json) : option bool := match j with JBool b => Some b | _ => None end.

(** [m[key]]: nil when the key is absent. *)
Definition at_ (m : object) (key : string) : json := default JNull (m !! key).

(** [s, _ := m[key].(string)] and the like. *)
Definition strAt (m : object) (key : string) : string := default "" (asStr (at_ m key)).
Definition arrAt (m : object) (key : string) : list json := default [] (asArr (at_ m key)).
Definition boolAt (m : object) (key : string) : bool := default false (asBool (at_ m key)).

Definition has (m : object) (key : string) : bool := bool_decide (is_Some (m !! key)).

(** Reading a nil map is reading an empty one. *)
Definition orEmpty (body : option object) : object := default ∅ body.

(** [delete] of several keys. *)
Definition deleteKeys (keys : list string) (m : object) : object := fold_left (fun m k => delete k m) keys m.

(** ** Numbers *)

(** The integer part of a finite float. *)
Definition float_trunc (f : float64) : option Z :=
  match f with
  | S754_zero _ => Some 0
  | S754_finite s m e =>
      let n := if 0 <=? e then Z.pos m * 2 ^ e else Z.pos m / 2 ^ (- e) in
      Some (if s then - n else n)
  | _ => None
  end.

(** [int(f)]: Go leaves the result to the implementation when the integer part
    is not an int; [conv] is that result. *)
Definition intOfFloat (conv : float64 -> Z) (f : float64) : Z :=
  match float_trunc f with
  | Some n => if (min_int64 <=? n) && (n <=? max_int64) then n else conv f
  | None => conv f
  end.

(** A value as the quota estimate sees it. *)
Definition goValueOf (j : json) : goValue :=
  match j with
  | JInt n => VInt n
  | JNum f => VFloat f
  | _ => VOther
  end.

(** The two estimates of a body; [encoded] is its encoding. *)
Definition bodyEstimate (conv : Z -> Z) (env : environ) (encoded : string) (body : option object) : QuotaEstimate :=
  estimateRequestQuota conv env (Z.of_nat (String.length encoded)) (fun key => goValueOf (at_ (orEmpty body) key)).

Definition bodyContext (conv : Z -> Z) (env : environ) (encoded : string) (body : option object) : QuotaEstimate :=
  estimateRequestContext (Z.of_nat (String.length encoded)) (bodyEstimate conv env encoded body).

(** ** Lemmas *)

Lemma at_insert m k v : at_ (<[k := v]> m) k = v.
Proof. unfold at_. by rewrite lookup_insert_eq. Qed.

Lemma at_insert_ne m k k' v : k <> k' -> at_ (<[k := v]> m) k' = at_ m k'.
Proof. intros H. unfold at_. by rewrite lookup_insert_ne. Qed.

Lemma deleteKeys_lookup keys m k : deleteKeys keys m !! k = if bool_decide (k ∈ keys) then None else m !! k.
Proof.
  unfold deleteKeys. revert m. induction keys as [|x keys IH]; intros m; simpl; [done|]. rewrite IH.
  repeat case_bool_decide; set_unfold; try tauto; [|apply lookup_delete_ne; intros ->; tauto].
  destruct (decide (k = x)) as [->|]; [by rewrite lookup_delete_eq|tauto].
Qed.

Lemma intOfFloat_range conv f : (forall f, in_int64 (conv f)) -> in_int64 (intOfFloat conv f).
Proof.
  intros H. unfold intOfFloat. destruct (float_trunc f) as [n|]; [|done]. destruct (_ && _) eqn:E; [|done].
  apply andb_true_iff in E as [E1 E2]. unfold in_int64. lia.
Qed.
