(* ===== verification/Request.v ===== *)
(** * Request: the body that is sent (router_policy_request.go, router_reasoning.go, provider_adapter*.go)

    What the router changes in a decoded body: the token clamp, the local-agent
    guardrail, the reasoning effort, and the keys a provider would reject.  The
    Go functions edit the request's own map, which nothing else reads, and
    return it; here they return the new body.  The bodies of the attempts are
    copies, so the shared one is the same for every attempt. *)

From S2P Require Import Prelude Float Types Env Text Registry Quota QuotaPolicy Eligibility Json.
From Stdlib Require Import Lia ZArith Ascii String SpecFloat.
#[local] Open Scope string_scope.
#[local] Open Scope Z_scope.

(** ** Tools and token limits *)

Definition nonEmptyArray (j : json) : bool := match asArr j with Some (_ :: _) => true | _ => false end.

Definition hasRequestTools (reqBody : option object) : bool :=
  nonEmptyArray (at_ (orEmpty reqBody) "tools") || nonEmptyArray (at_ (orEmpty reqBody) "functions").

Section numbers.
Context (conv : float64 -> Z).

Definition requestedMaxTokens (raw : json) : option Z :=
  match raw with
  | JNum f => Some (intOfFloat conv f)
  | JInt n => Some n
  | JStr s => let value := TrimSpace s in if empty_str value then None else Atoi value
  | _ => None
  end.

Definition clampKey (maximum : Z) (m : object) (key : string) : object :=
  match requestedMaxTokens (at_ m key) with
  | Some value => if maximum <? value then <[key := JInt maximum]> m else m
  | None => m
  end.

Definition clampRequestMaxTokens (reqBody : option object) (maximum : Z) : option object :=
  match reqBody with
  | None => None
  | Some m =>
      if maximum <=? 0 then Some m
      else
        let m := fold_left (clampKey maximum) ["max_completion_tokens"; "max_tokens"] m in
        Some (if negb (has m "max_completion_tokens") && negb (has m "max_tokens") then <["max_tokens" := JInt maximum]> m else m)
  end.

(** ** Policy facts *)

Record RequestedLimits := mkRequested {
  rl_BodyBytes : Z;
  rl_MaxTokens : Z;
  rl_Stream : bool;
  rl_Tools : bool;
  rl_Images : bool;
}.

Record policyRequestFacts := mkPolicyFacts {
  pf_Metadata : gmap string string;
  pf_RequestedLimits : RequestedLimits;
}.

Definition addTrimmed (key value : string) (m : gmap string string) : gmap string string :=
  if empty_str (TrimSpace value) then m else <[key := TrimSpace value]> m.

Definition requestPolicyFacts (reqBody : option object) (profile requestedModel : string) (stream hasTools hasImages : bool) (bodyBytes : Z) : policyRequestFacts :=
  let maxTokens := match orEmpty reqBody !! "max_tokens" with
                   | Some raw => default 0 (requestedMaxTokens raw)
                   | None => 0
                   end in
  mkPolicyFacts (addTrimmed "requested_model" requestedModel (addTrimmed "profile" profile ∅))
    (mkRequested bodyBytes maxTokens stream hasTools hasImages).

(** ** Provider schemas *)

Definition cloneRequestBody (body : option object) : object := orEmpty body.

Definition normalizeMessages (raw : json) (normalize : object -> object) : json :=
  match raw with
  | JArr messages => JArr ((fun rawMessage => match rawMessage with JObj message => JObj (normalize message) | _ => rawMessage end) <$> messages)
  | _ => raw
  end.

Definition withMessages (body : option object) (normalize : object -> object) (copy : object) : object :=
  match orEmpty body !! "messages" with
  | Some raw => <["messages" := normalizeMessages raw normalize]> copy
  | None => copy
  end.

Definition cerebrasMessage (message : object) : object :=
  let message := match message !! "reasoning_content" with
                 | Some reasoning => if has message "reasoning" then message else <["reasoning" := reasoning]> message
                 | None => message
                 end in
  delete "reasoning_content" message.

Definition cerebras_NormalizeRequest (body : option object) : object :=
  withMessages body cerebrasMessage (deleteKeys ["frequency_penalty"; "presence_penalty"; "logit_bias"] (cloneRequestBody body)).

Definition groqMessage (message : object) : object := deleteKeys ["reasoning_content"; "name"] message.

Definition groq_NormalizeRequest (body : option object) : object :=
  let copy := deleteKeys ["logprobs"; "top_logprobs"; "logit_bias"; "metadata"; "presence_penalty"] (cloneRequestBody body) in
  let copy := match requestedMaxTokens (at_ copy "n") with
              | Some n => if n =? 1 then copy else <["n" := JInt 1]> copy
              | None => copy
              end in
  withMessages body groqMessage copy.

(** [adapterForProvider(provider).NormalizeRequest(body)]. *)
Definition NormalizeRequest (provider : providerID) (body : option object) : object :=
  if str_eq provider providerCerebras then cerebras_NormalizeRequest body
  else if str_eq provider providerGroq then groq_NormalizeRequest body
  else cloneRequestBody body.
End numbers.

(** ** Reasoning effort *)

Definition parseReasoningEffort (raw : string) : option string :=
  let s := ToLower (TrimSpace raw) in
  if str_eq s "low" then Some "low"
  else if str_eq s "medium" || str_eq s "med" then Some "medium"
  else if str_eq s "high" then Some "high"
  else None.

Definition addReasoning (out : gmap string string) (entry : string * string) : gmap string string :=
  let '(profile, raw) := entry in
  let profile := TrimSpace profile in
  if empty_str profile then out
  else match parseReasoningEffort raw with Some effort => <[profile := effort]> out | None => out end.

(** [None]: the file does not decode or has no such section.  Go visits the
    entries in any order; here they are a list. *)
Definition parseReasoningProfiles (decoded : option (list (string * string))) : option (gmap string string) :=
  (fun entries => fold_left addReasoning entries ∅) <$> decoded.

(** The effort a request asks for: the header, then the query. *)
Definition withRequestReasoningEffort (header query : string) : option string :=
  match parseReasoningEffort header with Some effort => Some effort | None => parseReasoningEffort query end.

Definition requestReasoningEffort (requested : option string) : option string :=
  match requested with Some effort => if empty_str effort then None else Some effort | None => None end.

Definition bodyCarriesReasoning (body : option object) : bool :=
  has (orEmpty body) "reasoning_effort" || has (orEmpty body) "reasoning".

Section reasoning.
Context (env : environ) (reasoningProfiles : gmap string string) (requested : option string).

Definition resolveReasoningEffort (profile : string) : option string :=
  match requestReasoningEffort requested with
  | Some effort => Some effort
  | None => match reasoningProfiles !! TrimSpace profile with
            | Some effort => Some effort
            | None => parseReasoningEffort (envValue env "PROXY_REASONING_EFFORT")
            end
  end.

Definition applyReasoningEffort (body : object) (effort model : string) (caps : capabilityIndex) : object :=
  if empty_str effort then body
  else if satisfies caps model ["reasoning_effort"] then <["reasoning_effort" := JStr effort]> body
  else if satisfies caps model ["reasoning"] then <["reasoning" := JObj {["effort" := JStr effort]}]> body
  else body.

(** ** The body of an attempt *)

Definition requestBodyForAttempt (conv : float64 -> Z) (caps : capabilityIndex) (reqBody : option object) (attempt : modelAttempt) : object :=
  let body := NormalizeRequest conv (Provider attempt) reqBody in
  if bodyCarriesReasoning reqBody then body
  else match resolveReasoningEffort (Profile attempt) with
       | Some effort => applyReasoningEffort body effort (Model attempt) caps
       | None => body
       end.

(** With the model of the attempt, as the fallback loop sends it. *)
Definition attemptBody (conv : float64 -> Z) (caps : capabilityIndex) (reqBody : option object) (attempt : modelAttempt) : object :=
  <["model" := JStr (Model attempt)]> (requestBodyForAttempt conv caps reqBody attempt).
End reasoning.

(** ** What is sent *)

Definition tokenKeys : list string := ["max_completion_tokens"; "max_tokens"].

Lemma clampKey_spec conv maximum m key :
  (forall v, requestedMaxTokens conv (at_ (clampKey conv maximum m key) key) = Some v -> v <= maximum) /\
  (forall k, k <> key -> clampKey conv maximum m key !! k = m !! k) /\
  (forall v, requestedMaxTokens conv (at_ m key) = Some v -> v <= maximum -> clampKey conv maximum m key = m) /\
  (has (clampKey conv maximum m key) key = has m key).
Proof.
  unfold clampKey, has. destruct (requestedMaxTokens conv (at_ m key)) as [v|] eqn:E; [|split_and!; intros; try done; congruence].
  destruct (Z.ltb_spec maximum v); [|split_and!; intros; try done; congruence || (simplify_eq; lia)]. split_and!.
  - intros v'. rewrite at_insert. intros [= <-]. done.
  - intros k Hk. by apply lookup_insert_ne.
  - intros v' [= ->] ?. lia.
  - rewrite lookup_insert_eq, !bool_decide_eq_true_2; [done| |done]. unfold at_ in E. destruct (m !! key); [done|]. by simpl in E.
Qed.

(** The token clamp is a bound.  With a maximum, every token limit the
    upstream reads is at most that maximum and at least one is present; a limit
    that was within it, and everything else in the body, is as the client sent
    it. *)
Theorem clamp_bounds conv m maximum :
  0 < maximum ->
  exists m', clampRequestMaxTokens conv (Some m) maximum = Some m' /\
    (forall key v, key ∈ tokenKeys -> requestedMaxTokens conv (at_ m' key) = Some v -> v <= maximum) /\
    (has m' "max_completion_tokens" = true \/ has m' "max_tokens" = true) /\
    (forall k, k ∉ tokenKeys -> m' !! k = m !! k) /\
    (forall key v, key ∈ tokenKeys -> requestedMaxTokens conv (at_ m key) = Some v -> v <= maximum -> m' !! key = m !! key).
Proof.
  intros Hmax. unfold clampRequestMaxTokens. destruct (Z.leb_spec maximum 0); [lia|]. cbn [fold_left]. eexists. split; [done|].
  set (m1 := clampKey conv maximum m "max_completion_tokens"). set (m2 := clampKey conv maximum m1 "max_tokens").
  destruct (clampKey_spec conv maximum m "max_completion_tokens") as (A1 & A2 & A3 & A4).
  destruct (clampKey_spec conv maximum m1 "max_tokens") as (B1 & B2 & B3 & B4). fold m1 in A1, A2, A3, A4. fold m2 in B1, B2, B3, B4.
  assert (Hc : m2 !! "max_completion_tokens" = m1 !! "max_completion_tokens") by by apply B2.
  assert (Hm : at_ m1 "max_tokens" = at_ m "max_tokens") by (unfold at_; by rewrite A2).
  assert (Hkeys : forall key, key ∈ tokenKeys -> key = "max_completion_tokens" \/ key = "max_tokens") by (unfold tokenKeys; set_solver).
  destruct (negb (has m2 "max_completion_tokens") && _) eqn:E; split_and!.
  - intros key v [->| ->]%Hkeys; [rewrite at_insert_ne by done|rewrite at_insert; by intros [= <-]]. unfold at_. rewrite Hc. apply A1.
  - right. unfold has. by rewrite lookup_insert_eq.
  - intros k Hk. assert (k <> "max_completion_tokens" /\ k <> "max_tokens") as [? ?] by (unfold tokenKeys in Hk; set_solver).
    rewrite lookup_insert_ne, B2, A2; done.
  - intros key v Hk Hv _. apply andb_true_iff in E as [E1 E2]. rewrite negb_true_iff in E1, E2.
    assert (Hno : m !! key = None); [|unfold at_ in Hv; by rewrite Hno in Hv]. apply Hkeys in Hk as [-> | ->].
    + unfold has in E1. rewrite Hc in E1. apply bool_decide_eq_false in E1. fold (has m1 "max_completion_tokens") in *.
      assert (Hb : has m1 "max_completion_tokens" = false) by by apply bool_decide_eq_false. rewrite A4 in Hb.
      apply bool_decide_eq_false in Hb. by apply eq_None_not_Some.
    + rewrite B4 in E2. apply bool_decide_eq_false in E2. rewrite A2 in E2 by done. by apply eq_None_not_Some.
  - intros key v [->| ->]%Hkeys; [unfold at_; rewrite Hc; apply A1|apply B1].
  - apply andb_false_iff in E. rewrite !negb_false_iff in E. done.
  - intros k Hk. assert (k <> "max_completion_tokens" /\ k <> "max_tokens") as [? ?] by (unfold tokenKeys in Hk; set_solver).
    rewrite B2, A2; done.
  - intros key v [->| ->]%Hkeys Hv Hle; [rewrite Hc; by rewrite (A3 v)|]. rewrite (B3 v) by (rewrite ?Hm; done). by apply A2.
Qed.

Lemma clamp_bounds_witness :
  0 < 100 /\ exists m', clampRequestMaxTokens (fun _ => 0) (Some {["max_tokens" := JStr " 4096 "]}) 100 = Some m' /\
    (forall key v, key ∈ tokenKeys -> requestedMaxTokens (fun _ => 0) (at_ m' key) = Some v -> v <= 100).
Proof.
  split; [lia|]. destruct (clamp_bounds (fun _ => 0) {["max_tokens" := JStr " 4096 "]} 100) as (m' & H & H' & _); [lia|]. exists m'. by split.
Defined.

(** A conversion that wraps a float beyond the integers to the least of them
    lets the float through the clamp. *)
Definition huge : float64 := f_of_Z (10 ^ 300).

Lemma clamp_passes_huge_float : clampRequestMaxTokens (fun _ => min_int64) (Some {["max_tokens" := JNum huge]}) 100 = Some {["max_tokens" := JNum huge]}.
Proof. by vm_compute. Qed.

(** *** Schemas *)

(** The keys a provider rejects, in the body and in a message. *)
Definition rejected (provider : providerID) : list string :=
  if str_eq provider providerCerebras then ["frequency_penalty"; "presence_penalty"; "logit_bias"]
  else if str_eq provider providerGroq then ["logprobs"; "top_logprobs"; "logit_bias"; "metadata"; "presence_penalty"]
  else [].

Definition rejectedInMessage (provider : providerID) : list string :=
  if str_eq provider providerCerebras then ["reasoning_content"]
  else if str_eq provider providerGroq then ["reasoning_content"; "name"]
  else [].

(** A message as it is sent: without what the provider rejects, and with the
    rest as it was; Cerebras finds the reasoning under its other name. *)
Definition sentAs (provider : providerID) (j j' : json) : Prop :=
  match j with
  | JObj m => exists m', j' = JObj m' /\
      (forall k, k ∈ rejectedInMessage provider -> m' !! k = None) /\
      (forall k, k ∉ rejectedInMessage provider -> k <> "reasoning" -> m' !! k = m !! k) /\
      (m' !! "reasoning" = match m !! "reasoning" with
                           | Some r => Some r
                           | None => if str_eq provider providerCerebras then m !! "reasoning_content" else None
                           end)
  | _ => j' = j
  end.

Definition messageFor (provider : providerID) (m : object) : object :=
  if str_eq provider providerCerebras then cerebrasMessage m
  else if str_eq provider providerGroq then groqMessage m
  else m.

Lemma messageFor_sent provider m : sentAs provider (JObj m) (JObj (messageFor provider m)).
Proof.
  exists (messageFor provider m). split; [done|]. unfold messageFor, rejectedInMessage. destruct (str_eq provider providerCerebras).
  - unfold cerebrasMessage. set (m1 := match m !! "reasoning_content" with Some _ => _ | None => _ end).
    assert (Hr : m1 !! "reasoning" = match m !! "reasoning" with Some r => Some r | None => m !! "reasoning_content" end).
    { subst m1. unfold has. destruct (m !! "reasoning_content") as [r|]; [|by destruct (m !! "reasoning")].
      case_bool_decide as H; [by destruct H as [? ->]|]. rewrite lookup_insert_eq. apply eq_None_not_Some in H. by rewrite H. }
    assert (Ho : forall k, k <> "reasoning" -> m1 !! k = m !! k).
    { intros k Hk. subst m1. destruct (m !! "reasoning_content"); [|done]. destruct (has m "reasoning"); [done|]. by apply lookup_insert_ne. }
    split_and!; [| |by rewrite lookup_delete_ne].
    + intros k ->%list_elem_of_singleton. apply lookup_delete_eq.
    + intros k Hk Hn. rewrite lookup_delete_ne; [auto|]. intros <-. set_solver.
  - destruct (str_eq provider providerGroq); [|split_and!; [by intros ? ?%not_elem_of_nil|done|by destruct (m !! "reasoning")]].
    unfold groqMessage. split_and!; [intros k Hk|intros k Hk _|]; rewrite deleteKeys_lookup; [by rewrite bool_decide_eq_true_2|by rewrite bool_decide_eq_false_2|].
    rewrite bool_decide_eq_false_2 by set_solver. by destruct (m !! "reasoning").
Qed.

(** The normalized body, key by key. *)
Definition sentKeys : list string := ["model"; "messages"; "n"; "reasoning"; "reasoning_effort"].

Lemma withMessages_lookup body f copy k :
  withMessages body f copy !! k =
    if bool_decide (k = "messages") then match orEmpty body !! "messages" with Some raw => Some (normalizeMessages raw f) | None => copy !! k end else copy !! k.
Proof.
  unfold withMessages. case_bool_decide as H; [subst k|].
  - destruct (orEmpty body !! "messages"); [by rewrite lookup_insert_eq|done].
  - destruct (orEmpty body !! "messages"); [by rewrite lookup_insert_ne|done].
Qed.

Lemma NormalizeRequest_lookup conv provider body k :
  k <> "n" ->
  NormalizeRequest conv provider body !! k =
    if bool_decide (k = "messages") then (fun raw => normalizeMessages raw (messageFor provider)) <$> orEmpty body !! "messages"
    else if bool_decide (k ∈ rejected provider) then None else orEmpty body !! k.
Proof.
  intros Hn. unfold NormalizeRequest, rejected, messageFor, cerebras_NormalizeRequest, groq_NormalizeRequest, cloneRequestBody.
  destruct (str_eq provider providerCerebras); [|destruct (str_eq provider providerGroq)].
  - rewrite withMessages_lookup, deleteKeys_lookup. case_bool_decide as H1; [subst k|done]. by destruct (orEmpty body !! "messages").
  - rewrite withMessages_lookup. set (copy := deleteKeys _ _). set (copy' := match requestedMaxTokens _ _ with Some _ => _ | None => _ end).
    assert (Hc : copy' !! k = copy !! k).
    { subst copy'. destruct (requestedMaxTokens _ _) as [n|]; [|done]. destruct (n =? 1); [done|]. by rewrite lookup_insert_ne. }
    rewrite Hc. subst copy. rewrite deleteKeys_lookup. case_bool_decide as H1; [subst k|done]. by destruct (orEmpty body !! "messages").
  - case_bool_decide as H1; [subst k|by rewrite (bool_decide_eq_false_2 (k ∈ [])) by apply not_elem_of_nil].
    destruct (orEmpty body !! "messages") as [raw|]; [|done]. simpl. f_equal. unfold normalizeMessages. destruct raw as [| | | | |l|]; try done. f_equal.
    symmetry. rewrite <- (list_fmap_id l) at 2. apply list_fmap_ext. by intros ? [] ?.
Qed.

(** How many answers are asked for: Groq is asked for one. *)
Definition sentCount (conv : float64 -> Z) (provider : providerID) (count : option json) : option json :=
  match requestedMaxTokens conv (default JNull count) with
  | Some n => if str_eq provider providerGroq && negb (n =? 1) then Some (JInt 1) else count
  | None => count
  end.

Lemma NormalizeRequest_count conv provider body : NormalizeRequest conv provider body !! "n" = sentCount conv provider (orEmpty body !! "n").
Proof.
  unfold NormalizeRequest, sentCount, cerebras_NormalizeRequest, groq_NormalizeRequest, cloneRequestBody.
  destruct (str_eq provider providerCerebras) eqn:E; [apply str_eq_spec in E as ->|destruct (str_eq provider providerGroq)].
  - rewrite withMessages_lookup, deleteKeys_lookup. cbn. by destruct (requestedMaxTokens _ _).
  - rewrite withMessages_lookup. unfold at_. rewrite deleteKeys_lookup. cbn [bool_decide]. 
    change (bool_decide ("n" = "messages")) with false. change (bool_decide ("n" ∈ ["logprobs"; "top_logprobs"; "logit_bias"; "metadata"; "presence_penalty"])) with false. cbv iota.
    destruct (requestedMaxTokens _ _) as [n|]; [|by rewrite deleteKeys_lookup]. destruct (n =? 1); [by rewrite deleteKeys_lookup|by rewrite lookup_insert_eq].
  - by destruct (requestedMaxTokens _ _).
Qed.

Lemma attemptBody_lookup env profiles requested conv caps body a k :
  k ∉ ["model"; "reasoning"; "reasoning_effort"] ->
  attemptBody env profiles requested conv caps body a !! k = NormalizeRequest conv (Provider a) body !! k.
Proof.
  intros Hk. assert (k <> "model" /\ k <> "reasoning" /\ k <> "reasoning_effort") as (H1 & H2 & H3) by set_solver.
  unfold attemptBody, requestBodyForAttempt, applyReasoningEffort. rewrite lookup_insert_ne by done.
  repeat (case_match; try done); by rewrite lookup_insert_ne.
Qed.

(** *** Reasoning *)

Definition efforts : list string := ["low"; "medium"; "high"].

Lemma parseReasoningEffort_valid raw e : parseReasoningEffort raw = Some e -> e ∈ efforts.
Proof. unfold parseReasoningEffort, efforts. intros H. repeat case_match; simplify_eq; set_solver. Qed.

Lemma parseReasoningProfiles_valid entries : forall out,
  (forall p e, out !! p = Some e -> e ∈ efforts) -> forall p e, fold_left addReasoning entries out !! p = Some e -> e ∈ efforts.
Proof.
  induction entries as [|[p0 raw] entries IH]; intros out Hout; [done|]. simpl. apply IH. intros p e.
  destruct (empty_str (TrimSpace p0)); [apply Hout|]. destruct (parseReasoningEffort raw) as [e0|] eqn:E; [|apply Hout].
  rewrite lookup_insert_Some. intros [[_ <-]|[_ H]]; [by eapply parseReasoningEffort_valid|by eapply Hout].
Qed.

Lemma resolveReasoningEffort_valid env decoded header query profile e :
  resolveReasoningEffort env (default ∅ (parseReasoningProfiles decoded)) (withRequestReasoningEffort header query) profile = Some e -> e ∈ efforts.
Proof.
  unfold resolveReasoningEffort, requestReasoningEffort, withRequestReasoningEffort.
  assert (Hp : forall p e, default ∅ (parseReasoningProfiles decoded) !! p = Some e -> e ∈ efforts).
  { destruct decoded as [entries|]; simpl; [by apply parseReasoningProfiles_valid|done]. }
  intros H. destruct (parseReasoningEffort header) as [e1|] eqn:E1; [|destruct (parseReasoningEffort query) as [e1|] eqn:E2].
  1,2: apply parseReasoningEffort_valid in E1 || apply parseReasoningEffort_valid in E2; destruct (empty_str e1) eqn:E;
    [apply empty_str_spec in E as ->; unfold efforts in *; set_solver|by simplify_eq].
  destruct (_ !! TrimSpace profile) as [e1|] eqn:E3; [simplify_eq; by eapply Hp|by eapply parseReasoningEffort_valid].
Qed.

(** The reasoning effort has one owner.  What the client's body says about
    reasoning is sent as it is; otherwise the effort is the header's or the
    query's, else the profile's, else the environment's, always one of low,
    medium and high, and it is sent only in the form the model is known to
    accept: flat, else as an object, else not at all. *)
Theorem reasoning_precedence env decoded header query conv caps body a :
  let profiles := default ∅ (parseReasoningProfiles decoded) in
  let requested := withRequestReasoningEffort header query in
  let sent := attemptBody env profiles requested conv caps body a in
  let effort := match requested, profiles !! TrimSpace (Profile a) with
                | Some e, _ => Some e
                | None, Some e => Some e
                | None, None => parseReasoningEffort (envValue env "PROXY_REASONING_EFFORT")
                end in
  (forall e, effort = Some e -> e ∈ efforts) /\
  (sent !! "reasoning_effort", sent !! "reasoning") =
    if bodyCarriesReasoning body then (orEmpty body !! "reasoning_effort", orEmpty body !! "reasoning")
    else match effort with
         | None => (None, None)
         | Some e => if satisfies caps (Model a) ["reasoning_effort"] then (Some (JStr e), None)
                     else if satisfies caps (Model a) ["reasoning"] then (None, Some (JObj {["effort" := JStr e]}))
                     else (None, None)
         end.
Proof.
  cbv zeta. set (profiles := default ∅ (parseReasoningProfiles decoded)). set (requested := withRequestReasoningEffort header query).
  set (effort := match requested with Some _ => _ | None => _ end).
  assert (He : effort = resolveReasoningEffort env profiles requested (Profile a)).
  { unfold resolveReasoningEffort, requestReasoningEffort. subst effort. destruct requested as [e|] eqn:E; [|by destruct (profiles !! _)].
    subst requested. unfold withRequestReasoningEffort in E.
    assert (Hv : e ∈ efforts) by (destruct (parseReasoningEffort header) eqn:E1; simplify_eq; by eapply parseReasoningEffort_valid).
    destruct (empty_str e) eqn:E2; [|done]. apply empty_str_spec in E2 as ->. unfold efforts in Hv. set_solver. }
  assert (Hvalid : forall e, effort = Some e -> e ∈ efforts) by (rewrite He; apply resolveReasoningEffort_valid). split; [done|].
  assert (Hnorm : forall k, k ∈ ["reasoning_effort"; "reasoning"] -> NormalizeRequest conv (Provider a) body !! k = orEmpty body !! k).
  { intros k Hk. rewrite NormalizeRequest_lookup by set_solver. rewrite !bool_decide_eq_false_2; [done| |set_solver].
    unfold rejected. repeat case_match; set_solver. }
  unfold attemptBody, requestBodyForAttempt. rewrite <- He. rewrite !(lookup_insert_ne _ "model") by done.
  destruct (bodyCarriesReasoning body) eqn:Hc; [rewrite !Hnorm by set_solver; done|].
  assert (orEmpty body !! "reasoning_effort" = None /\ orEmpty body !! "reasoning" = None) as [H1 H2].
  { unfold bodyCarriesReasoning, has in Hc. apply orb_false_iff in Hc as [Hc1%bool_decide_eq_false Hc2%bool_decide_eq_false].
    by split; apply eq_None_not_Some. }
  destruct effort as [e|]; [|rewrite !Hnorm, H1, H2 by set_solver; done]. unfold applyReasoningEffort.
  assert (empty_str e = false) as ->.
  { destruct (empty_str e) eqn:E2; [|done]. apply empty_str_spec in E2 as ->. specialize (Hvalid "" eq_refl). unfold efforts in Hvalid. set_solver. }
  destruct (satisfies _ _ _); [|destruct (satisfies _ _ _)]; rewrite ?lookup_insert_eq, ?lookup_insert_ne, ?Hnorm, ?H1, ?H2 by (done || set_solver); done.
Qed.

(** *** The body of an attempt *)

(** C38: every provider gets a body in its schema, and only what is named here
    is changed.  The body of an attempt names the attempt's model and has none
    of the keys the provider's adapter removes, in the body or in a message.
    The count of answers [n] is that of the request, but Groq is asked for one
    whenever the request names another number.  The two keys of the reasoning
    effort are those of the request when it has either; else one of them may be
    added, with the effort of the header or the query, of the profile or of the
    environment, which is low, medium or high, and only in the form the model
    is known to accept.  Every other key, and every other field of a message,
    is as in the request, the messages in the same order; for Cerebras a
    message's reasoning is found under its other name. *)
Theorem provider_schema_respected env decoded header query conv caps body a :
  let profiles := default ∅ (parseReasoningProfiles decoded) in
  let requested := withRequestReasoningEffort header query in
  let effort := match requested, profiles !! TrimSpace (Profile a) with
                | Some e, _ => Some e
                | None, Some e => Some e
                | None, None => parseReasoningEffort (envValue env "PROXY_REASONING_EFFORT")
                end in
  let sent := attemptBody env profiles requested conv caps body a in
  sent !! "model" = Some (JStr (Model a)) /\
  (forall k, k ∈ rejected (Provider a) -> sent !! k = None) /\
  (sent !! "n" = match requestedMaxTokens conv (default JNull (orEmpty body !! "n")) with
                 | Some n => if str_eq (Provider a) providerGroq && negb (n =? 1) then Some (JInt 1) else orEmpty body !! "n"
                 | None => orEmpty body !! "n"
                 end) /\
  (forall e, effort = Some e -> e ∈ ["low"; "medium"; "high"]) /\
  ((sent !! "reasoning_effort", sent !! "reasoning") =
    if bodyCarriesReasoning body then (orEmpty body !! "reasoning_effort", orEmpty body !! "reasoning")
    else match effort with
         | None => (None, None)
         | Some e => if satisfies caps (Model a) ["reasoning_effort"] then (Some (JStr e), None)
                     else if satisfies caps (Model a) ["reasoning"] then (None, Some (JObj {["effort" := JStr e]}))
                     else (None, None)
         end) /\
  (forall k, k ∉ rejected (Provider a) -> k ∉ sentKeys -> sent !! k = orEmpty body !! k) /\
  (forall l, orEmpty body !! "messages" = Some (JArr l) -> exists l', sent !! "messages" = Some (JArr l') /\ Forall2 (sentAs (Provider a)) l l') /\
  (forall j, orEmpty body !! "messages" = Some j -> asArr j = None -> sent !! "messages" = Some j) /\
  (orEmpty body !! "messages" = None -> sent !! "messages" = None).
Proof.
  destruct (reasoning_precedence env decoded header query conv caps body a) as [He Hr]. cbv zeta in *.
  split_and!; [| | |exact He|exact Hr|..].
  - unfold attemptBody. by rewrite lookup_insert_eq.
  - intros k Hk. assert ((k ∉ ["model"; "reasoning"; "reasoning_effort"]) /\ k <> "n" /\ k <> "messages") as (H1 & H2 & H3).
    { unfold rejected in Hk. repeat case_match; set_solver. }
    rewrite attemptBody_lookup, NormalizeRequest_lookup by done. by rewrite bool_decide_eq_false_2, bool_decide_eq_true_2.
  - rewrite attemptBody_lookup by set_solver. apply NormalizeRequest_count.
  - intros k Hk Hs. assert ((k ∉ ["model"; "reasoning"; "reasoning_effort"]) /\ k <> "n" /\ k <> "messages") as (H1 & H2 & H3) by (unfold sentKeys in Hs; set_solver).
    rewrite attemptBody_lookup, NormalizeRequest_lookup by done. by rewrite !bool_decide_eq_false_2.
  - intros l Hl. rewrite attemptBody_lookup, NormalizeRequest_lookup, Hl by (done || set_solver). eexists. split; [done|].
    apply Forall2_fmap_r, Forall_Forall2_diag, Forall_true. intros j. destruct j; try done. apply messageFor_sent.
  - intros j Hj Ha. rewrite attemptBody_lookup, NormalizeRequest_lookup, Hj by (done || set_solver). simpl. by destruct j.
  - intros Hj. rewrite attemptBody_lookup, NormalizeRequest_lookup, Hj by (done || set_solver). done.
Qed.
