(* ===== verification/Guardrail.v ===== *)
(** * Guardrail: the local-agent instruction (router_policy_request.go)

    On requests with tools the router adds an instruction: in a chat body as a
    system message at both ends, in an Anthropic body in the system field, and
    in both as a tag on the last user message.  The two bookends of a chat body
    are one shared Go map, which nothing changes later. *)

From S2P Require Import Prelude Float Types Env Text Json Request.
From Stdlib Require Import Lia ZArith Ascii String.
#[local] Open Scope string_scope.
#[local] Open Scope Z_scope.

(** ** The texts *)

Definition localAgentGuardrailMarker : string := "CALVOPROXY_LOCAL_RUNTIME".

(** Backquotes stand for the double quotes of the source text. *)
Definition quoted (s : string) : string :=
  string_of_list_ascii ((fun c => if Ascii.eqb c "`"%char then ascii_of_nat 34 else c) <$> list_ascii_of_string s).

Definition newlines : string := String (ascii_of_nat 10) (String (ascii_of_nat 10) EmptyString).

Definition localAgentGuardrail : string := localAgentGuardrailMarker +:+ quoted
": HARD CONSTRAINT — LOCAL MACHINE. OpenCode is running ON the user's real Windows PC (not remote, not Docker, not a VM sandbox for you). Working directory C:\dev\... and every tool result are THE USER's files on THEIR disk. Speak as a local agent on their computer. NEVER invent a separate `your` vs `their` world. FORBIDDEN (ES/EN, any spelling): `sandbox`, `mi sandbox`, `mi entorno`, `mi entorno actual`, `esto es mi entorno`, `no tu máquina`, `not your machine`, `my environment`, `my directory not yours`, `I cannot access your computer`, `no puedo operar sobre tu computadora`, `ejecutalo vos porque yo no tengo acceso`. CORRECT framing: `en el directorio actual (C:\...)`, `en tu máquina`, `archivos del proyecto`. After a successful tool call you already proved local access — never walk it back. On tool failure: report the real error only.".

Definition userRuntimeTag : string :=
  newlines +:+ "[" +:+ localAgentGuardrailMarker +:+ ": REAL local PC. Tool output = user's machine. Never say sandbox / mi entorno / my environment / no tu máquina.]".

(** ** Reading messages *)

Definition textBlockContains (raw : json) (needle : string) : bool :=
  match raw with JObj block => Contains (strAt block "text") needle | _ => false end.

Definition partContains (needle : string) (rawPart : json) : bool :=
  match rawPart with
  | JObj part => match asStr (at_ part "text") with Some text => Contains text needle | None => false end
  | _ => false
  end.

Definition messageTextContains (content : json) (needle : string) : bool :=
  match content with
  | JStr s => Contains s needle
  | JArr parts => existsb (partContains needle) parts
  | _ => false
  end.

(** ** The tag *)

Definition tagPart : json := JObj (<["type" := JStr "text"]> {["text" := JStr (TrimSpace userRuntimeTag)]}).

Definition appendUserRuntimeTag (content : json) : json :=
  match content with
  | JStr s => JStr (s +:+ userRuntimeTag)
  | JArr parts => JArr (parts ++ [tagPart])
  | _ => content
  end.

Definition isUser (raw : json) : bool := match raw with JObj msg => EqualFold (strAt msg "role") "user" | _ => false end.

Definition taggedMessage (content : json) : json := JObj (<["role" := JStr "user"]> {["content" := appendUserRuntimeTag content]}).

(** The body of the loop at the message it stops at. *)
Definition tagMessage (raw : json) : json :=
  match raw with
  | JObj msg => if messageTextContains (at_ msg "content") localAgentGuardrailMarker then raw else taggedMessage (at_ msg "content")
  | _ => raw
  end.

(** The loop runs from the end: the messages are reversed. *)
Fixpoint tagFirst (rev_messages : list json) : list json :=
  match rev_messages with
  | [] => []
  | raw :: rest => if isUser raw then tagMessage raw :: rest else raw :: tagFirst rest
  end.

Definition tagLastUserRuntime (messages : list json) : list json := rev (tagFirst (rev messages)).

(** ** The injections *)

Definition guard : json := JObj (<["role" := JStr "system"]> {["content" := JStr localAgentGuardrail]}).

(** A copy of the instruction from an earlier turn. *)
Definition isInjected (raw : json) : bool :=
  match raw with
  | JObj msg => EqualFold (strAt msg "role") "system" && messageTextContains (at_ msg "content") localAgentGuardrailMarker
  | _ => false
  end.

Definition withSystem (m : object) : object :=
  match at_ m "system" with
  | JStr sys => if negb (empty_str sys) && negb (Contains sys localAgentGuardrailMarker)
                then <["system" := JStr (localAgentGuardrail +:+ newlines +:+ sys)]> m else m
  | _ => m
  end.

Definition guardedMessages (messages : list json) : list json :=
  let cleaned := List.filter (fun raw => negb (isInjected raw)) messages in
  tagLastUserRuntime (guard :: cleaned ++ [guard]).

Definition injectLocalAgentGuardrail (reqBody : option object) : option object :=
  match reqBody with
  | None => None
  | Some m =>
      if negb (hasRequestTools reqBody) then reqBody
      else
        let m := withSystem m in
        Some (match at_ m "messages" with
              | JArr messages => <["messages" := JArr (guardedMessages messages)]> m
              | _ => m
              end)
  end.

Definition textBlock (text : string) : json := JObj (<["type" := JStr "text"]> {["text" := JStr text]}).

Definition withSystemField (m : object) : object :=
  match at_ m "system" with
  | JStr system =>
      if Contains system localAgentGuardrailMarker then m
      else if negb (empty_str (TrimSpace system)) then <["system" := JStr (localAgentGuardrail +:+ newlines +:+ system)]> m
      else <["system" := JStr localAgentGuardrail]> m
  | JArr system =>
      if existsb (fun block => textBlockContains block localAgentGuardrailMarker) system then m
      else <["system" := JArr (textBlock localAgentGuardrail :: system)]> m
  | _ => <["system" := JStr localAgentGuardrail]> m
  end.

(** The tag is written into the message list of the body itself. *)
Definition injectLocalAgentGuardrailForMessages (reqBody : option object) : option object :=
  match reqBody with
  | None => None
  | Some m =>
      if negb (hasRequestTools reqBody) then reqBody
      else
        let m := withSystemField m in
        Some (match at_ m "messages" with
              | JArr messages => <["messages" := JArr (tagLastUserRuntime messages)]> m
              | _ => m
              end)
  end.

(** ** The instruction is there, once *)

Lemma guardrail_marked s : Contains (localAgentGuardrail +:+ s) localAgentGuardrailMarker = true.
Proof.
  unfold localAgentGuardrail. rewrite <- (assoc_L String.append). apply (Contains_app "").
Qed.

Lemma guardrail_marked' : Contains localAgentGuardrail localAgentGuardrailMarker = true.
Proof. apply (Contains_app ""). Qed.

Lemma tagged_contains c : (exists s, c = JStr s) \/ (exists l, c = JArr l) -> messageTextContains (appendUserRuntimeTag c) localAgentGuardrailMarker = true.
Proof.
  intros [[s ->]|[l ->]]; simpl.
  - pose proof (Contains_app (s +:+ newlines +:+ "[") localAgentGuardrailMarker) as H. unfold userRuntimeTag.
    etransitivity; [|eapply H]. apply (f_equal (fun x => Contains x localAgentGuardrailMarker)). by rewrite <- !(assoc_L String.append).
  - rewrite existsb_app. apply orb_true_iff. right. by vm_compute.
Qed.

Lemma tagMessage_user raw : isUser raw = true -> isUser (tagMessage raw) = true.
Proof. destruct raw as [| | | | | |m]; try done. simpl. intros H. by destruct (messageTextContains _ _). Qed.

Lemma tagMessage_idemp raw : isUser raw = true -> tagMessage (tagMessage raw) = tagMessage raw.
Proof.
  destruct raw as [| | | | | |m]; try done. intros _. simpl. destruct (messageTextContains (at_ m "content") _) eqn:E; simpl; [by rewrite E|].
  set (c := at_ m "content") in *. unfold taggedMessage at 1. rewrite !at_insert_ne by done.
  change (at_ {["content" := appendUserRuntimeTag c]} "content") with (appendUserRuntimeTag c).
  destruct c as [| | | |s|l|]; try (simpl; reflexivity). all: rewrite tagged_contains by eauto; reflexivity.
Qed.

Lemma user_not_injected raw : isUser raw = true -> isInjected raw = false.
Proof.
  destruct raw as [| | | | | |m]; try done. simpl. unfold EqualFold. intros H%bool_decide_eq_true.
  rewrite (bool_decide_eq_false_2 (foldText (list_ascii_of_string (strAt m "role")) = _)); [done|]. rewrite H. by vm_compute.
Qed.

Lemma guard_facts : isUser guard = false /\ isInjected guard = true.
Proof.
  split; [by vm_compute|]. unfold isInjected, guard. apply andb_true_iff. split; [by vm_compute|]. rewrite at_insert_ne by done.
  apply guardrail_marked'.
Qed.

Lemma tagFirst_idemp l : tagFirst (tagFirst l) = tagFirst l.
Proof.
  induction l as [|raw l IH]; [done|]. simpl. destruct (isUser raw) eqn:E; simpl; [by rewrite tagMessage_user, tagMessage_idemp|by rewrite E, IH].
Qed.

Lemma tagFirst_snoc l x : isUser x = false -> tagFirst (l ++ [x]) = (tagFirst l ++ [x])%list.
Proof. intros Hx. induction l as [|raw l IH]; simpl; [by rewrite Hx|]. destruct (isUser raw); simpl; [done|by rewrite IH]. Qed.

Lemma tagFirst_step l : Forall2 (fun a b => b = a \/ isUser a = true /\ b = tagMessage a) l (tagFirst l).
Proof.
  assert (Hid : forall l : list json, Forall2 (fun a b => b = a \/ isUser a = true /\ b = tagMessage a) l l).
  { intros l'. apply Forall_Forall2_diag, Forall_true. by left. }
  induction l as [|raw l IH]; [done|]. simpl. destruct (isUser raw) eqn:E; constructor; auto.
Qed.

Lemma tagLast_idemp l : tagLastUserRuntime (tagLastUserRuntime l) = tagLastUserRuntime l.
Proof. unfold tagLastUserRuntime. by rewrite rev_involutive, tagFirst_idemp. Qed.

Lemma tagLast_step l : Forall2 (fun a b => b = a \/ isUser a = true /\ b = tagMessage a) l (tagLastUserRuntime l).
Proof.
  unfold tagLastUserRuntime. pose proof (tagFirst_step (rev l)) as H. rewrite <- (rev_involutive l) at 1. revert H.
  generalize (tagFirst (rev l)). generalize (rev l). clear l. intros l l' H. induction H; [done|]. simpl. apply Forall2_app; [done|]. by constructor.
Qed.

Lemma tagLast_guarded l : tagLastUserRuntime (guard :: l ++ [guard]) = (guard :: tagLastUserRuntime l ++ [guard])%list.
Proof.
  destruct guard_facts as [Hu _]. revert Hu. generalize guard. intros g Hu. unfold tagLastUserRuntime. simpl rev. rewrite rev_app_distr. simpl. rewrite Hu, tagFirst_snoc by done.
  simpl. by rewrite rev_app_distr.
Qed.

Lemma kept_not_injected messages : Forall (fun raw => isInjected raw = false) (List.filter (fun raw => negb (isInjected raw)) messages).
Proof. apply Forall_forall. intros x [_ Hx%negb_true_iff]%list_elem_of_In%filter_In. done. Qed.

Lemma filter_kept l : Forall (fun raw => isInjected raw = false) l -> List.filter (fun raw => negb (isInjected raw)) l = l.
Proof. induction 1 as [|x l H _ IH]; [done|]. simpl. by rewrite H, IH. Qed.

Lemma tagLast_not_injected l : Forall (fun raw => isInjected raw = false) l -> Forall (fun raw => isInjected raw = false) (tagLastUserRuntime l).
Proof.
  intros H. pose proof (tagLast_step l) as Hs. induction Hs as [|a b l l' [->|[Hu ->]] _ IH]; [done|..]; inversion_clear H; constructor; auto.
  by apply user_not_injected, tagMessage_user.
Qed.

Lemma guardedMessages_idemp l : guardedMessages (guardedMessages l) = guardedMessages l.
Proof.
  unfold guardedMessages. set (cl := List.filter _ l). assert (Hcl := kept_not_injected l). fold cl in Hcl. rewrite (tagLast_guarded cl).
  assert (E : List.filter (fun raw => negb (isInjected raw)) (guard :: tagLastUserRuntime cl ++ [guard])%list = tagLastUserRuntime cl).
  { destruct guard_facts as [_ Hg]. revert Hg. generalize guard. intros g Hg. simpl. rewrite Hg. simpl. rewrite List.filter_app. simpl. rewrite Hg. simpl.
    rewrite app_nil_r. by apply filter_kept, tagLast_not_injected. }
  by rewrite E, tagLast_guarded, tagLast_idemp.
Qed.

Lemma withSystem_other m k : k <> "system" -> withSystem m !! k = m !! k.
Proof. intros H. unfold withSystem. repeat (case_match; try done). by rewrite lookup_insert_ne. Qed.

Lemma withSystemField_other m k : k <> "system" -> withSystemField m !! k = m !! k.
Proof. intros H. unfold withSystemField. repeat (case_match; try done); by rewrite lookup_insert_ne. Qed.

Lemma withSystem_idemp m : withSystem (withSystem m) = withSystem m.
Proof.
  unfold withSystem. destruct (at_ m "system") as [| | | |s| |] eqn:E; try by rewrite E. destruct (negb _ && negb _) eqn:E2; [|by rewrite E, E2].
  rewrite at_insert, guardrail_marked. by rewrite andb_false_r.
Qed.

Lemma withSystemField_idemp m : withSystemField (withSystemField m) = withSystemField m.
Proof.
  assert (H : forall s, Contains s localAgentGuardrailMarker = true -> withSystemField (<["system" := JStr s]> m) = <["system" := JStr s]> m).
  { intros s Hs. unfold withSystemField. by rewrite at_insert, Hs. }
  unfold withSystemField at 2 3. destruct (at_ m "system") as [| | | |s|l|] eqn:E; try apply H, guardrail_marked'.
  - destruct (Contains s _) eqn:E2; [unfold withSystemField; by rewrite E, E2|]. destruct (negb _); apply H; [apply guardrail_marked|apply guardrail_marked'].
  - destruct (existsb _ l) eqn:E2; [unfold withSystemField; by rewrite E, E2|]. unfold withSystemField. rewrite at_insert.
    assert (Hb : textBlockContains (textBlock localAgentGuardrail) localAgentGuardrailMarker = true) by exact guardrail_marked'.
    cbn [existsb]. by rewrite Hb.
Qed.

Lemma tools_other m m' : (forall k, k <> "system" -> k <> "messages" -> m' !! k = m !! k) -> hasRequestTools (Some m') = hasRequestTools (Some m).
Proof. intros H. unfold hasRequestTools, at_. simpl. by rewrite !H. Qed.

(** Both injections have one shape. *)
Definition injection (onSystem : object -> object) (onMessages : list json -> list json) (m : object) : object :=
  let m := onSystem m in match at_ m "messages" with JArr l => <["messages" := JArr (onMessages l)]> m | _ => m end.

Section shape.
Context (onSystem : object -> object) (onMessages : list json -> list json).
Context (Hother : forall m k, k <> "system" -> onSystem m !! k = m !! k).
Context (Hidem : forall m, onSystem (onSystem m) = onSystem m) (Hlist : forall l, onMessages (onMessages l) = onMessages l).
Context (Hlocal : forall m j, onSystem (<["messages" := j]> m) = <["messages" := j]> (onSystem m)).

Lemma injection_other m k : k <> "system" -> k <> "messages" -> injection onSystem onMessages m !! k = m !! k.
Proof using Hother. intros H1 H2. unfold injection. destruct (at_ _ _); rewrite ?lookup_insert_ne by done; by apply Hother. Qed.

Lemma injection_idemp m : injection onSystem onMessages (injection onSystem onMessages m) = injection onSystem onMessages m.
Proof using Hidem Hlist Hlocal.
  unfold injection at 2 3. destruct (at_ (onSystem m) "messages") eqn:E; unfold injection; rewrite ?Hlocal, ?Hidem, ?E; try done.
  by rewrite at_insert, Hlist, insert_insert_eq.
Qed.
End shape.

Lemma withSystem_local m j : withSystem (<["messages" := j]> m) = <["messages" := j]> (withSystem m).
Proof.
  unfold withSystem. rewrite at_insert_ne by done. repeat (case_match; try done). by rewrite insert_insert_ne.
Qed.

Lemma withSystemField_local m j : withSystemField (<["messages" := j]> m) = <["messages" := j]> (withSystemField m).
Proof.
  unfold withSystemField. rewrite at_insert_ne by done. repeat (case_match; try done); by rewrite insert_insert_ne.
Qed.

Definition chatInjection : object -> object := injection withSystem guardedMessages.
Definition messagesInjection : object -> object := injection withSystemField tagLastUserRuntime.

Lemma inject_chat m : injectLocalAgentGuardrail (Some m) = Some (if hasRequestTools (Some m) then chatInjection m else m).
Proof. unfold injectLocalAgentGuardrail. by destruct (hasRequestTools (Some m)). Qed.

Lemma inject_messages m : injectLocalAgentGuardrailForMessages (Some m) = Some (if hasRequestTools (Some m) then messagesInjection m else m).
Proof. unfold injectLocalAgentGuardrailForMessages. by destruct (hasRequestTools (Some m)). Qed.

(** The instruction is applied once, however often.  Injecting it again
    changes nothing, on either wire, so retries and history that comes back do
    not pile it up; without tools the body is untouched; and nothing but the
    system field and the messages ever changes. *)
Theorem guardrail_idempotent body :
  injectLocalAgentGuardrail (injectLocalAgentGuardrail body) = injectLocalAgentGuardrail body /\
  injectLocalAgentGuardrailForMessages (injectLocalAgentGuardrailForMessages body) = injectLocalAgentGuardrailForMessages body /\
  (hasRequestTools body = false -> injectLocalAgentGuardrail body = body /\ injectLocalAgentGuardrailForMessages body = body) /\
  (forall k, k <> "system" -> k <> "messages" ->
     orEmpty (injectLocalAgentGuardrail body) !! k = orEmpty body !! k /\ orEmpty (injectLocalAgentGuardrailForMessages body) !! k = orEmpty body !! k).
Proof.
  destruct body as [m|]; [|done]. rewrite inject_chat, inject_messages.
  pose proof (injection_other withSystem guardedMessages withSystem_other m) as Hc. fold chatInjection in Hc.
  pose proof (injection_other withSystemField tagLastUserRuntime withSystemField_other m) as Hm. fold messagesInjection in Hm.
  destruct (hasRequestTools (Some m)) eqn:E.
  - rewrite inject_chat, inject_messages, (tools_other m (chatInjection m)), (tools_other m (messagesInjection m)), E by auto. split_and!.
    + f_equal. apply injection_idemp; [apply withSystem_idemp|apply guardedMessages_idemp|apply withSystem_local].
    + f_equal. apply injection_idemp; [apply withSystemField_idemp|apply tagLast_idemp|apply withSystemField_local].
    + done.
    + intros k H1 H2. split; [by apply Hc|by apply Hm].
  - rewrite inject_chat, inject_messages, E. by split_and!.
Qed.

(** The instruction stands at both ends of a chat.  The messages between
    are the client's, in order, without any earlier copy of the instruction;
    only the client's last user message may differ, and only by the tag. *)
Theorem guardrail_bookends m messages :
  hasRequestTools (Some m) = true -> at_ m "messages" = JArr messages ->
  exists between, at_ (orEmpty (injectLocalAgentGuardrail (Some m))) "messages" = JArr (guard :: between ++ [guard]) /\
    Forall (fun raw => isInjected raw = false) between /\
    exists before user after,
      (List.filter (fun raw => negb (isInjected raw)) messages = before ++ user ++ after)%list /\ (between = before ++ (tagMessage <$> user) ++ after)%list /\
      Forall (fun raw => isUser raw = false) after /\ (List.length user <= 1)%nat /\
      Forall (fun raw => isUser raw = true) user /\ (user = [] -> Forall (fun raw => isUser raw = false) before).
Proof.
  intros Ht Hm. rewrite inject_chat, Ht. simpl. unfold chatInjection, injection.
  assert (Hm' : at_ (withSystem m) "messages" = JArr messages) by (unfold at_; rewrite withSystem_other by done; exact Hm).
  rewrite Hm', at_insert. unfold guardedMessages. rewrite tagLast_guarded. eexists. split; [done|].
  split; [apply tagLast_not_injected, kept_not_injected|]. generalize (List.filter (fun raw => negb (isInjected raw)) messages). clear. intros l.
  unfold tagLastUserRuntime. destruct (rev_involutive l). rewrite (rev_involutive (rev l)). generalize (rev l). clear l. intros l.
  induction l as [|raw l IH]; [by exists [], [], []; split_and!; auto|]. simpl. destruct (isUser raw) eqn:E.
  - exists (rev l), [raw], []. simpl. split_and!; auto. done.
  - destruct IH as (before & user & after & H1 & H2 & H3 & H4 & H5 & H6). exists before, user, (after ++ [raw])%list.
    simpl. rewrite H1, H2. split_and!; auto; rewrite ?app_assoc; try done. apply Forall_app. split; [done|]. by constructor.
Qed.

Lemma guardrail_bookends_witness :
  let m : object := <["tools" := JArr [JNull]]> {["messages" := JArr [JObj (<["role" := JStr "user"]> {["content" := JStr "hi"]})]]} in
  hasRequestTools (Some m) = true /\
  exists between, at_ (orEmpty (injectLocalAgentGuardrail (Some m))) "messages" = JArr (guard :: between ++ [guard]).
Proof.
  intros m. split; [reflexivity|].
  destruct (guardrail_bookends m [JObj (<["role" := JStr "user"]> {["content" := JStr "hi"]})]) as (between & H & _); [reflexivity|reflexivity|].
  by exists between.
Defined.

(** The tag replaces the user message: its other fields are not sent. *)
Lemma tag_drops_fields :
  tagLastUserRuntime [JObj (<["name" := JStr "ana"]> (<["role" := JStr "user"]> {["content" := JStr "hi"]}))] =
  [JObj (<["role" := JStr "user"]> {["content" := JStr ("hi" +:+ userRuntimeTag)]})].
Proof. by vm_compute. Qed.
