(* ===== verification/Prompt.v ===== *)
(** * Prompt: what a conversation asks for (router_policy_prompt.go)

    The text and the images of the messages, and the class of the last user
    message.  The three patterns are case-insensitive alternatives of whole
    words, so a match is a word between two ASCII word boundaries. *)

From S2P Require Import Prelude Text Json.
From Stdlib Require Import Lia ZArith Ascii String.
#[local] Open Scope string_scope.

(** ** Messages *)

Definition partText (rawPart : json) : option string :=
  match rawPart with
  | JObj part => if str_eq (strAt part "type") "text" then asStr (at_ part "text") else None
  | _ => None
  end.

Definition extractMessageText (content : json) : string :=
  match content with
  | JStr s => s
  | JArr parts => String.concat " " (omap partText parts)
  | _ => ""
  end.

Definition partIsImage (rawPart : json) : bool :=
  match rawPart with
  | JObj part =>
      let partType := strAt part "type" in
      str_eq partType "image_url" || str_eq partType "input_image" || str_eq partType "image" || has part "image_url" || has part "image"
  | _ => false
  end.

Definition contentContainsImage (content : json) : bool :=
  match content with
  | JArr parts => existsb partIsImage parts
  | JObj m => has m "image_url" || has m "image"
  | _ => false
  end.

Definition hasImageContent (messages : list json) : bool :=
  existsb (fun rawMsg => match rawMsg with JObj msg => contentContainsImage (at_ msg "content") | _ => false end) messages.

(** ** Words *)

(** [strings.ToLower] as far as the patterns can tell: the ASCII letters, the
    letters of Latin-1, and the two other runes that lower to an ASCII letter
    (the dotted capital I and the Kelvin sign). *)
Fixpoint lowerRunes (s : bytes) : bytes :=
  match s with
  | [] => []
  | a :: t =>
      match t with
      | b :: t2 =>
          if Ascii.eqb a (byte 195) && byteIn 128 158 b && negb (Ascii.eqb b (byte 151)) then a :: byte (nat_of_ascii b + 32) :: lowerRunes t2
          else if Ascii.eqb a (byte 196) && Ascii.eqb b (byte 176) then "i"%char :: lowerRunes t2
          else match t2 with
          | c :: t3 =>
              if Ascii.eqb a (byte 226) && Ascii.eqb b (byte 132) && Ascii.eqb c (byte 170) then "k"%char :: lowerRunes t3
              else lower_byte a :: lowerRunes t
          | [] => lower_byte a :: lowerRunes t
          end
      | [] => [lower_byte a]
      end
  end.

(** The ASCII word class of [\b]; [None] is an end of the text. *)
Definition isWord (c : option ascii) : bool :=
  match c with
  | Some c => byteIn 48 57 c || byteIn 65 90 c || byteIn 97 122 c || Ascii.eqb c "_"%char
  | None => false
  end.

Definition boundary (prev next : option ascii) : bool := xorb (isWord prev) (isWord next).

(** A word at the start of the text, with the byte before what is left.  Case
    is folded in the text already, but for the long s, which has no other
    lower case. *)
Fixpoint matchHere (prev : option ascii) (w s : bytes) : option (option ascii * bytes) :=
  match w with
  | [] => Some (prev, s)
  | p :: w =>
      match s with
      | [] => None
      | c :: s1 =>
          if Ascii.eqb c p then matchHere (Some c) w s1
          else if Ascii.eqb p "s"%char && Ascii.eqb c (byte 197) then
            match s1 with
            | d :: s2 => if Ascii.eqb d (byte 191) then matchHere (Some d) w s2 else None
            | [] => None
            end
          else None
      end
  end.

Definition wordHere (prev : option ascii) (s : bytes) (w : bytes) : bool :=
  boundary prev (head s) && match matchHere prev w s with Some (last, rest) => boundary last (head rest) | None => false end.

(** [MatchString] of a pattern. *)
Fixpoint matchFrom (words : list bytes) (prev : option ascii) (s : bytes) : bool :=
  existsb (wordHere prev s) words || match s with [] => false | c :: rest => matchFrom words (Some c) rest end.

Definition MatchString (words : list string) (s : bytes) : bool := matchFrom (list_ascii_of_string <$> words) None s.

Definition codingPromptPattern : list string :=
  ["code"; "script"; "error"; "bug"; "function"; "función"; "funcion"; "bash"; "python"; "javascript"; "golang"; "go"; "html"; "css"; "codex"; "gemini";
   "refactor"; "refactoriza"; "debug"; "depura"; "program"; "programa"; "codigo"; "código"; "syntax"; "sintaxis"].

Definition reasonPromptPattern : list string :=
  ["think"; "solve"; "math"; "why"; "logic"; "puzzle"; "calculate"; "analyze"; "reason"; "structure"; "architecture"; "explain"; "razona"; "piensa";
   "analiza"; "analizar"; "estructura"; "resuelve"; "matematica"; "matemática"; "logica"; "lógica"; "calcula"; "explicar"; "explica"; "arquitectura"].

Definition agentPromptPattern : list string :=
  ["execute"; "terminal"; "command"; "task"; "tool"; "system"; "sh"; "run"; "check"; "use"; "verify"; "search"; "find"; "verifica"; "chequea"; "usa";
   "herramienta"; "comandos"; "comando"; "ejecuta"; "tarea"; "sistema"; "corre"; "revisa"; "busca"; "encuentra"].

(** ** Classes *)

Definition userText (last : bytes) (m : json) : bytes :=
  match m with
  | JObj msg => match msg !! "role" with
                | Some (JStr role) => if str_eq role "user" then lowerRunes (list_ascii_of_string (extractMessageText (at_ msg "content"))) else last
                | _ => last
                end
  | _ => last
  end.

Definition classifyPrompt (messages : list json) : string :=
  if (List.length messages =? 0)%nat then "simple"
  else
    let lastUserMsg := fold_left userText messages [] in
    if MatchString codingPromptPattern lastUserMsg then "coding"
    else if MatchString reasonPromptPattern lastUserMsg then "reasoning"
    else if MatchString agentPromptPattern lastUserMsg then "agent"
    else "simple".

(** ** The patterns *)

(** What a pattern's word stands for in lower-cased text. *)
Inductive spells : bytes -> bytes -> Prop :=
| spells_nil : spells [] []
| spells_cons c w m : spells w m -> spells (c :: w) (c :: m)
| spells_long_s w m : spells w m -> spells ("s"%char :: w) (byte 197 :: byte 191 :: m).

Definition lastOr (prev : option ascii) (s : bytes) : option ascii := match List.rev s with c :: _ => Some c | [] => prev end.

Lemma lastOr_cons prev c s : lastOr prev (c :: s) = lastOr (Some c) s.
Proof. unfold lastOr. simpl. by destruct (List.rev s). Qed.

Lemma matchHere_spells w : forall prev s last rest,
  matchHere prev w s = Some (last, rest) <-> exists m, s = (m ++ rest)%list /\ spells w m /\ last = lastOr prev m.
Proof.
  induction w as [|p w IH]; intros prev s last rest.
  - simpl. split; [intros [= <- <-]; exists []; by split_and!; [|constructor|]|]. intros (m & -> & Hm & ->). by inversion Hm.
  - split.
    + destruct s as [|c s1]; simpl; [done|]. destruct (Ascii.eqb_spec c p) as [->|Hc].
      * intros (m & -> & Hm & ->)%IH. exists (p :: m). split_and!; [done|by constructor|by rewrite lastOr_cons].
      * destruct (Ascii.eqb_spec p "s") as [->|]; simpl; [|done]. destruct (Ascii.eqb_spec c (byte 197)) as [->|]; [|done].
        destruct s1 as [|d s2]; [done|]. destruct (Ascii.eqb_spec d (byte 191)) as [->|]; [|done].
        intros (m & -> & Hm & ->)%IH. exists (byte 197 :: byte 191 :: m). split_and!; [done|by constructor|by rewrite !lastOr_cons].
    + intros (m & -> & Hm & ->). inversion Hm as [|c w' m' Hm'|w' m' Hm']; subst; simpl.
      * rewrite Ascii.eqb_refl. apply IH. exists m'. by rewrite lastOr_cons.
      * apply IH. exists m'. by rewrite !lastOr_cons.
Qed.

Lemma wordHere_spec prev s w :
  wordHere prev s w = true <-> exists m rest, s = (m ++ rest)%list /\ spells w m /\ boundary prev (head s) = true /\ boundary (lastOr prev m) (head rest) = true.
Proof.
  unfold wordHere. rewrite andb_true_iff. split.
  - intros [H1 H2]. destruct (matchHere prev w s) as [[last rest]|] eqn:E; [|done]. apply matchHere_spells in E as (m & -> & Hm & ->).
    exists m, rest. by split_and!.
  - intros (m & rest & -> & Hm & H1 & H2). split; [done|].
    assert (E : matchHere prev w (m ++ rest) = Some (lastOr prev m, rest)) by (apply matchHere_spells; by exists m). by rewrite E.
Qed.

Lemma matchFrom_spec words : forall s prev,
  matchFrom words prev s = true <->
  exists pre w m post, w ∈ words /\ s = (pre ++ m ++ post)%list /\ spells w m /\
    boundary (lastOr prev pre) (head (m ++ post)%list) = true /\ boundary (lastOr prev (pre ++ m)) (head post) = true.
Proof.
  assert (Hhere : forall s prev, existsb (wordHere prev s) words = true <->
    exists w m post, w ∈ words /\ s = (m ++ post)%list /\ spells w m /\ boundary prev (head s) = true /\ boundary (lastOr prev m) (head post) = true).
  { intros s prev. rewrite existsb_exists. setoid_rewrite wordHere_spec. setoid_rewrite <- list_elem_of_In. naive_solver. }
  induction s as [|c s IH]; intros prev; cbn [matchFrom]; rewrite orb_true_iff, Hhere.
  - split; [intros [(w & m & post & Hw & E & Hm & H1 & H2)|]; [|done]|].
    + exists [], w, m, post. by rewrite E in H1.
    + intros (pre & w & m & post & Hw & E & Hm & H1 & H2). destruct pre; [|done]. left. exists w, m, post. by rewrite E.
  - rewrite IH. split.
    + intros [(w & m & post & Hw & E & Hm & H1 & H2)|(pre & w & m & post & Hw & -> & Hm & H1 & H2)].
      * exists [], w, m, post. by rewrite E in H1.
      * exists (c :: pre), w, m, post. cbn [app]. rewrite !lastOr_cons. done.
    + intros (pre & w & m & post & Hw & E & Hm & H1 & H2). destruct pre as [|c' pre]; [left; exists w, m, post; by rewrite E|].
      injection E as <- ->. right. exists pre, w, m, post. cbn [app] in H2. rewrite lastOr_cons in H1, H2. done.
Qed.

(** The hand-written matcher is the pattern.  A pattern matches exactly
    when one of its words stands somewhere in the text, letter by letter (a long
    s counts as an s), with a word boundary on either side. *)
Theorem pattern_is_whole_words words s :
  MatchString words s = true <->
  exists pre w m post, w ∈ words /\ s = (pre ++ m ++ post)%list /\ spells (list_ascii_of_string w) m /\
    boundary (lastOr None pre) (head (m ++ post)%list) = true /\ boundary (lastOr None (pre ++ m)) (head post) = true.
Proof.
  unfold MatchString. rewrite matchFrom_spec. split; intros (pre & w & m & post & Hw & H).
  - apply list_elem_of_fmap in Hw as (w' & -> & Hw). exists pre, w', m, post. tauto.
  - exists pre, (list_ascii_of_string w), m, post. split; [|done]. apply list_elem_of_fmap. by exists w.
Qed.

Example classify_coding : classifyPrompt [JObj (<["role" := JStr "user"]> {["content" := JStr "Write a FUNCIÓN in Go"]})] = "coding".
Proof. vm_compute. reflexivity. Qed.
