(* ===== verification/ToolCap.v ===== *)
(** * ToolCap: the transport guard (router_compress.go) and the response's metadata (router_response_transform.go)

    Tool results beyond the configured size are clipped in the middle; whether a
    result parses as JSON is the argument [jsonValid], and the encoding of a
    transformed response is [encode]. *)

From S2P Require Import Prelude Env Text TraceRing Json.
From Stdlib Require Import Lia ZArith Ascii String.
#[local] Open Scope string_scope.
#[local] Open Scope Z_scope.

(** ** The limit *)

Definition minToolResultLimit : Z := 512.

Definition toolResultLimit (env : environ) : Z :=
  if empty_str (TrimSpace (envValue env "PROXY_TOOL_RESULT_LIMIT")) then 0
  else
    let n := envInt env "PROXY_TOOL_RESULT_LIMIT" 0 in
    if n <=? 0 then 0 else if n <? minToolResultLimit then minToolResultLimit else n.

(** ** Messages *)

Definition messageContent (raw : json) : option string :=
  match raw with JObj entry => asStr (at_ entry "content") | _ => None end.

Definition messageRole (raw : json) : string :=
  match raw with JObj entry => strAt entry "role" | _ => "" end.

Definition size (s : string) : Z := Z.of_nat (String.length s).

Definition contentSize (raw : json) : Z := match messageContent raw with Some content => size content | None => 0 end.

Definition approxSize (messages : list json) : Z := fold_left (fun total raw => total + contentSize raw) messages 0.

(** ** Clipping *)

Definition newline : string := String (ascii_of_nat 10) EmptyString.

Definition toolCutMarker (omitted : Z) : string :=
  newline +:+ "… [truncated: " +:+ pretty omitted +:+ " bytes omitted by CalvoProxy] …" +:+ newline.

(** [content[:half] + marker + content[len(content)-half:]]. *)
Definition clip (limit : Z) (content : string) : string :=
  let half := Z.to_nat (limit / 2) in
  let n := String.length content in
  String.substring 0 half content +:+ toolCutMarker (Z.of_nat n - 2 * (limit / 2)) +:+ String.substring (n - half) half content.

Section guard.
Context (jsonValid : string -> bool).

(** What a message becomes: [None] when it is left alone. *)
Definition clippedContent (limit : Z) (raw : json) : option string :=
  if negb (str_eq (messageRole raw) "tool") then None
  else match messageContent raw with
  | None => None
  | Some content =>
      if size content <=? limit then None
      else if jsonValid content then None
      else
        let clipped := clip limit content in
        if size content <=? size clipped then None else Some clipped
  end.

Definition setContent (raw : json) (content : string) : json :=
  match raw with JObj entry => JObj (<["content" := JStr content]> entry) | _ => raw end.

(** One pass of the loop, on the cloned messages. *)
Definition capStep (limit : Z) (acc : list json * Z) (raw : json) : list json * Z :=
  let '(out, saved) := acc in
  match clippedContent limit raw with
  | Some clipped => ((out ++ [setContent raw clipped])%list, saved + (contentSize raw - size clipped))
  | None => ((out ++ [raw])%list, saved)
  end.

Definition applyToolCap (messages : list json) (limit : Z) : list json * Z := fold_left (capStep limit) messages ([], 0).

(** [cloneMessages] copies the messages that [applyToolCap] edits; the
    caller's body is the argument. *)
Definition compressRequest (env : environ) (body : option object) : option object * compressionStat :=
  let limit := toolResultLimit env in
  match body with
  | None => (body, noCompression)
  | Some m =>
      if limit <=? 0 then (body, noCompression)
      else match at_ m "messages" with
      | JArr ((_ :: _) as original) =>
          let '(messages, saved) := applyToolCap original limit in
          if saved <=? 0 then (body, noCompression)
          else (Some (<["messages" := JArr messages]> m), mkCompression (approxSize original) saved ["toolcap"])
      | _ => (body, noCompression)
      end
  end.

(** The recovery never fires: no step of the guard can panic. *)
Definition safeCompress (env : environ) (body : option object) : option object * compressionStat := compressRequest env body.
End guard.

Definition applied (c : compressionStat) : bool := 0 <? cs_SavedBytes c.

(** ** The metadata of a response *)

Definition firstChatMessage (chatResp : object) : option object :=
  match at_ chatResp "choices" with
  | JArr (JObj choice :: _) => asObj (at_ choice "message")
  | _ => None
  end.

(** The first message is edited in place, inside its choice. *)
Definition setFirstMetadata (chatResp : object) (metadata : json) : object :=
  match at_ chatResp "choices" with
  | JArr (JObj choice :: rest) =>
      match at_ choice "message" with
      | JObj message => <["choices" := JArr (JObj (<["message" := JObj (<["metadata" := metadata]> message)]> choice) :: rest)]> chatResp
      | _ => chatResp
      end
  | _ => chatResp
  end.

(** [extractor] is the side-effect extractor, off when [None]; a body whose
    JSON is null decodes to a nil map. *)
Definition Transform (decode : string -> option (option object)) (encode : object -> option string)
    (extractor : option (string -> option json)) (body : string) : string :=
  match extractor with
  | None => body
  | Some extract =>
      match decode body with
      | None => body
      | Some chatResp =>
          match firstChatMessage (orEmpty chatResp) with
          | None => body
          | Some message =>
              match extract (strAt message "content") with
              | Some metadata => default body (encode (setFirstMetadata (orEmpty chatResp) metadata))
              | None => body
              end
          end
      end
  end.

(** ** What the guard does *)

Lemma approxSize_acc l : forall a, fold_left (fun total raw => total + contentSize raw) l a = a + approxSize l.
Proof.
  unfold approxSize. induction l as [|x l IH]; intros a; simpl; [lia|]. rewrite IH, (IH (0 + contentSize x)). lia.
Qed.

Lemma approxSize_app l l' : approxSize (l ++ l') = approxSize l + approxSize l'.
Proof. unfold approxSize at 1. rewrite fold_left_app, approxSize_acc. done. Qed.

Lemma approxSize_one x : approxSize [x] = contentSize x.
Proof. done. Qed.

Lemma substring_list n k s : list_ascii_of_string (String.substring n k s) = take k (drop n (list_ascii_of_string s)).
Proof.
  revert n k. induction s as [|c s IH]; intros n k; [destruct n, k; done|]. destruct n as [|n]; simpl; [|by rewrite IH].
  destruct k as [|k]; [done|]. simpl. by rewrite IH.
Qed.

Lemma length_list s : List.length (list_ascii_of_string s) = String.length s.
Proof. induction s; simpl; congruence. Qed.

Lemma list_ascii_inj s t : list_ascii_of_string s = list_ascii_of_string t -> s = t.
Proof. intros H. rewrite <- (string_of_list_ascii_of_string s), H. apply string_of_list_ascii_of_string. Qed.

(** A clipped result: the two ends, and the count of what was between. *)
Definition clippedFrom (limit : Z) (content clipped : string) : Prop :=
  exists h mid t, content = h +:+ mid +:+ t /\ size h = limit / 2 /\ size t = limit / 2 /\ clipped = h +:+ toolCutMarker (size mid) +:+ t.

Lemma clip_ends limit content : 0 <= limit < size content -> clippedFrom limit content (clip limit content).
Proof.
  intros Hl. unfold size in Hl. set (half := Z.to_nat (limit / 2)).
  assert (Hh : Z.of_nat half = limit / 2) by (apply Z2Nat.id, Z.div_pos; lia).
  assert (H2 : (2 * half <= String.length content)%nat) by (pose proof (Z.mul_div_le limit 2); lia).
  set (l := list_ascii_of_string content). assert (Hlen : List.length l = String.length content) by apply length_list.
  exists (String.substring 0 half content), (String.substring half (String.length content - 2 * half) content), (String.substring (String.length content - half) half content).
  assert (Hsize : forall n k, (n + k <= String.length content)%nat -> String.length (String.substring n k content) = k).
  { intros n k Hnk. rewrite <- length_list, substring_list, length_take, length_drop. fold l. lia. }
  split_and!.
  - apply list_ascii_inj. rewrite !list_ascii_app, !substring_list. fold l. rewrite drop_0.
    rewrite <- (take_drop half l) at 1. f_equal. rewrite <- (take_drop (String.length content - 2 * half) (drop half l)) at 1. f_equal.
    rewrite drop_drop. replace (half + (String.length content - 2 * half))%nat with (String.length content - half)%nat by lia.
    rewrite take_ge; [done|]. rewrite length_drop. lia.
  - unfold size. rewrite Hsize; lia.
  - unfold size. rewrite Hsize; lia.
  - unfold clip. fold half. unfold size. rewrite Hsize by lia. do 3 f_equal. lia.
Qed.

Definition capped (jsonValid : string -> bool) (limit : Z) (raw raw' : json) : Prop :=
  raw' = raw \/
  exists entry content clipped, raw = JObj entry /\ strAt entry "role" = "tool" /\ at_ entry "content" = JStr content /\ limit < size content /\ jsonValid content = false /\
    clippedFrom limit content clipped /\ size clipped < size content /\ raw' = JObj (<["content" := JStr clipped]> entry).

Lemma clippedContent_capped jsonValid limit raw clipped :
  0 <= limit -> clippedContent jsonValid limit raw = Some clipped ->
  capped jsonValid limit raw (setContent raw clipped) /\ contentSize (setContent raw clipped) = size clipped /\ size clipped < contentSize raw.
Proof.
  intros Hl. unfold clippedContent, contentSize. destruct (str_eq (messageRole raw) "tool") eqn:Er; [|done]. apply str_eq_spec in Er.
  destruct raw as [| | | | | |entry]; try done. simpl in *. destruct (at_ entry "content") as [| | | |content| |] eqn:Ec; try done. simpl.
  destruct (Z.leb_spec (size content) limit); [done|]. destruct (jsonValid content) eqn:Ej; [done|].
  destruct (Z.leb_spec (size content) (size (clip limit content))); [done|]. intros [= <-]. rewrite at_insert. split_and!; [|done|done].
  right. exists entry, content, (clip limit content). split_and!; try done. apply clip_ends. lia.
Qed.

Lemma applyToolCap_spec jsonValid limit original : 0 <= limit ->
  let '(messages, saved) := applyToolCap jsonValid original limit in
  Forall2 (capped jsonValid limit) original messages /\ saved = approxSize original - approxSize messages /\ 0 <= saved.
Proof.
  intros Hl. unfold applyToolCap.
  enough (H : forall rest done_ acc, Forall2 (capped jsonValid limit) done_ acc.1 -> acc.2 = approxSize done_ - approxSize acc.1 -> 0 <= acc.2 ->
    let '(messages, saved) := fold_left (capStep jsonValid limit) rest acc in
    Forall2 (capped jsonValid limit) (done_ ++ rest) messages /\ saved = approxSize (done_ ++ rest) - approxSize messages /\ 0 <= saved) by (by apply (H original [])).
  induction rest as [|raw rest IH]; intros done_ [out saved] H1 H2 H3; [by rewrite app_nil_r|]. cbn [fold_left capStep]. simpl in *.
  replace (done_ ++ raw :: rest)%list with ((done_ ++ [raw]) ++ rest)%list by by rewrite <- app_assoc.
  destruct (clippedContent jsonValid limit raw) as [clipped|] eqn:E.
  - destruct (clippedContent_capped _ _ _ _ Hl E) as (Hc & Hs & Hlt). apply IH; simpl; [apply Forall2_app; [done|by constructor]| |lia].
    rewrite !approxSize_app, !approxSize_one. lia.
  - apply IH; simpl; [apply Forall2_app; [done|constructor; [by left|done]]| |done]. rewrite !approxSize_app. lia.
Qed.

Lemma toolResultLimit_off_or_floor env : toolResultLimit env = 0 \/ minToolResultLimit <= toolResultLimit env.
Proof.
  unfold toolResultLimit. destruct (empty_str _); [by left|]. set (n := envInt _ _ _). destruct (Z.leb_spec n 0); [by left|].
  right. destruct (Z.ltb_spec n minToolResultLimit); lia.
Qed.

(** The guard cuts tool results and nothing else, and says how much.
    Either the body is the caller's own and nothing is reported; or the limit is
    set (512 bytes at least), only string contents of tool messages that are
    longer than it and are not JSON are cut, each keeps its first and last half
    of the limit around a marker with the exact number of bytes left out, every
    other message and key is the caller's, and the reported saving is the
    difference of the two sizes and positive. *)
Theorem tool_cap_accounting jsonValid env m :
  let '(body, stat) := safeCompress jsonValid env (Some m) in
  (body = Some m /\ stat = noCompression /\ applied stat = false) \/
  (minToolResultLimit <= toolResultLimit env /\ applied stat = true /\
   exists original messages, at_ m "messages" = JArr original /\ body = Some (<["messages" := JArr messages]> m) /\
     Forall2 (capped jsonValid (toolResultLimit env)) original messages /\
     cs_OriginalBytes stat = approxSize original /\ cs_SavedBytes stat = approxSize original - approxSize messages).
Proof.
  unfold safeCompress, compressRequest. destruct (Z.leb_spec (toolResultLimit env) 0) as [|Hl]; [by left|].
  destruct (at_ m "messages") as [| | | | |[|x original]|] eqn:E; try by left.
  pose proof (applyToolCap_spec jsonValid (toolResultLimit env) (x :: original)) as H. destruct (applyToolCap _ _ _) as [messages saved].
  destruct H as (H1 & H2 & H3); [lia|]. destruct (Z.leb_spec saved 0); [by left|]. right.
  destruct (toolResultLimit_off_or_floor env); [lia|]. split_and!; [done|by apply Z.ltb_lt|]. by exists (x :: original), messages.
Qed.
