(* ===== verification/Rules.v ===== *)
(** * Rules: the policy engine (policyrules/generated_policy.go, policyvocab)

    The vocabulary of names, the runtime configuration, and the engine the
    policy language compiles to: facts are parsed first, then the deny rules
    run in order, then the route of the operation decides.  The evaluator of
    named conditions is the caller's: it is an argument, and this policy names
    no condition. *)

From S2P Require Import Prelude Types Env Text TraceRing Planner.
From Stdlib Require Import Lia ZArith Ascii String.
#[local] Open Scope string_scope.
#[local] Open Scope Z_scope.

(** ** Vocabulary *)

Definition OperationChatCompletion : string := "chat_completion".
Definition OperationEmbedding : string := "embedding".
Definition OperationMediaRequest : string := "media_request".
Definition OperationPlanning : string := "planning".
Definition OperationSecretLookup : string := "secret_lookup".
Definition OperationTelegramWebhook : string := "telegram_webhook".
Definition OperationToolOrchestration : string := "tool_orchestration".

Record vocabulary := mkVocabulary {
  vo_operations : list string;
  vo_targets : list string;
  vo_executors : list string;
}.

Definition Vocabulary : vocabulary := mkVocabulary
  [OperationChatCompletion; OperationEmbedding; OperationMediaRequest; OperationPlanning; OperationSecretLookup; OperationTelegramWebhook; OperationToolOrchestration]
  ["cervobridge"; "cervocore"; "cervomedia"; "cervovault_api"; "crashito_brain"]
  ["anthropic"; "local"; "ollama"; "openai"; "openrouter"].

Record policyError := mkPolicyError { pe_Code : string; pe_Field : string; pe_Reason : string }.

(** A name is normalized, and must be in its set; an empty set is open. *)
Definition validateName (kind : string) (set : list string) (name : string) : option policyError :=
  let name := ToLower (TrimSpace name) in
  if empty_str name then Some (mkPolicyError ("empty_" +:+ kind) kind (kind +:+ " is empty"))
  else if (List.length set =? 0)%nat then None
  else if bool_decide (name ∈ set) then None
  else Some (mkPolicyError ("unknown_" +:+ kind) kind ("unknown " +:+ kind +:+ " is not in vocabulary")).

Definition ValidateOperation : string -> option policyError := validateName "operation" (vo_operations Vocabulary).
Definition ValidateTarget : string -> option policyError := validateName "target" (vo_targets Vocabulary).
Definition ValidateExecutor : string -> option policyError := validateName "executor" (vo_executors Vocabulary).

(** ** Requests, decisions, configuration *)

Record policyRequest := mkPolicyRequest {
  pq_ID : string;
  pq_User : string;
  pq_Channel : string;
  pq_Operation : string;
  pq_Metadata : gmap string string;
}.

(** Fallback targets, which no rule sets, are left out. *)
Record coreDecision := mkCoreDecision {
  cd_Allow : bool;
  cd_Target : string;
  cd_Executor : string;
  cd_FallbackExecutors : list string;
  cd_Reason : string;
}.

Definition deny (reason : string) : coreDecision := mkCoreDecision false "" "" [] reason.

(** The condition evaluator is an argument of the decision. *)
Record PolicyRuntimeConfig := mkRuntimeConfig {
  pc_TrustedUsers : list string;
  pc_DefaultExecutor : string;
  pc_OperationTargets : gmap string string;
  pc_ExecutorFallbacks : gmap string (list string);
}.

Definition DefaultConfig : PolicyRuntimeConfig := mkRuntimeConfig ["cervantes"] "openrouter"
  (list_to_map [(OperationChatCompletion, "cervocore"); (OperationEmbedding, "cervocore"); (OperationPlanning, "cervocore");
                (OperationSecretLookup, "cervovault_api"); (OperationTelegramWebhook, "cervobridge"); (OperationToolOrchestration, "cervocore")])
  ∅.

(** The entries of the override replace those of the base, key by key. *)
Definition mergeRuntimeConfig (base override : PolicyRuntimeConfig) : PolicyRuntimeConfig :=
  mkRuntimeConfig
    (if (0 <? List.length (pc_TrustedUsers override))%nat then pc_TrustedUsers override else pc_TrustedUsers base)
    (if empty_str (pc_DefaultExecutor override) then pc_DefaultExecutor base else pc_DefaultExecutor override)
    (pc_OperationTargets override ∪ pc_OperationTargets base)
    (pc_ExecutorFallbacks override ∪ pc_ExecutorFallbacks base).

(** *** Validation *)

Definition appendRuntimeValidationError (errs : list policyError) (err : option policyError) (field : string) : list policyError :=
  match err with
  | None => errs
  | Some e => (errs ++ [mkPolicyError (pe_Code e) field (pe_Reason e)])%list
  end.

Definition bracket (name key : string) : string := name +:+ "[" +:+ key +:+ "]".

Definition validateTargetEntry (errs : list policyError) (entry : string * string) : list policyError :=
  let '(operation, target) := entry in
  let field := bracket "operation_targets" operation in
  appendRuntimeValidationError (appendRuntimeValidationError errs (ValidateOperation operation) field) (ValidateTarget target) (field +:+ ".target").

Fixpoint validateFallbacks (field : string) (i : Z) (fallbacks : list string) (errs : list policyError) : list policyError :=
  match fallbacks with
  | [] => errs
  | f :: rest => validateFallbacks field (i + 1) rest (appendRuntimeValidationError errs (ValidateExecutor f) (bracket field (pretty i)))
  end.

Definition validateFallbackEntry (errs : list policyError) (entry : string * list string) : list policyError :=
  let '(executor, fallbacks) := entry in
  let field := bracket "executor_fallbacks" executor in
  validateFallbacks field 0 fallbacks (appendRuntimeValidationError errs (ValidateExecutor executor) field).

(** The errors, in the order the maps are listed in; the source sorts them. *)
Definition ValidateConfig (cfg : PolicyRuntimeConfig) : list policyError :=
  let errs := if empty_str (pc_DefaultExecutor cfg) then []
              else appendRuntimeValidationError [] (ValidateExecutor (pc_DefaultExecutor cfg)) "defaults.executor" in
  let errs := fold_left validateTargetEntry (map_to_list (pc_OperationTargets cfg)) errs in
  fold_left validateFallbackEntry (map_to_list (pc_ExecutorFallbacks cfg)) errs.

(** ** Facts *)

Definition FactBodyBytes : string := "body_bytes".

Record factIntegerBounds := mkBounds { fb_default : option Z; fb_min : option Z; fb_max : option Z }.

Definition factRawValue (req : policyRequest) (name : string) : option string :=
  match pq_Metadata req !! name with
  | None => None
  | Some raw => if empty_str (TrimSpace raw) then None else Some (TrimSpace raw)
  end.

Definition missingFactError (name : string) : policyError :=
  mkPolicyError "missing_fact" ("facts." +:+ name) "fact is absent from request metadata and the policy declares no default".
Definition invalidFactError (name reason : string) : policyError := mkPolicyError "invalid_fact" ("facts." +:+ name) reason.

Definition factIntegerValue (req : policyRequest) (name : string) (bounds : factIntegerBounds) : policyError + Z :=
  match factRawValue req name with
  | None => match fb_default bounds with Some d => inr d | None => inl (missingFactError name) end
  | Some raw =>
      match ParseInt64 raw with
      | None => inl (invalidFactError name "fact is not an integer")
      | Some value =>
          if match fb_min bounds with Some m => value <? m | None => false end then inl (invalidFactError name "fact is below its declared minimum")
          else if match fb_max bounds with Some m => m <? value | None => false end then inl (invalidFactError name "fact is above its declared maximum")
          else inr value
      end
  end.

Record factFrame := mkFrame { factBodyBytes : Z }.

Definition newFactFrame (req : policyRequest) : policyError + factFrame :=
  match factIntegerValue req FactBodyBytes (mkBounds (Some 0) (Some 0) None) with
  | inl e => inl e
  | inr n => inr (mkFrame n)
  end.

(** ** The engine *)

Definition ruleMatcher : Type := policyRequest -> factFrame -> policyError + (bool * string).

Definition maxPolicyBody : Z := 67108864.

Definition matchRule0DenyOversizedBody : ruleMatcher := fun _ f =>
  inr (if maxPolicyBody <? factBodyBytes f then (true, "body_bytes gt 67108864") else (false, "")).

Record generatedRoute := mkRoute {
  gr_target : string;
  gr_executor : string;
  gr_id : string;
  gr_reason : string;
  gr_requiresTrustedUser : bool;
  gr_requires : list string;
  gr_match : option ruleMatcher;
}.

Definition zeroRoute : generatedRoute := mkRoute "" "" "" "" false [] None.

Record generatedDeny := mkDeny {
  gd_operation : string;
  gd_id : string;
  gd_reason : string;
  gd_requires : list string;
  gd_match : option ruleMatcher;
}.

Record generatedEngine := mkEngine {
  ge_routes : gmap string generatedRoute;
  ge_denies : list generatedDeny;
  ge_disabledDenies : gmap string string;
  ge_trustedUsers : gset string;
  ge_defaultExecutor : string;
  ge_executorFallbacks : gmap string (list string);
}.

Definition simpleRoute (operation target : string) (trusted : bool) : string * generatedRoute :=
  (operation, mkRoute target "" operation "route matched" trusted [] None).

Definition builtRoutes : gmap string generatedRoute := list_to_map
  [simpleRoute OperationChatCompletion "cervocore" false; simpleRoute OperationEmbedding "cervocore" false; simpleRoute OperationPlanning "cervocore" false;
   simpleRoute OperationSecretLookup "cervovault_api" true; simpleRoute OperationTelegramWebhook "cervobridge" false;
   simpleRoute OperationToolOrchestration "cervocore" false].

Definition disabledRoutes : gmap string generatedRoute :=
  {[OperationMediaRequest := mkRoute "cervomedia" "" OperationMediaRequest "runtime override" false [] None]}.

Definition disabledDenies : gmap string string := {[OperationMediaRequest := "media backend not configured"]}.

Definition denies : list generatedDeny :=
  [mkDeny "" "deny-oversized-body" "request body exceeds the size this policy allows" [] (Some matchRule0DenyOversizedBody)].

(** The route of an operation whose target the configuration names. *)
Definition overrideRoute (cfg : PolicyRuntimeConfig) (operation target : string) : generatedRoute :=
  let route := match builtRoutes !! operation with Some r => r | None => default zeroRoute (disabledRoutes !! operation) end in
  mkRoute target
    (if empty_str (gr_executor route) then pc_DefaultExecutor cfg else gr_executor route)
    (if empty_str (gr_id route) then operation else gr_id route)
    (if empty_str (gr_reason route) then "runtime override" else gr_reason route)
    (gr_requiresTrustedUser route) (gr_requires route) (gr_match route).

Definition trustedSet (users : list string) : gset string :=
  list_to_set (List.filter (fun u => negb (empty_str u)) ((fun u => ToLower (TrimSpace u)) <$> users)).

(** Every operation is written once, so the order of the map does not matter. *)
Definition Build (ctxDone : bool) (cfg : PolicyRuntimeConfig) : list policyError + generatedEngine :=
  if ctxDone then inl [mkPolicyError "context" "" "context canceled"]
  else
    let cfg := mergeRuntimeConfig DefaultConfig cfg in
    match ValidateConfig cfg with
    | [] =>
        inr (mkEngine (map_imap (fun operation target => Some (overrideRoute cfg operation target)) (pc_OperationTargets cfg) ∪ builtRoutes)
               denies disabledDenies (trustedSet (pc_TrustedUsers cfg)) (pc_DefaultExecutor cfg) (pc_ExecutorFallbacks cfg))
    | errs => inl errs
    end.

Section decide.
(** The condition evaluator; [None] is none configured. *)
Context (conditions : option (string -> policyRequest -> policyError + bool)).

Fixpoint allHold (holds : string -> policyRequest -> policyError + bool) (required : list string) (req : policyRequest) : policyError + bool :=
  match required with
  | [] => inr true
  | c :: rest => match holds c req with
                 | inl e => inl e
                 | inr true => allHold holds rest req
                 | inr false => inr false
                 end
  end.

Definition conditionsHold (required : list string) (req : policyRequest) : policyError + bool :=
  if (List.length required =? 0)%nat then inr true
  else match conditions with
  | None => inl (mkPolicyError "missing_conditions" "conditions" "policy requires conditions but no evaluator is configured")
  | Some holds => allHold holds required req
  end.

(** Conditions, then the predicate: whether the rule applies, and the detail. *)
Definition ruleApplies (required : list string) (matcher : option ruleMatcher) (req : policyRequest) (frame : factFrame) : policyError + (bool * string) :=
  match conditionsHold required req with
  | inl e => inl e
  | inr false => inr (false, "")
  | inr true => match matcher with Some f => f req frame | None => inr (true, "") end
  end.

Definition isTrustedUser (e : generatedEngine) (user : string) : bool :=
  let normalized := ToLower (TrimSpace user) in
  if empty_str normalized then false else bool_decide (normalized ∈ ge_trustedUsers e).

(** The loop over the deny rules: the reason of the first that applies, with
    the steps so far. *)
Fixpoint denyLoop (trace : bool) (rules : list generatedDeny) (req : policyRequest) (frame : factFrame) (steps : list policyTraceStep)
    : policyError + (list policyTraceStep * option string) :=
  match rules with
  | [] => inr (steps, None)
  | d :: rest =>
      if negb (empty_str (gd_operation d)) && negb (str_eq (gd_operation d) (pq_Operation req)) then denyLoop trace rest req frame steps
      else match ruleApplies (gd_requires d) (gd_match d) req frame with
      | inl e => inl e
      | inr (applies, detail) =>
          let steps := if trace then (steps ++ [mkStep (gd_id d) applies detail])%list else steps in
          if applies then inr (steps, Some (gd_reason d)) else denyLoop trace rest req frame steps
      end
  end.

(** The steps are attached when the trace is on. *)
Definition finish (trace : bool) (decision : coreDecision) (steps : list policyTraceStep) : coreDecision * option (list policyTraceStep) :=
  (decision, if trace then Some steps else None).

Definition DecideWithOptions (e : generatedEngine) (ctxDone trace : bool) (req : policyRequest) : policyError + (coreDecision * option (list policyTraceStep)) :=
  if ctxDone then inl (mkPolicyError "context" "" "context canceled")
  else match newFactFrame req with
  | inl err => inl err
  | inr frame =>
      match denyLoop trace (ge_denies e) req frame [] with
      | inl err => inl err
      | inr (steps, Some reason) => inr (finish trace (deny reason) steps)
      | inr (steps, None) =>
          match ge_routes e !! pq_Operation req with
          | None =>
              match ge_disabledDenies e !! pq_Operation req with
              | Some reason => inr (finish trace (deny reason) steps)
              | None => inr (finish trace (deny ("no route for operation " +:+ pq_Operation req)) steps)
              end
          | Some route =>
              if gr_requiresTrustedUser route && negb (isTrustedUser e (pq_User req)) then
                inr (finish trace (deny ("operation " +:+ pq_Operation req +:+ " requires trusted user")) steps)
              else match ruleApplies (gr_requires route) (gr_match route) req frame with
              | inl err => inl err
              | inr (eligible, detail) =>
                  let steps := if trace then (steps ++ [mkStep (gr_id route) eligible detail])%list else steps in
                  if negb eligible then inr (finish trace (deny ("operation " +:+ pq_Operation req +:+ " did not satisfy its required conditions")) steps)
                  else
                    let executor := if empty_str (gr_executor route) then ge_defaultExecutor e else gr_executor route in
                    inr (finish trace (mkCoreDecision true (gr_target route) executor (default [] (ge_executorFallbacks e !! executor)) (gr_reason route)) steps)
              end
          end
      end
  end.
End decide.

(** The engine that stands in for one that could not be built. *)
Definition denyAllPolicyEngine (reason : string) : policyError + (coreDecision * option (list policyTraceStep)) :=
  inl (mkPolicyError "deny_all" "" (if empty_str reason then "policy unavailable" else reason)).

(** ** What the policy permits *)

(** Every compiled route is plain: its operation has a default target, it has
    no executor, condition or predicate of its own, and only the secret lookup
    asks for a trusted user. *)
Lemma builtRoutes_plain op r :
  builtRoutes !! op = Some r ->
  is_Some (pc_OperationTargets DefaultConfig !! op) /\ gr_executor r = "" /\ gr_requires r = [] /\ gr_match r = None /\
  gr_requiresTrustedUser r = bool_decide (op = OperationSecretLookup).
Proof.
  unfold builtRoutes. intros H%elem_of_list_to_map_2. unfold simpleRoute in H.
  repeat (apply elem_of_cons in H as [H|H]; [injection H as -> ->; split_and!; [eexists; vm_compute; reflexivity|reflexivity..]|]). by apply not_elem_of_nil in H.
Qed.

Lemma overrideRoute_plain cfg op target :
  let r := overrideRoute cfg op target in
  gr_target r = target /\ (gr_executor r = pc_DefaultExecutor cfg) /\ gr_requires r = [] /\ gr_match r = None /\
  gr_requiresTrustedUser r = bool_decide (op = OperationSecretLookup).
Proof.
  cbv zeta. unfold overrideRoute. destruct (builtRoutes !! op) as [r|] eqn:E; simpl.
  - destruct (builtRoutes_plain op r E) as (_ & H1 & H2 & H3 & H4). by rewrite H1.
  - assert (Hs : bool_decide (op = OperationSecretLookup) = false) by (apply bool_decide_eq_false; by intros ->).
    rewrite Hs. unfold disabledRoutes. destruct (decide (op = OperationMediaRequest)) as [->|Hne]; [by rewrite lookup_singleton_eq|].
    by rewrite lookup_singleton_ne.
Qed.

Lemma Build_routes cfg e op :
  Build false cfg = inr e ->
  let cfg' := mergeRuntimeConfig DefaultConfig cfg in
  ge_denies e = denies /\ ge_defaultExecutor e = pc_DefaultExecutor cfg' /\ ge_trustedUsers e = trustedSet (pc_TrustedUsers cfg') /\
  ge_executorFallbacks e = pc_ExecutorFallbacks cfg' /\
  ge_routes e !! op = overrideRoute cfg' op <$> pc_OperationTargets cfg' !! op.
Proof.
  unfold Build. cbv zeta.
  assert (Hbase : forall r, builtRoutes !! op = Some r -> is_Some (pc_OperationTargets (mergeRuntimeConfig DefaultConfig cfg) !! op)).
  { intros r Er. destruct (builtRoutes_plain op r Er) as ([t Ht] & _). unfold mergeRuntimeConfig. cbn [pc_OperationTargets].
    rewrite lookup_union, Ht. by destruct (pc_OperationTargets cfg !! op). }
  revert Hbase. generalize (mergeRuntimeConfig DefaultConfig cfg). intros cfg' Hbase. destruct (ValidateConfig cfg'); [|done]. intros [= <-].
  cbn [ge_denies ge_defaultExecutor ge_trustedUsers ge_executorFallbacks ge_routes]. split_and!; try done. rewrite lookup_union, map_lookup_imap.
  destruct (pc_OperationTargets cfg' !! op) as [t|] eqn:E; simpl; [by rewrite union_Some_l|].
  destruct (builtRoutes !! op) as [r|]; [|done]. by destruct (Hbase r eq_refl).
Qed.

Lemma merged_executor cfg : pc_DefaultExecutor (mergeRuntimeConfig DefaultConfig cfg) <> "".
Proof.
  unfold mergeRuntimeConfig. cbn [pc_DefaultExecutor]. destruct (empty_str (pc_DefaultExecutor cfg)) eqn:E; [done|].
  intros H. apply empty_str_spec in H. congruence.
Qed.

Lemma trustedSet_spec users name : name ∈ trustedSet users <-> name <> "" /\ exists u, u ∈ users /\ ToLower (TrimSpace u) = name.
Proof.
  unfold trustedSet. rewrite elem_of_list_to_set. split.
  - intros [H1 H2%negb_true_iff]%list_elem_of_In%filter_In. apply list_elem_of_In, list_elem_of_fmap in H1 as (u & -> & Hu).
    split; [|by exists u]. intros H. apply empty_str_spec in H. congruence.
  - intros (Hne & u & Hu & <-). apply list_elem_of_In, filter_In. split.
    + apply list_elem_of_In, list_elem_of_fmap. by exists u.
    + apply negb_true_iff. destruct (empty_str _) eqn:E; [|done]. by apply empty_str_spec in E.
Qed.

(** A user the configuration trusts. *)
Definition trustedBy (users : list string) (user : string) : Prop :=
  ToLower (TrimSpace user) <> "" /\ exists u, u ∈ users /\ ToLower (TrimSpace u) = ToLower (TrimSpace user).

Lemma isTrustedUser_spec e users user : ge_trustedUsers e = trustedSet users -> isTrustedUser e user = true <-> trustedBy users user.
Proof.
  intros He. unfold isTrustedUser, trustedBy. rewrite He. destruct (empty_str _) eqn:E.
  - apply empty_str_spec in E. rewrite E. naive_solver.
  - rewrite bool_decide_eq_true, trustedSet_spec. done.
Qed.

(** C29: the compiled policy permits exactly what the configuration says.  The
    decision fails only on a malformed body size; otherwise a request is allowed
    if and only if its body is within 64 MiB, its operation has a target, and,
    for a secret lookup, its user is one the configuration trusts, which no
    override of a target can lift; and an allowed request goes to the
    configured target and executor, which is never empty. *)
Theorem policy_permits_exactly conditions cfg e trace req :
  Build false cfg = inr e ->
  let cfg' := mergeRuntimeConfig DefaultConfig cfg in
  match DecideWithOptions conditions e false trace req with
  | inl err => newFactFrame req = inl err
  | inr (d, steps) =>
      exists frame, newFactFrame req = inr frame /\
      (cd_Allow d = true <-> factBodyBytes frame <= maxPolicyBody /\ is_Some (pc_OperationTargets cfg' !! pq_Operation req) /\
                             (pq_Operation req = OperationSecretLookup -> trustedBy (pc_TrustedUsers cfg') (pq_User req))) /\
      (cd_Allow d = true -> pc_OperationTargets cfg' !! pq_Operation req = Some (cd_Target d) /\ cd_Executor d = pc_DefaultExecutor cfg' /\ cd_Executor d <> "") /\
      (is_Some steps <-> trace = true)
  end.
Proof.
  intros HB. cbv zeta. set (cfg' := mergeRuntimeConfig DefaultConfig cfg).
  destruct (Build_routes cfg e (pq_Operation req) HB) as (Hd & Hx & Ht & _ & Hr). fold cfg' in Hx, Ht, Hr.
  unfold DecideWithOptions. destruct (newFactFrame req) as [err|frame]; [done|]. rewrite Hd. unfold denies, denyLoop, ruleApplies, conditionsHold.
  cbn [gd_operation gd_requires gd_match List.length Nat.eqb]. unfold matchRule0DenyOversizedBody. simpl empty_str. cbn [negb andb].
  assert (Hsteps : forall (l : list policyTraceStep), is_Some (if trace then Some l else None) <-> trace = true).
  { intros l. destruct trace; [by split|]. split; [by intros [? ?]|done]. }
  destruct (Z.ltb_spec maxPolicyBody (factBodyBytes frame)) as [Hbig|Hok].
  { exists frame. split_and!; [done| |done|apply Hsteps]. split; [done|]. lia. }
  rewrite Hr. destruct (pc_OperationTargets cfg' !! pq_Operation req) as [target|] eqn:Et; cbn [fmap option_fmap option_map].
  2:{ destruct (ge_disabledDenies e !! pq_Operation req); exists frame; (split_and!; [done| |done|apply Hsteps]); (split; [done|by intros (_ & [? ?] & _)]). }
  destruct (overrideRoute_plain cfg' (pq_Operation req) target) as (H1 & H2 & H3 & H4 & H5). clear Hr.
  set (route := overrideRoute cfg' (pq_Operation req) target) in *. clearbody route. rewrite H5, H3, H4. cbn [List.length Nat.eqb].
  assert (Hempty : empty_str (pc_DefaultExecutor cfg') = false).
  { destruct (empty_str _) eqn:E; [|done]. apply empty_str_spec in E. by destruct (merged_executor cfg). }
  case_bool_decide as Hsec; simpl.
  - destruct (isTrustedUser e (pq_User req)) eqn:Etu; simpl.
    + exists frame. cbn. rewrite H2, Hempty, H1. split_and!; [done| | |apply Hsteps]; [|intros _; split_and!; [done|done|apply merged_executor]].
      split; [|done]. intros _. split_and!; [done|done|]. intros _. by apply (isTrustedUser_spec e).
    + exists frame. split_and!; [done| |done|apply Hsteps]. split; [done|]. intros (_ & _ & Hu). specialize (Hu Hsec).
      apply (isTrustedUser_spec e) in Hu; [congruence|done].
  - exists frame. rewrite H2, Hempty, H1. split_and!; [done| | |apply Hsteps]; [|intros _; split_and!; [done|done|apply merged_executor]].
    split; [|done]. intros _. by split_and!.
Qed.

Lemma wit_engine : Build false (mkRuntimeConfig [] "" ∅ ∅) = inr (match Build false (mkRuntimeConfig [] "" ∅ ∅) with inr e => e | inl _ => mkEngine ∅ [] ∅ ∅ "" ∅ end).
Proof. vm_compute. reflexivity. Qed.

Lemma policy_permits_exactly_witness :
  let req := mkPolicyRequest "" "cervantes" "" OperationSecretLookup {["body_bytes" := "12"]} in
  exists e, Build false (mkRuntimeConfig [] "" ∅ ∅) = inr e /\
  match DecideWithOptions None e false true req with
  | inl err => newFactFrame req = inl err
  | inr (d, steps) => cd_Allow d = true -> cd_Executor d <> ""
  end.
Proof.
  cbv zeta. eexists. split; [apply wit_engine|].
  pose proof (policy_permits_exactly None (mkRuntimeConfig [] "" ∅ ∅) _ true (mkPolicyRequest "" "cervantes" "" OperationSecretLookup {["body_bytes" := "12"]}) wit_engine) as H.
  cbv zeta in H. destruct (DecideWithOptions _ _ _ _ _) as [err|[d steps]]; [exact H|]. destruct H as (frame & _ & _ & H & _). intros Ha. apply (H Ha).
Defined.
