(* ===== verification/Observation.v ===== *)
(** * Observation: what is recorded about a policy decision (router_policy_observation.go, router_policy_errors.go)

    The sampling of decisions by the hash of the request, the options the engine
    is asked with, and the labels a decision is counted under.  Exporters, spans
    and log lines are left out; [strconv.ParseFloat] is an argument. *)

From S2P Require Import Prelude Float Types Env Text TraceRing Planner Rules.
From Stdlib Require Import Lia ZArith Ascii String SpecFloat.
#[local] Open Scope string_scope.
#[local] Open Scope Z_scope.

(** ** Sampling *)

(** FNV-1a at 32 bits. *)
Definition fnvOffset : Z := 2166136261.
Definition fnvPrime : Z := 16777619.

Definition fnvStep (h : Z) (c : ascii) : Z := (Z.lxor h (Z.of_nat (nat_of_ascii c)) * fnvPrime) mod 2 ^ 32.

Definition fnv32a (s : string) : Z := fold_left fnvStep (list_ascii_of_string s) fnvOffset.

Definition sampleBucket (id : string) : float64 := fdiv (f_of_Z (fnv32a id mod 10000)) (f_of_Z 10000).

Definition fleb (x y : float64) : bool := fltb x y || feqb x y.

Definition shouldSamplePolicyObservation (id : string) (rate : float64) : bool :=
  if fleb rate f0 then false else if fleb f1 rate then true else fltb (sampleBucket id) rate.

Definition isNaN (x : float64) : bool := match x with S754_nan => true | _ => false end.

Definition clampPolicySampleRate (rate : float64) : float64 :=
  if isNaN rate || fltb rate f0 then f0 else if fltb f1 rate then f1 else rate.

(** [parsed] is the setting as a float, [None] when it does not parse. *)
Definition envFloat (env : environ) (ParseFloat : string -> option float64) (key : string) (fallback : float64) : float64 :=
  let raw := envValue env key in
  if empty_str raw then fallback else default fallback (ParseFloat raw).

Inductive logLevel := LevelInfo | LevelWarn | LevelError.

Definition policyLogLevelFromEnv (env : environ) : logLevel :=
  let raw := ToLower (envValue env "CERVO_POLICY_LOG_LEVEL") in
  if str_eq raw "warn" || str_eq raw "warning" then LevelWarn else if str_eq raw "error" then LevelError else LevelInfo.

Record policyTelemetryConfig := mkTelemetry {
  pt_LogEnabled : bool;
  pt_MetricsEnabled : bool;
  pt_TraceEnabled : bool;
  pt_ObservationSampleRate : float64;
  pt_DebugIncludeTrace : bool;
  pt_LogLevel : logLevel;
}.

Definition loadPolicyTelemetryConfig (env : environ) (ParseFloat : string -> option float64) : policyTelemetryConfig :=
  mkTelemetry (envBool env "CERVO_POLICY_LOG_ENABLED" true) (envBool env "CERVO_POLICY_METRICS_ENABLED" true) (envBool env "CERVO_POLICY_TRACE_ENABLED" true)
    (clampPolicySampleRate (envFloat env ParseFloat "CERVO_POLICY_OBSERVATION_SAMPLE_RATE" f0)) (envBool env "CERVO_POLICY_DEBUG_INCLUDE_TRACE" false)
    (policyLogLevelFromEnv env).

(** Whether the engine is to trace, and to report an observation. *)
Definition policyDecisionOptionsForRequest (id : string) (cfg : policyTelemetryConfig) (routeTraceOn : bool) : bool * bool :=
  let includeDiagnostics := pt_DebugIncludeTrace cfg || shouldSamplePolicyObservation id (pt_ObservationSampleRate cfg) in
  (includeDiagnostics || routeTraceOn, includeDiagnostics).

(** The engine's trace as the router's; a nil trace has no steps. *)
Definition policyStepsFromResult (trace : option (list policyTraceStep)) : list policyTraceStep :=
  match trace with
  | None | Some [] => []
  | Some steps => (fun s => mkStep (stp_Name s) (stp_Matched s) (stp_Detail s)) <$> steps
  end.

(** ** Events *)

Definition valueOrNone (value : string) : string := if empty_str (TrimSpace value) then "none" else value.

Definition appendUnique (values : list string) (value : string) : list string :=
  if bool_decide (value ∈ values) then values else (values ++ [value])%list.

(** The codes and the fields of the errors, each once, in order. *)
Definition structuredErrorValues (errs : list policyError) : list string * list string :=
  fold_left (fun '(codes, fields) e =>
    (if empty_str (pe_Code e) then codes else appendUnique codes (pe_Code e), if empty_str (pe_Field e) then fields else appendUnique fields (pe_Field e)))
    errs ([], []).

Definition policyDecisionOutcome (decision : policyDecision) (failed : bool) : string :=
  if failed then "error" else if pd_Allow decision then "allow" else "deny".

(** How a decision failed, and with which structured errors. *)
Inductive policyFailure :=
| FailedBuild (errs : list policyError)
| FailedStructured (errs : list policyError)
| FailedSingle (err : policyError)
| FailedOther.

Definition policyErrorKind (err : policyFailure) : string :=
  match err with
  | FailedBuild _ => "policy_build"
  | FailedStructured _ | FailedSingle _ => "cervorules"
  | FailedOther => "generic"
  end.

(** [prepare] redacts and sorts the errors. *)
Definition policyStructuredErrorValues (prepare : list policyError -> list policyError) (err : policyFailure) : list string * list string :=
  match err with
  | FailedBuild errs | FailedStructured errs => structuredErrorValues (prepare errs)
  | FailedSingle e => structuredErrorValues (prepare [e])
  | FailedOther => ([], [])
  end.

Record PolicyMetadata := mkMetadata { pm_Name : string; pm_PolicyHash : string }.

Definition generatedPolicyMetadata : PolicyMetadata :=
  mkMetadata "calvoproxy.v3" "8ae977a39b798e431067bb4a6705e78ed80bb17c4021ef2df3d60d89dec47508".

Record PolicyTelemetryEvent := mkEvent {
  ev_SchemaVersion : string;
  ev_PolicyName : string;
  ev_PolicyHash : string;
  ev_Operation : string;
  ev_Target : string;
  ev_Executor : string;
  ev_Decision : string;
  ev_RuleID : string;
  ev_AuditClass : string;
  ev_RequiresAudit : bool;
  ev_ProxyReady : string;
  ev_ProxyStatus : string;
  ev_ErrorKind : string;
  ev_ErrorCodes : list string;
  ev_ErrorFields : list string;
  ev_DurationMS : Z;
}.

Definition policyTelemetrySchemaVersion : string := "calvoproxy.policy_telemetry.v1".

Definition formatBool (b : bool) : string := if b then "true" else "false".

Definition addObserved (req : policyRequest) (fields : gmap string string) (key : string) : gmap string string :=
  let value := default "" (pq_Metadata req !! key) in
  if empty_str value then fields else <[key := value]> fields.

Definition policyDecisionObservationFields (req : policyRequest) (decision : policyDecision) : gmap string string :=
  fold_left (addObserved req) ["proxy_ready"; "proxy_status"; "proxy_circuit_state"]
    (list_to_map [("operation", pq_Operation req); ("target", pd_Target decision); ("executor", pd_Executor decision); ("reason", pd_Reason decision);
                  ("rule_id", pd_RuleID decision); ("audit_class", pd_AuditClass decision); ("requires_audit", formatBool (pd_RequiresAudit decision))]).

Definition newPolicyTelemetryEvent (prepare : list policyError -> list policyError) (req : policyRequest) (decision : policyDecision) (metadata : PolicyMetadata)
    (err : option policyFailure) (durationMS : Z) : PolicyTelemetryEvent :=
  let metadata := if empty_str (pm_Name metadata) then generatedPolicyMetadata else metadata in
  let fields := policyDecisionObservationFields req decision in
  let field key := default "" (fields !! key) in
  let '(codes, errorFields) := match err with Some e => policyStructuredErrorValues prepare e | None => ([], []) end in
  mkEvent policyTelemetrySchemaVersion (valueOrNone (pm_Name metadata)) (valueOrNone (pm_PolicyHash metadata))
    (valueOrNone (field "operation")) (valueOrNone (field "target")) (valueOrNone (field "executor"))
    (policyDecisionOutcome decision (bool_decide (is_Some err))) (field "rule_id") (field "audit_class") (pd_RequiresAudit decision)
    (field "proxy_ready") (field "proxy_status") (match err with Some e => policyErrorKind e | None => "" end) codes errorFields durationMS.

Definition optionalAttr (key value : string) : list (string * string) := if empty_str value then [] else [(key, value)].

Definition LogAttrs (e : PolicyTelemetryEvent) : list (string * string) :=
  ([("event", "cervorules.policy.decision"); ("schema_version", ev_SchemaVersion e); ("policy_name", ev_PolicyName e); ("policy_hash", ev_PolicyHash e);
    ("operation", ev_Operation e); ("target", ev_Target e); ("executor", ev_Executor e); ("decision", ev_Decision e); ("rule_id", ev_RuleID e);
    ("audit_class", ev_AuditClass e); ("requires_audit", formatBool (ev_RequiresAudit e)); ("duration_ms", pretty (ev_DurationMS e))] ++
   optionalAttr "proxy_ready" (ev_ProxyReady e) ++ optionalAttr "proxy_status" (ev_ProxyStatus e) ++ optionalAttr "error_kind" (ev_ErrorKind e) ++
   (if (0 <? List.length (ev_ErrorCodes e))%nat then [("error_codes", String.concat "," (ev_ErrorCodes e))] else []) ++
   (if (0 <? List.length (ev_ErrorFields e))%nat then [("error_fields", String.concat "," (ev_ErrorFields e))] else []))%list.

Definition TraceAttributes (e : PolicyTelemetryEvent) : list (string * string) :=
  ([("cervo.policy.name", ev_PolicyName e); ("cervo.policy.hash", ev_PolicyHash e); ("cervo.policy.operation", valueOrNone (ev_Operation e));
    ("cervo.policy.target", valueOrNone (ev_Target e)); ("cervo.policy.executor", valueOrNone (ev_Executor e)); ("cervo.policy.decision", valueOrNone (ev_Decision e));
    ("cervo.policy.requires_audit", formatBool (ev_RequiresAudit e))] ++
   (if (0 <? List.length (ev_ErrorCodes e))%nat then [("cervo.policy.error_codes", String.concat "," (ev_ErrorCodes e))] else []))%list.

Definition MetricLabels (e : PolicyTelemetryEvent) : list (string * string) :=
  [("policy_name", ev_PolicyName e); ("operation", valueOrNone (ev_Operation e)); ("target", valueOrNone (ev_Target e));
   ("executor", valueOrNone (ev_Executor e)); ("decision", valueOrNone (ev_Decision e))].

Definition ErrorMetricLabels (e : PolicyTelemetryEvent) : list (string * string) :=
  let code := match ev_ErrorCodes e with [] => "none" | [c] => c | _ => "multiple" end in
  [("policy_name", ev_PolicyName e); ("operation", valueOrNone (ev_Operation e)); ("error_code", code)].

(** ** Sampling is consistent *)

Lemma fnv32a_range s : 0 <= fnv32a s < 2 ^ 32.
Proof.
  unfold fnv32a. enough (H : forall l h, 0 <= h < 2 ^ 32 -> 0 <= fold_left fnvStep l h < 2 ^ 32) by (apply H; unfold fnvOffset; lia).
  induction l as [|c l IH]; intros h Hh; [done|]. simpl. apply IH. unfold fnvStep. apply Z.mod_pos_bound. lia.
Qed.

Lemma sampleBucket_not_nan id : sampleBucket id <> S754_nan.
Proof.
  unfold sampleBucket. apply fdiv_not_nan; [|by exists false, 5497558138880000%positive, (-39)].
  apply f_of_Z_int64. pose proof (Z.mod_pos_bound (fnv32a id) 10000). unfold in_int64, min_int64, max_int64, two63. lia.
Qed.

Lemma fleb_key x y : x <> S754_nan -> y <> S754_nan -> fleb x y = true <-> ~ key_lt (fkey y) (fkey x).
Proof.
  intros Hx Hy. unfold fleb. rewrite orb_true_iff, fltb_key, feqb_key by done. unfold key_lt. lia.
Qed.

(** Sampling decisions is consistent.  A request that is sampled at one
    rate is sampled at every higher rate, nothing is sampled at rate 0 and
    everything at rate 1, and the configured rate is always between them. *)
Theorem sampling_monotone id r r' :
  r <> S754_nan -> r' <> S754_nan ->
  (fltb r' r = false -> shouldSamplePolicyObservation id r = true -> shouldSamplePolicyObservation id r' = true) /\
  (fleb r f0 = true -> shouldSamplePolicyObservation id r = false) /\
  (fleb f1 r = true -> shouldSamplePolicyObservation id r = true) /\
  (let c := clampPolicySampleRate r in c <> S754_nan /\ fleb f0 c = true /\ fleb c f1 = true).
Proof.
  intros Hr Hr'. assert (H0 : f0 <> S754_nan) by done. assert (H1 : f1 <> S754_nan) by done. pose proof (sampleBucket_not_nan id) as Hb.
  assert (H01 : key_lt (fkey f0) (fkey f1)) by (apply fltb_key; [done..|by vm_compute]).
  unfold shouldSamplePolicyObservation. split; [|split; [|split]].
  - intros Hle%not_true_iff_false. rewrite fltb_key in Hle by done.
    destruct (fleb r f0) eqn:E1; [done|]. apply not_true_iff_false in E1. rewrite fleb_key in E1 by done.
    assert (fleb r' f0 = false) as -> by (apply not_true_iff_false; rewrite fleb_key by done; unfold key_lt in *; lia).
    destruct (fleb f1 r') eqn:E2; [done|]. apply not_true_iff_false in E2. rewrite fleb_key in E2 by done.
    assert (fleb f1 r = false) as -> by (apply not_true_iff_false; rewrite fleb_key by done; unfold key_lt in *; lia).
    rewrite !fltb_key by done. unfold key_lt in *. lia.
  - by intros ->.
  - intros H. rewrite H. destruct (fleb r f0) eqn:E; [|done]. rewrite fleb_key in E, H by done. unfold key_lt in *. lia.
  - cbv zeta. unfold clampPolicySampleRate. replace (isNaN r) with false by by destruct r. cbn [orb].
    destruct (fltb r f0) eqn:E1; [split_and!; [done|by vm_compute..]|]. destruct (fltb f1 r) eqn:E2; [split_and!; [done|by vm_compute..]|].
    apply not_true_iff_false in E1, E2. rewrite fltb_key in E1, E2 by done. by rewrite !fleb_key.
Qed.

Lemma sampling_monotone_witness :
  flit 1 10 <> S754_nan /\ (fltb (flit 1 2) (flit 1 10) = false -> shouldSamplePolicyObservation "req-7" (flit 1 10) = true -> shouldSamplePolicyObservation "req-7" (flit 1 2) = true).
Proof. split; [discriminate|]. destruct (sampling_monotone "req-7" (flit 1 10) (flit 1 2)) as [H _]; [discriminate|discriminate|exact H]. Defined.

(** The user of a request reaches no event. *)
Lemma event_hides_user prepare req user decision metadata err ms :
  newPolicyTelemetryEvent prepare (mkPolicyRequest (pq_ID req) user (pq_Channel req) (pq_Operation req) (pq_Metadata req)) decision metadata err ms =
  newPolicyTelemetryEvent prepare req decision metadata err ms.
Proof. done. Qed.
