(* ===== verification/Policy.v ===== *)
(** * Policy: authorizing a request (operational_policy.go, router_policy_types.go, router_policy_facts.go, router_http_classifier.go, router_policy_config.go)

    The facts of a request, the limits of an operation, the audit class, and
    [authorizeOperationalRoute], which asks the engine and answers the client
    when it refuses.  The engine is an argument ([Rules] has the one that is
    built); what the HTTP adapter reads off a request is [httpFacts].  Spans,
    metrics and log lines are left out. *)

From S2P Require Import Prelude Float Types Env Text Breaker Scoring Quota Registry Affinity Fallback.
From S2P Require Import QuotaPolicy QuotaRouting Health TraceRing Trace Http Counters Upstream UpstreamSpec Planner Dispatch Json Request Rules Observation.
From Stdlib Require Import Lia ZArith Ascii String.
#[local] Open Scope string_scope.
#[local] Open Scope Z_scope.
#[local] Open Scope prog_scope.

(** ** Facts *)

Record requestFacts := mkFacts {
  rf_ID : string;
  rf_User : string;
  rf_Channel : string;
  rf_Risk : string;
  rf_OperationHint : string;
  rf_Metadata : gmap string string;
  rf_Stream : bool;
}.

(** What the HTTP adapter classifies. *)
Record httpFacts := mkHttpFacts {
  hf_ID : string;
  hf_User : string;
  hf_Channel : string;
  hf_Risk : string;
  hf_Operation : string;
}.

Definition trustUserHeader (env : environ) : bool := EqualFold (TrimSpace (envValue env "PROXY_TRUST_USER_HEADER")) "true".

Definition userFromHeader (env : environ) (user : string) : string :=
  if empty_str user || negb (trustUserHeader env) then "" else user.

Definition FactsFromHTTPRequest (env : environ) (f : httpFacts) : requestFacts :=
  mkFacts (hf_ID f) (userFromHeader env (hf_User f)) (hf_Channel f) (hf_Risk f) (hf_Operation f) ∅ false.

Definition validateClientOperation (operation : string) : option policyError :=
  if empty_str operation then None else ValidateOperation operation.

(** A field of the override, when it is set. *)
Definition orElse (override base : string) : string := if empty_str override then base else override.

Definition mergeRequestFacts (base override : requestFacts) : requestFacts :=
  mkFacts (orElse (rf_ID override) (rf_ID base)) (orElse (rf_User override) (rf_User base)) (orElse (rf_Channel override) (rf_Channel base))
    (orElse (rf_Risk override) (rf_Risk base))
    (if negb (empty_str (rf_OperationHint override)) && empty_str (rf_OperationHint base) then rf_OperationHint override else rf_OperationHint base)
    (rf_Metadata override ∪ rf_Metadata base)
    (rf_Stream override || rf_Stream base).

(** A nil map of metadata is replaced by an empty one before it is used. *)
Definition requestFromFacts (facts : requestFacts) : policyRequest :=
  let metadata := rf_Metadata facts in
  let metadata := if empty_str (rf_Risk facts) then metadata else <["risk" := rf_Risk facts]> metadata in
  mkPolicyRequest (rf_ID facts) (rf_User facts) (rf_Channel facts) (rf_OperationHint facts) metadata.

Definition requestedPolicyLimits (facts : requestFacts) (bodyLen : Z) (requestedLimits : option RequestedLimits) : RequestedLimits :=
  default (mkRequested bodyLen 0 (rf_Stream facts) false false) requestedLimits.

(** *** Derived facts *)

Definition maxFacts : nat := 32.

Definition addFact (predicate value : string) (facts : list (string * string)) : list (string * string) :=
  let value := TrimSpace value in
  if empty_str value || (maxFacts <=? List.length facts)%nat then facts else (facts ++ [(predicate, value)])%list.

Definition addIf (b : bool) (predicate value : string) (facts : list (string * string)) : list (string * string) :=
  if b then addFact predicate value facts else facts.

Definition derivePolicyFacts (request : requestFacts) (policy : policyRequestFacts) (status : string) (ready : bool) (openCount : Z) : list (string * string) :=
  let limits := pf_RequestedLimits policy in
  let out := addFact "request_operation" (rf_OperationHint request) [] in
  let out := addFact "request_channel" (rf_Channel request) out in
  let out := addFact "request_risk" (rf_Risk request) out in
  let out := addFact "request_profile" (default "" (pf_Metadata policy !! "profile")) out in
  let out := addIf (rf_Stream request || rl_Stream limits) "request_feature" "stream" out in
  let out := addIf (rl_Tools limits) "request_feature" "tools" out in
  let out := addIf (rl_Images limits) "request_feature" "images" out in
  let out := addIf (0 <? rl_MaxTokens limits) "request_requested_tokens" (pretty (rl_MaxTokens limits)) out in
  let out := addIf (negb (empty_str status)) "proxy_status" status out in
  let out := if ready then addFact "proxy_readiness" "ready" out else addIf (negb (empty_str status)) "proxy_readiness" "not_ready" out in
  addIf (0 <? openCount) "proxy_circuit_state" "has_open_circuits" out.

(** ** Limits *)

Record LimitViolation := mkViolation { lv_Field : string; lv_Reason : string }.

(** [limits.Check] of the rules package. *)
Definition Check (budget : Limits) (requested : RequestedLimits) : list LimitViolation :=
  ((if (0 <? lim_MaxBodyBytes budget) && (lim_MaxBodyBytes budget <? rl_BodyBytes requested)
   then [mkViolation "body_bytes" ("request body exceeds policy limit of " +:+ pretty (lim_MaxBodyBytes budget) +:+ " bytes")] else []) ++
  (if (0 <? lim_MaxTokens budget) && (lim_MaxTokens budget <? rl_MaxTokens requested)
   then [mkViolation "max_tokens" ("max_tokens exceeds policy limit of " +:+ pretty (lim_MaxTokens budget))] else []) ++
  (if rl_Stream requested && negb (lim_AllowStream budget) then [mkViolation "stream" "streaming is not allowed by policy"] else []) ++
  (if rl_Tools requested && negb (lim_AllowTools budget) then [mkViolation "tools" "tools are not allowed by policy"] else []) ++
  (if rl_Images requested && negb (lim_AllowImages budget) then [mkViolation "images" "images are not allowed by policy"] else []))%list.

Definition hasCustomLimits (limits : Limits) : bool :=
  lim_AllowStream limits || lim_AllowTools limits || lim_AllowImages limits || negb (lim_MaxBodyBytes limits =? 0) || negb (lim_MaxTokens limits =? 0).

Definition limitsForOperation (operation : string) (override : Limits) : Limits :=
  if hasCustomLimits override then override
  else if str_eq operation OperationChatCompletion then mkLimits 0 0 true true true
  else if str_eq operation OperationToolOrchestration then mkLimits 0 0 false true false
  else noLimits.

(** [decoded] is PROXY_LIMITS_JSON over the zero limits. *)
Definition loadLimitsFromEnv (env : environ) (decoded : Limits) : Limits :=
  let limits := if empty_str (envValue env "PROXY_LIMITS_JSON") then noLimits else decoded in
  let raw := envValue env "PROXY_MAX_BODY_BYTES" in
  if empty_str raw then limits
  else match ParseInt64 raw with
  | Some parsed => mkLimits parsed (lim_MaxTokens limits) (lim_AllowStream limits) (lim_AllowTools limits) (lim_AllowImages limits)
  | None => limits
  end.

(** ** Audit *)

Definition sensitiveValue (lower : string) : bool := Contains lower "secret" || Contains lower "vault" || Contains lower "credential".
Definition adminValue (lower : string) : bool := Contains lower "deploy" || Contains lower "proxmox".

Fixpoint auditOf (values : list string) : string :=
  match values with
  | [] => "none"
  | v :: rest => if sensitiveValue (ToLower v) then "sensitive" else if adminValue (ToLower v) then "admin" else auditOf rest
  end.

(** Go visits the metadata in any order: [visit] is the order of this run. *)
Definition auditClassForRequest (visit : gmap string string -> list string) (req : policyRequest) : string :=
  if str_eq (pq_Operation req) OperationSecretLookup then "sensitive" else auditOf (visit (pq_Metadata req)).

(** ** The runtime configuration *)

Record ruleRuntimeConfig := mkRuleConfig {
  rr_Policy : PolicyRuntimeConfig;
  rr_DefaultTimeout : Z;
  rr_RetryPolicy : RetryPolicy;
  rr_BreakerPolicy : BreakerPolicy;
  rr_Limits : Limits;
}.

Definition normalizeRuleConfig (cfg : ruleRuntimeConfig) : ruleRuntimeConfig :=
  let p := rr_Policy cfg in
  let b := rr_BreakerPolicy cfg in
  mkRuleConfig
    (mkRuntimeConfig (pc_TrustedUsers p) (if empty_str (pc_DefaultExecutor p) then providerOpenRouter else pc_DefaultExecutor p) (pc_OperationTargets p) (pc_ExecutorFallbacks p))
    (if rr_DefaultTimeout cfg <=? 0 then defaultPolicyTimeout else rr_DefaultTimeout cfg)
    (rr_RetryPolicy cfg)
    (mkBreakerPolicy (if bp_FailureThreshold b <=? 0 then 3 else bp_FailureThreshold b) (if bp_Cooldown b <=? 0 then 60 * Second else bp_Cooldown b) true)
    (rr_Limits cfg).

(** The merge the generated factory does too. *)
Definition mergePolicyRuntimeConfig (base override : PolicyRuntimeConfig) : PolicyRuntimeConfig := mergeRuntimeConfig base override.

Definition envRouteOverrides : list (string * string) := [("PROXY_PLANNING_SERVICE", OperationPlanning); ("PROXY_MEDIA_SERVICE", OperationMediaRequest)].

Definition loadRouteOverridesFromEnv (env : environ) : gmap string string :=
  fold_left (fun routes '(key, operation) => let service := canonicalEnvValue env key in if empty_str service then routes else <[operation := service]> routes)
    envRouteOverrides ∅.

(** [decoded] is PROXY_PROVIDER_FALLBACKS_JSON, [None] when it does not decode. *)
Definition loadExecutorFallbacksFromEnv (env : environ) (decoded : option (gmap string (list string))) : gmap string (list string) :=
  if empty_str (envValue env "PROXY_PROVIDER_FALLBACKS_JSON") then ∅ else default ∅ decoded.

Definition loadRuleConfig (env : environ) (retry : RetryPolicy) (limits : Limits) (fallbacks : option (gmap string (list string)))
    (defaultTimeout failureThreshold cooldown : Z) : ruleRuntimeConfig :=
  mkRuleConfig
    (mkRuntimeConfig (splitCSV (envValue env "PROXY_TRUSTED_USERS")) (canonicalEnvValue env "PROXY_DEFAULT_PROVIDER")
       (loadRouteOverridesFromEnv env) (loadExecutorFallbacksFromEnv env fallbacks))
    defaultTimeout retry (mkBreakerPolicy failureThreshold cooldown true) (loadLimitsFromEnv env limits).

Definition buildPolicyFlow (cfg : ruleRuntimeConfig) : list policyError + generatedEngine :=
  Build false (mergePolicyRuntimeConfig DefaultConfig (rr_Policy (normalizeRuleConfig cfg))).

(** An engine as the router calls it: the request, and whether to trace. *)
Definition policyEngine : Type := policyRequest -> bool -> policyError + (coreDecision * option (list policyTraceStep)).

Definition loadPolicyFlow (cfg : ruleRuntimeConfig) : policyEngine :=
  match buildPolicyFlow cfg with
  | inr e => fun req trace => DecideWithOptions None e false trace req
  | inl _ => fun _ _ => denyAllPolicyEngine "policy flow compile failed"
  end.

(** ** Authorization *)

Section authorize.
Context (encodeError : string -> string) (visit : gmap string string -> list string).
Context (svc : RouterStatic) (env : environ) (runtime : ruleRuntimeConfig) (engine : option policyEngine).
(** The state of the model policy: strict validation, and its warnings. *)
Context (strict : bool) (warnings : nat) (clock : nat -> Z) (telemetry : policyTelemetryConfig).

Definition proxyDecision (req : policyRequest) (d : coreDecision) : policyDecision :=
  let audit := auditClassForRequest visit req in
  let limits := limitsForOperation (pq_Operation req) (rr_Limits runtime) in
  let out executor fallbacks ruleID audit requires :=
    mkDecision (cd_Allow d) (cd_Target d) executor fallbacks (cd_Reason d) ruleID [] audit requires (rr_DefaultTimeout runtime) (rr_RetryPolicy runtime)
      (rr_BreakerPolicy runtime) limits in
  if negb (cd_Allow d) then out (cd_Executor d) (cd_FallbackExecutors d) ("route." +:+ pq_Operation req) audit (negb (str_eq audit "none"))
  else
    let executor := if empty_str (cd_Executor d) then defaultPolicyProvider svc else cd_Executor d in
    let fallbacks := if (List.length (cd_FallbackExecutors d) =? 0)%nat
                     then default [] (pc_ExecutorFallbacks (rr_Policy runtime) !! executor) else cd_FallbackExecutors d in
    if str_eq (pq_Operation req) OperationSecretLookup then out executor fallbacks "secret.route" "sensitive" true
    else out executor fallbacks ("route." +:+ pq_Operation req) audit (negb (str_eq audit "none")).

Definition withSteps (steps : list policyTraceStep) (d : policyDecision) : policyDecision :=
  mkDecision (pd_Allow d) (pd_Target d) (pd_Executor d) (pd_FallbackExecutors d) (pd_Reason d) (pd_RuleID d) steps (pd_AuditClass d) (pd_RequiresAudit d)
    (pd_Timeout d) (pd_RetryPolicy d) (pd_BreakerPolicy d) (pd_Limits d).

Definition withTimeout (timeout : Z) (d : policyDecision) : policyDecision :=
  mkDecision (pd_Allow d) (pd_Target d) (pd_Executor d) (pd_FallbackExecutors d) (pd_Reason d) (pd_RuleID d) (pd_PolicySteps d) (pd_AuditClass d) (pd_RequiresAudit d)
    timeout (pd_RetryPolicy d) (pd_BreakerPolicy d) (pd_Limits d).

Definition validateDecisionLimits (decision : policyDecision) (requested : RequestedLimits) : prog bool :=
  match Check (pd_Limits decision) requested with
  | [] => ret true
  | first :: _ as violations =>
      match List.find (fun v => str_eq (lv_Field v) "body_bytes") violations with
      | Some v => onWriter (writeJSONError encodeError 413 (lv_Reason v)) ;; ret false
      | None => onWriter (writeJSONError encodeError 403 (lv_Reason first)) ;; ret false
      end
  end.

(** The request the engine sees: the facts, the size of the body, and the
    health of the proxy. *)
Definition engineRequest (facts : requestFacts) (bodyLen : Z) (requested : RequestedLimits) (status : string) (ready : bool) (openCount : Z) : policyRequest :=
  let req := requestFromFacts facts in
  let metadata := pq_Metadata req in
  let metadata := if 0 <? bodyLen then <[FactBodyBytes := pretty bodyLen]> metadata else metadata in
  let derived := derivePolicyFacts facts (mkPolicyFacts metadata requested) status ready openCount in
  let metadata := if empty_str status then metadata
                  else <["proxy_ready" := if ready then "true" else "false"]> (<["proxy_status" := status]> metadata) in
  let metadata := if 0 <? openCount then <["proxy_circuit_state" := "has_open_circuits"]> metadata else metadata in
  let metadata := <["derived_policy_fact_count" := pretty (Z.of_nat (List.length derived))]> metadata in
  mkPolicyRequest (pq_ID req) (pq_User req) (pq_Channel req) (pq_Operation req) metadata.

(** [healthFacts], with the clock it reads. *)
Definition healthNow : prog (string * bool * Z) :=
  t <- now clock ;;
  st <- gets w_breakers ;;
  k <- gets w_tick ;;
  let facts := healthFacts svc st strict warnings t (fun i => (later clock k (2 * i)%nat, later clock k (2 * i + 1)%nat)) in
  skipTicks (2 * List.length (allKnownAttempts svc))%nat ;;
  ret facts.

Definition authorizeOperationalRoute (hf : httpFacts) (facts : requestFacts) (bodyLen : Z) (requestedLimits : option RequestedLimits) : prog (option policyDecision) :=
  match engine with
  | None => ret (Some (withTimeout (cfg_RequestTimeout (config svc)) defaultAllowedDecision))
  | Some decide =>
      let http := FactsFromHTTPRequest env hf in
      match validateClientOperation (rf_OperationHint http) with
      | Some _ => onWriter (writeJSONError encodeError 400 ("unknown X-Cervo-Capability: " +:+ rf_OperationHint http)) ;; ret None
      | None =>
          let facts := mergeRequestFacts http facts in
          let requested := requestedPolicyLimits facts bodyLen requestedLimits in
          health <- healthNow ;;
          let '(status, ready, openCount) := health in
          let req := engineRequest facts bodyLen requested status ready openCount in
          match decide req (policyDecisionOptionsForRequest (pq_ID req) telemetry (traceEnabled env)).1 with
          | inl _ => onWriter (writeJSONError encodeError 500 "policy decision failed") ;; ret None
          | inr (result, steps) =>
              let decision := withSteps (policyStepsFromResult steps) (proxyDecision req result) in
              if negb (pd_Allow decision) then onWriter (writeJSONError encodeError 403 (pd_Reason decision)) ;; ret None
              else
                ok <- validateDecisionLimits decision requested ;;
                if ok : bool then ret (Some decision) else ret None
          end
      end
  end.
End authorize.

(** ** What authorization guarantees *)

Definition otherwise (w : world) : QuotaLedger * affinityStore * gmap string Z * RouterState * routerCounters * option routeTrace * traceRing :=
  (w_ledger w, w_affinity w, w_cooldowns w, w_breakers w, w_counters w, w_trace w, w_ring w).

Section guarantees.
Context (encodeError : string -> string) (visit : gmap string string -> list string).
Context (svc : RouterStatic) (env : environ) (runtime : ruleRuntimeConfig) (engine : option policyEngine).
Context (strict : bool) (warnings : nat) (clock : nat -> Z) (telemetry : policyTelemetryConfig).
#[local] Abbreviation authorize := (authorizeOperationalRoute encodeError visit svc env runtime engine strict warnings clock telemetry).
#[local] Abbreviation decisionOf := (proxyDecision visit svc runtime).

Lemma healthNow_frame w : let '(w', _) := healthNow svc strict warnings clock w in otherwise w' = otherwise w /\ w_writer w' = w_writer w.
Proof. done. Qed.

Lemma writeJSONError_status status message rw :
  rw_statuses (writeJSONError encodeError status message rw) = (rw_statuses rw ++ [status])%list.
Proof. unfold writeJSONError, Write. simpl. by destruct (rw_statuses rw). Qed.

(** The answer of the limits: nothing, or one refusal. *)
Lemma validateDecisionLimits_answers d requested w :
  let '(w', ok) := validateDecisionLimits encodeError d requested w in
  otherwise w' = otherwise w /\
  if ok : bool then w' = w /\ Check (pd_Limits d) requested = []
  else exists s, s ∈ [413; 403] /\ rw_statuses (w_writer w') = (rw_statuses (w_writer w) ++ [s])%list /\ Check (pd_Limits d) requested <> [].
Proof.
  unfold validateDecisionLimits. destruct (Check (pd_Limits d) requested) as [|first rest] eqn:E; [done|].
  destruct (List.find _ _); cbn [bind onWriter ret]; (split; [done|]); [exists 413|exists 403];
    (split_and!; [set_solver|eapply writeJSONError_status|done]).
Qed.

Lemma authorize_outcome hf facts bodyLen requestedLimits w :
  let '(w', r) := authorize hf facts bodyLen requestedLimits w in
  otherwise w' = otherwise w /\
  match r with
  | Some d =>
      w_writer w' = w_writer w /\
      (engine = None \/
       exists decide req trace result steps, engine = Some decide /\ decide req trace = inr (result, steps) /\ cd_Allow result = true /\ pd_Target d = cd_Target result /\
         validateClientOperation (hf_Operation hf) = None /\
         Check (pd_Limits d) (requestedPolicyLimits (mergeRequestFacts (FactsFromHTTPRequest env hf) facts) bodyLen requestedLimits) = [])
  | None => exists s, s ∈ [400; 403; 413; 500] /\ rw_statuses (w_writer w') = (rw_statuses (w_writer w) ++ [s])%list
  end.
Proof.
  unfold authorizeOperationalRoute. destruct engine as [decide|]; [|by split_and!; [..|left]].
  change (rf_OperationHint (FactsFromHTTPRequest env hf)) with (hf_Operation hf). cbv zeta. destruct (validateClientOperation (hf_Operation hf)) eqn:Ev.
  { unfold bind, onWriter, ret. split; [done|]. exists 400. split; [set_solver|apply writeJSONError_status]. }
  unfold bind at 1. pose proof (healthNow_frame w) as Hh. destruct (healthNow svc strict warnings clock w) as [w1 [[status ready] openCount]]. destruct Hh as [Ho Hw].
  set (merged := mergeRequestFacts (FactsFromHTTPRequest env hf) facts). set (requested := requestedPolicyLimits merged bodyLen requestedLimits).
  set (req := engineRequest merged bodyLen requested status ready openCount). set (trace := (policyDecisionOptionsForRequest _ _ _).1).
  destruct (decide req trace) as [err|[result steps]] eqn:Ed.
  { unfold bind, onWriter, ret. split; [done|]. exists 500. split; [set_solver|]. rewrite <- Hw. apply writeJSONError_status. }
  assert (Hp : forall l d, pd_Allow (withSteps l (decisionOf req d)) = cd_Allow d /\ pd_Target (withSteps l (decisionOf req d)) = cd_Target d).
  { intros l d. unfold proxyDecision. destruct (cd_Allow d) eqn:E; simpl; [destruct (str_eq _ _)|]; by rewrite ?E. }
  destruct (Hp (policyStepsFromResult steps) result) as [Ha Ht]. rewrite Ha.
  destruct (cd_Allow result) eqn:Eallow; cbn [negb].
  2:{ unfold bind, onWriter, ret. split; [done|]. exists 403. split; [set_solver|]. rewrite <- Hw. apply writeJSONError_status. }
  unfold bind. set (d := withSteps _ _). pose proof (validateDecisionLimits_answers d requested w1) as H.
  revert H. destruct (validateDecisionLimits encodeError d requested w1) as [w2 ok] eqn:Ew. intros [Ho2 H]. destruct ok; simpl.
  - destruct H as [-> Hc]. split; [done|]. split; [done|]. right. exists decide, req, trace, result, steps. by split_and!.
  - split; [congruence|]. destruct H as (s & Hs & Hst & _). exists s. split; [set_solver|]. by rewrite Hst, Hw.
Qed.
(** C30: authorization fails closed.  A request is let through only when there
    is no engine, or when the operation the caller named is in the vocabulary,
    the engine decided without error and allowed it, and the request is within
    the limits of the decision; then nothing has been written.  In every other
    case the client gets exactly one answer, 400, 403, 413 or 500.  Nothing else
    of the service changes either way. *)
Theorem authorize_fails_closed hf facts bodyLen requestedLimits w :
  let '(w', r) := authorize hf facts bodyLen requestedLimits w in
  otherwise w' = otherwise w /\
  match r with
  | Some d =>
      w_writer w' = w_writer w /\
      (engine = None \/
       exists decide req trace result steps, engine = Some decide /\ decide req trace = inr (result, steps) /\ cd_Allow result = true /\ pd_Target d = cd_Target result /\
         validateClientOperation (hf_Operation hf) = None /\
         Check (pd_Limits d) (requestedPolicyLimits (mergeRequestFacts (FactsFromHTTPRequest env hf) facts) bodyLen requestedLimits) = [])
  | None => exists s, s ∈ [400; 403; 413; 500] /\ rw_statuses (w_writer w') = (rw_statuses (w_writer w) ++ [s])%list
  end.
Proof. apply authorize_outcome. Qed.
End guarantees.

Lemma engineRequest_identity facts bodyLen requested status ready openCount :
  let req := engineRequest facts bodyLen requested status ready openCount in
  pq_User req = rf_User facts /\ pq_Operation req = rf_OperationHint facts.
Proof. done. Qed.

Lemma untrusted_user env user : trustUserHeader env = false -> userFromHeader env user = "".
Proof. intros H. unfold userFromHeader. rewrite H. by rewrite orb_true_r. Qed.

(** C9: a name is not a proof of identity.  Unless the deployment says it
    trusts the user header, no header a caller sends gets a secret lookup
    authorized by the built policy, whatever users and targets it is configured
    with. *)
Theorem secrets_need_trusted_identity encodeError visit svc env runtime cfg strict warnings clock telemetry hf facts bodyLen requestedLimits w :
  trustUserHeader env = false -> rf_User facts = "" ->
  rf_OperationHint (mergeRequestFacts (FactsFromHTTPRequest env hf) facts) = OperationSecretLookup ->
  (authorizeOperationalRoute encodeError visit svc env runtime (Some (loadPolicyFlow cfg)) strict warnings clock telemetry hf facts bodyLen requestedLimits w).2 = None.
Proof.
  intros Htrust Huser Hop. unfold authorizeOperationalRoute. destruct (validateClientOperation _); [done|].
  unfold bind at 1. destruct (healthNow svc strict warnings clock w) as [w1 [[status ready] openCount]].
  set (merged := mergeRequestFacts (FactsFromHTTPRequest env hf) facts) in *. set (req := engineRequest merged _ _ _ _ _).
  assert (Hreq : pq_User req = "" /\ pq_Operation req = OperationSecretLookup).
  { split; [|exact Hop]. change (pq_User req) with (orElse (rf_User facts) (userFromHeader env (hf_User hf))). rewrite Huser, untrusted_user; done. }
  clearbody req. destruct Hreq as [Hu Ho]. set (trace := (policyDecisionOptionsForRequest _ _ _).1). clearbody trace.
  assert (Hd : match loadPolicyFlow cfg req trace with inl _ => True | inr (d, _) => cd_Allow d = false end).
  { unfold loadPolicyFlow. destruct (buildPolicyFlow cfg) as [errs|e] eqn:Eb; [done|]. unfold buildPolicyFlow in Eb.
    destruct (Build_routes _ _ OperationSecretLookup Eb) as (_ & _ & _ & _ & Hr). revert Hr.
    generalize (mergeRuntimeConfig DefaultConfig (mergePolicyRuntimeConfig DefaultConfig (rr_Policy (normalizeRuleConfig cfg)))). intros merge Hr.
    unfold DecideWithOptions. destruct (newFactFrame req); [done|]. destruct (denyLoop _ _ _ _ _ _) as [|[steps [reason|]]]; [done|done|]. rewrite Ho, Hr.
    destruct (pc_OperationTargets merge !! OperationSecretLookup) as [target|]; cbn [fmap option_fmap option_map]; [|by destruct (ge_disabledDenies e !! _)].
    destruct (overrideRoute_plain merge OperationSecretLookup target) as (_ & _ & _ & _ & H5). rewrite H5, Hu. done. }
  destruct (loadPolicyFlow cfg req trace) as [err|[result steps]]; [done|].
  assert (Ha : forall l, pd_Allow (withSteps l (proxyDecision visit svc runtime req result)) = cd_Allow result).
  { intros l. unfold proxyDecision. destruct (cd_Allow result) eqn:E; simpl; [destruct (str_eq _ _)|]; by rewrite ?E. }
  rewrite Ha, Hd. done.
Qed.

Definition wit_rules : ruleRuntimeConfig := loadRuleConfig ∅ (mkRetryPolicy 3 [] false false 0 0) noLimits None (45 * Second) 3 (60 * Second).
Definition wit_secret : httpFacts := mkHttpFacts "req-1" "cervantes" "" "" OperationSecretLookup.
Definition wit_chat : requestFacts := mkFacts "" "" "" "" OperationChatCompletion ∅ false.
Definition wit_telemetry : policyTelemetryConfig := loadPolicyTelemetryConfig ∅ (fun _ => None).

Lemma secrets_need_trusted_identity_witness :
  (authorizeOperationalRoute (fun m => m) (fun m => snd <$> map_to_list m) wit_svc ∅ wit_rules (Some (loadPolicyFlow wit_rules)) false 0 wit_clock wit_telemetry
     wit_secret wit_chat 10 None wit_world).2 = None.
Proof.
  apply secrets_need_trusted_identity; [vm_compute; reflexivity|vm_compute; reflexivity|vm_compute; reflexivity].
Defined.

(** *** The audit class *)

Definition flagged (v : string) : bool := sensitiveValue (ToLower v) || adminValue (ToLower v).

Lemma auditOf_spec values :
  (auditOf values = "none" /\ Forall (fun v => flagged v = false) values) \/
  (auditOf values = "sensitive" /\ exists v, v ∈ values /\ sensitiveValue (ToLower v) = true) \/
  (auditOf values = "admin" /\ exists v, v ∈ values /\ adminValue (ToLower v) = true).
Proof.
  induction values as [|v values IH]; [by left|]. simpl. destruct (sensitiveValue (ToLower v)) eqn:E1; [right; left; split; [done|]; exists v; by split; [left|]|].
  destruct (adminValue (ToLower v)) eqn:E2; [right; right; split; [done|]; exists v; by split; [left|]|].
  destruct IH as [[H1 H2]|[[H1 (u & Hu & H2)]|[H1 (u & Hu & H2)]]].
  - left. split; [done|]. constructor; [|done]. unfold flagged. by rewrite E1, E2.
  - right. left. split; [done|]. exists u. by split; [right|].
  - right. right. split; [done|]. exists u. by split; [right|].
Qed.

Section audit.
Context (visit : gmap string string -> list string) (Hvisit : forall m, visit m ≡ₚ snd <$> map_to_list m).

Lemma visit_elem m v : v ∈ visit m <-> exists k, m !! k = Some v.
Proof using Hvisit.
  rewrite (Hvisit m). split.
  - intros ([k v'] & -> & H)%list_elem_of_fmap. exists k. by apply elem_of_map_to_list.
  - intros [k H]. apply list_elem_of_fmap. exists (k, v). split; [done|]. by apply elem_of_map_to_list.
Qed.

(** An audited request is one with a reason to be.  In whatever order the
    metadata is visited, a request is left out of the audit exactly when it is
    no secret lookup and no value of its metadata mentions a secret, a vault, a
    credential, a deployment or Proxmox; and the class it gets is one that some
    value, or the operation, calls for. *)
Theorem audit_class_sound req :
  (auditClassForRequest visit req = "none" <->
     pq_Operation req <> OperationSecretLookup /\ forall k v, pq_Metadata req !! k = Some v -> flagged v = false) /\
  (auditClassForRequest visit req = "sensitive" ->
     pq_Operation req = OperationSecretLookup \/ exists k v, pq_Metadata req !! k = Some v /\ sensitiveValue (ToLower v) = true) /\
  (auditClassForRequest visit req = "admin" -> exists k v, pq_Metadata req !! k = Some v /\ adminValue (ToLower v) = true).
Proof using Hvisit.
  unfold auditClassForRequest. destruct (str_eq (pq_Operation req) OperationSecretLookup) eqn:E.
  { apply str_eq_spec in E. split_and!; [split; [done|tauto]|by left|done]. }
  apply str_eq_false in E. setoid_rewrite <- (visit_elem (pq_Metadata req)) || idtac.
  destruct (auditOf_spec (visit (pq_Metadata req))) as [[H1 H2]|[[H1 (u & Hu & H2)]|[H1 (u & Hu & H2)]]]; rewrite H1.
  - split_and!; [|done|done]. split; [|done]. intros _. split; [done|]. intros k v Hk. rewrite Forall_forall in H2. apply H2, visit_elem. by exists k.
  - apply visit_elem in Hu as [k Hk]. split_and!; [|by intros _; right; exists k, u|done]. split; [done|].
    intros [_ Hn]. specialize (Hn k u Hk). unfold flagged in Hn. by rewrite H2 in Hn.
  - apply visit_elem in Hu as [k Hk]. split_and!; [|done|by intros _; exists k, u]. split; [done|].
    intros [_ Hn]. specialize (Hn k u Hk). unfold flagged in Hn. by rewrite H2, orb_true_r in Hn.
Qed.
End audit.

Lemma audit_class_sound_witness :
  let visit := fun m : gmap string string => snd <$> map_to_list m in
  let req := mkPolicyRequest "" "" "" OperationChatCompletion {["requested_model" := "vault-7"]} in
  auditClassForRequest visit req = "sensitive" /\ (auditClassForRequest visit req <> "none").
Proof.
  intros visit req. split; [vm_compute; reflexivity|]. intros H. destruct (audit_class_sound visit (fun m => reflexivity _) req) as [[H1 _] _].
  destruct (H1 H) as [_ H2]. specialize (H2 "requested_model" "vault-7" eq_refl). vm_compute in H2. discriminate.
Defined.

(** With values of both kinds the class is the one Go happens to visit first. *)
Lemma audit_class_depends_on_order :
  let m : gmap string string := <["profile" := "deploy"]> {["requested_model" := "vault-7"]} in
  let req := mkPolicyRequest "" "" "" OperationChatCompletion m in
  ["deploy"; "vault-7"] ≡ₚ snd <$> map_to_list m /\ ["vault-7"; "deploy"] ≡ₚ snd <$> map_to_list m /\
  auditClassForRequest (fun _ => ["deploy"; "vault-7"]) req = "admin" /\ auditClassForRequest (fun _ => ["vault-7"; "deploy"]) req = "sensitive".
Proof.
  cbv zeta. assert (H : map_to_list (<["profile" := "deploy"]> {["requested_model" := "vault-7"]} : gmap string string) ≡ₚ [("profile", "deploy"); ("requested_model", "vault-7")])
    by (rewrite map_to_list_insert by done; by rewrite map_to_list_singleton).
  rewrite H. split_and!; [done|apply Permutation_swap|by vm_compute|by vm_compute].
Qed.

(** *** The limits of a body *)

(** Setting a maximal body size makes the limits custom, and custom limits that
    say nothing about streaming, tools and images forbid them: every streamed
    chat is refused. *)
Lemma body_limit_forbids_streaming requested :
  rl_Stream requested = true ->
  In (mkViolation "stream" "streaming is not allowed by policy")
    (Check (limitsForOperation OperationChatCompletion (loadLimitsFromEnv {["PROXY_MAX_BODY_BYTES" := "10485760"]} noLimits)) requested).
Proof.
  intros Hs. replace (limitsForOperation _ _) with (mkLimits 10485760 0 false false false) by by vm_compute.
  unfold Check. cbn [lim_AllowStream]. rewrite Hs. cbn [negb andb]. rewrite !in_app_iff. right. right. left. by left.
Qed.

(** Without the setting they are allowed. *)
Lemma default_limits_allow_streaming requested :
  Check (limitsForOperation OperationChatCompletion (loadLimitsFromEnv ∅ noLimits)) requested = [].
Proof. replace (limitsForOperation _ _) with (mkLimits 0 0 true true true) by by vm_compute. unfold Check. simpl. by rewrite !andb_false_r. Qed.
