(* ===== verification/Route.v ===== *)
(** * Route: a request from arrival to answer (router.go, router_tunnels.go)

    [RouteRequestWithProvider]: admission, the bound on the body, the three
    kinds of request (embeddings, Anthropic messages, chat), and the tunnels
    that pass a request through.  The JSON codec is two arguments: [decode] gives
    the value of a body ([None] on a syntax error, [Some None] for null), and
    [encode] the bytes of one. *)

From S2P Require Import Prelude Float Types Env Text Breaker Scoring Quota Registry Affinity Admission Fallback.
From S2P Require Import QuotaProviders QuotaPolicy QuotaRouting Health Eligibility TraceRing Trace Stream Errors Http Counters Upstream UpstreamSpec.
From S2P Require Import Planner Dispatch DispatchSpec Json Request Guardrail Prompt ToolCap Rules Observation Policy.
From Stdlib Require Import Lia ZArith Ascii String.
#[local] Open Scope string_scope.
#[local] Open Scope Z_scope.
#[local] Open Scope prog_scope.

(** A request as the handler sees it; [rq_body] is [None] when it cannot be
    read. *)
Record httpRequest := mkHttpRequest {
  rq_path : string;
  rq_query : string -> string;
  rq_header : string -> string;
  rq_body : option string;
  rq_facts : httpFacts;
}.

(** [http.Error]. *)
Definition plainError (message : string) (status : Z) (w : responseWriter) : responseWriter :=
  Write (message +:+ newline)
    (WriteHeader status (onHeader (fun h => header_Set "X-Content-Type-Options" "nosniff" (header_Set "Content-Type" "text/plain; charset=utf-8" h)) w)).

(** [io.ReadAll] over [http.MaxBytesReader]. *)
Definition readBody (env : environ) (r : httpRequest) : option string :=
  match rq_body r with
  | Some body => if maxRequestBodyBytes env <? Z.of_nat (String.length body) then None else Some body
  | None => None
  end.

Definition traceOptInHeader : string := "X-Calvoproxy-Trace".

Section route.
(** The libraries. *)
Context (fingerprint : string -> string) (ParseTime ParseDuration : string -> option Z).
Context (decodeError : string -> option (Z * list (string * string) * string)) (decodeRelayed : string -> option (string * string)).
Context (encodeView : traceView -> string) (encodeError quote : string -> string) (badURL : string -> option transportError) (transformResponse : string -> string).
Context (decode : string -> option (option object)) (encode : option object -> string) (jsonValid : string -> bool).
Context (convFloat : float64 -> Z) (convInt : Z -> Z) (mac : string -> string).
Context (ResolveProfileAlias : string -> option string) (ResolveModelAlias : string -> string -> string * string).
Context (Select : string -> string -> modelDecision).
(** The service. *)
Context (svc : RouterStatic) (env : environ) (cr : credentialStore) (ambient : bool).
Context (admission : admissionControl) (idx : capabilityIndex) (windows : gmap string contextWindow) (reasoning : gmap string string).
Context (runtime : ruleRuntimeConfig) (engine : option policyEngine) (strict : bool) (warnings : nat) (telemetry : policyTelemetryConfig).
(** The schedule of the request. *)
Context (clock : nat -> Z) (reply : modelAttempt -> upstreamRequest -> upstreamReply) (tunnelReply : upstreamRequest -> upstreamReply).
Context (admitted : bool) (slept granted : nat -> bool) (ctxAtEnd : ctxState) (visit : gmap string string -> list string) (traceID : string).

(** ** Tunnels *)

Definition tunnel (url body apiKey : string) : prog unit :=
  match newUpstreamRequest badURL "POST" url body apiKey with
  | inl err => onWriter (writeJSONError encodeError 502 (te_text err))
  | inr req =>
      match tunnelReply req with
      | RError err _ => onWriter (writeJSONError encodeError 502 (te_text err))
      | RResponse resp =>
          onWriter (streamProxyResponse (rs_status resp) (rs_header resp)) ;;
          t <- now clock ;;
          let idle := streamIdleTimeout env in
          let '(s, _) := streamCopy idle (streamMaxDuration env) (rs_reads resp) t (fullSchedule idle (rs_reads resp) (rs_events resp)) in
          onWriter (Write (ss_written s))
      end
  end.

Definition tunnelToOpenRouterMessages (body apiKey : string) : prog unit := tunnel (openRouterMessagesURL env) body apiKey.
Definition tunnelToOpenRouterEmbeddings (body apiKey : string) : prog unit := tunnel "https://openrouter.ai/api/v1/embeddings" body apiKey.

(** ** The chain on a body *)

Section request.
Context (r : httpRequest) (apiKey : string).

Definition requestContext : reqContext := mkContext ambient (keyForRequest mac (rq_header r) apiKey).
Definition requestedEffort : option string := withRequestReasoningEffort (rq_header r "X-Cervo-Reasoning") (rq_query r "reasoning").
Definition traceFull : bool := str_eq (rq_header r traceOptInHeader) "full".

(** [dispatchChain] with what it derives from the body. *)
Definition dispatchBody (decision : policyDecision) (reqBody : option object) (category requestedModel : string) (stream : bool) (opPath : string)
    (required : list string) (h : admissionHold) : prog admissionHold :=
  let '(compressed, stat) := safeCompress jsonValid env reqBody in
  let reqBody := if applied stat then compressed else reqBody in
  let wire a := encode (Some (attemptBody env reasoning requestedEffort convFloat idx reqBody a)) in
  let wireEstimate a := bodyEstimate convInt env (wire a) (default None (decode (wire a))) in
  dispatchChain fingerprint ParseTime ParseDuration decodeError decodeRelayed encodeView encodeError badURL transformResponse Select
    svc env cr requestContext apiKey traceFull admission idx windows (Some stat)
    (bodyEstimate convInt env (encode reqBody) reqBody) (bodyContext convInt env (encode reqBody) reqBody) wire wireEstimate clock reply slept granted ctxAtEnd
    traceID decision category requestedModel stream opPath required h.

Definition authorize (facts : requestFacts) (bodyLen : Z) (requested : option RequestedLimits) : prog (option policyDecision) :=
  authorizeOperationalRoute encodeError visit svc env runtime engine strict warnings clock telemetry (rq_facts r) facts bodyLen requested.

Definition hintOnly (operation : string) : requestFacts := mkFacts "" "" "" "" operation ∅ false.

(** What the chat and the messages path share: the profile, the name check, the
    authorization, then [guard] and the chain. *)
Definition routeChain (provider : string) (body : option object) (bodyLen : Z) (opPath : string) (guardBody : option object -> option object) (h : admissionHold) : prog admissionHold :=
  let messages := arrAt (orEmpty body) "messages" in
  let hasTools := hasRequestTools body in
  let hasImages := hasImageContent messages in
  let category := determineProfile ResolveProfileAlias svc idx (classifyPrompt messages) provider
                    [rq_query r "provider"; rq_query r "category"] [rq_header r "X-Cervo-Provider"; rq_header r "X-Cervo-Category"] hasImages hasTools in
  let requestedModel := strAt (orEmpty body) "model" in
  rejected <- rejectUnknownProfile ResolveProfileAlias svc env encodeError quote requestedModel ;;
  if rejected : bool then ret h
  else
    let '(category, requestedModel) := resolveModelAlias ResolveProfileAlias ResolveModelAlias category requestedModel in
    let stream := boolAt (orEmpty body) "stream" in
    let facts := requestPolicyFacts convFloat body category requestedModel stream hasTools hasImages bodyLen in
    decision <- authorize (mkFacts "" "" "" "" OperationChatCompletion (pf_Metadata facts) stream) bodyLen (Some (pf_RequestedLimits facts)) ;;
    match decision with
    | None => ret h
    | Some decision => dispatchBody decision (guardBody body) category requestedModel stream opPath (capsRequired hasImages hasTools) h
    end.

Definition routeEmbeddings (body : string) : prog unit :=
  if negb (envBool env "PROXY_ALLOW_PAID_EMBEDDINGS" false) then
    onCounters (countEvent paidEmbeddingRefused) ;;
    onWriter (writeJSONError encodeError 402
      "/v1/embeddings is disabled: OpenRouter has no free embedding model, so this endpoint spends real credit and is not covered by the model chain, breaker or fallback. Set PROXY_ALLOW_PAID_EMBEDDINGS=true to allow it.")
  else
    decision <- authorize (hintOnly OperationEmbedding) (Z.of_nat (String.length body)) None ;;
    match decision with None => ret tt | Some _ => tunnelToOpenRouterEmbeddings body apiKey end.

Definition routeMessages (provider body : string) (h : admissionHold) : prog admissionHold :=
  match decode body with
  | None =>
      decision <- authorize (hintOnly OperationChatCompletion) (Z.of_nat (String.length body)) None ;;
      match decision with None => ret h | Some _ => tunnelToOpenRouterMessages body apiKey ;; ret h end
  | Some msgBody => routeChain provider msgBody (Z.of_nat (String.length body)) messagesPath injectLocalAgentGuardrailForMessages h
  end.

Definition routeChat (provider body : string) (h : admissionHold) : prog admissionHold :=
  match decode body with
  | None => onWriter (plainError "Invalid JSON" 400) ;; ret h
  | Some reqBody =>
      let reqBody := clampRequestMaxTokens convFloat reqBody (envInt env "PROXY_MAX_COMPLETION_TOKENS" 0) in
      routeChain provider reqBody (Z.of_nat (String.length body)) "" injectLocalAgentGuardrail h
  end.

(** The handler once the request is admitted. *)
Definition routeAdmitted (provider : string) (h : admissionHold) : prog admissionHold :=
  match readBody env r with
  | None => onWriter (plainError "Request body too large or unreadable" 413) ;; ret h
  | Some body =>
      if Contains (rq_path r) "embeddings" then routeEmbeddings body ;; ret h
      else if Contains (rq_path r) "messages" then routeMessages provider body h
      else routeChat provider body h
  end.

(** The slot is released last, on every path. *)
Definition RouteRequestWithProvider (provider : string) : prog admissionHold :=
  let '(h, ok) := reacquireHold admission admitted zeroHold in
  if negb ok then
    onCounters (countEvent admissionRejected) ;;
    onWriter (onHeader (header_Set "Retry-After" (pretty (retryAfterSeconds admission)))) ;;
    onWriter (writeJSONError encodeError 503 "Server at capacity (PROXY_MAX_CONCURRENT). Retry shortly.") ;;
    ret h
  else h <- routeAdmitted provider h ;; ret (hold_release h 0).1.

Definition RouteRequest : prog admissionHold := RouteRequestWithProvider "".
End request.
End route.

(** ** Every request is answered, once *)

Section answers.
Context (fingerprint : string -> string) (ParseTime ParseDuration : string -> option Z).
Context (decodeError : string -> option (Z * list (string * string) * string)) (decodeRelayed : string -> option (string * string)).
Context (encodeView : traceView -> string) (encodeError quote : string -> string) (badURL : string -> option transportError) (transformResponse : string -> string).
Context (decode : string -> option (option object)) (encode : option object -> string) (jsonValid : string -> bool).
Context (convFloat : float64 -> Z) (convInt : Z -> Z) (mac : string -> string).
Context (ResolveProfileAlias : string -> option string) (ResolveModelAlias : string -> string -> string * string).
Context (Select : string -> string -> modelDecision).
Context (svc : RouterStatic) (env : environ) (cr : credentialStore) (ambient : bool).
Context (admission : admissionControl) (idx : capabilityIndex) (windows : gmap string contextWindow) (reasoning : gmap string string).
Context (runtime : ruleRuntimeConfig) (engine : option policyEngine) (strict : bool) (warnings : nat) (telemetry : policyTelemetryConfig).
Context (clock : nat -> Z) (reply : modelAttempt -> upstreamRequest -> upstreamReply) (tunnelReply : upstreamRequest -> upstreamReply).
Context (admitted : bool) (slept granted : nat -> bool) (ctxAtEnd : ctxState) (visit : gmap string string -> list string) (traceID : string).
Context (r : httpRequest) (apiKey : string).

#[local] Abbreviation route := (RouteRequestWithProvider fingerprint ParseTime ParseDuration decodeError decodeRelayed encodeView encodeError quote badURL transformResponse
  decode encode jsonValid convFloat convInt mac ResolveProfileAlias ResolveModelAlias Select svc env cr ambient admission idx windows reasoning runtime engine strict
  warnings telemetry clock reply tunnelReply admitted slept granted ctxAtEnd visit traceID r apiKey).
#[local] Abbreviation authorize := (authorize encodeError svc env runtime engine strict warnings telemetry clock visit r).
#[local] Abbreviation tunnel := (tunnel encodeError badURL env clock tunnelReply).

(** No status yet, and one status. *)
Definition silent (w : world) : Prop := rw_statuses (w_writer w) = [].
Definition replied (w : world) : Prop := exists s, rw_statuses (w_writer w) = [s].

Lemma jsonError_replies status message : leads silent (onWriter (writeJSONError encodeError status message)) (fun _ => replied).
Proof. intros w Hw. exists status. unfold onWriter. cbn [fst w_writer]. by rewrite writeJSONError_status, Hw. Qed.

Lemma plainError_replies message status : leads silent (onWriter (plainError message status)) (fun _ => replied).
Proof. intros w Hw. exists status. unfold onWriter. cbn. by rewrite Hw. Qed.

Lemma silent_keeps {A} (m : prog A) : keeps w_writer m -> leads silent m (fun _ => silent).
Proof. apply (leads_keeps w_writer (fun rw => rw_statuses rw = [])). Qed.

Lemma authorize_replies facts bodyLen requested :
  leads silent (authorize facts bodyLen requested) (fun d w => match d with Some _ => silent w | None => replied w end).
Proof.
  intros w Hw. pose proof (authorize_outcome encodeError visit svc env runtime engine strict warnings clock telemetry (rq_facts r) facts bodyLen requested w) as H.
  unfold Route.authorize. destruct (authorizeOperationalRoute _ _ _ _ _ _ _ _ _ _ _ _ _ _ w) as [w' [d|]]; simpl; destruct H as [_ H].
  - destruct H as [H _]. unfold silent. by rewrite H.
  - destruct H as (s & _ & H). exists s. by rewrite H, Hw.
Qed.

Lemma tunnel_replies url body : leads silent (tunnel url body apiKey) (fun _ => replied).
Proof.
  unfold Route.tunnel. destruct (newUpstreamRequest _ _ _ _ _) as [err|req]; [apply jsonError_replies|].
  destruct (tunnelReply req) as [err ctx|resp]; [apply jsonError_replies|].
  apply (leads_bind _ _ (fun _ => replied)).
  - intros w Hw. exists (rs_status resp). unfold onWriter. cbn. by rewrite Hw.
  - intros ?. apply (leads_bind _ _ (fun _ => replied)).
    + apply (leads_keeps w_writer (fun rw => exists s, rw_statuses rw = [s])). frame.
    + intros t. cbv zeta. destruct (streamCopy _ _ _ _ _) as [st o]. intros w [s Hs]. exists s. unfold onWriter. cbn. by rewrite Hs.
Qed.

Lemma rejectUnknownProfile_replies name :
  leads silent (rejectUnknownProfile ResolveProfileAlias svc env encodeError quote name) (fun b w => if b : bool then replied w else silent w).
Proof.
  unfold rejectUnknownProfile. apply leads_if; [by apply leads_ret|]. eapply leads_bind; [apply silent_keeps; frame|intros ?].
  apply leads_if; [by apply leads_ret|]. eapply leads_bind; [apply jsonError_replies|intros ?]. by apply leads_ret.
Qed.

Context (Hbudget : quotaHoldBudget env <= max_int64 - quotaHoldSettle).

Lemma chain_replies provider body bodyLen opPath guardBody h :
  leads silent (routeChain fingerprint ParseTime ParseDuration decodeError decodeRelayed encodeView encodeError quote badURL transformResponse decode encode jsonValid
    convFloat convInt mac ResolveProfileAlias ResolveModelAlias Select svc env cr ambient admission idx windows reasoning runtime engine strict warnings telemetry
    clock reply slept granted ctxAtEnd visit traceID r apiKey provider body bodyLen opPath guardBody h) (fun _ => replied).
Proof using Hbudget.
  unfold routeChain. cbv zeta. eapply leads_bind; [apply rejectUnknownProfile_replies|]. intros [|]; [by apply leads_ret|].
  destruct (resolveModelAlias _ _ _ _) as [category requestedModel]. eapply leads_bind; [apply authorize_replies|].
  intros [decision|]; [|by apply leads_ret]. unfold dispatchBody. destruct (safeCompress jsonValid env (guardBody body)) as [compressed stat].
  intros w Hw. match goal with |- replied (?m w).1 => assert (H : leads (fun w => unsent (client w)) m (fun _ w => answered (client w))) end.
  { by apply dispatchChain_answers. }
  destruct (H w Hw) as (s & Hs & _). by exists s.
Qed.

(** C4: every request to the proxy gets exactly one answer.  Whatever is sent
    (a body that is too large, not JSON, null, or names nothing that exists),
    whatever the policy, the upstreams, the clock and the schedule do, the
    handler commits exactly one status, and leaves no admission slot held. *)
Theorem request_answered_once provider w :
  silent w -> let '(w', h) := route provider w in replied w' /\ h_held h = false.
Proof using Hbudget.
  intros Hw. unfold RouteRequestWithProvider.
  assert (Hh : forall ok h, reacquireHold admission admitted zeroHold = (h, ok) -> ok = false -> h_held h = false).
  { intros ok h. unfold reacquireHold. simpl. repeat case_match; intros; by simplify_eq. }
  destruct (reacquireHold admission admitted zeroHold) as [h ok] eqn:E. destruct ok; cbn [negb].
  2:{ match goal with |- let '(_, _) := ?m w in _ => assert (H : leads silent m (fun h' w' => replied w' /\ h_held h' = false)) end.
      { eapply leads_bind; [apply silent_keeps; frame|intros ?]. apply (leads_bind _ _ (fun _ => silent)); [by intros w0 Hw0|intros ?].
        eapply leads_bind; [apply jsonError_replies|intros ?]. apply leads_ret. intros w0 H0. split; [done|]. by eapply Hh. }
      specialize (H w Hw). match goal with |- let '(_, _) := ?x in _ => destruct x end. exact H. }
  match goal with |- let '(_, _) := ?m w in _ => assert (H : leads silent m (fun h' w' => replied w' /\ h_held h' = false)) end.
  { apply (leads_bind _ _ (fun _ => replied)).
    - unfold routeAdmitted. destruct (readBody env r) as [body|]; [|eapply leads_bind; [apply plainError_replies|intros ?; by apply leads_ret]].
      apply leads_if; [|apply leads_if].
      + apply (leads_bind _ _ (fun _ => replied)); [|intros ?; by apply leads_ret]. unfold routeEmbeddings. apply leads_if.
        * eapply leads_bind; [apply silent_keeps; frame|intros ?]. apply jsonError_replies.
        * eapply leads_bind; [apply authorize_replies|]. intros [d|]; [apply tunnel_replies|by apply leads_ret].
      + unfold routeMessages. destruct (decode body) as [msgBody|]; [apply chain_replies|].
        eapply leads_bind; [apply authorize_replies|]. intros [d|]; [|by apply leads_ret]. eapply leads_bind; [apply tunnel_replies|intros ?; by apply leads_ret].
      + unfold routeChat. destruct (decode body) as [reqBody|]; [apply chain_replies|].
        eapply leads_bind; [apply plainError_replies|intros ?; by apply leads_ret].
    - intros h0. apply leads_ret. intros w0 H0. split; [done|]. unfold hold_release. destruct (h_held h0) eqn:E0; [done|]. exact E0. }
  specialize (H w Hw). match goal with |- let '(_, _) := ?x in _ => destruct x end. exact H.
Qed.
End answers.

(** ** Witness *)

Definition wit_httpRequest : httpRequest :=
  mkHttpRequest "/v1/chat/completions" (fun _ => "") (fun _ => "") (Some "{}") (mkHttpFacts "req-1" "" "" "" "").

Definition wit_chatBody : option object :=
  Some (<["tools" := JArr [JNull]]> {["messages" := JArr [JObj (<["role" := JStr "user"]> {["content" := JStr "fix this bug"]})]]}).

(** Nothing supports tools, so the client is told; without tools it is served. *)
Definition wit_route (body : option object) (admitted : bool) : world * admissionHold :=
  RouteRequestWithProvider (fun c => c) (fun _ => None) (fun _ => None) (fun _ => None) (fun _ => None) (fun _ => "") (fun m => m) (fun m => m) (fun _ => None) (fun b => b)
    (fun _ => Some body) (fun _ => "{}") (fun _ => false) (fun _ => 0) (fun _ => 0) (fun m => m) (fun _ => None) (fun c m => (c, m)) wit_Select
    wit_svc ∅ wit_credentials true wit_admission (newCapabilityIndex ∅) ∅ ∅ wit_rules (Some (loadPolicyFlow wit_rules)) false 0 wit_telemetry
    wit_clock (fun _ _ => wit_good) (fun _ => wit_good) admitted (fun _ => true) (fun _ => true) CtxLive (fun m => snd <$> map_to_list m) "id"
    wit_httpRequest "key" "" wit_world.

Lemma wit_fresh : silent wit_world.
Proof. reflexivity. Qed.

Lemma request_answered_once_witness :
  rw_statuses (w_writer (wit_route None true).1) = [200] /\ rw_statuses (w_writer (wit_route wit_chatBody true).1) = [503] /\
  rw_statuses (w_writer (wit_route None false).1) = [503] /\
  (let '(w', h) := wit_route wit_chatBody true in replied w' /\ h_held h = false).
Proof.
  split; [vm_compute; reflexivity|]. split; [vm_compute; reflexivity|]. split; [vm_compute; reflexivity|]. unfold wit_route.
  apply request_answered_once; [exact wit_budget|exact wit_fresh].
Defined.
