(* ===== verification/Files.v ===== *)
(** * Files: replacing a file so that a crash cannot tear it
    (router_scoring_store.go, secretstore/vault.go, atomic_replace_other.go)

    Both stores write a temporary file beside the real one, sync it and rename
    it into place.  The disk is modelled below the page cache: a directory
    maps names to inodes, an inode may hold data that was not yet synced, and
    the directory states since it was last synced are remembered.  After a
    crash any of those directories may be the one that is found, an inode that
    was not synced holds anything, and a directory that was made and whose own
    entry nobody synced may be gone.  Which system calls fail is the argument
    [ok]; every disk between two calls is kept in a log, so that a crash can be
    considered at each of them. *)

From S2P Require Import Prelude.
From Stdlib Require Import Lia ZArith String.
#[local] Open Scope string_scope.

Inductive call := Marshal | MkdirAll | CreateTemp | Chmod | WriteData | Sync | Close | Replace | SyncDir | Remove | Aside | Rollback.

Section files.
Context {A : Type}.

(** [in_data] is [None] when the write was cut short. *)
Record inode := mkInode {
  in_data : option A;
  in_synced : bool;
}.

(** The directory itself: not there, made but perhaps not there after a crash,
    or there for good. *)
Inductive dirEntry := Missing | Made | Durable.

Record disk := mkDisk {
  d_inodes : gmap nat inode;
  d_dir : gmap string nat;
  d_older : list (gmap string nat);
  d_entry : dirEntry;
}.

Definition directories (d : disk) : list (gmap string nat) := d_dir d :: d_older d.

(** What a running process reads. *)
Definition readDisk (d : disk) (path : string) : option (option A) :=
  i ← d_dir d !! path; in_data <$> d_inodes d !! i.

(** What may be found under a directory after a crash. *)
Definition foundAt (d : disk) (dir : gmap string nat) (path : string) (found : option (option A)) : Prop :=
  match dir !! path with
  | None => found = None
  | Some i => exists nd, d_inodes d !! i = Some nd /\ exists data, found = Some data /\ (in_synced nd = true -> data = in_data nd)
  end.

Definition afterCrash (d : disk) (path : string) (found : option (option A)) : Prop :=
  (exists dir, dir ∈ directories d /\ foundAt d dir path found) \/ (d_entry d <> Durable /\ found = None).

(** ** System calls *)

Definition setInode (i : nat) (nd : inode) (d : disk) : disk := mkDisk (<[i := nd]> (d_inodes d)) (d_dir d) (d_older d) (d_entry d).
Definition setDir (dir : gmap string nat) (d : disk) : disk := mkDisk (d_inodes d) dir (directories d) (d_entry d).

Definition freshInode (d : disk) : nat := fresh (dom (d_inodes d)).

Definition createFile (name : string) (d : disk) : disk :=
  let i := freshInode d in setDir (<[name := i]> (d_dir d)) (setInode i (mkInode None false) d).

Definition syncFile (i : nat) (d : disk) : disk :=
  match d_inodes d !! i with Some nd => setInode i (mkInode (in_data nd) true) d | None => d end.

Definition renameFile (src dst : string) (d : disk) : disk :=
  match d_dir d !! src with Some i => setDir (<[dst := i]> (delete src (d_dir d))) d | None => d end.

Definition removeFile (name : string) (d : disk) : disk := setDir (delete name (d_dir d)) d.

(** Its files are there for good; its own entry is in the directory above. *)
Definition syncDirectory (d : disk) : disk := mkDisk (d_inodes d) (d_dir d) [] (d_entry d).

(** [os.MkdirAll] *)
Definition makeDirectory (d : disk) : disk :=
  mkDisk (d_inodes d) (d_dir d) (d_older d) (match d_entry d with Missing => Made | e => e end).

(** ** Programs: the disk, and the disks before it *)

Definition io (X : Type) : Type := disk * list disk -> X * (disk * list disk).

Definition io_ret {X} (x : X) : io X := fun s => (x, s).
Definition io_bind {X Y} (m : io X) (k : X -> io Y) : io Y := fun s => let '(x, s) := m s in k x s.

Context (ok : call -> bool).

(** A system call that does [good], or fails and does [bad]. *)
Definition sys (c : call) (good bad : disk -> disk) : io bool :=
  fun '(d, log) => let d' := if ok c then good d else bad d in (ok c, (d', d :: log)).

Definition keepDisk (d : disk) : disk := d.

Definition current {X} (f : disk -> X) : io X := fun s => (f s.1, s).

Context (path tmp : string) (data : A).

(** The data in the temporary file: all of it, or cut short. *)
Definition writeCall (i : nat) : io bool :=
  sys WriteData (setInode i (mkInode (Some data) false)) (setInode i (mkInode None false)).

(** [atomicReplaceFile] is one rename. *)
Definition atomicReplaceFile : io bool := sys Replace (renameFile tmp path) keepDisk.
Definition syncParentDir : io bool := sys SyncDir syncDirectory keepDisk.
Definition removeTemp : io bool := sys Remove (removeFile tmp) keepDisk.
Definition closeCall : io bool := sys Close keepDisk keepDisk.
End files.

Arguments inode : clear implicits.
Arguments disk : clear implicits.
Arguments io : clear implicits.

Declare Scope io_scope.
Delimit Scope io_scope with io.
Notation "x <- m ;; k" := (io_bind m (fun x => k)) (at level 100, m at next level, right associativity) : io_scope.
Notation "m ;; k" := (io_bind m (fun _ => k)) (at level 100, right associativity) : io_scope.
#[local] Open Scope io_scope.

Section writers.
Context {A : Type} (ok : call -> bool) (path tmp : string) (data : A).

(** [writeScoreFile]: [true] is a nil error. *)
Definition writeScoreFile : io A bool :=
  b <- sys ok MkdirAll makeDirectory keepDisk ;;
  if negb b then io_ret false else
  b <- sys ok Marshal keepDisk keepDisk ;;
  if negb b then io_ret false else
  i <- current freshInode ;;
  b <- sys ok CreateTemp (createFile tmp) keepDisk ;;
  if negb b then io_ret false else
  sys ok Chmod keepDisk keepDisk ;;
  b <- writeCall ok data i ;;
  if negb b then (closeCall ok ;; removeTemp ok tmp ;; io_ret false) else
  b <- sys ok Sync (syncFile i) keepDisk ;;
  if negb b then (closeCall ok ;; removeTemp ok tmp ;; io_ret false) else
  b <- closeCall ok ;;
  if negb b then (removeTemp ok tmp ;; io_ret false) else
  b <- atomicReplaceFile ok path tmp ;;
  if negb b then (removeTemp ok tmp ;; io_ret false) else
  io_ret true.

(** The deferred clean-up of [Vault.writeFile]. *)
Definition discard : io A bool := closeCall ok ;; removeTemp ok tmp ;; io_ret false.

(** [Vault.writeFile], with the [syncParentDir] of the system. *)
Definition writeFileWith (syncDir : io A bool) : io A bool :=
  b <- sys ok Marshal keepDisk keepDisk ;;
  if negb b then io_ret false else
  b <- sys ok MkdirAll makeDirectory keepDisk ;;
  if negb b then io_ret false else
  i <- current freshInode ;;
  b <- sys ok CreateTemp (createFile tmp) keepDisk ;;
  if negb b then io_ret false else
  b <- sys ok Chmod keepDisk keepDisk ;;
  if negb b then discard else
  b <- writeCall ok data i ;;
  if negb b then discard else
  b <- sys ok Sync (syncFile i) keepDisk ;;
  if negb b then discard else
  b <- closeCall ok ;;
  if negb b then discard else
  b <- atomicReplaceFile ok path tmp ;;
  if negb b then discard else
  b <- syncDir ;;
  if negb b then discard else
  io_ret true.

Definition writeFile : io A bool := writeFileWith (syncParentDir ok).

(** On Windows [syncParentDir] does nothing. *)
Definition writeFileWindows : io A bool := writeFileWith (io_ret true).

(** [storeAPIKey] of cmd/keystore.go: the target is removed before the rename,
    and nothing is synced. *)
Definition storeAPIKey : io A bool :=
  b <- sys ok MkdirAll makeDirectory keepDisk ;;
  if negb b then io_ret false else
  i <- current freshInode ;;
  b <- sys ok CreateTemp (createFile tmp) keepDisk ;;
  if negb b then io_ret false else
  sys ok Chmod keepDisk keepDisk ;;
  b <- writeCall ok data i ;;
  if negb b then (closeCall ok ;; removeTemp ok tmp ;; io_ret false) else
  b <- closeCall ok ;;
  if negb b then (removeTemp ok tmp ;; io_ret false) else
  sys ok Remove (removeFile path) keepDisk ;;
  b <- atomicReplaceFile ok path tmp ;;
  if negb b then (removeTemp ok tmp ;; io_ret false) else
  io_ret true.
End writers.

(** ** Runs of which every disk is safe *)

Section triples.
Context {A : Type} {ok : call -> bool} {S : disk A -> Prop}.

Definition triple {X} (P : disk A -> Prop) (m : io A X) (Q : X -> disk A -> Prop) : Prop :=
  forall d log, P d -> Forall S log ->
    let '(x, (d', log')) := m (d, log) in Q x d' /\ Forall S log'.

Lemma triple_ret {X} (x : X) (Q : X -> disk A -> Prop) : triple (Q x) (io_ret x) Q.
Proof. by intros d log. Qed.

Lemma triple_bind {X Y} P (m : io A X) Q (k : X -> io A Y) R :
  triple P m Q -> (forall x, triple (Q x) (k x) R) -> triple P (io_bind m k) R.
Proof.
  intros Hm Hk d log HP Hl. unfold io_bind. specialize (Hm d log HP Hl). destruct (m (d, log)) as [x [d' log']].
  destruct Hm as [HQ Hl']. by apply Hk.
Qed.

Lemma triple_current {X} P (f : disk A -> X) : triple P (current f) (fun x d => P d /\ x = f d).
Proof. by intros d log. Qed.

Lemma triple_sys c good bad (P : disk A -> Prop) (Q : bool -> disk A -> Prop) :
  (forall d, P d -> S d) -> (forall d, P d -> ok c = true -> Q true (good d)) -> (forall d, P d -> ok c = false -> Q false (bad d)) ->
  triple P (sys ok c good bad) Q.
Proof. intros Hs Hg Hb d log HP Hl. unfold sys. split; [|constructor; auto]. destruct (ok c) eqn:E; auto. Qed.

Lemma triple_pre {X} (P P' : disk A -> Prop) (m : io A X) Q : (forall d, P d -> P' d) -> triple P' m Q -> triple P m Q.
Proof. intros HP Hm d log Hd. apply Hm; auto. Qed.

(** A checked call: go on, or take the error path. *)
Lemma triple_check {X} c good bad P (Q1 Q2 : disk A -> Prop) (fail rest : io A X) R :
  (forall d, P d -> S d) -> (forall d, P d -> ok c = true -> Q1 (good d)) -> (forall d, P d -> ok c = false -> Q2 (bad d)) ->
  triple Q2 fail R -> triple Q1 rest R ->
  triple P (b <- sys ok c good bad ;; if negb b then fail else rest) R.
Proof.
  intros Hs Hg Hb Hf Hr. eapply (triple_bind _ _ (fun (b : bool) d => if b then Q1 d else Q2 d)); [by apply triple_sys|]. by intros [].
Qed.

Lemma triple_post {X} P (m : io A X) (Q R : X -> disk A -> Prop) : triple P m Q -> (forall x d, Q x d -> R x d) -> triple P m R.
Proof. intros Hm HQ d log HP Hl. specialize (Hm d log HP Hl). destruct (m (d, log)) as [x [d' log']]. destruct Hm. auto. Qed.
End triples.
Arguments triple {A} S {X}.

(** ** What a crash may find *)

(** What a directory names for the path is one of [V], and synced. *)
Definition names {A} (path : string) (V : option (option A) -> Prop) (d : disk A) (dir : gmap string nat) : Prop :=
  match dir !! path with
  | None => V None
  | Some i => exists c, d_inodes d !! i = Some (mkInode c true) /\ V (Some c)
  end.

(** Whatever directory a crash finds, the path is one of [V]. *)
Definition within {A} (path : string) (V : option (option A) -> Prop) (d : disk A) : Prop :=
  (forall dir, dir ∈ directories d -> names path V d dir) /\ (d_entry d = Durable \/ V None).

(** Every file that a crash may find under the path is one that was synced. *)
Definition synced {A} (path : string) (d : disk A) : Prop := within path (fun _ => True) d.

(** There is but one thing that a crash may find under the path. *)
Definition settled {A} (path : string) (content : option (option A)) (d : disk A) : Prop := within path (eq content) d.

Section within.
Context {A : Type} (path : string).
Implicit Types (d : disk A) (V : option (option A) -> Prop).

Lemma within_found V d found : within path V d -> afterCrash d path found -> V found.
Proof.
  intros [Hd He] [(dir & Hdir & Hf)|[Hn ->]]; [|by destruct He]. specialize (Hd dir Hdir). unfold names in Hd. unfold foundAt in Hf.
  destruct (dir !! path) as [i|]; [|by subst]. destruct Hd as (c & Hc & HV), Hf as (nd & Hnd & x & -> & Hx). rewrite Hc in Hnd. simplify_eq.
  by rewrite Hx.
Qed.

Lemma within_reads V d : within path V d -> V (readDisk d path).
Proof.
  intros [Hd _]. specialize (Hd (d_dir d) ltac:(left)). unfold names in Hd. unfold readDisk.
  destruct (d_dir d !! path) as [i|]; [|done]. destruct Hd as (c & Hc & HV). simpl. by rewrite Hc.
Qed.

Lemma names_mono V V' d dir : (forall f, V f -> V' f) -> names path V d dir -> names path V' d dir.
Proof. unfold names. destruct (dir !! path); [|by auto]. intros HV (c & Hc & H). eauto. Qed.

Lemma within_mono V V' d : (forall f, V f -> V' f) -> within path V d -> within path V' d.
Proof. intros HV [Hd He]. split; [intros dir Hdir; eapply names_mono; eauto|]. destruct He; auto. Qed.

Lemma synced_within d : synced path d -> within path (afterCrash d path) d.
Proof.
  intros [Hd _]. split; [|destruct (d_entry d) eqn:E; [right; right; by rewrite E..|by left]].
  intros dir Hdir. specialize (Hd dir Hdir). unfold names in *. destruct (dir !! path) as [i|] eqn:Ep.
  - destruct Hd as (c & Hc & _). exists c. split; [done|]. left. exists dir. split; [done|]. unfold foundAt. rewrite Ep. by exists (mkInode c true); eauto.
  - left. exists dir. split; [done|]. unfold foundAt. by rewrite Ep.
Qed.

Lemma within_synced V d : within path V d -> synced path d.
Proof. by apply within_mono. Qed.

(** The two disks do not differ in what concerns the path. *)
Definition alike d d' : Prop :=
  (forall dir', dir' ∈ directories d' -> exists dir, dir ∈ directories d /\ dir' !! path = dir !! path) /\
  d_dir d' !! path = d_dir d !! path /\
  (forall dir i, dir ∈ directories d -> dir !! path = Some i -> d_inodes d' !! i = d_inodes d !! i) /\
  (d_entry d' = Durable <-> d_entry d = Durable).

Lemma within_alike V d d' : alike d d' -> within path V d -> within path V d'.
Proof.
  intros (Hdirs & _ & Hi & He) [Hd Hv]. split; [|rewrite He; tauto]. intros dir' (dir & Hdir & Hp)%Hdirs. specialize (Hd dir Hdir).
  unfold names in *. rewrite Hp. destruct (dir !! path) as [i|] eqn:Ei; [|done]. by rewrite (Hi dir i).
Qed.

Lemma reads_alike d d' : alike d d' -> readDisk d' path = readDisk d path.
Proof.
  intros (_ & Hp & Hi & _). unfold readDisk. rewrite Hp. destruct (d_dir d !! path) as [i|] eqn:E; [|done]. simpl. by rewrite (Hi (d_dir d) i ltac:(left) E).
Qed.

Lemma alike_setDir d dir : dir !! path = d_dir d !! path -> alike d (setDir dir d).
Proof.
  intros Hp. split_and!; [|done|done|done]. intros dir' [->|Hin]%elem_of_cons; [exists (d_dir d); split; [left|done]|by exists dir'].
Qed.

Lemma alike_setInode d i nd : (forall dir, dir ∈ directories d -> dir !! path <> Some i) -> alike d (setInode i nd d).
Proof.
  intros Hi. split_and!; [|done| |done]; [intros dir' Hin; by exists dir'|].
  intros dir j Hdir Hj. apply lookup_insert_ne. intros ->. by apply (Hi dir).
Qed.

Lemma alike_makeDirectory d : alike d (makeDirectory d).
Proof. split_and!; [intros dir' Hin; by exists dir'|done|done|]. simpl. by destruct (d_entry d). Qed.
End within.

(** ** The effect of each call *)

(** What was there before a write, or its data. *)
Definition orNew {A} (V : option (option A) -> Prop) (data : A) (found : option (option A)) : Prop := V found \/ found = Some (Some data).

Section crash.
Context {A : Type} (ok : call -> bool) (path tmp : string) (data : A).
(** What a crash may find and a process reads before the write, and whether
    the directory is there for good. *)
Context (V : option (option A) -> Prop) (content : option (option A)) (entry : dirEntry).
#[local] Abbreviation orNew := (orNew V data).

(** What is asked of every disk between two calls follows from a crash finding
    nothing torn. *)
Context (safe : disk A -> Prop) (within_safe : forall d, within path orNew d -> safe d).

Definition lasts (d : disk A) : Prop := d_entry d = Durable <-> entry = Durable.

Definition untouched (d : disk A) : Prop := within path V d /\ readDisk d path = content /\ lasts d.

(** A temporary file of its own is open, with this content. *)
Definition tempOpen (i : nat) (P : inode A -> Prop) (d : disk A) : Prop :=
  untouched d /\ (forall dir, dir ∈ directories d -> dir !! path <> Some i) /\ tmp <> path /\ d_dir d !! tmp = Some i /\
  exists nd, d_inodes d !! i = Some nd /\ P nd.

Definition replaced (d : disk A) : Prop :=
  within path orNew d /\ lasts d /\ tmp <> path /\ exists i, d_dir d !! path = Some i /\ d_inodes d !! i = Some (mkInode (Some data) true).

Lemma untouched_safe d : untouched d -> safe d.
Proof. intros [H _]. apply within_safe. eapply within_mono; [|done]. by left. Qed.

Lemma tempOpen_safe i P d : tempOpen i P d -> safe d.
Proof. intros [H _]. by apply untouched_safe. Qed.

Lemma replaced_safe d : replaced d -> safe d.
Proof. intros [H _]. by apply within_safe. Qed.

Lemma replaced_reads d : replaced d -> readDisk d path = Some (Some data).
Proof. intros (_ & _ & _ & i & Hp & Hi). unfold readDisk. rewrite Hp. simpl. by rewrite Hi. Qed.

Lemma untouched_alike d d' : alike path d d' -> untouched d -> untouched d'.
Proof.
  intros Ha (Hw & Hr & Hl). split_and!; [by eapply within_alike|by rewrite (reads_alike _ _ _ Ha)|].
  destruct Ha as (_ & _ & _ & He). unfold lasts in *. by rewrite He.
Qed.

Lemma untouched_makeDirectory d : untouched d -> untouched (makeDirectory d).
Proof. apply untouched_alike, alike_makeDirectory. Qed.

(** No directory names an inode that is not there. *)
Lemma untouched_fresh d dir : untouched d -> dir ∈ directories d -> dir !! path <> Some (freshInode d).
Proof.
  intros [[Hd _] _] Hdir Hi. specialize (Hd dir Hdir). unfold names in Hd. rewrite Hi in Hd. destruct Hd as (c & Hc & _).
  assert (Hfresh : d_inodes d !! freshInode d = None) by (apply not_elem_of_dom, is_fresh). congruence.
Qed.

Lemma createFile_temp d : untouched d -> tmp <> path -> tempOpen (freshInode d) (fun _ => True) (createFile tmp d).
Proof.
  intros Hu Hne. assert (Hf : forall dir, dir ∈ directories d -> dir !! path <> Some (freshInode d)) by (intros; by apply untouched_fresh).
  split_and!; [|intros dir [->|Hin]%elem_of_cons|done|by apply lookup_insert_eq|eexists; split; [apply lookup_insert_eq|done]].
  - eapply untouched_alike, (untouched_alike d); [|by apply alike_setInode|done]. apply alike_setDir. by apply lookup_insert_ne.
  - cbn. rewrite lookup_insert_ne by done. apply Hf. left.
  - by apply Hf.
Qed.

Lemma tempOpen_write i P nd d (Q : inode A -> Prop) : tempOpen i P d -> Q nd -> tempOpen i Q (setInode i nd d).
Proof.
  intros (Hu & Hd & Ht & Hdir & _) HQ. split_and!; [|done|done|done|exists nd; split; [apply lookup_insert_eq|done]].
  eapply untouched_alike; [by apply alike_setInode|done].
Qed.

Lemma tempOpen_sync i d : tempOpen i (fun nd => in_data nd = Some data) d ->
  tempOpen i (fun nd => nd = mkInode (Some data) true) (syncFile i d).
Proof.
  intros H. unfold syncFile. pose proof H as (_ & _ & _ & _ & nd & Hnd & Hdata). rewrite Hnd. eapply tempOpen_write; [done|].
  by rewrite Hdata.
Qed.

Lemma tempOpen_remove i P d : tempOpen i P d -> untouched (removeFile tmp d).
Proof. intros (Hu & _ & Ht & _). eapply untouched_alike; [|done]. apply alike_setDir. by apply lookup_delete_ne. Qed.

Lemma tempOpen_rename i d : tempOpen i (fun nd => nd = mkInode (Some data) true) d -> replaced (renameFile tmp path d).
Proof.
  intros ([[Hd He] [_ Hl]] & _ & Ht & Hdir & nd & Hnd & ->). unfold renameFile. rewrite Hdir.
  split_and!; [split|done|done|exists i; split; [apply lookup_insert_eq|done]].
  - intros dir [->|Hin]%elem_of_cons.
    + unfold names. cbn. rewrite lookup_insert_eq. exists (Some data). split; [done|by right].
    + apply (names_mono path V); [by left|]. by apply Hd.
  - destruct He; [by left|right; by left].
Qed.

Lemma replaced_remove d : replaced d -> replaced (removeFile tmp d).
Proof.
  intros (Hw & Hl & Ht & i & Hp & Hi). split_and!; [|done|done|exists i; split; [cbn; by rewrite lookup_delete_ne|done]].
  eapply within_alike; [|done]. apply alike_setDir. by apply lookup_delete_ne.
Qed.

Lemma replaced_syncDir d : replaced d -> replaced (syncDirectory d) /\ d_older (syncDirectory d) = [].
Proof.
  intros ([Hd He] & Hl & Ht & Hi). split; [|done]. split_and!; [split; [|done]|done|done|done].
  intros dir [->|Hin]%elem_of_cons; [apply Hd; left|by apply elem_of_nil in Hin].
Qed.

(** ** The writers *)

(** Removing the temporary file, with or without success. *)
Lemma removeTemp_triple i P : triple safe (tempOpen i P) (removeTemp ok tmp ;; io_ret false) (fun x d => x = false /\ untouched d).
Proof.
  eapply (triple_bind _ _ (fun _ => untouched)); [|intros b; by intros d log ? ?].
  apply triple_sys; [by apply tempOpen_safe|intros; by eapply tempOpen_remove|by intros d [? _]].
Qed.

Lemma discardTemp_triple i P : triple safe (tempOpen i P) (discard ok tmp) (fun x d => x = false /\ untouched d).
Proof.
  eapply (triple_bind _ _ (fun _ => tempOpen i P)); [|intros _; apply removeTemp_triple].
  apply triple_sys; [by apply tempOpen_safe|done|done].
Qed.

Lemma discardReplaced_triple : triple safe replaced (discard ok tmp) (fun x d => x = false /\ replaced d).
Proof.
  eapply (triple_bind _ _ (fun _ => replaced)); [apply triple_sys; [apply replaced_safe|done|done]|intros _].
  eapply (triple_bind _ _ (fun _ => replaced)); [apply triple_sys; [apply replaced_safe|intros; by apply replaced_remove|done]|].
  intros _. by intros d log ? ?.
Qed.

(** What a writer leaves: the new file, or the old one; the vault's also the
    new one in spite of an error [F], and after a success [R] as well. *)
Definition written (R : disk A -> Prop) (F : Prop) (x : bool) (d : disk A) : Prop :=
  if x then replaced d /\ R d else untouched d \/ (F /\ replaced d).

Abbreviation scoreWritten := (written (fun _ => True) False).

Section fails.
Context (R : disk A -> Prop) (F : Prop).

Lemma untouched_fail : triple safe untouched (io_ret false) (written R F).
Proof. intros d log ? ?. by split; [left|]. Qed.

Lemma temp_fail i P : triple safe (tempOpen i P) (removeTemp ok tmp ;; io_ret false) (written R F).
Proof. eapply triple_post; [apply removeTemp_triple|]. intros x d [-> ?]. by left. Qed.

Lemma temp_discard_fail i P : triple safe (tempOpen i P) (discard ok tmp) (written R F).
Proof. eapply triple_post; [apply discardTemp_triple|]. intros x d [-> ?]. by left. Qed.
End fails.

Lemma writeScoreFile_triple : tmp <> path -> triple safe untouched (writeScoreFile ok path tmp data) scoreWritten.
Proof.
  intros Hne. apply (triple_check _ _ _ _ untouched untouched); [apply untouched_safe|intros; by apply untouched_makeDirectory|done|apply untouched_fail|].
  apply (triple_check _ _ _ _ untouched untouched); [apply untouched_safe|done|done|apply untouched_fail|].
  eapply triple_bind; [apply triple_current|]. intros i.
  apply (triple_check _ _ _ _ (tempOpen i (fun _ => True)) untouched);
    [intros d [? _]; by apply untouched_safe|intros d [? ->] _; by apply createFile_temp|by intros d [? _]|apply untouched_fail|].
  eapply (triple_bind _ _ (fun _ => tempOpen i (fun _ => True))); [apply triple_sys; [apply tempOpen_safe|done|done]|intros _].
  apply (triple_check _ _ _ _ (tempOpen i (fun nd => in_data nd = Some data)) (tempOpen i (fun _ => True)));
    [apply tempOpen_safe|intros; by eapply tempOpen_write|intros; by eapply tempOpen_write|apply temp_discard_fail|].
  apply (triple_check _ _ _ _ (tempOpen i (fun nd => nd = mkInode (Some data) true)) (tempOpen i (fun nd => in_data nd = Some data)));
    [apply tempOpen_safe|intros; by apply tempOpen_sync|done|apply temp_discard_fail|].
  apply (triple_check _ _ _ _ (tempOpen i (fun nd => nd = mkInode (Some data) true)) (tempOpen i (fun nd => nd = mkInode (Some data) true)));
    [apply tempOpen_safe|done|done|apply temp_fail|].
  apply (triple_check _ _ _ _ replaced (tempOpen i (fun nd => nd = mkInode (Some data) true)));
    [apply tempOpen_safe|intros; by eapply tempOpen_rename|done|apply temp_fail|].
  eapply triple_pre, (triple_ret true). by split.
Qed.

(** The vault's writer, over what syncing the directory does. *)
Lemma writeFileWith_triple syncDir (R : disk A -> Prop) (F : Prop) :
  triple safe replaced syncDir (fun (b : bool) d => replaced d /\ if b then R d else F) ->
  tmp <> path -> triple safe untouched (writeFileWith ok path tmp data syncDir) (written R F).
Proof.
  intros Hsync Hne. apply (triple_check _ _ _ _ untouched untouched); [apply untouched_safe|done|done|apply untouched_fail|].
  apply (triple_check _ _ _ _ untouched untouched); [apply untouched_safe|intros; by apply untouched_makeDirectory|done|apply untouched_fail|].
  eapply triple_bind; [apply triple_current|]. intros i.
  apply (triple_check _ _ _ _ (tempOpen i (fun _ => True)) untouched);
    [intros d [? _]; by apply untouched_safe|intros d [? ->] _; by apply createFile_temp|by intros d [? _]|apply untouched_fail|].
  apply (triple_check _ _ _ _ (tempOpen i (fun _ => True)) (tempOpen i (fun _ => True)));
    [apply tempOpen_safe|done|done|apply temp_discard_fail|].
  apply (triple_check _ _ _ _ (tempOpen i (fun nd => in_data nd = Some data)) (tempOpen i (fun _ => True)));
    [apply tempOpen_safe|intros; by eapply tempOpen_write|intros; by eapply tempOpen_write|apply temp_discard_fail|].
  apply (triple_check _ _ _ _ (tempOpen i (fun nd => nd = mkInode (Some data) true)) (tempOpen i (fun nd => in_data nd = Some data)));
    [apply tempOpen_safe|intros; by apply tempOpen_sync|done|apply temp_discard_fail|].
  apply (triple_check _ _ _ _ (tempOpen i (fun nd => nd = mkInode (Some data) true)) (tempOpen i (fun nd => nd = mkInode (Some data) true)));
    [apply tempOpen_safe|done|done|apply temp_discard_fail|].
  apply (triple_check _ _ _ _ replaced (tempOpen i (fun nd => nd = mkInode (Some data) true)));
    [apply tempOpen_safe|intros; by eapply tempOpen_rename|done|apply temp_discard_fail|].
  eapply triple_bind; [exact Hsync|]. intros []; [eapply triple_pre, (triple_ret true); by intros d ?|].
  intros d log [Hr Hf] Hl. pose proof (discardReplaced_triple d log Hr Hl) as H. cbn [negb]. destruct (discard ok tmp (d, log)) as [x [d' log']].
  destruct H as [[-> H] Hl']. split; [right; by split|done].
Qed.

Lemma writeFile_triple : tmp <> path -> triple safe untouched (writeFile ok path tmp data) (written (fun d => d_older d = []) (ok SyncDir = false)).
Proof.
  apply writeFileWith_triple. apply triple_sys; [apply replaced_safe|intros; by apply replaced_syncDir|by split].
Qed.

Lemma writeFileWindows_triple : tmp <> path -> triple safe untouched (writeFileWindows ok path tmp data) (written (fun _ => True) False).
Proof. apply writeFileWith_triple. by intros d log ? ?. Qed.
End crash.

(** ** Histories of writes *)

Inductive writer := ScoreWriter | VaultWriter | VaultWriterWindows.

Record storeWrite {A : Type} := mkWrite {
  sw_by : writer;
  sw_ok : call -> bool;
  sw_tmp : string;
  sw_data : A;
}.
Arguments storeWrite : clear implicits.
Arguments mkWrite {A}.

Section histories.
Context {A : Type} (path : string).

Definition runWrite (w : storeWrite A) : io A bool :=
  match sw_by w with
  | ScoreWriter => writeScoreFile (sw_ok w) path (sw_tmp w) (sw_data w)
  | VaultWriter => writeFile (sw_ok w) path (sw_tmp w) (sw_data w)
  | VaultWriterWindows => writeFileWindows (sw_ok w) path (sw_tmp w) (sw_data w)
  end.

Fixpoint runWrites (ws : list (storeWrite A)) : io A (list bool) :=
  match ws with
  | [] => io_ret []
  | w :: ws => b <- runWrite w ;; bs <- runWrites ws ;; io_ret (b :: bs)
  end.

(** What a success and an error of a writer say. *)
Definition lastingWrite (w : storeWrite A) (d : disk A) : Prop := sw_by w = VaultWriter -> d_older d = [].
Definition reportedAnyway (w : storeWrite A) : Prop := sw_by w = VaultWriter /\ sw_ok w SyncDir = false.

Lemma runWrite_triple w V content entry (S : disk A -> Prop) : sw_tmp w <> path -> (forall d, within path (orNew V (sw_data w)) d -> S d) ->
  triple S (untouched path V content entry) (runWrite w)
    (written path (sw_tmp w) (sw_data w) V content entry (lastingWrite w) (reportedAnyway w)).
Proof.
  intros Hne HS. unfold runWrite, lastingWrite, reportedAnyway. destruct (sw_by w).
  - eapply triple_post; [exact (writeScoreFile_triple (sw_ok w) path (sw_tmp w) (sw_data w) V content entry S HS Hne)|].
    intros [] d; [by intros [? _]|intros [?|[[] _]]; by left].
  - eapply triple_post; [exact (writeFile_triple (sw_ok w) path (sw_tmp w) (sw_data w) V content entry S HS Hne)|].
    intros [] d; [by intros [? ?]|intros [?|[? ?]]; [by left|by right]].
  - eapply triple_post; [exact (writeFileWindows_triple (sw_ok w) path (sw_tmp w) (sw_data w) V content entry S HS Hne)|].
    intros [] d; [by intros [? _]|intros [?|[[] _]]; by left].
Qed.

Lemma written_within (w : storeWrite A) V content entry R F x (d : disk A) :
  written path (sw_tmp w) (sw_data w) V content entry R F x d -> within path (orNew V (sw_data w)) d.
Proof.
  destruct x; [by intros [[? _] _]|]. intros [[H _]|[_ [H _]]]; [|done]. eapply within_mono; [|done]. by left.
Qed.

(** What a crash may find before the writes, or the data of one of them. *)
Definition orWritten (V : option (option A) -> Prop) (ws : list (storeWrite A)) (found : option (option A)) : Prop :=
  V found \/ exists w, w ∈ ws /\ found = Some (Some (sw_data w)).

Lemma runWrites_triple ws : Forall (fun w => sw_tmp w <> path) ws -> forall V (S : disk A -> Prop),
  (forall d, within path (orWritten V ws) d -> S d) -> triple S (within path V) (runWrites ws) (fun _ d => within path (orWritten V ws) d).
Proof.
  induction 1 as [|w ws Hne _ IH]; intros V S HS; cbn [runWrites].
  - intros d log Hd Hl. split; [|done]. eapply within_mono; [|done]. by left.
  - assert (Hstep : forall f, orWritten (orNew V (sw_data w)) ws f -> orWritten V (w :: ws) f).
    { intros f [[?|?]|(w' & ? & ?)]; [by left|right; exists w; by split; [left|]|right; exists w'; by split; [right|]]. }
    eapply (triple_bind _ _ (fun _ => within path (orNew V (sw_data w)))).
    + intros d log Hd. eapply triple_post; [eapply (runWrite_triple w V (readDisk d path) (d_entry d))|intros; by eapply written_within|done].
      * done.
      * intros d' Hd'. apply HS. eapply within_mono; [|exact Hd']. intros f Hf. apply Hstep. by left.
    + intros x. eapply (triple_bind _ _ (fun _ => within path (orWritten (orNew V (sw_data w)) ws))).
      * apply IH. intros d Hd. apply HS. by eapply within_mono.
      * intros xs d log Hd Hl. split; [|done]. by eapply within_mono.
Qed.
End histories.

(** *** One write *)

(** The run is safe throughout. *)
Definition neverTorn {A} (path : string) (data : A) (content : option (option A)) (r : bool * (disk A * list (disk A))) : Prop :=
  forall h found, h ∈ r.2.1 :: r.2.2 -> afterCrash h path found -> found = content \/ found = Some (Some data).

(** What a write of either kind does from a disk on which every version of the
    file is synced. *)
Definition goodWrite {A} (path : string) (w : storeWrite A) (d : disk A) : Prop :=
  let '(x, (d', log)) := runWrite path w (d, []) in
  let new := Some (Some (sw_data w)) in
  synced path d' /\
  (forall h found, h ∈ d' :: log -> afterCrash h path found -> afterCrash d path found \/ found = new) /\
  (if x then readDisk d' path = new else readDisk d' path = readDisk d path \/ (reportedAnyway w /\ readDisk d' path = new)) /\
  (x = true -> sw_by w = VaultWriter -> forall found, afterCrash d' path found -> found = new \/ (found = None /\ d_entry d <> Durable)).

Lemma runWrite_good {A} path (w : storeWrite A) d : synced path d -> sw_tmp w <> path -> goodWrite path w d.
Proof.
  intros Hs%synced_within Hne. unfold goodWrite.
  pose proof (runWrite_triple path w (afterCrash d path) (readDisk d path) (d_entry d) (within path (orNew (afterCrash d path) (sw_data w))) Hne (fun _ H => H)
    d [] (conj Hs (conj eq_refl (iff_refl _))) (Forall_nil_2 _)) as H.
  destruct (runWrite path w (d, [])) as [x [d' log]]. destruct H as [HQ Hl]. pose proof (written_within path w _ _ _ _ _ _ _ HQ) as Hw. split_and!.
  - by eapply within_synced.
  - intros h found Hh Hf. eapply (within_found path (orNew _ _)); [|exact Hf]. apply elem_of_cons in Hh as [->|Hh]; [done|]. by eapply Forall_forall in Hl.
  - destruct x; [destruct HQ as [HQ _]; by eapply replaced_reads|]. destruct HQ as [(_ & HQ & _)|[HF HQ]]; [by left|right; split; [done|by eapply replaced_reads]].
  - intros -> Hby found Hf. destruct HQ as [(_ & Hlast & _ & i & Hp & Hi) Ho]. specialize (Ho Hby). destruct Hf as [(dir & Hdir & Hf)|[Hn ->]]; [left|right].
    + unfold directories in Hdir. rewrite Ho in Hdir. apply list_elem_of_singleton in Hdir as ->. unfold foundAt in Hf. rewrite Hp in Hf.
      destruct Hf as (nd & Hnd & c & -> & Hc). rewrite Hi in Hnd. simplify_eq. by rewrite Hc.
    + split; [done|]. unfold lasts in Hlast. tauto.
Qed.

Lemma settled_synced {A} path content (d : disk A) : settled path content d -> synced path d /\ readDisk d path = content /\
  forall found, afterCrash d path found -> found = content.
Proof.
  intros H. split_and!; [by eapply within_synced|symmetry; by eapply (within_reads path (eq content))|].
  intros found Hf. symmetry. by eapply (within_found path (eq content)).
Qed.

Lemma writeScoreFile_spec {A} ok path tmp (data : A) d :
  synced path d -> tmp <> path ->
  let r := writeScoreFile ok path tmp data (d, []) in
  synced path r.2.1 /\ readDisk r.2.1 path = if r.1 then Some (Some data) else readDisk d path.
Proof.
  intros Hs Hne. pose proof (runWrite_good path (mkWrite ScoreWriter ok tmp data) d Hs Hne) as H. unfold goodWrite in H.
  cbn [runWrite sw_by sw_ok sw_tmp sw_data] in H. cbv zeta. destruct (writeScoreFile ok path tmp data (d, [])) as [x [d' log]]. destruct H as (Hs' & _ & Hx & _).
  split; [done|]. cbn. destruct x; [done|]. by destruct Hx as [Hx|[[? _] _]].
Qed.

Lemma writeFile_spec {A} ok path tmp (data : A) content d :
  settled path content d -> tmp <> path ->
  let r := writeFile ok path tmp data (d, []) in
  neverTorn path data content r /\
  (if r.1 then readDisk r.2.1 path = Some (Some data)
   else readDisk r.2.1 path = content \/ (ok SyncDir = false /\ readDisk r.2.1 path = Some (Some data))).
Proof.
  intros (Hs & Hr & Hf)%settled_synced Hne. pose proof (runWrite_good path (mkWrite VaultWriter ok tmp data) d Hs Hne) as H. unfold goodWrite in H.
  cbn [runWrite sw_by sw_ok sw_tmp sw_data] in H. cbv zeta. destruct (writeFile ok path tmp data (d, [])) as [x [d' log]]. destruct H as (_ & Hc & Hx & _).
  split; [intros h found Hh Hfound; destruct (Hc h found Hh Hfound); auto|]. cbn. destruct x; [done|]. destruct Hx as [Hx|[[_ ?] ?]]; [left; by rewrite Hx|by right].
Qed.

(** C14: a store file is never torn, however often it is written.  Let a disk be
    such that every version of the file a crash could find there was synced (a
    disk without the file is one) and let any writes follow, by the writer of
    the scores or of the vault, whichever of their system calls fail.  At every
    moment of them what a crash finds under the path is what one could have
    found at the start, or the whole data of one of the writes; and the disk
    stays such.  A further write adds to what a crash finds at most its own
    data.  A nil error means its data is what is read then; an error that what
    was read before still is, but for a vault whose directory could not be
    synced after the rename.  After a nil error of the vault's writer a crash
    finds its data and no older file, or nothing when the directory itself may
    be lost; but not on Windows, where that writer does not sync the directory,
    nor for the scores, whose writer never does: there a crash may bring back
    any earlier version. *)
Theorem store_file_never_torn {A} path (ws : list (storeWrite A)) w d :
  synced path d -> Forall (fun w => sw_tmp w <> path) (w :: ws) ->
  let '(_, (d1, log1)) := runWrites path ws (d, []) in
  synced path d1 /\
  (forall h found, h ∈ d1 :: log1 -> afterCrash h path found ->
     afterCrash d path found \/ exists w', w' ∈ ws /\ found = Some (Some (sw_data w'))) /\
  let '(x, (d2, log2)) := runWrite path w (d1, []) in
  let new := Some (Some (sw_data w)) in
  synced path d2 /\
  (forall h found, h ∈ d2 :: log2 -> afterCrash h path found -> afterCrash d1 path found \/ found = new) /\
  (if x then readDisk d2 path = new
   else readDisk d2 path = readDisk d1 path \/ (sw_by w = VaultWriter /\ sw_ok w SyncDir = false /\ readDisk d2 path = new)) /\
  (x = true -> sw_by w = VaultWriter -> forall found, afterCrash d2 path found -> found = new \/ (found = None /\ d_entry d1 <> Durable)).
Proof.
  intros Hs Hne. apply Forall_cons in Hne as [Hw Hws].
  pose proof (runWrites_triple path ws Hws (afterCrash d path) _ (fun _ H => H) d [] (synced_within path d Hs) (Forall_nil_2 _)) as H.
  destruct (runWrites path ws (d, [])) as [xs [d1 log1]]. destruct H as [Hd1 Hlog]. pose proof (within_synced _ _ _ Hd1) as Hs1.
  split; [done|]. split.
  - intros h found Hh Hf. eapply (within_found path (orWritten _ _)); [|exact Hf]. apply elem_of_cons in Hh as [->|Hh]; [done|]. by eapply Forall_forall in Hlog.
  - pose proof (runWrite_good path w d1 Hs1 Hw) as H. unfold goodWrite in H. destruct (runWrite path w (d1, [])) as [x [d2 log2]].
    destruct H as (H1 & H2 & H3 & H4). split_and!; [done|done| |done]. destruct x; [done|]. destruct H3 as [H3|[[? ?] ?]]; [by left|right; by split_and!].
Qed.

(** An old file; a save, and then a write of the vault that is cut short. *)
Definition demoDisk : disk string := mkDisk {[0%nat := mkInode (Some "old") true]} {["scores.json" := 0%nat]} [] Durable.

Definition demoSave : storeWrite string := mkWrite ScoreWriter (fun _ => true) ".scores-1.tmp" "new".
Definition demoTorn : storeWrite string := mkWrite VaultWriter (fun c => match c with WriteData => false | _ => true end) ".vault-1.tmp" "newer".

Lemma store_file_never_torn_witness :
  let r1 := runWrites "scores.json" [demoSave] (demoDisk, []) in
  let r2 := runWrite "scores.json" demoTorn (r1.2.1, []) in
  r1.1 = [true] /\ r2.1 = false /\ List.length r2.2.2 = 7%nat /\ readDisk r2.2.1 "scores.json" = Some (Some "new") /\
  forall found, afterCrash r1.2.1 "scores.json" found -> found = Some (Some "old") \/ found = Some (Some "new").
Proof.
  cbv zeta.
  assert (Hs : settled "scores.json" (Some (Some "old")) demoDisk).
  { split; [|by left]. intros dir [->|Hin]%elem_of_cons; [by eexists|by apply elem_of_nil in Hin]. }
  pose proof (store_file_never_torn "scores.json" [demoSave] demoTorn demoDisk (proj1 (settled_synced _ _ _ Hs)) ltac:(by repeat constructor)) as H.
  assert (E1 : (runWrites "scores.json" [demoSave] (demoDisk, [])).1 = [true]) by (vm_compute; reflexivity).
  assert (E2 : readDisk (runWrites "scores.json" [demoSave] (demoDisk, [])).2.1 "scores.json" = Some (Some "new")) by (vm_compute; reflexivity).
  assert (E3 : (runWrite "scores.json" demoTorn ((runWrites "scores.json" [demoSave] (demoDisk, [])).2.1, [])).1 = false) by (vm_compute; reflexivity).
  assert (E4 : List.length (runWrite "scores.json" demoTorn ((runWrites "scores.json" [demoSave] (demoDisk, [])).2.1, [])).2.2 = 7%nat) by (vm_compute; reflexivity).
  destruct (runWrites "scores.json" [demoSave] (demoDisk, [])) as [xs [d1 log1]]. cbn [fst snd] in *. destruct H as (_ & Hc & H).
  destruct (runWrite "scores.json" demoTorn (d1, [])) as [x [d2 log2]]. cbn [fst snd] in *. subst x. destruct H as (_ & _ & Hr & _).
  split_and!; [done|done|done|destruct Hr as [Hr|(_ & Hr & _)]; [by rewrite Hr, E2|discriminate Hr]|].
  intros found Hf. destruct (Hc d1 found ltac:(left) Hf) as [H0|(w' & Hw' & ->)].
  - left. by apply (settled_synced _ _ _ Hs).
  - apply list_elem_of_singleton in Hw' as ->. by right.
Defined.

(** The writer of the scores does not sync the directory: after two saves that
    reported success a crash can still bring back the file from before the
    first. *)
Example saved_scores_can_go_back :
  let '(xs, (d, _)) := runWrites "scores.json" [demoSave; mkWrite ScoreWriter (fun _ => true) ".scores-2.tmp" "newer"] (demoDisk, []) in
  xs = [true; true] /\ readDisk d "scores.json" = Some (Some "newer") /\ afterCrash d "scores.json" (Some (Some "old")).
Proof.
  match goal with |- let '(_, _) := ?r in _ => let v := eval vm_compute in r in change r with v end.
  split_and!; [done|by vm_compute|]. left. exists {["scores.json" := 0%nat]}. split.
  - unfold directories. cbn [d_dir d_older]. do 4 apply list_elem_of_further. left.
  - unfold foundAt. eexists. split; [by vm_compute|]. by eexists.
Qed.


(** The login key is not replaced atomically.  With every call succeeding
    there is a point where a crash finds no key at all, and after a nil error
    one where it finds a torn one; and a rename that fails leaves neither the
    old key nor the new one. *)
Theorem login_key_can_be_lost :
  let path := "openrouter.key" in
  let d := mkDisk {[0%nat := mkInode (Some "old") true]} {[path := 0%nat]} [] Durable in
  (let '(done_, (d', log)) := storeAPIKey (fun _ => true) path ".openrouter-1.tmp" "new" (d, []) in
   done_ = true /\ Exists (fun h => afterCrash h path None) log /\ afterCrash d' path (Some None)) /\
  (let '(done_, (d', _)) := storeAPIKey (fun c => match c with Replace => false | _ => true end) path ".openrouter-1.tmp" "new" (d, []) in
   done_ = false /\ readDisk d' path = None).
Proof.
  cbv zeta. split; [|by vm_compute]. cbv [storeAPIKey io_bind sys current io_ret negb keepDisk writeCall closeCall atomicReplaceFile].
  split_and!; [done| |].
  - apply Exists_cons_hd. left. eexists. split; [left|]. by vm_compute.
  - left. eexists. split; [left|]. cbn. eexists. split; [by vm_compute|]. exists None. by split.
Qed.
