(* ===== verification/ScoreStore.v ===== *)
(** * ScoreStore: scores on disk (router_scoring_store.go)

    What is written of the service state, what a file read back restores, and
    when.  The file is its decoded value: [encoding/json] is inverse to itself
    on it.  The writer is in [Files]. *)

From S2P Require Import Prelude Float Types Env Text Breaker Scoring Quota Registry Health Files.
From Stdlib Require Import Lia ZArith Ascii String.
#[local] Open Scope string_scope.
#[local] Open Scope Z_scope.
#[local] Open Scope io_scope.

Definition scoreStoreVersion : Z := 2.
Definition scoreStoreMinVersion : Z := 1.
Definition defaultScoreMaxAge : Z := 24 * Hour.
Definition defaultScoreFlushInterval : Z := 30 * Second.

Record persistedScore := mkPersistedScore {
  ps_Score : float64;
  ps_ScoreUpdatedAt : Z;
  ps_ScoreAttemptSeq : Z;
  ps_Successes : Z;
}.

Record persistedQuota := mkPersistedQuota {
  pq_Provider : string;
  pq_Scope : string;
  pq_ModelOrPool : string;
  pq_Dimension : string;
  pq_Window : string;
  pq_Limit : Z;
  pq_Remaining : Z;
  pq_ResetAt : Z;
  pq_ObservedAt : Z;
  pq_Source : string;
  pq_Confidence : string;
}.

Record scoreStoreFile := mkScoreFile {
  sf_Version : Z;
  sf_SavedAt : Z;
  sf_AttemptSeq : Z;
  sf_Models : gmap string persistedScore;
  sf_ProviderAttempts : gmap string Z;
  sf_ProviderBalance : gmap string Z;
  sf_Quota : list persistedQuota;
}.

(** ** Settings *)

(** The user's configuration directory is an argument: [None] is the error of
    [os.UserConfigDir]. *)
Definition scoreFilePath (env : environ) (configDir : option string) (join : list string -> string) : string :=
  let raw := TrimSpace (envValue env "PROXY_SCORE_FILE") in
  let lower := ToLower raw in
  if str_eq lower "off" || str_eq lower "-" || str_eq lower "none" || str_eq lower "disabled" then ""
  else if negb (empty_str lower) then raw
  else match configDir with
       | Some dir => if empty_str (TrimSpace dir) then "" else join [dir; "calvoproxy"; "scores.json"]
       | None => ""
       end.

Definition scoreMaxAge (env : environ) : Z := envDurationSeconds env "PROXY_SCORE_MAX_AGE_SECONDS" defaultScoreMaxAge.

(** ** What is saved *)

Definition persistScore (state : modelBreakerState) : option persistedScore :=
  if IsZero (ScoreUpdatedAt state) then None
  else Some (mkPersistedScore (Score state) (ScoreUpdatedAt state) (ScoreAttemptSeq state) (Successes state)).

Definition positive (n : Z) : option Z := if 0 <? n then Some n else None.

Definition persistQuota (snap : QuotaSnapshot) : persistedQuota :=
  let key := snap_Key snap in
  let o := snap_Obs snap in
  mkPersistedQuota (key_Provider key) (key_Scope key) (key_ModelOrPool key) (key_Dimension key) (key_Window key)
    (obs_Limit o) (obs_Remaining o) (obs_ResetAt o) (obs_ObservedAt o) (obs_Source o) (obs_Confidence o).

(** The clock is read once for the file and once for the ledger. *)
Definition snapshotScores (savedAt now : Z) (st : RouterState) (l : QuotaLedger) : QuotaLedger * scoreStoreFile :=
  let '(l, keys) := Keys now l in
  let '(l, snaps) := quotaSnapshots now keys l in
  (l, mkScoreFile scoreStoreVersion savedAt (scoreAttempts st) (omap persistScore (modelBreakers st))
        (omap positive (providerAttempts st)) (omap positive (providerBalance st)) (persistQuota <$> snaps)).

(** ** What is restored *)

Definition supported (provider : providerID) : bool := existsb (str_eq provider) supportedDirectProviders.

Definition restoreQuota (now : Z) (l : QuotaLedger) (p : persistedQuota) : QuotaLedger :=
  let provider := ToLower (TrimSpace (pq_Provider p)) in
  if negb (supported provider) || (negb (IsZero (pq_ResetAt p)) && negb (After (pq_ResetAt p) now)) then l
  else (Observe (mkKey provider (pq_Scope p) (pq_ModelOrPool p) (pq_Dimension p) (pq_Window p))
          (mkObs (pq_Limit p) (pq_Remaining p) (pq_ResetAt p) (pq_Source p) (pq_Confidence p) (pq_ObservedAt p)) now l).1.

Definition restoreCount (m : gmap providerID Z) (entry : string * Z) : gmap providerID Z :=
  let provider := ToLower (TrimSpace entry.1) in
  if supported provider && (0 <=? entry.2) then <[provider := entry.2]> m else m.

(** The tests a stored score has to pass. *)
Definition restorable (known : gset string) (now maxAge : Z) (key : string) (rec : persistedScore) : bool :=
  bool_decide (key ∈ known) && negb (IsZero (ps_ScoreUpdatedAt rec)) &&
  negb ((0 <? maxAge) && (maxAge <? time_Sub now (ps_ScoreUpdatedAt rec))).

Definition set_durable (rec : persistedScore) (s : modelBreakerState) : modelBreakerState :=
  mkBreaker (ConsecutiveFailures s) (ps_Successes rec) (LastFailureCode s) (LastFailureReason s)
            (LastFailureAt s) (OpenUntil s) (ProbeUntil s) (clamp01 (ps_Score rec)) (ps_ScoreUpdatedAt rec) (ps_ScoreAttemptSeq rec).

Definition restoreModel (known : gset string) (now maxAge : Z) (acc : gmap string modelBreakerState * Z) (entry : string * persistedScore) : gmap string modelBreakerState * Z :=
  let '(m, restored) := acc in
  if restorable known now maxAge entry.1 entry.2
  then (<[entry.1 := set_durable entry.2 (default zeroBreaker (m !! entry.1))]> m, restored + 1)
  else acc.

Section restore.
Context `{MapRange}.

Definition restoreScores (file : scoreStoreFile) (known : gset string) (now maxAge : Z) (st : RouterState) (l : QuotaLedger) : RouterState * QuotaLedger * Z :=
  let l := fold_left (restoreQuota now) (sf_Quota file) l in
  let attempts := fold_left restoreCount (range_of (sf_ProviderAttempts file)) (providerAttempts st) in
  let balance := fold_left restoreCount (range_of (sf_ProviderBalance file)) (providerBalance st) in
  let '(models, restored) := fold_left (restoreModel known now maxAge) (range_of (sf_Models file)) (modelBreakers st, 0) in
  let seq := if (0 <? restored) && (scoreAttempts st <? sf_AttemptSeq file) then sf_AttemptSeq file else scoreAttempts st in
  (mkState models (providerBreakers st) attempts balance seq (scoresDirty st), l, restored).

(** ** Loading and saving *)

Definition knownBreakerKeys (svc : RouterStatic) : gset string := list_to_set (breakerKey svc <$> allKnownAttempts svc).

Inductive loadOutcome := LoadDisabled | LoadUnreadable | LoadWrongVersion | LoadStale | Loaded (restored : Z).

(** [read] is what [readScoreFile] gives at the path; [None] is any error. *)
Definition LoadScores (svc : RouterStatic) (env : environ) (path : string) (read : option scoreStoreFile) (now : Z) (st : RouterState) (l : QuotaLedger) : RouterState * QuotaLedger * loadOutcome :=
  if empty_str path then (st, l, LoadDisabled)
  else match read with
       | None => (st, l, LoadUnreadable)
       | Some file =>
           if (sf_Version file <? scoreStoreMinVersion) || (scoreStoreVersion <? sf_Version file) then (st, l, LoadWrongVersion)
           else
             let maxAge := scoreMaxAge env in
             if (0 <? maxAge) && negb (IsZero (sf_SavedAt file)) && (maxAge <? time_Sub now (sf_SavedAt file)) then (st, l, LoadStale)
             else
               let '(st, l, restored) := restoreScores file (knownBreakerKeys svc) now maxAge st l in
               (st, l, Loaded restored)
       end.

Definition set_dirty (b : bool) (st : RouterState) : RouterState :=
  mkState (modelBreakers st) (providerBreakers st) (providerAttempts st) (providerBalance st) (scoreAttempts st) b.
End restore.

Section save.
Context (ok : call -> bool) (path tmp : string) (savedAt now : Z).

(** [true] is a nil error.  The flag is cleared before the write and set again
    when it fails. *)
Definition SaveScores (st : RouterState) (l : QuotaLedger) : io scoreStoreFile (RouterState * QuotaLedger * bool) :=
  if empty_str path then io_ret (st, l, true)
  else if negb (scoresDirty st) then io_ret (st, l, true)
  else
    let st := set_dirty false st in
    let '(l, file) := snapshotScores savedAt now st l in
    b <- writeScoreFile ok path tmp file ;;
    if b then io_ret (st, l, true) else io_ret (set_dirty true st, l, false).
End save.

(** ** Lemmas: what the loops restore *)

Definition canonicalProvider (p : string) : Prop := ToLower (TrimSpace p) = p.

Lemma fold_restoreModel known now maxAge l : forall m n,
  NoDup l.*1 ->
  let r := fold_left (restoreModel known now maxAge) l (m, n) in
  (forall k, r.1 !! k = match (list_to_map l : gmap string persistedScore) !! k with
                        | Some rec => if restorable known now maxAge k rec then Some (set_durable rec (default zeroBreaker (m !! k))) else m !! k
                        | None => m !! k
                        end) /\
  n <= r.2 /\ (n < r.2 <-> exists k rec, (k, rec) ∈ l /\ restorable known now maxAge k rec = true).
Proof.
  induction l as [|[k0 rec0] l IH]; intros m n Hn; simpl.
  { split; [done|]. split; [lia|]. split; [lia|]. by intros (? & ? & ?%elem_of_nil & _). }
  apply NoDup_cons in Hn as [Hk0 Hn]. destruct (restorable known now maxAge k0 rec0) eqn:E; simpl.
  - destruct (IH (<[k0 := set_durable rec0 (default zeroBreaker (m !! k0))]> m) (n + 1) Hn) as (H1 & H2 & H3). split_and!; [|lia|].
    + intros k. rewrite H1. destruct (decide (k = k0)) as [->|Hne].
      * rewrite not_elem_of_list_to_map_1 by done. by rewrite !lookup_insert_eq, E.
      * by rewrite !lookup_insert_ne by done.
    + split; [intros _; exists k0, rec0; split; [left|done]|lia].
  - destruct (IH m n Hn) as (H1 & H2 & H3). split_and!; [|done|].
    + intros k. rewrite H1. destruct (decide (k = k0)) as [->|Hne].
      * rewrite not_elem_of_list_to_map_1 by done. by rewrite lookup_insert_eq, E.
      * by rewrite !lookup_insert_ne by done.
    + rewrite H3. split; intros (k & rec & Hin & Hr); exists k, rec; (split; [|done]); [by right|].
      apply elem_of_cons in Hin as [[= -> ->]|]; [congruence|done].
Qed.

Lemma fold_restoreCount l : forall m,
  NoDup l.*1 -> (forall p n, (p, n) ∈ l -> canonicalProvider p) -> forall p,
  fold_left restoreCount l m !! p =
    match (list_to_map l : gmap string Z) !! p with
    | Some n => if supported p && (0 <=? n) then Some n else m !! p
    | None => m !! p
    end.
Proof.
  induction l as [|[p0 n0] l IH]; intros m Hn Hc p; [done|]. simpl. apply NoDup_cons in Hn as [Hp0 Hn].
  rewrite IH; [|done|intros ? ? ?; eapply Hc; by right]. unfold restoreCount. simpl. rewrite (Hc p0 n0) by left.
  destruct (decide (p = p0)) as [->|Hne].
  - rewrite not_elem_of_list_to_map_1 by done. rewrite lookup_insert_eq. destruct (supported p0 && _); [by rewrite lookup_insert_eq|done].
  - rewrite lookup_insert_ne by done. destruct (supported p0 && _); [by rewrite lookup_insert_ne by done|done].
Qed.

Lemma restoreCount_range `{MapRange} (saved m : gmap string Z) :
  map_Forall (fun p _ => canonicalProvider p) saved -> forall p,
  fold_left restoreCount (range_of saved) m !! p =
    match saved !! p with Some n => if supported p && (0 <=? n) then Some n else m !! p | None => m !! p end.
Proof.
  intros Hc p. rewrite fold_restoreCount; [by rewrite range_to_map|apply NoDup_range|].
  intros q n Hin%elem_of_range. by eapply Hc.
Qed.

(** ** A restart *)

Definition emptyState : RouterState := mkState ∅ ∅ ∅ ∅ 0 false.

(** What a circuit carries over. *)
Definition carried (known : gset string) (now maxAge : Z) (key : string) (state : modelBreakerState) : bool :=
  bool_decide (key ∈ known) && negb (IsZero (ScoreUpdatedAt state)) &&
  negb ((0 <? maxAge) && (maxAge <? time_Sub now (ScoreUpdatedAt state))).

Definition learned (state : modelBreakerState) : modelBreakerState :=
  mkBreaker 0 (Successes state) 0 "" 0 0 0 (clamp01 (Score state)) (ScoreUpdatedAt state) (ScoreAttemptSeq state).

Definition canonicalCounts (st : RouterState) : Prop :=
  map_Forall (fun p _ => canonicalProvider p) (providerAttempts st) /\ map_Forall (fun p _ => canonicalProvider p) (providerBalance st).

Lemma omap_positive_canonical (m : gmap string Z) :
  map_Forall (fun p _ => canonicalProvider p) m -> map_Forall (fun p _ => canonicalProvider p) (omap positive m).
Proof. intros Hm p n. rewrite lookup_omap_Some. intros (x & _ & Hx). by eapply Hm. Qed.

Lemma restored_count `{MapRange} m p :
  map_Forall (fun p _ => canonicalProvider p) m ->
  fold_left restoreCount (range_of (omap positive m)) ∅ !! p = if supported p then (m !! p) ≫= positive else None.
Proof.
  intros Hc. rewrite restoreCount_range by by apply omap_positive_canonical. rewrite lookup_omap, lookup_empty.
  destruct (m !! p) as [n|]; simpl; [|by destruct (supported p)]. unfold positive. destruct (Z.ltb_spec 0 n); [|by destruct (supported p)].
  destruct (supported p); simpl; [|done]. by destruct (Z.leb_spec 0 n); [|lia].
Qed.

(** What the proxy has learned survives a restart, and nothing else does.
    In whatever order the file is read back, a model of the current policy
    whose evidence is not too old has its score, clocks and successes again
    with a closed circuit and no failures; every other model starts unknown;
    a supported provider has its counts of attempts and its balance; and the
    attempt clock is restored with the scores, so that from then on every
    restored score decays exactly as it would have without the restart. *)
Theorem scores_survive_restart `{MapRange} st l savedAt saveNow known now maxAge l0 :
  canonicalCounts st -> 0 <= scoreAttempts st ->
  let file := (snapshotScores savedAt saveNow st l).2 in
  let '(st', _, restored) := restoreScores file known now maxAge emptyState l0 in
  (forall key, modelBreakers st' !! key =
     match modelBreakers st !! key with
     | Some state => if carried known now maxAge key state then Some (learned state) else None
     | None => None
     end) /\
  (forall p, providerAttempts st' !! p = if supported p then (providerAttempts st !! p) ≫= positive else None) /\
  (forall p, providerBalance st' !! p = if supported p then (providerBalance st !! p) ≫= positive else None) /\
  providerBreakers st' = ∅ /\
  (forall key state senv, modelBreakers st !! key = Some state -> carried known now maxAge key state = true -> unit01 (Score state) ->
     decayedScore (modelBreakers st' !! key) senv = decayedScore (Some state) senv /\ scoreAttempts st' = scoreAttempts st).
Proof.
  intros [Hca Hcb] Hseq. cbv zeta. unfold snapshotScores. destruct (Keys saveNow l) as [l1 keys]. destruct (quotaSnapshots saveNow keys l1) as [l2 snaps].
  simpl. unfold restoreScores. simpl.
  pose proof (fold_restoreModel known now maxAge (range_of (omap persistScore (modelBreakers st))) ∅ 0 (NoDup_range _)) as Hm.
  destruct (fold_left (restoreModel known now maxAge) _ _) as [models restored]. simpl in Hm. rewrite range_to_map in Hm. destruct Hm as (Hm & H0 & Hr).
  assert (Hmodels : forall key, models !! key = match modelBreakers st !! key with
            | Some state => if carried known now maxAge key state then Some (learned state) else None | None => None end).
  { intros key. rewrite Hm, lookup_omap, lookup_empty. destruct (modelBreakers st !! key) as [state|]; simpl; [|done].
    unfold persistScore, carried. destruct (IsZero (ScoreUpdatedAt state)) eqn:Ez; simpl; [by destruct (bool_decide _)|].
    unfold restorable. simpl. by rewrite Ez. }
  split_and!; simpl; [done|intros; by apply restored_count|intros; by apply restored_count|done|].
  intros key state senv Hst Hc Hunit. split.
  - rewrite Hmodels, Hst, Hc. unfold learned. by rewrite (clamp01_id _ Hunit).
  - assert (0 < restored) as Hpos.
    { apply Hr. unfold carried in Hc. destruct (IsZero (ScoreUpdatedAt state)) eqn:Ez; [by destruct (bool_decide _)|].
      exists key, (mkPersistedScore (Score state) (ScoreUpdatedAt state) (ScoreAttemptSeq state) (Successes state)).
      split; [|unfold restorable; simpl; by rewrite Ez]. apply elem_of_range. rewrite lookup_omap, Hst. simpl. unfold persistScore. by rewrite Ez. }
    destruct (Z.ltb_spec 0 restored); [|lia]. simpl. destruct (Z.ltb_spec 0 (scoreAttempts st)); lia.
Qed.

(** ** Quota across a restart *)

Lemma bucketAt_unexpired now l k :
  (forall bk, bucketAt l k = Some bk -> expired (bk_observation bk) now = false) ->
  bucketAt (purgeExpiredLocked now l) k = bucketAt l k.
Proof.
  unfold bucketAt, purgeExpiredLocked. simpl. intros Hx. destruct (lg_buckets l !! k) as [b|] eqn:Eb; simpl in *.
  - destruct (lg_heap l !! b) as [bk|] eqn:Eh.
    + rewrite (map_lookup_filter_Some_2 _ _ _ _ Eb); [by simpl; rewrite Eh|]. unfold keepBucket. rewrite Eh. by rewrite Hx.
    + rewrite (map_lookup_filter_Some_2 _ _ _ _ Eb); [by simpl; rewrite Eh|]. unfold keepBucket. by rewrite Eh.
  - assert (filter (fun '(_, b) => keepBucket l now b = true) (lg_buckets l) !! k = None) as -> by (apply map_lookup_filter_None; by left). done.
Qed.

Lemma sameKey_bucketAt own l l' k : okWith own [] l -> sameKey own k l l' -> bucketAt l' k = bucketAt l k.
Proof.
  intros Hok [H1 H2]. unfold bucketAt. rewrite H1. destruct (lg_buckets l !! k) as [b|] eqn:E; simpl; [|done].
  apply H2; [by eapply ok_live|by eapply ok_own].
Qed.

Lemma Observe_other k k' o now l :
  ledgerOK l -> k <> k' -> (forall bk, bucketAt l k = Some bk -> expired (bk_observation bk) now = false) ->
  bucketAt (Observe k' o now l).1 k = bucketAt l k.
Proof.
  intros [own Hok] Hne Hx. unfold Observe. destruct (_ || _); [done|]. cbv zeta. rewrite <- (bucketAt_unexpired now l k Hx).
  apply (okWith_purge _ _ _ now) in Hok. destruct (expired _ now); simpl.
  - unfold bucketAt. simpl. by rewrite lookup_delete_ne.
  - eapply sameKey_bucketAt; [done|]. by eapply putObservation_other.
Qed.

Lemma Observe_self k o now l :
  ledgerOK l -> validQuotaKey k = true -> obsOK o -> IsZero (obs_ObservedAt o) = false -> expired o now = false ->
  bk_observation <$> bucketAt (Observe k o now l).1 k = Some o.
Proof.
  intros [own Hok] Hv Ho Hz He. unfold Observe. rewrite Hv, Hz. simpl. destruct Ho as [Hr Hm].
  destruct (Z.ltb_spec (obs_Limit o) 0); [lia|]. destruct (Z.ltb_spec (obs_Remaining o) 0); [lia|]. simpl. rewrite He.
  destruct (Z.ltb_spec (obs_Limit o) (obs_Remaining o)); [lia|]. simpl. apply putObservation_at.
  intros b Hb. apply (okWith_purge _ _ _ now) in Hok. by eapply ok_live.
Qed.

Definition quotaKeyOf (p : persistedQuota) : QuotaBucketKey := mkKey (pq_Provider p) (pq_Scope p) (pq_ModelOrPool p) (pq_Dimension p) (pq_Window p).
Definition quotaObsOf (p : persistedQuota) : QuotaObservation :=
  mkObs (pq_Limit p) (pq_Remaining p) (pq_ResetAt p) (pq_Source p) (pq_Confidence p) (pq_ObservedAt p).

(** A saved bucket that can come back at this time. *)
Definition quotaRestorable (now : Z) (p : persistedQuota) : Prop :=
  supported (pq_Provider p) = true /\ validQuotaKey (quotaKeyOf p) = true /\ expired (quotaObsOf p) now = false /\
  IsZero (pq_ObservedAt p) = false.

Definition quotaSane (p : persistedQuota) : Prop := canonicalProvider (pq_Provider p) /\ obsOK (quotaObsOf p).

Lemma restoreQuota_Observe now l p : canonicalProvider (pq_Provider p) ->
  restoreQuota now l p =
    if negb (supported (pq_Provider p)) || expired (quotaObsOf p) now then l else (Observe (quotaKeyOf p) (quotaObsOf p) now l).1.
Proof. intros Hc. unfold restoreQuota. by rewrite Hc. Qed.

Lemma restoreQuota_ok now l p : quotaSane p -> ledgerOK l -> ledgerOK (restoreQuota now l p).
Proof.
  intros [Hc [_ Ho]] Hl. rewrite restoreQuota_Observe by done. destruct (_ || _); [done|].
  apply (runLedgerOp_ok l (LObserve (quotaKeyOf p) (quotaObsOf p) now)); done.
Qed.

Lemma restoreQuota_other now l p k bk : quotaSane p -> ledgerOK l -> k <> quotaKeyOf p ->
  bucketAt l k = Some bk -> expired (bk_observation bk) now = false -> bucketAt (restoreQuota now l p) k = Some bk.
Proof.
  intros [Hc _] Hl Hne Hb He. rewrite restoreQuota_Observe by done. destruct (_ || _); [done|]. rewrite Observe_other; [done|done|done|].
  intros bk' Hb'. by simplify_eq.
Qed.

Lemma restoreQuotas_keep now ps k bk : forall l,
  Forall quotaSane ps -> k ∉ (quotaKeyOf <$> ps) -> ledgerOK l ->
  bucketAt l k = Some bk -> expired (bk_observation bk) now = false -> bucketAt (fold_left (restoreQuota now) ps l) k = Some bk.
Proof.
  induction ps as [|p ps IH]; intros l Hs Hk Hl Hb He; [done|]. apply Forall_cons in Hs as [Hp Hs].
  rewrite fmap_cons, not_elem_of_cons in Hk. destruct Hk as [Hk1 Hk2]. simpl. apply IH; [done|done|by apply restoreQuota_ok| |done].
  by apply restoreQuota_other.
Qed.

Lemma restoreQuotas_at now ps p : forall l,
  Forall quotaSane ps -> NoDup (quotaKeyOf <$> ps) -> ledgerOK l -> p ∈ ps -> quotaRestorable now p ->
  bk_observation <$> bucketAt (fold_left (restoreQuota now) ps l) (quotaKeyOf p) = Some (quotaObsOf p).
Proof.
  induction ps as [|q ps IH]; intros l Hs Hn Hl Hin Hr; [by apply elem_of_nil in Hin|]. apply Forall_cons in Hs as [Hq Hs].
  rewrite fmap_cons in Hn. apply NoDup_cons in Hn as [Hnq Hn]. simpl. apply elem_of_cons in Hin as [<-|Hin].
  - destruct Hr as (Hsu & Hv & He & Hz). pose proof Hq as [Hc Ho].
    pose proof (Observe_self (quotaKeyOf p) (quotaObsOf p) now l Hl Hv Ho Hz He) as Hself.
    assert (Hrest : restoreQuota now l p = (Observe (quotaKeyOf p) (quotaObsOf p) now l).1) by (rewrite restoreQuota_Observe by done; by rewrite Hsu, He).
    rewrite <- Hrest in Hself. destruct (bucketAt (restoreQuota now l p) (quotaKeyOf p)) as [bk|] eqn:Eb; [|done]. simpl in Hself. injection Hself as Hself.
    rewrite (restoreQuotas_keep now ps _ bk); [by rewrite <- Hself|done|done|by apply restoreQuota_ok|done|by rewrite Hself].
  - apply IH; [done|done|by apply restoreQuota_ok|done|done].
Qed.

(** ** What the snapshot of a ledger holds *)

Lemma Snapshot_other k k' now l bk : k <> k' -> bucketAt l k = Some bk -> expired (bk_observation bk) now = false ->
  bucketAt (Snapshot k' now l).1 k = Some bk.
Proof.
  intros Hne Hb He. assert (Hp : bucketAt (purgeExpiredLocked now l) k = Some bk) by (rewrite bucketAt_unexpired; [done|intros; by simplify_eq]).
  unfold Snapshot. cbv zeta. destruct (bucketAt (purgeExpiredLocked now l) k') as [b|]; [|done]. destruct (staleMinute _ _ _); [|done].
  unfold bucketAt in *. simpl. by rewrite lookup_delete_ne.
Qed.

Lemma Snapshot_self k now l bk : bucketAt l k = Some bk -> expired (bk_observation bk) now = false ->
  staleMinute k (bk_observation bk) now = false ->
  exists snap, (Snapshot k now l).2 = Some snap /\ snap_Key snap = k /\ snap_Obs snap = bk_observation bk.
Proof.
  intros Hb He Hs. unfold Snapshot. cbv zeta. rewrite bucketAt_unexpired by (intros; by simplify_eq). rewrite Hb, Hs. by eexists.
Qed.

Lemma quotaSnapshots_keys now keys : forall l, snap_Key <$> (quotaSnapshots now keys l).2 `sublist_of` keys.
Proof.
  induction keys as [|k keys IH]; intros l; simpl; [done|]. destruct (Snapshot k now l) as [l1 snap] eqn:Es. specialize (IH l1).
  destruct (quotaSnapshots now keys l1) as [l2 snaps]. simpl in *. destruct snap as [snap|]; simpl; [|by constructor].
  assert (snap_Key snap = k) as ->; [|by constructor]. unfold Snapshot in Es. repeat case_match; by simplify_eq.
Qed.

Lemma quotaSnapshots_has now keys k bk : forall l,
  NoDup keys -> k ∈ keys -> bucketAt l k = Some bk -> expired (bk_observation bk) now = false -> staleMinute k (bk_observation bk) now = false ->
  exists snap, snap ∈ (quotaSnapshots now keys l).2 /\ snap_Key snap = k /\ snap_Obs snap = bk_observation bk.
Proof.
  induction keys as [|k0 keys IH]; intros l Hn Hin Hb He Hs; [by apply elem_of_nil in Hin|]. apply NoDup_cons in Hn as [Hk0 Hn]. simpl.
  destruct (Snapshot k0 now l) as [l1 snap0] eqn:Es. apply elem_of_cons in Hin as [->|Hin].
  - destruct (Snapshot_self k0 now l bk Hb He Hs) as (snap & Hsn & Hkey & Hobs). rewrite Es in Hsn. simpl in Hsn. subst snap0.
    destruct (quotaSnapshots now keys l1) as [l2 snaps]. simpl. exists snap. split; [left|done].
  - assert (k <> k0) by (by intros ->). pose proof (Snapshot_other k k0 now l bk ltac:(done) Hb He) as Hb'. rewrite Es in Hb'. simpl in Hb'.
    destruct (IH l1 Hn Hin Hb' He Hs) as (snap & Hsn & Hkey). destruct (quotaSnapshots now keys l1) as [l2 snaps]. simpl in *.
    exists snap. split; [|done]. destruct snap0; [by right|done].
Qed.

Definition canonicalKeys (l : QuotaLedger) : Prop := forall k b, lg_buckets l !! k = Some b -> canonicalProvider (key_Provider k).

Lemma canonicalKeys_subset l l' : lg_buckets l' ⊆ lg_buckets l -> canonicalKeys l -> canonicalKeys l'.
Proof. intros Hs Hc k b Hb. eapply Hc, lookup_weaken; done. Qed.

Lemma purge_subset now l : lg_buckets (purgeExpiredLocked now l) ⊆ lg_buckets l.
Proof. apply map_filter_subseteq. Qed.

Lemma Snapshot_subset k now l : lg_buckets (Snapshot k now l).1 ⊆ lg_buckets l.
Proof.
  unfold Snapshot. cbv zeta. destruct (bucketAt _ _); [|apply purge_subset]. destruct (staleMinute _ _ _); simpl; [|apply purge_subset].
  etrans; [apply delete_subseteq|apply purge_subset].
Qed.

Lemma bucketAt_obsOK l k bk : ledgerOK l -> bucketAt l k = Some bk -> obsOK (bk_observation bk).
Proof. intros [own Hok] Hb. unfold bucketAt in Hb. destruct (lg_buckets l !! k) as [b|]; [|done]. by eapply ok_obs. Qed.

Lemma Snapshot_sane k now l snap : ledgerOK l -> canonicalKeys l -> (Snapshot k now l).2 = Some snap ->
  quotaSane (persistQuota snap).
Proof.
  intros Hl Hc. assert (Hl' : ledgerOK (purgeExpiredLocked now l)) by (apply (runLedgerOp_ok l (LKeys now)); done).
  unfold Snapshot. cbv zeta. destruct (bucketAt (purgeExpiredLocked now l) k) as [bk|] eqn:Eb; [|done].
  pose proof (bucketAt_obsOK _ _ _ Hl' Eb) as Ho. destruct (staleMinute _ _ _); [done|]. simpl. intros [= <-]. split; simpl.
  - unfold bucketAt in Eb. destruct (lg_buckets (purgeExpiredLocked now l) !! k) as [b|] eqn:E; [|done].
    eapply (canonicalKeys_subset l); [apply purge_subset|done|done].
  - unfold quotaObsOf. simpl. by destruct (bk_observation bk).
Qed.

Lemma quotaSnapshots_sane now keys : forall l, ledgerOK l -> canonicalKeys l -> Forall quotaSane (persistQuota <$> (quotaSnapshots now keys l).2).
Proof.
  induction keys as [|k keys IH]; intros l Hl Hc; simpl; [constructor|].
  assert (Hl1 : ledgerOK (Snapshot k now l).1) by (apply (runLedgerOp_ok l (LSnapshot k now)); done).
  assert (Hc1 : canonicalKeys (Snapshot k now l).1) by (eapply canonicalKeys_subset; [apply Snapshot_subset|done]).
  pose proof (Snapshot_sane k now l) as Hs. destruct (Snapshot k now l) as [l1 snap]. simpl in *. specialize (IH l1 Hl1 Hc1).
  destruct (quotaSnapshots now keys l1) as [l2 snaps]. simpl in *. destruct snap as [snap|]; [|done]. simpl. constructor; [by apply Hs|done].
Qed.

Lemma Keys_NoDup now l : NoDup (Keys now l).2.
Proof. unfold Keys. simpl. rewrite SliceStable_perm. apply NoDup_fst_map_to_list. Qed.

Lemma Keys_has now l k bk : bucketAt l k = Some bk -> expired (bk_observation bk) now = false -> k ∈ (Keys now l).2.
Proof.
  intros Hb He. unfold Keys. simpl. rewrite SliceStable_perm. rewrite <- (bucketAt_unexpired now) in Hb by (intros; by simplify_eq).
  unfold bucketAt in Hb. destruct (lg_buckets (purgeExpiredLocked now l) !! k) as [b|] eqn:E; [|done].
  apply list_elem_of_fmap. exists (k, b). split; [done|]. by apply elem_of_map_to_list.
Qed.

Lemma persistQuota_obs snap : quotaObsOf (persistQuota snap) = snap_Obs snap.
Proof. by destruct snap as [[]]. Qed.
Lemma persistQuota_key snap : quotaKeyOf (persistQuota snap) = snap_Key snap.
Proof. by destruct snap as [? [] ? ? ?]. Qed.

(** A quota window that is still open when the proxy comes back is known
    again: what the provider said of the bucket is restored as it was, with
    nothing reserved in it. *)
Theorem quota_survives_restart `{MapRange} st l savedAt saveNow known now maxAge st0 id k bk :
  ledgerOK l -> canonicalKeys l -> bucketAt l k = Some bk ->
  supported (key_Provider k) = true -> validQuotaKey k = true -> IsZero (obs_ObservedAt (bk_observation bk)) = false ->
  expired (bk_observation bk) saveNow = false -> staleMinute k (bk_observation bk) saveNow = false -> expired (bk_observation bk) now = false ->
  let file := (snapshotScores savedAt saveNow st l).2 in
  let '(_, l', _) := restoreScores file known now maxAge st0 (NewQuotaLedger id) in
  bk_observation <$> bucketAt l' k = Some (bk_observation bk).
Proof.
  intros Hl Hc Hb Hsup Hv Hz He Hs He'. cbv zeta. unfold snapshotScores.
  pose proof (Keys_NoDup saveNow l) as Hn. pose proof (Keys_has saveNow l k bk Hb He) as Hk.
  assert (Hl1 : ledgerOK (Keys saveNow l).1) by (apply (runLedgerOp_ok l (LKeys saveNow)); done).
  assert (Hc1 : canonicalKeys (Keys saveNow l).1) by (eapply canonicalKeys_subset; [apply purge_subset|done]).
  assert (Hb1 : bucketAt (Keys saveNow l).1 k = Some bk) by (unfold Keys; simpl; rewrite bucketAt_unexpired; [done|intros; by simplify_eq]).
  destruct (Keys saveNow l) as [l1 keys]. simpl in *.
  destruct (quotaSnapshots_has saveNow keys k bk l1 Hn Hk Hb1 He Hs) as (snap & Hin & Hkey & Hobs).
  pose proof (quotaSnapshots_sane saveNow keys l1 Hl1 Hc1) as Hsane. pose proof (quotaSnapshots_keys saveNow keys l1) as Hsub.
  destruct (quotaSnapshots saveNow keys l1) as [l2 snaps]. simpl in *. unfold restoreScores. simpl.
  destruct (fold_left (restoreModel _ _ _) _ _) as [models restored].
  pose proof (restoreQuotas_at now (persistQuota <$> snaps) (persistQuota snap) (NewQuotaLedger id)) as Hat.
  rewrite persistQuota_key, persistQuota_obs, Hkey, Hobs in Hat. apply Hat; [done| |apply new_ledgerOK|by apply list_elem_of_fmap; exists snap|].
  - rewrite <- list_fmap_compose. erewrite list_fmap_ext; [|intros; apply persistQuota_key]. by eapply sublist_NoDup.
  - split_and!; [by rewrite <- Hkey in Hsup|by rewrite persistQuota_key, Hkey|by rewrite persistQuota_obs, Hobs|].
    change (pq_ObservedAt (persistQuota snap)) with (obs_ObservedAt (snap_Obs snap)). by rewrite Hobs.
Qed.

(** ** Saving beside the requests

    A request changes the scores and then marks them; the flusher takes the
    mark, copies the scores and writes them.  Any of these may come between
    two others. *)

(** What is worth saving. *)
Record durableScores := mkDurable {
  du_models : gmap string persistedScore;
  du_attempts : gmap providerID Z;
  du_balance : gmap providerID Z;
  du_seq : Z;
}.

Definition durable (st : RouterState) : durableScores :=
  mkDurable (omap persistScore (modelBreakers st)) (omap positive (providerAttempts st)) (omap positive (providerBalance st)) (scoreAttempts st).

Inductive flusher := Idle | Taken | Copied (d : durableScores).

(** [fl_disk] is what a restart would find; [fl_unmarked] counts the requests
    that changed the scores and have not marked them yet. *)
Record flushState := mkFlush {
  fl_state : RouterState;
  fl_disk : durableScores;
  fl_flusher : flusher;
  fl_unmarked : nat;
}.

Inductive flushStep : flushState -> flushState -> Prop :=
| fl_change st st' disk fl n :
    scoresDirty st' = scoresDirty st ->
    flushStep (mkFlush st disk fl n) (mkFlush st' disk fl (S n))
| fl_mark st disk fl n :
    flushStep (mkFlush st disk fl (S n)) (mkFlush (markScoresDirty st) disk fl n)
| fl_take st disk n :
    scoresDirty st = true ->
    flushStep (mkFlush st disk Idle n) (mkFlush (set_dirty false st) disk Taken n)
| fl_copy st disk n :
    flushStep (mkFlush st disk Taken n) (mkFlush st disk (Copied (durable st)) n)
| fl_written st disk d n :
    flushStep (mkFlush st disk (Copied d) n) (mkFlush st d Idle n)
| fl_failed st disk d n :
    flushStep (mkFlush st disk (Copied d) n) (mkFlush (set_dirty true st) disk Idle n).

(** The disk is behind only while something will still bring it up to date. *)
Definition flushInv (s : flushState) : Prop :=
  scoresDirty (fl_state s) = true \/ (0 < fl_unmarked s)%nat \/ fl_flusher s = Taken \/
  match fl_flusher s with Copied d => d = durable (fl_state s) | _ => fl_disk s = durable (fl_state s) end.

Lemma flushStep_inv s s' : flushStep s s' -> flushInv s -> flushInv s'.
Proof.
  unfold flushInv. destruct 1; simpl; intros H'; try (by right; left; lia); try (by left); try (by right; right; left); try (by right; right; right).
  destruct H' as [?|[?|[?|Heq]]]; [by left|by right; left|done|right; right; right; by rewrite Heq].
Qed.

Lemma flushSteps_inv s s' : rtc flushStep s s' -> flushInv s -> flushInv s'.
Proof. induction 1; eauto using flushStep_inv. Qed.

(** No learned score is forgotten by the flusher.  However requests, marks
    and saves interleave, and whichever saves fail, when the scores are not
    marked, no request is about to mark them and no save is under way, the
    disk holds exactly the scores in memory. *)
Theorem flush_loses_nothing st0 s :
  rtc flushStep (mkFlush st0 (durable st0) Idle 0) s ->
  scoresDirty (fl_state s) = false -> fl_unmarked s = 0%nat -> fl_flusher s = Idle ->
  fl_disk s = durable (fl_state s).
Proof.
  intros Hsteps Hd Hu Hf. assert (H : flushInv s).
  { eapply flushSteps_inv; [done|]. by right; right; right. }
  unfold flushInv in H. rewrite Hd, Hu, Hf in H. destruct H as [?|[?|[?|?]]]; [done|lia|done|done].
Qed.

(** ** A small store *)

Definition demoBreaker : modelBreakerState :=
  mkBreaker 4 7 429 "quota" (5 * Second) (900 * Second) 0 scoreNeutral (10 * Second) 3.

Definition demoScores : RouterState :=
  mkState {["groq" +:+ nul +:+ "m" := demoBreaker; "gone" := demoBreaker]} ∅ {["groq" := 12]} {["groq" := 4; "ollama" := 0]} 9 true.

Lemma scores_survive_restart_witness :
  let file := (snapshotScores (20 * Second) (20 * Second) demoScores (NewQuotaLedger 0)).2 in
  let '(st', _, restored) := restoreScores file {["groq" +:+ nul +:+ "m"]} (30 * Second) Hour emptyState (NewQuotaLedger 1) in
  restored = 1 /\ modelBreakers st' !! "gone" = None /\ providerBalance st' !! "groq" = Some 4 /\ scoreAttempts st' = 9.
Proof.
  cbv zeta.
  assert (Hc : canonicalCounts demoScores) by (split; [apply map_Forall_singleton; reflexivity|apply map_Forall_insert_2; [reflexivity|apply map_Forall_singleton; reflexivity]]).
  pose proof (scores_survive_restart demoScores (NewQuotaLedger 0) (20 * Second) (20 * Second) {["groq" +:+ nul +:+ "m"]} (30 * Second) Hour (NewQuotaLedger 1) Hc ltac:(done)) as H.
  cbv zeta in H. destruct (restoreScores _ _ _ _ _ _) as [[st' l'] restored] eqn:E.
  assert (Er : restored = 1) by (apply (f_equal snd) in E; vm_compute in E; by symmetry).
  destruct H as (Hm & _ & Hb & _ & Hd). split_and!; [exact Er| | |].
  - rewrite Hm. vm_compute. reflexivity.
  - rewrite Hb. vm_compute. reflexivity.
  - change 9 with (scoreAttempts demoScores).
    refine (proj2 (Hd ("groq" +:+ nul +:+ "m") demoBreaker (mkScoreEnv 0 0 1 1) _ _ _)); [vm_compute; reflexivity..|].
    split_and!; vm_compute; congruence.
Defined.

Lemma flush_loses_nothing_witness :
  let st1 := reserveProviderBalance "groq" emptyState in
  fl_disk (mkFlush (set_dirty false st1) (durable (set_dirty false st1)) Idle 0) = durable st1.
Proof.
  cbv zeta. apply (flush_loses_nothing emptyState (mkFlush (set_dirty false (reserveProviderBalance "groq" emptyState)) _ Idle 0)); [|reflexivity|reflexivity|reflexivity].
  eapply rtc_l; [apply (fl_change _ (set_providerBalance {["groq" := 1]} emptyState)); reflexivity|].
  eapply rtc_l; [apply fl_mark|]. eapply rtc_l; [apply fl_take; reflexivity|]. eapply rtc_l; [apply fl_copy|]. eapply rtc_l; [apply fl_written|]. apply rtc_refl.
Defined.
