(* ===== verification/Vault.v ===== *)
(** * Vault: provider credentials at rest (secretstore/vault.go, types.go)

    An encrypted file with at most one secret per provider.  AES-GCM, the JSON
    encoding of the file and the parsing of time stamps are the class
    [VaultCrypto], with the behaviour the code relies on as its laws; the
    master key, the random bytes, the clock and the system calls that fail are
    the record [callEnv] of each call.  The file lives on a disk of [Files]. *)

From S2P Require Import Prelude Text Files.
From Stdlib Require Import Lia ZArith Ascii String.
#[local] Open Scope string_scope.
#[local] Open Scope Z_scope.
#[local] Open Scope io_scope.

Definition vaultVersion : Z := 1.
Definition maxSecretLen : nat := 4096.

Definition ProviderOpenRouter : string := "openrouter".
Definition ProviderCerebras : string := "cerebras".
Definition ProviderGroq : string := "groq".

Definition allProviders : list string := [ProviderOpenRouter; ProviderCerebras; ProviderGroq].

Definition allowedProvider (provider : string) : bool := existsb (str_eq provider) allProviders.

(** [ErrOther] is an error of the context, the random source or the disk. *)
Inductive vaultError := ErrInvalidProvider | ErrInvalidSecret | ErrInvalidKey | ErrVaultLocked | ErrOther.

Record encryptedEntry := mkEntry {
  en_Nonce : string;
  en_Ciphertext : string;
  en_Revision : Z;
  en_UpdatedAt : string;
}.

(** A decoded file; [None] is a null map. *)
Record vaultFile := mkVaultFile {
  vf_Version : Z;
  vf_Entries : option (gmap string encryptedEntry);
}.

Definition nonceSize : nat := 12.
Definition overhead : nat := 16.

(** What the vault uses of the standard library.  [D] is the content of a
    file; sealing adds a tag of sixteen bytes and opening with the same key,
    nonce and additional data gives the text back; a file that was encoded
    decodes to itself and is not empty; a formatted time parses. *)
Class VaultCrypto (D : Type) := {
  gcmSeal : string -> string -> string -> string -> string;
  gcmOpen : string -> string -> string -> string -> option string;
  marshalVault : vaultFile -> D;
  unmarshalVault : D -> option vaultFile;
  validTime : string -> bool;
  formatTime : Z -> string;
  gcm_open_seal : forall key nonce text ad, gcmOpen key nonce (gcmSeal key nonce text ad) ad = Some text;
  gcm_length : forall key nonce text ad, String.length (gcmSeal key nonce text ad) = (String.length text + overhead)%nat;
  vault_roundtrip : forall file, unmarshalVault (marshalVault file) = Some file;
  time_roundtrip : forall t, validTime (formatTime t) = true;
}.

(** ** Secrets *)

(** [unicode.IsControl] of the first rune. *)
Definition startsWithControl (s : bytes) : bool :=
  match s with
  | a :: b :: _ => byteIn 0 31 a || byteIn 127 127 a || (byteIn 194 194 a && byteIn 128 159 b)
  | [a] => byteIn 0 31 a || byteIn 127 127 a
  | [] => false
  end.

(** The first rune is not a stray byte. *)
Definition startsWithRune (s : bytes) : bool :=
  match s with
  | [] => false
  | a :: _ => byteIn 0 127 a || (1 <? runeLen s)%nat
  end.

(** [utf8.Valid], and no control character: one pass over the runes. *)
Fixpoint printable (fuel : nat) (s : bytes) : bool :=
  match s, fuel with
  | [], _ => true
  | _, O => false
  | _, S fuel => startsWithRune s && negb (startsWithControl s) && printable fuel (drop (runeLen s) s)
  end.

Definition validateSecret (secret : string) : vaultError + string :=
  let clean := TrimSpace secret in
  if empty_str clean || (maxSecretLen <? String.length clean)%nat ||
     negb (printable (String.length clean) (list_ascii_of_string clean))
  then inl ErrInvalidSecret
  else inr clean.

(** The sources of one call. *)
Record callEnv := mkCallEnv {
  ce_cancelled : bool;
  ce_key : option string;        (** [keys.Load]; [None] is an error, or no source *)
  ce_readError : bool;           (** [os.ReadFile] fails, other than for a missing file *)
  ce_random : option string;     (** [nonceSize] random bytes *)
  ce_now : Z;
  ce_ok : call -> bool;
  ce_tmp : string;
}.

Section vault.
Context {D : Type} `{VaultCrypto D} (path : string).

Definition loadKey (ce : callEnv) : vaultError + string :=
  if ce_cancelled ce then inl ErrOther
  else match ce_key ce with
       | None => inl ErrVaultLocked
       | Some key => if (String.length key =? 32)%nat then inr key else inl ErrInvalidKey
       end.

(** ** Entries *)

Definition additionalData (provider : string) : string := "version=" +:+ pretty vaultVersion +:+ ";provider=" +:+ provider.

(** The nonce is read in full or not at all. *)
Definition encrypt (key provider plaintext : string) (random : option string) : vaultError + encryptedEntry :=
  if negb (String.length key =? 32)%nat then inl ErrInvalidKey
  else match random with
       | None => inl ErrOther
       | Some nonce => inr (mkEntry nonce (gcmSeal key nonce plaintext (additionalData provider)) 0 "")
       end.

Definition decrypt (key provider : string) (entry : encryptedEntry) : option string :=
  if negb (String.length key =? 32)%nat then None
  else if negb (String.length (en_Nonce entry) =? nonceSize)%nat || (String.length (en_Ciphertext entry) <? overhead)%nat then None
  else gcmOpen key (en_Nonce entry) (en_Ciphertext entry) (additionalData provider).

Definition authenticateEntries (key : string) (entries : gmap string encryptedEntry) : bool :=
  bool_decide (map_Forall (fun provider entry => is_Some (decrypt key provider entry)) entries).

(** ** The file *)

Definition validEntry (provider : string) (entry : encryptedEntry) : bool :=
  allowedProvider provider && negb (en_Revision entry =? 0) && validTime (en_UpdatedAt entry).

(** The entries of what is found under the path, and whether it exists; [None]
    is an error.  The decoder starts from an empty file of this version. *)
Definition entriesOf (found : option (option D)) : option (gmap string encryptedEntry * bool) :=
  match found with
  | None => Some (∅, false)
  | Some content =>
      data ← content;
      file ← unmarshalVault data;
      entries ← vf_Entries file;
      if negb (vf_Version file =? vaultVersion) then None
      else if bool_decide (map_Forall (fun provider entry => validEntry provider entry = true) entries)
      then Some (entries, true) else None
  end.

Definition readFile (ce : callEnv) (d : disk D) : option (gmap string encryptedEntry * bool) :=
  if ce_readError ce then None else entriesOf (readDisk d path).

(** ** Operations *)

Definition Get (ce : callEnv) (provider : string) (d : disk D) : vaultError + option string :=
  if negb (allowedProvider provider) then inl ErrInvalidProvider
  else match readFile ce d with
       | None => inl ErrVaultLocked
       | Some (entries, exists_) =>
           if negb exists_ then inr None
           else match entries !! provider with
                | None => inr None
                | Some entry =>
                    match loadKey ce with
                    | inl err => inl err
                    | inr key => match decrypt key provider entry with
                                 | None => inl ErrVaultLocked
                                 | Some plaintext => inr (Some plaintext)
                                 end
                    end
                end
       end.

(** The write at the end of [Set] and [Delete]. *)
Definition writeEntries (ce : callEnv) (entries : gmap string encryptedEntry) : io D (option vaultError) :=
  b <- writeFile (ce_ok ce) path (ce_tmp ce) (marshalVault (mkVaultFile vaultVersion (Some entries))) ;;
  io_ret (if b then None else Some ErrOther).

Definition revisionOf (entries : gmap string encryptedEntry) (provider : string) : Z :=
  match entries !! provider with Some entry => en_Revision entry | None => 0 end.

Definition Set_ (ce : callEnv) (provider secret : string) : io D (option vaultError) :=
  if negb (allowedProvider provider) then io_ret (Some ErrInvalidProvider)
  else match validateSecret secret with
  | inl err => io_ret (Some err)
  | inr clean =>
      r <- current (readFile ce) ;;
      match r with
      | None => io_ret (Some ErrVaultLocked)
      | Some (entries, _) =>
          match loadKey ce with
          | inl err => io_ret (Some err)
          | inr key =>
              if negb (authenticateEntries key entries) then io_ret (Some ErrVaultLocked)
              else match encrypt key provider clean (ce_random ce) with
              | inl err => io_ret (Some err)
              | inr entry =>
                  let entry := mkEntry (en_Nonce entry) (en_Ciphertext entry)
                                 (wrapU64 (revisionOf entries provider + 1)) (formatTime (ce_now ce)) in
                  writeEntries ce (<[provider := entry]> entries)
              end
          end
      end
  end.

Definition Delete (ce : callEnv) (provider : string) : io D (option vaultError) :=
  if negb (allowedProvider provider) then io_ret (Some ErrInvalidProvider)
  else
    r <- current (readFile ce) ;;
    match r with
    | None => io_ret (Some ErrVaultLocked)
    | Some (entries, exists_) =>
        if negb exists_ then io_ret None
        else match loadKey ce with
        | inl err => io_ret (Some err)
        | inr key =>
            if negb (authenticateEntries key entries) then io_ret (Some ErrVaultLocked)
            else match entries !! provider with
                 | None => io_ret None
                 | Some _ => writeEntries ce (delete provider entries)
                 end
        end
    end.

(** ** Status *)

Record Snapshot := mkVaultSnapshot {
  vs_Backend : string;
  vs_Available : bool;
  vs_Locked : bool;
  vs_Providers : list (string * bool);
}.

Definition providerStatuses (entries : gmap string encryptedEntry) : list (string * bool) :=
  (fun provider => (provider, bool_decide (is_Some (entries !! provider)))) <$> allProviders.

Definition isRight {A B} (x : A + B) : bool := match x with inr _ => true | inl _ => false end.

Definition Status (backend : string) (ce : callEnv) (d : disk D) : Snapshot :=
  let none := providerStatuses ∅ in
  match readFile ce d with
  | None => mkVaultSnapshot backend false true none
  | Some (entries, exists_) =>
      if negb exists_ then mkVaultSnapshot backend (isRight (loadKey ce)) (negb (isRight (loadKey ce))) none
      else match loadKey ce with
           | inl _ => mkVaultSnapshot backend false true none
           | inr key => if authenticateEntries key entries then mkVaultSnapshot backend true false (providerStatuses entries)
                        else mkVaultSnapshot backend false true none
           end
  end.

(** ** The vault as a map of secrets *)

(** What a key opens of what is found: every secret, or nothing. *)
Definition secretsOf (key : string) (entries : gmap string encryptedEntry) : gmap string string := map_imap (decrypt key) entries.

Definition viewOf (key : string) (found : option (option D)) : option (gmap string string) :=
  match entriesOf found with
  | Some (entries, _) => if authenticateEntries key entries then Some (secretsOf key entries) else None
  | None => None
  end.

Inductive vaultOp := OpSet (secret : string) | OpDelete.

Definition runVault (ce : callEnv) (op : vaultOp) (provider : string) : io D (option vaultError) :=
  match op with OpSet secret => Set_ ce provider secret | OpDelete => Delete ce provider end.

(** The specification: a map from provider to secret. *)
Definition applyOp (op : vaultOp) (provider : string) (m : gmap string string) : gmap string string :=
  match op with OpSet secret => <[provider := TrimSpace secret]> m | OpDelete => delete provider m end.

Lemma entriesOf_marshal entries :
  map_Forall (fun provider entry => validEntry provider entry = true) entries ->
  entriesOf (Some (Some (marshalVault (mkVaultFile vaultVersion (Some entries))))) = Some (entries, true).
Proof. intros Hv. unfold entriesOf. simpl. rewrite vault_roundtrip. simpl. by rewrite bool_decide_true. Qed.

Lemma entriesOf_valid found entries ex :
  entriesOf found = Some (entries, ex) -> map_Forall (fun provider entry => validEntry provider entry = true) entries.
Proof.
  unfold entriesOf. destruct found as [[data|]|]; simpl; [|done|intros [= <- _]; apply map_Forall_empty].
  destruct (unmarshalVault data) as [file|]; simpl; [|done]. destruct (vf_Entries file) as [es|]; simpl; [|done].
  destruct (negb _); [done|]. case_bool_decide; [|done]. by intros [= <- _].
Qed.

Lemma decrypt_fresh key provider plaintext nonce revision stamp :
  String.length key = 32%nat -> String.length nonce = nonceSize ->
  decrypt key provider (mkEntry nonce (gcmSeal key nonce plaintext (additionalData provider)) revision stamp) = Some plaintext.
Proof.
  intros Hk Hn. unfold decrypt. simpl. rewrite Hk, Hn, gcm_length. simpl.
  destruct (Nat.ltb_spec (String.length plaintext + overhead) overhead); [lia|]. apply gcm_open_seal.
Qed.

Lemma viewOf_written key entries :
  map_Forall (fun provider entry => validEntry provider entry = true) entries ->
  map_Forall (fun provider entry => is_Some (decrypt key provider entry)) entries ->
  viewOf key (Some (Some (marshalVault (mkVaultFile vaultVersion (Some entries))))) = Some (secretsOf key entries).
Proof. intros Hv Ha. unfold viewOf. rewrite entriesOf_marshal by done. unfold authenticateEntries. by rewrite bool_decide_true. Qed.

Lemma secretsOf_insert key entries provider entry plaintext :
  decrypt key provider entry = Some plaintext -> secretsOf key (<[provider := entry]> entries) = <[provider := plaintext]> (secretsOf key entries).
Proof. intros Hd. unfold secretsOf. apply map_imap_insert_Some. done. Qed.

Lemma secretsOf_delete key entries provider : secretsOf key (delete provider entries) = delete provider (secretsOf key entries).
Proof. apply map_imap_delete. Qed.

(** What a run that ends in a write may do to the secrets. *)
Definition refines (key : string) (ce : callEnv) (m m' : gmap string string) (r : option vaultError * (disk D * list (disk D))) : Prop :=
  (forall h found, h ∈ r.2.1 :: r.2.2 -> afterCrash h path found -> viewOf key found = Some m \/ viewOf key found = Some m') /\
  (r.1 = None -> viewOf key (readDisk r.2.1 path) = Some m') /\
  (r.1 <> None -> viewOf key (readDisk r.2.1 path) = Some m \/
                  (ce_ok ce SyncDir = false /\ viewOf key (readDisk r.2.1 path) = Some m')).

Lemma settled_found content (d : disk D) found : settled path content d -> afterCrash d path found -> found = content.
Proof. intros (_ & _ & Hf)%settled_synced. apply Hf. Qed.

(** A run that writes nothing. *)
Lemma refines_stop key ce m m' content d err :
  settled path content d -> viewOf key content = Some m -> readDisk d path = content -> (err = None -> m' = m) ->
  refines key ce m m' (err, (d, [])).
Proof.
  intros Hs Hv Hr He. split_and!; simpl.
  - intros h found Hh%list_elem_of_singleton Hf. subst h. left. by rewrite (settled_found _ _ _ Hs Hf).
  - intros E. by rewrite Hr, Hv, He.
  - intros _. left. by rewrite Hr.
Qed.

Lemma refines_write key ce m entries content d :
  settled path content d -> ce_tmp ce <> path -> viewOf key content = Some m ->
  map_Forall (fun provider entry => validEntry provider entry = true) entries ->
  map_Forall (fun provider entry => is_Some (decrypt key provider entry)) entries ->
  refines key ce m (secretsOf key entries) (writeEntries ce entries (d, [])).
Proof.
  intros Hs Hne Hv Hval Hau. pose proof (viewOf_written key entries Hval Hau) as Hw.
  destruct (writeFile_spec (ce_ok ce) path (ce_tmp ce) (marshalVault (mkVaultFile vaultVersion (Some entries))) content d Hs Hne) as [Ht Hr].
  unfold writeEntries, io_bind. unfold neverTorn in Ht. destruct (writeFile _ _ _ _ _) as [x [d' log]]. simpl in *. split_and!; simpl.
  - intros h found Hh Hf. destruct (Ht h found Hh Hf) as [->| ->]; auto.
  - destruct x; [|done]. intros _. by rewrite Hr.
  - destruct x; [done|]. intros _. destruct Hr as [->|[? ->]]; auto.
Qed.

Lemma authenticate_spec key entries :
  authenticateEntries key entries = true <-> map_Forall (fun provider entry => is_Some (decrypt key provider entry)) entries.
Proof. apply bool_decide_eq_true. Qed.

Lemma validateSecret_clean secret clean : validateSecret secret = inr clean -> clean = TrimSpace secret.
Proof. unfold validateSecret. destruct (_ || _); [done|]. congruence. Qed.
End vault.

(** A call that can reach the key, with whole nonces. *)
Definition unlocked (ce : callEnv) (key : string) : Prop :=
  ce_readError ce = false /\ ce_cancelled ce = false /\ ce_key ce = Some key /\ String.length key = 32%nat /\
  forall nonce, ce_random ce = Some nonce -> String.length nonce = nonceSize.

Lemma unlocked_loadKey ce key : unlocked ce key -> loadKey ce = inr key.
Proof. intros (_ & Hc & Hk & Hl & _). unfold loadKey. rewrite Hc, Hk, Hl. done. Qed.

(** No revision of the file is about to wrap around. *)
Definition revisionsBelow `{VaultCrypto D} (found : option (option D)) : Prop :=
  forall entries ex, entriesOf found = Some (entries, ex) -> map_Forall (fun _ entry => 0 <= en_Revision entry < two64 - 1) entries.

Section refinement.
Context `{VaultCrypto D} (path : string).

Lemma validEntry_fresh provider nonce text revision t :
  allowedProvider provider = true -> 0 <= revision < two64 - 1 ->
  validEntry provider (mkEntry nonce text (wrapU64 (revision + 1)) (formatTime t)) = true.
Proof.
  intros Ha Hr. unfold validEntry. simpl. rewrite Ha, time_roundtrip. unfold wrapU64. rewrite Z.mod_small by (unfold two64 in *; lia).
  destruct (Z.eqb_spec (revision + 1) 0); [lia|done].
Qed.

Lemma Set_refines ce key provider secret d m :
  unlocked ce key -> ce_tmp ce <> path -> settled path (readDisk d path) d ->
  viewOf key (readDisk d path) = Some m -> revisionsBelow (readDisk d path) ->
  refines path key ce m (<[provider := TrimSpace secret]> m) (Set_ path ce provider secret (d, [])).
Proof.
  intros Hun Hne Hs Hv Hrev. pose proof (unlocked_loadKey _ _ Hun) as Hkey. destruct Hun as (Hre & _ & _ & Hlen & Hnonce). unfold Set_.
  assert (Hstop : forall err, refines path key ce m (<[provider := TrimSpace secret]> m) (Some err, (d, []))) by (intros; by eapply refines_stop).
  destruct (allowedProvider provider) eqn:Ea; simpl; [|apply Hstop]. destruct (validateSecret secret) as [err|clean] eqn:Ec; [apply Hstop|].
  apply validateSecret_clean in Ec as ->. unfold io_bind, current, readFile. simpl. rewrite Hre.
  pose proof Hv as Hv'. unfold viewOf in Hv'. destruct (entriesOf (readDisk d path)) as [[entries ex]|] eqn:Ee; [|done].
  rewrite Hkey. destruct (authenticateEntries key entries) eqn:Eau; [|done]. injection Hv' as Hm. simpl. unfold encrypt. rewrite Hlen. simpl.
  destruct (ce_random ce) as [nonce|]; [|apply Hstop]. simpl.
  pose proof (decrypt_fresh key provider (TrimSpace secret) nonce (wrapU64 (revisionOf entries provider + 1)) (formatTime (ce_now ce)) Hlen (Hnonce _ eq_refl)) as Hd.
  rewrite <- Hm at 2. rewrite <- (secretsOf_insert key entries provider _ _ Hd). apply (refines_write path key ce m _ (readDisk d path)); [done|done|done| |].
  - apply map_Forall_insert_2; [|by eapply entriesOf_valid]. apply validEntry_fresh; [done|]. unfold revisionOf.
    destruct (entries !! provider) as [e|] eqn:El; [by eapply (Hrev entries ex Ee)|by vm_compute].
  - apply map_Forall_insert_2; [by rewrite Hd|by apply authenticate_spec].
Qed.

Lemma entriesOf_missing found entries : entriesOf found = Some (entries, false) -> entries = ∅.
Proof.
  unfold entriesOf. destruct found as [[data|]|]; simpl; [|done|congruence]. destruct (unmarshalVault data) as [file|]; simpl; [|done].
  destruct (vf_Entries file); simpl; [|done]. by repeat case_match.
Qed.

Lemma Delete_refines ce key provider d m :
  unlocked ce key -> ce_tmp ce <> path -> settled path (readDisk d path) d -> viewOf key (readDisk d path) = Some m ->
  refines path key ce m (delete provider m) (Delete path ce provider (d, [])).
Proof.
  intros Hun Hne Hs Hv. pose proof (unlocked_loadKey _ _ Hun) as Hkey. destruct Hun as (Hre & _ & _ & Hlen & Hnonce). unfold Delete.
  destruct (allowedProvider provider) eqn:Ea; simpl; [|by eapply refines_stop]. unfold io_bind, current, readFile. simpl. rewrite Hre.
  pose proof Hv as Hv'. unfold viewOf in Hv'. destruct (entriesOf (readDisk d path)) as [[entries ex]|] eqn:Ee; [|done].
  destruct (authenticateEntries key entries) eqn:Eau; [|done]. injection Hv' as Hm.
  assert (Hnone : entries !! provider = None -> delete provider m = m).
  { intros El. rewrite <- Hm, <- secretsOf_delete. by rewrite delete_id. }
  destruct ex; simpl.
  - rewrite Hkey, Eau. simpl. destruct (entries !! provider) as [e|] eqn:El; [|eapply refines_stop; eauto].
    rewrite <- Hm at 2. rewrite <- secretsOf_delete. apply (refines_write path key ce m _ (readDisk d path)); [done|done|done| |].
    + apply map_Forall_delete. by eapply entriesOf_valid.
    + apply map_Forall_delete. by apply authenticate_spec.
  - eapply refines_stop; [done|done|done|]. intros _. apply Hnone. apply entriesOf_missing in Ee. by subst entries.
Qed.
Lemma Get_view ce key provider d m :
  unlocked ce key -> viewOf key (readDisk d path) = Some m -> allowedProvider provider = true -> Get path ce provider d = inr (m !! provider).
Proof.
  intros Hun Hv Ha. unfold Get. rewrite Ha. simpl. unfold readFile. rewrite (proj1 Hun). unfold viewOf in Hv.
  destruct (entriesOf (readDisk d path)) as [[entries ex]|] eqn:Ee; [|done]. destruct (authenticateEntries key entries) eqn:Eau; [|done].
  injection Hv as <-. unfold secretsOf. rewrite map_lookup_imap. apply authenticate_spec in Eau. destruct ex; simpl.
  - destruct (entries !! provider) as [e|] eqn:El; simpl; [|done]. rewrite (unlocked_loadKey _ _ Hun). by destruct (Eau _ _ El) as [t ->].
  - apply entriesOf_missing in Ee. by subst entries.
Qed.

Lemma Set_allowed ce provider secret d : (Set_ path ce provider secret (d, [])).1 = None -> allowedProvider provider = true.
Proof. unfold Set_. by destruct (allowedProvider provider). Qed.
End refinement.


(** A vault is written only after all of it was authenticated.  Under a
    wrong or missing key, with a file that does not decode or with one entry
    that was tampered with, neither operation touches the disk; and what [Get]
    returns was authenticated under the loaded key for that provider. *)
Theorem only_authenticated_vaults_are_written `{VaultCrypto D} path ce op provider d :
  ((runVault path ce op provider (d, [])).2 = (d, []) \/
   exists key entries ex, loadKey ce = inr key /\ readFile path ce d = Some (entries, ex) /\ authenticateEntries key entries = true /\
     allowedProvider provider = true) /\
  match Get path ce provider d with
  | inr (Some plaintext) => exists key entries entry, loadKey ce = inr key /\ readFile path ce d = Some (entries, true) /\
      entries !! provider = Some entry /\ decrypt key provider entry = Some plaintext
  | _ => True
  end.
Proof.
  split.
  - unfold runVault. destruct op as [secret|]; unfold Set_, Delete, io_bind, current; (destruct (allowedProvider provider); simpl; [|by left]).
    + destruct (validateSecret secret) as [|clean]; [by left|]. simpl. destruct (readFile path ce d) as [[entries ex]|]; [|by left].
      destruct (loadKey ce) as [|key]; [by left|]. destruct (authenticateEntries key entries) eqn:E; [|by left]. right. by exists key, entries, ex.
    + destruct (readFile path ce d) as [[entries ex]|]; [|by left]. destruct ex; simpl; [|by left].
      destruct (loadKey ce) as [|key]; [by left|]. destruct (authenticateEntries key entries) eqn:E; [|by left]. right. by exists key, entries, true.
  - unfold Get. destruct (allowedProvider provider); simpl; [|done]. destruct (readFile path ce d) as [[entries ex]|]; [|done].
    destruct ex; simpl; [|done]. destruct (entries !! provider) as [entry|] eqn:El; [|done]. destruct (loadKey ce) as [|key]; [done|].
    destruct (decrypt key provider entry) as [t|] eqn:Ed; [|done]. by exists key, entries, entry.
Qed.

(** ** A cipher to run the model with

    The tag is the head of the key; the file is its own encoding. *)

Definition demoTag (key : string) : string := String.substring 0 overhead (key +:+ "0123456789abcdef").

Definition demoOpen (key text : string) : option string :=
  let plain := String.substring 0 (String.length text - overhead) text in
  if str_eq text (plain +:+ demoTag key) then Some plain else None.

Lemma substring_prefix s t : String.substring 0 (String.length s) (s +:+ t) = s.
Proof. induction s as [|c s IH]; simpl; [by destruct t|]. f_equal. exact IH. Qed.

Lemma substring_length n s : String.length (String.substring 0 n s) = Nat.min n (String.length s).
Proof. revert s. induction n as [|n IH]; intros [|c s]; simpl; try done. by rewrite IH. Qed.

Lemma demoTag_length key : String.length (demoTag key) = overhead.
Proof. unfold demoTag. rewrite substring_length, strlen_app. change (String.length "0123456789abcdef") with 16%nat. unfold overhead. lia. Qed.

Lemma demoOpen_seal key text : demoOpen key (text +:+ demoTag key) = Some text.
Proof. unfold demoOpen. rewrite strlen_app, demoTag_length, Nat.add_sub, substring_prefix. unfold str_eq. by rewrite bool_decide_true. Qed.

Lemma demoSeal_length key text : String.length (text +:+ demoTag key) = (String.length text + overhead)%nat.
Proof. by rewrite strlen_app, demoTag_length. Qed.

#[export] Instance demoCrypto : VaultCrypto vaultFile := {
  gcmSeal key _ text _ := text +:+ demoTag key;
  gcmOpen key _ text _ := demoOpen key text;
  marshalVault file := file;
  unmarshalVault file := Some file;
  validTime stamp := str_eq stamp "now";
  formatTime _ := "now";
  gcm_open_seal key _ text _ := demoOpen_seal key text;
  gcm_length key _ text _ := demoSeal_length key text;
  vault_roundtrip file := eq_refl;
  time_roundtrip t := eq_refl;
}.

Definition demoKey : string := "0123456789abcdef0123456789abcdef".
Definition demoCall : callEnv := mkCallEnv false (Some demoKey) false (Some "123456789012") 0 (fun _ => true) ".vault-1.tmp".

(** No vault yet. *)
Definition noVault : disk vaultFile := mkDisk ∅ ∅ [] Missing.

