(* ===== verification/Credentials.v ===== *)
(** * Credentials: managed provider keys (cmd/provider_credentials.go, cmd/keystore.go)

    The clients of the secret store: start-up with the migration of the old
    login key, login, logout and the lookups of the request path.  They are
    written against the class [SecretStore], the interface of
    secretstore/types.go with what a caller relies on; the vault is an
    instance. *)

From S2P Require Import Prelude Env Text Files Vault.
From Stdlib Require Import Lia ZArith Ascii String.
#[local] Open Scope string_scope.
#[local] Open Scope Z_scope.

(** [usable ce w]: the store can be opened in this call; [sameKey] relates
    calls that reach the same master key.  A key that was stored is read back
    trimmed, and no other key changes. *)
Class SecretStore (W : Type) := {
  store_Get : callEnv -> string -> W -> vaultError + option string;
  store_Set : callEnv -> string -> string -> W -> W * option vaultError;
  store_Delete : callEnv -> string -> W -> W * option vaultError;
  store_Status : callEnv -> W -> Snapshot;
  usable : callEnv -> W -> Prop;
  sameKey : callEnv -> callEnv -> Prop;
  get_after_set : forall ce ce' provider secret w w',
    usable ce w -> sameKey ce ce' -> store_Set ce provider secret w = (w', None) ->
    store_Get ce' provider w' = inr (Some (TrimSpace secret));
  get_after_set_other : forall ce ce' provider other secret w w',
    usable ce w -> sameKey ce ce' -> store_Set ce provider secret w = (w', None) ->
    allowedProvider other = true -> other <> provider -> store_Get ce' other w' = store_Get ce' other w;
  get_after_delete : forall ce ce' provider w w',
    usable ce w -> sameKey ce ce' -> store_Delete ce provider w = (w', None) -> allowedProvider provider = true ->
    store_Get ce' provider w' = inr None;
}.

(** ** Paths and the login key file *)

Definition vaultFilePath (env : environ) (configDir : option string) (join : list string -> string) : string :=
  let path := TrimSpace (Getenv env "PROXY_VAULT_FILE") in
  if negb (empty_str path) then path
  else match configDir with
       | Some dir => if empty_str (TrimSpace dir) then "" else join [dir; "calvoproxy"; "providers.vault"]
       | None => ""
       end.

Definition keyFilePath (env : environ) (configDir : option string) (join : list string -> string) : string :=
  let path := TrimSpace (Getenv env "PROXY_KEY_FILE") in
  if negb (empty_str path) then path
  else match configDir with
       | Some dir => if empty_str (TrimSpace dir) then "" else join [dir; "calvoproxy"; "openrouter.key"]
       | None => ""
       end.

(** The file is [None] when it is missing or cannot be read. *)
Definition storedAPIKey (path : string) (file : option string) : string :=
  if empty_str path then "" else match file with Some data => TrimSpace data | None => "" end.

(** [removed] is whether the file could be removed; [true] is a nil error. *)
Definition deleteAPIKey (path : string) (removed : bool) (file : option string) : option string * bool :=
  if empty_str path then (file, true)
  else match file with
       | None => (None, true)
       | Some data => if removed then (None, true) else (Some data, false)
       end.

Definition maskKey (k : string) : string :=
  let k := TrimSpace k in
  if (String.length k <=? 12)%nat then "****"
  else String.substring 0 8 k +:+ string_of_list_ascii [byte 226; byte 128; byte 166] +:+ String.substring (String.length k - 4) 4 k.

Definition looksLikeOpenRouterKey (k : string) : bool :=
  HasPrefix (TrimSpace k) "sk-or-" && (20 <=? String.length (TrimSpace k))%nat.

Definition providerFromName (provider : string) : option string :=
  let name := ToLower (TrimSpace provider) in
  if allowedProvider name then Some name else None.

Section clients.
Context `{SecretStore W}.

(** ** Lookups *)

(** [None]: no managed store. *)
Definition managedProviderCredential (ce : callEnv) (store : option W) (provider : string) : option string :=
  match store with
  | None => None
  | Some w => match store_Get ce provider w with inr found => found | inl _ => None end
  end.

Definition managedProviderCredentialByName (ce : callEnv) (store : option W) (provider : string) : option string :=
  match providerFromName provider with
  | None => None
  | Some id => managedProviderCredential ce store id
  end.

Definition managedProviderConfigured (ce : callEnv) (store : option W) (provider : string) : bool :=
  bool_decide (is_Some (managedProviderCredential ce store provider)).

(** ** Migration *)

(** The store and the login key file. *)
Definition migrateLegacyOpenRouterKey (keyPath : string) (ce1 ce2 ce3 : callEnv) (removed : bool) (s : W * option string) : W * option string :=
  let '(w, file) := s in
  let legacy := storedAPIKey keyPath file in
  if empty_str legacy then s
  else
    let finish w := (w, (deleteAPIKey keyPath removed file).1) in
    match store_Get ce1 ProviderOpenRouter w with
    | inl _ => s
    | inr (Some current) => if str_eq current legacy then finish w else s
    | inr None =>
        match store_Set ce2 ProviderOpenRouter legacy w with
        | (w, Some _) => (w, file)
        | (w, None) =>
            match store_Get ce3 ProviderOpenRouter w with
            | inr (Some verified) => if str_eq verified legacy then finish w else (w, file)
            | _ => (w, file)
            end
        end
    end.

(** [None] without a safe path. *)
Definition initializeManagedCredentials (vaultPath keyPath : string) (ce0 ce1 ce2 ce3 : callEnv) (removed : bool) (s : W * option string) : option (W * option string) :=
  if empty_str vaultPath then None
  else if vs_Locked (store_Status ce0 s.1) then Some s
  else Some (migrateLegacyOpenRouterKey keyPath ce1 ce2 ce3 removed s).

(** ** Login and logout; [true] is a nil error *)

Definition storeManagedOpenRouterKey (vaultPath keyPath : string) (ce0 ce1 ce2 ce3 ce4 ce5 : callEnv) (removed : bool) (key : string) (s : W * option string) : (W * option string) * bool :=
  let key := TrimSpace key in
  if empty_str key then (s, false)
  else match initializeManagedCredentials vaultPath keyPath ce0 ce1 ce2 ce3 removed s with
       | None => (s, false)
       | Some (w, file) =>
           match store_Set ce4 ProviderOpenRouter key w with
           | (w, Some _) => ((w, file), false)
           | (w, None) =>
               match store_Get ce5 ProviderOpenRouter w with
               | inr (Some stored) => ((w, file), str_eq stored key)
               | _ => ((w, file), false)
               end
           end
       end.

Definition deleteManagedOpenRouterKey (vaultPath keyPath : string) (ce0 ce1 ce2 ce3 ce4 : callEnv) (removed : bool) (s : W * option string) : (W * option string) * bool :=
  match initializeManagedCredentials vaultPath keyPath ce0 ce1 ce2 ce3 removed s with
  | None => (s, false)
  | Some (w, file) =>
      let '(w, err) := store_Delete ce4 ProviderOpenRouter w in
      ((w, file), match err with None => true | Some _ => false end)
  end.
End clients.

(** ** A store in memory, which the interface also describes *)

Definition memoryStore : SecretStore (gmap string string).
Proof.
  refine {|
    store_Get := fun _ provider w => inr (w !! provider);
    store_Set := fun _ provider secret w => (<[provider := TrimSpace secret]> w, None);
    store_Delete := fun _ provider w => (delete provider w, None);
    store_Status := fun _ w => mkVaultSnapshot "memory" true false [];
    usable := fun _ _ => True;
    sameKey := fun _ _ => True |}.
  - intros; simplify_eq. by rewrite lookup_insert_eq.
  - intros; simplify_eq. by rewrite lookup_insert_ne by congruence.
  - intros; simplify_eq. by rewrite lookup_delete_eq.
Defined.

(** ** Theorems about every store *)

(** A login key is never lost by the migration.  Whatever the store
    answers at each call, the key file is left as it was, or it is gone and
    the store has just been read to hold exactly that key; and a different
    key already in the store is neither overwritten nor does it cost the
    file. *)
Theorem migration_keeps_the_key `{SecretStore W} keyPath ce1 ce2 ce3 removed w file :
  let '(w', file') := migrateLegacyOpenRouterKey keyPath ce1 ce2 ce3 removed (w, file) in
  (file' = file \/ (file' = None /\ exists ce, store_Get ce ProviderOpenRouter w' = inr (Some (storedAPIKey keyPath file)))) /\
  (forall current, store_Get ce1 ProviderOpenRouter w = inr (Some current) -> current <> storedAPIKey keyPath file -> w' = w /\ file' = file).
Proof.
  unfold migrateLegacyOpenRouterKey. assert (Hdel : (deleteAPIKey keyPath removed file).1 = file \/ (deleteAPIKey keyPath removed file).1 = None).
  { unfold deleteAPIKey. repeat case_match; auto. }
  destruct (empty_str (storedAPIKey keyPath file)); [by split; [left|]|].
  destruct (store_Get ce1 ProviderOpenRouter w) as [err|[current|]] eqn:E1; [by split; [left|]| |].
  - destruct (str_eq current (storedAPIKey keyPath file)) eqn:Eq; [apply str_eq_spec in Eq as ->|].
    + split; [destruct Hdel; [by left|right; by eauto]|]. by intros ? [= <-].
    + by split; [left|].
  - destruct (store_Set ce2 ProviderOpenRouter (storedAPIKey keyPath file) w) as [w1 [err|]]; [by split; [left|]|].
    destruct (store_Get ce3 ProviderOpenRouter w1) as [err|[verified|]] eqn:E3; [by split; [left|]| |by split; [left|]].
    destruct (str_eq verified (storedAPIKey keyPath file)) eqn:Eq; [apply str_eq_spec in Eq as ->|by split; [left|]].
    split; [destruct Hdel; [by left|right; by eauto]|done].
Qed.

Lemma storedAPIKey_trim path file : TrimSpace (storedAPIKey path file) = storedAPIKey path file.
Proof. unfold storedAPIKey. destruct (empty_str path); [done|]. destruct file; [apply TrimSpace_idemp|done]. Qed.

(** A migration whose calls succeed ends: the key is in the store, and its
    file is gone when it can be removed. *)
Theorem migration_completes `{SecretStore W} keyPath ce1 ce2 ce3 w file w1 :
  keyPath <> "" -> storedAPIKey keyPath file <> "" -> usable ce2 w -> sameKey ce2 ce3 ->
  store_Get ce1 ProviderOpenRouter w = inr None -> store_Set ce2 ProviderOpenRouter (storedAPIKey keyPath file) w = (w1, None) ->
  migrateLegacyOpenRouterKey keyPath ce1 ce2 ce3 true (w, file) = (w1, None) /\
  store_Get ce3 ProviderOpenRouter w1 = inr (Some (storedAPIKey keyPath file)).
Proof.
  intros Hp Hk Hu Hsame Hg Hset. pose proof (get_after_set _ _ _ _ _ _ Hu Hsame Hset) as Hget. rewrite storedAPIKey_trim in Hget.
  split; [|done]. unfold migrateLegacyOpenRouterKey. destruct (empty_str (storedAPIKey keyPath file)) eqn:E; [by apply empty_str_spec in E|].
  rewrite Hg, Hset, Hget. unfold str_eq. rewrite bool_decide_true by done. f_equal. unfold deleteAPIKey.
  destruct (empty_str keyPath) eqn:E'; [by apply empty_str_spec in E'|]. by destruct file.
Qed.

(** A login reports success exactly when the key it was given can be read
    back, and a store that accepted the key never fails the check. *)
Theorem login_stores_the_key `{SecretStore W} vaultPath keyPath ce0 ce1 ce2 ce3 ce4 ce5 removed key s :
  let '((w', _), ok) := storeManagedOpenRouterKey vaultPath keyPath ce0 ce1 ce2 ce3 ce4 ce5 removed key s in
  (ok = true -> store_Get ce5 ProviderOpenRouter w' = inr (Some (TrimSpace key))) /\
  (forall w file, initializeManagedCredentials vaultPath keyPath ce0 ce1 ce2 ce3 removed s = Some (w, file) ->
     TrimSpace key <> "" -> usable ce4 w -> sameKey ce4 ce5 -> (store_Set ce4 ProviderOpenRouter (TrimSpace key) w).2 = None -> ok = true).
Proof.
  unfold storeManagedOpenRouterKey. destruct (empty_str (TrimSpace key)) eqn:Ek.
  { apply empty_str_spec in Ek. by destruct s. }
  destruct (initializeManagedCredentials _ _ _ _ _ _ _ s) as [[w file]|]; [|by destruct s].
  destruct (store_Set ce4 ProviderOpenRouter (TrimSpace key) w) as [w1 [err|]] eqn:Es.
  { split; [done|]. intros w2 file2 [= <- <-] _ _ _ Hs. by rewrite Es in Hs. }
  destruct (store_Get ce5 ProviderOpenRouter w1) as [err|[stored|]] eqn:Eg; (split; [try done|]).
  - intros w2 file2 [= <- <-] _ Hu Hsame _. rewrite (get_after_set _ _ _ _ _ _ Hu Hsame Es) in Eg. done.
  - intros Hq%str_eq_spec. by rewrite <- Hq.
  - intros w2 file2 [= <- <-] _ Hu Hsame _. rewrite (get_after_set _ _ _ _ _ _ Hu Hsame Es), TrimSpace_idemp in Eg.
    injection Eg as <-. by apply str_eq_spec.
  - intros w2 file2 [= <- <-] _ Hu Hsame _. by rewrite (get_after_set _ _ _ _ _ _ Hu Hsame Es) in Eg.
Qed.

(** ** The vault is such a store *)

Section vault_store.
Context `{VaultCrypto D} (path backend : string).

Definition vaultUsable (ce : callEnv) (d : disk D) : Prop :=
  exists key m, unlocked ce key /\ ce_tmp ce <> path /\ settled path (readDisk d path) d /\
    viewOf key (readDisk d path) = Some m /\ revisionsBelow (readDisk d path).

Definition vaultSameKey (ce ce' : callEnv) : Prop := exists key, unlocked ce key /\ unlocked ce' key.

Definition vaultRun (ce : callEnv) (op : vaultOp) (provider : string) (d : disk D) : disk D * option vaultError :=
  let '(err, (d', _)) := runVault path ce op provider (d, []) in (d', err).

(** After a run that reports success the other calls see the new map. *)
Lemma vaultRun_view ce ce' op provider d d' :
  vaultUsable ce d -> vaultSameKey ce ce' -> vaultRun ce op provider d = (d', None) ->
  exists key m, unlocked ce' key /\ viewOf key (readDisk d path) = Some m /\ viewOf key (readDisk d' path) = Some (applyOp op provider m).
Proof.
  intros (key & m & Hun & Hne & Hs & Hv & Hrev) (key' & Hu & Hu') Hrun.
  assert (key' = key) as -> by (destruct Hun as (_ & _ & Hk & _), Hu as (_ & _ & Hk' & _); congruence).
  exists key, m. split_and!; [done|done|].
  assert (Hr : refines path key ce m (applyOp op provider m) (runVault path ce op provider (d, []))).
  { destruct op as [secret|]; [by apply Set_refines|by apply Delete_refines]. }
  unfold vaultRun in Hrun. destruct (runVault path ce op provider (d, [])) as [err [d1 log]]. injection Hrun as -> ->. by apply Hr.
Qed.

#[export] Instance vaultStore : SecretStore (disk D).
Proof.
  refine {|
    store_Get := Get path;
    store_Set ce provider secret := vaultRun ce (OpSet secret) provider;
    store_Delete ce provider := vaultRun ce OpDelete provider;
    store_Status := Status path backend;
    usable := vaultUsable;
    sameKey := vaultSameKey;
  |}.
  - intros ce ce' provider secret w w' Hu Hk Hset. destruct (vaultRun_view _ _ _ _ _ _ Hu Hk Hset) as (key & m & Hun & _ & Hv).
    rewrite (Get_view path ce' key provider w' _ Hun Hv); [simpl; by rewrite lookup_insert_eq|].
    unfold vaultRun in Hset. simpl in Hset. destruct (Set_ path ce provider secret (w, [])) as [err [d1 log]] eqn:E. injection Hset as -> ->.
    apply (Set_allowed path ce provider secret w). by rewrite E.
  - intros ce ce' provider other secret w w' Hu Hk Hset Ha Hne. destruct (vaultRun_view _ _ _ _ _ _ Hu Hk Hset) as (key & m & Hun & Hv0 & Hv).
    rewrite (Get_view path ce' key other w' _ Hun Hv Ha), (Get_view path ce' key other w _ Hun Hv0 Ha). simpl. by rewrite lookup_insert_ne.
  - intros ce ce' provider w w' Hu Hk Hdel Ha. destruct (vaultRun_view _ _ _ _ _ _ Hu Hk Hdel) as (key & m & Hun & _ & Hv).
    rewrite (Get_view path ce' key provider w' _ Hun Hv Ha). simpl. by rewrite lookup_delete_eq.
Defined.
End vault_store.
