(* ===== verification/ModelPolicy.v ===== *)
(** * ModelPolicy: profiles, aliases and their sources (router_policy_model.go)

    The model policy of the service: how a configuration is cleaned, how a
    request selects a profile and a chain of models in it, where a
    configuration is read from and in which order the sources win, and how a
    running service swaps in a new one.  Cleaning and selection are the
    vendored package cervo-model-policy (policy.go, validation.go, config.go),
    which the planner of [Planner] takes as arguments.

    Go visits a map in an order of its own choice, a [MapRange] of the
    prelude; every theorem holds for each of them.  Decoding JSON and the
    environment loader of cervo-config are the fields of [Decoders]. *)

From S2P Require Import Prelude Float Types Env Text Breaker Scoring Quota Registry Health Eligibility Planner Request.
From Stdlib Require Import Lia ZArith Ascii String.
#[local] Open Scope string_scope.
#[local] Open Scope Z_scope.

(** ** Configurations (vendor/.../policy.go) *)

Record Config := mkConfig {
  mc_DefaultProfile : string;
  mc_Profiles : gmap string (list string);
  mc_Aliases : gmap string string;
}.

Definition cleanName (s : string) : string := ToLower (TrimSpace s).

Definition cleanChain (chain : list string) : list string :=
  List.filter (fun m => negb (empty_str m)) (TrimSpace <$> chain).

Definition addCleanProfile (profiles : gmap string (list string)) (entry : string * list string) : gmap string (list string) :=
  let trimmed := cleanName entry.1 in
  if empty_str trimmed then profiles
  else match cleanChain entry.2 with
       | [] => profiles
       | chain => <[trimmed := chain]> profiles
       end.

Definition addCleanAlias (profiles : gmap string (list string)) (aliases : gmap string string) (entry : string * string) : gmap string string :=
  let alias := cleanName entry.1 in
  let profile := cleanName entry.2 in
  if empty_str alias || empty_str profile then aliases
  else match profiles !! profile with
       | Some _ => <[alias := profile]> aliases
       | None => aliases
       end.

Definition DefaultConfig : Config :=
  mkConfig "default" {["default" := ["auto"]]} {["default" := "default"]}.

Section model_policy.
Context `{MapRange}.

Definition cleanProfiles (raw : gmap string (list string)) : gmap string (list string) :=
  fold_left addCleanProfile (range_of raw) ∅.

(** The profiles and the default profile before the aliases are cleaned. *)
Definition usableProfiles (cfg : Config) : string * gmap string (list string) :=
  let def := cleanName (if empty_str (TrimSpace (mc_DefaultProfile cfg)) then "default" else mc_DefaultProfile cfg) in
  let profiles := cleanProfiles (mc_Profiles cfg) in
  if bool_decide (profiles = ∅)
  then (match mc_Profiles DefaultConfig !! def with
        | Some _ => def
        | None => mc_DefaultProfile DefaultConfig
        end, mc_Profiles DefaultConfig)
  else (def, profiles).

Definition selfAlias (aliases : gmap string string) (entry : string * list string) : gmap string string :=
  <[entry.1 := entry.1]> aliases.

Definition NormalizeConfig (cfg : Config) : Config :=
  let '(def, profiles) := usableProfiles cfg in
  let aliases := fold_left (addCleanAlias profiles) (range_of (mc_Aliases cfg)) ∅ in
  let aliases := fold_left selfAlias (range_of profiles) aliases in
  let def := match profiles !! def with
             | Some _ => def
             | None => match range_of profiles with
                       | (profile, _) :: _ => profile
                       | [] => def
                       end
             end in
  mkConfig def profiles (<["default" := def]> aliases).

(** A [Policy] is the configuration it was made from, cleaned. *)
Definition NewPolicy (cfg : Config) : Config := NormalizeConfig cfg.
End model_policy.

(** The loop that follows a pinned model with the rest of the chain. *)
Definition chainStep (acc : gset string * list string) (model : string) : gset string * list string :=
  let '(seen, chain) := acc in
  if bool_decide (model ∈ seen) then acc else ({[model]} ∪ seen, (chain ++ [model])%list).

Definition Select (policy : Config) (requestedProfile requestedModel : string) : modelDecision :=
  let profile := cleanName requestedProfile in
  let profile := match mc_Profiles policy !! profile with
                 | Some _ => profile
                 | None => mc_DefaultProfile policy
                 end in
  let '(profile, selected) :=
    match default [] (mc_Profiles policy !! profile) with
    | [] => (mc_DefaultProfile policy, default [] (mc_Profiles policy !! mc_DefaultProfile policy))
    | selected => (profile, selected)
    end in
  let model := TrimSpace requestedModel in
  if empty_str model || EqualFold model "auto" then mkModelDecision profile selected
  else mkModelDecision profile (fold_left chainStep selected ({[model]}, [model])).2.

Definition ResolveProfileAlias (policy : Config) (raw : string) : option string :=
  let trimmed := cleanName raw in
  if empty_str trimmed then None else mc_Aliases policy !! trimmed.

Definition ResolveModelAlias (policy : Config) (profile requestedModel : string) : string * string :=
  let model := TrimSpace requestedModel in
  if empty_str model then (profile, requestedModel)
  else match ResolveProfileAlias policy model with
       | Some alias => (alias, "auto")
       | None => (profile, requestedModel)
       end.

(** ** Validation (vendor/.../validation.go) *)

Definition defaultMaxModelChainLength : Z := 8.

Record ValidationIssue := mkIssue {
  vi_Code : string;
  vi_Field : string;
  vi_Message : string;
}.

Section validation.
Context `{MapRange} (quote : string -> string).

Definition profileField (profile : string) : string := "Profiles[" +:+ quote profile +:+ "]".

(** One model of a chain; the state is the names seen, the count of usable
    models and the issues. *)
Definition validateModel (profile : string) (acc : gset string * Z * list ValidationIssue) (entry : Z * string) : gset string * Z * list ValidationIssue :=
  let '(seen, valid, issues) := acc in
  let '(i, model) := entry in
  let trimmed := TrimSpace model in
  let field := profileField profile +:+ "[" +:+ pretty i +:+ "]" in
  if empty_str trimmed
  then (seen, valid, (issues ++ [mkIssue "model_name_empty" field "model name is empty"])%list)
  else if bool_decide (trimmed ∈ seen)
  then (seen, valid + 1, (issues ++ [mkIssue "model_duplicate" field
          ("model " +:+ quote trimmed +:+ " appears more than once in profile " +:+ quote profile)])%list)
  else ({[trimmed]} ∪ seen, valid + 1, issues).

Definition validateModelChain (profile : string) (chain : list string) (issues : list ValidationIssue) : list ValidationIssue :=
  let '(_, valid, issues) := fold_left (validateModel profile) (imap (fun i m => (Z.of_nat i, m)) chain) (∅, 0, issues) in
  let issues := if valid =? 0
    then (issues ++ [mkIssue "profile_chain_empty" (profileField profile) "profile model chain has no usable models"])%list else issues in
  if defaultMaxModelChainLength <? valid
  then (issues ++ [mkIssue "model_chain_too_long" (profileField profile)
          ("profile model chain has " +:+ pretty valid +:+ " models; recommended maximum is " +:+ pretty defaultMaxModelChainLength)])%list
  else issues.

Definition validateProfile (acc : gset string * list ValidationIssue) (entry : string * list string) : gset string * list ValidationIssue :=
  let '(known, issues) := acc in
  let '(profile, chain) := entry in
  let trimmed := cleanName profile in
  if empty_str trimmed then (known, (issues ++ [mkIssue "profile_name_empty" "Profiles" "profile name is empty"])%list)
  else
    let known := {[trimmed]} ∪ known in
    match chain with
    | [] => (known, (issues ++ [mkIssue "profile_chain_empty" (profileField profile) "profile model chain is empty"])%list)
    | _ => (known, validateModelChain profile chain issues)
    end.

Definition validateAlias (known : gset string) (issues : list ValidationIssue) (entry : string * string) : list ValidationIssue :=
  let '(alias, profile) := entry in
  if empty_str (cleanName alias) then (issues ++ [mkIssue "alias_name_empty" "Aliases" "alias name is empty"])%list
  else if bool_decide (cleanName profile ∈ known) then issues
  else (issues ++ [mkIssue "alias_target_missing" ("Aliases[" +:+ quote alias +:+ "]")
          ("alias " +:+ quote alias +:+ " points to missing profile " +:+ quote profile)])%list.

Definition ValidateConfig (cfg : Config) : list ValidationIssue :=
  let def := cleanName (mc_DefaultProfile cfg) in
  let issues := if empty_str def then [mkIssue "default_profile_missing" "DefaultProfile" "default profile is empty"] else [] in
  let '(known, issues) := fold_left validateProfile (range_of (mc_Profiles cfg)) (∅, issues) in
  let issues := if negb (empty_str def) && negb (bool_decide (def ∈ known))
    then (issues ++ [mkIssue "default_profile_missing" "DefaultProfile"
            ("default profile " +:+ quote (mc_DefaultProfile cfg) +:+ " is not defined")])%list else issues in
  fold_left (validateAlias known) (range_of (mc_Aliases cfg)) issues.
End validation.

(** ** The environment's policy (vendor/.../config.go) *)

(** What the environment loader decodes. *)
Record RuntimeEnv := mkRuntimeEnv {
  re_DefaultModel : string;
  re_Allowed : list string;
  re_Mode : string;
  re_DefaultProfile : string;
  re_ProfilesJSON : string;
  re_AliasesJSON : string;
}.

(** What [encoding/json] and the loader give; [inl] is the text of the error.
    A section of a policy file is [None] when the file does not decode or the
    section is absent, and its entries are listed in the order the loop that
    reads them visits them. *)
Record Decoders := mkDecoders {
  dec_config : string -> option Config;
  dec_capabilities : string -> option (gmap string (list string));
  dec_providerProfiles : string -> option (list (string * list providerModelTarget));
  dec_reasoning : string -> option (list (string * string));
  dec_timeouts : string -> option (list (string * float64));
  dec_windows : string -> option (list (string * list (string * contextWindow)));
  dec_chains : string -> string + gmap string (list string);
  dec_names : string -> string + gmap string string;
  dec_runtime : environ -> string + RuntimeEnv;
}.

Definition decodeRuntimeJSON {A} (decode : string -> string + gmap string A) (raw field : string) : string + gmap string A :=
  if empty_str raw then inr ∅
  else match decode raw with inl err => inl (field +:+ ": " +:+ err) | inr m => inr m end.

Definition LoadConfig (D : Decoders) (env : environ) : string + Config :=
  match dec_runtime D env with
  | inl err => inl err
  | inr cfg =>
      match decodeRuntimeJSON (dec_chains D) (re_ProfilesJSON cfg) "CERVO_MODEL_PROFILES_JSON" with
      | inl err => inl err
      | inr profiles =>
          match decodeRuntimeJSON (dec_names D) (re_AliasesJSON cfg) "CERVO_MODEL_ALIASES_JSON" with
          | inl err => inl err
          | inr aliases =>
              let def := if empty_str (re_DefaultProfile cfg) then re_Mode cfg else re_DefaultProfile cfg in
              let profiles :=
                if bool_decide (profiles = ∅) && negb (empty_str (re_DefaultModel cfg))
                then {[ (if empty_str (re_Mode cfg) then "strict" else re_Mode cfg) :=
                        match re_Allowed cfg with [] => [re_DefaultModel cfg] | allowed => allowed end ]}
                else profiles in
              let aliases :=
                if bool_decide (aliases = ∅) && negb (empty_str def)
                then <[def := def]> {["default" := def]}
                else aliases in
              inr (mkConfig def profiles aliases)
          end
      end
  end.

(** ** Sources (router_policy_model.go) *)

(** What a load reads: the environment, the policy path beside the executable
    when there is one, the files, and the embedded default. *)
Record Sources := mkSources {
  src_env : environ;
  src_beside : option string;
  src_readFile : string -> option string;
  src_embedded : string;
}.

Definition modelPolicyFileCandidates (S : Sources) : list string :=
  let p := envValue (src_env S) "PROXY_MODEL_POLICY_FILE" in
  ((if empty_str p then [] else [p]) ++ match src_beside S with Some path => [path] | None => [] end ++ ["model-policy.json"])%list.

(** The loop every loader runs: the content of the first candidate that can be
    read. *)
Fixpoint firstReadable (S : Sources) (paths : list string) : option string :=
  match paths with
  | [] => None
  | path :: rest => match src_readFile S path with Some data => Some data | None => firstReadable S rest end
  end.

Definition policyFile (S : Sources) : option string := firstReadable S (modelPolicyFileCandidates S).

Definition hasAnyEnv (env : environ) (keys : list string) : bool :=
  existsb (fun key => negb (empty_str (envValue env key))) keys.

Definition shouldUseRuntimeDefaultProfile (env : environ) : bool :=
  hasAnyEnv env ["CERVO_MODEL_DEFAULT_PROFILE"; "CERVO_MODEL_DEFAULT"; "CERVO_MODEL_POLICY_MODE"].

Definition modelPolicyRuntimeWarning (field message : string) : ValidationIssue :=
  mkIssue "runtime_config_invalid" field message.

Record modelPolicyRuntime := mkModelRuntime {
  mr_Config : Config;
  mr_Warnings : list ValidationIssue;
  mr_Strict : bool;
}.

(** Only what a layer sets is taken from it. *)
Definition overlay (useDefault : bool) (policy layer : Config) : Config :=
  mkConfig (if useDefault && negb (empty_str (mc_DefaultProfile layer)) then mc_DefaultProfile layer else mc_DefaultProfile policy)
           (if bool_decide (mc_Profiles layer = ∅) then mc_Profiles policy else mc_Profiles layer)
           (if bool_decide (mc_Aliases layer = ∅) then mc_Aliases policy else mc_Aliases layer).

Section loading.
Context `{MapRange} (D : Decoders) (quote : string -> string).

Definition loadModelConfigFile (S : Sources) : option Config :=
  match policyFile S with
  | None => None
  | Some data => NormalizeConfig <$> dec_config D data
  end.

Definition loadCapabilityOverrides (S : Sources) : gmap string (list string) :=
  let merged := default ∅ (dec_capabilities D (src_embedded S)) in
  match policyFile S with
  | None => merged
  | Some data => default ∅ (dec_capabilities D data) ∪ merged
  end.

(** The section of the policy file, or of the embedded default when there is
    no file. *)
Definition loadSection {A} (parse : string -> option A) (S : Sources) : option A :=
  match policyFile S with
  | Some data => parse data
  | None => parse (src_embedded S)
  end.

Definition loadProviderProfiles (S : Sources) : gmap string (list providerModelTarget) :=
  default ∅ (loadSection (fun data => parseProviderProfiles (dec_providerProfiles D data)) S).

Definition loadReasoningProfiles (S : Sources) : gmap string string :=
  default ∅ (loadSection (fun data => parseReasoningProfiles (dec_reasoning D data)) S).

Definition loadProfileTimeouts (S : Sources) : gmap string Z :=
  default ∅ (loadSection (fun data => parseProfileTimeouts (dec_timeouts D data)) S).

Definition loadContextWindows (S : Sources) : gmap string contextWindow :=
  let base := default ∅ (parseContextWindows (dec_windows D (src_embedded S))) in
  match policyFile S with
  | None => base
  | Some data => default ∅ (parseContextWindows (dec_windows D data)) ∪ base
  end.

Definition defaultModelConfig (S : Sources) : Config :=
  match dec_config D (src_embedded S) with
  | None => DefaultConfig
  | Some cfg => NormalizeConfig cfg
  end.

(** The [CERVO_MODEL_*] layer. *)
Definition applyRuntimeConfig (env : environ) (policy : Config) : Config * list ValidationIssue :=
  if hasAnyEnv env ["CERVO_MODEL_DEFAULT_PROFILE"; "CERVO_MODEL_PROFILES_JSON"; "CERVO_MODEL_ALIASES_JSON";
                    "CERVO_MODEL_DEFAULT"; "CERVO_MODEL_ALLOWED"; "CERVO_MODEL_POLICY_MODE"]
  then match LoadConfig D env with
       | inl err => (policy, [modelPolicyRuntimeWarning "CERVO_MODEL" err])
       | inr layer => (overlay (shouldUseRuntimeDefaultProfile env) policy layer, [])
       end
  else (policy, []).

(** One of the two JSON variables: its value, or a warning. *)
Definition envOverride {A} (decode : string -> string + gmap string A) (env : environ) (field : string) (current : gmap string A) : gmap string A * list ValidationIssue :=
  let raw := envValue env field in
  if empty_str raw then (current, [])
  else match decode raw with
       | inl err => (current, [modelPolicyRuntimeWarning field err])
       | inr candidate => (candidate, [])
       end.

Definition loadModelPolicyRuntime (S : Sources) : modelPolicyRuntime :=
  let env := src_env S in
  let policy := defaultModelConfig S in
  let policy := match loadModelConfigFile S with Some file => overlay true policy file | None => policy end in
  let '(policy, w1) := applyRuntimeConfig env policy in
  let '(profiles, w2) := envOverride (dec_chains D) env "PROXY_PROVIDER_PROFILES_JSON" (mc_Profiles policy) in
  let '(aliases, w3) := envOverride (dec_names D) env "PROXY_PROVIDER_ALIASES_JSON" (mc_Aliases policy) in
  let raw := canonicalEnvValue env "PROXY_DEFAULT_PROFILE" in
  let policy := mkConfig (if empty_str raw then mc_DefaultProfile policy else raw) profiles aliases in
  mkModelRuntime (NormalizeConfig policy) (w1 ++ w2 ++ w3 ++ ValidateConfig quote policy)%list
    (envBool env "CERVO_MODEL_POLICY_STRICT" false).

Definition loadModelConfigFromEnv (S : Sources) : Config := mr_Config (loadModelPolicyRuntime S).

(** ** The policy a service holds (router.go) *)

(** The fields behind [policyMu], and the capability index. *)
Record policyState := mkPolicyState {
  sp_policy : Config;
  sp_modelPolicy : option Config;
  sp_providerProfiles : gmap string (list providerModelTarget);
  sp_reasoningProfiles : gmap string string;
  sp_profileTimeouts : gmap string Z;
  sp_contextWindows : gmap string contextWindow;
  sp_warnings : list ValidationIssue;
  sp_strict : bool;
  sp_capabilities : capabilityIndex;
}.

(** Each of these is one section under [policyMu]. *)
Definition setModelPolicyConfig (policy : Config) (s : policyState) : policyState :=
  let normalized := NormalizeConfig policy in
  mkPolicyState normalized (Some (NewPolicy normalized)) ∅ ∅ ∅ (sp_contextWindows s) (sp_warnings s) (sp_strict s) (sp_capabilities s).

Definition setProviderProfiles (profiles : gmap string (list providerModelTarget)) (s : policyState) : policyState :=
  mkPolicyState (sp_policy s) (sp_modelPolicy s) profiles (sp_reasoningProfiles s) (sp_profileTimeouts s)
    (sp_contextWindows s) (sp_warnings s) (sp_strict s) (sp_capabilities s).

Definition setReasoningProfiles (profiles : gmap string string) (s : policyState) : policyState :=
  mkPolicyState (sp_policy s) (sp_modelPolicy s) (sp_providerProfiles s) profiles (sp_profileTimeouts s)
    (sp_contextWindows s) (sp_warnings s) (sp_strict s) (sp_capabilities s).

Definition setProfileTimeouts (timeouts : gmap string Z) (s : policyState) : policyState :=
  mkPolicyState (sp_policy s) (sp_modelPolicy s) (sp_providerProfiles s) (sp_reasoningProfiles s) timeouts
    (sp_contextWindows s) (sp_warnings s) (sp_strict s) (sp_capabilities s).

Definition setWindowsAndWarnings (windows : gmap string contextWindow) (warnings : list ValidationIssue) (strict : bool) (s : policyState) : policyState :=
  mkPolicyState (sp_policy s) (sp_modelPolicy s) (sp_providerProfiles s) (sp_reasoningProfiles s) (sp_profileTimeouts s)
    windows warnings strict (sp_capabilities s).

Definition setCapabilities (caps : gmap string (list string)) (s : policyState) : policyState :=
  mkPolicyState (sp_policy s) (sp_modelPolicy s) (sp_providerProfiles s) (sp_reasoningProfiles s) (sp_profileTimeouts s)
    (sp_contextWindows s) (sp_warnings s) (sp_strict s) (setOverrides caps (sp_capabilities s)).

Definition activeModelPolicy (s : policyState) : Config :=
  match sp_modelPolicy s with
  | Some policy => policy
  | None => NewPolicy (sp_policy s)
  end.

Definition strictAndWarnings (s : policyState) : bool * list ValidationIssue := (sp_strict s, sp_warnings s).

(** What the service is built with; [None] stands for the error that strict
    validation raises, on which every request is denied. *)
Definition newPolicyState (S : Sources) : policyState :=
  let runtime := loadModelPolicyRuntime S in
  mkPolicyState (mr_Config runtime) (Some (NewPolicy (mr_Config runtime))) (loadProviderProfiles S) (loadReasoningProfiles S)
    (loadProfileTimeouts S) (loadContextWindows S) (mr_Warnings runtime) (mr_Strict runtime)
    (newCapabilityIndex (loadCapabilityOverrides S)).

(** A load that strict mode does not accept: a new service denies everything,
    a running one keeps what it has. *)
Definition strictFailure (runtime : modelPolicyRuntime) : bool :=
  mr_Strict runtime && negb (bool_decide (mr_Warnings runtime = [])).

(** The sections of a reload, in order.  Requests read the state between any
    two of them. *)
Definition reloadSections (S : Sources) (runtime : modelPolicyRuntime) : list (policyState -> policyState) :=
  [ setModelPolicyConfig (mr_Config runtime);
    setProviderProfiles (loadProviderProfiles S);
    setReasoningProfiles (loadReasoningProfiles S);
    setProfileTimeouts (loadProfileTimeouts S);
    setWindowsAndWarnings (loadContextWindows S) (mr_Warnings runtime) (mr_Strict runtime);
    setCapabilities (loadCapabilityOverrides S) ].

Definition runSections (sections : list (policyState -> policyState)) (s : policyState) : policyState :=
  fold_left (fun s section => section s) sections s.

(** The number of warnings is the error. *)
Definition ReloadModelPolicy (S : Sources) (s : policyState) : policyState * option Z :=
  let runtime := loadModelPolicyRuntime S in
  if strictFailure runtime then (s, Some (Z.of_nat (List.length (mr_Warnings runtime))))
  else (runSections (reloadSections S runtime) s, None).

Record ModelPolicyHealth := mkModelPolicyHealth {
  mh_DefaultProfile : string;
  mh_Profiles : list string;
  mh_Aliases : list string;
  mh_Strict : bool;
  mh_ValidationWarnings : list ValidationIssue;
}.

Definition aliasNames (aliases : gmap string string) : list string := sortStrings (fst <$> range_of aliases).

Definition modelPolicyHealth (s : policyState) : ModelPolicyHealth :=
  mkModelPolicyHealth (mc_DefaultProfile (sp_policy s)) (profileNames (mc_Profiles (sp_policy s))) (aliasNames (mc_Aliases (sp_policy s)))
    (strictAndWarnings s).1 (strictAndWarnings s).2.

(** The part of the service the planner reads, over the settings that do not
    change. *)
Definition asStatic (base : RouterStatic) (s : policyState) : RouterStatic :=
  mkStatic (config base) (runtime_DefaultExecutor base) (runtime_BreakerPolicy base)
    (mc_DefaultProfile (sp_policy s)) (mc_Profiles (sp_policy s)) (sp_providerProfiles s).

Definition planModelAttempts (base : RouterStatic) (s : policyState) (decision : policyDecision) (category requestedModel : string) : list modelAttempt :=
  Plan (Select (activeModelPolicy s)) (asStatic base s) decision category requestedModel.
End loading.

(** ** What a cleaned configuration is *)

Lemma cleanName_idemp s : cleanName (cleanName s) = cleanName s.
Proof. unfold cleanName. by rewrite ToLower_trimmed, ToLower_idemp by apply TrimSpace_idemp. Qed.

Definition cleanModel (m : string) : Prop := TrimSpace m = m /\ m <> "".

Lemma cleanChain_clean chain : Forall cleanModel (cleanChain chain).
Proof.
  unfold cleanChain. apply Forall_forall. intros m Hm. apply list_elem_of_In, filter_In in Hm as [Hm Hne].
  apply list_elem_of_In, list_elem_of_fmap in Hm as (m0 & -> & _). split; [apply TrimSpace_idemp|].
  by intros E; rewrite E in Hne.
Qed.

Lemma cleanChain_id chain : Forall cleanModel chain -> cleanChain chain = chain.
Proof.
  unfold cleanChain. induction 1 as [|m chain [Ht Hn] _ IH]; [done|]. simpl. rewrite Ht.
  destruct (empty_str m) eqn:E; simpl; [by apply empty_str_spec in E|f_equal; exact IH].
Qed.

Definition goodName (s : string) : Prop := cleanName s = s /\ s <> "".

Record wellFormed (cfg : Config) : Prop := {
  wf_default : is_Some (mc_Profiles cfg !! mc_DefaultProfile cfg);
  wf_profiles : map_Forall (fun p chain => goodName p /\ chain <> [] /\ Forall cleanModel chain) (mc_Profiles cfg);
  wf_aliases : map_Forall (fun a p => goodName a /\ is_Some (mc_Profiles cfg !! p)) (mc_Aliases cfg);
  wf_self : forall p, is_Some (mc_Profiles cfg !! p) -> p <> "default" -> mc_Aliases cfg !! p = Some p;
  wf_default_alias : mc_Aliases cfg !! "default" = Some (mc_DefaultProfile cfg);
}.

Definition goodProfiles (profiles : gmap string (list string)) : Prop :=
  map_Forall (fun p chain => goodName p /\ chain <> [] /\ Forall cleanModel chain) profiles.

Lemma goodName_clean s : empty_str (cleanName s) = false -> goodName (cleanName s).
Proof. intros E. split; [apply cleanName_idemp|]. intros Hs. by rewrite Hs in E. Qed.

Lemma addCleanProfile_good profiles entry : goodProfiles profiles -> goodProfiles (addCleanProfile profiles entry).
Proof.
  intros Hp. unfold addCleanProfile. destruct (empty_str (cleanName entry.1)) eqn:E; [done|].
  pose proof (cleanChain_clean entry.2) as Hc. destruct (cleanChain entry.2) as [|m chain]; [done|].
  apply map_Forall_insert_2; [|done]. split; [by apply goodName_clean|done].
Qed.

Section normalize.
Context `{MapRange}.

Lemma cleanProfiles_good raw : goodProfiles (cleanProfiles raw).
Proof. unfold cleanProfiles. apply fold_left_inv; [apply map_Forall_empty|]. intros a b _. apply addCleanProfile_good. Qed.

Lemma usableProfiles_good cfg : goodProfiles (usableProfiles cfg).2 /\ (usableProfiles cfg).2 <> ∅.
Proof.
  unfold usableProfiles. case_bool_decide as E; simpl; [|split; [apply cleanProfiles_good|done]].
  split; [|done]. apply map_Forall_singleton. split_and!; [by split|done|]. constructor; [by split|constructor].
Qed.

Lemma addCleanAlias_good profiles aliases entry :
  map_Forall (fun a p => goodName a /\ is_Some (profiles !! p)) aliases ->
  map_Forall (fun a p => goodName a /\ is_Some (profiles !! p)) (addCleanAlias profiles aliases entry).
Proof.
  intros Ha. unfold addCleanAlias. destruct (empty_str (cleanName entry.1)) eqn:E; simpl; [done|].
  destruct (empty_str (cleanName entry.2)); [done|]. destruct (profiles !! cleanName entry.2) eqn:E2; [|done].
  apply map_Forall_insert_2; [|done]. split; [by apply goodName_clean|by rewrite E2].
Qed.

Lemma normalize_wf cfg : wellFormed (NormalizeConfig cfg).
Proof.
  unfold NormalizeConfig. pose proof (usableProfiles_good cfg) as [Hp Hne].
  destruct (usableProfiles cfg) as [def profiles]. simpl in Hp, Hne. set (def' := match profiles !! def with Some _ => def | None => _ end).
  assert (Hdef : is_Some (profiles !! def')).
  { subst def'. destruct (profiles !! def) eqn:E; [by rewrite E|].
    destruct (range_of profiles) as [|[p chain] rest] eqn:Er; [by apply range_nil in Er|].
    assert (Hin : (p, chain) ∈ range_of profiles) by (rewrite Er; left). apply elem_of_range in Hin. by rewrite Hin. }
  clearbody def'.
  set (aliases := fold_left (addCleanAlias profiles) _ _).
  assert (Ha : map_Forall (fun a p => goodName a /\ is_Some (profiles !! p)) aliases).
  { subst aliases. apply fold_left_inv; [apply map_Forall_empty|]. intros a b _. apply addCleanAlias_good. }
  clearbody aliases.
  pose proof (fold_range selfAlias (fun k _ => k) profiles aliases) as Hl.
  set (all := fold_left selfAlias _ _) in *. specialize (Hl ltac:(done)).
  constructor; simpl.
  - done.
  - done.
  - apply map_Forall_insert_2; [by split|]. intros a p. rewrite Hl. destruct (profiles !! a) eqn:E; [|apply Ha].
    intros [= <-]. split; [by apply (Hp a) in E as (? & _)|by rewrite E].
  - intros p [chain E] Hd. rewrite lookup_insert_ne by done. by rewrite Hl, E.
  - by rewrite lookup_insert_eq.
Qed.

Lemma cleanProfiles_id profiles : goodProfiles profiles -> cleanProfiles profiles = profiles.
Proof.
  intros Hp. unfold cleanProfiles. apply map_eq. intros k. rewrite (fold_range _ (fun _ v => v)).
  - by destruct (profiles !! k).
  - intros p chain E acc. destruct (Hp p chain E) as ([Hc Hn] & Hne & Hm). unfold addCleanProfile. simpl.
    rewrite Hc, cleanChain_id by done. destruct (empty_str p) eqn:Ee; [by apply empty_str_spec in Ee|]. by destruct chain.
Qed.

(** Cleaning what is clean changes nothing, in any order of visits. *)
Lemma normalize_id cfg : wellFormed cfg -> NormalizeConfig cfg = cfg.
Proof.
  intros [[chain Hd] Hp Ha Hs Hda]. destruct (Hp _ _ Hd) as ([Hdc Hdn] & _). unfold NormalizeConfig.
  assert (Hu : usableProfiles cfg = (mc_DefaultProfile cfg, mc_Profiles cfg)).
  { unfold usableProfiles. rewrite cleanProfiles_id by done. case_bool_decide as E; [by rewrite E in Hd|]. f_equal.
    destruct (empty_str (TrimSpace (mc_DefaultProfile cfg))) eqn:Ee; [|done]. apply empty_str_spec in Ee.
    exfalso. apply Hdn. rewrite <- Hdc. unfold cleanName. by rewrite Ee. }
  rewrite Hu, Hd. destruct cfg as [def profiles aliases]. simpl in *. f_equal. apply map_eq. intros k.
  destruct (decide (k = "default")) as [->|Hk]; [by rewrite lookup_insert_eq|]. rewrite lookup_insert_ne by done.
  rewrite (fold_range selfAlias (fun k _ => k)) by done. destruct (profiles !! k) eqn:E; [by rewrite Hs by eauto|].
  rewrite (fold_range _ (fun _ v => v)); [by destruct (aliases !! k)|]. intros a p E' acc.
  destruct (Ha a p E') as [[Hac Han] [chain' Hpp]]. destruct (Hp _ _ Hpp) as ([Hpc Hpn] & _).
  unfold addCleanAlias. simpl. rewrite Hac, Hpc, Hpp.
  destruct (empty_str a) eqn:E1; [by apply empty_str_spec in E1|]. destruct (empty_str p) eqn:E2; [by apply empty_str_spec in E2|done].
Qed.
End normalize.

(** C24: a cleaned configuration is fit to route with, and cleaning it again
    changes nothing.  Whatever the input and whatever order its maps are
    visited in, the default profile exists, every chain holds at least one
    model and no blank one, every alias names an existing profile, every
    profile but one called default is its own alias, and the alias default is
    the default profile; and a second pass, in any other order, is the
    identity. *)
Theorem normalize_wellformed `{H1 : MapRange} `{H2 : MapRange} cfg :
  wellFormed (NormalizeConfig cfg) /\ @NormalizeConfig H2 (NormalizeConfig cfg) = NormalizeConfig cfg.
Proof. split; [apply normalize_wf|]. apply normalize_id, normalize_wf. Qed.

(** ** Selection *)

Lemma chainStep_fold selected : forall seen chain,
  (forall m, m ∈ seen <-> m ∈ chain) -> NoDup chain ->
  exists rest, (fold_left chainStep selected (seen, chain)).2 = (chain ++ rest)%list /\ NoDup (chain ++ rest) /\
    rest `sublist_of` selected /\ forall m, m ∈ selected -> m ∈ (chain ++ rest)%list.
Proof.
  induction selected as [|x selected IH]; intros seen chain Hs Hn; simpl.
  - exists []. rewrite app_nil_r. split_and!; [done|done|done|set_solver].
  - case_bool_decide as Hx.
    + destruct (IH seen chain Hs Hn) as (rest & Hr & Hd & Hsub & Hall). exists rest. split_and!; [done|done|by constructor|].
      intros m [->|Hm]%elem_of_cons; [|by apply Hall]. apply elem_of_app. left. by apply Hs.
    + destruct (IH ({[x]} ∪ seen) (chain ++ [x])%list) as (rest & Hr & Hd & Hsub & Hall).
      { intros m. rewrite elem_of_union, elem_of_singleton, elem_of_app, list_elem_of_singleton, Hs. tauto. }
      { apply NoDup_app. split_and!; [done| |apply NoDup_singleton]. intros m Hm ->%list_elem_of_singleton. by apply Hx, Hs. }
      rewrite <- app_assoc in Hr, Hd, Hall. exists (x :: rest). split_and!; [done|done|by constructor|].
      intros m [->|Hm]%elem_of_cons; [|by apply Hall]. apply elem_of_app. right. left.
Qed.

(** The request names a model to start with. *)
Definition pins (requestedModel : string) : bool :=
  negb (empty_str (TrimSpace requestedModel) || EqualFold (TrimSpace requestedModel) "auto").

Lemma select_spec policy category requestedModel :
  wellFormed policy ->
  let md := Select policy category requestedModel in
  exists models, mc_Profiles policy !! md_Profile md = Some models /\ models <> [] /\
    (is_Some (mc_Profiles policy !! cleanName category) -> md_Profile md = cleanName category) /\
    if pins requestedModel
    then exists rest, md_ModelChain md = TrimSpace requestedModel :: rest /\ NoDup (TrimSpace requestedModel :: rest) /\
           rest `sublist_of` models /\ forall m, m ∈ models -> m ∈ md_ModelChain md
    else md_ModelChain md = models.
Proof.
  intros [[dchain Hd] Hp _ _ _]. cbv zeta. unfold Select, pins. set (model := TrimSpace requestedModel).
  set (profile := match mc_Profiles policy !! cleanName category with Some _ => _ | None => _ end).
  assert (Hpr : exists models, mc_Profiles policy !! profile = Some models /\ models <> [] /\
                  (is_Some (mc_Profiles policy !! cleanName category) -> profile = cleanName category)).
  { subst profile. destruct (mc_Profiles policy !! cleanName category) as [c|] eqn:E.
    - exists c. split_and!; [done|by apply (Hp _ _ E)|done].
    - exists dchain. split_and!; [done|by apply (Hp _ _ Hd)|by intros [? ?]]. }
  clearbody profile. destruct Hpr as (models & Hm & Hne & Hc). rewrite Hm. simpl. destruct models as [|m0 ms] eqn:Em; [done|].
  rewrite <- Em in *. exists models. destruct (empty_str model || EqualFold model "auto"); simpl; [done|]. split_and!; [done|done|done|].
  destruct (chainStep_fold models {[model]} [model]) as (rest & Hr & Hd' & Hsub & Hall); [set_solver|apply NoDup_singleton|].
  exists rest. rewrite Hr. done.
Qed.

(** ** The service state *)

Section service.
Context `{MapRange} (D : Decoders) (quote : string -> string).

(** The states requests can see: of a new service, and after each section of
    any reload, whatever reloads ran before or run beside it. *)
Inductive serviceState : policyState -> Prop :=
| ss_new S : serviceState (newPolicyState D quote S)
| ss_section S section s :
    serviceState s -> strictFailure (loadModelPolicyRuntime D quote S) = false ->
    section ∈ reloadSections D S (loadModelPolicyRuntime D quote S) -> serviceState (section s).

(** The policy is clean and the compiled one is it. *)
Definition policyConsistent (s : policyState) : Prop :=
  wellFormed (sp_policy s) /\ sp_modelPolicy s = Some (sp_policy s).

Lemma runtime_wf S : wellFormed (mr_Config (loadModelPolicyRuntime D quote S)).
Proof.
  unfold loadModelPolicyRuntime. cbv zeta. destruct (applyRuntimeConfig _ _ _). destruct (envOverride _ _ _ _). destruct (envOverride _ _ _ _).
  apply normalize_wf.
Qed.

Lemma serviceState_consistent s : serviceState s -> policyConsistent s.
Proof.
  induction 1 as [S|S section s _ [Hw Hm] _ Hin].
  - split; simpl; [apply runtime_wf|]. unfold NewPolicy. by rewrite normalize_id by apply runtime_wf.
  - unfold reloadSections in Hin. repeat (apply elem_of_cons in Hin as [->|Hin]); [..|by apply elem_of_nil in Hin]; try done.
    split; simpl; [apply normalize_wf|]. unfold NewPolicy. by rewrite (normalize_id (NormalizeConfig _)) by apply normalize_wf.
Qed.

Lemma serviceState_active s : serviceState s -> wellFormed (sp_policy s) /\ activeModelPolicy s = sp_policy s.
Proof. intros [Hw Hm]%serviceState_consistent. unfold activeModelPolicy. by rewrite Hm. Qed.

Lemma setOverrides_setAuto overrides idx : setOverrides overrides idx = setAuto (ci_auto idx) (newCapabilityIndex overrides).
Proof. done. Qed.

(** A service that starts now, with the capabilities learned so far. *)
Definition restarted (S : Sources) (s : policyState) : policyState :=
  let fresh := newPolicyState D quote S in
  mkPolicyState (sp_policy fresh) (sp_modelPolicy fresh) (sp_providerProfiles fresh) (sp_reasoningProfiles fresh)
    (sp_profileTimeouts fresh) (sp_contextWindows fresh) (sp_warnings fresh) (sp_strict fresh)
    (setAuto (ci_auto (sp_capabilities s)) (sp_capabilities fresh)).
End service.

(** C18: a reload is a restart that keeps what was learned.  Under strict
    validation a policy with warnings is refused and the service is left as it
    was, all of it; otherwise every part of the policy is what a new service
    would load from the same sources, and only the capabilities derived from
    the catalogue are carried over. *)
Theorem reload_is_restart `{MapRange} D quote S s :
  let runtime := loadModelPolicyRuntime D quote S in
  ReloadModelPolicy D quote S s =
    if mr_Strict runtime && bool_decide (mr_Warnings runtime <> [])
    then (s, Some (Z.of_nat (List.length (mr_Warnings runtime))))
    else (restarted D quote S s, None).
Proof.
  cbv zeta. unfold ReloadModelPolicy, strictFailure. rewrite <- bool_decide_not. destruct (mr_Strict _ && _); [done|].
  f_equal. unfold restarted, runSections, reloadSections. simpl. unfold setModelPolicyConfig, NewPolicy. simpl.
  rewrite !(normalize_id (mr_Config _)) by apply runtime_wf. done.
Qed.

(** ** What the planner makes of a selection *)

Lemma planStep_prefix decision profile model acc provider : acc.2 `prefix_of` (planStep decision profile model acc provider).2.
Proof. destruct acc as [seen attempts]. unfold planStep. case_bool_decide; [done|]. by apply prefix_app_r. Qed.

Lemma planProviders_prefix decision profile model providers : forall acc,
  acc.2 `prefix_of` (fold_left (planStep decision profile model) providers acc).2.
Proof. induction providers as [|p ps IH]; intros acc; simpl; [done|]. etrans; [apply planStep_prefix|apply IH]. Qed.

Lemma planModels_prefix decision profile providers models : forall acc,
  acc.2 `prefix_of` (fold_left (fun acc model => fold_left (planStep decision profile model) providers acc) models acc).2.
Proof. induction models as [|m ms IH]; intros acc; simpl; [done|]. etrans; [apply planProviders_prefix|apply IH]. Qed.

Lemma planProviders_cons decision : exists p ps, planProviders decision = p :: ps.
Proof. unfold planProviders. destruct (empty_str _); by eexists _, _. Qed.

(** The first attempt is the first target, or the first model. *)
Lemma plan_first sel svc decision category requestedModel m ms :
  let md := sel category requestedModel in
  md_ModelChain md = m :: ms ->
  exists first rest, Plan sel svc decision category requestedModel = first :: rest /\
    (unpinned requestedModel (md_Profile md) = false -> Model first = m).
Proof.
  cbv zeta. intros Hm. unfold Plan. rewrite Hm. destruct (_ && _) eqn:E.
  - apply andb_true_iff in E as [E1 E2]. destruct (default [] _) as [|t ts]; [done|]. eexists _, _. split; [done|]. by rewrite E2.
  - destruct (planProviders_cons decision) as (p & ps & ->). cbn [fold_left].
    match goal with |- context [(fold_left ?f ms (fold_left ?g ps ?acc)).2] =>
      assert (Hpre : acc.2 `prefix_of` (fold_left f ms (fold_left g ps acc)).2)
        by (etrans; [apply planProviders_prefix|apply planModels_prefix with (providers := p :: ps)]) end.
    destruct Hpre as [rest Hr]. rewrite Hr. eexists _, _. by split.
Qed.

(** C10: every request gets a plan, and only from what is configured.  In every
    state of the policy, also between two sections of a reload, the planned
    chain is not empty, runs under one configured profile, the one asked for
    when it exists, and tries only models of its chain, its provider targets
    and the model the request pins, which comes first. *)
Theorem every_request_is_planned `{MapRange} D quote base s decision category requestedModel :
  serviceState D quote s ->
  let chain := planModelAttempts base s decision category requestedModel in
  exists profile models first rest,
    mc_Profiles (sp_policy s) !! profile = Some models /\
    (is_Some (mc_Profiles (sp_policy s) !! cleanName category) -> profile = cleanName category) /\
    chain = first :: rest /\
    Forall (fun a => Profile a = profile /\
      (Model a ∈ models \/ (pins requestedModel = true /\ Model a = TrimSpace requestedModel) \/
       mkTarget (Provider a) (Model a) ∈ default [] (sp_providerProfiles s !! profile))) chain /\
    (pins requestedModel = true -> EqualFold (TrimSpace requestedModel) profile = false -> Model first = TrimSpace requestedModel).
Proof.
  intros [Hw Ha]%serviceState_active. cbv zeta. unfold planModelAttempts. rewrite Ha. clear Ha.
  destruct (select_spec (sp_policy s) category requestedModel Hw) as (models & Hm & Hne & Hc & Hchain).
  exists (md_Profile (Select (sp_policy s) category requestedModel)), models.
  set (md := Select (sp_policy s) category requestedModel) in *.
  assert (Hsub : forall m, m ∈ md_ModelChain md -> m ∈ models \/ (pins requestedModel = true /\ m = TrimSpace requestedModel)).
  { destruct (pins requestedModel).
    - destruct Hchain as (rest & -> & _ & Hs & _). intros m [->|Hin]%elem_of_cons; [by right|left]. by eapply elem_of_sublist.
    - rewrite Hchain. by left. }
  assert (Hhd : exists m ms, md_ModelChain md = m :: ms /\ (pins requestedModel = true -> m = TrimSpace requestedModel)).
  { destruct (pins requestedModel); [destruct Hchain as (rest & -> & _); by eexists _, _|]. destruct models as [|m ms]; [done|]. rewrite Hchain. by eexists _, _. }
  destruct Hhd as (m & ms & Hms & Hpin). destruct (plan_first (Select (sp_policy s)) (asStatic base s) decision category requestedModel m ms Hms) as (first & rest & Hplan & Hfirst).
  fold md in Hfirst. exists first, rest. split_and!; [done|done|done| |].
  - destruct (plan_is_policy_product (Select (sp_policy s)) (asStatic base s) decision category requestedModel) as [Hall Hor]. fold md in Hall, Hor.
    apply Forall_forall. intros a Hin. split; [by eapply Forall_forall in Hall as [? _]|].
    destruct Hor as [(targets & Ht & _ & _ & Hf)|(_ & Hp & _)].
    + right. right. change (providerProfiles (asStatic base s)) with (sp_providerProfiles s) in Ht. rewrite Ht. simpl. rewrite <- Hf.
      apply list_elem_of_fmap. by exists a.
    + destruct (Hp a Hin) as [Hma _]. destruct (Hsub _ Hma) as [|]; auto.
  - intros Hpi Hfold. rewrite Hfirst; [by apply Hpin|]. unfold unpinned. rewrite Hfold. unfold pins in Hpi. by apply negb_true_iff in Hpi as ->.
Qed.

(** ** Where the sources meet *)

(** No variable of the environment takes part in the policy. *)
Definition plainEnv (env : environ) : Prop :=
  hasAnyEnv env ["CERVO_MODEL_DEFAULT_PROFILE"; "CERVO_MODEL_PROFILES_JSON"; "CERVO_MODEL_ALIASES_JSON";
                 "CERVO_MODEL_DEFAULT"; "CERVO_MODEL_ALLOWED"; "CERVO_MODEL_POLICY_MODE";
                 "PROXY_PROVIDER_PROFILES_JSON"; "PROXY_PROVIDER_ALIASES_JSON"; "PROXY_DEFAULT_PROFILE"] = false.

Lemma hasAnyEnv_cons env key keys : hasAnyEnv env (key :: keys) = negb (empty_str (envValue env key)) || hasAnyEnv env keys.
Proof. done. Qed.

Lemma hasAnyEnv_app env l l' : hasAnyEnv env (l ++ l') = hasAnyEnv env l || hasAnyEnv env l'.
Proof. apply existsb_app. Qed.

Lemma hasAnyEnv_incl env l l' : hasAnyEnv env l = true -> (forall k, k ∈ l -> k ∈ l') -> hasAnyEnv env l' = true.
Proof.
  unfold hasAnyEnv. rewrite !existsb_exists. intros (k & Hk & Hv) Hl. exists k. split; [|done].
  by apply list_elem_of_In, Hl, list_elem_of_In.
Qed.

Lemma overlay_clean policy layer : wellFormed layer -> overlay true policy layer = layer.
Proof.
  intros [[chain Hd] Hp _ _ Hda]. destruct (Hp _ _ Hd) as ([_ Hn] & _). unfold overlay. destruct layer as [def profiles aliases]; simpl in *.
  destruct (empty_str def) eqn:E; [by apply empty_str_spec in E|].
  rewrite !bool_decide_false; [done|by intros ->|by intros ->].
Qed.

Section sources.
Context `{MapRange} (D : Decoders) (quote : string -> string).

(** In a plain environment the policy is the file's, all of it, and the
    embedded default's when there is no file that decodes. *)
Lemma loadModelPolicyRuntime_plain S : plainEnv (src_env S) ->
  loadModelConfigFromEnv D quote S =
    match loadModelConfigFile D S with Some file => file | None => NormalizeConfig (defaultModelConfig D S) end.
Proof.
  intros Hplain. unfold loadModelConfigFromEnv, loadModelPolicyRuntime, applyRuntimeConfig, envOverride, canonicalEnvValue. cbv zeta.
  unfold plainEnv in Hplain.
  change (hasAnyEnv ?env ?l) with (hasAnyEnv env (take 6 l ++ drop 6 l)%list) in Hplain. rewrite hasAnyEnv_app in Hplain. cbn [take drop] in Hplain.
  apply orb_false_iff in Hplain as [H6 H3]. rewrite H6. rewrite !hasAnyEnv_cons in H3.
  apply orb_false_iff in H3 as [E1 H3]. apply orb_false_iff in H3 as [E2 H3]. apply orb_false_iff in H3 as [E3 _].
  apply negb_false_iff, empty_str_spec in E1, E2, E3. rewrite E1, E2, E3. change (ToLower "") with "". change (empty_str "") with true. cbv iota beta.
  unfold loadModelConfigFile. destruct (match policyFile S with None => None | Some data => NormalizeConfig <$> dec_config D data end) as [file|] eqn:Ef;
    [|by destruct (defaultModelConfig D S)].
  assert (Hw : wellFormed file).
  { destruct (policyFile S) as [data|]; [|done]. destruct (dec_config D data) as [cfg|]; [|done]. simpl in Ef. injection Ef as <-. apply normalize_wf. }
  rewrite overlay_clean by done. transitivity (NormalizeConfig file); [by destruct file|by apply normalize_id].
Qed.

(** A policy file without profiles does not inherit the embedded chains: it is
    cleaned before it is laid over the default, cleaning gives it the profile
    default with the chain auto, and so all curated chains are gone. *)
Theorem file_without_profiles_drops_chains S data cfg :
  plainEnv (src_env S) -> policyFile S = Some data -> dec_config D data = Some cfg -> mc_Profiles cfg = ∅ ->
  mc_Profiles (loadModelConfigFromEnv D quote S) = {["default" := ["auto"]]}.
Proof.
  intros Hplain Hf Hd He. rewrite loadModelPolicyRuntime_plain by done. unfold loadModelConfigFile. rewrite Hf, Hd. simpl.
  unfold NormalizeConfig, usableProfiles, cleanProfiles. rewrite He. rewrite (proj2 (range_nil ∅) eq_refl). done.
Qed.

(** One variable of the [CERVO_MODEL_*] layer is enough to lose every
    configured alias: the loader always supplies a default profile, and with it
    two aliases of its own, which replace the others. *)
Theorem runtime_layer_replaces_aliases env policy re :
  shouldUseRuntimeDefaultProfile env = true -> dec_runtime D env = inr re -> re_ProfilesJSON re = "" -> re_AliasesJSON re = "" ->
  re_DefaultProfile re <> "" ->
  mc_Aliases (applyRuntimeConfig D env policy).1 = <[re_DefaultProfile re := re_DefaultProfile re]> {["default" := re_DefaultProfile re]}.
Proof.
  intros Hu Hd Hp Ha Hn. unfold applyRuntimeConfig.
  rewrite (hasAnyEnv_incl env _ _ Hu) by (intros ? ?; set_solver).
  unfold LoadConfig, decodeRuntimeJSON. rewrite Hd, Hp, Ha. simpl. destruct (empty_str (re_DefaultProfile re)) eqn:E; [by apply empty_str_spec in E|].
  rewrite !(bool_decide_true (∅ = ∅)) by done. rewrite E. simpl. rewrite bool_decide_false; [done|apply insert_non_empty].
Qed.

(** A policy file that does not decode leaves the embedded chains in place but
    takes the embedded provider targets, efforts and timeouts away. *)
Theorem broken_file_drops_targets S data :
  plainEnv (src_env S) -> policyFile S = Some data -> dec_config D data = None -> dec_providerProfiles D data = None ->
  dec_reasoning D data = None -> dec_timeouts D data = None ->
  loadModelConfigFromEnv D quote S = NormalizeConfig (defaultModelConfig D S) /\
  loadProviderProfiles D S = ∅ /\ loadReasoningProfiles D S = ∅ /\ loadProfileTimeouts D S = ∅.
Proof.
  intros Hplain Hf Hc H1 H2 H3. rewrite loadModelPolicyRuntime_plain by done. unfold loadModelConfigFile, loadProviderProfiles, loadReasoningProfiles, loadProfileTimeouts, loadSection.
  rewrite Hf, Hc, H1, H2, H3. done.
Qed.
End sources.

(** ** A small service *)

Definition demoConfig : Config :=
  mkConfig "Coding" {["coding " := ["vendor/a"; " "; "vendor/b"]; "vision" := ["vendor/v"]]} {["Agent" := "coding"; "gone" := "missing"]}.

(** A policy file named targets holds only provider targets. *)
Definition demoDecoders : Decoders :=
  mkDecoders
    (fun data => if str_eq data "embedded" then Some demoConfig else if str_eq data "targets" then Some (mkConfig "" ∅ ∅) else None)
    (fun _ => None)
    (fun data => if str_eq data "embedded" then Some [("coding", [mkTarget "Cerebras" "vendor/a"])] else None)
    (fun _ => None) (fun _ => None) (fun _ => None)
    (fun _ => inl "unreadable") (fun _ => inl "unreadable") (fun _ => inl "unreadable").

Definition demoSources (file : option string) : Sources := mkSources ∅ None (fun _ => file) "embedded".

Definition demoBase : RouterStatic :=
  mkStatic (Types.mkConfig 3 (60 * Second) (45 * Second) (90 * Second)) providerOpenRouter (mkBreakerPolicy 3 (60 * Second) true) "" ∅ ∅.

Definition demoState : policyState := newPolicyState demoDecoders id (demoSources None).

Definition demoPlan (s : policyState) : list (providerID * string) :=
  (fun a => (Provider a, Model a)) <$> planModelAttempts demoBase s defaultAllowedDecision "coding" "".

(** Between the first two sections of a reload the new chains are in place and
    the provider targets are not: a request planned there goes to the default
    provider, though the policy before and after names another. *)
Theorem reload_is_not_atomic :
  let runtime := loadModelPolicyRuntime demoDecoders id (demoSources None) in
  let during := setModelPolicyConfig (mr_Config runtime) demoState in
  demoPlan demoState = [(providerCerebras, "vendor/a")] /\
  demoPlan during = [(providerOpenRouter, "vendor/a"); (providerOpenRouter, "vendor/b")] /\
  demoPlan (ReloadModelPolicy demoDecoders id (demoSources None) demoState).1 = [(providerCerebras, "vendor/a")].
Proof. by vm_compute. Qed.

Lemma every_request_is_planned_witness :
  let s := setModelPolicyConfig (mr_Config (loadModelPolicyRuntime demoDecoders id (demoSources None))) demoState in
  exists first rest, planModelAttempts demoBase s defaultAllowedDecision "nowhere" " vendor/x " = first :: rest /\ Model first = "vendor/x".
Proof.
  cbv zeta. set (s := setModelPolicyConfig _ _).
  assert (Hs : serviceState demoDecoders id s).
  { apply (ss_section demoDecoders id (demoSources None)); [apply ss_new|by vm_compute|left]. }
  destruct (every_request_is_planned demoDecoders id demoBase s defaultAllowedDecision "nowhere" " vendor/x " Hs)
    as (profile & models & first & rest & Hp & _ & Hc & Hall & Hf).
  exists first, rest. split; [exact Hc|]. apply Hf; [reflexivity|].
  destruct (EqualFold (TrimSpace " vendor/x ") profile) eqn:E; [|reflexivity]. exfalso.
  rewrite Hc in Hall. destruct (Forall_cons_1 _ _ _ Hall) as [[Hpf _] _]. rewrite <- Hpf in E.
  assert (Hfst : first = match planModelAttempts demoBase s defaultAllowedDecision "nowhere" " vendor/x " with a :: _ => a | [] => first end) by (by rewrite Hc).
  rewrite Hfst in E. revert E. vm_compute. discriminate.
Defined.
