(* ===== verification/LoadBalancer.v ===== *)
(** * LoadBalancer: the round-robin front for several proxies (cmd/lb/main.go)

    Backends are objects shared by the list of the balancer, by the requests
    they serve and by the health checks, so the list holds addresses of a
    heap.  The counters are machine integers: [rr] is a uint32 and
    [connections] an int32, both changed by atomic additions.  A request's
    search for a backend is one atomic step per candidate ([tryOne]);
    [NextBackend] is that loop run alone, and [lbstep] interleaves the
    searches of all requests with the health checks and with the list
    changes, which wait until no search holds the read lock.  Parsing an
    address is the argument [parseHost] ([url.Parse], [None] for an error). *)

From S2P Require Import Prelude Env.
From stdpp Require Import pretty.
From Stdlib Require Import Lia ZArith String Ascii.
#[local] Open Scope string_scope.
#[local] Open Scope Z_scope.

Definition two32 : Z := 4294967296.
Definition wrapU32 (z : Z) : Z := z mod two32.
Definition wrap32 (z : Z) : Z := (z + 2147483648) mod two32 - 2147483648.

(** ** Backends *)

Record Backend := mkBackend {
  b_Host : string;
  healthy : bool;
  connections : Z;
  lastCheck : Z;
}.

Definition setHealthy (h : bool) (now : Z) (b : Backend) : Backend := mkBackend (b_Host b) h (connections b) now.
Definition addConn (d : Z) (b : Backend) : Backend :=
  mkBackend (b_Host b) (healthy b) (wrap32 (connections b + d)) (lastCheck b).
Definition incConn : Backend -> Backend := addConn 1.
Definition decConn : Backend -> Backend := addConn (-1).

Record LoadBalancer := mkLB {
  backends : list nat;
  rr : Z;
  objects : gmap nat Backend;
}.

Definition NewLoadBalancer : LoadBalancer := mkLB [] 0 ∅.

Definition onBackend (f : Backend -> Backend) (p : nat) (lb : LoadBalancer) : LoadBalancer :=
  mkLB (backends lb) (rr lb) (alter f p (objects lb)).

Definition isHealthy (lb : LoadBalancer) (p : nat) : bool :=
  match objects lb !! p with Some b => healthy b | None => false end.

Definition conns (lb : LoadBalancer) (p : nat) : Z :=
  match objects lb !! p with Some b => connections b | None => 0 end.

Definition hostIs (lb : LoadBalancer) (addr : string) (p : nat) : bool :=
  match objects lb !! p with Some b => str_eq (b_Host b) addr | None => false end.

(** ** The list of backends *)

Definition AddBackend (parseHost : string -> option string) (addr : string) (lb : LoadBalancer) : bool * LoadBalancer :=
  match parseHost ("http://" +:+ addr) with
  | None => (false, lb)
  | Some host =>
      let p := fresh (dom (objects lb)) in
      (true, mkLB (backends lb ++ [p]) (rr lb) (<[p := mkBackend host true 0 0]> (objects lb)))
  end.

(** The first entry with that host leaves the list. *)
Fixpoint removeFirst (f : nat -> bool) (l : list nat) : list nat :=
  match l with
  | [] => []
  | p :: l => if f p then l else p :: removeFirst f l
  end.

Definition RemoveBackend (addr : string) (lb : LoadBalancer) : LoadBalancer :=
  mkLB (removeFirst (hostIs lb addr) (backends lb)) (rr lb) (objects lb).

(** ** Choosing a backend *)

(** One turn of the loop: the counter moves on and its backend is looked at.
    [None] is an index outside the list, a panic. *)
Definition tryOne (lb : LoadBalancer) : option (nat * bool) * LoadBalancer :=
  let r := wrapU32 (rr lb + 1) in
  let idx := r mod wrapU32 (Z.of_nat (List.length (backends lb))) in
  let lb' := mkLB (backends lb) r (objects lb) in
  (p ← backends lb !! Z.to_nat idx; Some (p, isHealthy lb p), lb').

Fixpoint tryBackends (tries : nat) (lb : LoadBalancer) : option nat * LoadBalancer :=
  match tries with
  | O => (None, lb)
  | S tries =>
      let '(c, lb) := tryOne lb in
      match c with
      | Some (p, true) => (Some p, lb)
      | _ => tryBackends tries lb
      end
  end.

Definition NextBackend (lb : LoadBalancer) : option nat * LoadBalancer :=
  match backends lb with [] => (None, lb) | _ => tryBackends (List.length (backends lb)) lb end.

(** ** Requests, health checks and list changes, interleaved *)

(** A request is choosing, with the tries it has left; has chosen; is being
    proxied; or is over: answered by its backend, by 503, or by a panic. *)
Inductive phase :=
| Choosing (left : nat) | Chosen (p : nat) | Proxying (p : nat) | Served (p : nat) | NoBackend | Panicked.

(** The end of a try. *)
Definition afterTry (left : nat) (c : option (nat * bool)) : phase :=
  match c with
  | None => Panicked
  | Some (p, true) => Chosen p
  | Some (_, false) => match left with O => NoBackend | _ => Choosing left end
  end.

Definition choosing (ph : phase) : bool := match ph with Choosing _ => true | _ => false end.

Record lbconf := mkLbconf { lb_of : LoadBalancer; reqs : list phase }.

Inductive lbstep (parseHost : string -> option string) : lbconf -> lbconf -> Prop :=
| lb_arrive lb rs : backends lb <> [] ->
    lbstep parseHost (mkLbconf lb rs) (mkLbconf lb (rs ++ [Choosing (List.length (backends lb))]))
| lb_arrive_empty lb rs : backends lb = [] ->
    lbstep parseHost (mkLbconf lb rs) (mkLbconf lb (rs ++ [NoBackend]))
| lb_try lb rs i k : rs !! i = Some (Choosing (S k)) ->
    lbstep parseHost (mkLbconf lb rs) (mkLbconf (tryOne lb).2 (<[i := afterTry k (tryOne lb).1]> rs))
| lb_inc lb rs i p : rs !! i = Some (Chosen p) ->
    lbstep parseHost (mkLbconf lb rs) (mkLbconf (onBackend incConn p lb) (<[i := Proxying p]> rs))
| lb_dec lb rs i p : rs !! i = Some (Proxying p) ->
    lbstep parseHost (mkLbconf lb rs) (mkLbconf (onBackend decConn p lb) (<[i := Served p]> rs))
| lb_health lb rs p h now :
    lbstep parseHost (mkLbconf lb rs) (mkLbconf (onBackend (setHealthy h now) p lb) rs)
| lb_add lb rs addr : existsb choosing rs = false ->
    lbstep parseHost (mkLbconf lb rs) (mkLbconf (AddBackend parseHost addr lb).2 rs)
| lb_remove lb rs addr : existsb choosing rs = false ->
    lbstep parseHost (mkLbconf lb rs) (mkLbconf (RemoveBackend addr lb) rs).

(** [ServeHTTP] run alone up to the call of the backend. *)
Definition ServeHTTP (lb : LoadBalancer) : phase * LoadBalancer :=
  match NextBackend lb with
  | (None, lb) => (NoBackend, lb)
  | (Some p, lb) => (Proxying p, onBackend incConn p lb)
  end.

(** What a health check concludes from a response status, [None] for an
    error. *)
Definition checkResult (status : option Z) : bool :=
  match status with Some s => s =? 200 | None => false end.

Definition HealthCheck (probe : nat -> option Z) (now : Z) (lb : LoadBalancer) : LoadBalancer :=
  fold_left (fun lb p => onBackend (setHealthy (checkResult (probe p)) now) p lb) (backends lb) lb.

(** ** Draining *)

(** The wait of [DrainBackend]: [world] is what the rest of the program does
    to the balancer during one sleep. *)
Fixpoint drainWait (world : LoadBalancer -> LoadBalancer) (polls : nat) (p : nat) (lb : LoadBalancer) : LoadBalancer :=
  match polls with
  | O => lb
  | S polls => if conns lb p =? 0 then lb else drainWait world polls p (world lb)
  end.

Definition DrainBackend (world : LoadBalancer -> LoadBalancer) (polls : nat) (addr : string) (now : Z) (lb : LoadBalancer) : LoadBalancer :=
  match find (hostIs lb addr) (backends lb) with
  | None => lb
  | Some p => RemoveBackend addr (drainWait world polls p (onBackend (setHealthy false now) p lb))
  end.

(** ** Settings *)

Definition getEnv (env : environ) (key def : string) : string :=
  let v := Getenv env key in if empty_str v then def else v.

(** [fmt.Sscanf(v, "%d", new(int))]: blanks, but no line break, are skipped;
    then a sign and at least one digit; what follows is left alone. *)
Fixpoint skipBlank (fuel : nat) (s : bytes) : option bytes :=
  match fuel, s with
  | _, [] => Some []
  | O, _ => Some s
  | S fuel, c :: _ =>
      if Ascii.eqb c (byte 10) then None
      else match strip_any all_space_seqs s with Some r => skipBlank fuel r | None => Some s end
  end.

Fixpoint leadingDigits (s : string) : string :=
  match s with
  | String c s => match digit_of c with Some _ => String c (leadingDigits s) | None => EmptyString end
  | EmptyString => EmptyString
  end.

Definition scanInt (v : string) : option Z :=
  match skipBlank (String.length v) (list_ascii_of_string v) with
  | None => None
  | Some s =>
      match string_of_list_ascii s with
      | String "-"%char r => ParseInt64 ("-" +:+ leadingDigits r)
      | String "+"%char r => ParseInt64 (leadingDigits r)
      | r => ParseInt64 (leadingDigits r)
      end
  end.

(** The number of items scanned, [None] for an error. *)
Definition Sscanf_d (v : string) : option Z := const 1 <$> scanInt v.

Definition getEnvInt (env : environ) (key : string) (def : Z) : Z :=
  let v := Getenv env key in
  if empty_str v then def else match Sscanf_d v with Some i => i | None => def end.

(** ** The process *)

(** What [main] reaches before it listens: the end of the process, or the
    address it listens on and the balancer it serves. *)
Inductive lbStart := Fatal | Listening (addr : string) (lb : LoadBalancer).

Definition lbMain (parseHost : string -> option string) (env : environ) : lbStart :=
  let '(ok, lb) := AddBackend parseHost ("127.0.0.1:" +:+ pretty (getEnvInt env "BACKEND_START_PORT" 8081)) NewLoadBalancer in
  if ok then Listening (":" +:+ getEnv env "LB_PORT" "8080") lb else Fatal.

(** One beat of its life: a health check every five seconds until the signal,
    which lets the server finish. *)
Inductive lbEvent := LbTick (probe : nat -> option Z) (now : Z) | LbSignal.

Fixpoint lbRun (events : list lbEvent) (lb : LoadBalancer) : LoadBalancer :=
  match events with
  | [] | LbSignal :: _ => lb
  | LbTick probe now :: events => lbRun events (HealthCheck probe now lb)
  end.

(** ** The search, alone *)

Lemma rotate_cons {A} (l : list A) r x k :
  (S k <= List.length l)%nat -> l !! Z.to_nat (Z.of_nat r mod Z.of_nat (List.length l)) = Some x ->
  take (S k) (rotate r l) = x :: take k (rotate (S r) l).
Proof.
  intros Hk Hx. apply list_eq. intros [|i].
  - rewrite lookup_take_lt, lookup_rotate_r by lia. unfold rotate_nat_add. by rewrite Z.add_0_r.
  - change ((x :: take k (rotate (S r) l)) !! S i) with (take k (rotate (S r) l) !! i).
    destruct (decide (i < k)%nat) as [Hi|Hi].
    + rewrite !lookup_take_lt, !lookup_rotate_r by lia. unfold rotate_nat_add.
      replace (Z.of_nat (S r) + Z.of_nat i) with (Z.of_nat r + Z.of_nat (S i)) by lia. done.
    + rewrite (lookup_ge_None_2 (take (S k) _)) by (rewrite length_take; lia).
      rewrite (lookup_ge_None_2 (take k _)) by (rewrite length_take; lia). done.
Qed.

Lemma tryOne_spec lb :
  0 <= rr lb -> rr lb + 1 < two32 -> backends lb <> [] -> Z.of_nat (List.length (backends lb)) < two32 ->
  exists p, backends lb !! Z.to_nat ((rr lb + 1) mod Z.of_nat (List.length (backends lb))) = Some p /\
    tryOne lb = (Some (p, isHealthy lb p), mkLB (backends lb) (rr lb + 1) (objects lb)).
Proof.
  intros H0 H1 Hne Hn. unfold tryOne, wrapU32. rewrite !(Z.mod_small _ two32) by lia.
  destruct (lookup_lt_is_Some_2 (backends lb) (Z.to_nat ((rr lb + 1) mod Z.of_nat (List.length (backends lb))))) as [p Hp].
  - destruct (backends lb) eqn:E; [done|]. rewrite <- E in *.
    pose proof (Z.mod_pos_bound (rr lb + 1) (Z.of_nat (List.length (backends lb)))) as Hb.
    assert (0 < List.length (backends lb))%nat by (rewrite E; simpl; lia). lia.
  - exists p. by rewrite Hp.
Qed.

Lemma tryBackends_find tries : forall lb,
  0 <= rr lb -> rr lb + Z.of_nat tries < two32 -> (tries <= List.length (backends lb))%nat ->
  Z.of_nat (List.length (backends lb)) < two32 ->
  let w := take tries (rotate (Z.to_nat (rr lb + 1)) (backends lb)) in
  (tryBackends tries lb).1 = find (isHealthy lb) w /\
  exists r, (tryBackends tries lb).2 = mkLB (backends lb) r (objects lb) /\ rr lb <= r <= rr lb + Z.of_nat tries /\
    (forallb (isHealthy lb) (backends lb) = true -> (0 < tries)%nat -> r = rr lb + 1).
Proof.
  induction tries as [|k IH]; intros lb H0 Hw Hk Hn w.
  { split; [done|]. exists (rr lb). destruct lb; simpl in *. repeat split; lia. }
  assert (Hne : backends lb <> []) by (intros E; rewrite E in Hk; simpl in Hk; lia).
  destruct (tryOne_spec lb) as (p & Hp & E); [lia..|done|lia|].
  cbn [tryBackends]. rewrite E. unfold w.
  rewrite (rotate_cons _ _ p) by (try lia; by rewrite Z2Nat.id by lia). cbn [find].
  destruct (isHealthy lb p) eqn:Hh.
  { split; [done|]. exists (rr lb + 1). repeat split; try lia. }
  specialize (IH (mkLB (backends lb) (rr lb + 1) (objects lb))); cbn [rr backends objects] in IH.
  destruct IH as [IH1 (r & IH2 & Hr & Hall)]; try lia.
  rewrite IH1. split.
  - do 2 f_equal. f_equal; f_equal. lia.
  - exists r. repeat split; try lia; [done|]. intros Hf _. rewrite forallb_forall in Hf.
    rewrite Hf in Hh; [done|]. apply list_elem_of_In. by eapply list_elem_of_lookup_2.
Qed.

Lemma NextBackend_tries lb : backends lb <> [] -> NextBackend lb = tryBackends (List.length (backends lb)) lb.
Proof. unfold NextBackend. by destruct (backends lb). Qed.

(** Short of the wrap of the counter, a search that runs alone returns the
    first healthy backend in cyclic order after the counter, and none exactly
    when none is healthy. *)
Theorem next_backend_is_next_healthy lb :
  0 <= rr lb -> rr lb + Z.of_nat (List.length (backends lb)) < two32 ->
  (NextBackend lb).1 = find (isHealthy lb) (rotate (Z.to_nat (rr lb + 1)) (backends lb)) /\
  ((NextBackend lb).1 = None <-> forallb (fun p => negb (isHealthy lb p)) (backends lb) = true).
Proof.
  intros H0 Hw. assert (E : (NextBackend lb).1 = find (isHealthy lb) (rotate (Z.to_nat (rr lb + 1)) (backends lb))).
  { destruct (decide (backends lb = [])) as [E|Hne].
    - unfold NextBackend, rotate. by rewrite E, take_nil, drop_nil.
    - rewrite NextBackend_tries by done. destruct (tryBackends_find (List.length (backends lb)) lb) as [-> _]; try lia.
      f_equal. rewrite take_ge; [done|]. by rewrite length_rotate. }
  split; [done|]. rewrite E, forallb_forall. split.
  - intros Hf p Hp. apply list_elem_of_In in Hp. apply (elem_of_rotate _ (Z.to_nat (rr lb + 1))) in Hp.
    apply list_elem_of_In in Hp. by rewrite (find_none _ _ Hf _ Hp).
  - intros Hf. destruct (find _ _) as [p|] eqn:F; [|done]. apply find_some in F as [Hin Hh].
    apply list_elem_of_In, elem_of_rotate, list_elem_of_In, Hf in Hin. by rewrite Hh in Hin.
Qed.

(** Several searches, one after the other. *)
Fixpoint nextBackends (k : nat) (lb : LoadBalancer) : list (option nat) :=
  match k with O => [] | S k => let '(p, lb) := NextBackend lb in p :: nextBackends k lb end.

Lemma nextBackends_take k : forall lb,
  0 <= rr lb -> rr lb + Z.of_nat k + Z.of_nat (List.length (backends lb)) < two32 -> (k <= List.length (backends lb))%nat ->
  forallb (isHealthy lb) (backends lb) = true ->
  nextBackends k lb = Some <$> take k (rotate (Z.to_nat (rr lb + 1)) (backends lb)).
Proof.
  induction k as [|k IH]; intros lb H0 Hw Hk Hall; [done|]. cbn [nextBackends].
  assert (Hne : backends lb <> []) by (intros E; rewrite E in Hk; simpl in Hk; lia).
  destruct (tryOne_spec lb) as (p & Hp & _); [lia..|done|lia|].
  rewrite NextBackend_tries by done.
  destruct (tryBackends_find (List.length (backends lb)) lb) as [E1 (r & E2 & Hr & Hr1)]; try lia.
  rewrite (surjective_pairing (tryBackends _ _)), E1, E2. rewrite Hr1 in * by (done || lia).
  rewrite (rotate_cons _ _ p) by (try lia; by rewrite Z2Nat.id by lia). cbn [fmap list_fmap]. f_equal.
  - destruct (List.length (backends lb)) as [|n] eqn:En; [lia|].
    rewrite (rotate_cons _ _ p) by (try lia; rewrite En, Z2Nat.id by lia; done). cbn [find].
    rewrite forallb_forall in Hall. rewrite Hall; [done|]. apply list_elem_of_In. by eapply list_elem_of_lookup_2.
  - rewrite IH; cbn [rr backends]; try lia; [|done]. do 3 f_equal. lia.
Qed.

Lemma rotate_perm {A} n (l : list A) : rotate n l ≡ₚ l.
Proof. unfold rotate. rewrite Permutation_app_comm. by rewrite take_drop. Qed.

(** With every backend healthy, as many requests in a row as there are
    backends reach each of them exactly once, in cyclic order. *)
Theorem round_robin_is_fair lb :
  0 <= rr lb -> rr lb + 2 * Z.of_nat (List.length (backends lb)) < two32 ->
  forallb (isHealthy lb) (backends lb) = true ->
  nextBackends (List.length (backends lb)) lb = Some <$> rotate (Z.to_nat (rr lb + 1)) (backends lb) /\
  nextBackends (List.length (backends lb)) lb ≡ₚ Some <$> backends lb.
Proof.
  intros H0 Hw Hall. assert (E : nextBackends (List.length (backends lb)) lb = Some <$> rotate (Z.to_nat (rr lb + 1)) (backends lb)).
  { rewrite nextBackends_take by (done || lia). f_equal. rewrite take_ge; [done|]. by rewrite length_rotate. }
  split; [done|]. rewrite E. by rewrite rotate_perm.
Qed.

(** ** All requests together *)

Definition proxying (p : nat) (ph : phase) : bool := match ph with Proxying q => Nat.eqb p q | _ => false end.

(** What a phase refers to exists, and a search has tries left to make. *)
Definition phaseOk (lb : LoadBalancer) (ph : phase) : Prop :=
  match ph with
  | Choosing k => (0 < k <= List.length (backends lb))%nat
  | Chosen p | Proxying p => is_Some (objects lb !! p)
  | Served _ | NoBackend => True
  | Panicked => False
  end.

Record lbInv (c : lbconf) : Prop := mkLbInv {
  inv_list : Forall (fun p => is_Some (objects (lb_of c) !! p)) (backends (lb_of c));
  inv_phase : Forall (phaseOk (lb_of c)) (reqs c);
  inv_conns : forall p b, objects (lb_of c) !! p = Some b -> connections b = wrap32 (Z.of_nat (count (proxying p) (reqs c)));
}.

Lemma wrap32_add a d : wrap32 (wrap32 a + d) = wrap32 (a + d).
Proof.
  unfold wrap32. f_equal.
  replace ((a + 2147483648) mod two32 - 2147483648 + d + 2147483648) with ((a + 2147483648) mod two32 + d) by lia.
  rewrite Zplus_mod_idemp_l. f_equal. lia.
Qed.

Lemma onBackend_is_Some f p lb q : is_Some (objects (onBackend f p lb) !! q) <-> is_Some (objects lb !! q).
Proof. unfold onBackend. cbn. destruct (decide (p = q)) as [->|Hne]; [rewrite lookup_alter_eq|rewrite lookup_alter_ne by done]; [|done].
  by rewrite fmap_is_Some.
Qed.

Lemma phaseOk_onBackend f p lb ph : phaseOk lb ph -> phaseOk (onBackend f p lb) ph.
Proof. destruct ph; cbn; try done; intros; by apply onBackend_is_Some. Qed.

(** Moving one request from [Chosen] to [Proxying], or on from there, and
    counting it at its backend. *)
Lemma lbInv_count lb rs i p d ph ph' :
  lbInv (mkLbconf lb rs) -> rs !! i = Some ph -> phaseOk lb ph' ->
  (forall q, (if proxying q ph' then 1 else 0) = (if proxying q ph then 1 else 0) + (if Nat.eqb q p then d else 0)) ->
  lbInv (mkLbconf (onBackend (addConn d) p lb) (<[i := ph']> rs)).
Proof.
  intros [Hl Hp Hc] Hi Hok Hd. split; cbn [lb_of reqs] in *.
  - eapply Forall_impl; [exact Hl|]. intros q. apply onBackend_is_Some.
  - apply Forall_insert; [|by apply phaseOk_onBackend]. eapply Forall_impl; [exact Hp|]. intros ?; apply phaseOk_onBackend.
  - intros q b. cbn. pose proof (count_insert (proxying q) rs i ph ph' Hi) as Hn. specialize (Hd q).
    destruct (decide (q = p)) as [->|Hne].
    + rewrite lookup_alter_eq. destruct (objects lb !! p) as [b0|] eqn:E; [|done]. intros [= <-]. cbn.
      rewrite (Hc _ _ E), wrap32_add. f_equal. rewrite Nat.eqb_refl in Hd. destruct (proxying p ph), (proxying p ph'); lia.
    + rewrite lookup_alter_ne by congruence. intros E. rewrite (Hc _ _ E). do 2 f_equal.
      rewrite (proj2 (Nat.eqb_neq q p) Hne) in Hd. destruct (proxying q ph), (proxying q ph'); lia.
Qed.

Lemma tryOne_phase lb left : Z.of_nat (List.length (backends lb)) < two32 ->
  Forall (fun p => is_Some (objects lb !! p)) (backends lb) -> (S left <= List.length (backends lb))%nat ->
  phaseOk lb (afterTry left (tryOne lb).1) /\ forall q, proxying q (afterTry left (tryOne lb).1) = false.
Proof.
  intros Hn Hl Hk. unfold tryOne. cbn [fst]. unfold wrapU32.
  set (n := Z.of_nat (List.length (backends lb))) in *. rewrite (Z.mod_small n) by (unfold n; lia).
  destruct (lookup_lt_is_Some_2 (backends lb) (Z.to_nat ((rr lb + 1) mod two32 mod n))) as [p Hp].
  { pose proof (Z.mod_pos_bound ((rr lb + 1) mod two32) n). unfold n in *. lia. }
  rewrite Hp. cbn. pose proof (proj1 (Forall_lookup _ _) Hl _ _ Hp) as Hs. cbn in Hs.
  destruct (isHealthy lb p); [done|]. destruct left; cbn; [done|]. split; [lia|done].
Qed.

Lemma removeFirst_incl f l p : p ∈ removeFirst f l -> p ∈ l.
Proof.
  induction l as [|q l IH]; cbn; [done|]. destruct (f q); [by right|].
  intros [->|H]%elem_of_cons; [left|right; by apply IH].
Qed.

(** With no search running, a phase does not look at the list. *)
Lemma phaseOk_idle lb lb' rs :
  existsb choosing rs = false -> (forall p, is_Some (objects lb !! p) -> is_Some (objects lb' !! p)) ->
  Forall (phaseOk lb) rs -> Forall (phaseOk lb') rs.
Proof.
  intros Hc Ho Hp. rewrite Forall_forall in Hp |- *. intros ph Hin. specialize (Hp ph Hin).
  destruct ph; cbn in *; try done; try (by apply Ho).
  assert (existsb choosing rs = true) by (apply existsb_exists; exists (Choosing left); split; [by apply list_elem_of_In|done]).
  congruence.
Qed.

Lemma count_app_other {A} (f : A -> bool) l x : f x = false -> count f (l ++ [x]) = count f l.
Proof. intros H. unfold count. rewrite List.filter_app. cbn. by rewrite H, app_nil_r. Qed.

Lemma lbInv_add parseHost addr lb rs :
  lbInv (mkLbconf lb rs) -> existsb choosing rs = false -> lbInv (mkLbconf (AddBackend parseHost addr lb).2 rs).
Proof.
  intros Hinv Hc. pose proof Hinv as [Hl Hp Hcn]; cbn [lb_of reqs] in *.
  unfold AddBackend. destruct (parseHost _) as [host|]; [|done]. cbn. set (f := fresh _).
  assert (Hf : objects lb !! f = None) by (apply not_elem_of_dom; apply is_fresh).
  assert (Hs : forall p, is_Some (objects lb !! p) -> is_Some (<[f := mkBackend host true 0 0]> (objects lb) !! p)).
  { intros p H. apply lookup_insert_is_Some. destruct (decide (f = p)); [by left|by right]. }
  split; cbn [lb_of reqs backends objects].
  + apply Forall_app_2; [eapply Forall_impl; [exact Hl|apply Hs]|]. constructor; [|done]. by rewrite lookup_insert_eq.
  + by eapply phaseOk_idle; [done| |exact Hp].
  + intros p b. destruct (decide (f = p)) as [<-|Hne].
    * rewrite lookup_insert_eq. intros [= <-]. cbn. rewrite count_none; [done|].
      eapply Forall_impl; [exact Hp|]. intros []; cbn; try done. rewrite Nat.eqb_neq. intros [? ?] <-. congruence.
    * rewrite lookup_insert_ne by done. apply Hcn.
Qed.

Lemma lbstep_inv parseHost c c' :
  lbInv c -> Z.of_nat (List.length (backends (lb_of c))) < two32 -> lbstep parseHost c c' -> lbInv c'.
Proof.
  intros Hinv Hn Hs. destruct Hs as [lb rs Hne|lb rs He|lb rs i k Hi|lb rs i p Hi|lb rs i p Hi|lb rs p h now|lb rs addr Hc|lb rs addr Hc];
    pose proof Hinv as [Hl Hp Hcn]; cbn [lb_of reqs] in *.
  - split; cbn [lb_of reqs]; [done|apply Forall_app_2; [done|constructor; [|done]]|].
    + cbn. destruct (backends lb); [done|simpl; lia].
    + intros p b E. by rewrite count_app_other; [apply Hcn|].
  - split; cbn [lb_of reqs]; [done|apply Forall_app_2; [done|by constructor]|].
    intros p b E. by rewrite count_app_other; [apply Hcn|].
  - pose proof (proj1 (Forall_lookup _ _) Hp _ _ Hi) as Hk. cbn in Hk.
    destruct (tryOne_phase lb k) as [Hok Hpx]; [done|done|lia|].
    split; cbn [lb_of reqs]; [done| |].
    + apply Forall_insert; [exact Hp|exact Hok].
    + intros p b E. pose proof (count_insert (proxying p) _ _ _ (afterTry k (tryOne lb).1) Hi) as Hct.
      rewrite Hpx in Hct. change (proxying p (Choosing (S k))) with false in Hct.
      rewrite (Hcn p b E). f_equal. cbv iota in Hct. lia.
  - pose proof (proj1 (Forall_lookup _ _) Hp _ _ Hi) as Hk.
    apply (lbInv_count lb rs i p 1 (Chosen p)); [done..|]. intros q. cbn. by destruct (Nat.eqb q p).
  - apply (lbInv_count lb rs i p (-1) (Proxying p)); [done..|]. intros q. cbn. by destruct (Nat.eqb q p).
  - split; cbn [lb_of reqs].
    + eapply Forall_impl; [exact Hl|]. intros q. apply onBackend_is_Some.
    + eapply Forall_impl; [exact Hp|]. intros ?; apply phaseOk_onBackend.
    + intros q b. cbn. destruct (decide (p = q)) as [->|Hne].
      * rewrite lookup_alter_eq. destruct (objects lb !! q) as [b0|] eqn:E; [|done]. intros [= <-]. cbn. by apply Hcn.
      * rewrite lookup_alter_ne by done. apply Hcn.
  - by apply lbInv_add.
  - split; cbn [lb_of reqs RemoveBackend backends objects]; [|by eapply phaseOk_idle; [done| |exact Hp]|done].
    apply Forall_forall. intros p Hin%removeFirst_incl. by eapply Forall_forall in Hl.
Qed.

(** Steps of a balancer whose list is shorter than the range of uint32. *)
Definition lbstepBounded parseHost (c c' : lbconf) : Prop :=
  Z.of_nat (List.length (backends (lb_of c))) < two32 /\ lbstep parseHost c c'.

(** However requests, health checks and list changes interleave, no request
    ever indexes the list out of range, and every backend's [connections] is
    the number of requests it is serving (modulo 2^32): a drain that reads
    zero there has found a backend with fewer than that many requests idle. *)
Theorem connections_count_requests parseHost c :
  rtc (lbstepBounded parseHost) (mkLbconf NewLoadBalancer []) c ->
  (Panicked ∉ reqs c) /\
  forall p b, objects (lb_of c) !! p = Some b ->
    connections b = wrap32 (Z.of_nat (count (proxying p) (reqs c))) /\
    (connections b = 0 -> Z.of_nat (count (proxying p) (reqs c)) < two32 -> count (proxying p) (reqs c) = O).
Proof.
  intros Hr. assert (Hinv : lbInv c).
  { eapply (rtc_ind_r lbInv); [| |exact Hr]; [|intros y z _ [Hb Hs] Hy; by eapply lbstep_inv].
    split; cbn; [constructor|constructor|]. intros p b E. by rewrite lookup_empty in E. }
  destruct Hinv as [_ Hp Hc]. split.
  - intros Hin. by apply (proj1 (Forall_forall _ _) Hp) in Hin.
  - intros p b E. split; [by apply Hc|]. intros Hz Hlt. rewrite (Hc _ _ E) in Hz. unfold wrap32, two32 in *.
    destruct (decide (Z.of_nat (count (proxying p) (reqs c)) < 2147483648)).
    + rewrite Z.mod_small in Hz; lia.
    + rewrite (Z.mod_in_range 1) in Hz; lia.
Qed.

(** ** What interleaving and wrap-around do to the search *)

Definition exLB (r : Z) (hs : list bool) : LoadBalancer :=
  mkLB (seq 0 (List.length hs)) r (list_to_map (zip (seq 0 (List.length hs)) ((fun h => mkBackend "h" h 0 0) <$> hs))).

(** Two requests over a healthy and an unhealthy backend: the second takes
    the turn of the healthy one and the first is answered 503. *)
Theorem concurrent_search_misses_healthy parseHost :
  rtc (lbstep parseHost) (mkLbconf (exLB 0 [true; false]) [Choosing 2; Choosing 2])
      (mkLbconf (exLB 3 [true; false]) [NoBackend; Chosen 0]) /\
  isHealthy (exLB 3 [true; false]) 0 = true.
Proof.
  split; [|done]. eapply rtc_l; [apply (lb_try _ _ _ 0 1); reflexivity|]. cbn.
  eapply rtc_l; [apply (lb_try _ _ _ 1 1); reflexivity|]. cbn.
  eapply rtc_l; [apply (lb_try _ _ _ 0 0); reflexivity|]. apply rtc_refl.
Qed.

(** Three backends of which the last is healthy: when the counter wraps
    during the search, it is never looked at. *)
Theorem counter_wrap_misses_healthy :
  (NextBackend (exLB 4294967294 [false; false; true])).1 = None /\ isHealthy (exLB 4294967294 [false; false; true]) 2 = true.
Proof. done. Qed.

(** A health check that still finds the backend ready puts a draining backend
    back into rotation. *)
Theorem health_check_undoes_drain :
  let lb := onBackend (setHealthy false 10) 0 (exLB 0 [true; true]) in
  isHealthy lb 0 = false /\ isHealthy (HealthCheck (fun _ => Some 200) 15 lb) 0 = true /\
  (NextBackend (mkLB [0; 1]%nat 1 (objects (HealthCheck (fun _ => Some 200) 15 lb)))).1 = Some 0%nat.
Proof. repeat split. Qed.

(** [getEnvInt] returns how many numbers were scanned, never the number. *)
Theorem getEnvInt_ignores_value env key def :
  getEnvInt env key def = def \/ getEnvInt env key def = 1.
Proof. unfold getEnvInt, Sscanf_d. destruct (empty_str _); [by left|]. destruct (scanInt _); [by right|by left]. Qed.

Example getEnvInt_port : getEnvInt {["BACKEND_START_PORT" := "9000"]} "BACKEND_START_PORT" 8081 = 1.
Proof. reflexivity. Qed.

Definition hostsOf (lb : LoadBalancer) : list (option string) := (fun p => b_Host <$> objects lb !! p) <$> backends lb.

Lemma HealthCheck_hosts probe now lb : backends (HealthCheck probe now lb) = backends lb /\ hostsOf (HealthCheck probe now lb) = hostsOf lb.
Proof.
  unfold HealthCheck. assert (H : forall ps lb, let lb' := fold_left (fun lb p => onBackend (setHealthy (checkResult (probe p)) now) p lb) ps lb in
    backends lb' = backends lb /\ hostsOf lb' = hostsOf lb); [|apply H].
  clear lb. induction ps as [|p ps IH]; intros lb; [done|]. cbn [fold_left]. cbv zeta in *.
  destruct (IH (onBackend (setHealthy (checkResult (probe p)) now) p lb)) as [H1 H2]. rewrite H1, H2. split; [done|].
  unfold hostsOf, onBackend. cbn [backends objects]. apply list_fmap_ext. intros i q _.
  destruct (decide (p = q)) as [->|Hne]; [rewrite lookup_alter_eq; by destruct (objects lb !! q)|]. by rewrite lookup_alter_ne by done.
Qed.

Lemma lbRun_hosts events : forall lb, hostsOf (lbRun events lb) = hostsOf lb.
Proof.
  induction events as [|[probe now|] events IH]; intros lb; [done| |done]. cbn [lbRun]. rewrite IH. apply HealthCheck_hosts.
Qed.

(** The balancer of this command has one backend all its life, and the setting
    that says where it is cannot: for every value of it the backend is the one
    at the default port, or port 1. *)
Theorem lb_has_one_fixed_backend env events :
  exists port lb, lbMain (fun url => Some (String.substring 7 (String.length url) url)) env = Listening (":" +:+ getEnv env "LB_PORT" "8080") lb /\
    (port = 8081 \/ port = 1) /\ hostsOf (lbRun events lb) = [Some ("127.0.0.1:" +:+ pretty port)].
Proof.
  exists (getEnvInt env "BACKEND_START_PORT" 8081). eexists. split; [reflexivity|]. split.
  - unfold getEnvInt, Sscanf_d. destruct (empty_str _); [by left|]. destruct (scanInt _); [by right|by left].
  - rewrite lbRun_hosts. unfold getEnvInt, Sscanf_d. destruct (empty_str _); [by vm_compute|]. destruct (scanInt _); by vm_compute.
Qed.

(** ** Witnesses *)

Lemma next_backend_is_next_healthy_witness : (NextBackend (exLB 4 [false; true; false])).1 = Some 1%nat.
Proof. destruct (next_backend_is_next_healthy (exLB 4 [false; true; false])) as [H _]; [done..|]. exact H. Defined.

Lemma round_robin_is_fair_witness : nextBackends 3 (exLB 4 [true; true; true]) = [Some 2; Some 0; Some 1]%nat.
Proof. destruct (round_robin_is_fair (exLB 4 [true; true; true])) as [H _]; [done..|]. exact H. Defined.

Lemma connections_count_requests_witness :
  exists c, reqs c = [Proxying 0] /\ (forall b, objects (lb_of c) !! 0%nat = Some b -> connections b = 1).
Proof.
  pose (parse := fun _ : string => Some "h").
  pose (c := mkLbconf (onBackend incConn 0 (mkLB [0%nat] 1 (<[0%nat := mkBackend "h" true 0 0]> ∅))) [Proxying 0]).
  destruct (connections_count_requests parse c) as [_ H].
  - eapply rtc_l; [split; [|apply (lb_add parse _ _ "a"); reflexivity]; done|].
    eapply rtc_l; [split; [|apply lb_arrive; discriminate]; done|].
    eapply rtc_l; [split; [|apply (lb_try _ _ _ 0 0); reflexivity]; done|].
    eapply rtc_l; [split; [|apply (lb_inc _ _ _ 0 0); reflexivity]; done|]. apply rtc_refl.
  - exists c. split; [reflexivity|]. intros b E. destruct (H _ _ E) as [-> _]. reflexivity.
Defined.
