(* ===== verification/Update.v ===== *)
(** * Update: the self-update of the binary (cmd/update.go, verify.go, version.go)

    [runUpdate] asks for the latest release, downloads the archive of this
    platform, checks it and swaps the executable.  The network is the argument
    [client], which answers the [n]-th request of a run for a URL; the JSON
    decoder, the archive readers and the cryptography are the class
    [ReleaseTools].  Every way the command can end is a constructor of
    [updateEnd], with its exit code.  The swap runs on the disk of [Files], so
    that every moment of it can be inspected. *)

From S2P Require Import Prelude Env Text Split Base64 Files.
From Stdlib Require Import Lia ZArith String Ascii.
#[local] Open Scope string_scope.
#[local] Open Scope Z_scope.

(** ** Versions *)

Fixpoint indexAny (set s : string) : option nat :=
  match s with
  | EmptyString => None
  | String c s => if existsb (Ascii.eqb c) (list_ascii_of_string set) then Some O else S <$> indexAny set s
  end.

Definition semver : Type := Z * Z * Z.

(** [parts[idx] = n]; the loop runs over at most three segments. *)
Definition setPart (idx : nat) (n : Z) (v : semver) : semver :=
  let '(a, b, c) := v in
  match idx with O => (n, b, c) | S O => (a, n, c) | _ => (a, b, n) end.

Fixpoint parseSegments (idx : nat) (segs : list string) (v : semver) : option semver :=
  match segs with
  | [] => Some v
  | seg :: segs => match Atoi (TrimSpace seg) with Some n => parseSegments (S idx) segs (setPart idx n v) | None => None end
  end.

Definition parseSemver (tag : string) : option semver :=
  let s := TrimPrefix (TrimSpace tag) "v" in
  let s := match indexAny "-+" s with Some i => String.substring 0 i s | None => s end in
  if empty_str s then None else parseSegments 0 (splitN 3 "."%char s) (0, 0, 0).

Definition partsLess (pa pb : semver) : bool :=
  let '(a0, a1, a2) := pa in let '(b0, b1, b2) := pb in
  if negb (a0 =? b0) then a0 <? b0
  else if negb (a1 =? b1) then a1 <? b1
  else if negb (a2 =? b2) then a2 <? b2
  else false.

Definition semverLess (a b : string) : bool :=
  match parseSemver a, parseSemver b with
  | None, None => false
  | None, Some _ => true
  | Some _, None => false
  | Some pa, Some pb => partsLess pa pb
  end.

(** ** The release *)

Record releaseInfo := mkRelease {
  TagName : string;
  HTMLURL : string;
  Assets : list (string * string);
}.

Record updateStatus := mkStatus {
  us_Current : string;
  us_Latest : string;
  us_Available : bool;
  us_Checked : bool;
  us_Error : bool;
}.

(** What is stamped into the binary and what it was built for. *)
Record build := mkBuild {
  version : string;
  repoSlug : string;
  GOOS : string;
  GOARCH : string;
  githubAPIBase : string;
  releasePublicKey : string;
}.

Definition currentUpdateStatus (bd : build) (last : option updateStatus) : updateStatus :=
  match last with Some v => v | None => mkStatus (version bd) "" false false false end.

Definition isDevBuild (bd : build) : bool := empty_str (version bd) || str_eq (version bd) "dev".

(** [dockerenv]: /.dockerenv can be read. *)
Definition inContainer (env : environ) (dockerenv : bool) : bool :=
  if negb (empty_str (Getenv env "CALVOPROXY_CONTAINER")) then true else dockerenv.

Definition assetNameFor (goos goarch tag : string) : string * bool :=
  let base := "calvoproxy-" +:+ tag +:+ "-" +:+ goos +:+ "-" +:+ goarch in
  if str_eq goos "windows" then (base +:+ ".zip", true) else (base +:+ ".tar.gz", false).

Definition binaryNameFor (goos : string) : string :=
  if str_eq goos "windows" then "calvoproxy.exe" else "calvoproxy".

Definition assetURL (r : releaseInfo) (name : string) : option string :=
  snd <$> find (fun a => str_eq a.1 name) (Assets r).

(** ** What is not under src/ *)

(** An archive is the list of its entries, each a name and its content
    ([None]: it cannot be read); of a tar stream, those before its end or an
    error.  The public key and the signature are bytes. *)
Class ReleaseTools := {
  decodeRelease : string -> option releaseInfo;
  zipFiles : string -> option (list (string * option string));
  tarFiles : string -> option (list (string * option string));
  sha256 : string -> string;
  ed25519_Verify : string -> string -> string -> bool;
}.

Inductive fetched := TransportError | Response (status : Z) (body : string).

Section release.
Context `{ReleaseTools} (bd : build) (client : nat -> string -> fetched).

Definition fetchLatestRelease : option releaseInfo :=
  let url := TrimRightSlash (githubAPIBase bd) +:+ "/repos/" +:+ repoSlug bd +:+ "/releases/latest" in
  match client 0 url with
  | TransportError => None
  | Response status body =>
      if negb (status =? 200) then None
      else match decodeRelease (readLimited (Z.shiftl 1 20) body) with
           | None => None
           | Some rel => if empty_str (TagName rel) then None else Some rel
           end
  end.

Definition download (n : nat) (url : string) : option string :=
  match client n url with
  | TransportError => None
  | Response status body => if negb (status =? 200) then None else Some (readLimited (Z.shiftl 512 20) body)
  end.

(** ** Checks *)

(** The checksum on the first line that names the file. *)
Definition sumOnLine (filename line : string) : option string :=
  match Fields line with
  | hex :: (_ :: _) as fields => if str_eq (List.last fields "") filename then Some (ToLower hex) else None
  | _ => None
  end.

Fixpoint firstSum (filename : string) (lines : list string) : option string :=
  match lines with
  | [] => None
  | line :: lines => match sumOnLine filename line with Some h => Some h | None => firstSum filename lines end
  end.

Definition sha256FromSums (sums filename : string) : option string := firstSum filename (split_on (byte 10) sums).

Definition hexDigit (n : nat) : ascii := ascii_of_nat (if (n <? 10)%nat then 48 + n else 87 + n).

Fixpoint hexEncode (s : string) : string :=
  match s with
  | EmptyString => EmptyString
  | String c s => String (hexDigit (nat_of_ascii c / 16)) (String (hexDigit (nat_of_ascii c mod 16)) (hexEncode s))
  end.

Definition verifySHA256 (data wantHex : string) : bool := EqualFold (hexEncode (sha256 data)) wantHex.

Definition updatePublicKey (env : environ) : string :=
  let v := TrimSpace (Getenv env "PROXY_UPDATE_PUBKEY") in
  if negb (empty_str v) then v else TrimSpace (releasePublicKey bd).

Definition verifyReleaseSignature (signed sigB64 pubB64 : string) : bool :=
  match DecodeString (TrimSpace pubB64) with
  | None => false
  | Some pub =>
      if negb (String.length pub =? 32)%nat then false
      else match DecodeString (TrimSpace sigB64) with
           | None => false
           | Some sig => if negb (String.length sig =? 64)%nat then false else ed25519_Verify pub signed sig
           end
  end.

(** ** The archive *)

(** [filepath.Base]; on Windows a backslash separates too and a drive letter
    is no part of the name. *)
Definition pathSep (goos : string) (c : ascii) : bool :=
  Ascii.eqb c "/"%char || (str_eq goos "windows" && Ascii.eqb c (byte 92)).

Fixpoint dropSeps (goos : string) (s : bytes) : bytes :=
  match s with c :: r => if pathSep goos c then dropSeps goos r else s | [] => [] end.

Fixpoint takeName (goos : string) (s : bytes) : bytes :=
  match s with c :: r => if pathSep goos c then [] else c :: takeName goos r | [] => [] end.

Definition dropDrive (goos : string) (s : bytes) : bytes :=
  match s with
  | c :: colon :: r => if str_eq goos "windows" && Ascii.eqb colon ":"%char && (byteIn 65 90 c || byteIn 97 122 c) then r else s
  | _ => s
  end.

Definition Base (goos path : string) : string :=
  if empty_str path then "."
  else match takeName goos (dropSeps goos (rev (dropDrive goos (list_ascii_of_string path)))) with
       | [] => if str_eq goos "windows" then String (byte 92) "" else "/"
       | name => string_of_list_ascii (rev name)
       end.

(** The first entry with that base name; the loops stop at it. *)
Definition pickEntry (binName : string) (files : list (string * option string)) : option (option string) :=
  snd <$> find (fun f => str_eq (Base (GOOS bd) f.1) binName) files.

Definition readEntry (e : option (option string)) : option string :=
  match e with Some (Some data) => Some (readLimited (Z.shiftl 512 20) data) | _ => None end.

Definition extractFromZip (archive binName : string) : option string :=
  match zipFiles archive with None => None | Some files => readEntry (pickEntry binName files) end.

Definition extractFromTarGz (archive binName : string) : option string :=
  match tarFiles archive with None => None | Some files => readEntry (pickEntry binName files) end.

Definition extractBinary (archive : string) (isZip : bool) (binName : string) : option string :=
  if isZip then extractFromZip archive binName else extractFromTarGz archive binName.

(** ** The command *)

(** How the command ends. *)
Inductive updateEnd :=
| DevBuild | InContainer | CheckFailed | UpToDate (latest : string) | NoAsset (name : string) | DownloadFailed
| SignedReleaseWithoutSums | NoSums | SumsDownloadFailed | NoChecksum | ChecksumMismatch
| NoSignature | SignatureDownloadFailed | SignatureInvalid | ExtractFailed | NoExecutable | InstallFailed | Updated (tag : string).

Definition exitCode (e : updateEnd) : Z :=
  match e with DevBuild | UpToDate _ | Updated _ => 0 | _ => 1 end.

Definition flagged (names args : list string) : bool := existsb (fun a => existsb (str_eq a) names) args.

(** [checkForUpdate] *)
Definition checkForUpdate : updateStatus * option releaseInfo :=
  match fetchLatestRelease with
  | None => (mkStatus (version bd) "" false true true, None)
  | Some rel => (mkStatus (version bd) (TagName rel) (semverLess (version bd) (TagName rel)) true false, Some rel)
  end.

(** The signature of the checksums, when a release key is configured. *)
Definition checkSignature (env : environ) (rel : releaseInfo) (sums : string) : option updateEnd :=
  let pub := updatePublicKey env in
  if empty_str pub then None
  else match assetURL rel "SHA256SUMS.txt.sig" with
       | None => Some NoSignature
       | Some url =>
           match download 3 url with
           | None => Some SignatureDownloadFailed
           | Some sig => if verifyReleaseSignature sums sig pub then None else Some SignatureInvalid
           end
       end.

Definition checkSum (insecure : bool) (sums name archive : string) : option updateEnd :=
  match sha256FromSums sums name with
  | None => if negb insecure then Some NoChecksum else None
  | Some want => if verifySHA256 archive want then None else Some ChecksumMismatch
  end.

(** The checks between the download and the extraction: [None] lets the
    archive through. *)
Definition verifyRelease (env : environ) (insecure : bool) (rel : releaseInfo) (name archive : string) : option updateEnd :=
  match assetURL rel "SHA256SUMS.txt" with
  | None =>
      if negb (empty_str (updatePublicKey env)) then Some SignedReleaseWithoutSums
      else if negb insecure then Some NoSums
      else None
  | Some url =>
      match download 2 url with
      | None => Some SumsDownloadFailed
      | Some sums =>
          match checkSum insecure sums name archive with
          | Some e => Some e
          | None => checkSignature env rel sums
          end
      end
  end.

(** Where the executable is: [os.Executable], then its symbolic links
    resolved when they can be. *)
Record exeLocation := mkExe { exe_Executable : option string; exe_EvalSymlinks : string -> option string }.

Definition locate (exe : exeLocation) : option string :=
  p ← exe_Executable exe; Some (default p (exe_EvalSymlinks exe p)).

(** [runUpdate] up to the installation: how it ended, or the tag, the path
    and the new binary. *)
Definition prepareUpdate (env : environ) (dockerenv : bool) (exe : exeLocation) (args : list string) : updateEnd + string * string * string :=
  let force := flagged ["--force"; "-f"] args in
  let insecure := flagged ["--insecure"] args in
  if isDevBuild bd && negb force then inl DevBuild
  else if inContainer env dockerenv then inl InContainer
  else match checkForUpdate with
  | (_, None) => inl CheckFailed
  | (status, Some rel) =>
      if negb (us_Available status) && negb force then inl (UpToDate (TagName rel))
      else
        let '(name, isZip) := assetNameFor (GOOS bd) (GOARCH bd) (TagName rel) in
        match assetURL rel name with
        | None => inl (NoAsset name)
        | Some url =>
            match download 1 url with
            | None => inl DownloadFailed
            | Some archive =>
                match verifyRelease env insecure rel name archive with
                | Some e => inl e
                | None =>
                    match extractBinary archive isZip (binaryNameFor (GOOS bd)) with
                    | None => inl ExtractFailed
                    | Some newBin =>
                        match locate exe with
                        | None => inl NoExecutable
                        | Some exePath => inr (TagName rel, exePath, newBin)
                        end
                    end
                end
            end
        end
  end.

(** ** The swap *)

#[local] Open Scope io_scope.

Definition oldName (exePath : string) : string := exePath +:+ ".old".

(** [replaceExecutable]: [true] is a nil error. *)
Definition replaceExecutable (ok : call -> bool) (exePath tmp newBin : string) : io string bool :=
  i <- current freshInode ;;
  b <- sys ok CreateTemp (createFile tmp) keepDisk ;;
  if negb b then io_ret false else
  b <- writeCall ok newBin i ;;
  if negb b then (closeCall ok ;; removeTemp ok tmp ;; io_ret false) else
  b <- closeCall ok ;;
  if negb b then (removeTemp ok tmp ;; io_ret false) else
  b <- sys ok Chmod keepDisk keepDisk ;;
  if negb b then (removeTemp ok tmp ;; io_ret false) else
  if str_eq (GOOS bd) "windows" then
    sys ok Remove (removeFile (oldName exePath)) keepDisk ;;
    b <- sys ok Aside (renameFile exePath (oldName exePath)) keepDisk ;;
    if negb b then (removeTemp ok tmp ;; io_ret false) else
    b <- sys ok Replace (renameFile tmp exePath) keepDisk ;;
    if negb b then (sys ok Rollback (renameFile (oldName exePath) exePath) keepDisk ;; io_ret false) else
    io_ret true
  else
    b <- sys ok Replace (renameFile tmp exePath) keepDisk ;;
    if negb b then (removeTemp ok tmp ;; io_ret false) else
    io_ret true.

Definition cleanupStaleUpdate (ok : call -> bool) (executable : option string) : io string unit :=
  if negb (str_eq (GOOS bd) "windows") then io_ret tt
  else match executable with
       | Some exe => sys ok Remove (removeFile (oldName exe)) keepDisk ;; io_ret tt
       | None => io_ret tt
       end.

(** [runUpdate]; [tmp] is the name [os.CreateTemp] picks. *)
Definition runUpdate (ok : call -> bool) (tmp : string) (env : environ) (dockerenv : bool) (exe : exeLocation) (args : list string) : io string updateEnd :=
  match prepareUpdate env dockerenv exe args with
  | inl e => io_ret e
  | inr (tag, exePath, newBin) =>
      b <- replaceExecutable ok exePath tmp newBin ;;
      io_ret (if b then Updated tag else InstallFailed)
  end.

(** ** The notice at startup *)

Inductive notice := Silent | PullImage (tag : string) | RunUpdate (tag url : string).

(** [announceUpdate]: the status it caches, if it checks, and what it logs. *)
Definition announceUpdate (env : environ) (dockerenv : bool) : option updateStatus * notice :=
  if isDevBuild bd || EqualFold (Getenv env "PROXY_UPDATE_CHECK") "false" then (None, Silent)
  else match checkForUpdate with
       | (status, None) => (Some status, Silent)
       | (status, Some rel) =>
           (Some status,
            if negb (us_Available status) then Silent
            else if inContainer env dockerenv then PullImage (TagName rel)
            else RunUpdate (TagName rel) (HTMLURL rel))
       end.
End release.

(** ** Versions are ordered *)

Lemma partsLess_spec pa pb :
  partsLess pa pb = true <->
  pa.1.1 < pb.1.1 \/ (pa.1.1 = pb.1.1 /\ (pa.1.2 < pb.1.2 \/ (pa.1.2 = pb.1.2 /\ pa.2 < pb.2))).
Proof.
  destruct pa as [[a0 a1] a2], pb as [[b0 b1] b2]. cbn. destruct (a0 =? b0) eqn:E0; cbn; [|zbool; lia].
  destruct (a1 =? b1) eqn:E1; cbn; [|zbool; lia]. destruct (a2 =? b2) eqn:E2; cbn; zbool; lia.
Qed.

Lemma partsLess_false pa pb : partsLess pa pb = false <-> ~ partsLess pa pb = true.
Proof. by rewrite not_true_iff_false. Qed.

(** "Older than" is a strict weak order on tags: no release is older than
    itself, and both "older" and "not older" chain.  A tag that is no version,
    such as [dev], is older than every version. *)
Theorem semverLess_strict_weak_order a b c :
  semverLess a a = false /\
  (semverLess a b = true -> semverLess b c = true -> semverLess a c = true) /\
  (semverLess a b = false -> semverLess b c = false -> semverLess a c = false) /\
  (parseSemver a = None -> parseSemver b <> None -> semverLess a b = true).
Proof.
  unfold semverLess. split_and!.
  - destruct (parseSemver a); [|done]. apply partsLess_false. rewrite partsLess_spec. lia.
  - destruct (parseSemver a), (parseSemver b), (parseSemver c); try done. rewrite !partsLess_spec. lia.
  - destruct (parseSemver a), (parseSemver b), (parseSemver c); try done. rewrite !partsLess_false, !partsLess_spec. lia.
  - intros ->. by destruct (parseSemver b).
Qed.

(** ** What is installed was verified *)

Section verified.
Context `{ReleaseTools} (bd : build) (client : nat -> string -> fetched) (env : environ).

(** The checksum list the run downloaded; when a key is configured, its
    signature was checked with it. *)
Definition signedSums (rel : releaseInfo) (sums : string) : Prop :=
  exists url, assetURL rel "SHA256SUMS.txt" = Some url /\ download client 2 url = Some sums /\
    (updatePublicKey bd env <> "" -> exists sigURL sig, assetURL rel "SHA256SUMS.txt.sig" = Some sigURL /\
      download client 3 sigURL = Some sig /\ verifyReleaseSignature sums sig (updatePublicKey bd env) = true).

(** The binary is that of the archive of this platform in the latest release. *)
Definition released (args : list string) (tag newBin : string) (rel : releaseInfo) (archive : string) : Prop :=
  exists url, fetchLatestRelease bd client = Some rel /\ TagName rel = tag /\
    (semverLess (version bd) tag = true \/ flagged ["--force"; "-f"] args = true) /\
    assetURL rel (assetNameFor (GOOS bd) (GOARCH bd) tag).1 = Some url /\ download client 1 url = Some archive /\
    extractBinary bd archive (assetNameFor (GOOS bd) (GOARCH bd) tag).2 (binaryNameFor (GOOS bd)) = Some newBin.

(** The digest of the archive is on the list. *)
Definition listed (rel : releaseInfo) (name archive : string) : Prop :=
  exists sums want, signedSums rel sums /\ sha256FromSums sums name = Some want /\ EqualFold (hexEncode (sha256 archive)) want = true.

(** Nobody vouches for the archive: the list does not name it, or there is
    neither a list nor a key. *)
Definition unlisted (rel : releaseInfo) (name : string) : Prop :=
  (exists sums, signedSums rel sums /\ sha256FromSums sums name = None) \/
  (updatePublicKey bd env = "" /\ assetURL rel "SHA256SUMS.txt" = None).

Definition authentic (args : list string) (tag newBin : string) : Prop :=
  exists rel archive, released args tag newBin rel archive /\ listed rel (assetNameFor (GOOS bd) (GOARCH bd) tag).1 archive.

Definition waived (args : list string) (tag newBin : string) : Prop :=
  flagged ["--insecure"] args = true /\
  exists rel archive, released args tag newBin rel archive /\ unlisted rel (assetNameFor (GOOS bd) (GOARCH bd) tag).1.

Lemma verifyRelease_None insecure rel name archive :
  verifyRelease bd client env insecure rel name archive = None -> listed rel name archive \/ (insecure = true /\ unlisted rel name).
Proof.
  unfold verifyRelease, listed, unlisted, signedSums. destruct (assetURL rel "SHA256SUMS.txt") as [url|] eqn:Eu.
  2: { destruct (empty_str (updatePublicKey bd env)) eqn:E; cbn; [|done]. apply empty_str_spec in E. destruct insecure; [|done]. right. by auto. }
  destruct (download client 2 url) as [sums|] eqn:Ed; [|done]. destruct (checkSum _ _ _ _) eqn:Ec; [done|]. intros Hs.
  assert (Hsig : updatePublicKey bd env <> "" -> exists sigURL sig, assetURL rel "SHA256SUMS.txt.sig" = Some sigURL /\
      download client 3 sigURL = Some sig /\ verifyReleaseSignature sums sig (updatePublicKey bd env) = true).
  { intros Hk. unfold checkSignature in Hs. destruct (empty_str (updatePublicKey bd env)) eqn:E; [by apply empty_str_spec in E|].
    destruct (assetURL rel "SHA256SUMS.txt.sig") as [su|]; [|done]. destruct (download client 3 su) as [sig|] eqn:Es; [|done].
    exists su, sig. split_and!; [done..|]. by destruct (verifyReleaseSignature _ _ _). }
  unfold checkSum, verifySHA256 in Ec. destruct (sha256FromSums sums name) as [want|] eqn:En.
  - left. exists sums, want. split_and!; [by exists url|done|by destruct (EqualFold _ _)].
  - right. split; [by destruct insecure|]. left. exists sums. split; [by exists url|done].
Qed.

Lemma prepareUpdate_authentic dockerenv exe args tag exePath newBin :
  prepareUpdate bd client env dockerenv exe args = inr (tag, exePath, newBin) ->
  (authentic args tag newBin \/ waived args tag newBin) /\ locate exe = Some exePath /\ inContainer env dockerenv = false.
Proof.
  unfold prepareUpdate. destruct (isDevBuild bd && negb (flagged _ args)); [done|].
  destruct (inContainer env dockerenv) eqn:Ei; [done|]. unfold checkForUpdate.
  destruct (fetchLatestRelease bd client) as [rel|] eqn:Er; [|done]. cbn [us_Available].
  destruct (negb (semverLess _ _) && negb (flagged ["--force"; "-f"] args)) eqn:Ea; [done|].
  destruct (assetNameFor (GOOS bd) (GOARCH bd) (TagName rel)) as [name isZip] eqn:En.
  destruct (assetURL rel name) as [url|] eqn:Eu; [|done]. destruct (download client 1 url) as [archive|] eqn:Ed; [|done].
  destruct (verifyRelease _ _ _ _ _ _ _) eqn:Ev; [done|]. destruct (extractBinary _ _ _ _) as [nb|] eqn:Ex; [|done].
  destruct (locate exe) as [p|]; [|done]. intros [= <- <- <-]. split; [|done].
  assert (Hr : released args (TagName rel) nb rel archive).
  { exists url. rewrite En. cbn. split_and!; try done. destruct (semverLess _ _); [by left|]. right. by destruct (flagged ["--force"; "-f"] args). }
  apply verifyRelease_None in Ev as [Hl|[Hi Hl]]; [left|right; split; [done|]]; exists rel, archive; (split; [done|]); by rewrite En.
Qed.
End verified.

(** ** The swap, moment by moment *)

Section swap.
Context (bd : build) (ok : call -> bool) (exePath tmp newBin : string) (i0 : nat) (nd0 : inode string).

(** The running executable is in place. *)
Definition inPlace (d : disk string) : Prop := d_dir d !! exePath = Some i0 /\ d_inodes d !! i0 = Some nd0.

(** A temporary file is open beside it. *)
Definition staged (i : nat) (P : inode string -> Prop) (d : disk string) : Prop :=
  inPlace d /\ i <> i0 /\ tmp <> exePath /\ d_dir d !! tmp = Some i /\ exists nd, d_inodes d !! i = Some nd /\ P nd.

(** A process that starts the executable finds the old one or the new one. *)
Definition startable (d : disk string) : Prop :=
  readDisk d exePath = Some (in_data nd0) \/ readDisk d exePath = Some (Some newBin).

Lemma inPlace_reads d : inPlace d -> readDisk d exePath = Some (in_data nd0).
Proof. intros [Hd Hi]. unfold readDisk. rewrite Hd. cbn. by rewrite Hi. Qed.

Lemma inPlace_startable d : inPlace d -> startable d.
Proof. intros H. left. by apply inPlace_reads. Qed.

Lemma staged_startable i P d : staged i P d -> startable d.
Proof. intros [H _]. by apply inPlace_startable. Qed.

Lemma staged_create d : inPlace d -> tmp <> exePath -> staged (freshInode d) (fun _ => True) (createFile tmp d).
Proof.
  intros [Hd Hi] Hne. assert (Hf : d_inodes d !! freshInode d = None) by (apply not_elem_of_dom, is_fresh).
  assert (freshInode d <> i0) by congruence.
  split_and!; [split|done|done|by apply lookup_insert_eq|eexists; split; [apply lookup_insert_eq|done]]; cbn.
  - by rewrite lookup_insert_ne.
  - by rewrite lookup_insert_ne.
Qed.

Lemma staged_write i P Q nd d : staged i P d -> Q nd -> staged i Q (setInode i nd d).
Proof.
  intros ([Hd Hi] & Hne & Ht & Hdir & _) HQ. split_and!; [split; [done|]|done|done|done|exists nd; split; [apply lookup_insert_eq|done]].
  cbn. by rewrite lookup_insert_ne.
Qed.

Lemma staged_remove i P d : staged i P d -> inPlace (removeFile tmp d).
Proof. intros ([Hd Hi] & Hne & Ht & Hdir & _). split; [|done]. cbn. by rewrite lookup_delete_ne. Qed.

Lemma staged_rename i d : staged i (fun nd => in_data nd = Some newBin) d -> readDisk (renameFile tmp exePath d) exePath = Some (Some newBin).
Proof.
  intros ([Hd Hi] & Hne & Ht & Hdir & nd & Hnd & <-). unfold renameFile. rewrite Hdir. unfold readDisk. cbn.
  rewrite lookup_insert_eq. cbn. by rewrite Hnd.
Qed.

(** What the swap leaves: the new binary, or the old one where it was. *)
Definition swapResult (x : bool) (d : disk string) : Prop :=
  if x then readDisk d exePath = Some (Some newBin) else inPlace d.

Lemma inPlace_fail : triple startable inPlace (io_ret false) swapResult.
Proof. by intros d log. Qed.

Lemma staged_fail i P : triple startable (staged i P) (io_bind (removeTemp ok tmp) (fun _ => io_ret false)) swapResult.
Proof.
  eapply (triple_bind _ _ (fun _ => inPlace)); [|intros b; by intros d log].
  apply triple_sys; [by apply staged_startable|intros; by eapply staged_remove|by intros d [? _]].
Qed.

Lemma staged_close_fail i P :
  triple startable (staged i P) (io_bind (closeCall ok) (fun _ => io_bind (removeTemp ok tmp) (fun _ => io_ret false))) swapResult.
Proof.
  eapply (triple_bind _ _ (fun _ => staged i P)); [|intros _; apply staged_fail].
  apply triple_sys; [by apply staged_startable|done|done].
Qed.

Lemma replaceExecutable_triple : str_eq (GOOS bd) "windows" = false -> tmp <> exePath ->
  triple startable inPlace (replaceExecutable bd ok exePath tmp newBin) swapResult.
Proof.
  intros Hw Hne. unfold replaceExecutable. rewrite Hw. eapply triple_bind; [apply triple_current|]. intros i.
  apply (triple_check _ _ _ _ (staged i (fun _ => True)) inPlace);
    [intros d [? _]; by apply inPlace_startable|intros d [? ->] _; by apply staged_create|by intros d [? _]|apply inPlace_fail|].
  apply (triple_check _ _ _ _ (staged i (fun nd => in_data nd = Some newBin)) (staged i (fun _ => True)));
    [apply staged_startable|intros; by eapply staged_write|intros; by eapply staged_write|apply staged_close_fail|].
  do 2 (apply (triple_check _ _ _ _ (staged i (fun nd => in_data nd = Some newBin)) (staged i (fun nd => in_data nd = Some newBin)));
    [apply staged_startable|done|done|apply staged_fail|]).
  apply (triple_check _ _ _ _ (fun d => readDisk d exePath = Some (Some newBin)) (staged i (fun nd => in_data nd = Some newBin)));
    [apply staged_startable|intros; by eapply staged_rename|done|apply staged_fail|].
  by intros d log.
Qed.
End swap.

(** ** The swap on Windows *)

Section windows.
Context (bd : build) (ok : call -> bool) (exePath tmp newBin : string) (i0 : nat) (nd0 : inode string).
Context (Htmp : tmp <> exePath) (Hold : tmp <> oldName exePath).

(** The executable is away, and the old one is under its other name. *)
Definition away (d : disk string) : Prop := readDisk d exePath = None /\ readDisk d (oldName exePath) = Some (in_data nd0).

Definition bearable (d : disk string) : Prop := startable exePath newBin nd0 d \/ away d.

(** The running executable was moved aside. *)
Definition movedAside (i : nat) (d : disk string) : Prop :=
  d_dir d !! exePath = None /\ d_dir d !! oldName exePath = Some i0 /\ d_inodes d !! i0 = Some nd0 /\ d_dir d !! tmp = Some i /\
  exists nd, d_inodes d !! i = Some nd /\ in_data nd = Some newBin.

Abbreviation ready i := (staged exePath tmp i0 nd0 i (fun nd => in_data nd = Some newBin)).

Definition windowsResult (x : bool) (d : disk string) : Prop :=
  if x then readDisk d exePath = Some (Some newBin) else inPlace exePath i0 nd0 d \/ (ok Rollback = false /\ away d).

Lemma movedAside_away i d : movedAside i d -> away d.
Proof. intros (Hn & Ho & Hi & _). unfold away, readDisk. rewrite Hn, Ho. cbn. by rewrite Hi. Qed.

Lemma aside_bearable i d : movedAside i d -> bearable d.
Proof. intros H. right. by eapply movedAside_away. Qed.

Lemma place_bearable d : inPlace exePath i0 nd0 d -> bearable d.
Proof. intros H. left. by eapply inPlace_startable. Qed.

Lemma staged_bearable i P d : staged exePath tmp i0 nd0 i P d -> bearable d.
Proof. intros [H _]. by apply place_bearable. Qed.

Lemma oldName_ne : oldName exePath <> exePath.
Proof. unfold oldName. intros E. apply (f_equal String.length) in E. rewrite strlen_app in E. cbn in E. lia. Qed.

Lemma ready_removeOld i d : ready i d -> ready i (removeFile (oldName exePath) d).
Proof.
  intros ([Hd Hi] & Hne & Ht & Hdir & Hnd). pose proof oldName_ne.
  split_and!; [split; [cbn; by rewrite lookup_delete_ne|done]|done|done|cbn; by rewrite lookup_delete_ne by congruence|done].
Qed.

Lemma ready_aside i d : ready i d -> movedAside i (renameFile exePath (oldName exePath) d).
Proof.
  intros ([Hd Hi] & Hne & Ht & Hdir & Hnd). unfold renameFile. rewrite Hd.
  split_and!; cbn; [by rewrite lookup_insert_ne, lookup_delete_eq by apply oldName_ne|by rewrite lookup_insert_eq|done|by rewrite lookup_insert_ne, lookup_delete_ne by congruence|done].
Qed.

Lemma aside_install i d : movedAside i d -> readDisk (renameFile tmp exePath d) exePath = Some (Some newBin).
Proof.
  intros (_ & _ & _ & Hdir & nd & Hnd & <-). unfold renameFile. rewrite Hdir. unfold readDisk. cbn.
  rewrite lookup_insert_eq. cbn. by rewrite Hnd.
Qed.

Lemma aside_rollback i d : movedAside i d -> inPlace exePath i0 nd0 (renameFile (oldName exePath) exePath d).
Proof. intros (_ & Hd & Hi & _). unfold renameFile. rewrite Hd. split; [cbn; by rewrite lookup_insert_eq|done]. Qed.

Lemma place_fail P : (forall d, P d -> inPlace exePath i0 nd0 d) -> triple bearable P (io_ret false) windowsResult.
Proof. intros HP d log Hd ?. split; [left; by apply HP|done]. Qed.

Lemma temp_gone i P :
  triple bearable (staged exePath tmp i0 nd0 i P) (io_bind (removeTemp ok tmp) (fun _ => io_ret false)) windowsResult.
Proof.
  eapply (triple_bind _ _ (fun _ => inPlace exePath i0 nd0)); [|intros b; by apply place_fail].
  apply triple_sys; [apply staged_bearable|intros; by eapply staged_remove|by intros d [? _]].
Qed.

Lemma replaceExecutable_windows : str_eq (GOOS bd) "windows" = true ->
  triple bearable (inPlace exePath i0 nd0) (replaceExecutable bd ok exePath tmp newBin) windowsResult.
Proof.
  intros Hw. unfold replaceExecutable. rewrite Hw. eapply triple_bind; [apply triple_current|]. intros i.
  apply (triple_check _ _ _ _ (staged exePath tmp i0 nd0 i (fun _ => True)) (inPlace exePath i0 nd0));
    [intros d [? _]; by apply place_bearable|intros d [? ->] _; by apply staged_create|by intros d [? _]|by apply place_fail|].
  apply (triple_check _ _ _ _ (ready i) (staged exePath tmp i0 nd0 i (fun _ => True)));
    [apply staged_bearable|intros; by eapply staged_write|intros; by eapply staged_write| |].
  { eapply (triple_bind _ _ (fun _ => staged exePath tmp i0 nd0 i (fun _ => True))); [apply triple_sys; [apply staged_bearable|done|done]|intros _; apply temp_gone]. }
  do 2 (apply (triple_check _ _ _ _ (ready i) (ready i)); [apply staged_bearable|done|done|apply temp_gone|]).
  eapply (triple_bind _ _ (fun _ => ready i)); [apply triple_sys; [apply staged_bearable|intros; by apply ready_removeOld|done]|intros _].
  apply (triple_check _ _ _ _ (movedAside i) (ready i)); [apply staged_bearable|intros; by apply ready_aside|done|apply temp_gone|].
  apply (triple_check _ _ _ _ (fun d => readDisk d exePath = Some (Some newBin)) (movedAside i));
    [apply aside_bearable|intros; by eapply aside_install|done| |by intros d log].
  eapply (triple_bind _ _ (fun (b : bool) d => if b then inPlace exePath i0 nd0 d else ok Rollback = false /\ movedAside i d));
    [apply triple_sys; [apply aside_bearable|intros; by eapply aside_rollback|done]|].
  intros [] d log HQ ?; (split; [|done]); [by left|right]. destruct HQ as [? ?]. split; [done|by eapply movedAside_away].
Qed.
End windows.

(** The swap on every system. *)
Lemma swap_bearable bd ok exePath tmp newBin i0 nd0 : tmp <> exePath -> tmp <> oldName exePath -> forall d, inPlace exePath i0 nd0 d ->
  let '(x, (d', log)) := replaceExecutable bd ok exePath tmp newBin (d, []) in
  (if x then readDisk d' exePath = Some (Some newBin)
   else inPlace exePath i0 nd0 d' \/ (GOOS bd = "windows" /\ ok Rollback = false /\ away exePath nd0 d')) /\
  Forall (fun h => startable exePath newBin nd0 h \/ (GOOS bd = "windows" /\ away exePath nd0 h)) log.
Proof.
  intros H1 H2 d Hp. destruct (str_eq (GOOS bd) "windows") eqn:Ew.
  - pose proof (replaceExecutable_windows bd ok exePath tmp newBin i0 nd0 H1 H2 Ew d [] Hp (Forall_nil_2 _)) as Ht. apply str_eq_spec in Ew.
    destruct (replaceExecutable _ _ _ _ _ _) as [x [d' log]]. destruct Ht as [Hx Hl]. split; [destruct x; [done|]; destruct Hx; [by left|by right]|].
    eapply Forall_impl; [exact Hl|]. intros h [?|?]; [by left|by right].
  - pose proof (replaceExecutable_triple bd ok exePath tmp newBin i0 nd0 Ew H1 d [] Hp (Forall_nil_2 _)) as Ht.
    destruct (replaceExecutable _ _ _ _ _ _) as [x [d' log]]. destruct Ht as [Hx Hl]. split; [destruct x; [done|by left]|].
    eapply Forall_impl; [exact Hl|]. intros h ?. by left.
Qed.

(** ** The command as a whole *)

(** C12: a process that starts the executable at any moment of an update finds the
    old binary or the one of the archive of this platform from the latest
    release, and that archive was checked: its digest is on the checksum list
    and matches, and with a release key configured the list was signed with it.
    The flag --insecure, and nothing else, lets through an archive nobody
    vouches for: one the list does not name, be the list signed or not, or,
    when no key is configured, a release without a list.  Success means that
    binary is in place, and every failure that the old one still is.  Windows
    alone has moments between two renames when the path holds nothing and the
    old binary is beside it under its name with .old; an installation that
    failed there and could not be rolled back leaves it so.  The name of the
    temporary file is free and not that of the old binary. *)
Theorem update_installs_only_verified `{ReleaseTools} bd client ok tmp env dockerenv exe args exePath i0 nd0 d :
  locate exe = Some exePath -> d_dir d !! exePath = Some i0 -> d_inodes d !! i0 = Some nd0 -> d_dir d !! tmp = None -> tmp <> oldName exePath ->
  let '(e, (d', log)) := runUpdate bd client ok tmp env dockerenv exe args (d, []) in
  let isOld h := readDisk h exePath = Some (in_data nd0) in
  let isNew tag h := exists newBin, (authentic bd client env args tag newBin \/ waived bd client env args tag newBin) /\ readDisk h exePath = Some (Some newBin) in
  let isAway h := GOOS bd = "windows" /\ readDisk h exePath = None /\ readDisk h (oldName exePath) = Some (in_data nd0) in
  (forall h, h ∈ d' :: log -> isOld h \/ (exists tag, isNew tag h) \/ isAway h) /\
  match e with
  | Updated tag => isNew tag d'
  | InstallFailed => isOld d' \/ (ok Rollback = false /\ isAway d')
  | _ => isOld d'
  end.
Proof.
  intros Hl Hd Hi Ht Hold. assert (Hp : inPlace exePath i0 nd0 d) by done. assert (Hne : tmp <> exePath) by congruence. unfold runUpdate.
  destruct (prepareUpdate bd client env dockerenv exe args) as [e|[[tag path] newBin]] eqn:E.
  { pose proof (inPlace_reads exePath i0 nd0 d Hp) as Hr. cbn. split.
    - intros h Hh. apply list_elem_of_singleton in Hh as ->. by left.
    - destruct e; try done; [by left|]. exfalso. revert E. unfold prepareUpdate, verifyRelease, checkSum, checkSignature. repeat case_match; congruence. }
  apply prepareUpdate_authentic in E as (Ha & Hloc & _). rewrite Hl in Hloc. simplify_eq.
  pose proof (swap_bearable bd ok path tmp newBin i0 nd0 Hne Hold d Hp) as Hs.
  unfold io_bind. destruct (replaceExecutable bd ok path tmp newBin (d, [])) as [x [d' log]]. destruct Hs as [Hx Hlog]. cbn.
  assert (Hcase : forall h, (startable path newBin nd0 h \/ (GOOS bd = "windows" /\ away path nd0 h)) ->
    readDisk h path = Some (in_data nd0) \/
    (exists tag newBin, (authentic bd client env args tag newBin \/ waived bd client env args tag newBin) /\ readDisk h path = Some (Some newBin)) \/
    (GOOS bd = "windows" /\ readDisk h path = None /\ readDisk h (oldName path) = Some (in_data nd0))).
  { intros h [[?|?]|[? [? ?]]]; [by left|right; left; eauto|right; by right]. }
  split; [|destruct x; [by exists newBin|destruct Hx as [Hx|(Hw & Hb & Hx)]; [left; by eapply inPlace_reads|right; by split]]].
  intros h [->|Hh]%elem_of_cons; apply Hcase; [|by eapply Forall_forall in Hlog].
  destruct x; [left; by right|]. destruct Hx as [Hx|(Hw & Hb & Hx)]; [left; by eapply inPlace_startable|by right].
Qed.

(** On Windows a failed install leaves the executable in place whenever moving
    it back works. *)
Theorem windows_update_rolls_back bd ok exePath tmp newBin i0 nd0 d :
  GOOS bd = "windows" -> d_dir d !! exePath = Some i0 -> d_inodes d !! i0 = Some nd0 ->
  tmp <> exePath -> tmp <> oldName exePath ->
  let '(x, (d', _)) := replaceExecutable bd ok exePath tmp newBin (d, []) in
  if x then readDisk d' exePath = Some (Some newBin) else ok Rollback = true -> readDisk d' exePath = Some (in_data nd0).
Proof.
  intros Hw Hd Hi H1 H2. apply str_eq_spec in Hw.
  pose proof (replaceExecutable_windows bd ok exePath tmp newBin i0 nd0 H1 H2 Hw d [] (conj Hd Hi) (Forall_nil_2 _)) as Ht.
  destruct (replaceExecutable _ _ _ _ _ _) as [[] [d' log]]; destruct Ht as [Hx _]; [done|].
  intros Hr. destruct Hx as [Hx|[Hx _]]; [by eapply inPlace_reads|congruence].
Qed.

(** ** Examples *)

Definition exTools : ReleaseTools := {|
  decodeRelease := fun body => Some (mkRelease "v1.2.0" "" [("calvoproxy-v1.2.0-linux-amd64.tar.gz", body +:+ "/a");
    ("SHA256SUMS.txt", body +:+ "/s"); ("SHA256SUMS.txt.sig", body +:+ "/g")]);
  zipFiles := fun _ => None;
  tarFiles := fun archive => Some [("calvoproxy-v1.2.0/README", Some "text"); ("calvoproxy-v1.2.0/calvoproxy", Some archive)];
  sha256 := fun s => String.substring 0 32 (s +:+ "................................");
  ed25519_Verify := fun pub msg sig => str_eq (String.substring 0 8 sig) "gen-sig.";
|}.

Definition exBuild : build := mkBuild "v1.1.9" "o/r" "linux" "amd64" "https://api" (EncodeToString "01234567890123456789012345678901").

Definition exSig : string := EncodeToString "gen-sig.--------------------------------------------------------".
Definition exSums : string := hexEncode (sha256 (ReleaseTools := exTools) "ELF") +:+ "  calvoproxy-v1.2.0-linux-amd64.tar.gz".

Definition exClient (archive sums : string) (_ : nat) (url : string) : fetched :=
  if str_eq url "u/a" then Response 200 archive else if str_eq url "u/s" then Response 200 sums
  else if str_eq url "u/g" then Response 200 exSig else Response 200 "u".

Definition exExe : exeLocation := mkExe (Some "/bin/calvoproxy") (fun _ => None).

(** With a release key configured and --insecure, a checksum list that is
    signed but has no line for the archive lets any bytes be installed. *)
Theorem insecure_bypasses_signature :
  updatePublicKey exBuild ∅ <> "" /\
  prepareUpdate (H := exTools) exBuild (exClient "unsigned bytes" "00  other.tar.gz") ∅ false exExe ["--insecure"] =
    inr ("v1.2.0", "/bin/calvoproxy", "unsigned bytes") /\
  prepareUpdate (H := exTools) exBuild (exClient "unsigned bytes" "00  other.tar.gz") ∅ false exExe [] = inl NoChecksum.
Proof. repeat split; vm_compute; congruence. Qed.

Definition exDisk : disk string := mkDisk {[1%nat := mkInode (Some "old") true]} {["/bin/calvoproxy" := 1%nat]} [] Durable.

(** The new binary is renamed into place without being synced: after a power
    failure the path may hold anything, although the update reported success. *)
Theorem updated_executable_can_be_torn data :
  let '(e, (d', _)) := runUpdate (H := exTools) exBuild (exClient "ELF" exSums) (fun _ => true) "t" ∅ false exExe [] (exDisk, []) in
  e = Updated "v1.2.0" /\ afterCrash d' "/bin/calvoproxy" (Some data).
Proof.
  match goal with |- let '(_, _) := ?r in _ => let v := eval vm_compute in r in change r with v end. split; [done|].
  left. eexists. split; [left|]. unfold foundAt. cbn. eexists. split; [reflexivity|]. exists data. split; [done|]. intros [=].
Qed.

Lemma update_installs_only_verified_witness :
  exists tag newBin, authentic (H := exTools) exBuild (exClient "ELF" exSums) ∅ [] tag newBin /\ newBin = "ELF".
Proof.
  pose proof (update_installs_only_verified (H := exTools) exBuild (exClient "ELF" exSums) (fun _ => true) "t" ∅ false exExe []
    "/bin/calvoproxy" 1 (mkInode (Some "old") true) exDisk) as Hu.
  match type of Hu with context [let '(_, _) := ?r in _] => assert (Hr : r.1 = Updated "v1.2.0" /\ readDisk r.2.1 "/bin/calvoproxy" = Some (Some "ELF"))
    by (split; vm_compute; reflexivity); destruct r as [e [d' log]] end.
  cbn in Hr. destruct Hr as [-> Hr]. destruct Hu as [_ (newBin & [Ha|[Ha _]] & Hb)]; [reflexivity..|discriminate| |discriminate Ha].
  exists "v1.2.0", newBin. split; [exact Ha|]. congruence.
Defined.

Lemma windows_update_rolls_back_witness :
  let bd := mkBuild "v1.1.9" "o/r" "windows" "amd64" "" "" in
  let '(x, (d', _)) := replaceExecutable bd (fun c => match c with Replace => false | _ => true end) "/bin/calvoproxy" "t" "new" (exDisk, []) in
  x = false /\ readDisk d' "/bin/calvoproxy" = Some (Some "old").
Proof.
  pose proof (windows_update_rolls_back (mkBuild "v1.1.9" "o/r" "windows" "amd64" "" "")
    (fun c => match c with Replace => false | _ => true end) "/bin/calvoproxy" "t" "new" 1 (mkInode (Some "old") true) exDisk) as Hw.
  cbv zeta in Hw |- *. match type of Hw with context [let '(_, _) := ?r in _] => assert (Hr : r.1 = false) by (vm_compute; reflexivity); destruct r as [x [d' log]] end.
  cbn in Hr. subst x. split; [reflexivity|]. apply Hw; [reflexivity..|discriminate|discriminate|reflexivity].
Defined.

Example semver_examples :
  semverLess "v0.9.9" "v0.10.0" = true /\ semverLess "1.4" "v1.4.0-rc1" = false /\ semverLess "dev" "v0.0.1" = true /\ parseSemver "1.2.3.4" = None.
Proof. repeat split. Qed.

Lemma semverLess_strict_weak_order_witness : semverLess "v0.9.9" "v1.0.1" = true.
Proof. destruct (semverLess_strict_weak_order "v0.9.9" "v0.10.0" "v1.0.1") as (_ & H & _). apply H; reflexivity. Defined.
