(* ===== verification/Net.v ===== *)
(** * Net: the addresses the server looks at

    The parts of Go's net package that decide who is local, as cmd/security.go
    and cmd/admin_sessions.go use them: [net.SplitHostPort], [net.ParseIP] and
    [IP.IsLoopback].  An address is its bytes, four or sixteen of them.
    Looking a host name up is a question to the network and stays an argument
    of its users. *)

From S2P Require Import Prelude Env Text.
From Stdlib Require Import Lia ZArith String Ascii.
#[local] Open Scope string_scope.
#[local] Open Scope Z_scope.

Fixpoint indexByte (c : ascii) (s : string) : option nat :=
  match s with EmptyString => None | String a s => if Ascii.eqb a c then Some O else S <$> indexByte c s end.

Fixpoint lastIndexByte (c : ascii) (s : string) : option nat :=
  match s with
  | EmptyString => None
  | String a s => match lastIndexByte c s with Some i => Some (S i) | None => if Ascii.eqb a c then Some O else None end
  end.

Definition hasByte (c : ascii) (s : string) : bool := match indexByte c s with Some _ => true | None => false end.

Definition from (i : nat) (s : string) : string := String.substring i (String.length s) s.

(** [net.SplitHostPort]; [None] is any of its errors. *)
Definition SplitHostPort (hostport : string) : option (string * string) :=
  match lastIndexByte ":" hostport with
  | None => None
  | Some i =>
      let port := from (S i) hostport in
      match hostport with
      | String "["%char _ =>
          match indexByte "]" hostport with
          | None => None
          | Some e =>
              if negb (S e =? i)%nat then None
              else if hasByte "[" (from 1 hostport) then None
              else if hasByte "]" (from (S e) hostport) then None
              else Some (String.substring 1 (e - 1) hostport, port)
          end
      | _ =>
          let host := String.substring 0 i hostport in
          if hasByte ":" host then None
          else if hasByte "[" hostport || hasByte "]" hostport then None
          else Some (host, port)
      end
  end.

(** ** Addresses *)

Definition octet (s : string) : option Z :=
  match s with
  | EmptyString => None
  | String "0"%char (String _ _) => None
  | _ => match digits_val 0 s with Some n => if n <=? 255 then Some n else None | None => None end
  end.

Fixpoint octets (l : list string) : option (list Z) :=
  match l with
  | [] => Some []
  | s :: l => match octet s, octets l with Some n, Some ns => Some (n :: ns) | _, _ => None end
  end.

Definition parseIPv4 (s : string) : option (list Z) :=
  match octets (split_on "." s) with
  | Some [a; b; c; d] => Some [a; b; c; d]
  | _ => None
  end.

Definition hexVal (c : ascii) : option Z :=
  let n := Z.of_nat (nat_of_ascii c) in
  if (48 <=? n) && (n <=? 57) then Some (n - 48)
  else if (97 <=? n) && (n <=? 102) then Some (n - 87)
  else if (65 <=? n) && (n <=? 70) then Some (n - 55)
  else None.

(** The hex digits at the front: how many, their value, and what follows. *)
Fixpoint hexRun (off : nat) (acc : Z) (s : string) : nat * Z * string :=
  match s with
  | String c r => match hexVal c with Some d => hexRun (S off) (16 * acc + d) r | None => (off, acc, s) end
  | EmptyString => (off, acc, s)
  end.

(** The groups of an IPv6 address: the bytes so far, where "::" stood, and
    the text that is left.  Eight turns are as many as there are groups. *)
Fixpoint groups (fuel : nat) (ip : list Z) (ellipsis : option nat) (s : string) : option (list Z * option nat * string) :=
  match fuel with
  | O => Some (ip, ellipsis, s)
  | S fuel =>
      let '(off, acc, rest) := hexRun 0 0 s in
      if (4 <? off)%nat || (off =? 0)%nat then None
      else match rest with
      | String "."%char _ =>
          if (match ellipsis with None => negb (List.length ip =? 12)%nat | Some _ => false end) || (12 <? List.length ip)%nat then None
          else match parseIPv4 s with Some four => Some (ip ++ four, ellipsis, "")%list | None => None end
      | _ =>
          let ip := (ip ++ [acc / 256; acc mod 256])%list in
          match rest with
          | EmptyString => Some (ip, ellipsis, "")
          | String ":"%char EmptyString => None
          | String ":"%char (String ":"%char r) =>
              match ellipsis with
              | Some _ => None
              | None => match r with EmptyString => Some (ip, Some (List.length ip), "") | _ => groups fuel ip (Some (List.length ip)) r end
              end
          | String ":"%char r => groups fuel ip ellipsis r
          | _ => None
          end
      end
  end.

Definition expand (ip : list Z) (ellipsis : option nat) : option (list Z) :=
  let n := List.length ip in
  if (n <? 16)%nat then
    match ellipsis with None => None | Some e => Some (take e ip ++ replicate (16 - n) 0 ++ drop e ip)%list end
  else match ellipsis with None => Some ip | Some _ => None end.

Definition parseIPv6 (s : string) : option (list Z) :=
  if hasByte "%" s then None
  else match s with
  | String ":"%char (String ":"%char EmptyString) => Some (replicate 16 0)
  | _ =>
      let '(e, r) := match s with String ":"%char (String ":"%char r) => (Some O, r) | _ => (None, s) end in
      match groups 8 [] e r with
      | Some (ip, e, EmptyString) => expand ip e
      | _ => None
      end
  end.

(** [net.ParseIP]: the first dot or colon says which kind it is. *)
Fixpoint kindOf (s : string) : option bool :=
  match s with
  | EmptyString => None
  | String "."%char _ => Some true
  | String ":"%char _ => Some false
  | String "%"%char _ => None
  | String _ s => kindOf s
  end.

Definition ParseIP (s : string) : option (list Z) :=
  match kindOf s with Some true => parseIPv4 s | Some false => parseIPv6 s | None => None end.

(** [IP.IsLoopback]: 127.0.0.0/8, also mapped into IPv6, and ::1. *)
Definition IsLoopback (ip : list Z) : bool :=
  match ip with
  | [a; _; _; _] => a =? 127
  | _ =>
      if bool_decide (take 12 ip = replicate 10 0 ++ [255; 255])%list then (match drop 12 ip with a :: _ => a =? 127 | [] => false end)
      else bool_decide (ip = replicate 15 0 ++ [1])%list
  end.

Definition loopbackAddr (s : string) : bool := match ParseIP s with Some ip => IsLoopback ip | None => false end.

Example loopback_examples :
  loopbackAddr "127.0.0.1" = true /\ loopbackAddr "127.9.9.9" = true /\ loopbackAddr "::1" = true /\ loopbackAddr "::ffff:127.0.0.1" = true /\
  loopbackAddr "0:0:0:0:0:0:0:1" = true /\ loopbackAddr "10.0.0.1" = false /\ loopbackAddr "::" = false /\ loopbackAddr "127.1" = false /\
  loopbackAddr "::1%lo" = false /\ loopbackAddr "0127.0.0.1" = false /\ loopbackAddr "1::2::3" = false /\ loopbackAddr "localhost" = false.
Proof. vm_compute. repeat split. Qed.

Example split_examples :
  SplitHostPort "127.0.0.1:80" = Some ("127.0.0.1", "80") /\ SplitHostPort "[::1]:80" = Some ("::1", "80") /\ SplitHostPort "::1:80" = None /\
  SplitHostPort "host" = None /\ SplitHostPort ":80" = Some ("", "80") /\ SplitHostPort "[::1]" = None /\ SplitHostPort "[::1]a:80" = None.
Proof. vm_compute. repeat split. Qed.
