(* ===== verification/AdminSessions.v ===== *)
(** * AdminSessions: who may use the admin console (cmd/admin_sessions.go)

    Sessions are kept under the hash of their token and login attempts under
    the address of the caller.  SHA-256 is the argument [Sum256]; random bytes
    and the clock are arguments of the operations; the order in which Go walks
    a map is the class [MapRange].  A request carries the facts the handlers
    ask of it; decoding its JSON body is the argument [decodeJSON], given the
    bytes that can be read and whether reading fails after them. *)

From S2P Require Import Prelude Env Text Net Http.
From Stdlib Require Import Lia ZArith String Ascii.
#[local] Open Scope string_scope.
#[local] Open Scope Z_scope.

Definition adminSessionCookie : string := "calvoproxy_admin".
Definition adminSessionTTL : Z := 8 * Hour.
Definition adminLoginWindow : Z := Minute.
Definition adminLoginBurst : Z := 5.

Record adminSession := mkSession { csrf : string; expiresAt : Z }.

Record adminLoginAttempts := mkAttempts { windowStart : Z; attemptCount : Z }.

Record adminSessions := mkSessions {
  sessions : gmap string adminSession;
  attempts : gmap string adminLoginAttempts;
}.

Definition newAdminSessions : adminSessions := mkSessions ∅ ∅.
Definition setSessions (m : gmap string adminSession) (s : adminSessions) : adminSessions := mkSessions m (attempts s).

Definition adminToken (env : environ) : string := TrimSpace (Getenv env "PROXY_ADMIN_TOKEN").

(** ** base64.RawURLEncoding *)

Definition urlDigit (n : Z) : ascii :=
  ascii_of_nat (Z.to_nat (if n <? 26 then 65 + n else if n <? 52 then 71 + n else if n <? 62 then n - 4 else if n =? 62 then 45 else 95)).

Definition byteVal (c : ascii) : Z := Z.of_nat (nat_of_ascii c).

Fixpoint rawURLEncode (s : string) : string :=
  match s with
  | EmptyString => EmptyString
  | String a EmptyString =>
      let n := Z.shiftl (byteVal a) 16 in
      String (urlDigit (Z.shiftr n 18)) (String (urlDigit (Z.land (Z.shiftr n 12) 63)) EmptyString)
  | String a (String b EmptyString) =>
      let n := Z.lor (Z.shiftl (byteVal a) 16) (Z.shiftl (byteVal b) 8) in
      String (urlDigit (Z.shiftr n 18)) (String (urlDigit (Z.land (Z.shiftr n 12) 63)) (String (urlDigit (Z.land (Z.shiftr n 6) 63)) EmptyString))
  | String a (String b (String c s)) =>
      let n := Z.lor (Z.shiftl (byteVal a) 16) (Z.lor (Z.shiftl (byteVal b) 8) (byteVal c)) in
      String (urlDigit (Z.shiftr n 18)) (String (urlDigit (Z.land (Z.shiftr n 12) 63))
        (String (urlDigit (Z.land (Z.shiftr n 6) 63)) (String (urlDigit (Z.land n 63)) (rawURLEncode s))))
  end.

(** ** Requests *)

(** What a JSON body held: no value of the expected shape, one and nothing
    else, or one and more. *)
Inductive decoded := BadJSON | OneValue (field : string) | MoreValues.

Record adminRequest := mkAdminRequest {
  q_Method : string;
  q_Path : string;
  q_TLS : bool;
  q_Host : string;
  q_RemoteAddr : string;
  q_Header : string -> string;
  q_Cookie : option string;
  q_Body : string;
  q_BodyError : bool;   (** reading the body fails *)
}.

Definition adminClientIP (r : adminRequest) : string :=
  match SplitHostPort (q_RemoteAddr r) with Some (host, _) => host | None => q_RemoteAddr r end.

Definition adminTransportAllowed (env : environ) (r : adminRequest) : bool :=
  if q_TLS r || EqualFold (TrimSpace (Getenv env "PROXY_ADMIN_ALLOW_INSECURE_REMOTE")) "true" then true
  else loopbackAddr (adminClientIP r).

Definition adminExpectedOrigin (r : adminRequest) : string :=
  (if q_TLS r then "https" else "http") +:+ "://" +:+ q_Host r.

Definition adminOriginValid (r : adminRequest) : bool :=
  let origin := TrimSuffix (TrimSpace (q_Header r "Origin")) "/" in
  negb (empty_str origin) && str_eq origin (TrimSuffix (adminExpectedOrigin r) "/").

(** ** Responses *)

(** The JSON values the console answers with. *)
Inductive adminJSON :=
| ErrorBody (message : string)
| CsrfBody (csrf_token : string)
| KeyStored (provider : string)
| TestOK (provider : string) (latency_ms : Z)
| ProviderList (backend : string) (available locked : bool) (providers : list (string * bool * string * bool * string)) (csrf_token : string)
| Page (data : string)
| NotFoundText
| NoBody.

(** The cookie a response sets. *)
Record setCookie := mkCookie {
  ck_Name : string;
  ck_Value : string;
  ck_Path : string;
  ck_HttpOnly : bool;
  ck_Secure : bool;
  ck_SameSiteStrict : bool;
  ck_Expires : option Z;
  ck_MaxAge : Z;
}.

Record adminResponse := mkAdminResponse {
  ar_status : Z;
  ar_header : gmap string (list string);
  ar_cookie : option setCookie;
  ar_body : adminJSON;
}.

Definition setAdminSecurityHeaders (h : gmap string (list string)) : gmap string (list string) :=
  fold_left (fun h '(k, v) => header_Set k v h)
    [("Cache-Control", "no-store, max-age=0"); ("Pragma", "no-cache"); ("Referrer-Policy", "no-referrer");
     ("X-Content-Type-Options", "nosniff"); ("X-Frame-Options", "DENY"); ("Cross-Origin-Opener-Policy", "same-origin");
     ("Cross-Origin-Resource-Policy", "same-origin"); ("Permissions-Policy", "camera=(), microphone=(), geolocation=()");
     ("Content-Security-Policy", "default-src 'none'; script-src 'self'; style-src 'self'; img-src 'self'; connect-src 'self'; base-uri 'none'; form-action 'self'; frame-ancestors 'none'")] h.

Definition writeAdminJSON (status : Z) (value : adminJSON) (h : gmap string (list string)) : adminResponse :=
  mkAdminResponse status (header_Set "Content-Type" "application/json; charset=utf-8" h) None value.

Definition writeAdminError (status : Z) (message : string) : gmap string (list string) -> adminResponse :=
  writeAdminJSON status (ErrorBody message).

Definition notAllowed (allow : string) (h : gmap string (list string)) : adminResponse :=
  writeAdminError 405 "Method not allowed" (header_Set "Allow" allow h).

(** ** Sessions *)

Section sessions.
Context (Sum256 : string -> string) `{MapRange}.

Definition secureEqual (left right : string) : bool := str_eq (Sum256 left) (Sum256 right).

(** The trimming loop: entries are deleted in the order of the walk until at
    most 1024 are left. *)
Fixpoint trimLoop (hashes : list string) (m : gmap string adminSession) : gmap string adminSession :=
  match hashes with
  | [] => m
  | hash :: hashes =>
      let m := delete hash m in
      if (size m <=? 1024)%nat then m else trimLoop hashes m
  end.

Definition unexpired (now : Z) (m : gmap string adminSession) : gmap string adminSession :=
  fold_left (fun acc '(hash, session) => if negb (Before now (expiresAt session)) then delete hash acc else acc) (range_of m) m.

Definition cleanupLocked (now : Z) (s : adminSessions) : adminSessions :=
  let m := unexpired now (sessions s) in
  setSessions (if (2048 <? size m)%nat then trimLoop (range_of m).*1 m else m) s.

(** [raw] and [csrfRaw] are the bytes read from the random source. *)
Definition issue (now : Z) (raw csrfRaw : option string) (s : adminSessions) : option (string * string * Z) * adminSessions :=
  match raw, csrfRaw with
  | Some raw, Some csrfRaw =>
      let token := rawURLEncode raw in
      let csrf := rawURLEncode csrfRaw in
      let expires := time_Add now adminSessionTTL in
      let s := cleanupLocked now s in
      (Some (token, csrf, expires), setSessions (<[Sum256 token := mkSession csrf expires]> (sessions s)) s)
  | _, _ => (None, s)
  end.

Definition get (now : Z) (token : string) (s : adminSessions) : option adminSession * adminSessions :=
  if empty_str token then (None, s)
  else let s := cleanupLocked now s in (sessions s !! Sum256 token, s).

Definition revoke (token : string) (s : adminSessions) : adminSessions :=
  setSessions (delete (Sum256 token) (sessions s)) s.

(** ** Login attempts *)

Definition freshWindow (now : Z) (entry : adminLoginAttempts) : adminLoginAttempts :=
  if IsZero (windowStart entry) || (adminLoginWindow <=? time_Sub now (windowStart entry)) then mkAttempts now 0 else entry.

Definition pruneAttempts (now : Z) (m : gmap string adminLoginAttempts) : gmap string adminLoginAttempts :=
  fold_left (fun acc '(key, candidate) => if adminLoginWindow <=? time_Sub now (windowStart candidate) then delete key acc else acc) (range_of m) m.

Definition allowLogin (now : Z) (ip : string) (s : adminSessions) : bool * adminSessions :=
  let entry := freshWindow now (default (mkAttempts 0 0) (attempts s !! ip)) in
  let entry := mkAttempts (windowStart entry) (wrap64 (attemptCount entry + 1)) in
  let m := <[ip := entry]> (attempts s) in
  let m := if (2048 <? size m)%nat then pruneAttempts now m else m in
  (attemptCount entry <=? adminLoginBurst, mkSessions (sessions s) m).

(** ** Authentication *)

Context (env : environ) (decodeJSON : string -> bool -> decoded).

Definition adminBearerAuthorized (r : adminRequest) : bool :=
  let header := q_Header r "Authorization" in
  if negb (HasPrefix header "Bearer ") then false
  else let want := adminToken env in negb (empty_str want) && secureEqual (TrimPrefix header "Bearer ") want.

Definition emptySession : adminSession := mkSession "" 0.

Definition authenticate (now : Z) (r : adminRequest) (mutation : bool) (s : adminSessions) : option adminSession * adminSessions :=
  if adminBearerAuthorized r then (Some emptySession, s)
  else match q_Cookie r with
       | None => (None, s)
       | Some cookie =>
           let '(found, s) := get now cookie s in
           match found with
           | None => (None, s)
           | Some session =>
               if mutation && (negb (adminOriginValid r) || negb (secureEqual (q_Header r "X-CSRF-Token") (csrf session)))
               then (None, s) else (Some session, s)
           end
       end.

(** [decodeAdminJSON] for a body with one field: [inl] is the refusal. *)
Definition decodeAdminJSON (maxBytes : Z) (r : adminRequest) : (gmap string (list string) -> adminResponse) + string :=
  let mediaType := ToLower (TrimSpace (default "" (head (split_on ";" (q_Header r "Content-Type"))))) in
  if negb (str_eq mediaType "application/json") then inl (writeAdminError 415 "Content-Type must be application/json")
  else
    let cut := maxBytes <? Z.of_nat (String.length (q_Body r)) in
    let body := if cut then String.substring 0 (Z.to_nat maxBytes) (q_Body r) else q_Body r in
    match decodeJSON body (cut || q_BodyError r) with
    | BadJSON => inl (writeAdminError 400 "Invalid JSON body")
    | MoreValues => inl (writeAdminError 400 "JSON body must contain one value")
    | OneValue v => inr v
    end.

Definition rejectAdminBody (operation : string) (r : adminRequest) : option (gmap string (list string) -> adminResponse) :=
  if negb (empty_str (q_Body r)) || q_BodyError r
  then Some (writeAdminError 400 (operation +:+ " does not accept a request body")) else None.

Definition sessionCookie (value : string) (secure : bool) (expires : option Z) (maxAge : Z) : setCookie :=
  mkCookie adminSessionCookie value "/admin" true secure true expires maxAge.

Definition withCookie (c : setCookie) (resp : adminResponse) : adminResponse :=
  mkAdminResponse (ar_status resp) (ar_header resp) (Some c) (ar_body resp).

Definition sessionHandler (now : Z) (raw csrfRaw : option string) (r : adminRequest) (h : gmap string (list string)) (s : adminSessions) : adminResponse * adminSessions :=
  if empty_str (adminToken env) then (writeAdminError 503 "Admin UI requires PROXY_ADMIN_TOKEN" h, s)
  else if str_eq (q_Method r) "POST" then
    if negb (adminOriginValid r) then (writeAdminError 403 "Invalid request origin" h, s)
    else
      let '(allowed, s) := allowLogin now (adminClientIP r) s in
      if negb allowed then (writeAdminError 429 "Too many login attempts; try again shortly" (header_Set "Retry-After" "60" h), s)
      else match decodeAdminJSON 4096 r with
           | inl refuse => (refuse h, s)
           | inr token =>
               if negb (secureEqual token (adminToken env)) then (writeAdminError 401 "Invalid admin token" h, s)
               else match issue now raw csrfRaw s with
                    | (None, s) => (writeAdminError 500 "Could not create admin session" h, s)
                    | (Some (token, csrf, expires), s) =>
                        (withCookie (sessionCookie token (q_TLS r) (Some expires) (adminSessionTTL / Second)) (writeAdminJSON 201 (CsrfBody csrf) h), s)
                    end
           end
  else if str_eq (q_Method r) "DELETE" then
    match authenticate now r true s with
    | (None, s) => (writeAdminError 401 "Unauthorized" h, s)
    | (Some _, s) =>
        let s := match q_Cookie r with Some cookie => revoke cookie s | None => s end in
        (mkAdminResponse 204 h (Some (sessionCookie "" (q_TLS r) None (-1))) NoBody, s)
    end
  else (notAllowed "POST, DELETE" h, s).
End sessions.

(** ** Walking a map and deleting from it *)

Lemma fold_delete {A} (p : A -> bool) (l : list (string * A)) : forall acc : gmap string A, forall k,
  fold_left (fun acc '(k', v) => if p v then delete k' acc else acc) l acc !! k =
  if existsb (fun kv => str_eq k kv.1 && p kv.2) l then None else acc !! k.
Proof.
  induction l as [|[k' v] l IH]; intros acc k; [done|]. cbn [fold_left existsb]. rewrite IH. cbn [fst snd].
  destruct (existsb _ l); [by rewrite orb_true_r|]. rewrite orb_false_r.
  destruct (p v); [|by rewrite andb_false_r]. rewrite andb_true_r. destruct (str_eq k k') eqn:E.
  - apply str_eq_spec in E as ->. by rewrite lookup_delete_eq.
  - apply str_eq_false in E. by rewrite lookup_delete_ne.
Qed.

Lemma range_delete `{MapRange} {A} (p : A -> bool) (m : gmap string A) k :
  fold_left (fun acc '(k', v) => if p v then delete k' acc else acc) (range_of m) m !! k =
  match m !! k with Some v => if p v then None else Some v | None => None end.
Proof.
  rewrite fold_delete. destruct (existsb _ _) eqn:E.
  - apply existsb_exists in E as ([k' v] & Hin & Hp). apply andb_true_iff in Hp as [Hk Hp]. cbn in *.
    apply str_eq_spec in Hk as <-. apply list_elem_of_In, elem_of_range in Hin. by rewrite Hin, Hp.
  - destruct (m !! k) as [v|] eqn:Hm; [|done]. destruct (p v) eqn:Hp; [|done].
    assert (existsb (fun kv => str_eq k kv.1 && p kv.2) (range_of m) = true); [|congruence].
    apply existsb_exists. exists (k, v). split; [by apply list_elem_of_In, elem_of_range|]. cbn. by rewrite (proj2 (str_eq_spec k k) eq_refl).
Qed.

Section facts.
Context (Sum256 : string -> string) `{MapRange}.

Lemma unexpired_lookup now m k :
  unexpired now m !! k = match m !! k with Some s => if now <? expiresAt s then Some s else None | None => None end.
Proof.
  unfold unexpired. rewrite (range_delete (fun s => negb (Before now (expiresAt s)))). unfold Before.
  destruct (m !! k) as [s|]; [|done]. by destruct (now <? expiresAt s).
Qed.

Lemma trimLoop_subseteq l : forall m, trimLoop l m ⊆ m.
Proof.
  induction l as [|h l IH]; intros m; [done|]. cbn. destruct (size (delete h m) <=? 1024)%nat; [apply delete_subseteq|].
  etrans; [apply IH|apply delete_subseteq].
Qed.

Lemma cleanup_subseteq now s : sessions (cleanupLocked now s) ⊆ unexpired now (sessions s).
Proof. unfold cleanupLocked. cbn [sessions setSessions]. case_match; [apply trimLoop_subseteq|done]. Qed.

Lemma cleanup_Some now s k v : sessions (cleanupLocked now s) !! k = Some v -> sessions s !! k = Some v /\ now < expiresAt v.
Proof.
  intros E. pose proof (lookup_weaken _ _ _ _ E (cleanup_subseteq now s)) as Hu. rewrite unexpired_lookup in Hu.
  destruct (sessions s !! k) as [v'|]; [|done]. destruct (now <? expiresAt v') eqn:Et; [|done]. simplify_eq. split; [done|]. zbool. lia.
Qed.

Lemma unexpired_size now m : (size (unexpired now m) <= size m)%nat.
Proof.
  apply map_subseteq_size. apply map_subseteq_spec. intros k v. rewrite unexpired_lookup. destruct (m !! k); [|done]. by destruct (_ <? _).
Qed.

Lemma cleanup_small now s k v : (size (sessions s) <= 2048)%nat -> sessions s !! k = Some v -> now < expiresAt v ->
  sessions (cleanupLocked now s) !! k = Some v.
Proof.
  intros Hs Hk Ht. pose proof (unexpired_size now (sessions s)). unfold cleanupLocked. cbn [sessions setSessions].
  rewrite (proj2 (Nat.ltb_ge _ _)) by lia. rewrite unexpired_lookup, Hk. by rewrite (proj2 (Z.ltb_lt _ _) Ht).
Qed.

Lemma cleanup_size now s : (size (sessions (cleanupLocked now s)) <= size (sessions s))%nat.
Proof. etrans; [apply map_subseteq_size, cleanup_subseteq|apply unexpired_size]. Qed.

(** ** Histories of the session store *)

Inductive sessionOp :=
| OpIssue (now : Z) (raw csrfRaw : option string)
| OpGet (now : Z) (token : string)
| OpRevoke (token : string).

Definition applyOp (s : adminSessions) (op : sessionOp) : adminSessions :=
  match op with
  | OpIssue now raw csrfRaw => (issue Sum256 now raw csrfRaw s).2
  | OpGet now token => (get Sum256 now token s).2
  | OpRevoke token => revoke Sum256 token s
  end.

(** What the store promises: the sessions issued and not revoked, by the
    hash of their token. *)
Definition specOp (m : gmap string adminSession) (op : sessionOp) : gmap string adminSession :=
  match op with
  | OpIssue now (Some raw) (Some csrfRaw) => <[Sum256 (rawURLEncode raw) := mkSession (rawURLEncode csrfRaw) (now + adminSessionTTL)]> m
  | OpRevoke token => delete (Sum256 token) m
  | _ => m
  end.

Definition opTime (t : Z) (op : sessionOp) : Z := match op with OpIssue now _ _ | OpGet now _ => now | OpRevoke _ => t end.

(** The clock does not run backwards. *)
Fixpoint clockFrom (t : Z) (ops : list sessionOp) : Prop :=
  match ops with [] => True | op :: ops => t <= opTime t op /\ clockFrom (opTime t op) ops end.

Definition issued (op : sessionOp) : bool := match op with OpIssue _ _ _ => true | _ => false end.

Lemma applyOp_sound s m op : sessions s ⊆ m -> sessions (applyOp s op) ⊆ specOp m op.
Proof.
  intros Hs. assert (Hc : forall now, sessions (cleanupLocked now s) ⊆ m).
  { intros now. apply map_subseteq_spec. intros k v [Hk _]%cleanup_Some. by eapply lookup_weaken. }
  destruct op as [now raw csrfRaw|now token|token]; cbn [applyOp specOp opTime issued].
  - unfold issue. destruct raw as [raw|], csrfRaw as [c|]; cbn [snd sessions setSessions]; try done. apply insert_mono, Hc.
  - unfold get. destruct (empty_str token); [done|apply Hc].
  - by apply delete_mono.
Qed.

Definition complete (t : Z) (s : adminSessions) (m : gmap string adminSession) : Prop :=
  forall k v, m !! k = Some v -> t < expiresAt v -> sessions s !! k = Some v.

Lemma applyOp_complete t s m op : (size (sessions s) <= 2048)%nat -> t <= opTime t op -> complete t s m ->
  complete (opTime t op) (applyOp s op) (specOp m op).
Proof.
  intros Hsz Ht Hc k v Hk Hv.
  assert (Hcl : m !! k = Some v -> sessions (cleanupLocked (opTime t op) s) !! k = Some v)
    by (intros Hm; apply cleanup_small; [done|apply Hc; [done|lia]|done]).
  destruct op as [now raw csrfRaw|now token|token]; cbn [applyOp specOp opTime issued] in *.
  - unfold issue. destruct raw as [raw|], csrfRaw as [c|]; cbn [snd sessions setSessions]; try (apply Hc; [done|lia]).
    revert Hk. unfold time_Add. destruct (decide (Sum256 (rawURLEncode raw) = k)) as [<-|Hne]; [by rewrite !lookup_insert_eq|].
    rewrite !lookup_insert_ne by done. apply Hcl.
  - unfold get. destruct (empty_str token); [apply Hc; [done|lia]|by apply Hcl].
  - revert Hk. destruct (decide (Sum256 token = k)) as [<-|Hne]; [by rewrite lookup_delete_eq|].
    cbn [revoke sessions setSessions]. rewrite !lookup_delete_ne by done. intros Hk. by apply Hc.
Qed.

Lemma applyOp_size s op : (size (sessions (applyOp s op)) <= size (sessions s) + (if issued op then 1 else 0))%nat.
Proof.
  destruct op as [now raw csrfRaw|now token|token]; cbn [applyOp specOp opTime issued].
  - unfold issue. destruct raw as [raw|], csrfRaw as [c|]; cbn [snd sessions setSessions]; try lia.
    pose proof (cleanup_size now s) as Hc. rewrite map_size_insert. case_match; unfold id; lia.
  - unfold get. destruct (empty_str token); cbn [snd]; [lia|]. pose proof (cleanup_size now s). cbn [snd]. lia.
  - cbn [revoke sessions setSessions]. rewrite map_size_delete. case_match; unfold id; lia.
Qed.

Lemma applyOps_complete ops : forall t s m,
  clockFrom t ops -> (size (sessions s) + count issued ops <= 2048)%nat -> complete t s m ->
  complete (fold_left opTime ops t) (fold_left applyOp ops s) (fold_left specOp ops m) /\
  (size (sessions (fold_left applyOp ops s)) <= size (sessions s) + count issued ops)%nat.
Proof.
  induction ops as [|op ops IH]; intros t s m Hclk Hsz Hc; [cbn; split; [done|lia]|]. cbn [fold_left]. destruct Hclk as [Ht Hclk].
  pose proof (applyOp_size s op). unfold count in *. cbn [List.filter] in *.
  destruct (IH (opTime t op) (applyOp s op) (specOp m op)) as [H1 H2]; [done| |apply applyOp_complete; [|done|done]|split; [done|]];
    destruct (issued op); cbn [List.length] in *; lia.
Qed.

Lemma clockFrom_app ops1 : forall t ops2, clockFrom t (ops1 ++ ops2) <-> clockFrom t ops1 /\ clockFrom (fold_left opTime ops1 t) ops2.
Proof. induction ops1 as [|op ops1 IH]; intros t ops2; cbn; [tauto|]. rewrite IH. tauto. Qed.
End facts.

(** C16: a token opens the console exactly while its session is issued, unrevoked
    and unexpired: whatever happened before, a session that is found is one
    the history issued under that hash and did not revoke, with its CSRF
    secret, and less than eight hours old; and with at most 2048 logins on a
    clock that does not run backwards every such session is found. *)
Theorem session_store_refines `{MapRange} Sum256 ops now token :
  let s := fold_left (applyOp Sum256) ops newAdminSessions in
  let m := fold_left (specOp Sum256) ops ∅ in
  (forall session, (get Sum256 now token s).1 = Some session -> m !! Sum256 token = Some session /\ now < expiresAt session) /\
  (clockFrom 0 (ops ++ [OpGet now token]) -> (count issued ops <= 2048)%nat -> token <> "" ->
   forall session, m !! Sum256 token = Some session -> now < expiresAt session -> (get Sum256 now token s).1 = Some session).
Proof.
  cbv zeta. split.
  - assert (Hs : sessions (fold_left (applyOp Sum256) ops newAdminSessions) ⊆ fold_left (specOp Sum256) ops ∅).
    { assert (Hg : forall s m, sessions s ⊆ m -> sessions (fold_left (applyOp Sum256) ops s) ⊆ fold_left (specOp Sum256) ops m); [|by apply Hg].
      induction ops as [|op ops IH]; intros s m Hsub; [done|]. apply IH. by apply applyOp_sound. }
    intros session. unfold get. destruct (empty_str token); [done|]. cbn [fst].
    intros [Hk Ht]%cleanup_Some. split; [by eapply lookup_weaken|done].
  - intros [Hclk Hlast]%clockFrom_app Hn Htok session Hm Hexp. cbn in Hlast.
    assert (Hz : size (sessions newAdminSessions) = 0%nat) by apply map_size_empty.
    destruct (applyOps_complete Sum256 ops 0 newAdminSessions ∅) as [Hc Hsz]; [done|lia|by intros k v Hk|].
    unfold get. destruct (empty_str token) eqn:E; [by apply empty_str_spec in E|]. cbn [fst].
    apply cleanup_small; [lia|apply Hc; [done|lia]|done].
Qed.

(** ** The login limit *)

Section logins.
Context `{MapRange}.

(** How many of these attempts, a time and an address each, are let through
    for one address. *)
Fixpoint allowedFor (ip : string) (ops : list (Z * string)) (s : adminSessions) : Z :=
  match ops with
  | [] => 0
  | (now, who) :: ops =>
      let '(allowed, s) := allowLogin now who s in
      (if allowed && str_eq who ip then 1 else 0) + allowedFor ip ops s
  end.

Definition attemptAt (s : adminSessions) (op : Z * string) : adminSessions := (allowLogin op.1 op.2 s).2.

(** Counters have counted at most [n] attempts. *)
Definition counted (n : Z) (s : adminSessions) : Prop := forall ip e, attempts s !! ip = Some e -> 0 <= attemptCount e <= n.

(** How many more attempts of an address can pass before [t] plus a window. *)
Definition remaining (t : Z) (e : option adminLoginAttempts) : Z :=
  match e with
  | None => adminLoginBurst
  | Some e => (if t <=? windowStart e then adminLoginBurst else 2 * adminLoginBurst) - Z.min adminLoginBurst (attemptCount e)
  end.

Lemma prune_lookup now m k :
  pruneAttempts now m !! k = m !! k \/ (pruneAttempts now m !! k = None /\ exists e, m !! k = Some e /\ windowStart e <= now - adminLoginWindow).
Proof.
  unfold pruneAttempts. rewrite (range_delete (fun e => adminLoginWindow <=? time_Sub now (windowStart e))).
  destruct (m !! k) as [e|]; [|by left]. destruct (_ <=? _) eqn:E; [|by left]. right. split; [done|]. exists e. split; [done|].
  unfold time_Sub, adminLoginWindow, Minute, Second, Millisecond, max_int64, min_int64, two63 in *. zbool. lia.
Qed.

Lemma pruned_attempts now who s ip :
  let entry := freshWindow now (default (mkAttempts 0 0) (attempts s !! who)) in
  let m := <[who := mkAttempts (windowStart entry) (wrap64 (attemptCount entry + 1))]> (attempts s) in
  attempts (attemptAt s (now, who)) !! ip = m !! ip \/
  (attempts (attemptAt s (now, who)) !! ip = None /\ exists e, m !! ip = Some e /\ windowStart e <= now - adminLoginWindow).
Proof. cbv zeta. unfold attemptAt, allowLogin. cbn [fst snd attempts]. case_match; [apply prune_lookup|by left]. Qed.

Lemma freshWindow_count n now e : 0 <= n -> 0 <= attemptCount e <= n -> 0 <= attemptCount (freshWindow now e) <= n.
Proof. unfold freshWindow. case_match; cbn; lia. Qed.

Lemma default_count n s who : 0 <= n -> counted n s -> 0 <= attemptCount (default (mkAttempts 0 0) (attempts s !! who)) <= n.
Proof. intros Hn Hc. destruct (attempts s !! who) as [e|] eqn:E; cbn; [by eapply Hc|lia]. Qed.

Lemma counted_step n s op : 0 <= n < max_int64 -> counted n s -> counted (n + 1) (attemptAt s op).
Proof.
  destruct op as [now who]. intros Hn Hc ip e. pose proof (freshWindow_count n now _ ltac:(lia) (default_count n s who ltac:(lia) Hc)) as Hf.
  intros He. destruct (pruned_attempts now who s ip) as [E|[E _]]; rewrite E in He; [|done]. destruct (decide (who = ip)) as [<-|Hne].
  - rewrite lookup_insert_eq in He. simplify_eq. cbn. rewrite wrap64_id; [lia|].
    unfold in_int64, min_int64, max_int64, two63 in *. lia.
  - rewrite lookup_insert_ne in He by done. specialize (Hc _ _ He). lia.
Qed.

(** The window an attempt at [now] counts in, when the clock is inside the
    interval. *)
Lemma freshWindow_remaining t now e : 0 < t <= now -> now < t + adminLoginWindow -> 0 <= attemptCount (default (mkAttempts 0 0) e) ->
  let e' := freshWindow now (default (mkAttempts 0 0) e) in
  (if attemptCount e' + 1 <=? adminLoginBurst then 1 else 0) + remaining t (Some (mkAttempts (windowStart e') (attemptCount e' + 1))) <= remaining t e.
Proof.
  intros Ht Hn Hc. cbv zeta. unfold freshWindow, IsZero, time_Sub, remaining, adminLoginBurst, adminLoginWindow, Minute, Second, Millisecond, max_int64, min_int64, two63 in *.
  destruct e as [[ws c]|]; cbn [default from_option windowStart attemptCount id] in *.
  - repeat case_match; cbn [windowStart attemptCount] in *; zbool; lia.
  - repeat case_match; cbn [windowStart attemptCount] in *; zbool; lia.
Qed.

Lemma remaining_prune t now m m' : now < t + adminLoginWindow ->
  m' = m \/ (m' = None /\ exists e, m = Some e /\ windowStart e <= now - adminLoginWindow) -> remaining t m' <= remaining t m.
Proof. intros Hn [->|(-> & e & -> & He)]; [lia|]. unfold remaining, adminLoginBurst. case_match; zbool; lia. Qed.

Lemma allowedFor_bound t ip ops : forall n s,
  0 < t -> Forall (fun op => t <= op.1 < t + adminLoginWindow) ops -> 0 <= n -> n + Z.of_nat (List.length ops) <= max_int64 -> counted n s ->
  allowedFor ip ops s <= remaining t (attempts s !! ip).
Proof.
  induction ops as [|[now who] ops IH]; intros n s Ht Hall Hn Hlen Hc.
  { unfold remaining, adminLoginBurst. cbn. destruct (attempts s !! ip); [|lia]. case_match; lia. }
  apply Forall_cons in Hall as [Hnow Hall]. cbn [List.length fst] in *.
  assert (Hs : counted (n + 1) (attemptAt s (now, who))) by (apply counted_step; [lia|done]).
  specialize (IH (n + 1) (attemptAt s (now, who)) Ht Hall ltac:(lia) ltac:(lia) Hs).
  pose proof (remaining_prune t now _ _ ltac:(lia) (pruned_attempts now who s ip)) as Hp.
  pose proof (default_count n s who ltac:(lia) Hc) as Hd.
  pose proof (freshWindow_count n now _ ltac:(lia) Hd) as Hf. pose proof (freshWindow_remaining t now (attempts s !! who) ltac:(lia) ltac:(lia) (proj1 Hd)) as Hr.
  cbv zeta in *. cbn [allowedFor]. rewrite (surjective_pairing (allowLogin now who s)).
  change (allowLogin now who s).2 with (attemptAt s (now, who)).
  replace (allowLogin now who s).1 with (attemptCount (freshWindow now (default (mkAttempts 0 0) (attempts s !! who))) + 1 <=? adminLoginBurst).
  2: { unfold allowLogin. cbn [fst attemptCount]. rewrite wrap64_id; [done|]. unfold in_int64, min_int64, max_int64, two63 in *. lia. }
  rewrite wrap64_id in Hp by (unfold in_int64, min_int64, max_int64, two63 in *; lia).
  destruct (str_eq who ip) eqn:E; [apply str_eq_spec in E as ->; rewrite lookup_insert_eq in Hp|apply str_eq_false in E; rewrite lookup_insert_ne in Hp by done].
  - rewrite andb_true_r. lia.
  - rewrite andb_false_r. lia.
Qed.

Lemma counted_run ops : forall n s, 0 <= n -> n + Z.of_nat (List.length ops) <= max_int64 -> counted n s ->
  counted (n + Z.of_nat (List.length ops)) (fold_left attemptAt ops s).
Proof.
  induction ops as [|op ops IH]; intros n s Hn Hlen Hc; cbn [fold_left List.length] in *; [by rewrite Z.add_0_r|].
  replace (n + Z.of_nat (S (List.length ops))) with (n + 1 + Z.of_nat (List.length ops)) by lia.
  apply IH; [lia|lia|]. apply counted_step; [lia|done].
Qed.
End logins.

(** C22: whatever happened before, and however many addresses try at once, no more
    than ten login attempts of one address are let through within any minute
    (twice the burst: an interval overlaps at most two windows). *)
Theorem login_rate_bounded `{MapRange} before ops t ip :
  0 < t -> Forall (fun op => t <= op.1 < t + adminLoginWindow) ops ->
  Z.of_nat (List.length before) + Z.of_nat (List.length ops) <= max_int64 ->
  allowedFor ip ops (fold_left attemptAt before newAdminSessions) <= 2 * adminLoginBurst.
Proof.
  intros Ht Hall Hlen.
  assert (Hc : counted (0 + Z.of_nat (List.length before)) (fold_left attemptAt before newAdminSessions))
    by (apply counted_run; [lia|lia|intros a e E; cbn in E; by rewrite lookup_empty in E]).
  etrans; [eapply (allowedFor_bound t ip ops (Z.of_nat (List.length before))); try done; lia|].
  unfold remaining, adminLoginBurst. destruct (attempts _ !! ip) as [e|] eqn:E; [|lia]. specialize (Hc _ _ E). case_match; lia.
Qed.

(** ** Authentication *)

(** What lets a request change something: the admin token itself, or a live
    session together with the page's own origin and the session's secret. *)
Definition authority (Sum256 : string -> string) (env : environ) (now : Z) (r : adminRequest) (mutation : bool) (s : adminSessions) : Prop :=
  (adminToken env <> "" /\ exists token, q_Header r "Authorization" = "Bearer " +:+ token /\ Sum256 token = Sum256 (adminToken env)) \/
  (exists cookie session, q_Cookie r = Some cookie /\ sessions s !! Sum256 cookie = Some session /\ now < expiresAt session /\
     (mutation = true ->
        adminOriginValid r = true /\ Sum256 (q_Header r "X-CSRF-Token") = Sum256 (csrf session))).

Lemma substring_whole s : String.substring 0 (String.length s) s = s.
Proof. induction s as [|c s IH]; cbn; [done|]. by rewrite IH. Qed.

Lemma substring_after p s : String.substring (String.length p) (String.length s) (p +:+ s) = s.
Proof. induction p as [|c p IH]; [apply substring_whole|exact IH]. Qed.

Lemma TrimPrefix_app p s : TrimPrefix (p +:+ s) p = s.
Proof.
  unfold TrimPrefix, HasPrefix. rewrite prefix_app. rewrite strlen_app.
  replace (String.length p + String.length s - String.length p)%nat with (String.length s) by lia. apply substring_after.
Qed.

Lemma authenticate_authority `{MapRange} Sum256 env now r mutation s session s' :
  authenticate Sum256 env now r mutation s = (Some session, s') -> authority Sum256 env now r mutation s.
Proof.
  unfold authenticate. destruct (adminBearerAuthorized Sum256 env r) eqn:Eb.
  - intros _. left. revert Eb. unfold adminBearerAuthorized. destruct (HasPrefix (q_Header r "Authorization") "Bearer ") eqn:Ep; [|done].
    cbn [negb]. intros [Hne Heq]%andb_true_iff. split; [intros E; by rewrite (proj2 (empty_str_spec _) E) in Hne|].
    apply prefix_inv in Ep as [token Ht]. exists token. split; [done|]. rewrite Ht, TrimPrefix_app in Heq. by apply str_eq_spec.
  - intros E. right. revert E. destruct (q_Cookie r) as [cookie|]; [|done]. unfold get. destruct (empty_str cookie); [done|].
    destruct (sessions _ !! _) as [session'|] eqn:Es; [|done]. apply cleanup_Some in Es as [Es Ht]. intros E. exists cookie, session'.
    split_and!; [done..|]. intros ->. cbn in E. destruct (adminOriginValid r); [|done]. cbn in E. split; [done|].
    destruct (secureEqual _ _ _) eqn:Eq; [by apply str_eq_spec in Eq|done].
Qed.

(** ** Witnesses *)

Definition exOps : list sessionOp := [OpIssue 10 (Some "abc") (Some "xyz"); OpIssue 20 (Some "def") (Some "uvw"); OpRevoke (rawURLEncode "def")].

Lemma session_store_refines_witness :
  (get id 30 (rawURLEncode "abc") (fold_left (applyOp id) exOps newAdminSessions)).1 = Some (mkSession (rawURLEncode "xyz") (10 + adminSessionTTL)).
Proof.
  destruct (session_store_refines id exOps 30 (rawURLEncode "abc")) as [_ Hc].
  apply Hc; [cbn; lia|cbn; lia|vm_compute; discriminate|vm_compute; reflexivity|reflexivity].
Defined.

Definition exAttempts : list (Z * string) := replicate 7 (Second, "10.0.0.9") ++ [(2 * Second, "10.0.0.8")].

Lemma login_rate_bounded_witness :
  allowedFor "10.0.0.9" exAttempts newAdminSessions = 5 /\ allowedFor "10.0.0.9" exAttempts newAdminSessions <= 2 * adminLoginBurst.
Proof.
  split; [vm_compute; reflexivity|].
  apply (login_rate_bounded [] exAttempts Second "10.0.0.9"); [reflexivity|repeat constructor; cbn; discriminate|discriminate].
Defined.
