(* ===== verification/AdminProviders.v ===== *)
(** * AdminProviders: the provider-key console (cmd/admin_providers.go)

    The handlers of the admin console over the sessions of [AdminSessions] and
    a secret store, used through the class [SecretStore] of [Credentials] so
    that what is proved holds of the vault and of any other store.  The
    embedded pages are the argument [uiFile]; a provider's answer to a key test is
    the argument [probe]. *)

From S2P Require Import Prelude Env Text Net Http AdminSessions Vault Credentials.
From Stdlib Require Import Lia ZArith String Ascii.
#[local] Open Scope string_scope.
#[local] Open Scope Z_scope.

(** ** Providers *)

Definition adminProviderEnvironmentKey (env : environ) (provider : string) : string :=
  let name := if str_eq provider "openrouter" then "OPENROUTER_API_KEY"
              else if str_eq provider "cerebras" then "CEREBRAS_API_KEY"
              else if str_eq provider "groq" then "GROQ_API_KEY" else "" in
  TrimSpace (Getenv env name).

Definition upper_byte (c : ascii) : ascii := if byteIn 97 122 c then ascii_of_nat (nat_of_ascii c - 32) else c.

(** [strings.ToUpper] on the names of providers, which are ASCII. *)
Definition ToUpper (s : string) : string := string_of_list_ascii (upper_byte <$> list_ascii_of_string s).

Definition adminProviderTestURL (env : environ) (provider : string) : string :=
  let override := TrimSpace (Getenv env ("PROXY_ADMIN_" +:+ ToUpper provider +:+ "_TEST_URL")) in
  if negb (empty_str override) then override
  else if str_eq provider "cerebras" then "https://api.cerebras.ai/v1/models"
  else if str_eq provider "groq" then "https://api.groq.com/openai/v1/models"
  else "https://openrouter.ai/api/v1/models".

Definition sanitizeProviderTestFailure (status : Z) : Z * string :=
  if (status =? 401) || (status =? 403) then (502, "Provider rejected the configured key")
  else if status =? 429 then (502, "Provider accepted the request but is currently rate-limited")
  else (502, "Provider returned an unexpected status (" +:+ pretty status +:+ ")").

Definition parseAdminProviderAction (path : string) : option (string * string) :=
  match split_on "/" (TrimPrefix path "/admin/api/providers/") with
  | [provider; action] =>
      if empty_str provider then None
      else if negb (existsb (str_eq provider) ["openrouter"; "cerebras"; "groq"]) then None
      else if negb (str_eq action "key") && negb (str_eq action "test") then None
      else Some (provider, action)
  | _ => None
  end.

(** ** Handlers *)

(** What a provider answers to a test: the status and the milliseconds, or
    [None] when it cannot be reached. *)
Definition prober : Type := string -> string -> option (Z * Z).

Section handlers.
Context {W : Type} `{SecretStore W} `{MapRange} (Sum256 : string -> string) (env : environ) (decodeJSON : string -> bool -> decoded).
Context (uiFile : string -> option string) (badURL : string -> bool) (probe : prober).
(** The request: its moment, its random bytes and its call of the store. *)
Context (now : Z) (raw csrfRaw : option string) (ce : callEnv) (r : adminRequest).

Abbreviation headers := (gmap string (list string)).
Abbreviation reply := (adminResponse * adminSessions * W)%type.

Definition isGet : bool := str_eq (q_Method r) "GET" || str_eq (q_Method r) "HEAD".

Definition notFound (h : headers) : adminResponse :=
  mkAdminResponse 404 (header_Set "X-Content-Type-Options" "nosniff" (header_Set "Content-Type" "text/plain; charset=utf-8" h)) None NotFoundText.

Definition serveFile (contentType data : string) (h : headers) : adminResponse :=
  mkAdminResponse 200 (header_Set "Content-Length" (pretty (Z.of_nat (String.length data))) (header_Set "Content-Type" contentType h)) None
    (if str_eq (q_Method r) "GET" then Page data else NoBody).

Definition servePage (h : headers) : adminResponse :=
  if negb isGet then notAllowed "GET, HEAD" h
  else match uiFile "adminui/index.html" with
       | None => writeAdminError 500 "Admin UI is unavailable" h
       | Some data => serveFile "text/html; charset=utf-8" data h
       end.

Definition serveAsset (h : headers) : adminResponse :=
  if negb isGet then notAllowed "GET, HEAD" h
  else
    let name := TrimPrefix (q_Path r) "/admin/assets/" in
    let contentType := if str_eq name "app.js" then Some "text/javascript; charset=utf-8"
                       else if str_eq name "styles.css" then Some "text/css; charset=utf-8" else None in
    match contentType with
    | None => notFound h
    | Some contentType => match uiFile ("adminui/" +:+ name) with None => notFound h | Some data => serveFile contentType data h end
    end.

(** Provider, configured, source, managed_active, status. *)
Definition adminProviderView (status : string * bool) : string * bool * string * bool * string :=
  let '(provider, configured) := status in
  if negb (empty_str (adminProviderEnvironmentKey env provider)) then (provider, configured, "environment", false, "configured")
  else if configured then (provider, configured, "vault", true, "configured")
  else (provider, configured, "none", false, "missing").

Definition providersHandler (h : headers) (s : adminSessions) (w : W) : adminResponse * adminSessions :=
  if negb (str_eq (q_Method r) "GET") then (notAllowed "GET" h, s)
  else match authenticate Sum256 env now r false s with
       | (None, s) => (writeAdminError 401 "Unauthorized" h, s)
       | (Some session, s) =>
           let snapshot := store_Status ce w in
           (writeAdminJSON 200 (ProviderList (vs_Backend snapshot) (vs_Available snapshot) (vs_Locked snapshot)
              (adminProviderView <$> vs_Providers snapshot) (csrf session)) h, s)
       end.

Definition keyHandler (provider : string) (h : headers) (w : W) : adminResponse * W :=
  if str_eq (q_Method r) "PUT" then
    match decodeAdminJSON decodeJSON 8192 r with
    | inl refuse => (refuse h, w)
    | inr key =>
        match store_Set ce provider key w with
        | (w, Some _) => (writeAdminError 400 "The provider key could not be stored" h, w)
        | (w, None) => (writeAdminJSON 200 (KeyStored provider) h, w)
        end
    end
  else if str_eq (q_Method r) "DELETE" then
    match rejectAdminBody "DELETE" r with
    | Some refuse => (refuse h, w)
    | None =>
        match store_Delete ce provider w with
        | (w, Some _) => (writeAdminError 500 "The provider key could not be removed" h, w)
        | (w, None) => (mkAdminResponse 204 h None NoBody, w)
        end
    end
  else (notAllowed "PUT, DELETE" h, w).

(** The key of a test: the environment's, else the stored one. *)
Definition testSecret (provider : string) (w : W) : option string :=
  let key := adminProviderEnvironmentKey env provider in
  if negb (empty_str key) then Some key
  else match store_Get ce provider w with inr (Some secret) => Some secret | _ => None end.

Definition testHandler (provider : string) (h : headers) (w : W) : adminResponse :=
  if negb (str_eq (q_Method r) "POST") then notAllowed "POST" h
  else match rejectAdminBody "Test" r with
  | Some refuse => refuse h
  | None =>
      match testSecret provider w with
      | None => writeAdminError 409 "No usable key is configured for this provider" h
      | Some secret =>
          let url := adminProviderTestURL env provider in
          if badURL url then writeAdminError 500 "Provider test could not be started" h
          else match probe url ("Bearer " +:+ secret) with
               | None => writeAdminError 502 "Provider is unreachable or timed out" h
               | Some (status, latency) =>
                   if (status <? 200) || (300 <=? status)
                   then let '(code, message) := sanitizeProviderTestFailure status in writeAdminError code message h
                   else writeAdminJSON 200 (TestOK provider latency) h
               end
      end
  end.

Definition providerActionHandler (h : headers) (s : adminSessions) (w : W) : reply :=
  match parseAdminProviderAction (q_Path r) with
  | None => (notFound h, s, w)
  | Some (provider, action) =>
      match authenticate Sum256 env now r (negb (str_eq (q_Method r) "GET")) s with
      | (None, s) => (writeAdminError 401 "Unauthorized" h, s, w)
      | (Some _, s) =>
          if str_eq action "key" then let '(resp, w) := keyHandler provider h w in (resp, s, w)
          else (testHandler provider h w, s, w)
      end
  end.

(** [protected] *)
Definition protected (next : headers -> adminSessions -> W -> reply) (s : adminSessions) (w : W) : reply :=
  let h := setAdminSecurityHeaders ∅ in
  let h := if q_TLS r then header_Set "Strict-Transport-Security" "max-age=31536000" h else h in
  if negb (adminTransportAllowed env r) then (writeAdminError 403 "Admin UI requires HTTPS for remote access" h, s, w)
  else if empty_str (adminToken env) then (writeAdminError 503 "Admin UI requires PROXY_ADMIN_TOKEN" h, s, w)
  else next h s w.

(** [MountAdminProviders]: the patterns of the mux, a trailing slash being a
    subtree; [None] is a path of another handler. *)
Definition serveAdmin (s : adminSessions) (w : W) : option reply :=
  let path := q_Path r in
  if str_eq path "/admin/providers" then Some (protected (fun h s w => (servePage h, s, w)) s w)
  else if HasPrefix path "/admin/assets/" then Some (protected (fun h s w => (serveAsset h, s, w)) s w)
  else if str_eq path "/admin/session" then
    Some (protected (fun h s w => (sessionHandler Sum256 env decodeJSON now raw csrfRaw r h s, w)) s w)
  else if str_eq path "/admin/api/providers" then Some (protected (fun h s w => (providersHandler h s w, w)) s w)
  else if HasPrefix path "/admin/api/providers/" then Some (protected providerActionHandler s w)
  else None.
End handlers.

(** ** What a request may do *)

Lemma get_sessions `{MapRange} Sum256 now token s : sessions (AdminSessions.get Sum256 now token s).2 ⊆ sessions s.
Proof.
  unfold AdminSessions.get. destruct (empty_str token); [done|]. cbn [snd]. apply map_subseteq_spec. by intros k v [? _]%cleanup_Some.
Qed.

Lemma authenticate_sessions `{MapRange} Sum256 env now r mutation s :
  sessions (authenticate Sum256 env now r mutation s).2 ⊆ sessions s.
Proof.
  unfold authenticate. destruct (adminBearerAuthorized _ _ _); [done|]. destruct (q_Cookie r) as [cookie|]; [|done].
  pose proof (get_sessions Sum256 now cookie s) as Hg. destruct (AdminSessions.get Sum256 now cookie s) as [[session|] s']; cbn in *; [|done].
  by case_match.
Qed.

(** A login that was let through with the admin token. *)
Definition loggedIn (Sum256 : string -> string) `{MapRange} env decodeJSON (now : Z) (r : adminRequest) (s : adminSessions) : Prop :=
  q_Method r = "POST" /\ adminOriginValid r = true /\ (allowLogin now (adminClientIP r) s).1 = true /\
  exists token, decodeAdminJSON decodeJSON 4096 r = inr token /\ Sum256 token = Sum256 (adminToken env).

Lemma sessionHandler_sessions `{MapRange} Sum256 env decodeJSON now raw csrfRaw r h s k v :
  sessions (sessionHandler Sum256 env decodeJSON now raw csrfRaw r h s).2 !! k = Some v ->
  sessions s !! k = Some v \/ loggedIn Sum256 env decodeJSON now r s.
Proof.
  unfold sessionHandler. destruct (empty_str _); [by left|]. destruct (str_eq (q_Method r) "POST") eqn:Em.
  - apply str_eq_spec in Em. destruct (adminOriginValid r) eqn:Eo; [|by left]. cbn [negb].
    destruct (allowLogin now (adminClientIP r) s) as [allowed s1] eqn:Ea.
    assert (Hs1 : sessions s1 = sessions s) by (unfold allowLogin in Ea; by simplify_eq).
    destruct allowed; [|cbn; rewrite Hs1; by left]. cbn [negb].
    destruct (decodeAdminJSON _ _ _) as [refuse|token] eqn:Ed; [cbn; rewrite Hs1; by left|].
    destruct (secureEqual _ _ _) eqn:Ee; [|cbn; rewrite Hs1; by left]. intros _. right.
    split_and!; [done|done|by rewrite Ea|]. exists token. split; [done|]. by apply str_eq_spec in Ee.
  - destruct (str_eq (q_Method r) "DELETE"); [|by left]. intros E. left. revert E.
    pose proof (authenticate_sessions Sum256 env now r true s) as Hs. destruct (authenticate _ _ _ _ _ _) as [[session|] s1]; cbn in Hs |- *.
    + destruct (q_Cookie r); cbn; [|intros E; by eapply lookup_weaken]. intros E. eapply lookup_weaken; [|exact Hs].
      by apply lookup_delete_Some in E as [_ E].
    + intros E. by eapply lookup_weaken.
Qed.

Section effects.
Context {W : Type} `{SecretStore W} `{MapRange} (Sum256 : string -> string) (env : environ) (decodeJSON : string -> bool -> decoded).
Context (uiFile : string -> option string) (badURL : string -> bool) (probe : prober).
Context (now : Z) (raw csrfRaw : option string) (ce : callEnv) (r : adminRequest).

Lemma protected_cases next s (w : W) resp s' w' :
  protected env r next s w = (resp, s', w') ->
  (s' = s /\ w' = w) \/ (adminTransportAllowed env r = true /\ adminToken env <> "" /\ exists h, next h s w = (resp, s', w')).
Proof.
  unfold protected. destruct (adminTransportAllowed env r); cbn [negb]; [|intros; simplify_eq; by left].
  destruct (empty_str (adminToken env)) eqn:Et; [intros; simplify_eq; by left|]. intros E. right.
  split_and!; [done|intros E'; by rewrite (proj2 (empty_str_spec _) E') in Et|by eexists].
Qed.

(** A store that changed was changed by [keyHandler], for the provider in
    the path. *)
Lemma keyHandler_changes provider h (w : W) : (keyHandler decodeJSON ce r provider h w).2 <> w ->
  q_Method r <> "GET" /\
  ((q_Method r = "PUT" /\ exists key, decodeAdminJSON decodeJSON 8192 r = inr key /\ (keyHandler decodeJSON ce r provider h w).2 = (store_Set ce provider key w).1) \/
   (q_Method r = "DELETE" /\ (keyHandler decodeJSON ce r provider h w).2 = (store_Delete ce provider w).1)).
Proof.
  unfold keyHandler. destruct (str_eq (q_Method r) "PUT") eqn:Ep.
  - apply str_eq_spec in Ep. destruct (decodeAdminJSON _ _ _) as [?|key]; [done|]. intros _. split; [congruence|]. left. split; [done|].
    exists key. split; [done|]. by destruct (store_Set ce provider key w) as [w' [e|]].
  - destruct (str_eq (q_Method r) "DELETE") eqn:Ed; [|done]. apply str_eq_spec in Ed. destruct (rejectAdminBody _ _); [done|].
    intros _. split; [congruence|]. right. split; [done|]. by destruct (store_Delete ce provider w) as [w' [e|]].
Qed.

Lemma providerActionHandler_effects h s (w : W) resp s' w' :
  providerActionHandler Sum256 env decodeJSON badURL probe now ce r h s w = (resp, s', w') ->
  sessions s' ⊆ sessions s /\
  (w' <> w -> authority Sum256 env now r true s /\ exists provider, parseAdminProviderAction (q_Path r) = Some (provider, "key") /\
     ((exists key, decodeAdminJSON decodeJSON 8192 r = inr key /\ w' = (store_Set ce provider key w).1) \/ w' = (store_Delete ce provider w).1)).
Proof.
  unfold providerActionHandler. destruct (parseAdminProviderAction _) as [[provider action]|]; [|intros; by simplify_eq].
  pose proof (authenticate_sessions Sum256 env now r (negb (str_eq (q_Method r) "GET")) s) as Hs.
  destruct (authenticate _ _ _ _ _ _) as [[session|] s1] eqn:Ea; [|intros; by simplify_eq]. cbn in Hs.
  destruct (str_eq action "key") eqn:Ek; [|intros; by simplify_eq]. apply str_eq_spec in Ek as ->.
  destruct (keyHandler _ _ _ _ _ _) as [resp1 w1] eqn:Eh. intros [= <- <- <-]. split; [done|]. intros Hw.
  assert (E2 : w1 = (keyHandler decodeJSON ce r provider h w).2) by (by rewrite Eh). rewrite E2 in Hw |- *.
  apply keyHandler_changes in Hw as [Hg Hc]. apply authenticate_authority in Ea. rewrite (proj2 (str_eq_false _ _) Hg) in Ea.
  split; [done|]. exists provider. split; [done|]. destruct Hc as [(_ & key & Hd & Hc)|[_ Hc]]; [left; by exists key|by right].
Qed.
End effects.

(** C13: the console acts only for those it should.  A request that changes the
    secret store came over an allowed transport, to a server with an admin
    token, carrying that token or the cookie of a live session together with
    the page's origin and the session's CSRF secret; and what it changed is
    the key of the provider it names.  A session appears only through a login,
    within the limit, from the page's origin and with the admin token. *)
Theorem admin_effects_are_authorized {W} `{SecretStore W} `{MapRange} Sum256 env decodeJSON uiFile badURL probe now raw csrfRaw ce r s (w : W) resp s' w' :
  serveAdmin Sum256 env decodeJSON uiFile badURL probe now raw csrfRaw ce r s w = Some (resp, s', w') ->
  (w' <> w ->
     adminTransportAllowed env r = true /\ adminToken env <> "" /\ authority Sum256 env now r true s /\
     exists provider, parseAdminProviderAction (q_Path r) = Some (provider, "key") /\
       ((exists key, decodeAdminJSON decodeJSON 8192 r = inr key /\ w' = (store_Set ce provider key w).1) \/ w' = (store_Delete ce provider w).1)) /\
  (forall k v, sessions s' !! k = Some v -> sessions s !! k = Some v \/
     (adminTransportAllowed env r = true /\ adminToken env <> "" /\ q_Path r = "/admin/session" /\ loggedIn Sum256 env decodeJSON now r s)).
Proof.
  unfold serveAdmin. destruct (str_eq (q_Path r) "/admin/providers"); [|destruct (HasPrefix (q_Path r) "/admin/assets/")];
    [| |destruct (str_eq (q_Path r) "/admin/session") eqn:Ep;
      [|destruct (str_eq (q_Path r) "/admin/api/providers"); [|destruct (HasPrefix (q_Path r) "/admin/api/providers/"); [|done]]]];
    intros [= E]; apply protected_cases in E as [[-> ->]|(Ht & Hk & h & E)]; try (split; [done|by left]).
  - simplify_eq. split; [done|by left].
  - simplify_eq. split; [done|by left].
  - injection E as E <-. split; [done|]. intros k v Hv. apply (f_equal snd) in E. cbn in E. rewrite <- E in Hv.
    apply sessionHandler_sessions in Hv as [Hv|Hv]; [by left|right]. split_and!; [done..|by apply str_eq_spec|done].
  - injection E as E <-. split; [done|]. intros k v Hv. left. apply (f_equal snd) in E. cbn in E. rewrite <- E in Hv. revert Hv.
    unfold providersHandler. destruct (str_eq (q_Method r) "GET"); [|done]. cbn [negb].
    pose proof (authenticate_sessions Sum256 env now r false s) as Hs.
    destruct (authenticate _ _ _ _ _ _) as [[session|] s1]; cbn in *; intros; by eapply lookup_weaken.
  - apply providerActionHandler_effects in E as [Hs Hw]. split.
    + intros Hne. by destruct (Hw Hne).
    + intros k v Hv. left. by eapply lookup_weaken.
Qed.

(** A key that the console reported as stored is the one the proxy will use,
    and no other provider's key was touched; a key it reported as removed is
    gone. *)
Theorem console_key_takes_effect {W} `{SecretStore W} decodeJSON ce ce' r provider h (w : W) :
  usable ce w -> sameKey ce ce' -> allowedProvider provider = true ->
  let '(resp, w') := keyHandler decodeJSON ce r provider h w in
  (ar_status resp = 200 -> exists key, decodeAdminJSON decodeJSON 8192 r = inr key /\
     managedProviderCredential ce' (Some w') provider = Some (TrimSpace key) /\
     forall other, allowedProvider other = true -> other <> provider ->
       managedProviderCredential ce' (Some w') other = managedProviderCredential ce' (Some w) other) /\
  (ar_status resp = 204 -> managedProviderCredential ce' (Some w') provider = None).
Proof.
  intros Hu Hk Hp. unfold keyHandler, managedProviderCredential. destruct (str_eq (q_Method r) "PUT").
  - destruct (decodeAdminJSON _ _ _) as [refuse|key] eqn:Ed.
    + revert Ed. unfold decodeAdminJSON. repeat case_match; intros; simplify_eq; cbn; split; intros [=].
    + destruct (store_Set ce provider key w) as [w' [e|]] eqn:Es; cbn; (split; [|intros [=]]); [intros [=]|]. intros _.
      exists key. split; [done|]. rewrite (get_after_set ce ce' _ _ _ _ Hu Hk Es). split; [done|]. intros other Ho Hne.
      by rewrite (get_after_set_other ce ce' _ other _ _ _ Hu Hk Es Ho Hne).
  - destruct (str_eq (q_Method r) "DELETE"); [|cbn; split; intros [=]].
    destruct (rejectAdminBody "DELETE" r) as [refuse|] eqn:Er.
    + revert Er. unfold rejectAdminBody. case_match; intros; simplify_eq; cbn; split; intros [=].
    + destruct (store_Delete ce provider w) as [w' [e|]] eqn:Es; cbn; (split; [intros [=]|]); [intros [=]|]. intros _.
      by rewrite (get_after_delete ce ce' _ _ _ Hu Hk Es Hp).
Qed.

(** ** Witnesses *)

#[local] Existing Instance memoryStore.

Definition exCall : callEnv := mkCallEnv false None false None 0 (fun _ => true) "".
Definition exEnv : environ := {["PROXY_ADMIN_TOKEN" := "s3cret"]}.
Definition exPut (headers : string -> string) : adminRequest :=
  mkAdminRequest "PUT" "/admin/api/providers/groq/key" false "localhost:8080" "127.0.0.1:5000" headers None "gsk-1" false.
Definition exHeaders (name : string) : string :=
  if str_eq name "Authorization" then "Bearer s3cret" else if str_eq name "Content-Type" then "application/json" else "".

Lemma admin_effects_are_authorized_witness :
  authority id exEnv 100 (exPut exHeaders) true newAdminSessions.
Proof.
  destruct (serveAdmin id exEnv (fun body _ => OneValue body) (fun _ => None) (fun _ => false) (fun _ _ => None) 100 None None exCall
    (exPut exHeaders) newAdminSessions (∅ : gmap string string)) as [[[resp s'] w']|] eqn:E; [|discriminate].
  pose proof (admin_effects_are_authorized id exEnv (fun body _ => OneValue body) (fun _ => None) (fun _ => false) (fun _ _ => None)
    100 None None exCall (exPut exHeaders) newAdminSessions (∅ : gmap string string) resp s' w' E) as [Hw _].
  assert (Hne : w' <> ∅).
  { intros ->. apply (f_equal (fun o => match o with Some (_, _, w) => w !! "groq" | None => None end)) in E. vm_compute in E. discriminate. }
  destruct (Hw Hne) as (_ & _ & H & _). exact H.
Defined.

Lemma console_key_takes_effect_witness :
  let w' := (keyHandler (fun body _ => OneValue body) exCall (exPut exHeaders) "groq" ∅ (∅ : gmap string string)).2 in
  managedProviderCredential exCall (Some w') "groq" = Some "gsk-1".
Proof.
  pose proof (console_key_takes_effect (fun body _ => OneValue body) exCall exCall (exPut exHeaders) "groq" ∅ (∅ : gmap string string) I I eq_refl) as Hk.
  cbv zeta. destruct (keyHandler (fun body _ => OneValue body) exCall (exPut exHeaders) "groq" ∅ (∅ : gmap string string)) as [resp w'] eqn:E.
  destruct Hk as [Hk _]. destruct Hk as (key & Hd & Hg & _).
  - apply (f_equal (fun p => ar_status p.1)) in E. exact (eq_sym E).
  - vm_compute in Hd. injection Hd as <-. exact Hg.
Defined.
