(* ===== verification/Security.v ===== *)
(** * Security: exposure, keys and gates (cmd/security.go, cmd/main.go, cervo-requestmeta)

    What the server decides from where it is bound: whether the operator's own
    keys may serve a request that brings none, and who may read the
    administrative endpoints.  Looking up a host name is the argument
    [lookupIP] ([None] for an error). *)

From S2P Require Import Prelude Env Text Types Registry Net Vault Credentials AdminProviders.
From Stdlib Require Import Lia ZArith String Ascii.
#[local] Open Scope string_scope.
#[local] Open Scope Z_scope.

(** ** Exposure (security.go) *)

Record adminPolicy := mkAdminPolicy {
  ap_public : bool;
  ap_token : string;
  ap_requireToken : bool;
}.

Definition envTrue (env : environ) (key : string) : bool :=
  existsb (str_eq (ToLower (TrimSpace (Getenv env key)))) ["1"; "true"; "yes"; "on"].

Section exposure.
Context (lookupIP : string -> option (list (list Z))) (env : environ).

Definition isLoopbackHost (host : string) : bool :=
  let h := TrimSpace host in
  if empty_str h || str_eq h "0.0.0.0" || str_eq h "::" then false
  else if EqualFold h "localhost" then true
  else match ParseIP h with
       | Some ip => IsLoopback ip
       | None =>
           match lookupIP h with
           | None | Some [] => false
           | Some addrs => forallb IsLoopback addrs
           end
       end.

Definition configureAdminPolicy (host : string) : string * adminPolicy :=
  (host, mkAdminPolicy (negb (isLoopbackHost host)) (TrimSpace (Getenv env "PROXY_ADMIN_TOKEN"))
    (negb (isLoopbackHost host) || envTrue env "PROXY_ADMIN_REQUIRE_TOKEN")).

Definition disabled (p : adminPolicy) : bool := ap_requireToken p && empty_str (ap_token p).

(** [bindHost] and [current] are the globals set at startup. *)
Definition activeAdminPolicy (bindHost : string) (current : adminPolicy) : adminPolicy :=
  let token := if empty_str (ap_token current) then TrimSpace (Getenv env "PROXY_ADMIN_TOKEN") else ap_token current in
  if negb (empty_str bindHost) then
    let public := negb (isLoopbackHost bindHost) in
    mkAdminPolicy public token (public || envTrue env "PROXY_ADMIN_REQUIRE_TOKEN")
  else mkAdminPolicy (ap_public current) token (ap_requireToken current).

Definition boundToPublicInterface (bindHost : string) : bool := negb (isLoopbackHost bindHost).

Definition allowEnvKeyOnPublicBind : bool :=
  existsb (str_eq (ToLower (TrimSpace (Getenv env "PROXY_ALLOW_ENV_KEY_PUBLIC")))) ["1"; "true"; "yes"; "on"].

Definition constantTimeEqual (a b : string) : bool := str_eq a b.

(** ** Gates (main.go) *)

(** A header reads as the empty string when it is not set. *)
Definition presentedToken (header : string -> string) : string :=
  let got := TrimPrefix (header "Authorization") "Bearer " in
  if empty_str got then header "X-Admin-Token" else got.

Inductive gateVerdict := Pass | Refused (status : Z) (message : string).

Definition admin (bindHost : string) (current : adminPolicy) (header : string -> string) : gateVerdict :=
  let policy := activeAdminPolicy bindHost current in
  if disabled policy then Refused 503 "Administrative interface disabled: configure PROXY_ADMIN_TOKEN"
  else if negb (empty_str (ap_token policy)) && negb (constantTimeEqual (presentedToken header) (ap_token policy)) then Refused 401 "Unauthorized"
  else Pass.

Definition metricsAuth (bindHost : string) (current : adminPolicy) (header : string -> string) : gateVerdict :=
  let metricsToken := Getenv env "PROXY_METRICS_TOKEN" in
  if empty_str metricsToken then admin bindHost current header
  else
    let got := presentedToken header in
    let adminToken := ap_token (activeAdminPolicy bindHost current) in
    if constantTimeEqual got metricsToken || (negb (empty_str adminToken) && constantTimeEqual got adminToken) then Pass
    else Refused 401 "Unauthorized".

(** ** Keys (main.go, cervo-requestmeta) *)

Definition BearerToken (headerValue : string) : string :=
  let value := TrimSpace headerValue in
  if HasPrefix (ToLower value) "bearer " then TrimSpace (String.substring 7 (String.length value - 7) value) else value.

Definition placeholderAPIKey (apiKey : string) : bool :=
  let normalized := ToLower (TrimSpace apiKey) in
  existsb (str_eq normalized) [""; "dummy"; "bearer"] || HasPrefix normalized "calvoproxy".

Context {W : Type} `{SecretStore W} (ce : callEnv) (store : option W).

Definition resolveAPIKey (bindHost : string) (header : string -> string) : string :=
  let apiKey := BearerToken (header "Authorization") in
  if placeholderAPIKey apiKey then
    if boundToPublicInterface bindHost && negb allowEnvKeyOnPublicBind then ""
    else
      let envKey := TrimSpace (Getenv env "OPENROUTER_API_KEY") in
      if negb (empty_str envKey) then envKey
      else match managedProviderCredential ce store ProviderOpenRouter with
           | Some vaultKey => TrimSpace vaultKey
           | None => ""
           end
  else apiKey.

Definition ambientDirectProviderConfigured (bindHost : string) : bool :=
  if boundToPublicInterface bindHost && negb allowEnvKeyOnPublicBind then false
  else negb (empty_str (TrimSpace (Getenv env "CEREBRAS_API_KEY"))) || negb (empty_str (TrimSpace (Getenv env "GROQ_API_KEY"))) ||
       managedProviderConfigured ce store ProviderCerebras || managedProviderConfigured ce store ProviderGroq.

(** [inl] is the status and the message of the refusal. *)
Definition requirePostAPIKey (bindHost method : string) (header : string -> string) : Z * string + string :=
  if negb (str_eq method "POST") then inl (405, "Method not allowed")
  else
    let apiKey := resolveAPIKey bindHost header in
    if empty_str apiKey && negb (ambientDirectProviderConfigured bindHost) then inl (401, "API Key required") else inr apiKey.

(** [WithAmbientProviderCredentials]: what the proxy handler allows. *)
Definition allowAmbient (bindHost : string) : bool := negb (boundToPublicInterface bindHost) || allowEnvKeyOnPublicBind.
End exposure.

(** ** What a public bind gives away *)

(** C11: the operator's keys are not spent for strangers.  On a public bind
    without the operator's consent, a request reaches the router only with a
    key of its own, the very one in its header and no placeholder; ambient
    credentials are switched off; and every attempt that survives the
    credential filter is authorized by the caller's key alone.  A POST
    without a key is refused with 401. *)
Theorem public_bind_spends_no_ambient_key lookupIP env {W} `{SecretStore W} ce (store : option W) bindHost header :
  isLoopbackHost lookupIP bindHost = false -> allowEnvKeyOnPublicBind env = false ->
  (placeholderAPIKey (BearerToken (header "Authorization")) = true ->
     requirePostAPIKey lookupIP env ce store bindHost "POST" header = inl (401, "API Key required")) /\
  forall method apiKey, requirePostAPIKey lookupIP env ce store bindHost method header = inr apiKey ->
    apiKey = BearerToken (header "Authorization") /\ placeholderAPIKey apiKey = false /\ allowAmbient lookupIP env bindHost = false /\
    forall svc cr affinity attempts opPath attempt,
      let cx := mkContext (allowAmbient lookupIP env bindHost) affinity in
      attempt ∈ filterConfiguredAttempts svc cr cx attempts apiKey opPath ->
      credentialProvider svc attempt = providerOpenRouter /\ providerCredential svc cr cx attempt apiKey = (TrimSpace apiKey, true).
Proof.
  intros Hpub Hno. assert (Ha : allowAmbient lookupIP env bindHost = false) by (unfold allowAmbient, boundToPublicInterface; by rewrite Hpub, Hno).
  assert (Hd : ambientDirectProviderConfigured lookupIP env ce store bindHost = false)
    by (unfold ambientDirectProviderConfigured, boundToPublicInterface; by rewrite Hpub, Hno).
  assert (Hr : resolveAPIKey lookupIP env ce store bindHost header =
    if placeholderAPIKey (BearerToken (header "Authorization")) then "" else BearerToken (header "Authorization"))
    by (unfold resolveAPIKey, boundToPublicInterface; by rewrite Hpub, Hno).
  unfold requirePostAPIKey. rewrite Hd, Hr. split; [by intros ->|]. intros method apiKey. destruct (negb (str_eq method "POST")); [done|].
  destruct (placeholderAPIKey (BearerToken (header "Authorization"))) eqn:Hp; [done|].
  destruct (empty_str (BearerToken (header "Authorization"))); [done|]. intros [= <-]. split_and!; [done..|].
  intros svc cr affinity attempts opPath attempt Hin. rewrite Ha in *.
  by eapply (public_requests_use_only_caller_key svc cr (mkContext false affinity)) in Hin as (_ & ? & _ & ?); [|done].
Qed.

(** The policy of a server started on [host]. *)
Definition startedOn (lookupIP : string -> option (list (list Z))) (env : environ) (host : string) : adminPolicy :=
  (configureAdminPolicy lookupIP env host).2.

Lemma activeAdminPolicy_started lookupIP env host : host <> "" ->
  activeAdminPolicy lookupIP env host (startedOn lookupIP env host) = startedOn lookupIP env host.
Proof.
  intros Hh. unfold activeAdminPolicy, startedOn, configureAdminPolicy. cbn.
  destruct (empty_str host) eqn:E; [by apply empty_str_spec in E|]. cbn. by destruct (empty_str (TrimSpace _)) eqn:Et.
Qed.

Lemma empty_str_neq s : empty_str s = false -> s <> "".
Proof. intros E ->. discriminate. Qed.

(** The cases of a gate, once its tests are decided. *)
Ltac gate :=
  cbn; strs; repeat match goal with E : empty_str _ = false |- _ => apply empty_str_neq in E end; intuition congruence.

(** Who passes the gate of the administrative endpoints: exactly those who
    present the admin token; and, when there is none, everyone on a loopback
    bind where none is required.  A public bind without a token is closed to
    all.  The metrics token opens the metrics and nothing else. *)
Theorem admin_gate_exact lookupIP env host header :
  host <> "" ->
  let token := TrimSpace (Getenv env "PROXY_ADMIN_TOKEN") in
  let metricsToken := Getenv env "PROXY_METRICS_TOKEN" in
  let open := token = "" /\ isLoopbackHost lookupIP host = true /\ envTrue env "PROXY_ADMIN_REQUIRE_TOKEN" = false in
  (admin lookupIP env host (startedOn lookupIP env host) header = Pass <-> (token <> "" /\ presentedToken header = token) \/ open) /\
  (metricsAuth lookupIP env host (startedOn lookupIP env host) header = Pass <->
     (token <> "" /\ presentedToken header = token) \/ (metricsToken <> "" /\ presentedToken header = metricsToken) \/ (metricsToken = "" /\ open)).
Proof.
  intros Hh token metricsToken open.
  assert (Hadm : admin lookupIP env host (startedOn lookupIP env host) header = Pass <-> (token <> "" /\ presentedToken header = token) \/ open).
  { unfold admin. rewrite activeAdminPolicy_started by done. unfold startedOn, configureAdminPolicy, disabled, constantTimeEqual, open.
    cbn [snd ap_token ap_requireToken]. fold token. clear open metricsToken Hh. clearbody token.
    generalize (isLoopbackHost lookupIP host) (envTrue env "PROXY_ADMIN_REQUIRE_TOKEN"). intros loopback required.
    destruct loopback, required, (empty_str token) eqn:Et, (str_eq (presentedToken header) token) eqn:Ep; gate. }
  split; [exact Hadm|]. unfold metricsAuth. fold metricsToken. clearbody open. destruct (empty_str metricsToken) eqn:Em.
  - rewrite Hadm. clear Hadm. clearbody token metricsToken. gate.
  - clear Hadm. rewrite activeAdminPolicy_started by done. unfold startedOn, configureAdminPolicy, constantTimeEqual. cbn [snd ap_token]. fold token.
    clearbody token metricsToken.
    destruct (str_eq (presentedToken header) metricsToken) eqn:E1, (empty_str token) eqn:Et, (str_eq (presentedToken header) token) eqn:E2; gate.
Qed.

(** ** Witnesses *)

Definition noLookup (_ : string) : option (list (list Z)) := None.

Lemma public_bind_spends_no_ambient_key_witness :
  let env : environ := {["OPENROUTER_API_KEY" := "sk-or-operator"]} in
  let header k := if str_eq k "Authorization" then "Bearer calvoproxy-local" else "" in
  requirePostAPIKey noLookup env (mkCallEnv false None false None 0 (fun _ => true) "") (None : option (gmap string string)) (H := Credentials.memoryStore) "0.0.0.0" "POST" header =
    inl (401, "API Key required").
Proof. intros env header. apply public_bind_spends_no_ambient_key; vm_compute; reflexivity. Defined.

Lemma admin_gate_exact_witness :
  admin noLookup ∅ "0.0.0.0" (startedOn noLookup ∅ "0.0.0.0") (fun _ => "anything") <> Pass /\
  admin noLookup ∅ "127.0.0.1" (startedOn noLookup ∅ "127.0.0.1") (fun _ => "") = Pass.
Proof.
  split.
  - destruct (admin_gate_exact noLookup ∅ "0.0.0.0" (fun _ => "anything") ltac:(discriminate)) as [Ha _]. rewrite Ha.
    intros [[Hn _]|(_ & Hl & _)]; [by apply Hn|vm_compute in Hl; discriminate].
  - destruct (admin_gate_exact noLookup ∅ "127.0.0.1" (fun _ => "") ltac:(discriminate)) as [Ha _]. apply Ha. right. repeat split.
Defined.
