(* ===== verification/Server.v ===== *)
(** * Server: the mux, the request log and the process (cmd/main.go, metrics.go, idle.go, internal/app)

    [serve] is the mux of cmd/main.go: which handler a path has, the gate in
    front of it, and for proxy traffic the key and the flags the router is
    called with.  [statusRecorder] and [proxyMetrics] are what the handler
    wraps around the router; the idle watchdog and [Run] are the life of the
    process.  A response writer is the one of [Http], driven by a list of the
    operations a handler performs on it.  Rewriting of unclean paths by
    net/http is not modelled. *)

From S2P Require Import Prelude Float Env Text Health Counters Http Net Vault Credentials Security.
From Stdlib Require Import Lia ZArith String Ascii.
#[local] Open Scope string_scope.
#[local] Open Scope Z_scope.

(** ** Routes *)

Inductive handlerKind :=
| HProxy (forced : string) | HProfile
| HHealth | HDecision | HDashboard | HDashboardState | HModelPolicy | HMetrics | HReload
| HVersion | HReady.

(** The patterns [newMux] registers.  [main] mounts those of the console on the
    same mux (AdminProviders.serveAdmin); no pattern of this list matches a path
    of the console, so each request is answered by one of the two tables
    (Handlers.console_paths_are_apart). *)
Definition routes : list (string * handlerKind) :=
  [("/chat/completions", HProxy ""); ("/v1/chat/completions", HProxy ""); ("/api/v1/chat/completions", HProxy "");
   ("/v1/simple/chat/completions", HProxy "simple"); ("/v1/coding/chat/completions", HProxy "coding");
   ("/v1/reasoning/chat/completions", HProxy "reasoning"); ("/v1/agent/chat/completions", HProxy "agent");
   ("/v1/creative/chat/completions", HProxy "creative"); ("/v1/vision/chat/completions", HProxy "vision");
   ("/v1/", HProfile);
   ("/messages", HProxy ""); ("/v1/messages", HProxy ""); ("/api/v1/messages", HProxy "");
   ("/embeddings", HProxy ""); ("/v1/embeddings", HProxy ""); ("/api/v1/embeddings", HProxy "");
   ("/health", HHealth); ("/decisions/", HDecision); ("/dashboard", HDashboard); ("/dashboard/state", HDashboardState);
   ("/health/model-policy", HModelPolicy); ("/metrics", HMetrics); ("/version", HVersion); ("/ready", HReady); ("/admin/reload", HReload)].

(** A pattern that ends in a slash is a subtree; the longest one wins, and an
    exact pattern before all. *)
Definition matchesPattern (path : string) (p : string * handlerKind) : bool :=
  if HasSuffix p.1 "/" then HasPrefix path p.1 else str_eq path p.1.

Definition longer (best p : option (string * handlerKind)) : option (string * handlerKind) :=
  match best, p with
  | Some b, Some q => if (String.length b.1 <? String.length q.1)%nat then p else best
  | None, _ => p
  | _, None => best
  end.

Definition muxHandler (path : string) : option handlerKind :=
  snd <$> fold_left longer (Some <$> List.filter (matchesPattern path) routes) None.

(** [^/v1/([^/]+)/chat/completions$] *)
Definition profileOfPath (path : string) : option string :=
  match split_on "/" path with
  | [root; v1; profile; chat; completions] =>
      if empty_str root && str_eq v1 "v1" && negb (empty_str profile) && str_eq chat "chat" && str_eq completions "completions" then Some profile else None
  | _ => None
  end.

(** What becomes of a request: an answer at once, the router with a key, the
    ambient flag and a forced profile, or the body of a handler. *)
Inductive action :=
| Answer (status : Z) (message : string)
| CallRouter (apiKey : string) (ambient : bool) (forced : string)
| RunHandler (k : handlerKind).

(** [served_marked]: the idle timer was reset. *)
Record served := mkServed { served_marked : bool; served_action : action }.

Definition gated (v : gateVerdict) (a : action) : served :=
  mkServed false (match v with Pass => a | Refused status message => Answer status message end).

Section mux.
Context (lookupIP : string -> option (list (list Z))) (env : environ) {W : Type} `{SecretStore W} (ce : callEnv) (store : option W).
Context (bindHost : string) (current : adminPolicy).

(** [proxyHandler] up to the call of the router. *)
Definition proxyHandler (forced method : string) (header : string -> string) : served :=
  mkServed true
    (match requirePostAPIKey lookupIP env ce store bindHost method header with
     | inl (status, message) => Answer status message
     | inr apiKey => CallRouter apiKey (allowAmbient lookupIP env bindHost) forced
     end).

Definition serve (method path : string) (header : string -> string) : served :=
  match muxHandler path with
  | None => mkServed false (Answer 404 "404 page not found")
  | Some k =>
      match k with
      | HProxy forced => proxyHandler forced method header
      | HProfile =>
          if negb (str_eq method "POST") then mkServed false (Answer 404 "404 page not found")
          else match profileOfPath path with
               | None => mkServed false (Answer 404 "404 page not found")
               | Some profile => proxyHandler profile method header
               end
      | HMetrics => gated (metricsAuth lookupIP env bindHost current header) (RunHandler k)
      | HReload =>
          gated (admin lookupIP env bindHost current header)
            (if negb (str_eq method "POST") then Answer 405 "Method not allowed" else RunHandler k)
      | HVersion | HReady => mkServed false (RunHandler k)
      | HHealth | HDecision | HDashboard | HDashboardState | HModelPolicy => gated (admin lookupIP env bindHost current header) (RunHandler k)
      end
  end.
End mux.

(** ** Counting (metrics.go) *)

Record proxyMetrics := mkMetrics {
  requestsTotal : Z;
  status2xx : Z;
  status4xx : Z;
  status5xx : Z;
  statusOther : Z;
  latencyNanos : Z;
  latencyCount : Z;
}.

Definition zeroMetrics : proxyMetrics := mkMetrics 0 0 0 0 0 0 0.

Inductive statusClass := Class2xx | Class4xx | Class5xx | ClassOther.

Definition classOf (status : Z) : statusClass :=
  if (200 <=? status) && (status <? 300) then Class2xx
  else if (400 <=? status) && (status <? 500) then Class4xx
  else if 500 <=? status then Class5xx
  else ClassOther.

Definition observe (status durNanos : Z) (m : proxyMetrics) : proxyMetrics :=
  let one c := match classOf status, c with Class2xx, Class2xx | Class4xx, Class4xx | Class5xx, Class5xx | ClassOther, ClassOther => 1 | _, _ => 0 end in
  mkMetrics (wrap64 (requestsTotal m + 1)) (wrap64 (status2xx m + one Class2xx)) (wrap64 (status4xx m + one Class4xx))
    (wrap64 (status5xx m + one Class5xx)) (wrap64 (statusOther m + one ClassOther))
    (wrap64 (latencyNanos m + durNanos)) (wrap64 (latencyCount m + 1)).

(** *** The recorder *)

Record statusRecorder := mkRecorder {
  rec_writer : responseWriter;
  rec_status : Z;
  rec_wroteHeader : bool;
}.

Definition newStatusRecorder (w : responseWriter) : statusRecorder := mkRecorder w 200 false.

Definition rec_WriteHeader (code : Z) (r : statusRecorder) : statusRecorder :=
  if rec_wroteHeader r then r else mkRecorder (WriteHeader code (rec_writer r)) code true.

Definition rec_Write (data : string) (r : statusRecorder) : statusRecorder :=
  mkRecorder (Write data (rec_writer r)) (rec_status r) true.

(** Flushing a response whose header was not written sends it, with 200. *)
Definition Flush (w : responseWriter) : responseWriter :=
  mkWriter (rw_header w) (match rw_statuses w with [] => [200] | l => l end) (rw_body w).

Definition rec_Flush (r : statusRecorder) : statusRecorder := mkRecorder (Flush (rec_writer r)) (rec_status r) (rec_wroteHeader r).

(** What a handler does to its writer. *)
Inductive writerOp := WHeader (f : gmap string (list string) -> gmap string (list string)) | WWriteHeader (code : Z) | WWrite (data : string) | WFlush.

Definition doOp (w : responseWriter) (op : writerOp) : responseWriter :=
  match op with WHeader f => onHeader f w | WWriteHeader code => WriteHeader code w | WWrite data => Write data w | WFlush => Flush w end.

Definition recOp (r : statusRecorder) (op : writerOp) : statusRecorder :=
  match op with
  | WHeader f => mkRecorder (onHeader f (rec_writer r)) (rec_status r) (rec_wroteHeader r)
  | WWriteHeader code => rec_WriteHeader code r
  | WWrite data => rec_Write data r
  | WFlush => rec_Flush r
  end.

(** The status the client sees; a handler that writes nothing sends 200. *)
Definition clientStatus (w : responseWriter) : Z := match rw_statuses w with [] => 200 | s :: _ => s end.

(** ** Idle shutdown (idle.go) *)

Definition watchInterval (timeout : Z) : Z := let i := Z.quot timeout 4 in if i <? 5 * Second then 5 * Second else i.

(** The ticks after the start; [last t] is the last mark at time [t].  The
    time at which [onIdle] is called, if within [fuel] ticks. *)
Fixpoint watchTicks (fuel : nat) (last : Z -> Z) (timeout tick : Z) : option Z :=
  match fuel with
  | O => None
  | S fuel => if timeout <=? tick - last tick then Some tick else watchTicks fuel last timeout (tick + watchInterval timeout)
  end.

Definition startIdleShutdown (fuel : nat) (last : Z -> Z) (timeout start : Z) : option Z :=
  if timeout <=? 0 then None else watchTicks fuel last timeout (start + watchInterval timeout).

(** [newIdleTracker] and [mark]: the last mark at a time, from the marks. *)
Definition lastMark (start : Z) (marks : list Z) (t : Z) : Z := fold_left (fun acc m => if m <=? t then Z.max acc m else acc) marks start.

Definition idleTimeoutFromEnv (parseDuration : string -> option Z) (env : environ) : Z :=
  let raw := TrimSpace (Getenv env "PROXY_IDLE_TIMEOUT") in
  if empty_str raw then 0 else default 0 (parseDuration raw).

(** ** The process (main.go, internal/app) *)

Definition envOrDefault (env : environ) (key def : string) : string :=
  let v := Getenv env key in if negb (empty_str v) then v else def.

Definition envIntMain (env : environ) (key : string) (fallback : Z) : Z :=
  match Atoi (TrimSpace (Getenv env key)) with Some v => if v <=? 0 then fallback else v | None => fallback end.

Definition readTimeout (env : environ) : Z := wrap64 (envIntMain env "PROXY_HTTP_READ_TIMEOUT_SECONDS" 30 * Second).

Inductive command := Serve | Subcommand (name : string) (args : list string) | ShowVersion.

(** [main]: [args] are those after the program's name. *)
Definition mainCommand (args : list string) : command :=
  match args with
  | [] => Serve
  | a :: rest =>
      if existsb (str_eq a) ["update"; "login"; "doctor"; "chat"; "compact-tools"; "setup"] then Subcommand a rest
      else if existsb (str_eq a) ["logout"; "whoami"] then Subcommand a []
      else if existsb (str_eq a) ["version"; "--version"; "-v"] then ShowVersion
      else Serve
  end.

Definition shutdownTimeout (requested : Z) : Z := if requested <=? 0 then 30 * Second else requested.

(** What [Run] receives first: the end of the server (with an error other
    than [ErrServerClosed], or not), or a reason to shut down. *)
Inductive runEvent := ServerEnded (err : option string) (closed : bool) | ShutdownRequested (reason : string).

(** The error [Run] returns, and whether it called [Shutdown]. *)
Definition Run (hasServer : bool) (ev : runEvent) : option string * bool :=
  if negb hasServer then (Some "app runtime requires an HTTP server", false)
  else match ev with
       | ServerEnded (Some err) closed => (if closed then None else Some err, false)
       | ServerEnded None _ => (None, false)
       | ShutdownRequested _ => (None, true)
       end.

Definition exitCode (runError : option string) : Z := match runError with Some _ => 1 | None => 0 end.

(** ** What the mux lets through *)

(** C19: only the probes answer strangers.  A handler that shows or changes the
    internals runs only for a caller with the admin token, or, for the metrics,
    the metrics token; without a token only on a loopback bind that requires
    none.  The idle timer is reset by proxy traffic alone, and only a POST
    reaches the router. *)
Theorem only_probes_are_open lookupIP env {W} `{SecretStore W} ce (store : option W) host method path header :
  host <> "" ->
  let token := TrimSpace (Getenv env "PROXY_ADMIN_TOKEN") in
  let s := serve lookupIP env ce store host (startedOn lookupIP env host) method path header in
  (forall k, served_action s = RunHandler k ->
     k = HVersion \/ k = HReady \/ (token <> "" /\ presentedToken header = token) \/
     (k = HMetrics /\ Getenv env "PROXY_METRICS_TOKEN" <> "" /\ presentedToken header = Getenv env "PROXY_METRICS_TOKEN") \/
     (token = "" /\ isLoopbackHost lookupIP host = true /\ envTrue env "PROXY_ADMIN_REQUIRE_TOKEN" = false)) /\
  (served_marked s = true -> (exists forced, muxHandler path = Some (HProxy forced)) \/
     (muxHandler path = Some HProfile /\ method = "POST" /\ is_Some (profileOfPath path))) /\
  (forall key ambient forced, served_action s = CallRouter key ambient forced ->
     method = "POST" /\ served_marked s = true /\ ambient = allowAmbient lookupIP env host).
Proof.
  intros Hh. cbv zeta. pose proof (admin_gate_exact lookupIP env host header Hh) as [Ha Hm]. cbv zeta in Ha, Hm.
  unfold serve, proxyHandler, gated, requirePostAPIKey.
  destruct (muxHandler path) as [k|]; [|by split_and!].
  destruct k; cbn [served_action served_marked];
    try (destruct (admin _ _ _ _ _); [pose proof (proj1 Ha eq_refl) as [?|?]|]);
    try (destruct (metricsAuth _ _ _ _ _); [pose proof (proj1 Hm eq_refl) as [?|[?|[_ ?]]]|]); clear Ha Hm;
    repeat case_match; cbn; split_and!; intros; simplify_eq; strs;
    repeat match goal with E : negb (str_eq _ _) = false |- _ => apply negb_false_iff, str_eq_spec in E end;
    first [done|tauto|by left; eexists|by eauto 8].
Qed.

(** ** The recorder *)

(** Handlers flush only after they have written. *)
Fixpoint flushesLate (wrote : bool) (ops : list writerOp) : Prop :=
  match ops with
  | [] => True
  | WFlush :: ops => wrote = true /\ flushesLate wrote ops
  | WHeader _ :: ops => flushesLate wrote ops
  | (WWriteHeader _ | WWrite _) :: ops => flushesLate true ops
  end.

(** The recorder and the bare writer, step by step. *)
Definition agree (r : statusRecorder) (w : responseWriter) : Prop :=
  rw_header (rec_writer r) = rw_header w /\ rw_body (rec_writer r) = rw_body w /\
  (if rec_wroteHeader r then rw_statuses (rec_writer r) = [rec_status r] /\ exists more, rw_statuses w = rec_status r :: more
   else rec_status r = 200 /\ rw_statuses (rec_writer r) = [] /\ rw_statuses w = []).

Lemma recOp_agree r w op : agree r w -> flushesLate (rec_wroteHeader r) [op] ->
  agree (recOp r op) (doOp w op) /\ (forall ops, flushesLate (rec_wroteHeader r) (op :: ops) -> flushesLate (rec_wroteHeader (recOp r op)) ops).
Proof.
  intros (Hh & Hb & Hs) Hf. destruct op as [f|code|data|]; cbn in *.
  - split; [|done]. unfold agree. cbn. rewrite Hh. by destruct (rec_wroteHeader r).
  - unfold rec_WriteHeader. destruct (rec_wroteHeader r) eqn:E; cbn.
    + split; [|by rewrite E]. unfold agree. cbn. rewrite E. destruct Hs as [-> [more ->]]. split_and!; [done..|by eexists].
    + split; [|done]. unfold agree. cbn. destruct Hs as (_ & -> & ->). split_and!; [done..|by eexists].
  - split; [|done]. unfold agree. cbn. rewrite Hb. destruct (rec_wroteHeader r).
    + destruct Hs as [-> [more ->]]. split_and!; [done..|by eexists].
    + destruct Hs as (-> & -> & ->). split_and!; [done..|by eexists].
  - destruct Hf as [E _]. split; [|intros ops [_ ?]; exact H]. unfold agree. cbn. rewrite E in *. destruct Hs as [-> [more ->]].
    split_and!; [done..|by eexists].
Qed.

Lemma recOps_agree ops : forall r w, agree r w -> flushesLate (rec_wroteHeader r) ops -> agree (fold_left recOp ops r) (fold_left doOp ops w).
Proof.
  induction ops as [|op ops IH]; intros r w Ha Hf; [done|]. cbn [fold_left].
  assert (H1 : flushesLate (rec_wroteHeader r) [op]) by (destruct op; cbn in *; tauto).
  destruct (recOp_agree r w op Ha H1) as [Ha' Hf']. apply IH; [done|by apply Hf'].
Qed.

(** Measuring a request does not change it.  Whatever a handler writes, its
    client gets through the recorder the same headers, body and status as
    without it, at most one status line is sent, and the status that is
    counted is the one the client saw. *)
Theorem recorder_is_transparent ops :
  flushesLate false ops ->
  let r := fold_left recOp ops (newStatusRecorder newWriter) in
  let w := fold_left doOp ops newWriter in
  rw_header (rec_writer r) = rw_header w /\ rw_body (rec_writer r) = rw_body w /\
  clientStatus (rec_writer r) = clientStatus w /\ rec_status r = clientStatus w /\ (List.length (rw_statuses (rec_writer r)) <= 1)%nat.
Proof.
  intros Hf. cbv zeta. destruct (recOps_agree ops (newStatusRecorder newWriter) newWriter) as (Hh & Hb & Hs); [by split_and!|done|].
  unfold clientStatus. destruct (rec_wroteHeader _).
  - destruct Hs as [-> [more ->]]. by split_and!.
  - destruct Hs as (-> & -> & ->). split_and!; try done. cbn. lia.
Qed.

(** ** The counters *)

Definition inClass (c : statusClass) (o : Z * Z) : bool :=
  match classOf o.1, c with Class2xx, Class2xx | Class4xx, Class4xx | Class5xx, Class5xx | ClassOther, ClassOther => true | _, _ => false end.

Definition observeAll (obs : list (Z * Z)) (m : proxyMetrics) : proxyMetrics := fold_left (fun m o => observe o.1 o.2 m) obs m.

Lemma count_cons {A} (f : A -> bool) x l : count f (x :: l) = ((if f x then 1 else 0) + count f l)%nat.
Proof. unfold count. cbn. by destruct (f x). Qed.

(** One request is in one class. *)
Lemma inClass_cases o : exists c, classOf o.1 = c /\
  inClass Class2xx o = (match c with Class2xx => true | _ => false end) /\ inClass Class4xx o = (match c with Class4xx => true | _ => false end) /\
  inClass Class5xx o = (match c with Class5xx => true | _ => false end) /\ inClass ClassOther o = (match c with ClassOther => true | _ => false end).
Proof. exists (classOf o.1). unfold inClass. by destruct (classOf o.1). Qed.

Lemma observeAll_fold obs : forall m,
  let z l := Z.of_nat (List.length l) in
  let n c := Z.of_nat (count (inClass c) obs) in
  let m' := observeAll obs m in
  wrap64 (requestsTotal m') = wrap64 (requestsTotal m + z obs) /\ wrap64 (latencyCount m') = wrap64 (latencyCount m + z obs) /\
  wrap64 (status2xx m') = wrap64 (status2xx m + n Class2xx) /\ wrap64 (status4xx m') = wrap64 (status4xx m + n Class4xx) /\
  wrap64 (status5xx m') = wrap64 (status5xx m + n Class5xx) /\ wrap64 (statusOther m') = wrap64 (statusOther m + n ClassOther).
Proof.
  assert (Hw : forall a b c, wrap64 (wrap64 (a + b) + c) = wrap64 (a + (b + c))).
  { intros a b c. unfold wrap64. f_equal. replace ((a + b + two63) mod two64 - two63 + c + two63) with ((a + b + two63) mod two64 + c) by lia.
    rewrite Zplus_mod_idemp_l. f_equal. lia. }
  induction obs as [|[status dur] obs IH]; intros m; [cbn; by rewrite !Z.add_0_r|]. cbv zeta in *.
  change (observeAll ((status, dur) :: obs) m) with (observeAll obs (observe status dur m)).
  destruct (IH (observe status dur m)) as (-> & -> & -> & -> & -> & ->).
  unfold observe. cbn [requestsTotal latencyCount status2xx status4xx status5xx statusOther fst snd]. rewrite !Hw.
  rewrite !count_cons. destruct (inClass_cases (status, dur)) as (c & E & -> & -> & -> & ->). cbn [fst] in E. rewrite E.
  destruct c; cbn [List.length]; split_and!; f_equal; lia.
Qed.

Lemma observe_wrapped status dur m : let m' := observe status dur m in
  wrap64 (requestsTotal m') = requestsTotal m' /\ wrap64 (status2xx m') = status2xx m' /\ wrap64 (status4xx m') = status4xx m' /\
  wrap64 (status5xx m') = status5xx m' /\ wrap64 (statusOther m') = statusOther m'.
Proof. cbv zeta. split_and!; apply wrap64_id, wrap64_range. Qed.

Lemma observeAll_wrapped obs : let m' := observeAll obs zeroMetrics in
  wrap64 (requestsTotal m') = requestsTotal m' /\ wrap64 (status2xx m') = status2xx m' /\ wrap64 (status4xx m') = status4xx m' /\
  wrap64 (status5xx m') = status5xx m' /\ wrap64 (statusOther m') = statusOther m'.
Proof.
  cbv zeta. unfold observeAll. apply (fold_left_inv (fun m' =>
    wrap64 (requestsTotal m') = requestsTotal m' /\ wrap64 (status2xx m') = status2xx m' /\ wrap64 (status4xx m') = status4xx m' /\
    wrap64 (status5xx m') = status5xx m' /\ wrap64 (statusOther m') = statusOther m')); [by split_and!|].
  intros m' o _ _. apply observe_wrapped.
Qed.

(** Every request is counted once, in the class of its status, and the total
    is the sum of the classes. *)
Theorem metrics_count_every_request obs :
  Z.of_nat (List.length obs) <= max_int64 ->
  let m := observeAll obs zeroMetrics in
  requestsTotal m = Z.of_nat (List.length obs) /\
  status2xx m = Z.of_nat (count (inClass Class2xx) obs) /\ status4xx m = Z.of_nat (count (inClass Class4xx) obs) /\
  status5xx m = Z.of_nat (count (inClass Class5xx) obs) /\ statusOther m = Z.of_nat (count (inClass ClassOther) obs) /\
  requestsTotal m = status2xx m + status4xx m + status5xx m + statusOther m.
Proof.
  intros Hn. cbv zeta. destruct (observeAll_fold obs zeroMetrics) as (H1 & _ & H2 & H3 & H4 & H5). cbv zeta in *.
  destruct (observeAll_wrapped obs) as (W1 & W2 & W3 & W4 & W5). cbv zeta in *. rewrite W1 in H1. rewrite W2 in H2. rewrite W3 in H3. rewrite W4 in H4. rewrite W5 in H5.
  assert (Hc : forall c, (count (inClass c) obs <= List.length obs)%nat) by (intros c; apply List.filter_length_le).
  assert (Hsum : (List.length obs = count (inClass Class2xx) obs + count (inClass Class4xx) obs + count (inClass Class5xx) obs + count (inClass ClassOther) obs)%nat).
  { clear. induction obs as [|o obs IH]; [done|]. cbn [List.length]. rewrite !count_cons.
    destruct (inClass_cases o) as (c & _ & -> & -> & -> & ->). destruct c; lia. }
  assert (Hid : forall c, wrap64 (0 + Z.of_nat (count (inClass c) obs)) = Z.of_nat (count (inClass c) obs)).
  { intros c. apply wrap64_id. specialize (Hc c). unfold in_int64, min_int64, max_int64, two63 in *. lia. }
  cbn [zeroMetrics requestsTotal status2xx status4xx status5xx statusOther] in *. rewrite Hid in H2, H3, H4, H5.
  rewrite wrap64_id in H1 by (unfold in_int64, min_int64, max_int64, two63 in *; lia). lia.
Qed.

(** ** The idle watchdog *)

Lemma watchInterval_pos timeout : 0 < watchInterval timeout.
Proof. unfold watchInterval. destruct (_ <? _) eqn:E; zbool; unfold Second, Millisecond in *; lia. Qed.

Lemma fold_max_mono l : forall x y, x <= y -> fold_left Z.max l x <= fold_left Z.max l y.
Proof. induction l as [|z l IH]; intros x y Hxy; cbn; [lia|]. apply IH. lia. Qed.

Lemma lastMark_le marks : forall start t, lastMark start marks t <= fold_left Z.max marks start.
Proof.
  unfold lastMark. induction marks as [|m marks IH]; intros start t; cbn; [lia|].
  destruct (m <=? t); [apply IH|]. etrans; [apply IH|]. apply fold_max_mono. lia.
Qed.

Lemma watchTicks_fires last timeout a : (forall t, last t <= a) ->
  forall fuel tick, tick < a + timeout + watchInterval timeout -> a + timeout <= tick + watchInterval timeout * (Z.of_nat fuel - 1) ->
  (0 < fuel)%nat -> exists t, watchTicks fuel last timeout tick = Some t /\ timeout <= t - last t /\ t < a + timeout + watchInterval timeout.
Proof.
  intros Hb. pose proof (watchInterval_pos timeout). induction fuel as [|fuel IH]; intros tick Ht Hf Hpos; [lia|]. cbn.
  destruct (timeout <=? tick - last tick) eqn:E; zbool; [exists tick; split_and!; [done|lia|lia]|].
  assert (tick < a + timeout) by (specialize (Hb tick); lia).
  apply IH; [lia|lia|]. destruct fuel; [|lia]. exfalso. cbn in Hf. lia.
Qed.

Lemma idle_fires timeout start marks fuel :
  0 < timeout -> fold_left Z.max marks start - start + timeout <= watchInterval timeout * Z.of_nat fuel ->
  exists t, startIdleShutdown fuel (lastMark start marks) timeout start = Some t /\
    timeout <= t - lastMark start marks t /\ t < fold_left Z.max marks start + timeout + watchInterval timeout.
Proof.
  intros Hto Hf. pose proof (watchInterval_pos timeout) as Hi.
  assert (Ha : start <= fold_left Z.max marks start).
  { clear. revert start. induction marks as [|m marks IH]; intros start; cbn; [lia|]. etrans; [|apply IH]. lia. }
  unfold startIdleShutdown. rewrite (proj2 (Z.leb_gt timeout 0) Hto).
  apply watchTicks_fires; [apply lastMark_le|lia|lia|]. destruct fuel; [|lia]. cbn in Hf. lia.
Qed.

(** The watchdog fires, when it should and not before.  With an idle timeout
    set, the process is told to stop once no request has arrived for that
    long, at most one interval (a quarter of the timeout, or five seconds)
    late; and when it is told to stop, no request had arrived for that long.
    The number of ticks is enough to reach that time.  Without a timeout it is
    never told to stop. *)
Theorem idle_shutdown_window timeout start marks fuel :
  (timeout <= 0 -> startIdleShutdown fuel (lastMark start marks) timeout start = None) /\
  (0 < timeout ->
   let a := fold_left Z.max marks start in
   a - start + timeout <= watchInterval timeout * Z.of_nat fuel ->
   exists t, startIdleShutdown fuel (lastMark start marks) timeout start = Some t /\
     timeout <= t - lastMark start marks t /\ t < a + timeout + watchInterval timeout).
Proof.
  split; [|intros Hto a Hf; by apply idle_fires]. intros Hto. unfold startIdleShutdown. by rewrite (proj2 (Z.leb_le timeout 0) Hto).
Qed.

(** A request counts as activity when it arrives and not while it runs: one
    that streams for longer than the timeout, an interval and the thirty
    seconds of the drain is still running when the process stops. *)
Theorem idle_shutdown_cuts_running_request timeout start arrival finish :
  0 < timeout -> start <= arrival -> arrival + timeout + watchInterval timeout + shutdownTimeout (30 * Second) <= finish ->
  exists fuel t, startIdleShutdown fuel (lastMark start [arrival]) timeout start = Some t /\ t + shutdownTimeout (30 * Second) < finish.
Proof.
  intros Hto Ha Hf. pose proof (watchInterval_pos timeout) as Hi. exists (Z.to_nat (arrival - start + timeout)).
  destruct (idle_fires timeout start [arrival] (Z.to_nat (arrival - start + timeout)) Hto) as (t & E & _ & Ht).
  - cbn. nia.
  - exists t. split; [done|]. cbn in Ht. lia.
Qed.

(** ** Witnesses *)

Definition noStore : option (gmap string string) := None.

Lemma only_probes_are_open_witness :
  served_action (serve (H := Credentials.memoryStore) noLookup ∅ AdminProviders.exCall noStore "0.0.0.0" (startedOn noLookup ∅ "0.0.0.0") "GET" "/health" (fun _ => ""))
    <> RunHandler HHealth.
Proof.
  intros Hk. destruct (only_probes_are_open (H := Credentials.memoryStore) noLookup ∅ AdminProviders.exCall noStore "0.0.0.0" "GET" "/health" (fun _ => "") ltac:(discriminate)) as [Hp _].
  destruct (Hp _ Hk) as [?|[?|[[Hn _]|[(_ & Hn & _)|(_ & Hl & _)]]]]; [discriminate|discriminate|by destruct Hn|by destruct Hn|vm_compute in Hl; discriminate].
Defined.

Definition exWrites : list writerOp := [WHeader (header_Set "Content-Type" "text/event-stream"); WWriteHeader 200; WFlush; WWrite "data: x"; WFlush; WWriteHeader 500].

Lemma recorder_is_transparent_witness : rec_status (fold_left recOp exWrites (newStatusRecorder newWriter)) = 200.
Proof. destruct (recorder_is_transparent exWrites) as (_ & _ & _ & -> & _); [by split_and!|reflexivity]. Defined.

Lemma metrics_count_every_request_witness : status5xx (observeAll [(200, 5); (503, 7); (302, 1)] zeroMetrics) = 1.
Proof. destruct (metrics_count_every_request [(200, 5); (503, 7); (302, 1)]) as (_ & _ & _ & H & _); [discriminate|exact H]. Defined.

Lemma idle_shutdown_window_witness :
  exists t, startIdleShutdown 20 (lastMark 0 [50 * Second]) (60 * Second) 0 = Some t /\ 110 * Second <= t < 125 * Second.
Proof.
  destruct (idle_shutdown_window (60 * Second) 0 [50 * Second] 20) as [_ H]. destruct H as (t & E & H1 & H2); [reflexivity|vm_compute; discriminate|].
  exists t. split; [exact E|]. vm_compute in E. injection E as <-. split; [vm_compute; discriminate|reflexivity].
Defined.

Lemma idle_shutdown_cuts_running_request_witness :
  exists fuel t, startIdleShutdown fuel (lastMark 0 [0]) (60 * Second) 0 = Some t /\ t + shutdownTimeout (30 * Second) < 200 * Second.
Proof. apply (idle_shutdown_cuts_running_request (60 * Second) 0 0 (200 * Second)); [reflexivity|vm_compute; discriminate|vm_compute; discriminate]. Defined.
