(* ===== verification/Exposition.v ===== *)
(** * Exposition: the text of GET /metrics (cmd/main.go)

    [writeMetrics] and [writeRouterMetrics] print families of samples: two
    comment lines with the name, the help text and the type, then the samples
    of that name.  They are modelled as the list of families they print, and
    [expose] is the text.  Quoting a label ([%q]) is the argument [quote]. *)

From S2P Require Import Prelude Float Env Text Split Health Counters Server.
From Stdlib Require Import Lia ZArith String Ascii.
#[local] Open Scope string_scope.
#[local] Open Scope Z_scope.

Record metricFamily := mkFamily {
  fam_name : string;
  fam_help : string;
  fam_type : string;
  fam_samples : list (list (string * string) * string);
}.

Definition boolToInt (b : bool) : Z := if b then 1 else 0.

Definition dquote : string := String (byte 34) "".

(** A label value that is written in the format, with its quotes. *)
Definition plainQuote (s : string) : string := dquote +:+ s +:+ dquote.

Section metrics.
Context (quote : string -> string).

Definition writeMetrics (h : ProxyHealth) (m : proxyMetrics) (version : string) : list metricFamily :=
  [mkFamily "calvoproxy_up" "Proxy readiness (1=ready)" "gauge"
      [([], pretty (boolToInt (ph_Ready h)))];
   mkFamily "calvoproxy_open_circuits" "Open model circuits" "gauge"
      [([], pretty (ph_OpenCircuitCount h))];
   mkFamily "calvoproxy_model_score" "Per-model reliability score [0,1]" "gauge"
      ((fun x => ([("model", quote (bs_Model x)); ("state", quote (bs_State x))], FormatFixed 4 (bs_Score x))) <$> ph_Circuits h);
   mkFamily "calvoproxy_model_consecutive_failures" "Consecutive failures per model" "gauge"
      ((fun x => ([("model", quote (bs_Model x))], pretty (bs_ConsecutiveFailures x))) <$> ph_Circuits h);
   mkFamily "calvoproxy_model_successes" "Successful attempts per model" "counter"
      ((fun x => ([("model", quote (bs_Model x))], pretty (bs_Successes x))) <$> ph_Circuits h);
   mkFamily "calvoproxy_requests_total" "Proxy requests handled" "counter"
      [([], pretty (requestsTotal m))];
   mkFamily "calvoproxy_requests_by_status" "Proxy requests by HTTP status class" "counter"
      [([("class", plainQuote "2xx")], pretty (status2xx m));
       ([("class", plainQuote "4xx")], pretty (status4xx m));
       ([("class", plainQuote "5xx")], pretty (status5xx m));
       ([("class", plainQuote "other")], pretty (statusOther m))];
   mkFamily "calvoproxy_request_latency_seconds_sum" "Total handler latency" "counter"
      [([], FormatFixed 6 (fdiv (f_of_Z (latencyNanos m)) (f_of_Z 1000000000)))];
   mkFamily "calvoproxy_request_latency_count" "Handler latency observations" "counter"
      [([], pretty (latencyCount m))];
   mkFamily "calvoproxy_build_info" "Build version (value always 1)" "gauge"
      [([("version", quote version)], "1")]].

Definition writeRouterMetrics (c : RouterCounters) : list metricFamily :=
  [mkFamily "calvoproxy_streams_total" "Streamed responses by how they ended" "counter"
      [([("outcome", plainQuote "completed")], pretty (RC_count c streamsCompleted));
       ([("outcome", plainQuote "stalled")], pretty (RC_count c streamsStalled));
       ([("outcome", plainQuote "upstream_error")], pretty (RC_count c streamsUpstreamErr));
       ([("outcome", plainQuote "max_duration")], pretty (RC_count c streamsMaxReached));
       ([("outcome", plainQuote "client_gone")], pretty (RC_count c streamsClientGone))];
   mkFamily "calvoproxy_admission_rejected_total" "Requests shed by admission control" "counter"
      [([], pretty (RC_count c admissionRejected))];
   mkFamily "calvoproxy_capability_refused_total" "Requests refused for lacking a capable model (vision/tools)" "counter"
      [([], pretty (RC_count c capabilityRefused))];
   mkFamily "calvoproxy_unknown_profile_rejected_total" "Requests naming a profile that does not exist (404)" "counter"
      [([], pretty (RC_count c unknownProfileRejected))];
   mkFamily "calvoproxy_paid_embedding_refused_total" "Embedding requests refused because they would bill real credit" "counter"
      [([], pretty (RC_count c paidEmbeddingRefused))];
   mkFamily "calvoproxy_stream_first_event_timeout_total" "Streaming attempts abandoned before their first event (chain advanced)" "counter"
      [([], pretty (RC_count c streamFirstEventTimeouts))];
   mkFamily "calvoproxy_chain_failed_total" "Fallback chains that ended without serving the request, by cause" "counter"
      [([("reason", plainQuote "cancelled")], pretty (RC_count c chainFailedCancelled));
       ([("reason", plainQuote "total_timeout")], pretty (RC_count c chainFailedTotalTimeout));
       ([("reason", plainQuote "terminal")], pretty (RC_count c chainFailedTerminal));
       ([("reason", plainQuote "exhausted")], pretty (RC_count c chainFailedExhausted));
       ([("reason", plainQuote "executor_error")], pretty (RC_count c chainFailedExecutorError))];
   mkFamily "calvoproxy_all_models_cooling_total" "Requests refused before the chain ran because every planned model was open or cooling down" "counter"
      [([], pretty (RC_count c allModelsCooling))];
   mkFamily "calvoproxy_quota_hold_total" "Requests parked in-proxy until the earliest quota/cooldown reset instead of being refused" "counter"
      [([], pretty (RC_count c quotaHeld))];
   mkFamily "calvoproxy_attempt_first_event_seconds_sum" "Total post-header wait for a first stream event (what the fail-fast budget measures)" "counter"
      ((fun x => ([("model", quote (ml_Model x))], FormatFixed 6 (ml_SumSeconds x))) <$> RC_FirstEventLatency c);
   mkFamily "calvoproxy_attempt_first_event_seconds_count" "First-event wait observations (event arrived or budget expired)" "counter"
      ((fun x => ([("model", quote (ml_Model x))], pretty (ml_Count x))) <$> RC_FirstEventLatency c);
   mkFamily "calvoproxy_attempt_first_token_seconds_sum" "Total time from upstream request to first token, response headers included" "counter"
      ((fun x => ([("model", quote (ml_Model x))], FormatFixed 6 (ml_SumSeconds x))) <$> RC_FirstTokenLatency c);
   mkFamily "calvoproxy_attempt_first_token_seconds_count" "First-token observations (only attempts that produced a token)" "counter"
      ((fun x => ([("model", quote (ml_Model x))], pretty (ml_Count x))) <$> RC_FirstTokenLatency c)].
End metrics.

(** ** The text *)

Definition renderLabels (labels : list (string * string)) : string :=
  match labels with
  | [] => ""
  | _ => "{" +:+ String.concat "," ((fun '(k, v) => k +:+ "=" +:+ v) <$> labels) +:+ "}"
  end.

Definition familyLines (f : metricFamily) : list string :=
  ("# HELP " +:+ fam_name f +:+ " " +:+ fam_help f) :: ("# TYPE " +:+ fam_name f +:+ " " +:+ fam_type f) ::
  ((fun '(labels, v) => fam_name f +:+ renderLabels labels +:+ " " +:+ v) <$> fam_samples f).

Definition lineFeed : string := String (byte 10) "".

Definition endLines (ls : list string) : string := fold_right (fun l acc => l +:+ lineFeed +:+ acc) "" ls.

Definition expose (fs : list metricFamily) : string := endLines (fs ≫= familyLines).

(** The body of GET /metrics. *)
Definition metricsBody (quote : string -> string) (h : ProxyHealth) (m : proxyMetrics) (version : string) (k : routerCounters) : string :=
  expose (writeMetrics quote h m version ++ writeRouterMetrics quote (Counters k)).

(** ** Lines *)

(** No line feed. *)
Definition flat : string -> Prop := noByte (byte 10).

Lemma split_endLines ls : Forall flat ls -> split_on (byte 10) (endLines ls) = (ls ++ [""])%list.
Proof. induction 1 as [|l ls Hl Hls IH]; [done|]. cbn [endLines fold_right]. unfold lineFeed at 1. change (String (byte 10) "" +:+ ?t) with (String (byte 10) t). rewrite split_on_app by done. unfold endLines in IH. by rewrite IH. Qed.

Definition flatSample (s : list (string * string) * string) : Prop := Forall (fun kv => flat kv.1 /\ flat kv.2) s.1 /\ flat s.2.

Definition flatFamily (f : metricFamily) : Prop :=
  flat (fam_name f) /\ flat (fam_help f) /\ flat (fam_type f) /\ Forall flatSample (fam_samples f).

Lemma flat_app s t : flat (s +:+ t) <-> flat s /\ flat t.
Proof. apply strAll_app. Qed.

Lemma flat_decide s : bool_decide (flat s) = true -> flat s.
Proof. apply bool_decide_eq_true_1. Qed.

Lemma familyLines_flat f : flatFamily f -> Forall flat (familyLines f).
Proof.
  intros (Hn & Hh & Ht & Hs). unfold familyLines. rewrite !Forall_cons, Forall_fmap.
  split_and!; [rewrite !flat_app; split_and!; try done; by apply flat_decide..|].
  eapply Forall_impl; [exact Hs|]. intros [labels v] [Hl Hv]. cbn in *. rewrite !flat_app. split_and!; [done| |by apply flat_decide|done].
  unfold renderLabels. destruct labels as [|kv labels]; [by apply flat_decide|]. rewrite !flat_app.
  split_and!; [by apply flat_decide| |by apply flat_decide].
  apply strAll_concat; [by apply flat_decide|]. apply Forall_fmap. eapply Forall_impl; [exact Hl|]. intros [k x] [Hk Hx]. cbn in *.
  change (flat (k +:+ "=" +:+ x)). rewrite !flat_app. split_and!; [done|by apply flat_decide|done].
Qed.

(** ** What is printed *)

Lemma digit_flat c : digitByte c = true -> negb (Ascii.eqb c (byte 10)) = true.
Proof. destruct c as [[] [] [] [] [] [] [] []]; done. Qed.

Lemma flat_pretty (z : Z) : flat (pretty z).
Proof. apply strAll_pretty_Z; [apply digit_flat|done]. Qed.

Lemma flat_fixed prec x : flat (FormatFixed prec x).
Proof. apply strAll_FormatFixed; [apply digit_flat|by repeat constructor]. Qed.

#[local] Hint Resolve flat_pretty flat_fixed : core.

Section quoting.
Context (quote : string -> string) (Hflat : forall s, flat (quote s)).

Ltac sample_flat := repeat split; repeat constructor; cbn; auto; by apply flat_decide.
Ltac family_flat :=
  split_and!; [by apply flat_decide|by apply flat_decide|by apply flat_decide|];
  cbn [fam_samples]; first [apply Forall_fmap, Forall_forall; intros x _; unfold compose; sample_flat|repeat (apply Forall_cons; split); try sample_flat; try constructor].

Lemma writeMetrics_flat h m version : Forall flatFamily (writeMetrics quote h m version).
Proof using Hflat. unfold writeMetrics. repeat (apply Forall_cons; split); try (constructor; fail); family_flat. Qed.

Lemma writeRouterMetrics_flat c : Forall flatFamily (writeRouterMetrics quote c).
Proof using Hflat. unfold writeRouterMetrics. repeat (apply Forall_cons; split); try (constructor; fail); family_flat. Qed.

Context (Hinj : Inj (=) (=) quote).

Lemma NoDup_series {A} (key : A -> string) (g : A -> list (string * string) * string) l :
  (forall x y, (g x).1 = (g y).1 -> key x = key y) -> NoDup (key <$> l) -> NoDup (fst <$> (g <$> l)).
Proof.
  intros Hk. induction l as [|x l IH]; cbn; [constructor|]. intros [Hx Hl]%NoDup_cons. apply NoDup_cons. split; [|by apply IH].
  intros Hin. apply list_elem_of_fmap in Hin as (s & Hs & Hin). apply list_elem_of_fmap in Hin as (y & -> & Hy). apply Hx.
  rewrite (Hk x y Hs). by apply list_elem_of_fmap_2.
Qed.
End quoting.

Lemma snapshotLatency_NoDup from : NoDup (ml_Model <$> snapshotLatency from).
Proof.
  unfold snapshotLatency. rewrite SliceStable_perm, <- list_fmap_compose.
  erewrite list_fmap_ext; [apply (NoDup_fst_map_to_list from)|]. by intros i [model stat] _.
Qed.

(** The metrics page is what a scraper can read.  Its lines are exactly those
    of the families, whatever names models have: no label breaks a line or
    adds one; each family is announced once; and no series is printed twice. *)
Theorem metrics_page_wellformed quote h m version k :
  (forall s, flat (quote s)) -> Inj (=) (=) quote -> NoDup (bs_Model <$> ph_Circuits h) ->
  let fs := (writeMetrics quote h m version ++ writeRouterMetrics quote (Counters k))%list in
  split_on (byte 10) (metricsBody quote h m version k) = ((fs ≫= familyLines) ++ [""])%list /\
  NoDup (fam_name <$> fs) /\ Forall (fun f => NoDup (fam_samples f).*1) fs.
Proof.
  intros Hq Hi Hm fs. assert (Hfs : Forall flatFamily fs) by (apply Forall_app_2; [by apply writeMetrics_flat|by apply writeRouterMetrics_flat]).
  split_and!.
  - unfold metricsBody, expose. apply split_endLines. fold fs. apply Forall_bind. eapply Forall_impl; [exact Hfs|]. apply familyLines_flat.
  - apply (bool_decide_eq_true_1 _). vm_compute. reflexivity.
  - assert (Hmodel : forall a b, [("model", quote a)] = [("model", quote b)] -> a = b) by (intros a b [= E]; by apply Hi in E).
    pose proof (snapshotLatency_NoDup (rc_firstEvent k)) as He. pose proof (snapshotLatency_NoDup (rc_firstToken k)) as Ht.
    unfold fs, writeMetrics, writeRouterMetrics. cbn [app]. repeat (apply Forall_cons; split); try (constructor; fail); cbn [fam_samples];
      first [apply (NoDup_series bs_Model); [intros x y E; cbn in E; by simplify_eq|exact Hm]
            |apply (NoDup_series ml_Model); [intros x y E; cbn in E; by simplify_eq|done]
            |apply (bool_decide_eq_true_1 _); vm_compute; reflexivity
            |apply NoDup_singleton].
Qed.

(** ** Witness *)

(** A way to quote: the bits of each byte. *)
Definition bitByte (b : bool) : ascii := if b then "1"%char else "0"%char.

Fixpoint bitQuote (s : string) : string :=
  match s with
  | EmptyString => EmptyString
  | String (Ascii a b c d e f g h) s =>
      String (bitByte a) (String (bitByte b) (String (bitByte c) (String (bitByte d)
        (String (bitByte e) (String (bitByte f) (String (bitByte g) (String (bitByte h) (bitQuote s))))))))
  end.

Lemma bitQuote_flat s : flat (bitQuote s).
Proof. induction s as [|[a b c d e f g h] s IH]; cbn; repeat constructor; try exact IH; by match goal with x : bool |- context [bitByte ?x] => destruct x end. Qed.

Lemma bitByte_inj a b : bitByte a = bitByte b -> a = b.
Proof. by destruct a, b. Qed.

Lemma bitQuote_inj s : forall t, bitQuote s = bitQuote t -> s = t.
Proof.
  induction s as [|[a b c d e f g h] s IH]; intros [|[a' b' c' d' e' f' g' h'] t]; cbn; try done.
  intros [= E1 E2 E3 E4 E5 E6 E7 E8 E9]. apply bitByte_inj in E1, E2, E3, E4, E5, E6, E7, E8. apply IH in E9. by subst.
Qed.

Definition exHealth : ProxyHealth :=
  mkProxyHealth "ok" true 0 true "" [] 3 60 90 []
    [mkBreakerSnapshot ("a" +:+ lineFeed +:+ "b") 0 4 0 "" 0 0 f1 "closed"; mkBreakerSnapshot "c" 1 0 0 "" 0 0 f0 "open"] [].

Lemma metrics_page_wellformed_witness :
  List.length (split_on (byte 10) (metricsBody bitQuote exHealth zeroMetrics "v1" zeroCounters)) = 80%nat.
Proof.
  destruct (metrics_page_wellformed bitQuote exHealth zeroMetrics "v1" zeroCounters) as [E _].
  - exact bitQuote_flat.
  - exact bitQuote_inj.
  - apply (bool_decide_eq_true_1 _). vm_compute. reflexivity.
  - rewrite E. vm_compute. reflexivity.
Defined.
