(* ===== verification/CompactTools.v ===== *)
(** * CompactTools: the stdin bridge to the compressor (cmd/compact_tools.go)

    [calvoproxy compact-tools] reads one JSON request, hands its messages to
    the compression library and prints them back.  The library is the argument
    [pipeline]; the JSON decoder is [decodeRequest] (a request, or nothing of
    that shape) and [trailing] (what the decoder finds after it); encoding the
    response may fail ([encodes]). *)

From S2P Require Import Prelude Env Json.
From Stdlib Require Import Lia ZArith String.
#[local] Open Scope string_scope.
#[local] Open Scope Z_scope.

Definition toolCompressionProtocol : string := "calvoproxy.tool-compression.v1".
Definition defaultToolResultLimit : Z := 4096.
Definition maxToolResultLimit : Z := Z.shiftl 1 20.
Definition maxToolCompressionInput : Z := Z.shiftl 64 20.

Record toolCompressionRequest := mkCompactRequest {
  cq_Version : string;
  cq_Messages : list object;
  cq_ToolResultLimit : Z;
}.

Record toolCompressionReport := mkCompactReport {
  cp_OriginalBytes : Z;
  cp_SavedBytes : Z;
  cp_Engines : list string;
  cp_ByEngine : list (string * Z);
}.

Record toolCompressionResponse := mkCompactResponse {
  cr_Version : string;
  cr_Messages : list object;
  cr_Report : toolCompressionReport;
}.

(** [compress.Message] *)
Record compressMessage := mkCompressMessage {
  cm_Role : string;
  cm_Content : json;
  cm_Extra : object;
}.

Definition compressionMessageFromMap (raw : object) : compressMessage :=
  let role := match raw !! "role" with Some (JStr s) => s | _ => "" end in
  mkCompressMessage role (default JNull (raw !! "content")) (delete "content" (delete "role" raw)).

Definition compressionMessageToMap (message : compressMessage) : object :=
  <["content" := cm_Content message]> (<["role" := JStr (cm_Role message)]> (cm_Extra message)).

Section command.
Context (pipeline : Z -> list compressMessage -> list compressMessage * toolCompressionReport).

(** The exit code, and what is printed to the standard output. *)
Definition runCompactToolsWith (flagsOk : bool) (nargs : nat) (decodeRequest : option toolCompressionRequest) (trailing encodes : bool) : Z * option toolCompressionResponse :=
  if negb flagsOk then (2, None)
  else if negb (nargs =? 0)%nat then (2, None)
  else match decodeRequest with
  | None => (2, None)
  | Some request =>
      if trailing then (2, None)
      else if negb (str_eq (cq_Version request) toolCompressionProtocol) then (2, None)
      else
        let limit := if cq_ToolResultLimit request =? 0 then defaultToolResultLimit else cq_ToolResultLimit request in
        if (limit <? 0) || (maxToolResultLimit <? limit) then (2, None)
        else
          let '(compressed, report) := pipeline limit (compressionMessageFromMap <$> cq_Messages request) in
          let response := mkCompactResponse toolCompressionProtocol (compressionMessageToMap <$> compressed) report in
          if encodes then (0, Some response) else (1, None)
  end.
End command.

(** ** Round trip *)

(** A message as clients send them: a role that is text, and some content. *)
Definition plainMessage (raw : object) : Prop := (exists role, raw !! "role" = Some (JStr role)) /\ is_Some (raw !! "content").

Lemma message_extra raw k : k <> "role" -> k <> "content" -> compressionMessageToMap (compressionMessageFromMap raw) !! k = raw !! k.
Proof.
  intros H1 H2. unfold compressionMessageToMap, compressionMessageFromMap. cbn.
  by rewrite !lookup_insert_ne, !lookup_delete_ne by congruence.
Qed.

Lemma message_roundtrip raw : plainMessage raw -> compressionMessageToMap (compressionMessageFromMap raw) = raw.
Proof.
  intros [[role Hr] [content Hc]]. apply map_eq. intros k.
  destruct (decide (k = "content")) as [->|Hk1]; [unfold compressionMessageToMap, compressionMessageFromMap; cbn; by rewrite lookup_insert_eq, Hc|].
  destruct (decide (k = "role")) as [->|Hk2]; [|by apply message_extra].
  unfold compressionMessageToMap, compressionMessageFromMap. cbn. by rewrite lookup_insert_ne, lookup_insert_eq, Hr by done.
Qed.

(** The bridge adds nothing of its own: what it prints is what the library
    made of the messages, for a limit between 1 byte and 1 MiB and a request
    of this protocol; a message the library leaves alone comes back as it was
    sent, and of any message every field but role and content does. *)
Theorem compact_tools_is_a_bridge pipeline flagsOk nargs request trailing encodes response :
  runCompactToolsWith pipeline flagsOk nargs request trailing encodes = (0, Some response) ->
  exists req limit, request = Some req /\ trailing = false /\ cq_Version req = toolCompressionProtocol /\
    0 < limit <= maxToolResultLimit /\
    cr_Messages response = compressionMessageToMap <$> (pipeline limit (compressionMessageFromMap <$> cq_Messages req)).1 /\
    ((pipeline limit (compressionMessageFromMap <$> cq_Messages req)).1 = compressionMessageFromMap <$> cq_Messages req ->
       Forall plainMessage (cq_Messages req) -> cr_Messages response = cq_Messages req).
Proof.
  unfold runCompactToolsWith. destruct flagsOk; [|done]. destruct (nargs =? 0)%nat; [|done]. cbn [negb].
  destruct request as [req|]; [|done]. destruct trailing; [done|]. destruct (str_eq (cq_Version req) toolCompressionProtocol) eqn:Ev; [|done]. cbn [negb].
  set (limit := if cq_ToolResultLimit req =? 0 then _ else _).
  destruct ((limit <? 0) || (maxToolResultLimit <? limit)) eqn:El; [done|]. apply orb_false_iff in El as [El1 El2].
  destruct (pipeline limit _) as [compressed report] eqn:Ep. destruct encodes; [|done]. intros [= <-]. apply str_eq_spec in Ev.
  exists req, limit. cbn. rewrite Ep. cbn. split_and!; try done.
  - unfold limit in *. destruct (cq_ToolResultLimit req =? 0) eqn:E; [done|]. zbool. lia.
  - zbool. lia.
  - intros -> Hp. rewrite <- list_fmap_compose. rewrite <- (list_fmap_id (cq_Messages req)) at 2. apply list_fmap_ext.
    intros i raw Hi. apply message_roundtrip. by eapply Forall_lookup_1 in Hp.
Qed.

Definition exMessage : object := {["role" := JStr "tool"; "content" := JStr "out"; "tool_call_id" := JStr "c1"]}.

Lemma compact_tools_is_a_bridge_witness :
  cr_Messages (mkCompactResponse toolCompressionProtocol (compressionMessageToMap <$> [compressionMessageFromMap exMessage]) (mkCompactReport 3 0 [] [])) = [exMessage].
Proof.
  pose (pipe := fun (_ : Z) (ms : list compressMessage) => (ms, mkCompactReport 3 0 [] [])).
  pose (req := mkCompactRequest toolCompressionProtocol [exMessage] 0).
  destruct (compact_tools_is_a_bridge pipe true 0 (Some req) false true
    (mkCompactResponse toolCompressionProtocol (compressionMessageToMap <$> [compressionMessageFromMap exMessage]) (mkCompactReport 3 0 [] [])))
    as (req' & limit & E & _ & _ & _ & _ & H); [reflexivity|].
  injection E as <-. apply H; [reflexivity|]. repeat constructor; [by eexists|by eexists].
Defined.
