(* ===== verification/Deployer.v ===== *)
(** * Deployer: the supervised load balancer (cmd/run/main.go)

    The deployer's balancer is a copy of cmd/lb with failure counting: a
    backend whose health check fails three times in a row is drained, removed
    and replaced by a new process on a free port.  [erase] forgets what was
    added, so that the copy can be compared with the original.  Starting a
    process, a port's state and the answers to health checks are arguments;
    [running] is the table of the processes that were started. *)

From S2P Require Import Prelude Env Text Net.
From S2P Require LoadBalancer.
From Stdlib Require Import Lia ZArith String Ascii.
#[local] Open Scope string_scope.
#[local] Open Scope Z_scope.

Definition backendStart : Z := 8081.
Definition maxFailures : Z := 3.

(** ** Backends *)

Record Backend := mkBackend {
  b_Host : string;
  healthy : bool;
  connections : Z;
  lastCheck : Z;
  failures : Z;
  port : Z;
  replacing : bool;
}.

Definition setHealthy (h : bool) (now : Z) (b : Backend) : Backend :=
  mkBackend (b_Host b) h (connections b) now (if h then 0 else wrap64 (failures b + 1)) (port b) (replacing b).

Definition shouldReplace (b : Backend) : bool := negb (healthy b) && (maxFailures <=? failures b) && negb (replacing b).

(** [false]: another check is replacing it already. *)
Definition markReplacing (b : Backend) : bool * Backend :=
  if replacing b then (false, b)
  else (true, mkBackend (b_Host b) (healthy b) (connections b) (lastCheck b) (failures b) (port b) true).

Definition addConn (d : Z) (b : Backend) : Backend :=
  mkBackend (b_Host b) (healthy b) (LoadBalancer.wrap32 (connections b + d)) (lastCheck b) (failures b) (port b) (replacing b).
Definition incConn : Backend -> Backend := addConn 1.
Definition decConn : Backend -> Backend := addConn (-1).

Record LoadBalancer := mkLB {
  backends : list nat;
  rr : Z;
  objects : gmap nat Backend;
}.

Definition NewLoadBalancer : LoadBalancer := mkLB [] 0 ∅.

Definition onBackend (f : Backend -> Backend) (p : nat) (lb : LoadBalancer) : LoadBalancer :=
  mkLB (backends lb) (rr lb) (alter f p (objects lb)).

Definition isHealthy (lb : LoadBalancer) (p : nat) : bool := match objects lb !! p with Some b => healthy b | None => false end.
Definition conns (lb : LoadBalancer) (p : nat) : Z := match objects lb !! p with Some b => connections b | None => 0 end.
Definition hostIs (lb : LoadBalancer) (addr : string) (p : nat) : bool :=
  match objects lb !! p with Some b => str_eq (b_Host b) addr | None => false end.

(** The port is what [Sscanf] reads after the last colon, 0 otherwise. *)
Definition portOf (host : string) : Z :=
  match lastIndexByte ":" host with
  | Some idx => default 0 (LoadBalancer.scanInt (from (S idx) host))
  | None => 0
  end.

Definition AddBackend (parseHost : string -> option string) (addr : string) (lb : LoadBalancer) : bool * LoadBalancer :=
  match parseHost ("http://" +:+ addr) with
  | None => (false, lb)
  | Some host =>
      let p := fresh (dom (objects lb)) in
      (true, mkLB (backends lb ++ [p])%list (rr lb) (<[p := mkBackend host true 0 0 0 (portOf host) false]> (objects lb)))
  end.

Fixpoint removeFirst (f : nat -> bool) (l : list nat) : list nat :=
  match l with [] => [] | p :: l => if f p then l else p :: removeFirst f l end.

Definition RemoveBackend (addr : string) (lb : LoadBalancer) : LoadBalancer :=
  mkLB (removeFirst (hostIs lb addr) (backends lb)) (rr lb) (objects lb).

Definition tryOne (lb : LoadBalancer) : option (nat * bool) * LoadBalancer :=
  let r := LoadBalancer.wrapU32 (rr lb + 1) in
  let idx := r mod LoadBalancer.wrapU32 (Z.of_nat (List.length (backends lb))) in
  (p ← backends lb !! Z.to_nat idx; Some (p, isHealthy lb p), mkLB (backends lb) r (objects lb)).

Fixpoint tryBackends (tries : nat) (lb : LoadBalancer) : option nat * LoadBalancer :=
  match tries with
  | O => (None, lb)
  | S tries =>
      let '(c, lb) := tryOne lb in
      match c with Some (p, true) => (Some p, lb) | _ => tryBackends tries lb end
  end.

Definition NextBackend (lb : LoadBalancer) : option nat * LoadBalancer :=
  match backends lb with [] => (None, lb) | _ => tryBackends (List.length (backends lb)) lb end.

Definition ServeHTTP (lb : LoadBalancer) : option nat * LoadBalancer :=
  match NextBackend lb with
  | (None, lb) => (None, lb)
  | (Some p, lb) => (Some p, onBackend incConn p lb)
  end.

(** ** One health check *)

(** Its three critical sections on the backend: record the result, ask
    whether to replace, and claim the replacement.  [true]: it starts one. *)
Inductive checkPhase := Probing (ok : bool) | Asking | Claiming | Replacing | Finished.

Definition checkStep (now : Z) (b : Backend) (ph : checkPhase) : Backend * checkPhase :=
  match ph with
  | Probing ok => (setHealthy ok now b, Asking)
  | Asking => (b, if shouldReplace b then Claiming else Finished)
  | Claiming => let '(mine, b) := markReplacing b in (b, if mine then Replacing else Finished)
  | Replacing | Finished => (b, ph)
  end.

(** Checks of one backend, interleaved. *)
Inductive checking : Backend * list checkPhase -> Backend * list checkPhase -> Prop :=
| checking_start b cs ok : checking (b, cs) (b, (cs ++ [Probing ok])%list)
| checking_step b cs i ph now : cs !! i = Some ph ->
    checking (b, cs) ((checkStep now b ph).1, <[i := (checkStep now b ph).2]> cs).

(** ** Replacement *)

Fixpoint drainWait (world : LoadBalancer -> LoadBalancer) (polls : nat) (p : nat) (lb : LoadBalancer) : LoadBalancer :=
  match polls with
  | O => lb
  | S polls => if conns lb p =? 0 then lb else drainWait world polls p (world lb)
  end.

Definition DrainBackend (world : LoadBalancer -> LoadBalancer) (polls : nat) (addr : string) (now : Z) (lb : LoadBalancer) : LoadBalancer :=
  match find (hostIs lb addr) (backends lb) with
  | None => lb
  | Some p => RemoveBackend addr (drainWait world polls p (onBackend (setHealthy false now) p lb))
  end.

Fixpoint firstFree (free : Z -> bool) (n : nat) (port : Z) : option Z :=
  match n with
  | O => None
  | S n => if free port then Some port else firstFree free n (port + 1)
  end.

(** [findFreePort]: the ports from [start] to 65534. *)
Definition findFreePort (free : Z -> bool) (start : Z) : Z := default start (firstFree free (Z.to_nat (65535 - start)) start).

Definition localAddr (port : Z) : string := "127.0.0.1:" +:+ pretty port.

(** The processes by port; [starts] and [becomesHealthy] are what happens to
    a new one.  [true] is a nil error. *)
Section supervise.
Context (parseHost : string -> option string) (free : Z -> bool) (starts becomesHealthy : Z -> bool).

Definition startBackend (port : Z) (s : LoadBalancer * list Z) : bool * (LoadBalancer * list Z) :=
  let '(lb, running) := s in
  if negb (starts port) then (false, s)
  else if becomesHealthy port then let '(ok, lb) := AddBackend parseHost (localAddr port) lb in (ok, (lb, port :: running))
  else (false, (lb, running)).

Definition replaceBackend (world : LoadBalancer -> LoadBalancer) (polls : nat) (foundRoot : bool) (now : Z) (p : nat) (s : LoadBalancer * list Z) : bool * (LoadBalancer * list Z) :=
  let '(lb, running) := s in
  let addr := match objects lb !! p with Some b => b_Host b | None => "" end in
  let lb := DrainBackend world polls addr now lb in
  let newPort := findFreePort free backendStart in
  if negb foundRoot then (false, (lb, running)) else startBackend newPort (lb, running).
End supervise.

(** ** The state file *)

Record BackendInfo := mkInfo { bi_Port : Z; bi_GRPCPort : Z; bi_PID : Z; bi_Started : string }.

Fixpoint updateInfo (info : BackendInfo) (l : list BackendInfo) : option (list BackendInfo) :=
  match l with
  | [] => None
  | b :: l => if bi_Port b =? bi_Port info then Some (info :: l) else cons b <$> updateInfo info l
  end.

(** What [json.Unmarshal] makes of the file's text: the entries it has filled in
    when it ends, and whether without an error.  A text that is no JSON fills in
    none; a value of the wrong type is skipped and reported at the end.  [None]
    is a file that cannot be read. *)
Record stateText := mkText { st_entries : list BackendInfo; st_clean : bool }.

(** How [os.WriteFile] ends, and what it leaves when it fails: it empties the
    file before it writes. *)
Inductive writeResult := Written | Failed (after : option stateText).

Definition WriteFile (r : writeResult) (l : list BackendInfo) : option stateText :=
  match r with Written => Some (mkText l true) | Failed after => after end.

Definition entriesOf (file : option stateText) : list BackendInfo := match file with Some t => st_entries t | None => [] end.

(** The entries to write: the update or the append, and the filter. *)
Definition putEntry (info : BackendInfo) (l : list BackendInfo) : list BackendInfo :=
  match updateInfo info l with Some l => l | None => (l ++ [info])%list end.
Definition dropEntry (port : Z) (l : list BackendInfo) : list BackendInfo := List.filter (fun b => negb (bi_Port b =? port)) l.

Definition saveBackend (r : writeResult) (info : BackendInfo) (file : option stateText) : option stateText :=
  WriteFile r (putEntry info (entriesOf file)).

Definition removeBackend (r : writeResult) (port : Z) (file : option stateText) : option stateText :=
  match file with
  | Some t => if st_clean t then WriteFile r (dropEntry port (st_entries t)) else file
  | None => None
  end.

(** ** The copy and the original *)

Definition eraseB (b : Backend) : LoadBalancer.Backend := LoadBalancer.mkBackend (b_Host b) (healthy b) (connections b) (lastCheck b).
Definition erase (lb : LoadBalancer) : LoadBalancer.LoadBalancer := LoadBalancer.mkLB (backends lb) (rr lb) (eraseB <$> objects lb).

Lemma erase_isHealthy lb p : LoadBalancer.isHealthy (erase lb) p = isHealthy lb p.
Proof. unfold LoadBalancer.isHealthy, isHealthy. cbn. rewrite lookup_fmap. by destruct (objects lb !! p). Qed.

Lemma erase_tryOne lb : LoadBalancer.tryOne (erase lb) = ((tryOne lb).1, erase (tryOne lb).2).
Proof.
  unfold LoadBalancer.tryOne, tryOne. cbn [fst snd]. change (LoadBalancer.rr (erase lb)) with (rr lb). change (LoadBalancer.backends (erase lb)) with (backends lb).
  f_equal. destruct (backends lb !! _) as [p|]; cbn; [|done]. by rewrite erase_isHealthy.
Qed.

Lemma erase_tryBackends n : forall lb, LoadBalancer.tryBackends n (erase lb) = ((tryBackends n lb).1, erase (tryBackends n lb).2).
Proof.
  induction n as [|n IH]; intros lb; [done|]. cbn [LoadBalancer.tryBackends tryBackends]. rewrite erase_tryOne.
  destruct (tryOne lb) as [[[p []]|] lb']; cbn [fst snd]; [done|apply IH|apply IH].
Qed.

Lemma erase_on f g p lb : (forall b, eraseB (f b) = g (eraseB b)) -> LoadBalancer.onBackend g p (erase lb) = erase (onBackend f p lb).
Proof.
  intros Hfg. unfold LoadBalancer.onBackend, onBackend, erase. cbn. f_equal. apply map_eq. intros q.
  destruct (decide (p = q)) as [->|Hne]; [rewrite lookup_alter_eq, !lookup_fmap, lookup_alter_eq|rewrite lookup_alter_ne, !lookup_fmap, lookup_alter_ne by done; done].
  destruct (objects lb !! q); cbn; [by rewrite Hfg|done].
Qed.

Lemma erase_removeFirst lb addr l : LoadBalancer.removeFirst (LoadBalancer.hostIs (erase lb) addr) l = removeFirst (hostIs lb addr) l.
Proof.
  assert (Hh : forall p, LoadBalancer.hostIs (erase lb) addr p = hostIs lb addr p).
  { intros p. unfold LoadBalancer.hostIs, hostIs. cbn. rewrite lookup_fmap. by destruct (objects lb !! p). }
  induction l as [|p l IH]; cbn; [done|]. by rewrite Hh, IH.
Qed.

(** The deployer's balancer is the balancer of cmd/lb: on every operation the
    two give the same answer and, failure counts aside, the same state. *)
Theorem copies_agree parseHost addr h now p lb :
  LoadBalancer.NextBackend (erase lb) = ((NextBackend lb).1, erase (NextBackend lb).2) /\
  LoadBalancer.AddBackend parseHost addr (erase lb) = ((AddBackend parseHost addr lb).1, erase (AddBackend parseHost addr lb).2) /\
  LoadBalancer.RemoveBackend addr (erase lb) = erase (RemoveBackend addr lb) /\
  LoadBalancer.onBackend (LoadBalancer.setHealthy h now) p (erase lb) = erase (onBackend (setHealthy h now) p lb) /\
  LoadBalancer.onBackend LoadBalancer.incConn p (erase lb) = erase (onBackend incConn p lb) /\
  LoadBalancer.onBackend LoadBalancer.decConn p (erase lb) = erase (onBackend decConn p lb).
Proof.
  split_and!.
  - unfold LoadBalancer.NextBackend, NextBackend. change (LoadBalancer.backends (erase lb)) with (backends lb).
    destruct (backends lb) eqn:E; [done|]. rewrite <- E. apply erase_tryBackends.
  - unfold LoadBalancer.AddBackend, AddBackend. destruct (parseHost _) as [host|]; [|done]. cbn.
    rewrite dom_fmap_L. unfold erase. cbn. by rewrite fmap_insert.
  - unfold LoadBalancer.RemoveBackend, RemoveBackend. cbn. rewrite erase_removeFirst. done.
  - by apply erase_on.
  - by apply erase_on.
  - by apply erase_on.
Qed.

(** ** Replacing once *)

Definition isReplacing (ph : checkPhase) : bool := match ph with Replacing => true | _ => false end.

Definition onceInv (s : Backend * list checkPhase) : Prop := count isReplacing s.2 = if replacing s.1 then 1%nat else 0%nat.

Lemma checking_once s s' : onceInv s -> checking s s' -> onceInv s'.
Proof.
  unfold onceInv. intros IH Hs. destruct Hs as [b cs ok|b cs i ph now Hi]; cbn [fst snd] in *.
  - unfold count in *. rewrite List.filter_app, length_app. cbn. lia.
  - pose proof (count_insert isReplacing cs i ph (checkStep now b ph).2 Hi) as Hn.
    destruct ph; cbn [checkStep isReplacing fst snd setHealthy replacing] in *; [lia|destruct (shouldReplace b); cbn [isReplacing] in Hn; lia| |lia|lia].
    unfold markReplacing in *. destruct (replacing b) eqn:E; cbn [fst snd isReplacing replacing] in *; rewrite ?E in *; lia.
Qed.

(** The result of a check, then the checks of a history: how many failed in a
    row at its end. *)
Definition streak (n : Z) (ok : bool) : Z := if ok then 0 else n + 1.

Lemma failures_streak results b : 0 <= failures b -> failures b + Z.of_nat (List.length results) <= max_int64 ->
  failures (fold_left (fun b ok => setHealthy ok 0 b) results b) = fold_left streak results (failures b).
Proof.
  revert b. induction results as [|ok results IH]; intros b H0 Hn; [done|]. cbn [fold_left List.length] in *.
  assert (E : failures (setHealthy ok 0 b) = streak (failures b) ok).
  { cbn. destruct ok; [done|]. apply wrap64_id. unfold in_int64, min_int64, max_int64, two63, streak in *. lia. }
  rewrite IH; rewrite E; unfold streak; [done|destruct ok; lia|destruct ok; lia].
Qed.

(** A backend is replaced once, and only when it has failed.  However many
    health checks of a new backend overlap, at most one of them replaces it,
    and exactly one once the flag is set; and a check asks for a replacement
    only after three failed results in a row. *)
Theorem backend_replaced_at_most_once host p results b' cs' :
  let b := mkBackend host true 0 0 0 p false in
  rtc checking (b, []) (b', cs') -> Z.of_nat (List.length results) <= max_int64 ->
  (count isReplacing cs' <= 1)%nat /\ (count isReplacing cs' = 1%nat <-> replacing b' = true) /\
  (shouldReplace (fold_left (fun b ok => setHealthy ok 0 b) results b) = true -> maxFailures <= fold_left streak results 0).
Proof.
  intros b Hr Hn. assert (Hinv : onceInv (b', cs')).
  { eapply (rtc_ind_r onceInv); [| |exact Hr]; [reflexivity|]. intros s s' _ Hs IH. by eapply checking_once. }
  unfold onceInv in Hinv. cbn [fst snd] in Hinv. rewrite Hinv. split_and!; [by case_match; lia|by destruct (replacing b')|].
  unfold shouldReplace. rewrite !andb_true_iff, Z.leb_le. intros [[_ Hf] _].
  rewrite failures_streak in Hf by (cbn [failures b]; lia). exact Hf.
Qed.

(** ** Ports and the state file *)

Lemma firstFree_spec free n : forall start,
  match firstFree free n start with
  | Some q => start <= q < start + Z.of_nat n /\ free q = true /\ forall r, start <= r < q -> free r = false
  | None => forall r, start <= r < start + Z.of_nat n -> free r = false
  end.
Proof.
  induction n as [|n IH]; intros start; cbn [firstFree]; [intros r Hr; lia|].
  destruct (free start) eqn:E; [split_and!; [lia|lia|done|intros r Hr; lia]|]. specialize (IH (start + 1)).
  destruct (firstFree free n (start + 1)) as [q|].
  - destruct IH as (H1 & H2 & H3). split_and!; [lia|lia|done|]. intros r Hr. destruct (decide (r = start)) as [->|]; [done|]. apply H3. lia.
  - intros r Hr. destruct (decide (r = start)) as [->|]; [done|]. apply IH. lia.
Qed.

(** [findFreePort] is the lowest free port from the start on; with none free
    below 65535 it is the start, which is taken. *)
Theorem findFreePort_is_lowest free start : 0 <= start < 65535 ->
  let q := findFreePort free start in
  (free q = true /\ start <= q < 65535 /\ forall r, start <= r < q -> free r = false) \/
  (q = start /\ forall r, start <= r < 65535 -> free r = false).
Proof.
  intros Hs. cbv zeta. unfold findFreePort. pose proof (firstFree_spec free (Z.to_nat (65535 - start)) start) as H. rewrite Z2Nat.id in H by lia.
  destruct (firstFree _ _ _) as [q|]; cbn; [left|right]; [destruct H as (H1 & H2 & H3); split_and!; [done|lia|lia|done]|].
  split; [done|]. intros r Hr. apply H. lia.
Qed.

Lemma updateInfo_ports info l l' : updateInfo info l = Some l' -> (bi_Port <$> l') = (bi_Port <$> l) /\ info ∈ l'.
Proof.
  revert l'. induction l as [|b l IH]; intros l'; cbn; [done|]. destruct (bi_Port b =? bi_Port info) eqn:E.
  - intros [= <-]. zbool. split; [cbn; congruence|left].
  - destruct (updateInfo info l) as [l0|]; [|done]. intros [= <-]. destruct (IH l0 eq_refl) as [H1 H2]. split; [cbn; by rewrite H1|by right].
Qed.

Lemma updateInfo_None info l : updateInfo info l = None -> bi_Port info ∉ (bi_Port <$> l).
Proof.
  induction l as [|b l IH]; cbn; [intros _; apply not_elem_of_nil|]. destruct (bi_Port b =? bi_Port info) eqn:E; [done|].
  destruct (updateInfo info l) as [l0|]; [done|]. intros _. apply not_elem_of_cons. zbool. split; [done|by apply IH].
Qed.

Lemma dropEntry_gone port l : port ∉ (bi_Port <$> dropEntry port l).
Proof. intros H. apply list_elem_of_fmap in H as (b & Hb & H). apply list_elem_of_In, filter_In in H as [_ H]. zbool. lia. Qed.

Lemma putEntry_in info l : info ∈ putEntry info l.
Proof.
  unfold putEntry. destruct (updateInfo info l) as [l'|] eqn:E; [by apply updateInfo_ports in E as [_ ?]|].
  apply elem_of_app. right. by apply list_elem_of_singleton.
Qed.

Lemma putEntry_spec info l : NoDup (bi_Port <$> l) -> NoDup (bi_Port <$> putEntry info l) /\ info ∈ putEntry info l.
Proof.
  intros Hn. split; [|apply putEntry_in]. unfold putEntry. destruct (updateInfo info l) as [l'|] eqn:E.
  - destruct (updateInfo_ports _ _ _ E) as [Hp _]. by rewrite Hp.
  - apply updateInfo_None in E. rewrite fmap_app. apply NoDup_app. split_and!; [done| |apply NoDup_singleton].
    intros q Hq Hq'. apply list_elem_of_singleton in Hq' as ->. done.
Qed.

Lemma elem_of_dropEntry port l b : b ∈ dropEntry port l <-> b ∈ l /\ bi_Port b <> port.
Proof. unfold dropEntry. rewrite !list_elem_of_In, filter_In, negb_true_iff, Z.eqb_neq. done. Qed.

(** The state file keeps one entry per port.  When its writes succeed, saving
    replaces or adds the entry of the port, and removing it again leaves no
    entry of the port; a file that does not decode is left alone by a removal
    and replaced by a save. *)
Theorem state_file_one_per_port info file :
  NoDup (bi_Port <$> entriesOf file) ->
  exists l, saveBackend Written info file = Some (mkText l true) /\ NoDup (bi_Port <$> l) /\ info ∈ l /\
    (exists l', removeBackend Written (bi_Port info) (saveBackend Written info file) = Some (mkText l' true) /\ bi_Port info ∉ (bi_Port <$> l')) /\
    (forall r t, st_clean t = false -> removeBackend r (bi_Port info) (Some t) = Some t).
Proof.
  intros [Hn Hin]%(putEntry_spec info). exists (putEntry info (entriesOf file)). split_and!; [done..| |].
  - eexists. split; [done|]. apply dropEntry_gone.
  - intros r t Ht. cbn. by rewrite Ht.
Qed.

(** ** Replacement can lose the service *)

Definition exLB : LoadBalancer := mkLB [0%nat] 5 {[0%nat := mkBackend "127.0.0.1:8081" false 0 0 3 8081 true]}.

(** When the new process does not start, the old backend is gone and nothing
    tries again: the list stays empty. *)
Theorem failed_replacement_leaves_no_backend parseHost free :
  let '(ok, (lb, running)) := replaceBackend parseHost free (fun _ => false) (fun _ => false) id 20 true 0 0 (exLB, [8081]) in
  ok = false /\ backends lb = [] /\ (NextBackend lb).1 = None /\ running = [8081].
Proof. by split_and!. Qed.

(** A successful replacement starts a process and stops none: the failed one
    is still in the table. *)
Theorem replacement_keeps_failed_process parseHost free :
  parseHost ("http://" +:+ localAddr (findFreePort free backendStart)) = Some (localAddr (findFreePort free backendStart)) ->
  let '(ok, (lb, running)) := replaceBackend parseHost free (fun _ => true) (fun _ => true) id 20 true 0 0 (exLB, [8081]) in
  ok = true /\ running = [findFreePort free backendStart; 8081].
Proof. intros Hp. unfold replaceBackend, startBackend, AddBackend. cbn [negb]. rewrite Hp. by split_and!. Qed.

(** ** Witnesses *)

Lemma backend_replaced_at_most_once_witness :
  let b := mkBackend "h" true 0 0 0 8081 false in
  exists b' cs', rtc checking (b, []) (b', cs') /\ (count isReplacing cs' <= 1)%nat.
Proof.
  intros b. assert (Hr : rtc checking (b, []) (setHealthy false 7 b, [Asking])).
  { eapply rtc_l; [apply (checking_start b [] false)|]. eapply rtc_l; [apply (checking_step b [Probing false] 0 (Probing false) 7); reflexivity|]. apply rtc_refl. }
  exists (setHealthy false 7 b), [Asking]. split; [exact Hr|].
  destruct (backend_replaced_at_most_once "h" 8081 [false; false] (setHealthy false 7 b) [Asking] Hr) as [H _]; [discriminate|exact H].
Defined.

Lemma findFreePort_is_lowest_witness : findFreePort (fun q => 8083 <=? q) 8081 = 8083.
Proof.
  destruct (findFreePort_is_lowest (fun q => 8083 <=? q) 8081) as [(H & _)|[_ H]]; [split; [discriminate|reflexivity]|vm_compute; reflexivity|].
  specialize (H 8083 ltac:(split; [discriminate|reflexivity])). discriminate.
Defined.

Lemma state_file_one_per_port_witness :
  exists l, saveBackend Written (mkInfo 1 2 9 "b") (Some (mkText [mkInfo 1 2 3 "a"] true)) = Some (mkText l true) /\ NoDup (bi_Port <$> l).
Proof.
  destruct (state_file_one_per_port (mkInfo 1 2 9 "b") (Some (mkText [mkInfo 1 2 3 "a"] true))) as (l & H & Hl & _); [apply NoDup_singleton|].
  exists l. by split.
Defined.

Lemma replacement_keeps_failed_process_witness :
  let '(ok, _) := replaceBackend (fun s => Some (localAddr 8082)) (fun q => q =? 8082) (fun _ => true) (fun _ => true) id 20 true 0 0 (exLB, [8081]) in ok = true.
Proof.
  pose proof (replacement_keeps_failed_process (fun s => Some (localAddr 8082)) (fun q => q =? 8082)) as H.
  match type of H with _ -> let '(_, _) := ?r in _ => destruct r as [ok [lb running]] end. destruct H as [-> _]; reflexivity.
Defined.
