(* ===== verification/Login.v ===== *)
(** * Login: the browser sign-in (cmd/login.go)

    The OAuth flow with PKCE: the endpoints, the secrets it draws, the loopback
    server that waits for the browser, the exchange of the code for a key and
    the four subcommands.  Random bytes, SHA-256, the parsing of a URL down to
    its host name, the answer of the token endpoint and the decoding of that
    answer are arguments; the key ends in a store given by the class
    [SecretStore].  The callbacks are taken in the order in which they reach
    the delivery, which a [sync.Once] guards. *)

From S2P Require Import Prelude Env Text Split Net AdminSessions Files Vault Credentials.
From Stdlib Require Import Lia ZArith String Ascii.
From stdpp Require Import pretty.
#[local] Open Scope string_scope.
#[local] Open Scope Z_scope.

Definition defaultOpenRouterAuthURL : string := "https://openrouter.ai/auth".
Definition defaultOpenRouterKeysURL : string := "https://openrouter.ai/api/v1/auth/keys".

(** What a command prints, on standard output and standard error. *)
Inductive line := Out (text : string) | Err (text : string).

(** ** url.QueryEscape and url.Values.Encode *)

Definition unreservedByte (c : ascii) : bool :=
  byteIn 97 122 c || byteIn 65 90 c || byteIn 48 57 c || existsb (Ascii.eqb c) ["-"; "_"; "."; "~"]%char.

Definition upperHex (n : nat) : ascii := byte (if (n <? 10)%nat then 48 + n else 55 + n).

Fixpoint QueryEscape (s : string) : string :=
  match s with
  | EmptyString => EmptyString
  | String c s =>
      if unreservedByte c then String c (QueryEscape s)
      else if Ascii.eqb c " " then String "+" (QueryEscape s)
      else let n := nat_of_ascii c in
           String "%" (String (upperHex (n / 16)) (String (upperHex (n mod 16)) (QueryEscape s)))
  end.

(** The values of distinct keys, which [Encode] writes in the order of the
    keys. *)
Definition values_Encode (vs : list (string * string)) : string :=
  String.concat "&" ((fun '(k, v) => QueryEscape k +:+ "=" +:+ QueryEscape v) <$> vs).

(** ** Endpoints *)

Section endpoints.
(** [hostname v] is [url.Parse v] followed by [Hostname]; [None] is an error. *)
Context (env : environ) (hostname : string -> option string).

Definition loopbackOverrideOr (name def : string) : string :=
  let v := TrimSpace (Getenv env name) in
  if empty_str v then def
  else match hostname v with
       | None => def
       | Some host => if str_eq host "127.0.0.1" || str_eq host "::1" || EqualFold host "localhost" then v else def
       end.

Definition openrouterAuthURL : string := loopbackOverrideOr "PROXY_OPENROUTER_AUTH_URL" defaultOpenRouterAuthURL.
Definition openrouterKeysURL : string := loopbackOverrideOr "PROXY_OPENROUTER_KEYS_URL" defaultOpenRouterKeysURL.
End endpoints.

(** ** PKCE; the bytes of the random source are an argument *)

Definition randomURLToken (raw : option string) : option string := rawURLEncode <$> raw.

Definition pkceChallenge (Sum256 : string -> string) (verifier : string) : string := rawURLEncode (Sum256 verifier).

(** ** Token exchange *)

Record exchangeRequest := mkExchange {
  x_Method : string;
  x_URL : string;
  x_ContentType : string;
  x_code : string;
  x_code_verifier : string;
  x_code_challenge_method : string;
}.

Section exchange.
(** [post] is the client that refuses redirects: an error, or a status and a
    body.  [decodeKey] reads the field key of a JSON object; [None] is an
    error. *)
Context (env : environ) (hostname : string -> option string) (post : exchangeRequest -> string + (Z * string))
        (decodeKey : string -> option string).

Definition exchangeCodeForKey (code verifier : string) : string + string :=
  let target := openrouterKeysURL env hostname in
  match hostname target with
  | None => inl "invalid URL"
  | Some _ =>
      match post (mkExchange "POST" target "application/json" code verifier "S256") with
      | inl err => inl err
      | inr (status, body) =>
          let body := readLimited (Z.shiftl 64 10) body in
          if negb (status =? 200) then inl ("token exchange failed: HTTP " +:+ pretty status)
          else match decodeKey body with
               | None => inl "decode token response"
               | Some field =>
                   let key := TrimSpace field in
                   if negb (looksLikeOpenRouterKey key) then inl "token exchange returned an unexpected key format" else inr key
               end
      end
  end.
End exchange.

(** ** The loopback callback server *)

Record callbackResult := mkResult { cr_code : string; cr_err : option string }.

(** A range over a string visits its runes; a rune outside ASCII is outside
    every range of the test, and so are the bytes it is made of. *)
Definition validAuthCode (code : string) : bool :=
  if empty_str code || (512 <? String.length code)%nat then false
  else forallb unreservedByte (list_ascii_of_string code).

Definition requireState (env : environ) : bool :=
  let v := ToLower (TrimSpace (Getenv env "PROXY_OAUTH_REQUIRE_STATE")) in
  negb (str_eq v "0" || str_eq v "false" || str_eq v "no" || str_eq v "off").

(** The first value of each query parameter, empty when there is none. *)
Record callbackRequest := mkCallback { cb_Method : string; cb_Path : string; cb_Query : string -> string }.

Inductive callbackPage := NotFoundPage | CloseTab (msg : string).

(** The once and the channel of capacity one. *)
Record delivery := mkDelivery { fired : bool; ch : option callbackResult }.
Definition freshDelivery : delivery := mkDelivery false None.
Definition deliver (r : callbackResult) (d : delivery) : delivery := if fired d then d else mkDelivery true (Some r).

Definition denial : callbackResult := mkResult "" (Some "authorization denied by user or provider").
Definition stateNote : string := "Note: the provider did not echo the CSRF state parameter; relying on the secret callback path + PKCE.".

Definition loginComplete : string := "Login complete " +:+ string_of_list_ascii [byte 226; byte 156; byte 147].

Definition callbackHandler (env : environ) (expectedState : string) (r : callbackRequest) (d : delivery) : callbackPage * list line * delivery :=
  if negb (str_eq (cb_Method r) "GET") then (NotFoundPage, [], d)
  else
    let st := cb_Query r "state" in
    let stateOK := str_eq st expectedState in
    if negb (empty_str st) && negb stateOK then (CloseTab "State check failed.", [], d)
    else if negb (empty_str (cb_Query r "error")) then
      if negb stateOK then (CloseTab "Ignoring an unattributed callback.", [], d)
      else (CloseTab "Authorization was denied.", [], deliver denial d)
    else
      let code := cb_Query r "code" in
      if negb (validAuthCode code) then (CloseTab "Missing authorization code.", [], d)
      else if negb stateOK && requireState env then (CloseTab "Ignoring a callback with no matching state.", [], d)
      else (CloseTab loginComplete, if stateOK then [] else [Out stateNote], deliver (mkResult code None) d).

(** The mux: the secret path, and everything else. *)
Definition serveCallback (env : environ) (callbackPath expectedState : string) (r : callbackRequest) (d : delivery) : callbackPage * list line * delivery :=
  if str_eq (cb_Path r) callbackPath then callbackHandler env expectedState r d else (NotFoundPage, [], d).

Fixpoint serveCallbacks (env : environ) (callbackPath expectedState : string) (rs : list callbackRequest) (d : delivery) : list line * delivery :=
  match rs with
  | [] => ([], d)
  | r :: rs =>
      let '(_, notes, d) := serveCallback env callbackPath expectedState r d in
      let '(notes', d) := serveCallbacks env callbackPath expectedState rs d in
      ((notes ++ notes')%list, d)
  end.

(** [port] is that of the listener, [None] when it cannot be opened.  The
    result is the URL and the path it is served at. *)
Definition startCallbackServer (raw : option string) (port : option Z) : string + (string * string) :=
  match randomURLToken raw with
  | None => inl "random source"
  | Some secret =>
      match port with
      | None => inl "listen"
      | Some port =>
          let callbackPath := "/callback/" +:+ secret in
          inr ("http://127.0.0.1:" +:+ pretty port +:+ callbackPath, callbackPath)
      end
  end.

(** ** The subcommands *)

(** What a login meets: the bytes drawn, the port, whether the browser
    started, the callbacks in order, and whether the select takes the end of
    the context. *)
Record loginRun := mkRun {
  lr_verifier : option string;
  lr_state : option string;
  lr_secret : option string;
  lr_port : option Z;
  lr_browser : bool;
  lr_callbacks : list callbackRequest;
  lr_timeout : bool;
}.

Definition timeoutLines : list line :=
  [Err "login timed out — no authorization received.";
   Err "If you DID authorize in the browser, either the provider dropped the CSRF";
   Err "state parameter (retry with PROXY_OAUTH_REQUIRE_STATE=false) or it did not";
   Err "preserve the callback URL's path — that path carries this login's secret."].

Section commands.
Context `{SecretStore W}.
Context (env : environ) (hostname : string -> option string) (Sum256 : string -> string)
        (post : exchangeRequest -> string + (Z * string)) (decodeKey : string -> option string)
        (vaultPath keyPath : string) (ce0 ce1 ce2 ce3 ce4 ce5 : callEnv) (removed : bool).
Implicit Types s : W * option string.

Definition authorizationURL (callbackURL verifier state : string) : string :=
  openrouterAuthURL env hostname +:+ "?" +:+
  values_Encode [("callback_url", callbackURL); ("code_challenge", pkceChallenge Sum256 verifier);
                 ("code_challenge_method", "S256"); ("state", state)].

Definition loginKeyStdin (data : string) s : (Z * list line) * (W * option string) :=
  let key := TrimSpace (readLimited 4096 data) in
  if negb (looksLikeOpenRouterKey key) then (1, [Err "expected an OpenRouter key (sk-or-…) on stdin"], s)
  else match storeManagedOpenRouterKey vaultPath keyPath ce0 ce1 ce2 ce3 ce4 ce5 removed key s with
       | (s, false) => (1, [Err "store key:"], s)
       | (s, true) => (0, [Out ("Stored key " +:+ maskKey key +:+ " in the encrypted provider vault.")], s)
       end.

(** The loop over the arguments: [None] when --key-stdin is met. *)
Fixpoint loginFlags (noBrowser : bool) (args : list string) : option bool :=
  match args with
  | [] => Some noBrowser
  | a :: args =>
      if str_eq a "--no-browser" then loginFlags true args
      else if str_eq a "--key-stdin" then None
      else loginFlags noBrowser args
  end.

(** From the select on. *)
Definition finishLogin (verifier : string) (timeout : bool) (d : delivery) s : (Z * list line) * (W * option string) :=
  match ch d, timeout with
  | Some res, false =>
      match cr_err res with
      | Some err => (1, [Err ("login failed: " +:+ err)], s)
      | None =>
          match exchangeCodeForKey env hostname post decodeKey (cr_code res) verifier with
          | inl err => (1, [Err ("token exchange failed: " +:+ err)], s)
          | inr key =>
              match storeManagedOpenRouterKey vaultPath keyPath ce0 ce1 ce2 ce3 ce4 ce5 removed key s with
              | (s, false) => (1, [Err "store key:"], s)
              | (s, true) => (0, [Out ("Logged in. Stored key " +:+ maskKey key +:+ " in the encrypted provider vault.")], s)
              end
          end
      end
  | _, _ => (1, timeoutLines, s)
  end.

Definition runLogin (args : list string) (stdin : string) (run : loginRun) s : (Z * list line) * (W * option string) :=
  match loginFlags false args with
  | None => loginKeyStdin stdin s
  | Some noBrowser =>
      match randomURLToken (lr_verifier run) with
      | None => (1, [Err "generate PKCE verifier:"], s)
      | Some verifier =>
          match randomURLToken (lr_state run) with
          | None => (1, [Err "generate state:"], s)
          | Some state =>
              match startCallbackServer (lr_secret run) (lr_port run) with
              | inl err => (1, [Err ("start callback server: " +:+ err)], s)
              | inr (callbackURL, callbackPath) =>
                  let authURL := authorizationURL callbackURL verifier state in
                  let prompt := Out "Sign in to OpenRouter to authorize CalvoProxy…" ::
                    (if noBrowser || negb (lr_browser run) then [Out "Open this URL in your browser:"; Out ("  " +:+ authURL)] else []) in
                  let '(notes, d) := serveCallbacks env callbackPath state (lr_callbacks run) freshDelivery in
                  let '((code, lines), s) := finishLogin verifier (lr_timeout run) d s in
                  ((code, (prompt ++ notes ++ lines)%list), s)
              end
          end
      end
  end.

Definition runLogout s : (Z * list line) * (W * option string) :=
  match deleteManagedOpenRouterKey vaultPath keyPath ce0 ce1 ce2 ce3 ce4 removed s with
  | (s, false) => (1, [Err "logout:"], s)
  | (s, true) => (0, [Out "Logged out (stored key removed)."], s)
  end.

Definition runWhoami (store : option W) : Z * list line :=
  let envKey := TrimSpace (Getenv env "OPENROUTER_API_KEY") in
  if negb (empty_str envKey) then (0, [Out ("Key configured via OPENROUTER_API_KEY (env): " +:+ maskKey envKey)])
  else match managedProviderCredential ce0 store ProviderOpenRouter with
       | Some k => (0, [Out ("Key configured via encrypted provider vault: " +:+ maskKey k)])
       | None => (1, [Out "No API key configured. Run `calvoproxy login`, or set OPENROUTER_API_KEY."])
       end.
End commands.

(** ** Theorems *)

(** *** Tokens *)

Lemma byteVal_bounds c : 0 <= byteVal c < 256.
Proof. unfold byteVal. pose proof (nat_ascii_bounded c). lia. Qed.

Lemma byteVal_inj a b : byteVal a = byteVal b -> a = b.
Proof. unfold byteVal. intros H. rewrite <- (ascii_nat_embedding a), <- (ascii_nat_embedding b). f_equal. lia. Qed.

Lemma lor_add a b n : 0 <= n -> 0 <= b < 2 ^ n -> Z.lor (Z.shiftl a n) b = a * 2 ^ n + b.
Proof.
  intros Hn Hb. assert (Hland : Z.land (Z.shiftl a n) b = 0).
  { apply Z.bits_inj'. intros i Hi. rewrite Z.land_spec, Z.bits_0. destruct (Z.ltb_spec i n).
    - by rewrite Z.shiftl_spec_low.
    - destruct (decide (b = 0)) as [->|]; [by rewrite Z.bits_0, andb_false_r|].
      rewrite (Z.bits_above_log2 b); [apply andb_false_r|lia|]. apply Z.lt_le_trans with n; [apply Z.log2_lt_pow2; lia|done]. }
  rewrite <- Z.lxor_lor by done. rewrite <- Z.add_nocarry_lxor by done. by rewrite Z.shiftl_mul_pow2.
Qed.

(** The four six-bit digits of a number of 24 bits. *)
Lemma digits_inj m n : 0 <= m < 2 ^ 24 -> 0 <= n < 2 ^ 24 ->
  Z.shiftr m 18 = Z.shiftr n 18 -> Z.land (Z.shiftr m 12) 63 = Z.land (Z.shiftr n 12) 63 ->
  Z.land (Z.shiftr m 6) 63 = Z.land (Z.shiftr n 6) 63 -> Z.land m 63 = Z.land n 63 -> m = n.
Proof.
  change 63 with (Z.ones 6). rewrite !Z.land_ones, !Z.shiftr_div_pow2 by lia.
  change (2 ^ 18) with 262144. change (2 ^ 12) with 4096. change (2 ^ 6) with 64. change (2 ^ 24) with 16777216.
  assert (Hdigits : forall k, k = 64 * (64 * (64 * (k / 262144) + (k / 4096) mod 64) + (k / 64) mod 64) + k mod 64).
  { intros k. change 262144 with (64 * 64 * 64). change 4096 with (64 * 64). rewrite <- !Z.div_div by lia.
    rewrite <- !Z.div_mod by lia. done. }
  intros _ _ H3 H2 H1 H0. rewrite (Hdigits m), (Hdigits n). congruence.
Qed.

Definition urlVal (c : ascii) : Z :=
  let n := byteVal c in
  if n =? 45 then 62 else if n =? 95 then 63 else if n <? 58 then n + 4 else if n <? 91 then n - 65 else n - 71.

Lemma urlVal_urlDigit n : 0 <= n < 64 -> urlVal (urlDigit n) = n.
Proof.
  intros Hn. assert (H : forallb (fun k => urlVal (urlDigit (Z.of_nat k)) =? Z.of_nat k) (seq 0 64) = true) by by vm_compute.
  rewrite forallb_forall in H. specialize (H (Z.to_nat n)). rewrite Z2Nat.id in H by lia.
  apply Z.eqb_eq, H, in_seq. lia.
Qed.

Lemma urlDigit_unreserved n : 0 <= n < 64 -> unreservedByte (urlDigit n) = true.
Proof.
  intros Hn. assert (H : forallb (fun k => unreservedByte (urlDigit (Z.of_nat k))) (seq 0 64) = true) by by vm_compute.
  rewrite forallb_forall in H. specialize (H (Z.to_nat n)). rewrite Z2Nat.id in H by lia. apply H, in_seq. lia.
Qed.

Lemma urlDigit_inj m n : 0 <= m < 64 -> 0 <= n < 64 -> urlDigit m = urlDigit n -> m = n.
Proof. intros Hm Hn H. by rewrite <- (urlVal_urlDigit m), <- (urlVal_urlDigit n), H. Qed.

Lemma land63_bounds n : 0 <= Z.land n 63 < 64.
Proof. change 63 with (Z.ones 6). rewrite Z.land_ones by lia. by apply Z.mod_pos_bound. Qed.

(** The number of a group of bytes. *)
Definition group (a b c : Z) : Z := a * 65536 + (b * 256 + c).

Lemma group3 a b c : Z.lor (Z.shiftl (byteVal a) 16) (Z.lor (Z.shiftl (byteVal b) 8) (byteVal c)) = group (byteVal a) (byteVal b) (byteVal c).
Proof.
  pose proof (byteVal_bounds a). pose proof (byteVal_bounds b). pose proof (byteVal_bounds c).
  rewrite (lor_add (byteVal b) _ 8) by lia. by rewrite lor_add by lia.
Qed.

Lemma group2 a b : Z.lor (Z.shiftl (byteVal a) 16) (Z.shiftl (byteVal b) 8) = group (byteVal a) (byteVal b) 0.
Proof. rewrite <- (Z.lor_0_r (Z.shiftl (byteVal b) 8)). pose proof (byteVal_bounds a). pose proof (byteVal_bounds b).
  rewrite (lor_add (byteVal b) _ 8) by lia. by rewrite lor_add by lia. Qed.

Lemma group1 a : Z.shiftl (byteVal a) 16 = group (byteVal a) 0 0.
Proof. unfold group. rewrite Z.shiftl_mul_pow2 by lia. change (2 ^ 16) with 65536. lia. Qed.

Lemma group_inj a b c a' b' c' : 0 <= a < 256 -> 0 <= b < 256 -> 0 <= c < 256 -> 0 <= a' < 256 -> 0 <= b' < 256 -> 0 <= c' < 256 ->
  group a b c = group a' b' c' -> a = a' /\ b = b' /\ c = c'.
Proof. unfold group. lia. Qed.

Lemma group_bounds a b c : 0 <= a < 256 -> 0 <= b < 256 -> 0 <= c < 256 -> 0 <= group a b c < 2 ^ 24.
Proof. unfold group. change (2 ^ 24) with 16777216. lia. Qed.

Lemma group_low a b : Z.land (group a b 0) 63 = 0.
Proof.
  change 63 with (Z.ones 6). rewrite Z.land_ones by lia. unfold group. change (2 ^ 6) with 64.
  replace (a * 65536 + (b * 256 + 0)) with ((a * 1024 + b * 4) * 64) by lia. by apply Z.mod_mul.
Qed.

Lemma group_low6 a : Z.land (Z.shiftr (group a 0 0) 6) 63 = 0.
Proof.
  change 63 with (Z.ones 6). rewrite Z.land_ones, Z.shiftr_div_pow2 by lia. unfold group. change (2 ^ 6) with 64.
  replace (a * 65536 + (0 * 256 + 0)) with (a * 16 * 64 * 64) by lia. rewrite Z.div_mul by lia. by apply Z.mod_mul.
Qed.

Lemma top_bounds m : 0 <= m < 2 ^ 24 -> 0 <= Z.shiftr m 18 < 64.
Proof.
  intros Hm. rewrite Z.shiftr_div_pow2 by lia. split; [apply Z.div_pos; lia|]. apply Z.div_lt_upper_bound; [lia|].
  change (2 ^ 18 * 64) with (2 ^ 24). lia.
Qed.

(** Two groups with the same digits are the same bytes. *)
Lemma same_group a b c a' b' c' :
  0 <= a < 256 -> 0 <= b < 256 -> 0 <= c < 256 -> 0 <= a' < 256 -> 0 <= b' < 256 -> 0 <= c' < 256 ->
  let m := group a b c in let n := group a' b' c' in
  urlDigit (Z.shiftr m 18) = urlDigit (Z.shiftr n 18) -> urlDigit (Z.land (Z.shiftr m 12) 63) = urlDigit (Z.land (Z.shiftr n 12) 63) ->
  urlDigit (Z.land (Z.shiftr m 6) 63) = urlDigit (Z.land (Z.shiftr n 6) 63) -> urlDigit (Z.land m 63) = urlDigit (Z.land n 63) ->
  a = a' /\ b = b' /\ c = c'.
Proof.
  intros Ha Hb Hc Ha' Hb' Hc' m n H3 H2 H1 H0.
  pose proof (group_bounds a b c Ha Hb Hc) as Hm. pose proof (group_bounds a' b' c' Ha' Hb' Hc') as Hn.
  apply urlDigit_inj in H3; [|by apply top_bounds..].
  apply urlDigit_inj in H2, H1, H0; try apply land63_bounds.
  by apply group_inj, digits_inj.
Qed.

(** Distinct bytes have distinct tokens: encoding loses nothing of what the
    random source gave. *)
Theorem rawURLEncode_inj : forall s t, rawURLEncode s = rawURLEncode t -> s = t.
Proof.
  fix IH 1. intros [|a [|b [|c s]]] [|a' [|b' [|c' t]]]; cbn [rawURLEncode]; cbv zeta; intros Heq; try done; try discriminate Heq.
  all: rewrite ?group3, ?group2, ?group1 in Heq; assert (H0 : 0 <= 0 < 256) by lia.
  - injection Heq as H3 H2. destruct (same_group (byteVal a) 0 0 (byteVal a') 0 0) as (E & _ & _); try apply byteVal_bounds; try done.
    + by rewrite !group_low6.
    + by rewrite !group_low.
    + by apply byteVal_inj in E as ->.
  - injection Heq as H3 H2 H1. destruct (same_group (byteVal a) (byteVal b) 0 (byteVal a') (byteVal b') 0) as (E & E' & _); try apply byteVal_bounds; try done.
    + by rewrite !group_low.
    + apply byteVal_inj in E as ->. by apply byteVal_inj in E' as ->.
  - injection Heq as H3 H2 H1 H4 Hrest. apply IH in Hrest as ->.
    destruct (same_group (byteVal a) (byteVal b) (byteVal c) (byteVal a') (byteVal b') (byteVal c')) as (E & E' & E'');
      try apply byteVal_bounds; try done. apply byteVal_inj in E as ->. apply byteVal_inj in E' as ->. by apply byteVal_inj in E'' as ->.
Qed.

(** A token needs no escaping, in a path or in a query. *)
Lemma rawURLEncode_unreserved : forall s, strAll unreservedByte (rawURLEncode s).
Proof.
  fix IH 1. intros [|a [|b [|c s]]]; cbn [rawURLEncode]; cbv zeta; unfold strAll; cbn [list_ascii_of_string]; rewrite ?group3, ?group2, ?group1.
  - constructor.
  - repeat constructor; apply urlDigit_unreserved; [apply top_bounds, group_bounds|apply land63_bounds]; apply byteVal_bounds || lia.
  - repeat constructor; apply urlDigit_unreserved; [apply top_bounds, group_bounds|apply land63_bounds..]; apply byteVal_bounds || lia.
  - repeat apply Forall_cons_2; [apply urlDigit_unreserved..|apply IH]; [apply top_bounds, group_bounds|apply land63_bounds..]; apply byteVal_bounds.
Qed.

(** *** The authorization URL *)

(** [url.QueryUnescape] and [url.ParseQuery]. *)
Fixpoint QueryUnescape (s : string) : option string :=
  match s with
  | EmptyString => Some EmptyString
  | String c r =>
      if Ascii.eqb c "%" then
        match r with
        | String a (String b r) =>
            match hexVal a, hexVal b with
            | Some x, Some y => String (byte (Z.to_nat (x * 16 + y))) <$> QueryUnescape r
            | _, _ => None
            end
        | _ => None
        end
      else String (if Ascii.eqb c "+" then " "%char else c) <$> QueryUnescape r
  end.

Definition parsePair (part : string) : option (string * string) :=
  let '(k, v) := cut "=" part in
  match QueryUnescape k, QueryUnescape (default "" v) with Some k, Some v => Some (k, v) | _, _ => None end.

Definition ParseQuery (q : string) : option (list (string * string)) := mapM parsePair (split_on "&" q).

Lemma unescape_unreserved c : unreservedByte c = true -> Ascii.eqb c "%" = false /\ Ascii.eqb c "+" = false.
Proof. by destruct c as [[] [] [] [] [] [] [] []]. Qed.

Lemma hexVal_upperHex c : hexVal (upperHex (nat_of_ascii c / 16)) = Some (Z.of_nat (nat_of_ascii c / 16)) /\
  hexVal (upperHex (nat_of_ascii c mod 16)) = Some (Z.of_nat (nat_of_ascii c mod 16)).
Proof. by destruct c as [[] [] [] [] [] [] [] []]. Qed.

Lemma QueryUnescape_escape s : QueryUnescape (QueryEscape s) = Some s.
Proof.
  induction s as [|c s IH]; [done|]. cbn [QueryEscape]. destruct (unreservedByte c) eqn:Eu; [|destruct (Ascii.eqb c " ") eqn:Es].
  - cbn [QueryUnescape]. apply unescape_unreserved in Eu as [-> ->]. by rewrite IH.
  - apply Ascii.eqb_eq in Es as ->. cbn [QueryUnescape]. by rewrite IH.
  - cbv zeta. cbn [QueryUnescape]. change (Ascii.eqb "%" "%") with true. cbv iota. destruct (hexVal_upperHex c) as [-> ->]. rewrite IH.
    cbn [fmap option_fmap option_map]. do 2 f_equal. rewrite <- (ascii_nat_embedding c) at 3. unfold byte. f_equal.
    pose proof (Nat.div_mod (nat_of_ascii c) 16). lia.
Qed.

(** The bytes of an escaped value. *)
Definition escapedByte (c : ascii) : bool := unreservedByte c || Ascii.eqb c "+" || Ascii.eqb c "%".

Lemma upperHex_escaped c : escapedByte (upperHex (nat_of_ascii c / 16)) = true /\ escapedByte (upperHex (nat_of_ascii c mod 16)) = true.
Proof. by destruct c as [[] [] [] [] [] [] [] []]. Qed.

Lemma QueryEscape_bytes s : strAll escapedByte (QueryEscape s).
Proof.
  induction s as [|c s IH]; [constructor|]. cbn [QueryEscape]. destruct (unreservedByte c) eqn:Eu; [|destruct (Ascii.eqb c " ")].
  - apply Forall_cons_2; [|done]. unfold escapedByte. by rewrite Eu.
  - by apply Forall_cons_2.
  - destruct (upperHex_escaped c) as [? ?]. by repeat apply Forall_cons_2.
Qed.

Lemma parsePair_escaped k v : parsePair (QueryEscape k +:+ "=" +:+ QueryEscape v) = Some (k, v).
Proof.
  unfold parsePair. change ("=" +:+ ?x) with (String "=" x). rewrite cut_app by (eapply noByte_of, QueryEscape_bytes; done).
  change (default "" (Some ?x)) with x. cbv beta iota zeta. rewrite QueryUnescape_escape. cbn. by rewrite QueryUnescape_escape.
Qed.

Lemma ParseQuery_Encode vs : vs <> [] -> ParseQuery (values_Encode vs) = Some vs.
Proof.
  intros Hne. unfold ParseQuery, values_Encode. rewrite split_on_concat.
  - apply mapM_Some_2. rewrite Forall2_fmap_l. apply Forall_Forall2_diag. rewrite Forall_forall. intros [k v] _. apply parsePair_escaped.
  - by destruct vs.
  - rewrite Forall_fmap, Forall_forall. intros [k v] _. cbn [compose]. change ("=" +:+ ?x) with (String "=" x).
    apply noByte_app. split; [eapply noByte_of, QueryEscape_bytes; done|]. apply noByte_cons. split; [done|].
    eapply noByte_of, QueryEscape_bytes; done.
Qed.

(** The page the browser is sent to is asked for exactly this login: its
    parameters read back as the callback, the challenge of the verifier, the
    method and the state. *)
Theorem authorization_url_roundtrip env hostname Sum256 callbackURL verifier state :
  exists q, authorizationURL env hostname Sum256 callbackURL verifier state = openrouterAuthURL env hostname +:+ "?" +:+ q /\
    ParseQuery q = Some [("callback_url", callbackURL); ("code_challenge", pkceChallenge Sum256 verifier); ("code_challenge_method", "S256"); ("state", state)].
Proof. eexists. split; [done|]. by apply ParseQuery_Encode. Qed.

(** *** Callbacks *)

(** What a callback of this login says: it came on the secret path, and with the
    state it is a denial or carries a code.  Unless the state is required, one
    that carries a code, no error and no state at all is taken for the login's
    too. *)
Definition genuine (strict : bool) (callbackPath state : string) (r : callbackRequest) : option callbackResult :=
  if str_eq (cb_Method r) "GET" && str_eq (cb_Path r) callbackPath then
    if str_eq (cb_Query r "state") state then
      if negb (empty_str (cb_Query r "error")) then Some denial
      else if validAuthCode (cb_Query r "code") then Some (mkResult (cb_Query r "code") None) else None
    else if negb strict && empty_str (cb_Query r "state") && empty_str (cb_Query r "error") && validAuthCode (cb_Query r "code")
    then Some (mkResult (cb_Query r "code") None) else None
  else None.

Definition offer (found : option callbackResult) (d : delivery) : delivery :=
  match found with Some res => deliver res d | None => d end.

Section callbacks.
Context (env : environ) (callbackPath state : string).
#[local] Abbreviation genuine := (genuine (requireState env) callbackPath state).

Lemma serveCallback_offers r d :
  let '(_, notes, d') := serveCallback env callbackPath state r d in (genuine r = None -> notes = []) /\ d' = offer (genuine r) d.
Proof.
  unfold serveCallback, callbackHandler, genuine.
  destruct (str_eq (cb_Path r) callbackPath); [|by rewrite andb_false_r].
  destruct (str_eq (cb_Method r) "GET"); [|done]. cbn [negb andb].
  destruct (str_eq (cb_Query r "state") state) eqn:Es, (empty_str (cb_Query r "state")), (empty_str (cb_Query r "error")),
    (validAuthCode (cb_Query r "code")), (requireState env); cbn [negb andb]; by split.
Qed.

Lemma serveCallbacks_offers rs : forall d,
  (serveCallbacks env callbackPath state rs d).2 = fold_left (fun d r => offer (genuine r) d) rs d.
Proof.
  induction rs as [|r rs IH]; intros d; [done|]. cbn [serveCallbacks fold_left]. pose proof (serveCallback_offers r d) as Hr.
  destruct (serveCallback env callbackPath state r d) as [[page notes] d']. destruct Hr as [_ ->].
  rewrite <- IH. by destruct (serveCallbacks env callbackPath state rs _).
Qed.

Lemma offers_first rs : forall d,
  fold_left (fun d r => offer (genuine r) d) rs d =
  if fired d then d else match head (omap genuine rs) with Some res => mkDelivery true (Some res) | None => d end.
Proof.
  induction rs as [|r rs IH]; intros [f c]; cbn [fold_left omap list_omap head fired]; [by destruct f|].
  rewrite IH. destruct (genuine r) as [res|] eqn:Eg; cbn [offer head]; [|done].
  unfold deliver. by destruct f.
Qed.

Lemma foreign_callback_ignored rs rs' r : genuine r = None -> forall d,
  serveCallbacks env callbackPath state (rs ++ r :: rs')%list d = serveCallbacks env callbackPath state (rs ++ rs')%list d.
Proof.
  intros Hr. induction rs as [|q rs IH]; intros d; cbn [app serveCallbacks].
  - pose proof (serveCallback_offers r d) as H. destruct (serveCallback env callbackPath state r d) as [[page notes] d']. rewrite Hr in H.
    destruct H as [Hn ->]. rewrite Hn by done. cbn [offer]. by destruct (serveCallbacks env callbackPath state rs' d).
  - destruct (serveCallback env callbackPath state q d) as [[page notes] d']. by rewrite IH.
Qed.

(** The login takes the first callback that is its own, and no other request
    can use up the single delivery or change its outcome: whatever arrives on
    another path, with another method, with another state or, where the state
    is required, with none, or without a well-formed code, before or after it,
    is as if it had not been sent. *)
Theorem callback_takes_first_genuine rs rs' r :
  ch (serveCallbacks env callbackPath state rs freshDelivery).2 = head (omap genuine rs) /\
  (genuine r = None ->
   serveCallbacks env callbackPath state (rs ++ r :: rs')%list freshDelivery = serveCallbacks env callbackPath state (rs ++ rs')%list freshDelivery).
Proof.
  rewrite serveCallbacks_offers, offers_first. split; [by destruct (head _)|]. intros Hr. by apply foreign_callback_ignored.
Qed.
End callbacks.

(** Without the strict setting a callback may lack the state, but a code is
    still only taken on the secret path, and a denial only with the state. *)
Theorem lenient_callback_needs_the_path env callbackPath state r d :
  let '(_, _, d') := serveCallback env callbackPath state r d in
  d' <> d -> cb_Method r = "GET" /\ cb_Path r = callbackPath /\
    (cb_Query r "state" = state /\ cb_Query r "error" <> "" /\ ch d' = Some denial \/
     (cb_Query r "state" = state \/ cb_Query r "state" = "") /\ cb_Query r "error" = "" /\
     validAuthCode (cb_Query r "code") = true /\ ch d' = Some (mkResult (cb_Query r "code") None)).
Proof.
  unfold serveCallback, callbackHandler. destruct (str_eq (cb_Path r) callbackPath) eqn:Ep; [|done]. apply str_eq_spec in Ep.
  destruct (str_eq (cb_Method r) "GET") eqn:Em; [|done]. apply str_eq_spec in Em. cbn [negb].
  destruct (str_eq (cb_Query r "state") state) eqn:Es, (empty_str (cb_Query r "state")) eqn:Ee, (empty_str (cb_Query r "error")) eqn:Er,
    (validAuthCode (cb_Query r "code")) eqn:Ev, (requireState env); cbn [negb andb]; try done.
  all: try apply str_eq_spec in Es; try apply empty_str_spec in Ee; try apply empty_str_spec in Er.
  all: unfold deliver; destruct (fired d); [done|]; intros _; split_and!; [done..|].
  all: first [right; by auto | left; split_and!; [done| |done]; intros He; by rewrite He in Er].
Qed.

(** *** The subcommands *)

(** Endpoints are the built-in ones or on the loopback. *)
Lemma endpoint_trusted env hostname name def :
  let url := loopbackOverrideOr env hostname name def in
  url = def \/ exists host, hostname url = Some host /\ (host = "127.0.0.1" \/ host = "::1" \/ EqualFold host "localhost" = true).
Proof.
  unfold loopbackOverrideOr. destruct (empty_str _); [by left|]. destruct (hostname _) as [host|] eqn:E; [|by left].
  destruct (str_eq host "127.0.0.1") eqn:E1; [apply str_eq_spec in E1; right; eauto|].
  destruct (str_eq host "::1") eqn:E2; [apply str_eq_spec in E2; right; eauto|].
  destruct (EqualFold host "localhost") eqn:E3; [|by left]. right. eauto.
Qed.

Lemma exchange_inv env hostname post decodeKey code verifier key :
  exchangeCodeForKey env hostname post decodeKey code verifier = inr key ->
  exists body field, post (mkExchange "POST" (openrouterKeysURL env hostname) "application/json" code verifier "S256") = inr (200, body) /\
    decodeKey (readLimited (Z.shiftl 64 10) body) = Some field /\ key = TrimSpace field /\ looksLikeOpenRouterKey key = true.
Proof.
  unfold exchangeCodeForKey. destruct (hostname _); [|done]. destruct (post _) as [|[status body]]; [done|].
  destruct (Z.eqb_spec status 200) as [->|]; [|done]. cbn [negb]. destruct (decodeKey _) as [field|] eqn:Ed; [|done].
  destruct (looksLikeOpenRouterKey (TrimSpace field)) eqn:El; [|done]. intros [= <-]. by eauto 10.
Qed.

Lemma storeManaged_reads_back `{SecretStore W} vaultPath keyPath ce0 ce1 ce2 ce3 ce4 ce5 removed key s s' :
  storeManagedOpenRouterKey vaultPath keyPath ce0 ce1 ce2 ce3 ce4 ce5 removed key s = (s', true) ->
  store_Get ce5 ProviderOpenRouter s'.1 = inr (Some (TrimSpace key)).
Proof.
  intros E. pose proof (login_stores_the_key vaultPath keyPath ce0 ce1 ce2 ce3 ce4 ce5 removed key s) as Hl.
  rewrite E in Hl. destruct s' as [w' file']. by apply Hl.
Qed.

(** C20: a browser login that reports success stored the key of this login and no
    other.  The first callback that is the login's own carried a code: it came
    on the login's secret path with the login's state, or, where
    PROXY_OAUTH_REQUIRE_STATE turns the requirement of the state off and only
    there, on the secret path with no state at all.  The token endpoint, which
    is the built-in one or on the loopback, exchanged that code together with
    this login's verifier, and the key of the answer is what the store now
    reads back. *)
Theorem login_stores_the_key_of_this_flow `{SecretStore W} env hostname Sum256 post decodeKey vaultPath keyPath
    ce0 ce1 ce2 ce3 ce4 ce5 removed args noBrowser stdin run raw (s s' : W * option string) lines :
  loginFlags false args = Some noBrowser -> lr_state run = Some raw ->
  runLogin env hostname Sum256 post decodeKey vaultPath keyPath ce0 ce1 ce2 ce3 ce4 ce5 removed args stdin run s = ((0, lines), s') ->
  exists verifier secret code body field,
    randomURLToken (lr_verifier run) = Some verifier /\ randomURLToken (lr_secret run) = Some secret /\
    head (omap (genuine (requireState env) ("/callback/" +:+ secret) (rawURLEncode raw)) (lr_callbacks run)) = Some (mkResult code None) /\
    (openrouterKeysURL env hostname = defaultOpenRouterKeysURL \/
     exists host, hostname (openrouterKeysURL env hostname) = Some host /\ (host = "127.0.0.1" \/ host = "::1" \/ EqualFold host "localhost" = true)) /\
    post (mkExchange "POST" (openrouterKeysURL env hostname) "application/json" code verifier "S256") = inr (200, body) /\
    decodeKey (readLimited (Z.shiftl 64 10) body) = Some field /\ looksLikeOpenRouterKey (TrimSpace field) = true /\
    store_Get ce5 ProviderOpenRouter s'.1 = inr (Some (TrimSpace field)).
Proof.
  intros Hf Hraw. unfold runLogin, startCallbackServer. rewrite Hf, Hraw.
  destruct (randomURLToken (lr_verifier run)) as [verifier|]; [|done]. cbn [randomURLToken fmap option_fmap option_map].
  destruct (randomURLToken (lr_secret run)) as [secret|]; [|done]. destruct (lr_port run) as [port|]; [|done]. cbv zeta.
  pose proof (serveCallbacks_offers env ("/callback/" +:+ secret) (rawURLEncode raw) (lr_callbacks run) freshDelivery) as Hd.
  rewrite offers_first in Hd. destruct (serveCallbacks _ _ _ _ _) as [notes d]. cbn [snd fired freshDelivery] in Hd. subst d.
  destruct (head _) as [[code err]|] eqn:Eh; [|by unfold finishLogin; destruct (lr_timeout run)].
  unfold finishLogin. cbn [ch cr_err cr_code]. destruct (lr_timeout run); [done|]. destruct err as [err|]; [done|].
  destruct (exchangeCodeForKey _ _ _ _ code verifier) as [err|key] eqn:Ex; [done|].
  apply exchange_inv in Ex as (body & field & Hpost & Hd & -> & Hk).
  destruct (storeManagedOpenRouterKey _ _ _ _ _ _ _ _ _ _ s) as [s1 []] eqn:Est; [|done]. intros [= _ <-].
  apply storeManaged_reads_back in Est. rewrite TrimSpace_idemp in Est.
  exists verifier, secret, code, body, field. split_and!; try done. apply endpoint_trusted.
Qed.

(** Whatever is on standard input, a key that was taken from there is stored
    and reads back, and a refused one leaves store and file alone. *)
Theorem login_from_stdin `{SecretStore W} vaultPath keyPath ce0 ce1 ce2 ce3 ce4 ce5 removed data (s : W * option string) :
  let key := TrimSpace (readLimited 4096 data) in
  let '((code, _), s') := loginKeyStdin vaultPath keyPath ce0 ce1 ce2 ce3 ce4 ce5 removed data s in
  (code = 0 -> looksLikeOpenRouterKey key = true /\ store_Get ce5 ProviderOpenRouter s'.1 = inr (Some key)) /\
  (looksLikeOpenRouterKey key = false -> code = 1 /\ s' = s).
Proof.
  cbv zeta. unfold loginKeyStdin. destruct (looksLikeOpenRouterKey (TrimSpace (readLimited 4096 data))); cbn [negb]; [|done].
  destruct (storeManagedOpenRouterKey _ _ _ _ _ _ _ _ _ _ s) as [s' []] eqn:Es; [|done]. split; [|done]. intros _. split; [done|].
  apply storeManaged_reads_back in Es. by rewrite TrimSpace_idemp in Es.
Qed.

(** A logout that reports success can be undone by the next start: a key file
    that differs from the key in the store is kept by the migration, so that
    once the key in the store is deleted the next migration stores the old
    one again. *)
Theorem logout_undone_by_key_file `{SecretStore W} vaultPath keyPath ce0 ce1 ce2 ce3 ce4 ce5 ce6 ce7 ce8 w file current w1 w2 :
  vaultPath <> "" -> keyPath <> "" ->
  let legacy := storedAPIKey keyPath file in
  legacy <> "" -> vs_Locked (store_Status ce0 w) = false -> store_Get ce1 ProviderOpenRouter w = inr (Some current) -> current <> legacy ->
  store_Delete ce4 ProviderOpenRouter w = (w1, None) -> usable ce4 w -> sameKey ce4 ce6 ->
  vs_Locked (store_Status ce5 w1) = false -> store_Set ce7 ProviderOpenRouter legacy w1 = (w2, None) -> usable ce7 w1 -> sameKey ce7 ce8 ->
  runLogout vaultPath keyPath ce0 ce1 ce2 ce3 ce4 true (w, file) = ((0, [Out "Logged out (stored key removed)."]), (w1, file)) /\
  initializeManagedCredentials vaultPath keyPath ce5 ce6 ce7 ce8 true (w1, file) = Some (w2, None) /\
  store_Get ce8 ProviderOpenRouter w2 = inr (Some legacy).
Proof.
  intros Hv Hk legacy Hl Hlock Hget Hne Hdel Hu Hsame Hlock' Hset Hu' Hsame'.
  assert (Hgone : store_Get ce6 ProviderOpenRouter w1 = inr None) by exact (get_after_delete ce4 ce6 ProviderOpenRouter w w1 Hu Hsame Hdel eq_refl).
  destruct (migration_completes keyPath ce6 ce7 ce8 w1 file w2 Hk Hl Hu' Hsame' Hgone Hset) as [Hm Hback].
  assert (Hev : empty_str vaultPath = false) by by apply bool_decide_eq_false_2.
  assert (Hel : empty_str legacy = false) by by apply bool_decide_eq_false_2.
  split_and!; [|unfold initializeManagedCredentials; cbn [fst]; by rewrite Hev, Hlock', Hm|done].
  unfold runLogout, deleteManagedOpenRouterKey, initializeManagedCredentials, migrateLegacyOpenRouterKey. cbn [fst].
  fold legacy. rewrite Hev, Hlock, Hel, Hget. unfold str_eq. rewrite (bool_decide_false (current = legacy)) by done. by rewrite Hdel.
Qed.

(** ** Witnesses *)

#[local] Existing Instance memoryStore.

Definition exVaultCall : callEnv := mkCallEnv false None false None 0 (fun _ => true) "".
Definition exCallbackPath : string := "/callback/" +:+ rawURLEncode "secret".
Definition exCallback (state code : string) : callbackRequest :=
  mkCallback "GET" exCallbackPath (fun name => if str_eq name "state" then state else if str_eq name "code" then code else "").
Definition exLoginRun : loginRun :=
  mkRun (Some "verifier") (Some "state") (Some "secret") (Some 40000) true
    [mkCallback "GET" "/callback" (fun _ => "x"); exCallback "" "stolen"; exCallback (rawURLEncode "state") "c0de"] false.
Definition exPost (x : exchangeRequest) : string + (Z * string) :=
  if str_eq (x_code x) "c0de" && str_eq (x_code_verifier x) (rawURLEncode "verifier") then inr (200, "sk-or-v1-0123456789abcdef") else inl "no".
Definition exHostname (u : string) : option string := Some "openrouter.ai".

Lemma login_stores_the_key_of_this_flow_witness :
  exists s', runLogin ∅ exHostname id exPost Some "vault" "key" exVaultCall exVaultCall exVaultCall exVaultCall exVaultCall exVaultCall true
    ["--no-browser"] "" exLoginRun (∅ : gmap string string, None) = s' /\
  store_Get exVaultCall ProviderOpenRouter s'.2.1 = inr (Some "sk-or-v1-0123456789abcdef").
Proof.
  eexists. split; [reflexivity|].
  destruct (runLogin ∅ exHostname id exPost Some "vault" "key" exVaultCall exVaultCall exVaultCall exVaultCall exVaultCall exVaultCall true
    ["--no-browser"] "" exLoginRun (∅ : gmap string string, None)) as [[code lines] s'] eqn:E.
  assert (Hcode : code = 0) by (apply (f_equal (fun p => p.1.1)) in E; vm_compute in E; by rewrite <- E). subst code.
  destruct (login_stores_the_key_of_this_flow ∅ exHostname id exPost Some "vault" "key" exVaultCall exVaultCall exVaultCall exVaultCall exVaultCall exVaultCall true
    ["--no-browser"] true "" exLoginRun "state" (∅ : gmap string string, None) s' lines eq_refl eq_refl E)
    as (verifier & secret & code & body & field & Hv & Hs & Hh & _ & Hp & Hd & _ & Hg).
  vm_compute in Hv. injection Hv as <-. vm_compute in Hs. injection Hs as <-. vm_compute in Hh. injection Hh as <-. vm_compute in Hp. injection Hp as <-.
  vm_compute in Hd. injection Hd as <-. exact Hg.
Defined.

Lemma logout_undone_by_key_file_witness :
  exists w2, initializeManagedCredentials "vault" "key" exVaultCall exVaultCall exVaultCall exVaultCall true
    (delete ProviderOpenRouter ({[ProviderOpenRouter := "new"]} : gmap string string), Some "old") = Some (w2, None) /\
  store_Get exVaultCall ProviderOpenRouter w2 = inr (Some "old").
Proof.
  eexists. apply (logout_undone_by_key_file "vault" "key" exVaultCall exVaultCall exVaultCall exVaultCall exVaultCall exVaultCall exVaultCall exVaultCall exVaultCall
    {[ProviderOpenRouter := "new"]} (Some "old") "new" (delete ProviderOpenRouter {[ProviderOpenRouter := "new"]})
    (<[ProviderOpenRouter := TrimSpace "old"]> (delete ProviderOpenRouter {[ProviderOpenRouter := "new"]}))); by vm_compute.
Defined.

Lemma callback_takes_first_genuine_witness :
  ch (serveCallbacks ∅ exCallbackPath (rawURLEncode "state") (lr_callbacks exLoginRun) freshDelivery).2 = Some (mkResult "c0de" None) /\
  serveCallbacks ∅ exCallbackPath (rawURLEncode "state") [exCallback "" "stolen"] freshDelivery = ([], freshDelivery).
Proof.
  split.
  - destruct (callback_takes_first_genuine ∅ exCallbackPath (rawURLEncode "state") (lr_callbacks exLoginRun) [] (exCallback "" "")) as [-> _].
    by vm_compute.
  - destruct (callback_takes_first_genuine ∅ exCallbackPath (rawURLEncode "state") [] [] (exCallback "" "stolen")) as [_ H].
    apply H. by vm_compute.
Defined.
