(* ===== verification/Doctor.v ===== *)
(** * Doctor: the self-check (cmd/doctor.go)

    [runDoctor] asks the running proxy for its health, sends one completion
    through it and inspects the configuration of the Hermes client line by
    line.  What the proxy answers, the files that exist and their contents,
    the JSON decoders, the host name of a URL, quoting and the joining of paths
    are arguments.  The theorems say what the verdict on the client's file
    means, and that the block the command prints passes it. *)

From S2P Require Import Prelude Env Text Split Float Net Json Security Server Credentials.
From Stdlib Require Import Lia ZArith String Ascii.
#[local] Open Scope string_scope.
#[local] Open Scope Z_scope.

(** ** Results *)

Inductive checkStatus := statusOK | statusWarn | statusFail.
#[export] Instance checkStatus_eq_dec : EqDecision checkStatus.
Proof. solve_decision. Defined.

Definition label (s : checkStatus) : string :=
  match s with statusOK => "OK  " | statusWarn => "WARN" | statusFail => "FAIL" end.

Record checkResult := mkCheck { ck_status : checkStatus; ck_title : string; ck_detail : string; ck_fix : string }.

(** The lines printed for a result. *)
Definition printCheck (r : checkResult) : list string :=
  (("[" +:+ label (ck_status r) +:+ "] " +:+ ck_title r) ::
   (if empty_str (ck_detail r) then [] else (fun line => "       " +:+ line) <$> split_on (byte 10) (ck_detail r)) ++
   (if empty_str (ck_fix r) then [] else (fun line => "       → " +:+ line) <$> split_on (byte 10) (ck_fix r)))%list.

Definition newline : string := String (byte 10) "".

Definition hermesLines (baseURL : string) : list string :=
  ["model:";
   "  provider: custom";
   "  default: coding";
   "  base_url: " +:+ baseURL +:+ "     # must be loopback (127.0.0.1), not a hostname";
   "  api_key: dummy         # the real OpenRouter key lives in the proxy";
   "";
   "custom_providers:";
   "  - name: calvoproxy";
   "    base_url: " +:+ baseURL;
   "    api_key: dummy";
   "    api_mode: chat_completions";
   "    discover_models: false   # the proxy does not expose /v1/models";
   "    models:";
   "      coding:    {context_length: 128000}";
   "      simple:    {context_length: 128000}";
   "      reasoning: {context_length: 128000}";
   "      vision:    {context_length: 128000}"].

Definition hermesConfigBlock (baseURL : string) : string := String.concat newline (hermesLines baseURL).

(** ** Reading YAML by lines *)

Definition blank (c : ascii) : bool := Ascii.eqb c " " || Ascii.eqb c (byte 9).

(** [raw == strings.TrimLeft(raw, " \t")] *)
Definition topLevel (raw : string) : bool := str_eq raw (TrimLeftSet blank raw).

(** [s[n:]] *)
Definition after (n : nat) (s : string) : string := String.substring n (String.length s - n) s.

(** The loop of [stripYAMLComment], with the byte before. *)
Fixpoint commentFrom (prev : ascii) (s : string) : string :=
  match s with
  | EmptyString => EmptyString
  | String c r => if Ascii.eqb c "#" && blank prev then EmptyString else String c (commentFrom c r)
  end.

Definition stripYAMLComment (s : string) : string :=
  match s with EmptyString => EmptyString | String c r => String c (commentFrom c r) end.

Definition quoteByte : ascii := byte 34.
Definition tickByte : ascii := byte 39.

Definition lastByte (s : string) : option ascii := last (list_ascii_of_string s).

Definition unquoteYAML (s : string) : string :=
  let s := TrimSpace s in
  match s with
  | String first (String _ _) =>
      match lastByte s with
      | Some final =>
          if (Ascii.eqb first quoteByte && Ascii.eqb final quoteByte) || (Ascii.eqb first tickByte && Ascii.eqb final tickByte)
          then String.substring 1 (String.length s - 2) s else s
      | None => s
      end
  | _ => s
  end.

Definition scalar (s : string) : string := unquoteYAML (stripYAMLComment s).

Fixpoint yamlScalar (lines : list string) (key : string) : string :=
  match lines with
  | [] => ""
  | raw :: lines =>
      let prefix := key +:+ ":" in
      if HasPrefix raw "#" || empty_str (TrimSpace raw) then yamlScalar lines key
      else if negb (topLevel raw) then yamlScalar lines key
      else if HasPrefix raw prefix then scalar (after (String.length prefix) raw)
      else yamlScalar lines key
  end.

Fixpoint nestedFrom (inParent : bool) (lines : list string) (parent child : string) : string :=
  match lines with
  | [] => ""
  | raw :: lines =>
      let trimmed := TrimSpace raw in
      if empty_str trimmed || HasPrefix trimmed "#" then nestedFrom inParent lines parent child
      else if topLevel raw then nestedFrom (HasPrefix raw (parent +:+ ":")) lines parent child
      else if inParent && HasPrefix trimmed (child +:+ ":") then scalar (after (String.length child + 1) trimmed)
      else nestedFrom inParent lines parent child
  end.

Definition yamlNestedScalar : list string -> string -> string -> string := nestedFrom false.

(** The lines of a block, up to the next top-level key. *)
Fixpoint blockBody (lines : list string) : list string :=
  match lines with
  | [] => []
  | raw :: lines =>
      let trimmed := TrimSpace raw in
      if empty_str trimmed || HasPrefix trimmed "#" then raw :: blockBody lines
      else if topLevel raw then []
      else raw :: blockBody lines
  end.

Fixpoint yamlBlock (lines : list string) (key : string) : list string :=
  match lines with
  | [] => []
  | raw :: lines => if topLevel raw && HasPrefix raw (key +:+ ":") then blockBody lines else yamlBlock lines key
  end.

Definition yamlHasTopLevelKey (lines : list string) (key : string) : bool :=
  match yamlBlock lines key with [] => false | _ => true end.

Definition TrimItem (raw : string) : string := TrimSpace (TrimPrefix (TrimSpace raw) "- ").

Fixpoint yamlAnyScalar (lines : list string) (key : string) : string :=
  match lines with
  | [] => ""
  | raw :: lines =>
      let trimmed := TrimItem raw in
      if HasPrefix trimmed (key +:+ ":") then scalar (after (String.length key + 1) trimmed) else yamlAnyScalar lines key
  end.

Definition normBaseURL (s : string) : string := ToLower (TrimRightSlash (TrimSpace s)).

(** [cur] is nil before the first item. *)
Fixpoint entriesFrom (cur : option (list string)) (block : list string) : list (list string) :=
  match block with
  | [] => match cur with Some c => [c] | None => [] end
  | raw :: block =>
      let trimmed := TrimSpace raw in
      if HasPrefix trimmed "- " || str_eq trimmed "-" then
        match cur with Some c => c :: entriesFrom (Some [raw]) block | None => entriesFrom (Some [raw]) block end
      else entriesFrom (match cur with Some c => Some (c ++ [raw])%list | None => None end) block
  end.

Definition yamlListEntries : list string -> list (list string) := entriesFrom None.

(** ** Paths and addresses *)

Section doctor.
Context (env : environ) (home configDir : option string) (join : list string -> string) (fileExists : string -> bool)
        (readFile : string -> string + string) (hostname : string -> option string)
        (lookupIP : string -> option (list (list Z))) (quote : string -> string).

Fixpoint firstExisting (candidates : list string) : string :=
  match candidates with [] => "" | p :: candidates => if fileExists p then p else firstExisting candidates end.

Definition hermesConfigPath : string :=
  let candidates :=
    ((let dir := TrimSpace (Getenv env "LOCALAPPDATA") in if negb (empty_str dir) then [join [dir; "hermes"; "config.yaml"]] else []) ++
     (match home with Some h => if negb (empty_str h) then [join [h; ".hermes"; "config.yaml"]] else [] | None => [] end))%list in
  let h := TrimSpace (Getenv env "HERMES_HOME") in
  if negb (empty_str h) && fileExists (join [h; "config.yaml"]) then join [h; "config.yaml"] else firstExisting candidates.

(** [net.JoinHostPort] *)
Definition JoinHostPort (host port : string) : string :=
  if hasByte ":" host then "[" +:+ host +:+ "]:" +:+ port else host +:+ ":" +:+ port.

Definition proxyBaseURL : string :=
  let host := envOrDefault env "HOST" "127.0.0.1" in
  let host := if str_eq host "0.0.0.0" || str_eq host "::" then "127.0.0.1" else host in
  "http://" +:+ JoinHostPort host (envOrDefault env "PORT" "8080").

(** ** The running proxy *)

(** [send method url bearer body]: the error, or the status and the body. *)
Context (send : string -> string -> option string -> string -> string + (Z * string)).
(** [badURL] is why a URL is refused.  The decoders: an error is [None]; the
    health report of a JSON null is a nil map. *)
Context (badURL : string -> option string) (decodeHealth : string -> option (option object)) (decodeModel : string -> string).

Definition checkReachable (base : string) : checkResult * option object * bool :=
  let title := "Proxy reachable at " +:+ base in
  match badURL (base +:+ "/health") with
  | Some err => (mkCheck statusFail title err "", None, false)
  | None =>
      let tok := TrimSpace (Getenv env "PROXY_ADMIN_TOKEN") in
      match send "GET" (base +:+ "/health") (if negb (empty_str tok) then Some tok else None) "" with
      | inl err =>
          (mkCheck statusFail title err ("Start it:  calvoproxy" +:+ newline +:+
             "Or with Docker:  docker run -p 8080:8080 -e OPENROUTER_API_KEY=... ghcr.io/cervantesh/calvoproxy"), None, false)
      | inr (status, body) =>
          let body := readLimited (Z.shiftl 1 20) body in
          if status =? 401 then
            (mkCheck statusWarn title
               ("/health is gated by PROXY_ADMIN_TOKEN and no matching token was presented," +:+ newline +:+
                "so credential and model-policy details cannot be inspected.")
               ("Set PROXY_ADMIN_TOKEN in doctor's environment to the proxy's value." +:+ newline +:+
                "The live completion check below does not need it."), None, true)
          else if negb (status =? 200) then (mkCheck statusFail title ("/health returned HTTP " +:+ pretty status) "", None, true)
          else match decodeHealth body with
               | None => (mkCheck statusWarn title "/health did not return JSON — is something else on this port?" "", None, true)
               | Some health => (mkCheck statusOK title "" "", health, true)
               end
      end
  end.

Definition checkAPIKey (health : object) : checkResult :=
  if boolAt health "configured_api_key" then
    let src :=
      if empty_str (TrimSpace (Getenv env "OPENROUTER_API_KEY")) then
        let p := keyFilePath env configDir join in
        if negb (empty_str p) && fileExists p then "login key file: " +:+ p else "configured"
      else "OPENROUTER_API_KEY (environment)" in
    mkCheck statusOK "OpenRouter credentials present" src ""
  else
    mkCheck statusFail "OpenRouter credentials present" ""
      ("calvoproxy login                       (browser sign-in, per-user key)" +:+ newline +:+
       "or set OPENROUTER_API_KEY in the proxy's environment").

Definition truncate (s : string) (n : nat) : string :=
  let s := TrimSpace s in
  if (String.length s <=? n)%nat then s else String.substring 0 n s +:+ "…".

Definition roundTripPayload (profile : string) : string :=
  let q := String quoteByte "" in
  "{" +:+ q +:+ "model" +:+ q +:+ ":" +:+ quote profile +:+ "," +:+ q +:+ "messages" +:+ q +:+ ":[{" +:+ q +:+ "role" +:+ q +:+ ":" +:+ q +:+ "user" +:+ q +:+
  "," +:+ q +:+ "content" +:+ q +:+ ":" +:+ q +:+ "ping" +:+ q +:+ "}]," +:+ q +:+ "max_tokens" +:+ q +:+ ":8}".

Definition checkRoundTrip (base profile : string) : checkResult :=
  let title := "Live completion through the chain" in
  match send "POST" (base +:+ "/v1/chat/completions") None (roundTripPayload profile) with
  | inl err => mkCheck statusFail title err ""
  | inr (status, body) =>
      let body := readLimited (Z.shiftl 1 20) body in
      if negb (status =? 200) then
        mkCheck statusFail title ("HTTP " +:+ pretty status +:+ ": " +:+ truncate body 300)
          ("429/503 usually means every free model in the profile is rate-limited — retry shortly." +:+ newline +:+
           "401/403 means the OpenRouter key is rejected — re-run `calvoproxy login`.")
      else
        let model := decodeModel body in
        mkCheck statusOK title ("profile " +:+ profile +:+ (if negb (empty_str model) then " → " +:+ model else "")) ""
  end.

(** ** The client's configuration *)

(** [bufio.Scanner] by lines, up to one that does not fit the buffer. *)
Definition maxScanLine : Z := 4 * 1024 * 1024.

Fixpoint fitting (lines : list string) : list string :=
  match lines with
  | [] => []
  | l :: lines => if Z.of_nat (String.length l) <? maxScanLine then l :: fitting lines else []
  end.

Definition dropLastEmpty (lines : list string) : list string :=
  match rev lines with "" :: r => rev r | _ => lines end.

Definition scanLines (data : string) : list string :=
  (fun l => TrimSuffix l (String (byte 13) "")) <$> fitting (dropLastEmpty (split_on (byte 10) data)).

Definition byteOrderMark : string := string_of_list_ascii [byte 239; byte 187; byte 191].

Definition hermesFileLines (raw : string) : list string :=
  TrimRightSet (Ascii.eqb (byte 13)) <$> scanLines (TrimPrefix raw byteOrderMark).

Definition checkProvider (lines : list string) : checkResult :=
  let provider := yamlNestedScalar lines "model" "provider" in
  if negb (str_eq provider "custom")
  then mkCheck statusFail "model.provider is custom" ("found " +:+ quote provider) "Set it to `custom`, then apply the block printed below."
  else mkCheck statusOK "model.provider is custom" "" "".

Definition checkModelURL (modelURL wantURL : string) : checkResult :=
  let title := "model.base_url points at the proxy" in
  if empty_str modelURL then
    mkCheck statusFail title
      ("model.base_url is missing — this is the single most common cause of" +:+ newline +:+
       "requests silently going to openrouter.ai instead of the proxy.")
      ("Add  base_url: " +:+ wantURL +:+ "  under `model:`.")
  else
    let host := default "" (hostname modelURL) in
    if negb (isLoopbackHost lookupIP host) then
      mkCheck statusFail title (quote modelURL +:+ " is not loopback; Hermes ignores it and falls back to OpenRouter") ("Use " +:+ wantURL)
    else if EqualFold host "localhost" then
      mkCheck statusWarn title
        (modelURL +:+ " uses the hostname `localhost`, which can resolve to IPv6 ::1" +:+ newline +:+ "while the proxy listens on IPv4 only.")
        ("Prefer the literal address: " +:+ wantURL)
    else if negb (str_eq (TrimRightSlash modelURL) (TrimRightSlash wantURL)) then
      mkCheck statusWarn title ("config says " +:+ modelURL +:+ " but this proxy answers on " +:+ wantURL) ""
    else mkCheck statusOK title modelURL "".

(** The first entry whose base_url is that of the model. *)
Fixpoint selectEntry (modelURL : string) (entries : list (list string)) : option (list string) :=
  match entries with
  | [] => None
  | entry :: entries =>
      if str_eq (normBaseURL (yamlAnyScalar entry "base_url")) (normBaseURL modelURL) && negb (empty_str modelURL)
      then Some entry else selectEntry modelURL entries
  end.

Definition checkEntry (selected : list string) : list checkResult :=
  ((if EqualFold (yamlAnyScalar selected "discover_models") "true" then
      [mkCheck statusWarn "discover_models disabled" "the proxy serves no /v1/models; discovery will 404" "Set discover_models: false on the calvoproxy entry."]
    else []) ++
   (let mode := yamlAnyScalar selected "api_mode" in
    if negb (empty_str mode) && negb (str_eq mode "chat_completions") then
      [mkCheck statusWarn "api_mode is chat_completions" ("entry declares api_mode: " +:+ quote mode +:+ "; the proxy speaks the OpenAI chat API") "Set api_mode: chat_completions."]
    else []))%list.

Definition checkProviders (lines : list string) (modelURL wantURL : string) : list checkResult :=
  match yamlBlock lines "custom_providers" with
  | [] =>
      [mkCheck statusFail "custom_providers entry exists" "`provider: custom` alone is not enough — Hermes matches the provider by base_url."
         "Add the custom_providers block printed below."]
  | providers =>
      let title := "custom_providers entry matches model.base_url" in
      match selectEntry modelURL (yamlListEntries providers) with
      | None =>
          [mkCheck statusFail title
             ("no custom_providers entry has base_url " +:+ quote modelURL +:+ newline +:+
              "Hermes binds `provider: custom` by matching these two values;" +:+ newline +:+
              "when they disagree it silently uses OpenRouter instead.")
             ("Make the entry's base_url identical to model.base_url (" +:+ wantURL +:+ ").")]
      | Some selected =>
          (if negb (str_eq (normBaseURL (yamlAnyScalar selected "base_url")) (normBaseURL wantURL)) then
             mkCheck statusWarn title
               ("the pair agrees, but points at " +:+ yamlAnyScalar selected "base_url" +:+ " while this proxy answers on " +:+ wantURL) ""
           else mkCheck statusOK title "" "") :: checkEntry selected
      end
  end.

Definition checkHermesFile (base path raw : string) : list checkResult :=
  let lines := hermesFileLines raw in
  let wantURL := base +:+ "/v1" in
  let modelURL := yamlNestedScalar lines "model" "base_url" in
  mkCheck statusOK "Hermes config found" path "" :: checkProvider lines :: checkModelURL modelURL wantURL :: checkProviders lines modelURL wantURL.

Definition checkHermes (base : string) : list checkResult :=
  let path := hermesConfigPath in
  if empty_str path then
    [mkCheck statusWarn "Hermes integration" "No Hermes config.yaml found — skipping (fine if you only use the HTTP API)."
       "Set HERMES_HOME if your install lives elsewhere."]
  else match readFile path with
       | inl err => [mkCheck statusFail "Hermes integration" ("cannot read " +:+ path +:+ ": " +:+ err) ""]
       | inr raw => checkHermesFile base path raw
       end.

(** ** The command *)

(** [None]: the help text was asked for. *)
Fixpoint doctorFlags (skipLive : bool) (args : list string) : option bool :=
  match args with
  | [] => Some skipLive
  | a :: args =>
      if str_eq a "--no-live" then doctorFlags true args
      else if str_eq a "-h" || str_eq a "--help" then None
      else doctorFlags skipLive args
  end.

Definition liveProfile (health : option object) : string :=
  match asObj (at_ (orEmpty health) "model_policy") with
  | Some mp => match asStr (at_ mp "default_profile") with Some dp => if negb (empty_str dp) then dp else "simple" | None => "simple" end
  | None => "simple"
  end.

Definition doctorResults (skipLive : bool) : list checkResult :=
  let base := proxyBaseURL in
  let '(reach, health, answered) := checkReachable base in
  ([reach] ++ (match health with Some h => [checkAPIKey h] | None => [] end) ++
   (if answered && negb skipLive then [checkRoundTrip base (liveProfile health)] else []) ++ checkHermes base)%list.

Definition countStatus (s : checkStatus) (results : list checkResult) : Z :=
  Z.of_nat (List.length (List.filter (fun r => bool_decide (ck_status r = s)) results)).

Definition doctorUsage : list string :=
  ["Usage: calvoproxy doctor [--no-live]"; "";
   "Checks that the proxy is running, has credentials, can complete a real";
   "request, and that Hermes is wired to route through it."; "";
   "  --no-live   skip the live completion (no upstream tokens spent)"].

Definition runDoctor (version : string) (args : list string) : Z * list string :=
  match doctorFlags false args with
  | None => (0, doctorUsage)
  | Some skipLive =>
      let results := doctorResults skipLive in
      let failed := countStatus statusFail results in
      let warned := countStatus statusWarn results in
      let '(code, closing) :=
        if 0 <? failed then
          (1, (["Hermes config block (paste into config.yaml, then restart the gateway):"; ""; hermesConfigBlock (proxyBaseURL +:+ "/v1"); "";
                "The Hermes gateway does NOT reload config.yaml while running —"; "restart it after editing, or the change has no effect."; "";
                pretty failed +:+ " check(s) failed, " +:+ pretty warned +:+ " warning(s)."])%list)
        else if 0 <? warned then (0, ["All required checks passed, " +:+ pretty warned +:+ " warning(s)."])
        else (0, ["All checks passed — Hermes will route through CalvoProxy."]) in
      (code, (["CalvoProxy doctor " +:+ version; ""] ++ (results ≫= printCheck) ++ [""] ++ closing)%list)
  end.
End doctor.

(** ** Theorems *)

(** *** The verdict on the client's file *)

(** What Hermes needs to send its requests to the proxy, read with the line
    helpers: the custom provider, a loopback URL, and an entry of the same
    URL. *)
Definition hermesBinds (hostname : string -> option string) (lookupIP : string -> option (list (list Z))) (lines : list string) : Prop :=
  let modelURL := yamlNestedScalar lines "model" "base_url" in
  yamlNestedScalar lines "model" "provider" = "custom" /\ modelURL <> "" /\
  isLoopbackHost lookupIP (default "" (hostname modelURL)) = true /\
  exists entry, entry ∈ yamlListEntries (yamlBlock lines "custom_providers") /\
    normBaseURL (yamlAnyScalar entry "base_url") = normBaseURL modelURL.

Definition failing (results : list checkResult) : Prop := exists r, r ∈ results /\ ck_status r = statusFail.

Lemma failing_cons r rs : failing (r :: rs) <-> ck_status r = statusFail \/ failing rs.
Proof. unfold failing. set_solver. Qed.

Lemma failing_app l k : failing (l ++ k)%list <-> failing l \/ failing k.
Proof. unfold failing. set_solver. Qed.

Lemma selectEntry_spec modelURL entries :
  is_Some (selectEntry modelURL entries) <->
  modelURL <> "" /\ exists entry, entry ∈ entries /\ normBaseURL (yamlAnyScalar entry "base_url") = normBaseURL modelURL.
Proof.
  induction entries as [|entry entries IH]; cbn [selectEntry]; [split; [by intros [? ?]|set_solver]|].
  destruct (empty_str modelURL) eqn:Ee; cbn [negb].
  - apply empty_str_spec in Ee. rewrite andb_false_r, IH. naive_solver.
  - rewrite andb_true_r. assert (modelURL <> "") by (intros ->; by rewrite (proj2 (empty_str_spec "") eq_refl) in Ee).
    destruct (str_eq _ _) eqn:Es.
    + apply str_eq_spec in Es. split; [|done]. intros _. split; [done|]. exists entry. set_solver.
    + rewrite IH. split; [set_solver|]. intros [_ (e & [->|He]%elem_of_cons & Hn)]; [|by eauto].
      by apply str_eq_spec in Hn; rewrite Hn in Es.
Qed.

Lemma checkEntry_warns quote selected : ~ failing (checkEntry quote selected).
Proof. unfold checkEntry. intros (r & Hr & Hs). repeat case_match; set_solver. Qed.

Lemma checkProviders_fails quote lines modelURL wantURL :
  failing (checkProviders quote lines modelURL wantURL) <-> selectEntry modelURL (yamlListEntries (yamlBlock lines "custom_providers")) = None.
Proof.
  unfold checkProviders. destruct (yamlBlock lines "custom_providers") as [|l providers].
  { split; [done|]. intros _. by apply failing_cons; left. }
  destruct (selectEntry modelURL _) as [selected|].
  - rewrite failing_cons. split; [|done]. intros [H|H%checkEntry_warns]; [|done]. by destruct (negb _).
  - split; [done|]. intros _. by apply failing_cons; left.
Qed.

(** The file check fails exactly when the client would not bind to the proxy:
    no failure is reported for a file that works, and none is missed. *)
Theorem hermes_verdict_exact hostname lookupIP quote base path raw :
  failing (checkHermesFile hostname lookupIP quote base path raw) <-> ~ hermesBinds hostname lookupIP (hermesFileLines raw).
Proof.
  unfold checkHermesFile, hermesBinds. set (lines := hermesFileLines raw). set (modelURL := yamlNestedScalar lines "model" "base_url").
  rewrite !failing_cons, checkProviders_fails. unfold checkProvider, checkModelURL.
  assert (Hsel := selectEntry_spec modelURL (yamlListEntries (yamlBlock lines "custom_providers"))).
  destruct (str_eq (yamlNestedScalar lines "model" "provider") "custom") eqn:Ep; cbn [negb ck_status].
  2: { split; [|by auto]. intros _ (H & _). by apply str_eq_spec in H; rewrite H in Ep. }
  apply str_eq_spec in Ep. destruct (empty_str modelURL) eqn:Ee.
  { apply empty_str_spec in Ee. cbn [ck_status]. naive_solver. }
  assert (Hne : modelURL <> "") by (intros H; apply empty_str_spec in H; by rewrite H in Ee).
  destruct (isLoopbackHost lookupIP (default "" (hostname modelURL))) eqn:El; cbn [negb ck_status]; [|naive_solver].
  assert (Hst : forall a b c d e f, (if EqualFold (default "" (hostname modelURL)) "localhost" then mkCheck statusWarn a b c
     else if negb (str_eq (TrimRightSlash modelURL) (TrimRightSlash (base +:+ "/v1"))) then mkCheck statusWarn a d "" else mkCheck statusOK a e f)
     .(ck_status) <> statusFail).
  { intros. by repeat case_match. }
  destruct (selectEntry modelURL _) as [selected|].
  - split; [|intros H; exfalso; apply H; split_and!; try done; by apply Hsel]. intros [H|[H|[H|H]]]; try done. by apply Hst in H.
  - split; [|auto]. intros _ (_ & _ & _ & He). destruct Hsel as [_ Hsel]. by destruct Hsel.
Qed.

(** *** Lines with blanks around *)

Definition graphByte (c : ascii) : bool := byteIn 33 126 c.

Lemma strip_graph c (s : bytes) : graphByte c = true ->
  strip_any all_space_seqs (c :: s) = None /\ strip_any ((@rev ascii) <$> all_space_seqs) (c :: s) = None.
Proof. destruct c as [[] [] [] [] [] [] [] []]; try discriminate; done. Qed.

Lemma strip_blank (s : bytes) :
  strip_any all_space_seqs (" "%char :: s) = Some s /\ strip_any ((@rev ascii) <$> all_space_seqs) (" "%char :: s) = Some s.
Proof. done. Qed.

Section trim.
Context (ps : list bytes).
Hypothesis Hgraph : forall c s, graphByte c = true -> strip_any ps (c :: s) = None.
Hypothesis Hblank : forall s, strip_any ps (" "%char :: s) = Some s.

Lemma trim_left_blanks n : forall fuel c s, graphByte c = true -> (n < fuel)%nat ->
  trim_left fuel ps (repeat " "%char n ++ c :: s)%list = c :: s.
Proof.
  induction n as [|n IH]; intros [|fuel] c s Hc Hf; try lia; cbn [repeat app trim_left].
  - by rewrite Hgraph.
  - rewrite Hblank. apply IH; [done|lia].
Qed.
End trim.

Lemma rev_repeat {A} (x : A) n : rev (repeat x n) = repeat x n.
Proof. induction n as [|n IH]; [done|]. cbn [repeat rev]. by rewrite IH, <- repeat_cons. Qed.

(** Both ends are visible bytes. *)
Definition visible (l : bytes) : Prop :=
  (exists c t, l = c :: t /\ graphByte c = true) /\ exists d t, rev l = d :: t /\ graphByte d = true.

(** Trimming blanks off a core with visible ends leaves the core. *)
Lemma trim_both_core n m core : visible core -> trim_both (repeat " "%char n ++ core ++ repeat " "%char m)%list = core.
Proof.
  intros [(c & t & Hl & Hc) (d & t' & Hr & Hd)]. unfold trim_both.
  assert (Hleft : trim_left (List.length (repeat " "%char n ++ core ++ repeat " "%char m)%list) all_space_seqs
    (repeat " "%char n ++ core ++ repeat " "%char m)%list = (core ++ repeat " "%char m)%list).
  { rewrite Hl. apply (trim_left_blanks _ (fun c s H => proj1 (strip_graph c s H)) (fun s => proj1 (strip_blank s))); [done|].
    rewrite length_app, repeat_length. cbn [app List.length]. lia. }
  cbv zeta. rewrite Hleft, rev_app_distr, rev_repeat, Hr.
  rewrite (trim_left_blanks _ (fun c s H => proj2 (strip_graph c s H)) (fun s => proj2 (strip_blank s))); [|done|].
  - by rewrite <- Hr, rev_involutive.
  - rewrite length_app, repeat_length, Hl. cbn [List.length]. lia.
Qed.

Definition blanks (n : nat) : string := string_of_list_ascii (repeat " "%char n).

Lemma TrimSpace_visible n m s : visible (list_ascii_of_string s) -> TrimSpace (blanks n +:+ s +:+ blanks m) = s.
Proof.
  intros Hs. unfold TrimSpace, blanks. rewrite !list_ascii_app, !list_ascii_of_string_of_list_ascii, trim_both_core by done.
  apply string_of_list_ascii_of_string.
Qed.

Lemma topLevel_cons c s : topLevel (String c s) = negb (blank c).
Proof.
  unfold topLevel, TrimLeftSet. cbn [list_ascii_of_string dropSet]. destruct (blank c); cbn [negb].
  - apply bool_decide_eq_false_2. intros H. apply (f_equal (fun x => List.length (list_ascii_of_string x))) in H.
    rewrite list_ascii_of_string_of_list_ascii in H. cbn [list_ascii_of_string List.length] in H.
    assert (Hd : forall l, (List.length (dropSet blank l) <= List.length l)%nat).
    { induction l as [|x l IH]; cbn [dropSet]; [done|]. destruct (blank x); simpl; lia. }
    pose proof (Hd (list_ascii_of_string s)). lia.
  - apply bool_decide_eq_true_2. cbn [string_of_list_ascii]. by rewrite string_of_list_ascii_of_string.
Qed.

Lemma substring_all s : String.substring 0 (String.length s) s = s.
Proof. induction s as [|c s IH]; [done|]. cbn [String.length String.substring]. by rewrite IH. Qed.

Lemma after_app p s : after (String.length p) (p +:+ s) = s.
Proof.
  unfold after. rewrite strlen_app. replace (String.length p + String.length s - String.length p)%nat with (String.length s) by lia.
  induction p as [|c p IH]; [apply substring_all|]. change (String c p +:+ s) with (String c (p +:+ s)). exact IH.
Qed.

(** Steps of the readers on one line. *)
Lemma nested_top inParent raw lines parent child :
  negb (empty_str (TrimSpace raw) || HasPrefix (TrimSpace raw) "#") && topLevel raw = true ->
  nestedFrom inParent (raw :: lines) parent child = nestedFrom (HasPrefix raw (parent +:+ ":")) lines parent child.
Proof. intros [H1%negb_true_iff H2]%andb_true_iff. cbn [nestedFrom]. by rewrite H1, H2. Qed.

Lemma nested_other inParent raw lines parent child :
  negb (topLevel raw) && negb (HasPrefix (TrimSpace raw) (child +:+ ":")) = true ->
  nestedFrom inParent (raw :: lines) parent child = nestedFrom inParent lines parent child.
Proof.
  intros [H1%negb_true_iff H2%negb_true_iff]%andb_true_iff. cbn [nestedFrom]. rewrite H1, H2, andb_false_r. by destruct (_ || _).
Qed.

Lemma nested_found raw lines trimmed parent child :
  TrimSpace raw = trimmed -> topLevel raw = false -> empty_str trimmed || HasPrefix trimmed "#" = false ->
  HasPrefix trimmed (child +:+ ":") = true ->
  nestedFrom true (raw :: lines) parent child = scalar (after (String.length child + 1) trimmed).
Proof. intros Ht H1 H2 H3. cbn [nestedFrom]. by rewrite Ht, H1, H2, H3. Qed.

Lemma block_other raw lines key :
  negb (topLevel raw && HasPrefix raw (key +:+ ":")) = true -> yamlBlock (raw :: lines) key = yamlBlock lines key.
Proof. intros H%negb_true_iff. cbn [yamlBlock]. by rewrite H. Qed.

Lemma block_found raw lines key : topLevel raw && HasPrefix raw (key +:+ ":") = true -> yamlBlock (raw :: lines) key = blockBody lines.
Proof. intros H. cbn [yamlBlock]. by rewrite H. Qed.

Lemma body_line raw lines : topLevel raw = false -> blockBody (raw :: lines) = raw :: blockBody lines.
Proof. intros H. cbn [blockBody]. rewrite H. by destruct (_ || _). Qed.

Lemma entries_item raw block : HasPrefix (TrimSpace raw) "- " = true -> entriesFrom None (raw :: block) = entriesFrom (Some [raw]) block.
Proof. intros H. cbn [entriesFrom]. by rewrite H. Qed.

Lemma entries_other raw block c : HasPrefix (TrimSpace raw) "-" = false ->
  entriesFrom (Some c) (raw :: block) = entriesFrom (Some (c ++ [raw])%list) block.
Proof.
  intros H. cbn [entriesFrom]. assert (HasPrefix (TrimSpace raw) "- " = false) as ->.
  { unfold HasPrefix in *. destruct (TrimSpace raw) as [|c' s]; [done|]. cbn [String.prefix] in *. destruct (ascii_dec "-" c'); [by destruct s|done]. }
  destruct (str_eq (TrimSpace raw) "-") eqn:E; [|done]. apply str_eq_spec in E. by rewrite E in H.
Qed.

Lemma any_other raw lines key : HasPrefix (TrimItem raw) (key +:+ ":") = false -> yamlAnyScalar (raw :: lines) key = yamlAnyScalar lines key.
Proof. intros H. cbn [yamlAnyScalar]. by rewrite H. Qed.

Lemma any_found raw lines trimmed key : TrimItem raw = trimmed -> HasPrefix trimmed (key +:+ ":") = true ->
  yamlAnyScalar (raw :: lines) key = scalar (after (String.length key + 1) trimmed).
Proof. intros Ht H. cbn [yamlAnyScalar]. by rewrite Ht, H. Qed.

(** *** The printed block *)

(** The bytes of a URL that mean nothing to the line reader. *)
Definition plainByte (c : ascii) : bool :=
  graphByte c && negb (Ascii.eqb c "#") && negb (Ascii.eqb c quoteByte) && negb (Ascii.eqb c tickByte).

Section printed.
Context (url : string).
Hypothesis Hplain : strAll plainByte url.
Hypothesis Hne : url <> "".

Lemma url_noByte c : plainByte c = false -> noByte c url.
Proof. intros Hc. by eapply noByte_of. Qed.

Lemma url_graph c l : list_ascii_of_string url = c :: l \/ rev (list_ascii_of_string url) = c :: l -> graphByte c = true.
Proof.
  intros Hl. assert (Hc : c ∈ list_ascii_of_string url).
  { destruct Hl as [Hl|Hl]; [rewrite Hl; by left|]. apply list_elem_of_In, in_rev. rewrite Hl. by left. }
  unfold strAll in Hplain. rewrite Forall_forall in Hplain. apply Hplain in Hc. unfold plainByte in Hc. by destruct (graphByte c).
Qed.

Lemma visible_url p : match p with EmptyString => True | String c _ => graphByte c = true end -> visible (list_ascii_of_string (p +:+ url)).
Proof.
  intros Hp. rewrite list_ascii_app. split.
  - destruct p as [|c p]; cbn [list_ascii_of_string app]; [|by eauto].
    destruct (list_ascii_of_string url) as [|c l] eqn:E; [by destruct url|]. exists c, l. split; [done|]. eapply url_graph. by left.
  - rewrite rev_app_distr. destruct (rev (list_ascii_of_string url)) as [|d l] eqn:E.
    + apply (f_equal (@rev ascii)) in E. rewrite rev_involutive in E. by destruct url.
    + eexists d, _. split; [done|]. eapply url_graph. by right.
Qed.

Definition urlComment : string := "     # must be loopback (127.0.0.1), not a hostname".

Lemma trim_url_line : TrimSpace ("    base_url: " +:+ url) = "base_url: " +:+ url.
Proof.
  pose proof (TrimSpace_visible 4 0 ("base_url: " +:+ url) (visible_url "base_url: " eq_refl)) as H.
  by rewrite (right_id_L "" String.append) in H.
Qed.

Lemma trim_commented_line : TrimSpace ("  base_url: " +:+ url +:+ urlComment) = "base_url: " +:+ url +:+ urlComment.
Proof.
  pose proof (TrimSpace_visible 2 0 ("base_url: " +:+ url +:+ urlComment)) as H. rewrite (right_id_L "" String.append) in H. apply H.
  rewrite !list_ascii_app. split; [by eexists _, _|]. rewrite !rev_app_distr. by eexists _, _.
Qed.

Lemma unquote_url n : unquoteYAML (" " +:+ url +:+ blanks n) = url.
Proof.
  unfold unquoteYAML. cbv zeta.
  replace (TrimSpace (" " +:+ url +:+ blanks n)) with url by (symmetry; exact (TrimSpace_visible 1 n url (visible_url "" I))).
  destruct url as [|c [|d r]] eqn:E; [done..|]. destruct (lastByte _); [|done].
  unfold strAll in Hplain. cbn [list_ascii_of_string] in Hplain. apply Forall_cons in Hplain as [Hc _]. unfold plainByte in Hc.
  by destruct (graphByte c), (Ascii.eqb c "#"), (Ascii.eqb c quoteByte), (Ascii.eqb c tickByte).
Qed.

Lemma commentFrom_plain prev t : exists prev', commentFrom prev (url +:+ t) = url +:+ commentFrom prev' t.
Proof.
  clear Hne. revert prev Hplain. induction url as [|c s IH]; intros prev Hp; [by exists prev|].
  apply Forall_cons in Hp as [Hc Hp]. destruct (IH c Hp) as [prev' H]. exists prev'.
  change (String c s +:+ t) with (String c (s +:+ t)). cbn [commentFrom].
  replace (Ascii.eqb c "#") with false by (unfold plainByte in Hc; by destruct (graphByte c), (Ascii.eqb c "#")).
  cbn [andb]. by rewrite H.
Qed.

Lemma scalar_url : scalar (" " +:+ url) = url.
Proof.
  unfold scalar, stripYAMLComment. change (" " +:+ url) with (String " " url). destruct (commentFrom_plain " " "") as [prev H].
  rewrite (right_id_L "" String.append) in H. rewrite H. apply (unquote_url 0).
Qed.

Lemma scalar_commented : scalar (" " +:+ url +:+ urlComment) = url.
Proof.
  unfold scalar, stripYAMLComment. change (" " +:+ url +:+ urlComment) with (String " " (url +:+ urlComment)).
  destruct (commentFrom_plain " " urlComment) as [prev ->]. apply (unquote_url 5).
Qed.

Lemma CR_kept s : noByte (byte 13) s -> TrimRightSet (Ascii.eqb (byte 13)) (TrimSuffix s (String (byte 13) "")) = s.
Proof.
  intros Hs. unfold noByte, strAll in Hs. apply Forall_rev in Hs.
  assert (Hr : TrimSuffix s (String (byte 13) "") = s).
  { unfold TrimSuffix, HasSuffix. destruct (rev (list_ascii_of_string s)) as [|c l]; [done|]. apply Forall_cons in Hs as [Hc _].
    cbn [list_ascii_of_string rev app string_of_list_ascii String.prefix]. destruct (ascii_dec (byte 13) c) as [<-|]; [|done].
    by rewrite Ascii.eqb_refl in Hc. }
  rewrite Hr. unfold TrimRightSet. destruct (rev (list_ascii_of_string s)) as [|c l] eqn:E; cbn [dropSet].
  - apply (f_equal (@rev ascii)) in E. rewrite rev_involutive in E. by destruct s.
  - apply Forall_cons in Hs as [Hc _]. rewrite Ascii.eqb_sym in Hc. apply negb_true_iff in Hc. rewrite Hc, <- E, rev_involutive.
    apply string_of_list_ascii_of_string.
Qed.

Lemma hermesLines_noByte c : plainByte c = false -> c ∈ [byte 10; byte 13] -> Forall (noByte c) (hermesLines url).
Proof.
  intros Hc Hin. assert (noByte c url) by by apply url_noByte.
  assert (Hground : forall s, bool_decide (noByte (byte 10) s /\ noByte (byte 13) s) = true -> noByte c s).
  { intros s [H10 H13]%bool_decide_eq_true_1. set_solver. }
  unfold hermesLines. rewrite !Forall_cons, !noByte_app, Forall_nil.
  split_and!; try done; apply Hground; by vm_compute.
Qed.

Lemma fitting_all ls : Forall (fun l => Z.of_nat (String.length l) < maxScanLine) ls -> fitting ls = ls.
Proof. induction 1 as [|l ls Hl Hls IH]; [done|]. cbn [fitting]. apply Z.ltb_lt in Hl. by rewrite Hl, IH. Qed.

(** Reading the printed block gives its lines back. *)
Lemma hermesFileLines_block : Z.of_nat (String.length url) < 1000000 -> hermesFileLines (hermesConfigBlock url) = hermesLines url.
Proof.
  intros Hlen. unfold hermesFileLines, scanLines, hermesConfigBlock, newline.
  replace (TrimPrefix (String.concat (String (byte 10) "") (hermesLines url)) byteOrderMark)
    with (String.concat (String (byte 10) "") (hermesLines url)) by done.
  rewrite split_on_concat by (try done; by apply hermesLines_noByte; [|set_solver]).
  change (dropLastEmpty (hermesLines url)) with (hermesLines url). rewrite fitting_all.
  - rewrite <- list_fmap_compose. rewrite <- (list_fmap_id (hermesLines url)) at 2. apply list_fmap_ext. intros i l Hl.
    apply CR_kept. assert (Hall : Forall (noByte (byte 13)) (hermesLines url)) by (apply hermesLines_noByte; [done|set_solver]).
    rewrite Forall_lookup in Hall. by eapply Hall.
  - unfold hermesLines. rewrite !Forall_cons, Forall_nil, !strlen_app, !Nat2Z.inj_add. unfold maxScanLine. cbn [String.length]. split_and!; lia.
Qed.

Lemma item_url_line : TrimItem ("    base_url: " +:+ url) = "base_url: " +:+ url.
Proof.
  unfold TrimItem. rewrite trim_url_line. change (TrimPrefix ("base_url: " +:+ url) "- ") with ("base_url: " +:+ url).
  pose proof (TrimSpace_visible 0 0 ("base_url: " +:+ url) (visible_url "base_url: " eq_refl)) as H.
  by rewrite (right_id_L "" String.append) in H.
Qed.

Lemma block_provider : yamlNestedScalar (hermesLines url) "model" "provider" = "custom".
Proof. done. Qed.

Lemma block_modelURL : yamlNestedScalar (hermesLines url) "model" "base_url" = url.
Proof.
  unfold yamlNestedScalar, hermesLines. fold urlComment.
  rewrite nested_top by by vm_compute. rewrite !nested_other by by vm_compute. rewrite (nested_found _ _ ("base_url: " +:+ url +:+ urlComment)).
  - change (String.length "base_url" + 1)%nat with (String.length "base_url:").
    change ("base_url: " +:+ url +:+ urlComment) with ("base_url:" +:+ (" " +:+ url +:+ urlComment)). rewrite after_app. apply scalar_commented.
  - by apply trim_commented_line.
  - exact (topLevel_cons " " _).
  - done.
  - done.
Qed.

Definition hermesItem : list string :=
  ["  - name: calvoproxy"; "    base_url: " +:+ url; "    api_key: dummy"; "    api_mode: chat_completions";
   "    discover_models: false   # the proxy does not expose /v1/models"; "    models:"; "      coding:    {context_length: 128000}";
   "      simple:    {context_length: 128000}"; "      reasoning: {context_length: 128000}"; "      vision:    {context_length: 128000}"].

Lemma block_providers : yamlBlock (hermesLines url) "custom_providers" = hermesItem.
Proof.
  unfold hermesLines. fold urlComment. rewrite !block_other by by vm_compute.
  rewrite block_found by by vm_compute. rewrite !body_line by by vm_compute. done.
Qed.

Lemma block_entries : yamlListEntries hermesItem = [hermesItem].
Proof.
  unfold yamlListEntries, hermesItem. rewrite entries_item by by vm_compute. rewrite entries_other.
  - rewrite !entries_other by by vm_compute. done.
  - by rewrite trim_url_line.
Qed.

Lemma item_baseURL : yamlAnyScalar hermesItem "base_url" = url.
Proof.
  unfold hermesItem. rewrite any_other by by vm_compute. rewrite (any_found _ _ ("base_url: " +:+ url)); [|apply item_url_line|done].
  change (String.length "base_url" + 1)%nat with (String.length "base_url:").
  change ("base_url: " +:+ url) with ("base_url:" +:+ (" " +:+ url)). rewrite after_app. apply scalar_url.
Qed.

Lemma item_discover : yamlAnyScalar hermesItem "discover_models" = "false".
Proof.
  unfold hermesItem. rewrite any_other by by vm_compute. rewrite any_other by by rewrite item_url_line. done.
Qed.

Lemma item_apiMode : yamlAnyScalar hermesItem "api_mode" = "chat_completions".
Proof.
  unfold hermesItem. rewrite any_other by by vm_compute. rewrite any_other by by rewrite item_url_line. done.
Qed.
End printed.

(** The block the command prints is one it accepts: pasted into the client's
    file, for a proxy at a loopback address, every check of the file is
    green. *)
Theorem printed_block_passes hostname lookupIP quote base path host :
  let url := base +:+ "/v1" in
  strAll plainByte url -> Z.of_nat (String.length url) < 1000000 ->
  hostname url = Some host -> isLoopbackHost lookupIP host = true -> EqualFold host "localhost" = false ->
  Forall (fun r => ck_status r = statusOK) (checkHermesFile hostname lookupIP quote base path (hermesConfigBlock url)).
Proof.
  intros url Hp Hlen Hh Hl Hn. assert (Hne : url <> "") by (unfold url; by destruct base).
  unfold checkHermesFile. rewrite (hermesFileLines_block url) by done. unfold checkProvider, checkModelURL, checkProviders.
  rewrite block_provider, block_modelURL, block_providers by done.
  assert (Hsel : selectEntry url (yamlListEntries (hermesItem url)) = Some (hermesItem url)).
  { rewrite block_entries by done. cbn [selectEntry]. rewrite item_baseURL by done. unfold str_eq, empty_str.
    by rewrite (bool_decide_true (normBaseURL url = normBaseURL url)), (bool_decide_false (url = "")) by done. }
  unfold hermesItem at 1. fold (hermesItem url). rewrite Hsel. unfold empty_str, str_eq.
  rewrite (bool_decide_false (url = "")) by done. rewrite Hh. cbn [default]. unfold default, from_option, id. rewrite Hl, Hn.
  fold url. rewrite item_baseURL by done. rewrite !bool_decide_true by done. unfold checkEntry. rewrite item_discover, item_apiMode by done.
  cbn [negb]. repeat constructor.
Qed.

(** *** The exit code *)

Lemma countStatus_pos s results : 0 < countStatus s results <-> exists r, r ∈ results /\ ck_status r = s.
Proof.
  unfold countStatus. induction results as [|r results IH]; cbn [List.filter List.length]; [split; [lia|set_solver]|].
  destruct (bool_decide_reflect (ck_status r = s)) as [Hr|Hr]; cbn [List.length].
  - split; [|lia]. intros _. exists r. set_solver.
  - rewrite IH. set_solver.
Qed.

(** The command fails exactly when a check failed; warnings alone do not fail
    it. *)
Theorem doctor_exit_code env home configDir join fileExists readFile hostname lookupIP quote send badURL decodeHealth decodeModel version args skipLive :
  doctorFlags false args = Some skipLive ->
  let results := doctorResults env home configDir join fileExists readFile hostname lookupIP quote send badURL decodeHealth decodeModel skipLive in
  let code := (runDoctor env home configDir join fileExists readFile hostname lookupIP quote send badURL decodeHealth decodeModel version args).1 in
  (failing results -> code = 1) /\ (~ failing results -> code = 0).
Proof.
  intros Hf results code. subst code. unfold runDoctor. rewrite Hf. fold results. unfold failing. rewrite <- countStatus_pos.
  destruct (Z.ltb_spec 0 (countStatus statusFail results)); [by split; [|lia]|]. split; [lia|]. by destruct (0 <? countStatus statusWarn results).
Qed.

(** *** Where the line reader is not YAML *)

Definition unindented (url : string) : string :=
  String.concat newline
    ["model:"; "  provider: custom"; "  base_url: " +:+ url; "custom_providers:"; "- name: calvoproxy"; "  base_url: " +:+ url].

(** The items of a list may stand at the indentation of its key, and then end
    the block for this reader: a working file is reported to have no
    custom_providers entry. *)
Theorem unindented_list_is_rejected :
  let url := "http://127.0.0.1:8080/v1" in
  checkProviders id (hermesFileLines (unindented url)) url url =
    [mkCheck statusFail "custom_providers entry exists" "`provider: custom` alone is not enough — Hermes matches the provider by base_url."
       "Add the custom_providers block printed below."].
Proof. by vm_compute. Qed.

(** A top-level key without a body is reported absent. *)
Theorem bare_key_is_absent : yamlHasTopLevelKey ["model:"] "model" = false /\ yamlHasTopLevelKey ["a: b"; "model: x"] "model" = false.
Proof. by vm_compute. Qed.

(** A key below a nested one is read as if it were a child of the parent. *)
Theorem nested_scalar_reads_deeper :
  yamlNestedScalar ["model:"; "  fallback:"; "    base_url: http://far"; "  base_url: http://127.0.0.1:8080/v1"] "model" "base_url" = "http://far".
Proof. by vm_compute. Qed.

(** ** Witnesses *)

Lemma printed_block_passes_witness :
  let url := "http://127.0.0.1:8080/v1" in
  Forall (fun r => ck_status r = statusOK)
    (checkHermesFile (fun _ => Some "127.0.0.1") (fun _ => None) id "http://127.0.0.1:8080" "config.yaml" (hermesConfigBlock url)).
Proof.
  apply (printed_block_passes (fun _ => Some "127.0.0.1") (fun _ => None) id "http://127.0.0.1:8080" "config.yaml" "127.0.0.1").
  - vm_compute. by repeat constructor.
  - by vm_compute.
  - done.
  - by vm_compute.
  - by vm_compute.
Defined.

Lemma doctor_exit_code_witness :
  (runDoctor ∅ None None (fun _ => "") (fun _ => false) (fun _ => inl "none") (fun _ => None) (fun _ => None) id
     (fun _ _ _ _ => inl "connection refused") (fun _ => None) (fun _ => None) (fun _ => "") "dev" ["--no-live"]).1 = 1.
Proof.
  apply (doctor_exit_code ∅ None None (fun _ => "") (fun _ => false) (fun _ => inl "none") (fun _ => None) (fun _ => None) id
     (fun _ _ _ _ => inl "connection refused") (fun _ => None) (fun _ => None) (fun _ => "") "dev" ["--no-live"] true eq_refl).
  apply countStatus_pos. by vm_compute.
Defined.
