(* ===== verification/Flags.v ===== *)
(** * Flags: what the commands use of Go's package flag

    A flag set is the list of its flags with whether each is boolean.  Parsing
    gives the settings in the order they were made and the arguments left, or
    an error: an unknown flag, a malformed one, a missing or unreadable
    value, or a request for help. *)

From S2P Require Import Prelude Text Split.
From Stdlib Require Import Lia ZArith String Ascii.
#[local] Open Scope string_scope.

(** [strconv.ParseBool] *)
Definition ParseBool (s : string) : option bool :=
  if existsb (str_eq s) ["1"; "t"; "T"; "true"; "TRUE"; "True"] then Some true
  else if existsb (str_eq s) ["0"; "f"; "F"; "false"; "FALSE"; "False"] then Some false
  else None.

Section flags.
Context (defs : list (string * bool)).

Fixpoint isBool (name : string) (l : list (string * bool)) : option bool :=
  match l with [] => None | (n, b) :: l => if str_eq n name then Some b else isBool name l end.

(** The name of a flag without its dashes; [None] is not a flag. *)
Definition flagName (s : string) : option string :=
  match s with
  | String "-" (String "-" name) => Some name
  | String "-" (String c r) => Some (String c r)
  | _ => None
  end.

Definition malformed (name : string) : bool := empty_str name || HasPrefix name "-" || HasPrefix name "=".

(** [FlagSet.Parse]; the settings are names with the text of their value. *)
Fixpoint parseFlags (args : list string) : option (list (string * string) * list string) :=
  match args with
  | [] => Some ([], [])
  | s :: rest =>
      match flagName s with
      | None => Some ([], args)
      | Some name =>
          if str_eq s "--" then Some ([], rest)
          else if malformed name then None
          else
            let '(name, value) := cut "=" name in
            match isBool name defs, value with
            | None, _ => None
            | Some true, Some v =>
                match ParseBool v with
                | None => None
                | Some _ => match parseFlags rest with Some (set, others) => Some ((name, v) :: set, others) | None => None end
                end
            | Some true, None => match parseFlags rest with Some (set, others) => Some ((name, "true") :: set, others) | None => None end
            | Some false, Some v => match parseFlags rest with Some (set, others) => Some ((name, v) :: set, others) | None => None end
            | Some false, None =>
                match rest with
                | [] => None
                | v :: rest => match parseFlags rest with Some (set, others) => Some ((name, v) :: set, others) | None => None end
                end
            end
      end
  end.

(** The flag that stops the parse is an undefined help flag. *)
Fixpoint helpAsked (args : list string) : bool :=
  match args with
  | [] => false
  | s :: rest =>
      match flagName s with
      | None => false
      | Some name =>
          if str_eq s "--" || malformed name then false
          else
            let '(name, value) := cut "=" name in
            match isBool name defs, value with
            | None, _ => str_eq name "help" || str_eq name "h"
            | Some true, Some v => match ParseBool v with Some _ => helpAsked rest | None => false end
            | Some true, None | Some false, Some _ => helpAsked rest
            | Some false, None => match rest with [] => false | _ :: rest => helpAsked rest end
            end
      end
  end.

(** How [flag.ExitOnError] ends the process on an error. *)
Definition exitOnError (args : list string) : Z := if helpAsked args then 0 else 2.
End flags.

(** The value of a flag: the last setting, or the default. *)
Definition flagValue (set : list (string * string)) (name def : string) : string :=
  fold_left (fun acc '(n, v) => if str_eq n name then v else acc) set def.

Definition flagBool (set : list (string * string)) (name : string) : bool := default false (ParseBool (flagValue set name "false")).
