(* ===== verification/Setup.v ===== *)
(** * Setup: wiring a client to the proxy (cmd/setup.go)

    The command edits the configuration of another program, so what matters is
    what it leaves on disk.  The disk is the files by path and the backup
    directory by file name; a write succeeds, is refused, or fails after the
    file was truncated and some of it written.  The three integrations are
    values of the record [Integration], the interface of the source.  The JSON
    codec, quoting, the joining of paths and the home directories are
    arguments. *)

From S2P Require Import Prelude Env Text Split Net Float Json Doctor Flags.
From Stdlib Require Import Lia ZArith String Ascii.
#[local] Open Scope string_scope.
#[local] Open Scope nat_scope.

(** ** The disk *)

Record world := mkWorld { files : gmap string string; backups : gmap string string }.

(** How [os.WriteFile] ends; [Torn n] leaves the first [n] bytes. *)
Inductive writeEnd := Written | Refused | Torn (n : nat).

Definition writeFile (e : writeEnd) (path content : string) (m : gmap string string) : gmap string string * bool :=
  match e with
  | Written => (<[path := content]> m, true)
  | Refused => (m, false)
  | Torn n => (<[path := String.substring 0 n content]> m, false)
  end.

Definition setFiles (m : gmap string string) (w : world) : world := mkWorld m (backups w).
Definition setBackups (m : gmap string string) (w : world) : world := mkWorld (files w) m.

(** What the operating system does during one run: whether the backup
    directory can be made, the clock, and how the two writes end. *)
Record setupRun := mkSetupRun {
  su_mkdir : bool;
  su_stamp : string;
  su_backupWrite : writeEnd;
  su_configWrite : writeEnd;
}.

Inductive integrationState := stateMissing | stateStale | stateConfigured.

Inductive setupError := ErrApplyNotSupported | ErrOther.

(** [Panicked]: the run ends in a runtime panic. *)
Inductive applied := Applied (backup : string) | NotApplied (e : setupError) | Panicked.

Record Integration := mkIntegration {
  in_Name : string;
  in_ConfigPath : world -> string;
  in_Render : string -> string;
  in_Current : world -> string -> string -> integrationState;
  in_Apply : setupRun -> string -> string -> world -> applied * world;
}.

(** ** Backups *)

Section setup.
Context (env : environ) (home configDir : option string) (join : list string -> string) (quote : string -> string)
        (decodeJSON : string -> option (option object)) (encodeJSON : object -> option string).

Definition exists_ (w : world) (path : string) : bool := bool_decide (is_Some (files w !! path)).

Definition backupDir : string :=
  match configDir with Some base => if empty_str base then "" else join [base; "calvoproxy"; "backups"] | None => "" end.

Definition backupName (tool stamp : string) : string := tool +:+ "-" +:+ stamp +:+ ".bak".

Definition backupFile (run : setupRun) (tool path : string) (w : world) : option string * world :=
  if empty_str backupDir then (None, w)
  else if negb (su_mkdir run) then (None, w)
  else match files w !! path with
       | None => (None, w)
       | Some content =>
           let name := backupName tool (su_stamp run) in
           let '(m, ok) := writeFile (su_backupWrite run) name content (backups w) in
           (if ok then Some name else None, setBackups m w)
       end.

(** [sort.Strings]: the order of the bytes. *)
Definition later (a b : string) : string := match String.compare a b with Gt => a | _ => b end.

Definition isBackupOf (tool name : string) : bool := HasPrefix name (tool +:+ "-") && HasSuffix name ".bak".

Definition matches (tool : string) (w : world) : list string :=
  List.filter (isBackupOf tool) (map_to_list (backups w)).*1.

Definition latestBackup (tool : string) (w : world) : string :=
  if empty_str backupDir then "" else fold_left later (matches tool w) "".

Definition revertIntegration (target : Integration) (e : writeEnd) (w : world) : Z * list string * world :=
  let tag := "[" +:+ in_Name target +:+ "] " in
  let backup := latestBackup (in_Name target) w in
  if empty_str backup then (1%Z, [tag +:+ "there is no backup to restore."], w)
  else
    let path := in_ConfigPath target w in
    if empty_str path then (1%Z, [tag +:+ "not found; there is nowhere to restore to."], w)
    else match backups w !! backup with
         | None => (1%Z, ["       could not read the backup"], w)
         | Some content =>
             let '(m, ok) := writeFile e path content (files w) in
             if ok then (0%Z, [tag +:+ "restored from " +:+ backup], setFiles m w) else (1%Z, ["       could not restore"], setFiles m w)
         end.

(** ** Hermes *)

Definition hermesCurrent (w : world) (path baseURL : string) : integrationState :=
  match files w !! path with
  | None => stateMissing
  | Some content =>
      let got := normBaseURL (yamlNestedScalar (split_on (byte 10) content) "model" "base_url") in
      if empty_str got then stateMissing
      else if str_eq got (normBaseURL (baseURL +:+ "/v1")) then stateConfigured
      else stateStale
  end.

Definition hermesIntegration : Integration :=
  mkIntegration "hermes" (fun w => hermesConfigPath env home join (exists_ w)) (fun baseURL => hermesConfigBlock (baseURL +:+ "/v1"))
    hermesCurrent (fun _ _ _ w => (NotApplied ErrApplyNotSupported, w)).

(** ** Claude Code *)

Definition underHome (parts : list string) (w : world) : string :=
  match home with
  | Some h => if empty_str h then "" else let p := join (h :: parts) in if exists_ w p then p else ""
  | None => ""
  end.

Definition claudeRender (baseURL : string) : string :=
  let q := String quoteByte "" in
  String.concat newline
    ["{"; "  " +:+ q +:+ "env" +:+ q +:+ ": {"; "    " +:+ q +:+ "ANTHROPIC_BASE_URL" +:+ q +:+ ": " +:+ quote baseURL +:+ ",";
     "    " +:+ q +:+ "ANTHROPIC_AUTH_TOKEN" +:+ q +:+ ": " +:+ q +:+ "dummy" +:+ q; "  }"; "}"].

Definition claudeCurrent (w : world) (path baseURL : string) : integrationState :=
  match files w !! path with
  | None => stateMissing
  | Some content =>
      match decodeJSON content with
      | None => stateStale
      | Some parsed =>
          let env := orEmpty (asObj (at_ (orEmpty parsed) "env")) in
          let got := strAt env "ANTHROPIC_BASE_URL" in
          if empty_str got then stateMissing
          else if str_eq (normBaseURL got) (normBaseURL baseURL) then stateConfigured
          else stateStale
      end
  end.

(** The merge; the assignment to a nil map, which JSON null decodes to,
    panics. *)
Definition claudeMerge (baseURL : string) (parsed : object) : object :=
  let env := orEmpty (asObj (at_ parsed "env")) in
  <["env" := JObj (<["ANTHROPIC_AUTH_TOKEN" := JStr "dummy"]> (<["ANTHROPIC_BASE_URL" := JStr baseURL]> env))]> parsed.

Definition claudeApply (run : setupRun) (path baseURL : string) (w : world) : applied * world :=
  match files w !! path with
  | None => (NotApplied ErrOther, w)
  | Some content =>
      match decodeJSON content with
      | None => (NotApplied ErrOther, w)
      | Some parsed =>
          match backupFile run "claude-code" path w with
          | (None, w) => (NotApplied ErrOther, w)
          | (Some backup, w) =>
              match parsed with
              | None => (Panicked, w)
              | Some parsed =>
                  match encodeJSON (claudeMerge baseURL parsed) with
                  | None => (NotApplied ErrOther, w)
                  | Some encoded =>
                      let '(m, ok) := writeFile (su_configWrite run) path (encoded +:+ newline) (files w) in
                      (if ok then Applied backup else NotApplied ErrOther, setFiles m w)
                  end
              end
          end
      end
  end.

Definition claudeCodeIntegration : Integration :=
  mkIntegration "claude-code" (underHome [".claude"; "settings.json"]) claudeRender claudeCurrent claudeApply.

(** ** Codex *)

Definition codexBlockStart : string := "# >>> calvoproxy >>>".
Definition codexBlockEnd : string := "# <<< calvoproxy <<<".

Definition quoted (s : string) : string := String quoteByte "" +:+ s +:+ String quoteByte "".

Definition codexRender (baseURL : string) : string :=
  String.concat newline
    [codexBlockStart; "model_provider = " +:+ quoted "calvoproxy"; ""; "[model_providers.calvoproxy]"; "name = " +:+ quoted "CalvoProxy";
     "base_url = " +:+ quoted (baseURL +:+ "/v1"); "wire_api = " +:+ quoted "chat"; codexBlockEnd].

Definition codexCurrent (w : world) (path baseURL : string) : integrationState :=
  match files w !! path with
  | None => stateMissing
  | Some text =>
      if negb (Contains text codexBlockStart) then stateMissing
      else if Contains text ("base_url = " +:+ quoted (baseURL +:+ "/v1")) then stateConfigured
      else stateStale
  end.

Definition replaceMarkedBlock (existing block : string) : string :=
  let append :=
    let existing := if negb (empty_str existing) && negb (HasSuffix existing newline) then existing +:+ newline else existing in
    existing +:+ newline +:+ block +:+ newline in
  match String.index 0 codexBlockStart existing, String.index 0 codexBlockEnd existing with
  | Some start, Some finish =>
      if start <? finish
      then String.substring 0 start existing +:+ block +:+ after (finish + String.length codexBlockEnd) existing
      else append
  | _, _ => append
  end.

Definition codexApply (run : setupRun) (path baseURL : string) (w : world) : applied * world :=
  match files w !! path with
  | None => (NotApplied ErrOther, w)
  | Some content =>
      match backupFile run "codex" path w with
      | (None, w) => (NotApplied ErrOther, w)
      | (Some backup, w) =>
          let '(m, ok) := writeFile (su_configWrite run) path (replaceMarkedBlock content (codexRender baseURL)) (files w) in
          (if ok then Applied backup else NotApplied ErrOther, setFiles m w)
      end
  end.

Definition codexIntegration : Integration :=
  mkIntegration "codex" (underHome [".codex"; "config.toml"]) codexRender codexCurrent codexApply.

(** ** The command *)

Definition integrations : list Integration := [hermesIntegration; claudeCodeIntegration; codexIntegration].

(** [wantsValue]: --url takes the next argument. *)
Definition wantsValue (a : string) : bool := negb (hasByte "=" a) && str_eq (TrimLeftSet (Ascii.eqb "-"%char) a) "url".

Fixpoint splitToolAndFlags (tool : string) (args : list string) : string * list string :=
  match args with
  | [] => (tool, [])
  | a :: rest =>
      if HasPrefix a "-" then
        if wantsValue a then
          match rest with
          | v :: rest => let '(tool, flags) := splitToolAndFlags tool rest in (tool, a :: v :: flags)
          | [] => (tool, [a])
          end
        else let '(tool, flags) := splitToolAndFlags tool rest in (tool, a :: flags)
      else splitToolAndFlags (if empty_str tool then a else tool) rest
  end.

Definition setupFlags : list (string * bool) := [("apply", true); ("revert", true); ("list", true); ("url", false)].

Definition describeState (t : Integration) (w : world) : string :=
  let path := in_ConfigPath t w in if empty_str path then "(not found)" else path.

(** [%-12s] *)
Definition padName (s : string) : string := s +:+ blanks (12 - String.length s).

Fixpoint findTool (name : string) (l : list Integration) : option Integration :=
  match l with [] => None | t :: l => if str_eq (in_Name t) name then Some t else findTool name l end.

(** The exit code, [None] for a panic; what is printed; the disk. *)
Definition runSetup (args : list string) (run : setupRun) (w : world) : option Z * list string * world :=
  let '(toolName, flagArgs) := splitToolAndFlags "" args in
  match parseFlags setupFlags flagArgs with
  | None => (Some 2%Z, [], w)
  | Some (set, _) =>
      if flagBool set "list" then
        (Some 0%Z, "Available integrations:" :: ((fun t => "  " +:+ padName (in_Name t) +:+ " " +:+ describeState t w) <$> integrations), w)
      else if empty_str toolName then
        (Some 2%Z, ["usage: calvoproxy setup <hermes|claude-code|codex> [--apply] [--revert] [--url URL]"; "     calvoproxy setup --list"], w)
      else match findTool toolName integrations with
           | None => (Some 2%Z, ["unknown tool: " +:+ toolName; "known tools: " +:+ String.concat ", " (in_Name <$> integrations)], w)
           | Some target =>
               let base := TrimRightSlash (flagValue set "url" "") in
               let base := if empty_str base then TrimRightSlash (proxyBaseURL env) else base in
               if flagBool set "revert" then
                 let '(code, out, w) := revertIntegration target (su_configWrite run) w in (Some code, out, w)
               else
                 let path := in_ConfigPath target w in
                 if empty_str path then
                   (Some 1%Z, ["[" +:+ in_Name target +:+ "] not found on this machine.";
                               "       Install it first; no configuration is created blind for a tool that is not there."], w)
                 else
                   let head := "[" +:+ in_Name target +:+ "] " +:+ path in
                   match in_Current target w path base with
                   | stateConfigured => (Some 0%Z, [head; "       already configured for this proxy — nothing to do."], w)
                   | current =>
                       let note := match current with stateMissing => "       not configured for the proxy." | _ => "       points somewhere else; it needs updating." end in
                       if negb (flagBool set "apply") then
                         (Some 0%Z, [head; note; ""; "Block that would be written (use --apply to write it):"; ""; in_Render target base], w)
                       else match in_Apply target run path base w with
                            | (NotApplied ErrApplyNotSupported, w) =>
                                (Some 0%Z, [head; note; ""; "       This integration is not written automatically: its YAML is";
                                  "       inspected with a heuristic, and a heuristic that reads must not";
                                  "       write. Paste this block by hand and restart the gateway:"; ""; in_Render target base], w)
                            | (NotApplied ErrOther, w) => (Some 1%Z, [head; note; "       could not write"], w)
                            | (Panicked, w) => (None, [head; note], w)
                            | (Applied backup, w) =>
                                (Some 0%Z, [head; note; "       written. Backup: " +:+ backup; "       revert with: calvoproxy setup " +:+ in_Name target +:+ " --revert";
                                  "       restart the tool: none of them reload their config while running."], w)
                            end
                   end
           end
  end.
End setup.

(** ** Theorems *)

(** *** Every write has its backup *)

(** What the command relies on: an integration that writes has first put the
    bytes of the file aside, and touches nothing but that file and that
    backup. *)
Class Careful (t : Integration) : Prop := careful : forall run path base w r w',
  in_Apply t run path base w = (r, w') ->
  let name := backupName (in_Name t) (su_stamp run) in
  (forall n, n <> name -> backups w' !! n = backups w !! n) /\
  (files w' = files w \/
   exists content, files w !! path = Some content /\ backups w' !! name = Some content /\ is_Some (files w' !! path) /\
     forall other, other <> path -> files w' !! other = files w !! other).

Lemma backupFile_spec configDir join run tool path w r w' :
  backupFile configDir join run tool path w = (r, w') ->
  files w' = files w /\ (forall n, n <> backupName tool (su_stamp run) -> backups w' !! n = backups w !! n) /\
  (is_Some r -> empty_str (backupDir configDir join) = false /\ exists content, files w !! path = Some content /\ backups w' !! backupName tool (su_stamp run) = Some content).
Proof.
  unfold backupFile. destruct (empty_str (backupDir configDir join)); [intros [= <- <-]; by split_and!; try intros [? ?]|].
  destruct (su_mkdir run); cbn [negb]; [|intros [= <- <-]; by split_and!; try intros [? ?]].
  destruct (files w !! path) as [content|] eqn:Ef; [|intros [= <- <-]; by split_and!; try intros [? ?]].
  destruct (su_backupWrite run); cbn [writeFile]; intros [= <- <-]; cbn [setBackups files backups].
  - split_and!; [done|intros n Hn; by rewrite lookup_insert_ne by congruence|]. intros _. split; [done|]. exists content. by rewrite lookup_insert_eq.
  - by split_and!; try intros [? ?].
  - split_and!; [done|intros n' Hn; by rewrite lookup_insert_ne by congruence|by intros [? ?]].
Qed.

Lemma writeFile_at e path content m m' ok : writeFile e path content m = (m', ok) ->
  (m' = m \/ is_Some (m' !! path)) /\ (forall other, other <> path -> m' !! other = m !! other).
Proof.
  destruct e; cbn [writeFile]; intros [= <- <-]; (split; [|intros; by rewrite ?lookup_insert_ne by congruence]); [right|by left|right].
  all: by rewrite lookup_insert_eq.
Qed.

(** The write that follows a backup. *)
Lemma backed_up_write configDir join run tool path w w1 name content m ok :
  backupFile configDir join run tool path w = (Some name, w1) -> writeFile (su_configWrite run) path content (files w1) = (m, ok) ->
  (forall n, n <> backupName tool (su_stamp run) -> backups (setFiles m w1) !! n = backups w !! n) /\
  (files (setFiles m w1) = files w \/
   exists original, files w !! path = Some original /\ backups (setFiles m w1) !! backupName tool (su_stamp run) = Some original /\
     is_Some (files (setFiles m w1) !! path) /\ forall other, other <> path -> files (setFiles m w1) !! other = files w !! other).
Proof.
  intros Hb Hw. apply backupFile_spec in Hb as (Hf & Hn & Hc). destruct (Hc (mk_is_Some _ _ eq_refl)) as (_ & original & Ho & Hbk).
  split; [done|]. apply writeFile_at in Hw as [Hm Ho']. rewrite Hf in Hm, Ho'. cbn [setFiles files backups].
  destruct Hm as [->|Hm]; [by left|]. right. by exists original.
Qed.

#[export] Instance hermes_careful env home join : Careful (hermesIntegration env home join).
Proof. intros run path base w r w' [= <- <-]. by split; [|left]. Qed.

#[export] Instance claude_careful home configDir join quote decodeJSON encodeJSON :
  Careful (claudeCodeIntegration home configDir join quote decodeJSON encodeJSON).
Proof.
  intros run path base w r w'. cbn [in_Apply claudeCodeIntegration in_Name]. unfold claudeApply.
  destruct (files w !! path) as [content|] eqn:Ef; [rewrite <- Ef|intros [= <- <-]; by split; [|left]].
  destruct (decodeJSON content) as [parsed|]; [|intros [= <- <-]; by split; [|left]].
  destruct (backupFile _ _ _ _ _ w) as [[name|] w1] eqn:Eb; cycle 1.
  { intros [= <- <-]. apply backupFile_spec in Eb as (? & ? & _). by split; [|left]. }
  assert (Hsame : files w1 = files w /\ forall n, n <> backupName "claude-code" (su_stamp run) -> backups w1 !! n = backups w !! n)
    by (apply backupFile_spec in Eb as (? & ? & _); done).
  destruct parsed as [parsed|]; [|intros [= <- <-]; destruct Hsame; by split; [|left]].
  destruct (encodeJSON (claudeMerge base parsed)) as [encoded|]; [|intros [= <- <-]; destruct Hsame; by split; [|left]].
  destruct (writeFile _ _ _ _) as [m ok] eqn:Ew. intros [= <- <-]. exact (backed_up_write _ _ _ _ _ _ _ _ _ _ _ Eb Ew).
Qed.

#[export] Instance codex_careful home configDir join : Careful (codexIntegration home configDir join).
Proof.
  intros run path base w r w'. cbn [in_Apply codexIntegration in_Name]. unfold codexApply.
  destruct (files w !! path) as [content|] eqn:Ef; [rewrite <- Ef|intros [= <- <-]; by split; [|left]].
  destruct (backupFile _ _ _ _ _ w) as [[name|] w1] eqn:Eb; cycle 1.
  { intros [= <- <-]. apply backupFile_spec in Eb as (? & ? & _). by split; [|left]. }
  destruct (writeFile _ _ _ _) as [m ok] eqn:Ew. intros [= <- <-]. exact (backed_up_write _ _ _ _ _ _ _ _ _ _ _ Eb Ew).
Qed.

Lemma findTool_in name l t : findTool name l = Some t -> t ∈ l /\ in_Name t = name.
Proof.
  induction l as [|t' l IH]; cbn [findTool]; [done|]. destruct (str_eq (in_Name t') name) eqn:E.
  - intros [= <-]. apply str_eq_spec in E. set_solver.
  - intros H. destruct (IH H). set_solver.
Qed.

Lemma integrations_careful env home configDir join quote decodeJSON encodeJSON t :
  t ∈ integrations env home configDir join quote decodeJSON encodeJSON -> Careful t.
Proof. unfold integrations. rewrite !elem_of_cons, elem_of_nil. intros [->|[->|[->|[]]]]; apply _. Qed.

(** The command only reports unless it is told to write, and whatever way a
    write ends, the file it changed is the one of the named tool and a backup
    of this run holds the bytes that file had. *)
Theorem setup_changes_are_backed_up env home configDir join quote decodeJSON encodeJSON args run w :
  let '(toolName, flagArgs) := splitToolAndFlags "" args in
  let set := default [] (fst <$> parseFlags setupFlags flagArgs) in
  let '(_, _, w') := runSetup env home configDir join quote decodeJSON encodeJSON args run w in
  (flagBool set "apply" = false -> flagBool set "revert" = false -> w' = w) /\
  (flagBool set "revert" = false -> forall p, files w' !! p <> files w !! p ->
     backups w' !! backupName toolName (su_stamp run) = files w !! p /\
     exists t, findTool toolName (integrations env home configDir join quote decodeJSON encodeJSON) = Some t /\ p = in_ConfigPath t w).
Proof.
  unfold runSetup. destruct (splitToolAndFlags "" args) as [toolName flagArgs]. destruct (parseFlags setupFlags flagArgs) as [[set rest]|]; [|done].
  cbn [fmap option_fmap option_map fst]. change (default [] (Some set)) with set. destruct (flagBool set "list"); [done|]. destruct (empty_str toolName); [done|].
  destruct (findTool toolName _) as [target|] eqn:Et; [|done]. cbv zeta. destruct (flagBool set "revert").
  { destruct (revertIntegration _ _ _ _ _) as [[code out] w']. done. }
  destruct (empty_str (in_ConfigPath target w)); [done|].
  destruct (in_Current target w _ _); [| |done].
  all: destruct (flagBool set "apply"); cbn [negb]; [|done].
  all: destruct (in_Apply target run _ _ w) as [res w'] eqn:Ea; destruct (findTool_in _ _ _ Et) as [Hin <-].
  all: apply integrations_careful in Hin; apply careful in Ea as [_ Hc]; destruct res as [b|[]|]; (split; [done|]); intros _ p Hp.
  all: destruct Hc as [Hc|(content & Hf & Hb & _ & Ho)]; [by rewrite Hc in Hp|].
  all: destruct (decide (p = in_ConfigPath target w)) as [->|Hne]; [rewrite Hf, Hb; by eauto|by rewrite Ho in Hp].
Qed.

(** *** Revert undoes apply *)

(** Where an integration finds its file depends only on which files exist. *)
Class Located (t : Integration) : Prop := located : forall w w',
  (forall p, is_Some (files w !! p) <-> is_Some (files w' !! p)) -> in_ConfigPath t w = in_ConfigPath t w'.

Lemma exists_ext w w' p : (forall p, is_Some (files w !! p) <-> is_Some (files w' !! p)) -> exists_ w p = exists_ w' p.
Proof. intros H. unfold exists_. by apply bool_decide_ext. Qed.

Lemma underHome_located home join parts w w' :
  (forall p, is_Some (files w !! p) <-> is_Some (files w' !! p)) -> underHome home join parts w = underHome home join parts w'.
Proof. intros H. unfold underHome. destruct home as [h|]; [|done]. by rewrite (exists_ext w w' _ H). Qed.

#[export] Instance claude_located home configDir join quote decodeJSON encodeJSON :
  Located (claudeCodeIntegration home configDir join quote decodeJSON encodeJSON).
Proof. intros w w'. apply underHome_located. Qed.

#[export] Instance codex_located home configDir join : Located (codexIntegration home configDir join).
Proof. intros w w'. apply underHome_located. Qed.

#[export] Instance hermes_located env home join : Located (hermesIntegration env home join).
Proof.
  intros w w' H. cbn [in_ConfigPath hermesIntegration]. unfold hermesConfigPath. rewrite (exists_ext w w' _ H).
  assert (Hf : forall l, firstExisting (exists_ w) l = firstExisting (exists_ w') l).
  { induction l as [|p l IH]; [done|]. cbn [firstExisting]. by rewrite (exists_ext w w' _ H), IH. }
  by rewrite Hf.
Qed.

Lemma HasSuffix_app s p : HasSuffix (s +:+ p) p = true.
Proof. unfold HasSuffix. rewrite list_ascii_app, rev_app_distr, string_of_list_app. apply prefix_app. Qed.

Lemma backupName_is_backup tool stamp : isBackupOf tool (backupName tool stamp) = true.
Proof.
  unfold isBackupOf, backupName, HasPrefix. rewrite !(assoc_L String.append), HasSuffix_app, andb_true_r.
  rewrite <- (assoc_L String.append (tool +:+ "-")). apply prefix_app.
Qed.

(** The latest of the names is the one no other is after. *)
Lemma later_max name l : forall acc, acc = name \/ name ∈ l -> (forall n, n = acc \/ n ∈ l -> String.compare n name <> Gt) -> fold_left later l acc = name.
Proof.
  induction l as [|x l IH]; intros acc Hin Hle; cbn [fold_left]; [set_solver|].
  apply IH; [|intros n [->|Hn]; [|by apply Hle; set_solver]; unfold later; destruct (String.compare acc x); apply Hle; set_solver].
  unfold later. destruct (decide (x = name)) as [->|Hx].
  { destruct (String.compare acc name) eqn:E; [by left|by left|]. by destruct (Hle acc (or_introl eq_refl)). }
  destruct Hin as [->|Hin]; [|right; set_solver]. destruct (String.compare name x) eqn:E; [|exfalso|by left].
  - apply String.compare_eq_iff in E. by subst.
  - apply (Hle x); [set_solver|]. rewrite String.compare_antisym, E. done.
Qed.

Lemma latestBackup_is configDir join tool name w :
  empty_str (backupDir configDir join) = false -> is_Some (backups w !! name) -> isBackupOf tool name = true ->
  (forall n, is_Some (backups w !! n) -> isBackupOf tool n = true -> String.compare n name <> Gt) -> latestBackup configDir join tool w = name.
Proof.
  intros Hd Hn Hb Hle. unfold latestBackup. rewrite Hd.
  assert (Hm : forall n, n ∈ matches tool w <-> is_Some (backups w !! n) /\ isBackupOf tool n = true).
  { intros n. unfold matches. rewrite list_elem_of_In, filter_In, <- list_elem_of_In, list_elem_of_fmap. split.
    - intros [([k v] & -> & Hk%elem_of_map_to_list) H]. by eauto.
    - intros [[v Hv] H]. split; [|done]. exists (n, v). split; [done|]. by apply elem_of_map_to_list. }
  apply later_max; [right; by apply Hm|]. intros n [->|[H1 H2]%Hm]; [|by apply Hle]. by destruct name.
Qed.

(** C35: whatever a run of --apply did to the file, even if its write broke off,
    --revert gives back the bytes the file had: the backup was complete
    before the write began, and it is the one revert picks when no backup is
    from a later time. *)
Theorem revert_restores_the_file configDir join t `{!Careful t, !Located t} run base w r w' :
  let path := in_ConfigPath t w in let name := backupName (in_Name t) (su_stamp run) in
  path <> "" -> backupDir configDir join <> "" -> in_Apply t run path base w = (r, w') -> files w' <> files w ->
  (forall n, is_Some (backups w !! n) -> isBackupOf (in_Name t) n = true -> String.compare n name <> Gt) ->
  let '(code, _, w'') := revertIntegration configDir join t Written w' in code = 0%Z /\ files w'' = files w.
Proof.
  intros path name Hp Hd Ha Hch Hle. apply careful in Ha as [Hb [?|(content & Hf & Hbk & Hex & Ho)]]; [done|]. fold name in Hb, Hbk.
  assert (Hpath : in_ConfigPath t w' = path).
  { symmetry. apply located. intros p. destruct (decide (p = path)) as [->|]; [rewrite Hf; naive_solver|by rewrite Ho]. }
  unfold revertIntegration. rewrite (latestBackup_is configDir join (in_Name t) name w').
  - rewrite Hpath, Hbk. unfold empty_str. rewrite (bool_decide_false (name = "")) by (unfold name, backupName; by destruct (in_Name t)).
    rewrite bool_decide_false by done. cbn [writeFile]. split; [done|]. cbn [setFiles files]. apply map_eq. intros p.
    destruct (decide (p = path)) as [->|]; [by rewrite lookup_insert_eq|]. by rewrite lookup_insert_ne, Ho by congruence.
  - by apply bool_decide_eq_false_2.
  - by eauto.
  - apply backupName_is_backup.
  - intros n Hn Hi. destruct (decide (n = name)) as [->|Hne]; [|by rewrite Hb in Hn; auto].
    intros Hgt. pose proof (String.compare_antisym name name) as Hs. by rewrite Hgt in Hs.
Qed.

(** *** The marked block *)

Lemma prefix_sep c p s t : noByte c p -> String.prefix p (s +:+ String c t) = String.prefix p s.
Proof.
  revert s. induction p as [|x p IH]; intros s Hp; [by destruct s|]. apply noByte_cons in Hp as [Hx Hp]. destruct s as [|y s].
  - change ("" +:+ String c t) with (String c t). cbn [String.prefix]. destruct (ascii_dec x c) as [->|]; [by rewrite Ascii.eqb_refl in Hx|done].
  - change (String y s +:+ String c t) with (String y (s +:+ String c t)). cbn [String.prefix]. destruct (ascii_dec x y); [by apply IH|done].
Qed.

(** A text that avoids a byte occurs on one side of it. *)
Lemma index_sep c sub s t : sub <> "" -> noByte c sub ->
  String.index 0 sub (s +:+ String c t) =
  match String.index 0 sub s with Some i => Some i | None => (fun i => String.length s + 1 + i) <$> String.index 0 sub t end.
Proof.
  intros Hne Hc. induction s as [|x s IH].
  - change ("" +:+ String c t) with (String c t). cbn [String.index String.length].
    destruct sub as [|y sub]; [done|]. pose proof (prefix_sep c (String y sub) "" t Hc) as Hp. change ("" +:+ String c t) with (String c t) in Hp.
    rewrite Hp. cbn [String.prefix]. by destruct (String.index 0 (String y sub) t).
  - change (String x s +:+ String c t) with (String x (s +:+ String c t)). cbn [String.index].
    change (String x (s +:+ String c t)) with (String x s +:+ String c t) at 1. rewrite prefix_sep by done.
    destruct (String.prefix sub (String x s)); [done|]. rewrite IH. cbn [String.length]. destruct (String.index 0 sub s); [done|].
    by destruct (String.index 0 sub t).
Qed.

Lemma index_prefix sub t : sub <> "" -> String.index 0 sub (sub +:+ t) = Some 0.
Proof.
  intros Hne. destruct sub as [|c sub]; [done|]. pose proof (prefix_app (String c sub) t) as Hp.
  change (String c sub +:+ t) with (String c (sub +:+ t)) in *. cbn [String.index]. by rewrite Hp.
Qed.

Lemma index_noByte c sub s : noByte c s -> String.index 0 (String c sub) s = None.
Proof.
  induction s as [|x s IH]; [done|]. intros [Hx Hs]%noByte_cons. cbn [String.index String.prefix].
  destruct (ascii_dec c x) as [->|]; [by rewrite Ascii.eqb_refl in Hx|]. by rewrite IH.
Qed.

Lemma index_concat_none sub ls : sub <> "" -> noByte (byte 10) sub -> Forall (fun l => String.index 0 sub l = None) ls ->
  String.index 0 sub (String.concat newline ls) = None.
Proof.
  intros Hne Hs. induction 1 as [|l ls Hl Hls IH]; [by destruct sub|]. destruct ls as [|l' ls]; [done|].
  change (String.concat newline (l :: l' :: ls)) with (l +:+ String (byte 10) (String.concat newline (l' :: ls))).
  by rewrite index_sep, Hl, IH.
Qed.

Definition codexBody (baseURL : string) : list string :=
  ["model_provider = " +:+ quoted "calvoproxy"; ""; "[model_providers.calvoproxy]"; "name = " +:+ quoted "CalvoProxy";
   "base_url = " +:+ quoted (baseURL +:+ "/v1"); "wire_api = " +:+ quoted "chat"].

(** The block up to its end marker. *)
Definition codexHead (baseURL : string) : string := String.concat newline (codexBlockStart :: codexBody baseURL).

Lemma codexRender_split baseURL : codexRender baseURL = codexHead baseURL +:+ newline +:+ codexBlockEnd.
Proof.
  unfold codexRender, codexHead, codexBody. generalize codexBlockStart, codexBlockEnd. intros x y. cbn [String.concat].
  by rewrite <- !(assoc_L String.append).
Qed.

Lemma codexHead_no_end baseURL : noByte "#" baseURL -> String.index 0 codexBlockEnd (codexHead baseURL) = None.
Proof.
  intros Hb. apply index_concat_none; [done|by apply noByte_decide; vm_compute|].
  unfold codexBody. rewrite !Forall_cons, Forall_nil. split_and!; try by vm_compute.
  apply index_noByte. unfold quoted. rewrite !noByte_app. split_and!; try done; apply noByte_decide; by vm_compute.
Qed.

Lemma Contains_none s sub : Contains s sub = false <-> String.index 0 sub s = None.
Proof. unfold Contains. by destruct (String.index 0 sub s). Qed.

Lemma substring_app s t : String.substring 0 (String.length s) (s +:+ t) = s.
Proof.
  induction s as [|c s IH]; [by destruct t|]. change (String c s +:+ t) with (String c (s +:+ t)).
  cbn [String.length String.substring]. by rewrite IH.
Qed.

(** A block between texts without markers is replaced, and the texts kept. *)
Lemma replace_in_place pre base post block :
  noByte "#" base -> Contains pre codexBlockStart = false -> Contains pre codexBlockEnd = false ->
  replaceMarkedBlock (pre +:+ newline +:+ codexRender base +:+ newline +:+ post) block = pre +:+ newline +:+ block +:+ newline +:+ post.
Proof.
  intros Hb Hs%Contains_none He%Contains_none. unfold replaceMarkedBlock. cbv zeta.
  assert (Hsn : noByte (byte 10) codexBlockStart) by by apply noByte_decide; vm_compute.
  assert (Hen : noByte (byte 10) codexBlockEnd) by by apply noByte_decide; vm_compute.
  assert (Estart : String.index 0 codexBlockStart (pre +:+ newline +:+ codexRender base +:+ newline +:+ post) = Some (String.length pre + 1 + 0)).
  { change (newline +:+ codexRender base +:+ newline +:+ post) with (String (byte 10) (codexRender base +:+ newline +:+ post)).
    rewrite index_sep, Hs by done. unfold codexRender. cbn [String.concat]. rewrite <- !(assoc_L String.append). by rewrite index_prefix. }
  assert (Eend : String.index 0 codexBlockEnd (pre +:+ newline +:+ codexRender base +:+ newline +:+ post) =
    Some (String.length pre + 1 + (String.length (codexHead base) + 1 + 0))).
  { change (newline +:+ codexRender base +:+ newline +:+ post) with (String (byte 10) (codexRender base +:+ newline +:+ post)).
    rewrite index_sep, He by done. rewrite codexRender_split, <- !(assoc_L String.append).
    change (newline +:+ codexBlockEnd +:+ newline +:+ post) with (String (byte 10) (codexBlockEnd +:+ newline +:+ post)).
    rewrite index_sep, codexHead_no_end, index_prefix by done. done. }
  rewrite Estart, Eend. rewrite (proj2 (Nat.ltb_lt _ _)) by lia.
  replace (String.length pre + 1 + 0) with (String.length (pre +:+ newline)) by (rewrite strlen_app; simpl; lia).
  replace (String.length pre + 1 + (String.length (codexHead base) + 1 + 0) + String.length codexBlockEnd)
    with (String.length (pre +:+ newline +:+ codexRender base)) by (rewrite codexRender_split, !strlen_app; simpl; lia).
  rewrite (assoc_L String.append pre newline) at 1. rewrite substring_app.
  replace (pre +:+ newline +:+ codexRender base +:+ newline +:+ post) with ((pre +:+ newline +:+ codexRender base) +:+ newline +:+ post)
    by by rewrite <- !(assoc_L String.append).
  rewrite after_app. by rewrite <- !(assoc_L String.append).
Qed.

(** What [replaceMarkedBlock] appends to. *)
Definition ended (existing : string) : string :=
  if negb (empty_str existing) && negb (HasSuffix existing newline) then existing +:+ newline else existing.

Lemma replace_appends existing block :
  Contains existing codexBlockStart = false -> replaceMarkedBlock existing block = ended existing +:+ newline +:+ block +:+ newline.
Proof. intros H%Contains_none. unfold replaceMarkedBlock. by rewrite H. Qed.

Lemma ended_no_marker existing sub : sub <> "" -> noByte (byte 10) sub -> Contains existing sub = false -> Contains (ended existing) sub = false.
Proof.
  intros Hne Hs. unfold ended. destruct (negb _ && negb _); [|done]. rewrite !Contains_none. intros H.
  unfold newline. rewrite index_sep, H by done. by destruct sub.
Qed.

(** Applying again, for another address, replaces the block and nothing else:
    the file is as if only the last address had been applied, and the user's
    text is in it unchanged. *)
Theorem codex_block_last_wins existing base1 base2 :
  noByte "#" base1 -> Contains existing codexBlockStart = false -> Contains existing codexBlockEnd = false ->
  let once := replaceMarkedBlock existing (codexRender base2) in
  replaceMarkedBlock (replaceMarkedBlock existing (codexRender base1)) (codexRender base2) = once /\ HasPrefix once existing = true.
Proof.
  intros Hb Hs He once. unfold once. rewrite !(replace_appends existing) by done. split.
  - pose proof (replace_in_place (ended existing) base1 "" (codexRender base2) Hb) as Hr. rewrite !(right_id_L "" String.append) in Hr.
    apply Hr; apply ended_no_marker; try done; by apply noByte_decide; vm_compute.
  - unfold HasPrefix, ended. destruct (negb _ && negb _); rewrite <- ?(assoc_L String.append); apply prefix_app.
Qed.

Lemma replace_contains existing block : exists pre post, replaceMarkedBlock existing block = pre +:+ block +:+ post.
Proof.
  unfold replaceMarkedBlock. cbv zeta. destruct (String.index 0 codexBlockStart existing) as [i|], (String.index 0 codexBlockEnd existing) as [j|].
  1: destruct (i <? j). 1: by eexists _, _.
  all: exists (ended existing +:+ newline), newline; rewrite <- (assoc_L String.append); reflexivity.
Qed.

Lemma concat_member sep x ls : x ∈ ls -> exists pre post, String.concat sep ls = pre +:+ x +:+ post.
Proof.
  induction ls as [|l ls IH]; [by intros ?%elem_of_nil|]. intros [->|Hx]%elem_of_cons.
  - destruct ls as [|l' ls]; [exists "", ""; by rewrite (right_id_L "" String.append)|]. by exists "", (sep +:+ String.concat sep (l' :: ls)).
  - destruct (IH Hx) as (pre & post & H). destruct ls as [|l' ls]; [by apply elem_of_nil in Hx|].
    exists (l +:+ sep +:+ pre), post. change (String.concat sep (l :: l' :: ls)) with (l +:+ sep +:+ String.concat sep (l' :: ls)).
    by rewrite H, <- !(assoc_L String.append).
Qed.

Lemma Contains_member pre sep x ls post : x ∈ ls -> Contains (pre +:+ String.concat sep ls +:+ post) x = true.
Proof.
  intros Hx. destruct (concat_member sep x ls Hx) as (pre' & post' & ->). rewrite <- (assoc_L String.append pre'), <- (assoc_L String.append x).
  rewrite (assoc_L String.append pre). apply Contains_app.
Qed.

(** A written block is found again: after an apply that succeeded the command
    reports the tool as configured, and applying again does nothing. *)
Theorem codex_apply_configures home configDir join run path base w backup w' :
  codexApply configDir join run path base w = (Applied backup, w') ->
  in_Current (codexIntegration home configDir join) w' path base = stateConfigured.
Proof.
  unfold codexApply. destruct (files w !! path) as [content|]; [|done]. destruct (backupFile _ _ _ _ _ w) as [[name|] w1]; [|done].
  destruct (su_configWrite run); cbn [writeFile]; try done. intros [= _ <-].
  cbn [in_Current codexIntegration]. unfold codexCurrent. cbn [setFiles files]. rewrite lookup_insert_eq.
  destruct (replace_contains content (codexRender base)) as (pre & post & ->).
  unfold codexRender. rewrite !Contains_member by set_solver. done.
Qed.

(** *** The merged settings *)

Section claude.
Context (configDir : option string) (join : list string -> string) (decodeJSON : string -> option (option object))
        (encodeJSON : object -> option string).
Hypothesis codec : forall o s, encodeJSON o = Some s -> decodeJSON (s +:+ newline) = Some (Some o).

(** An apply that succeeded leaves settings that say so, and every other key
    and every other variable as it was. *)
Theorem claude_apply_merges home quote run path base w backup w' :
  base <> "" -> claudeApply configDir join decodeJSON encodeJSON run path base w = (Applied backup, w') ->
  in_Current (claudeCodeIntegration home configDir join quote decodeJSON encodeJSON) w' path base = stateConfigured /\
  exists before content old new, files w !! path = Some before /\ decodeJSON before = Some (Some old) /\
    files w' !! path = Some content /\ decodeJSON content = Some (Some new) /\
    (forall k, k <> "env" -> new !! k = old !! k) /\
    (forall v, v <> "ANTHROPIC_BASE_URL" -> v <> "ANTHROPIC_AUTH_TOKEN" ->
       orEmpty (asObj (at_ new "env")) !! v = orEmpty (asObj (at_ old "env")) !! v).
Proof.
  intros Hb. unfold claudeApply. destruct (files w !! path) as [before|]; [|done]. destruct (decodeJSON before) as [[old|]|] eqn:Ed; [| |done].
  2: by destruct (backupFile _ _ _ _ _ w) as [[name|] w1].
  destruct (backupFile _ _ _ _ _ w) as [[name|] w1]; [|done]. destruct (encodeJSON (claudeMerge base old)) as [encoded|] eqn:Ee; [|done].
  destruct (su_configWrite run); cbn [writeFile]; try done. intros [= _ <-]. apply codec in Ee. cbn [setFiles files].
  assert (Henv : asObj (at_ (claudeMerge base old) "env") =
    Some (<["ANTHROPIC_AUTH_TOKEN" := JStr "dummy"]> (<["ANTHROPIC_BASE_URL" := JStr base]> (orEmpty (asObj (at_ old "env")))))).
  { unfold at_, claudeMerge. by rewrite lookup_insert_eq. }
  split.
  - cbn [in_Current claudeCodeIntegration]. unfold claudeCurrent. cbn [setFiles files]. rewrite lookup_insert_eq, Ee. cbn [orEmpty].
    change (orEmpty (Some ?x)) with x. rewrite Henv. change (orEmpty (Some ?x)) with x.
    unfold strAt, at_. rewrite lookup_insert_ne, lookup_insert_eq by done. cbn. unfold empty_str. rewrite bool_decide_false by done.
    unfold str_eq. by rewrite bool_decide_true.
  - exists before, (encoded +:+ newline), old, (claudeMerge base old). rewrite lookup_insert_eq, Henv. change (orEmpty (Some ?x)) with x.
    split_and!; try done.
    + intros k Hk. unfold claudeMerge. by rewrite lookup_insert_ne by congruence.
    + intros v H1 H2. by rewrite !lookup_insert_ne by congruence.
Qed.

(** Settings that hold JSON null are backed up and then crash the command. *)
Theorem claude_null_panics run path base w content :
  files w !! path = Some content -> decodeJSON content = Some None -> backupDir configDir join <> "" -> su_mkdir run = true -> su_backupWrite run = Written ->
  (claudeApply configDir join decodeJSON encodeJSON run path base w).1 = Panicked.
Proof.
  intros Hf Hd Hb Hm Hw. unfold claudeApply, backupFile. rewrite Hf, Hd. unfold empty_str. rewrite bool_decide_false by done.
  rewrite Hm, Hw. done.
Qed.
End claude.

(** *** The arguments *)

Definition plainFlag (a : string) : Prop := HasPrefix a "-" = true /\ wantsValue a = false.

(** The tool may stand anywhere among flags that take no value. *)
Theorem tool_stands_anywhere tool l1 l2 :
  tool <> "" -> HasPrefix tool "-" = false -> Forall plainFlag l1 -> Forall plainFlag l2 ->
  splitToolAndFlags "" (l1 ++ tool :: l2)%list = (tool, (l1 ++ l2)%list).
Proof.
  intros Hne Ht H1 H2. assert (Hflags : forall t, splitToolAndFlags t l2 = (t, l2)).
  { intros t. induction H2 as [|a l [Ha Hw] _ IH]; [done|]. cbn [splitToolAndFlags]. by rewrite Ha, Hw, IH. }
  induction H1 as [|a l [Ha Hw] _ IH]; cbn [app splitToolAndFlags]; [by rewrite Ht, Hflags|by rewrite Ha, Hw, IH].
Qed.

(** *** Where the command falls short *)

Definition lf (ls : list string) : string := String.concat newline ls.

(** A start marker without its end makes the second apply take everything
    between the two start markers for the block: the user's text is gone. *)
Theorem dangling_marker_eats_text :
  let existing := lf [codexBlockStart; "keep = 1"; ""] in
  let once := replaceMarkedBlock existing (codexRender "http://a") in
  Contains once "keep = 1" = true /\ Contains (replaceMarkedBlock once (codexRender "http://b")) "keep = 1" = false.
Proof. by vm_compute. Qed.

(** The address is looked for in the whole file, so another table with it
    makes a block that points elsewhere count as configured. *)
Theorem codex_current_reads_other_tables :
  let text := lf [codexRender "http://old"; "[model_providers.other]"; "base_url = " +:+ quoted "http://127.0.0.1:8080/v1"] in
  codexCurrent (mkWorld {["config.toml" := text]} ∅) "config.toml" "http://127.0.0.1:8080" = stateConfigured.
Proof. by vm_compute. Qed.

Definition goodRun (stamp : string) : setupRun := mkSetupRun true stamp Written Written.
Definition joinSlash : list string -> string := String.concat "/".

(** Two applies within a second share a backup name: the second overwrites the
    backup of the user's file, and revert gives back the first edit. *)
Theorem same_second_loses_original :
  let codex := codexIntegration (Some "/home/u") (Some "/cfg") joinSlash in
  let path := "/home/u/.codex/config.toml" in
  let w0 := mkWorld {[path := "keep = 1"]} ∅ in
  let w1 := (in_Apply codex (goodRun "20260101T000000") path "http://a" w0).2 in
  let w2 := (in_Apply codex (goodRun "20260101T000000") path "http://b" w1).2 in
  let w3 := (revertIntegration (Some "/cfg") joinSlash codex Written w2).2 in
  files w3 !! path = files w1 !! path /\ files w3 !! path <> files w0 !! path.
Proof. split; [by vm_compute|]. intros H. vm_compute in H. discriminate H. Qed.

(** Setup does not skip the byte-order mark that doctor skips, and reports a
    file that works as not configured. *)
Theorem setup_misses_marked_file :
  let raw := byteOrderMark +:+ hermesConfigBlock "http://127.0.0.1:8080/v1" in
  hermesCurrent (mkWorld {["config.yaml" := raw]} ∅) "config.yaml" "http://127.0.0.1:8080" = stateMissing /\
  Forall (fun r => ck_status r = statusOK) (checkHermesFile (fun _ => Some "127.0.0.1") (fun _ => None) id "http://127.0.0.1:8080" "config.yaml" raw).
Proof. split; [by vm_compute|]. vm_compute. by repeat constructor. Qed.

(** And it calls a file configured that doctor fails: only the address is
    looked at, not the provider or its entry. *)
Theorem setup_accepts_unbound_file :
  let raw := lf ["model:"; "  base_url: http://127.0.0.1:8080/v1"] in
  hermesCurrent (mkWorld {["config.yaml" := raw]} ∅) "config.yaml" "http://127.0.0.1:8080" = stateConfigured /\
  failing (checkHermesFile (fun _ => Some "127.0.0.1") (fun _ => None) id "http://127.0.0.1:8080" "config.yaml" raw).
Proof. split; [by vm_compute|]. unfold failing. apply (countStatus_pos statusFail). by vm_compute. Qed.

(** ** Witnesses *)

Definition exPath : string := "/home/u/.codex/config.toml".
Definition exDisk : world := mkWorld {[exPath := "keep = 1"]} ∅.

Lemma revert_restores_the_file_witness :
  let codex := codexIntegration (Some "/home/u") (Some "/cfg") joinSlash in
  let run := mkSetupRun true "20260101T000000" Written (Torn 3) in
  let w' := (in_Apply codex run exPath "http://a" exDisk).2 in
  files w' !! exPath = Some "kee" /\ files (revertIntegration (Some "/cfg") joinSlash codex Written w').2 = files exDisk.
Proof.
  cbv zeta. split; [by vm_compute|].
  set (codex := codexIntegration (Some "/home/u") (Some "/cfg") joinSlash). set (run := mkSetupRun true "20260101T000000" Written (Torn 3)).
  destruct (in_Apply codex run exPath "http://a" exDisk) as [r w'] eqn:E.
  pose proof (revert_restores_the_file (Some "/cfg") joinSlash codex run "http://a" exDisk r w') as H. cbv zeta in H. cbn [snd].
  destruct (revertIntegration (Some "/cfg") joinSlash codex Written w') as [[code out] w'']. cbn [snd]. apply H.
  - by vm_compute.
  - by vm_compute.
  - exact E.
  - apply (f_equal (fun p => files p.2 !! exPath)) in E. intros Hf. cbn [snd] in E. rewrite Hf in E. vm_compute in E. discriminate E.
  - intros n [v Hv]. change (backups exDisk) with (∅ : gmap string string) in Hv. by rewrite lookup_empty in Hv.
Defined.

Lemma codex_block_last_wins_witness :
  replaceMarkedBlock (replaceMarkedBlock "keep = 1" (codexRender "http://a")) (codexRender "http://b") = replaceMarkedBlock "keep = 1" (codexRender "http://b").
Proof.
  apply (codex_block_last_wins "keep = 1" "http://a" "http://b"); [apply noByte_decide; by vm_compute|by vm_compute|by vm_compute].
Defined.
