(* ===== verification/Chat.v ===== *)
(** * Chat: the diagnostic client (cmd/chat.go)

    A conversation with a running proxy: commands, turns with the whole history
    in each request, the two shapes of an answer, and the routing decision in
    words.  What the proxy answers is a function of the requests sent so far;
    JSON coding, refused URLs and formatting of durations are arguments.  The
    client reads the header that [Trace] writes, and the theorems join the
    two. *)

From S2P Require Import Prelude Float Env Text Split Types TraceRing Trace Doctor Flags.
From Stdlib Require Import Lia ZArith String Ascii.
#[local] Open Scope string_scope.
#[local] Open Scope Z_scope.

Definition chatDefaultProfile : string := "coding".

(** A message: its role and its content. *)
Record chatMessage := mkMessage { msg_role : string; msg_content : string }.

Record chatSession := mkChat {
  cs_baseURL : string;
  cs_profile : string;
  cs_stream : bool;
  cs_traceFull : bool;
  cs_history : list chatMessage;
}.

Definition setHistory (h : list chatMessage) (s : chatSession) : chatSession :=
  mkChat (cs_baseURL s) (cs_profile s) (cs_stream s) (cs_traceFull s) h.

Record chatRequest := mkChatRequest {
  cq_URL : string;
  cq_messages : list chatMessage;
  cq_stream : bool;
  cq_headers : list (string * string);
}.

(** A response; [ca_error] is why reading its body fails after [ca_body]. *)
Record chatAnswer := mkAnswer { ca_status : Z; ca_header : string -> string; ca_body : string; ca_error : option string }.

(** ** The routing decision in words *)

Definition shortModel (model : string) : string :=
  if empty_str model then ""
  else TrimSuffix (match cut "/" model with (_, Some rest) => rest | _ => model end) ":free".

Definition lastSegment (n : string) : string :=
  if empty_str n then ""
  else let last := List.last (split_on "/" n) "" in match Atoi last with Some _ => last | None => "" end.

Definition renderPrev (prev : string) : string :=
  String.concat ", " ((fun part => match cut ":" part with (model, Some code) => model +:+ " (" +:+ code +:+ ")" | _ => part end) <$> split_on "," prev).

Definition addField (fields : gmap string string) (part : string) : gmap string string :=
  let part := TrimSpace part in
  if empty_str part then fields
  else match cut "=" part with (key, Some value) => <[key := value]> fields | _ => fields end.

Definition parseRoute (route : string) : gmap string string := fold_left addField (split_on ";" route) ∅.

Definition field (fields : gmap string string) (k : string) : string := default "" (fields !! k).

Definition middot : string := string_of_list_ascii [byte 194; byte 183].

Definition traceSegments (fields : gmap string string) (model : string) : list string :=
  let f := field fields in
  let given k (seg : string) := if negb (empty_str (f k)) then [seg] else [] in
  (given "p" (f "p") ++
   (let m := shortModel model in if negb (empty_str m) then [m] else []) ++
   given "s" ("score " +:+ f "s") ++
   (if negb (empty_str (f "a")) && negb (str_eq (f "a") "1") then
      let eligible := lastSegment (f "n") in
      [if negb (empty_str eligible) then "attempt " +:+ f "a" +:+ "/" +:+ eligible else "attempt " +:+ f "a"]
    else []) ++
   (if negb (empty_str (f "brk")) && negb (str_eq (f "brk") "0") then [f "brk" +:+ " excluded by breaker"] else []) ++
   (if negb (empty_str (f "q")) && negb (str_eq (f "q") "0") then [f "q" +:+ " out of quota"] else []) ++
   given "caps" ("needs " +:+ f "caps") ++
   (if negb (empty_str (f "cmp")) && negb (str_eq (f "cmp") "off") then ["compressed " +:+ f "cmp"] else []) ++
   given "o" (f "o"))%list.

Definition renderTrace (h : string -> string) : string :=
  let route := h traceHeader in
  if empty_str route then ""
  else
    let fields := parseRoute route in
    middot +:+ " " +:+ String.concat (" " +:+ middot +:+ " ") (traceSegments fields (h "X-Calvoproxy-Model")) +:+
    (if negb (empty_str (field fields "prev")) then newline +:+ "  previously failed: " +:+ renderPrev (field fields "prev") else "") +:+
    (if str_eq (field fields "trunc") "1" then newline +:+ "  (trace truncated)" else "").

(** ** Turns *)

Section chat.
Context (marshal : list chatMessage -> bool -> option string) (badURL : string -> bool)
        (proxy : list chatRequest -> chatRequest -> string + chatAnswer)
        (decodeChunk decodeWhole : string -> option (list string)) (seconds : list chatRequest -> string).

Definition endpoint (s : chatSession) : string :=
  if empty_str (cs_profile s) then cs_baseURL s +:+ "/v1/chat/completions"
  else cs_baseURL s +:+ "/v1/" +:+ cs_profile s +:+ "/chat/completions".

(** The loop over the lines of a stream: the texts in order, and whether the
    end marker was met. *)
Fixpoint streamTexts (lines : list string) : list string * bool :=
  match lines with
  | [] => ([], false)
  | raw :: lines =>
      let line := TrimSpace raw in
      if negb (HasPrefix line "data:") then streamTexts lines
      else
        let payload := TrimSpace (TrimPrefix line "data:") in
        if str_eq payload "[DONE]" then ([], true)
        else match decodeChunk payload with
             | None => streamTexts lines
             | Some choices =>
                 let '(texts, done) := streamTexts lines in
                 ((List.filter (fun c => negb (empty_str c)) choices ++ texts)%list, done)
             end
  end.

Definition tooLong (body : string) : bool := existsb (fun l => maxScanLine <=? Z.of_nat (String.length l)) (split_on (byte 10) body).

Definition printStream (body : string) (err : option string) : string * list string :=
  let '(texts, done) := streamTexts (scanLines body) in
  let failure := if done then [] else if tooLong body then [newline +:+ "stream read error: bufio.Scanner: token too long"]
                 else match err with Some e => [newline +:+ "stream read error: " +:+ e] | None => [] end in
  (String.concat "" texts, (texts ++ failure)%list).

Definition printWhole (body : string) (err : option string) : string * list string :=
  match err with
  | Some e => ("", ["truncated response: " +:+ e])
  | None =>
      let raw := readLimited (8 * 1024 * 1024) body in
      match decodeWhole raw with
      | Some (content :: _) => (content, [content])
      | _ => ("", [raw])
      end
  end.

(** One exchange: the session, the requests sent so far and what is
    printed. *)
Definition turn (prompt : string) (s : chatSession) (sent : list chatRequest) : chatSession * list chatRequest * list string :=
  let history := (cs_history s ++ [mkMessage "user" prompt])%list in
  let s := setHistory history s in
  let dropped := setHistory (take (List.length history - 1) history) s in
  match marshal history (cs_stream s) with
  | None => (s, sent, [newline +:+ "could not serialise the request"])
  | Some _ =>
      if badURL (endpoint s) then (s, sent, [newline +:+ "invalid request"])
      else
        let req := mkChatRequest (endpoint s) history (cs_stream s)
          ([("Content-Type", "application/json"); ("Authorization", "Bearer dummy")] ++
           (if cs_traceFull s then [("X-Calvoproxy-Trace", "full")] else []))%list in
        let sent' := (sent ++ [req])%list in
        match proxy sent req with
        | inl err => (dropped, sent', [newline +:+ "could not reach the proxy: " +:+ err])
        | inr resp =>
            let trace := let t := renderTrace (ca_header resp) in if negb (empty_str t) then [t] else [] in
            if negb (ca_status resp =? 200) then
              (dropped, sent',
               ([newline +:+ pretty (ca_status resp) +:+ " " +:+ TrimSpace (readLimited 8192 (ca_body resp))] ++
                (let retry := ca_header resp "Retry-After" in if negb (empty_str retry) then ["retry in " +:+ retry +:+ "s"] else []) ++ trace)%list)
            else
              let '(reply, shown) := (if cs_stream s then printStream else printWhole) (ca_body resp) (ca_error resp) in
              let out := ([""] ++ shown ++ [""] ++ trace ++ ["  " +:+ seconds sent'])%list in
              (if negb (empty_str reply) then setHistory (history ++ [mkMessage "assistant" reply])%list s else s, sent', out)
        end
  end.

(** ** The loop *)

(** [command] on a line that starts with a slash; [None] leaves. *)
Definition command (line : string) (s : chatSession) : option (chatSession * list string) :=
  match Fields line with
  | [] => Some (s, [])
  | cmd :: rest =>
      if str_eq cmd "/quit" || str_eq cmd "/exit" then None
      else if str_eq cmd "/reset" then Some (setHistory [] s, ["history cleared"])
      else if str_eq cmd "/trace" then
        let full := negb (cs_traceFull s) in
        Some (mkChat (cs_baseURL s) (cs_profile s) (cs_stream s) full (cs_history s), ["full trace: " +:+ (if full then "true" else "false")])
      else if str_eq cmd "/profile" then
        match rest with
        | [] => Some (s, ["usage: /profile <name>"])
        | name :: _ => Some (mkChat (cs_baseURL s) name (cs_stream s) (cs_traceFull s) (cs_history s), ["profile: " +:+ name])
        end
      else Some (s, ["unknown command: " +:+ cmd])
  end.

(** The lines that can be scanned, and why scanning stops before the end. *)
Fixpoint repl (lines : list string) (inputError : option string) (s : chatSession) (sent : list chatRequest) : Z * chatSession * list chatRequest * list string :=
  let prompt := newline +:+ "[" +:+ cs_profile s +:+ "] > " in
  match lines with
  | [] => match inputError with
          | Some err => (1, s, sent, [prompt; newline +:+ "input error: " +:+ err])
          | None => (0, s, sent, [prompt; ""])
          end
  | raw :: lines =>
      let line := TrimSpace raw in
      let '(next, shown) :=
        if empty_str line then (Some (s, sent), [])
        else if HasPrefix line "/" then
          match command line s with None => (None, []) | Some (s, out) => (Some (s, sent), out) end
        else let '(s, sent, out) := turn line s sent in (Some (s, sent), out) in
      match next with
      | None => (0, s, sent, prompt :: shown)
      | Some (s, sent) =>
          let '(code, s, sent, out) := repl lines inputError s sent in (code, s, sent, (prompt :: shown ++ out)%list)
      end
  end.

Definition chatFlags : list (string * bool) := [("profile", false); ("url", false); ("no-stream", true)].

Definition runChatWith (env : environ) (args lines : list string) (inputError : option string) : Z * list chatRequest * list string :=
  match parseFlags chatFlags args with
  | None => (2, [], [])
  | Some (set, _) =>
      let base := TrimRightSlash (flagValue set "url" "") in
      let base := if empty_str base then TrimRightSlash (proxyBaseURL env) else base in
      let s := mkChat base (flagValue set "profile" chatDefaultProfile) (negb (flagBool set "no-stream")) false [] in
      let '(code, _, sent, out) := repl lines inputError s [] in
      (code, sent,
       (("calvoproxy chat " +:+ middot +:+ " " +:+ cs_baseURL s +:+ " " +:+ middot +:+ " profile " +:+ cs_profile s) ::
        ("commands: /profile <n> " +:+ middot +:+ " /reset " +:+ middot +:+ " /trace " +:+ middot +:+ " /quit") :: out)%list)
  end.
End chat.

(** ** Theorems *)

(** *** The history is the conversation *)

Section turns.
Context (marshal : list chatMessage -> bool -> option string) (badURL : string -> bool)
        (proxy : list chatRequest -> chatRequest -> string + chatAnswer)
        (decodeChunk decodeWhole : string -> option (list string)) (seconds : list chatRequest -> string).

Lemma take_snoc {A} (l : list A) x : take (List.length (l ++ [x])%list - 1) (l ++ [x])%list = l.
Proof. rewrite length_app. simpl. replace (List.length l + 1 - 1)%nat with (List.length l) by lia. by rewrite take_app_length. Qed.

(** What one turn does.  A request that was sent carries the whole history
    with the prompt last; the history then grows by the prompt and the reply,
    by the prompt alone if the reply is empty, or not at all if the proxy
    could not be reached or refused. *)
Theorem turn_keeps_the_conversation prompt s sent :
  let asked := (cs_history s ++ [mkMessage "user" prompt])%list in
  let '(s', sent', _) := turn marshal badURL proxy decodeChunk decodeWhole seconds prompt s sent in
  cs_baseURL s' = cs_baseURL s /\ cs_profile s' = cs_profile s /\ cs_stream s' = cs_stream s /\ cs_traceFull s' = cs_traceFull s /\
  ((sent' = sent /\ cs_history s' = asked /\ (marshal asked (cs_stream s) = None \/ badURL (endpoint s) = true)) \/
   exists req, sent' = (sent ++ [req])%list /\ cq_messages req = asked /\ cq_URL req = endpoint s /\
     match proxy sent req with
     | inl _ => cs_history s' = cs_history s
     | inr resp =>
         if ca_status resp =? 200
         then cs_history s' = asked \/ exists reply, reply <> "" /\ cs_history s' = (asked ++ [mkMessage "assistant" reply])%list
         else cs_history s' = cs_history s
     end).
Proof.
  cbv zeta. unfold turn. cbn [cs_stream setHistory cs_history cs_baseURL cs_profile cs_traceFull].
  destruct (marshal _ _) as [body|] eqn:Em; [|by split_and!; auto].
  change (endpoint (setHistory (cs_history s ++ [mkMessage "user" prompt])%list s)) with (endpoint s).
  destruct (badURL (endpoint s)) eqn:Eb; [by split_and!; auto|].
  set (req := mkChatRequest _ _ _ _). destruct (proxy sent req) as [err|resp] eqn:Ep.
  { cbn. rewrite take_snoc. split_and!; try done. right. exists req. by rewrite Ep. }
  destruct (Z.eqb_spec (ca_status resp) 200) as [Hs|Hs]; cbn [negb].
  - destruct ((if cs_stream s then _ else _) (ca_body resp) (ca_error resp)) as [reply shown].
    destruct (empty_str reply) eqn:Ee; cbn [negb setHistory cs_history cs_baseURL cs_profile cs_stream cs_traceFull]; split_and!; try done; right;
      exists req; rewrite Ep, Hs; split_and!; try done; [by left|right]. exists reply. split; [|done].
    intros ->. by rewrite (proj2 (empty_str_spec "") eq_refl) in Ee.
  - cbn. rewrite take_snoc. split_and!; try done. right. exists req. rewrite Ep. by apply Z.eqb_neq in Hs as ->.
Qed.

(** A prompt that could not be sent stays in the history and goes out with the
    next one. *)
Theorem unsent_prompt_stays prompt s sent :
  badURL (endpoint s) = true -> is_Some (marshal (cs_history s ++ [mkMessage "user" prompt])%list (cs_stream s)) ->
  let '(s', sent', _) := turn marshal badURL proxy decodeChunk decodeWhole seconds prompt s sent in
  sent' = sent /\ cs_history s' = (cs_history s ++ [mkMessage "user" prompt])%list.
Proof.
  intros Hb [body Hm]. unfold turn. cbn [cs_stream setHistory]. rewrite Hm.
  change (endpoint (setHistory (cs_history s ++ [mkMessage "user" prompt])%list s)) with (endpoint s). by rewrite Hb.
Qed.
End turns.

(** The client cuts a model name at its first slash, the header at its
    last. *)
Theorem short_names_differ : shortModel "org/team/model:free" = "team/model" /\ traceShortModel "org/team/model:free" = "model".
Proof. by vm_compute. Qed.

(** *** Reading the route header *)

(** A header as its fields: a key with a value, or a bare token. *)
Abbreviation wireField := (string * option string)%type.

Definition renderField (f : wireField) : string := match f.2 with Some v => f.1 +:+ "=" +:+ v | None => f.1 end.

(** The bytes of one field: those of a header but the semicolon. *)
Definition partByte (c : ascii) : bool := headerByte c && negb (Ascii.eqb c ";").

Definition wireOK (f : wireField) : Prop :=
  f.1 <> "" /\ strAll partByte f.1 /\ noByte "=" f.1 /\ match f.2 with Some v => strAll partByte v | None => True end.

Definition setField (m : gmap string string) (f : wireField) : gmap string string := match f.2 with Some v => <[f.1 := v]> m | None => m end.

Lemma part_graph c : partByte c = true -> graphByte c = true.
Proof. destruct c as [[] [] [] [] [] [] [] []]; by vm_compute. Qed.

Lemma TrimSpace_graph s : strAll graphByte s -> TrimSpace s = s.
Proof.
  intros Hs. destruct (decide (s = "")) as [->|Hne]; [done|].
  pose proof (TrimSpace_visible 0 0 s) as H. rewrite (right_id_L "" String.append) in H. apply H. unfold strAll in Hs. split.
  - destruct (list_ascii_of_string s) as [|c l] eqn:E; [by destruct s|]. apply Forall_cons in Hs as [? _]. by eauto.
  - apply Forall_rev in Hs. destruct (rev (list_ascii_of_string s)) as [|c l] eqn:E.
    + apply (f_equal (@rev ascii)) in E. rewrite rev_involutive in E. by destruct s.
    + apply Forall_cons in Hs as [? _]. by eauto.
Qed.

Lemma renderField_part f : wireOK f -> strAll partByte (renderField f) /\ renderField f <> "".
Proof.
  intros (Hne & Hk & _ & Hv). unfold renderField. destruct f as [k [v|]]; cbn [fst snd] in *; [|done].
  split; [|by destruct k]. rewrite !strAll_app. split_and!; try done. by repeat constructor.
Qed.

Lemma addField_render m f : wireOK f -> addField m (renderField f) = setField m f.
Proof.
  intros Hf. destruct (renderField_part f Hf) as [Hp Hne]. unfold addField.
  rewrite TrimSpace_graph by by eapply strAll_impl; [|exact Hp]; apply part_graph.
  unfold empty_str. rewrite bool_decide_false by done. destruct f as [k [v|]], Hf as (_ & _ & Heq & _); unfold renderField, setField; cbn [fst snd] in *.
  - change ("=" +:+ v) with (String "=" v). by rewrite cut_app.
  - by rewrite cut_none.
Qed.

Lemma parseRoute_render fs : fs <> [] -> Forall wireOK fs -> parseRoute (String.concat ";" (renderField <$> fs)) = fold_left setField fs ∅.
Proof.
  intros Hne Hf. unfold parseRoute. rewrite split_on_concat; [|by destruct fs|].
  - generalize (∅ : gmap string string). clear Hne. induction Hf as [|f fs Hw Hf IH]; intros m; [done|]. cbn [fmap list_fmap fold_left].
    rewrite addField_render by done. apply IH.
  - rewrite Forall_fmap. eapply Forall_impl; [exact Hf|]. intros f Hw. destruct (renderField_part f Hw) as [Hp _].
    cbn [compose]. by eapply noByte_of, Hp.
Qed.

(** The value of a key in a list of fields: the last one. *)
Fixpoint wireGet (k : string) (fs : list wireField) : option string :=
  match fs with
  | [] => None
  | (k', v) :: fs => match wireGet k fs with Some v => Some v | None => if str_eq k' k then v else None end
  end.

Lemma fold_setField fs : forall m k, fold_left setField fs m !! k = match wireGet k fs with Some v => Some v | None => m !! k end.
Proof.
  induction fs as [|[k' v] fs IH]; intros m k; cbn [fold_left wireGet]; [done|]. rewrite IH. destruct (wireGet k fs); [done|].
  unfold setField. cbn [fst snd]. destruct (str_eq k' k) eqn:E; [apply str_eq_spec in E as ->|].
  - destruct v; [by rewrite lookup_insert_eq|done].
  - destruct v; [|done]. rewrite lookup_insert_ne; [done|]. intros ->. by rewrite (proj2 (str_eq_spec k k) eq_refl) in E.
Qed.

Lemma wireGet_app k fs gs : wireGet k (fs ++ gs)%list = match wireGet k gs with Some v => Some v | None => wireGet k fs end.
Proof. induction fs as [|[k' v] fs IH]; cbn [app wireGet]; [by destruct (wireGet k gs)|]. rewrite IH. by destruct (wireGet k gs). Qed.

(** The fields of a trace, as [Trace] writes them. *)
Definition protectedWire (t : routeTrace) : list wireField :=
  ([(traceVersion, None); ("p", Some (traceSanitize (tr_Profile t))); ("cmp", Some (compression_header (tr_compression t)))] ++
   (if negb (empty_str (tr_Outcome t)) && negb (str_eq (tr_Outcome t) outcomeServed) then [("o", Some (traceSanitize (tr_Outcome t)))] else []) ++
   (match tr_Served t with
    | Some a => ("s", Some (FormatFixed 2 (ta_Score a))) :: (if 1 <? ta_Index a then [("a", Some (pretty (ta_Index a)))] else [])
    | None => []
    end) ++
   (match tr_CapsRequired t with [] => [] | caps => [("caps", Some (traceSanitize (String.concat "+" caps)))] end) ++
   (let rid := traceRuleID (tr_RuleID t) in if empty_str rid then [] else [("rid", Some rid)]))%list.

Definition chainWire (t : routeTrace) : list wireField :=
  (("n", Some (pretty (tr_Planned t) +:+ "/" +:+ pretty (tr_AfterCaps t) +:+ "/" +:+ pretty (tr_Eligible t))) ::
   (if 0 <? tr_ExcludedByBreaker t then [("brk", Some (pretty (tr_ExcludedByBreaker t)))] else []) ++
   (if 0 <? tr_ExcludedByQuota t then [("q", Some (pretty (tr_ExcludedByQuota t)))] else []))%list.

Definition prevWire (prev : list string) : list wireField := match prev with [] => [] | _ => [("prev", Some (String.concat "," prev))] end.

Lemma protectedFields_wire t : protectedFields t = renderField <$> protectedWire t.
Proof.
  unfold protectedFields, protectedWire. rewrite !fmap_app. repeat f_equal; cbv zeta.
  - by destruct (negb _ && negb _).
  - destruct (tr_Served t) as [a|]; [|done]. by destruct (1 <? ta_Index a).
  - by destruct (tr_CapsRequired t).
  - by destruct (empty_str _).
Qed.

Lemma concat_cons2 (sep x y : string) l : String.concat sep (x :: y :: l) = x +:+ sep +:+ String.concat sep (y :: l).
Proof. done. Qed.

(** A field that holds the separator is two fields. *)
Lemma concat_inner (sep x y : string) l r : String.concat sep (l ++ (x +:+ sep +:+ y) :: r)%list = String.concat sep (l ++ x :: y :: r)%list.
Proof.
  induction l as [|a l IH]; cbn [app].
  - destruct r as [|b r]; [done|]. by rewrite !concat_cons2, <- !(assoc_L String.append).
  - destruct l as [|b l]; cbn [app] in *; rewrite !(concat_cons2 sep a); by rewrite IH.
Qed.

Lemma buildHeader_wire t prev :
  buildHeader (protectedFields t) (shapeField t) (excludedField t) prev true =
  String.concat ";" (renderField <$> (protectedWire t ++ chainWire t ++ prevWire prev)%list).
Proof.
  unfold buildHeader, chainWire. rewrite protectedFields_wire, !fmap_app.
  change traceFieldSep with ";". replace (empty_str (shapeField t)) with false by done.
  assert (Hprev : match prev with [] => [] | _ => ["prev=" +:+ String.concat "," prev] end = renderField <$> prevWire prev) by by destruct prev.
  rewrite Hprev. generalize (renderField <$> protectedWire t) (renderField <$> prevWire prev). intros ps vs.
  rewrite fmap_cons, fmap_app. unfold excludedField. change (renderField ("n", Some ?x)) with (shapeField t).
  destruct (0 <? tr_ExcludedByBreaker t), (0 <? tr_ExcludedByQuota t); cbn [fmap list_fmap]; unfold renderField; cbn [fst snd].
  - transitivity (String.concat ";" ((ps ++ [shapeField t]) ++ (("brk=" +:+ pretty (tr_ExcludedByBreaker t)) +:+ ";" +:+ ("q=" +:+ pretty (tr_ExcludedByQuota t))) :: vs)%list).
    + f_equal. rewrite <- !(assoc_L app). cbn [app]. do 3 f_equal. change (empty_str ("brk=" +:+ ?x)) with false. by rewrite <- !(assoc_L String.append).
    + rewrite concat_inner, <- !(assoc_L app). done.
  - done.
  - done.
  - done.
Qed.

(** Values are free of separators. *)
Lemma safe_part c : safeByte c = true -> partByte c = true.
Proof. destruct c as [[] [] [] [] [] [] [] []]; by vm_compute. Qed.

Lemma digit_part c : digitByte c = true -> partByte c = true.
Proof. destruct c as [[] [] [] [] [] [] [] []]; by vm_compute. Qed.

Lemma sanitize_part value : strAll partByte (traceSanitize value).
Proof. apply strAll_of_list. eapply Forall_impl; [apply sanitize_safe|]. intros c. apply safe_part. Qed.

Lemma pretty_part (z : Z) : strAll partByte (pretty z).
Proof. by apply strAll_pretty_Z; [apply digit_part|]. Qed.

Lemma fixed_part prec x : strAll partByte (FormatFixed prec x).
Proof. apply strAll_FormatFixed; [apply digit_part|by repeat constructor]. Qed.

Create HintDb wire.
#[local] Hint Resolve sanitize_part pretty_part fixed_part : wire.
#[local] Hint Extern 1 (strAll partByte _) => (by repeat constructor) : wire.

Ltac part_text :=
  repeat match goal with
  | |- strAll partByte (_ +:+ _) => apply strAll_app; split
  | |- strAll partByte (if ?b then _ else _) => destruct b
  end; auto with wire.

Lemma wireOK_value k v : bool_decide (k <> "" /\ strAll partByte k /\ noByte "=" k) = true -> strAll partByte v -> wireOK (k, Some v).
Proof. intros (? & ? & ?)%bool_decide_eq_true_1 Hv. by split_and!. Qed.

Lemma protectedWire_ok t : Forall wireOK (protectedWire t).
Proof.
  unfold protectedWire. rewrite !Forall_app, !Forall_cons, Forall_nil. split_and!; try done.
  - split_and!; try done; [by repeat constructor|apply noByte_decide; by vm_compute].
  - apply wireOK_value; [done|part_text].
  - apply wireOK_value; [done|]. unfold compression_header, humanBytes. part_text.
  - destruct (negb _ && negb _); [|done]. apply Forall_singleton, wireOK_value; [done|part_text].
  - destruct (tr_Served t) as [a|]; [|done]. apply Forall_cons_2; [apply wireOK_value; [done|part_text]|].
    destruct (1 <? ta_Index a); [|done]. apply Forall_singleton, wireOK_value; [done|part_text].
  - destruct (tr_CapsRequired t); [done|]. apply Forall_singleton, wireOK_value; [done|part_text].
  - cbv zeta. destruct (empty_str (traceRuleID (tr_RuleID t))); [done|]. apply Forall_singleton, wireOK_value; [done|]. unfold traceRuleID. part_text.
Qed.

Lemma chainWire_ok t : Forall wireOK (chainWire t).
Proof.
  unfold chainWire. apply Forall_cons_2; [apply wireOK_value; [done|part_text]|]. apply Forall_app. split.
  - destruct (0 <? tr_ExcludedByBreaker t); [|done]. apply Forall_singleton, wireOK_value; [done|part_text].
  - destruct (0 <? tr_ExcludedByQuota t); [|done]. apply Forall_singleton, wireOK_value; [done|part_text].
Qed.

Lemma prevWire_ok t k : Forall wireOK (prevWire (take k (prevEntries t))).
Proof.
  unfold prevWire. destruct (take k (prevEntries t)) as [|e es] eqn:E; [done|]. rewrite <- E. apply Forall_singleton, wireOK_value; [done|].
  apply strAll_concat; [by repeat constructor|]. apply Forall_take. unfold prevEntries. rewrite Forall_fmap, Forall_forall. intros a _.
  cbn [compose]. unfold traceShortModel, attemptCode. part_text.
Qed.

Definition truncWire : wireField := ("trunc", Some "1").

(** Every header is the protected fields and some of the others, with the mark
    of truncation when some are missing. *)
Lemma header_wire t :
  let fits := (String.length (buildHeader (protectedFields t) (shapeField t) (excludedField t) (prevEntries t) true) <= traceMaxHeader)%nat in
  exists extra, header t = String.concat ";" (renderField <$> (protectedWire t ++ extra)%list) /\ Forall wireOK extra /\
    (fits /\ extra = (chainWire t ++ prevWire (prevEntries t))%list \/
     ~ fits /\ exists some, extra = (some ++ [truncWire])%list /\ (some = [] \/ exists k, some = (chainWire t ++ prevWire (take k (prevEntries t)))%list)).
Proof.
  cbv zeta. unfold header. assert (Htrunc : wireOK truncWire) by (apply wireOK_value; [done|by repeat constructor]).
  assert (Hsnoc : forall fs, fs <> [] -> String.concat ";" (renderField <$> fs) +:+ truncated = String.concat ";" (renderField <$> (fs ++ [truncWire])%list)).
  { intros fs Hne. rewrite fmap_app. cbn [fmap list_fmap]. rewrite concat_snoc by by destruct fs. done. }
  destruct (render_cases (protectedFields t) (shapeField t) (excludedField t) (prevEntries t)) as [[Hl ->]|[Hl [(k & Hk & -> & _)| ->]]].
  - exists (chainWire t ++ prevWire (prevEntries t))%list. split_and!; [apply buildHeader_wire| |by left].
    apply Forall_app. split; [apply chainWire_ok|]. rewrite <- (firstn_all (prevEntries t)). apply prevWire_ok.
  - rewrite buildHeader_wire, Hsnoc, <- (assoc_L app) by by destruct t.
    eexists. split_and!; [done| |right; split; [lia|]; eexists; split; [done|right; by exists k]].
    rewrite !Forall_app, Forall_singleton. split_and!; [apply chainWire_ok|apply prevWire_ok|done].
  - assert (String.concat ";" (protectedFields t) = String.concat ";" (renderField <$> protectedWire t)) as -> by by rewrite protectedFields_wire.
    rewrite Hsnoc by done. exists [truncWire]. split_and!; [done|by apply Forall_singleton|].
    right. split; [lia|]. exists []. split; [done|by left].
Qed.

(** The value of each key in each group of fields. *)
Lemma protectedWire_get t :
  wireGet "p" (protectedWire t) = Some (traceSanitize (tr_Profile t)) /\ wireGet "cmp" (protectedWire t) = Some (compression_header (tr_compression t)) /\
  wireGet "o" (protectedWire t) = (if negb (empty_str (tr_Outcome t)) && negb (str_eq (tr_Outcome t) outcomeServed) then Some (traceSanitize (tr_Outcome t)) else None) /\
  wireGet "s" (protectedWire t) = (fun a => FormatFixed 2 (ta_Score a)) <$> tr_Served t /\
  wireGet "a" (protectedWire t) = (a ← tr_Served t; if 1 <? ta_Index a then Some (pretty (ta_Index a)) else None) /\
  forall k, k ∈ ["n"; "brk"; "q"; "prev"; "trunc"] -> wireGet k (protectedWire t) = None.
Proof.
  unfold protectedWire. cbv zeta. destruct (negb (empty_str (tr_Outcome t)) && negb (str_eq (tr_Outcome t) outcomeServed)), (tr_CapsRequired t),
    (empty_str (traceRuleID (tr_RuleID t))), (tr_Served t) as [a|]; try destruct (1 <? ta_Index a) eqn:E; split_and!; try done.
  all: try (cbn; by rewrite E).
  all: intros k Hk; repeat (apply elem_of_cons in Hk as [->|Hk]; [done|]); by apply elem_of_nil in Hk.
Qed.

Lemma chainWire_get t prev :
  let fs := (chainWire t ++ prevWire prev)%list in
  wireGet "n" fs = Some (pretty (tr_Planned t) +:+ "/" +:+ pretty (tr_AfterCaps t) +:+ "/" +:+ pretty (tr_Eligible t)) /\
  wireGet "brk" fs = (if 0 <? tr_ExcludedByBreaker t then Some (pretty (tr_ExcludedByBreaker t)) else None) /\
  wireGet "q" fs = (if 0 <? tr_ExcludedByQuota t then Some (pretty (tr_ExcludedByQuota t)) else None) /\
  wireGet "prev" fs = (match prev with [] => None | _ => Some (String.concat "," prev) end) /\
  forall k, k ∈ ["p"; "cmp"; "o"; "s"; "a"; "trunc"] -> wireGet k fs = None.
Proof.
  cbv zeta. unfold chainWire, prevWire. destruct (0 <? tr_ExcludedByBreaker t), (0 <? tr_ExcludedByQuota t), prev; split_and!; try done.
  all: intros k Hk; repeat (apply elem_of_cons in Hk as [->|Hk]; [done|]); by apply elem_of_nil in Hk.
Qed.

(** C36: what the client reads is what the proxy decided.  From any header the
    proxy writes, the reader recovers the profile, the compression, the
    outcome, the score and the number of the attempt that served; from one
    that is complete, also the shape of the chain, what the circuits and the
    quotas excluded and the failed attempts; and it knows when something is
    missing. *)
Theorem chat_reads_the_decision t :
  let fields := parseRoute (header t) in
  let fits := (String.length (buildHeader (protectedFields t) (shapeField t) (excludedField t) (prevEntries t) true) <= traceMaxHeader)%nat in
  fields !! "p" = Some (traceSanitize (tr_Profile t)) /\
  fields !! "cmp" = Some (compression_header (tr_compression t)) /\
  fields !! "o" = (if negb (empty_str (tr_Outcome t)) && negb (str_eq (tr_Outcome t) outcomeServed) then Some (traceSanitize (tr_Outcome t)) else None) /\
  fields !! "s" = (fun a => FormatFixed 2 (ta_Score a)) <$> tr_Served t /\
  fields !! "a" = (a ← tr_Served t; if 1 <? ta_Index a then Some (pretty (ta_Index a)) else None) /\
  (fits -> fields !! "n" = Some (pretty (tr_Planned t) +:+ "/" +:+ pretty (tr_AfterCaps t) +:+ "/" +:+ pretty (tr_Eligible t)) /\
     fields !! "brk" = (if 0 <? tr_ExcludedByBreaker t then Some (pretty (tr_ExcludedByBreaker t)) else None) /\
     fields !! "q" = (if 0 <? tr_ExcludedByQuota t then Some (pretty (tr_ExcludedByQuota t)) else None) /\
     fields !! "prev" = (match prevEntries t with [] => None | prev => Some (String.concat "," prev) end) /\ fields !! "trunc" = None) /\
  (~ fits -> fields !! "trunc" = Some "1").
Proof.
  cbv zeta. destruct (header_wire t) as (extra & -> & Hok & Hextra). cbv zeta in Hextra.
  rewrite parseRoute_render; [|done|apply Forall_app; split; [apply protectedWire_ok|done]].
  rewrite !fold_setField, !lookup_empty, !wireGet_app. destruct (protectedWire_get t) as (Hp & Hc & Ho & Hs & Ha & Hn).
  assert (Hnone : forall k, k ∈ ["p"; "cmp"; "o"; "s"; "a"] -> wireGet k extra = None).
  { intros k Hk. assert (Hk' : k ∈ ["p"; "cmp"; "o"; "s"; "a"; "trunc"]) by set_solver.
    destruct Hextra as [[_ ->]|(_ & some & -> & Hsome)]; [by apply chainWire_get|]. rewrite wireGet_app.
    replace (wireGet k [truncWire]) with (@None string) by (cbn [wireGet truncWire]; destruct (str_eq "trunc" k) eqn:E; [apply str_eq_spec in E; set_solver|done]).
    destruct Hsome as [->|[j ->]]; [done|by apply chainWire_get]. }
  rewrite (Hnone "p"), (Hnone "cmp"), (Hnone "o"), (Hnone "s"), (Hnone "a"), Hp, Hc, Ho, Hs, Ha by (clear; set_solver). split_and!; try done.
  - by destruct (if _ && _ then _ else _).
  - by destruct (tr_Served t).
  - destruct (tr_Served t) as [a|]; [|done]. cbn. by destruct (1 <? ta_Index a).
  - intros Hfits. destruct Hextra as [[_ ->]|[? _]]; [|done]. destruct (chainWire_get t (prevEntries t)) as (-> & -> & -> & -> & Ht).
    rewrite (Ht "trunc"), (Hn "brk"), (Hn "q"), (Hn "prev"), (Hn "trunc") by (clear; set_solver). split_and!; try done; [by destruct (0 <? tr_ExcludedByBreaker t)|by destruct (0 <? tr_ExcludedByQuota t)|by destruct (prevEntries t)].
  - intros Hfits. destruct Hextra as [[? _]|(_ & some & -> & _)]; [done|]. by rewrite wireGet_app.
Qed.
