(* ===== verification/Keepalive.v ===== *)
(** * Keepalive: the launcher of the proxy (cmd/keepalive-launcher)

    The launcher starts the proxy unless something already listens on its
    port, and waits until it is ready.  The inherited environment is the list
    of its entries; the probes are the argument [probe], the answer to each
    request for the health report. *)

From S2P Require Import Prelude Env Split.
From Stdlib Require Import Lia ZArith String Ascii.
#[local] Open Scope string_scope.

Definition launcherPort : string := "8080".
Definition healthURL : string := "http://127.0.0.1:8080/health".

Definition addEnv (env : gmap string string) (kv : string) : gmap string string :=
  match cut "=" kv with (k, Some v) => <[k := v]> env | _ => env end.

Definition launcherSettings : list (string * string) :=
  [("PORT", launcherPort); ("GRPC_PORT", "19090"); ("OTEL_ENABLED", "false"); ("PROXY_MAX_COMPLETION_TOKENS", "8192");
   ("PROXY_TOOL_RESULT_LIMIT", "8192"); ("PROXY_OLLAMA_URL", "http://127.0.0.1:11434"); ("PROXY_REQUEST_TIMEOUT_SECONDS", "90");
   ("PROXY_TOTAL_TIMEOUT_SECONDS", "180"); ("PROXY_STREAM_IDLE_TIMEOUT", "20"); ("PROXY_STREAM_FIRST_BYTE_TIMEOUT", "3")].

(** The map the entries of the child are made from. *)
Definition childEnv (base : list string) : gmap string string :=
  fold_left (fun env '(k, v) => <[k := v]> env) launcherSettings (delete "OPENROUTER_API_KEY" (fold_left addEnv base ∅)).

Definition buildChildEnv `{MapRange} (base : list string) : list string :=
  (fun '(k, v) => k +:+ "=" +:+ v) <$> range_of (childEnv base).

(** The loop of 16 probes: how many are made. *)
Fixpoint probesMade (probe : nat -> option bool) (i n : nat) : nat :=
  match n with
  | O => O
  | S n => S (match probe i with Some true => O | _ => probesMade probe (S i) n end)
  end.

(** What the launcher does: nothing, a start that fails, or a start with this
    environment followed by this many probes, with a bearer token or none. *)
Inductive launch := AlreadyUp | StartFailed | Started (env : list string) (bearer : option string) (probes : nat).

Definition launcher `{MapRange} (portOpen starts : bool) (base : list string) (probe : nat -> option bool) : launch :=
  if portOpen then AlreadyUp
  else if negb starts then StartFailed
  else
    let adminToken := default "" (fold_left addEnv base ∅ !! "PROXY_ADMIN_TOKEN") in
    Started (buildChildEnv base) (if negb (empty_str adminToken) then Some adminToken else None) (probesMade probe 0 16).

(** ** Theorems *)

Lemma fold_settings (l : list (string * string)) : forall (m : gmap string string) k, fold_left (fun env '(k, v) => <[k := v]> env) l m !! k =
  match List.find (fun kv => str_eq kv.1 k) (rev l) with Some kv => Some kv.2 | None => m !! k end.
Proof.
  induction l as [|[k' v] l IH] using rev_ind; intros m k; [done|].
  rewrite fold_left_app, rev_app_distr. cbn [fold_left rev app List.find fst snd]. destruct (str_eq k' k) eqn:E.
  - apply str_eq_spec in E as ->. by rewrite lookup_insert_eq.
  - rewrite lookup_insert_ne; [apply IH|]. intros ->. by rewrite (proj2 (str_eq_spec k k) eq_refl) in E.
Qed.

(** The child starts with the launcher's settings whatever it inherits, never
    with the key of the environment, and otherwise with what the launcher
    has. *)
Theorem child_environment base k :
  childEnv base !! k =
  match List.find (fun kv => str_eq kv.1 k) (rev launcherSettings) with
  | Some kv => Some kv.2
  | None => if str_eq k "OPENROUTER_API_KEY" then None else fold_left addEnv base ∅ !! k
  end.
Proof.
  unfold childEnv. rewrite fold_settings. destruct (List.find _ _); [done|]. destruct (str_eq k "OPENROUTER_API_KEY") eqn:E.
  - apply str_eq_spec in E as ->. by rewrite lookup_delete_eq.
  - rewrite lookup_delete_ne; [done|]. intros <-. by rewrite (proj2 (str_eq_spec _ _) eq_refl) in E.
Qed.

(** The wait ends: after at most 16 probes, and at the first that finds the
    proxy ready. *)
Theorem launcher_wait_ends probe i n :
  (probesMade probe i n <= n)%nat /\
  (forall j, (j + 1 < probesMade probe i n)%nat -> probe (i + j)%nat <> Some true) /\
  ((probesMade probe i n < n)%nat -> probe (i + probesMade probe i n - 1)%nat = Some true).
Proof.
  revert i. induction n as [|n IH]; intros i; cbn [probesMade]; [split_and!; [lia|intros; lia|lia]|].
  destruct (probe i) as [[]|] eqn:E.
  { split_and!; [lia|intros; lia|]. intros _. by replace (i + 1 - 1)%nat with i by lia. }
  all: destruct (IH (S i)) as (H1 & H2 & H3); split_and!; [lia| |].
  all: try (intros [|j] Hj; [by rewrite Nat.add_0_r, E|]; replace (i + S j)%nat with (S i + j)%nat by lia; apply H2; lia).
  all: intros Hlt; replace (i + S (probesMade probe (S i) n) - 1)%nat with (S i + probesMade probe (S i) n - 1)%nat by lia; apply H3; lia.
Qed.
