(* ===== verification/SideEffects.v ===== *)
(** * SideEffects: the workspace extractor (router_side_effects.go)

    When it is enabled, every successful response runs git in a workspace and
    may write to a local database.  A command is its list of words; [exec] is
    what it prints, given the commands run before it, and [None] when it
    fails.  The result is the metadata [ToolCap] puts on the first message. *)

From S2P Require Import Prelude Float Env Text Split Json ToolCap.
From Stdlib Require Import Lia ZArith String Ascii.
#[local] Open Scope string_scope.

Definition defaultWorkspaceRoot : string := "/workspace/calvoproxy".
Definition defaultOpenCodeDB : string := "/workspace/opencode_state/share/opencode.db".

Record WorkspaceSideEffectExtractor := mkExtractor { WorkspaceRoot : string; OpenCodeDB : string }.

Definition NewWorkspaceSideEffectExtractor : WorkspaceSideEffectExtractor := mkExtractor defaultWorkspaceRoot defaultOpenCodeDB.

Definition sideEffectsFromEnv (env : environ) : option WorkspaceSideEffectExtractor :=
  if negb (envBool env "PROXY_WORKSPACE_SIDE_EFFECTS" false) then None else Some NewWorkspaceSideEffectExtractor.

Section extract.
Context (exec : list (list string) -> list string -> option string) (readFile : string -> option string) (stat : string -> bool)
        (sqlFor : string -> string -> string -> string).

(** Run a command after those already run. *)
Definition run (cmd : list string) (ran : list (list string)) : option string * list (list string) := (exec ran cmd, (ran ++ [cmd])%list).

Definition nonempty_lines (out : string) : list string :=
  List.filter (fun f => negb (empty_str f)) (TrimSpace <$> split_on (byte 10) out).

Definition fileMetadata (path content original : string) : json :=
  JObj (<["path" := JStr path]> (<["action" := JStr "modified"]> (<["description" := JStr "Updated by AI Agent"]>
    (<["content" := JStr content]> (<["original" := JStr original]> ∅))))).

Fixpoint filesMetadata (root pre : string) (files : list string) (ran : list (list string)) : list json * list (list string) :=
  match files with
  | [] => ([], ran)
  | f :: files =>
      let content := default "" (readFile (root +:+ "/" +:+ f)) in
      let '(original, ran) :=
        if negb (empty_str pre) then let '(out, ran) := run ["git"; "-C"; root; "show"; pre +:+ ":" +:+ f] ran in (default "" out, ran) else ("", ran) in
      let '(rest, ran) := filesMetadata root pre files ran in
      (fileMetadata f content original :: rest, ran)
  end.

(** [sqlFor db pre post] is the text of the shell command.  The content of
    the message is not looked at. *)
Definition Extract (e : WorkspaceSideEffectExtractor) (content : string) (ran : list (list string)) : option json * list (list string) :=
  let root := if empty_str (WorkspaceRoot e) then defaultWorkspaceRoot else WorkspaceRoot e in
  let git args := ("git" :: "-C" :: root :: args) in
  let '(_, ran) := run (git ["add"; "."]) ran in
  let '(out, ran) := run (git ["rev-parse"; "HEAD"]) ran in
  let post := default "" (TrimSpace <$> out) in
  let '(out, ran) := run (git ["rev-parse"; "HEAD~1"]) ran in
  let pre := default "" (TrimSpace <$> out) in
  let '(files, ran) :=
    if negb (empty_str pre) && negb (empty_str post) then
      let '(out, ran) := run (git ["diff"; "--name-only"; pre; post]) ran in
      (match out with Some out => nonempty_lines out | None => [] end, ran)
    else ([], ran) in
  match files with
  | [] => (None, ran)
  | _ =>
      let '(metadata, ran) := filesMetadata root pre files ran in
      let db := if empty_str (OpenCodeDB e) then defaultOpenCodeDB else OpenCodeDB e in
      let ran := if stat db then (run ["sh"; "-c"; sqlFor db pre post] ran).2 else ran in
      (Some (JObj {["side_effects" := JObj (<["files" := JArr metadata]> {["summary" := JStr "Workspace state change detected"]})]}), ran)
  end.
End extract.

(** ** Theorems *)

(** Without the setting there is no extractor. *)
Theorem side_effects_off_by_default : sideEffectsFromEnv ∅ = None.
Proof. done. Qed.

(** A repository: the commit it is at, the one before, and the names that
    differ between two commits; staging changes no commit. *)
Definition commits (root head previous : string) (diff : string) (ran : list (list string)) (cmd : list string) : option string :=
  match drop 3 cmd with
  | ["rev-parse"; "HEAD"] => Some head
  | ["rev-parse"; "HEAD~1"] => Some previous
  | ["diff"; "--name-only"; _; _] => Some diff
  | _ => Some ""
  end.

Lemma filesMetadata_paths exec readFile root pre files : forall ran,
  (fun j => strAt (orEmpty (asObj j)) "path") <$> (filesMetadata exec readFile root pre files ran).1 = files.
Proof.
  induction files as [|f files IH]; intros ran; [done|]. cbn [filesMetadata]. unfold run. destruct (negb (empty_str pre)).
  all: match goal with |- context [filesMetadata _ _ _ _ _ ?d] => specialize (IH d) end.
  all: destruct (filesMetadata _ _ _ _ _ _) as [rest d']; cbn [fst] in *; rewrite fmap_cons, IH; done.
Qed.

(** What is reported are the files of the last commit, whatever the message
    says and whatever changed in the workspace: the same files after every
    response until something is committed. *)
Theorem extract_reports_last_commit readFile stat sqlFor e content ran head previous diff :
  TrimSpace head <> "" -> TrimSpace previous <> "" -> nonempty_lines diff <> [] ->
  exists files,
    (Extract (commits (WorkspaceRoot e) head previous diff) readFile stat sqlFor e content ran).1 =
      Some (JObj {["side_effects" := JObj (<["files" := JArr files]> {["summary" := JStr "Workspace state change detected"]})]}) /\
    (fun j => strAt (orEmpty (asObj j)) "path") <$> files = nonempty_lines diff.
Proof.
  intros Hh Hp Hd. unfold Extract, run. cbn [commits drop fmap option_fmap option_map]. change (default "" (Some ?x)) with x.
  assert (empty_str (TrimSpace previous) = false) as -> by by apply bool_decide_eq_false_2.
  assert (empty_str (TrimSpace head) = false) as -> by by apply bool_decide_eq_false_2. cbn [negb andb].
  set (files := nonempty_lines diff) in *. clearbody files. destruct files as [|f fs]; [done|].
  match goal with |- context [filesMetadata ?ex ?rf ?r ?p ?l ?d] =>
    pose proof (filesMetadata_paths ex rf r p l d) as Hpaths; destruct (filesMetadata ex rf r p l d) as [metadata d'] end.
  by exists metadata.
Qed.

Lemma extract_reports_last_commit_witness :
  exists files,
    (Extract (commits "/w" "b2" "a1" "main.go") (fun _ => None) (fun _ => false) (fun _ _ _ => "") (mkExtractor "/w" "/db") "no files were changed" []).1 =
      Some (JObj {["side_effects" := JObj (<["files" := JArr files]> {["summary" := JStr "Workspace state change detected"]})]}) /\
    (fun j => strAt (orEmpty (asObj j)) "path") <$> files = ["main.go"].
Proof.
  exact (extract_reports_last_commit (fun _ => None) (fun _ => false) (fun _ _ _ => "") (mkExtractor "/w" "/db") "no files were changed" [] "b2" "a1" "main.go"
    ltac:(done) ltac:(done) ltac:(done)).
Defined.
