(* ===== verification/MasterKeys.v ===== *)
(** * MasterKeys: where the vault gets its key (secretstore/masterkey_*.go)

    On Linux the key is a private file that the deployment provides.  On
    Windows and macOS it is made on first use and kept in the user's key store,
    and several processes may come first: the Windows source is a machine over
    the file they share, one step per system call, and the macOS source one
    over the keychain.  DPAPI is the class [DPAPI]. *)

From S2P Require Import Prelude Env Text Split Files Vault.
From Stdlib Require Import Lia ZArith String Ascii.
#[local] Open Scope string_scope.

Definition masterKeySize : nat := 32.

(** ** Linux *)

Definition systemdMasterKeyCredential : string := "calvoproxy-vault-master-key".
Definition masterKeyFileEnvironment : string := "PROXY_VAULT_MASTER_KEY_FILE".

Definition linuxBackend (env : environ) : string :=
  if negb (empty_str (Getenv env "CREDENTIALS_DIRECTORY")) then "linux-systemd-credential" else "linux-mounted-file".

(** What opening a path without following links finds: a link, an error, or
    an open file with its kind, its permission bits, its bytes and whether
    they can be read. *)
Inductive opened := IsLink | OpenError | Opened (regular : bool) (perm : Z) (data : string) (readable : bool).

Definition readPrivateMasterKey (o : opened) : string + string :=
  match o with
  | IsLink => inl "master-key file must not be a symbolic link"
  | OpenError => inl "open master-key file"
  | Opened regular perm data readable =>
      if negb regular then inl "master-key path must be a regular file"
      else if negb (Z.land perm 63 =? 0)%Z then inl "permissions allow group or world access"
      else if negb readable then inl "read master-key file"
      else
        let key := readLimited (Z.of_nat masterKeySize + 1) data in
        if negb (String.length key =? masterKeySize)%nat then inl "wrong size" else inr key
  end.

Definition linuxLoad (env : environ) (cancelled : bool) (join : list string -> string) (open : string -> opened) : string + string :=
  if cancelled then inl "cancelled"
  else
    let directory := Getenv env "CREDENTIALS_DIRECTORY" in
    let path := Getenv env masterKeyFileEnvironment in
    if negb (empty_str directory) then readPrivateMasterKey (open (join [directory; systemdMasterKeyCredential]))
    else if negb (empty_str path) then readPrivateMasterKey (open path)
    else inl "master key unavailable".

(** The key comes only from a file of its exact size that is no link and that
    nobody but its owner can touch; and such a file always gives its key. *)
Theorem linux_key_is_private o key :
  readPrivateMasterKey o = inr key <->
  exists perm, o = Opened true perm key true /\ Z.land perm 63 = 0%Z /\ String.length key = masterKeySize.
Proof.
  split.
  - destruct o as [| |regular perm data readable]; try done. cbn [readPrivateMasterKey]. destruct regular; [|done].
    destruct (Z.eqb_spec (Z.land perm 63) 0) as [Hp|]; [|done]. destruct readable; [|done]. cbn [negb].
    unfold readLimited. destruct (Z.leb_spec (Z.of_nat (String.length data)) (Z.of_nat masterKeySize + 1)) as [Hl|Hl].
    + destruct (Nat.eqb_spec (String.length data) masterKeySize) as [He|]; [|done]. intros [= <-]. by exists perm.
    + destruct (Nat.eqb_spec (String.length (String.substring 0 (Z.to_nat (Z.of_nat masterKeySize + 1)) data)) masterKeySize) as [He|]; [|done].
      exfalso. rewrite substring_length in He. unfold masterKeySize in *. lia.
  - intros (perm & -> & Hp & Hl). cbn [readPrivateMasterKey negb]. rewrite Hp. cbn [negb Z.eqb]. unfold readLimited.
    rewrite (proj2 (Z.leb_le _ _)) by lia. by rewrite Hl, Nat.eqb_refl.
Qed.

(** A key that was loaded is one the vault accepts. *)
Theorem linux_key_opens_vault env join open key ce :
  linuxLoad env false join open = inr key -> ce_cancelled ce = false -> ce_key ce = Some key -> loadKey ce = inr key.
Proof.
  intros Hl Hc Hk. assert (Hlen : String.length key = masterKeySize).
  { unfold linuxLoad in Hl. destruct (negb _); [|destruct (negb _); [|done]]; apply linux_key_is_private in Hl as (? & _ & _ & ?); done. }
  unfold loadKey. rewrite Hc, Hk, Hlen. done.
Qed.

(** ** Windows *)

(** What DPAPI promises: what was protected can be unprotected, a blob is not
    empty, and one that is not whole is refused. *)
Class DPAPI := {
  protect : string -> string;
  unprotect : string -> option string;
  unprotect_protect : forall key, unprotect (protect key) = Some key;
  protect_nonempty : forall key, protect key <> "";
  unprotect_partial : forall key n, (n < String.length (protect key))%nat -> unprotect (String.substring 0 n (protect key)) = None;
}.

Section windows.
Context `{DPAPI}.

Definition unprotectWindowsData (ciphertext : string) : option string :=
  if empty_str ciphertext then None
  else match unprotect ciphertext with
       | Some key => if (String.length key =? masterKeySize)%nat then Some key else None
       | None => None
       end.

(** A load between its system calls; [None] is an error. *)
Inductive loadPhase :=
| LStart
| LCreate (key : string)
| LReread
| LWrite (key : string)
| LSync (key : string)
| LRemove
| LDone (result : option string).

(** The blob, and the load each process is in. *)
Record windowsState := mkWindows { blob : option string; loads : gmap nat loadPhase }.

(** One system call of process [p].  [flaky] is whether a write that succeeded
    may still fail to be synced or closed. *)
Inductive loadStep (flaky : bool) : windowsState -> windowsState -> Prop :=
| Step_read_blob p c ls : ls !! p = Some LStart ->
    loadStep flaky (mkWindows (Some c) ls) (mkWindows (Some c) (<[p := LDone (unprotectWindowsData c)]> ls))
| Step_read_missing p key ls : ls !! p = Some LStart -> String.length key = masterKeySize ->
    loadStep flaky (mkWindows None ls) (mkWindows None (<[p := LCreate key]> ls))
| Step_fail p ph b ls : ls !! p = Some ph -> match ph with LStart | LCreate _ | LReread => True | _ => False end ->
    loadStep flaky (mkWindows b ls) (mkWindows b (<[p := LDone None]> ls))
| Step_create p key ls : ls !! p = Some (LCreate key) ->
    loadStep flaky (mkWindows None ls) (mkWindows (Some "") (<[p := LWrite key]> ls))
| Step_create_lost p key c ls : ls !! p = Some (LCreate key) ->
    loadStep flaky (mkWindows (Some c) ls) (mkWindows (Some c) (<[p := LReread]> ls))
| Step_reread p c ls : ls !! p = Some LReread ->
    loadStep flaky (mkWindows (Some c) ls) (mkWindows (Some c) (<[p := LDone (unprotectWindowsData c)]> ls))
| Step_write p key b ls : ls !! p = Some (LWrite key) ->
    loadStep flaky (mkWindows b ls) (mkWindows (Some (protect key)) (<[p := LSync key]> ls))
| Step_write_fails p key n b ls : ls !! p = Some (LWrite key) -> (n < String.length (protect key))%nat ->
    loadStep flaky (mkWindows b ls) (mkWindows (Some (String.substring 0 n (protect key))) (<[p := LRemove]> ls))
| Step_sync p key b ls : ls !! p = Some (LSync key) ->
    loadStep flaky (mkWindows b ls) (mkWindows b (<[p := LDone (Some key)]> ls))
| Step_sync_fails p key b ls : flaky = true -> ls !! p = Some (LSync key) ->
    loadStep flaky (mkWindows b ls) (mkWindows b (<[p := LRemove]> ls))
| Step_remove p b ls : ls !! p = Some LRemove ->
    loadStep flaky (mkWindows b ls) (mkWindows None (<[p := LDone None]> ls)).

(** Any number of processes, each at its start. *)
Definition allStart (w : windowsState) : Prop := blob w = None /\ forall p ph, loads w !! p = Some ph -> ph = LStart.

(** ** macOS *)

(** The keychain adds an item only if there is none. *)
Inductive darwinPhase := DStart | DAdd (key : string) | DFind | DDone (result : option string).

Record darwinState := mkDarwin { item : option string; finds : gmap nat darwinPhase }.

Definition darwinFind (it : option string) : option string :=
  match it with Some key => if (String.length key =? masterKeySize)%nat then Some key else None | None => None end.

Inductive darwinStep : darwinState -> darwinState -> Prop :=
| Darwin_find p key fs : fs !! p = Some DStart ->
    darwinStep (mkDarwin (Some key) fs) (mkDarwin (Some key) (<[p := DDone (darwinFind (Some key))]> fs))
| Darwin_missing p key fs : fs !! p = Some DStart -> String.length key = masterKeySize ->
    darwinStep (mkDarwin None fs) (mkDarwin None (<[p := DAdd key]> fs))
| Darwin_fail p ph it fs : fs !! p = Some ph -> match ph with DDone _ => False | _ => True end ->
    darwinStep (mkDarwin it fs) (mkDarwin it (<[p := DDone None]> fs))
| Darwin_add p key fs : fs !! p = Some (DAdd key) ->
    darwinStep (mkDarwin None fs) (mkDarwin (Some key) (<[p := DDone (Some key)]> fs))
| Darwin_duplicate p key other fs : fs !! p = Some (DAdd key) ->
    darwinStep (mkDarwin (Some other) fs) (mkDarwin (Some other) (<[p := DFind]> fs))
| Darwin_refind p it fs : fs !! p = Some DFind ->
    darwinStep (mkDarwin it fs) (mkDarwin it (<[p := DDone (darwinFind it)]> fs)).

(** ** Every process gets the same key *)

Lemma unprotectWindowsData_spec c key : unprotectWindowsData c = Some key -> unprotect c = Some key.
Proof. unfold unprotectWindowsData. destruct (empty_str c); [done|]. destruct (unprotect c) as [k|]; [|done]. by destruct (_ =? _)%nat. Qed.

Lemma unprotect_empty : unprotect "" = None.
Proof.
  pose proof (unprotect_partial "" 0) as Hp. replace (String.substring 0 0 (protect "")) with "" in Hp by by destruct (protect "").
  apply Hp. pose proof (protect_nonempty ""). destruct (protect ""); [done|]. simpl. lia.
Qed.

(** What the blob is while a load is in a phase. *)
Definition phaseOK (b : option string) (ph : loadPhase) : Prop :=
  match ph with
  | LWrite _ => b = Some ""
  | LRemove => exists c, b = Some c /\ unprotect c = None
  | LSync key | LDone (Some key) => b = Some (protect key)
  | _ => True
  end.

Definition busy (ph : loadPhase) : Prop := match ph with LWrite _ | LRemove => True | _ => False end.

Definition blobOK (b : option string) : Prop := match b with Some c => unprotect c = None \/ exists key, c = protect key | None => True end.

Definition loadInv (w : windowsState) : Prop :=
  blobOK (blob w) /\ (forall p ph, loads w !! p = Some ph -> phaseOK (blob w) ph) /\
  (forall p q ph ph', loads w !! p = Some ph -> loads w !! q = Some ph' -> busy ph -> busy ph' -> p = q).

(** Another load sees the same blob when it is not in the way. *)
Lemma loadInv_insert b b' ls p ph ph' :
  loadInv (mkWindows b ls) -> ls !! p = Some ph -> blobOK b' -> phaseOK b' ph' ->
  (forall q other, q <> p -> ls !! q = Some other -> phaseOK b other -> phaseOK b' other) ->
  (busy ph' -> busy ph \/ forall q other, ls !! q = Some other -> ~ busy other) ->
  loadInv (mkWindows b' (<[p := ph']> ls)).
Proof.
  intros (Hb & Hph & Hu) Hp Hb' Hph' Ho Hbusy. cbn [blob loads] in *. split_and!; cbn [blob loads]; [done| |].
  - intros q other [[<- <-]|[Hne Hq]]%lookup_insert_Some; [done|]. by eapply Ho; eauto.
  - intros q r x y [[<- <-]|[Hne Hq]]%lookup_insert_Some [[<- <-]|[Hne' Hr]]%lookup_insert_Some Hx Hy; [done| | |by eapply Hu].
    + destruct (Hbusy Hx) as [Hx'|Hn]; [by eapply Hu|]. by destruct (Hn _ _ Hr).
    + destruct (Hbusy Hy) as [Hy'|Hn]; [symmetry; by eapply (Hu p q)|]. by destruct (Hn _ _ Hq).
Qed.

Lemma phaseOK_read b c : b = Some c -> blobOK b -> phaseOK b (LDone (unprotectWindowsData c)).
Proof.
  intros -> Hb. cbn [phaseOK]. destruct (unprotectWindowsData c) as [key|] eqn:E; [|done]. apply unprotectWindowsData_spec in E.
  destruct Hb as [Hb|[k ->]]; [congruence|]. rewrite unprotect_protect in E. by simplify_eq.
Qed.

(** When the blob is not whole nobody has a key. *)
Lemma no_key_yet b other : (exists c, b = Some c /\ unprotect c = None) -> phaseOK b other -> forall b', ~ busy other -> phaseOK b' other.
Proof.
  intros (c & -> & Hc) Hph b' Hnb. destruct other as [| | |k|k| |[k|]]; try done; cbn [phaseOK] in Hph; simplify_eq; by rewrite unprotect_protect in Hc.
Qed.

Lemma loadStep_inv w w' : loadStep false w w' -> loadInv w -> loadInv w'.
Proof.
  destruct 1 as [p c ls Hp|p key ls Hp Hl|p ph b ls Hp Hph|p key ls Hp|p key c ls Hp|p c ls Hp|p key b ls Hp|p key n b ls Hp Hn|p key b ls Hp|p key b ls Hf|p b ls Hp];
    intros Hinv; [..|done|]; pose proof Hinv as (Hb & Hall & Hu); cbn [blob loads] in *; eapply (loadInv_insert _ _ _ _ _ _ Hinv Hp); try done; cbn [busy]; try by left.
  - by apply phaseOK_read.
  - left. apply unprotect_empty.
  - intros q other Hq Hl Ho. destruct other as [| | |k|k| |[k|]]; try done. destruct Ho as (? & ? & _). done.
  - right. intros q other Hq Hbusy. apply Hall in Hq. destruct other; try done. by destruct Hq as (? & ? & _).
  - by apply phaseOK_read.
  - right. by exists key.
  - intros q other Hq Hl Ho. eapply no_key_yet; [|exact Ho|]; [exists ""; split; [by apply (Hall p (LWrite key))|apply unprotect_empty]|].
    intros Hbusy. by destruct (Hq (Hu q p _ _ Hl Hp Hbusy I)).
  - left. by apply unprotect_partial.
  - exists (String.substring 0 n (protect key)). split; [done|by apply unprotect_partial].
  - intros q other Hq Hl Ho. eapply no_key_yet; [|exact Ho|]; [exists ""; split; [by apply (Hall p (LWrite key))|apply unprotect_empty]|].
    intros Hbusy. by destruct (Hq (Hu q p _ _ Hl Hp Hbusy I)).
  - by apply (Hall p (LSync key)).
  - intros q other Hq Hl Ho. eapply no_key_yet; [by apply (Hall p LRemove)|exact Ho|].
    intros Hbusy. by destruct (Hq (Hu q p _ _ Hl Hp Hbusy I)).
Qed.

(** However many processes start at once, and however their calls interleave
    and fail, those that get a key get the same one, and it is the one that
    was saved.  The calls may all fail but the last two: a blob that was
    written is synced and closed. *)
Theorem windows_keys_agree w0 w p q key key' :
  allStart w0 -> rtc (loadStep false) w0 w -> loads w !! p = Some (LDone (Some key)) -> loads w !! q = Some (LDone (Some key')) ->
  key = key' /\ blob w = Some (protect key).
Proof.
  intros [H0 Hs] Hrtc Hp Hq. assert (Hinit : loadInv w0).
  { split_and!; [by rewrite H0|intros r ph ->%Hs; done|]. intros r r' ph ph' ->%Hs _ []. }
  assert (Hinv : loadInv w) by (clear -Hrtc Hinit; induction Hrtc; eauto using loadStep_inv).
  destruct Hinv as (_ & Hall & _). pose proof (Hall _ _ Hp) as H1. pose proof (Hall _ _ Hq) as H2. cbn [phaseOK] in *. rewrite H1 in H2.
  split; [|done]. injection H2 as H2. apply (f_equal unprotect) in H2. rewrite !unprotect_protect in H2. by simplify_eq.
Qed.

(** A blob that was written but could not be synced is removed, and in between
    another process can have read it: it goes on with a key that is not saved,
    and the next process makes another. *)
Theorem unsynced_blob_splits_keys key key' :
  String.length key = masterKeySize -> String.length key' = masterKeySize ->
  exists w, rtc (loadStep true) (mkWindows None {[0%nat := LStart; 1%nat := LStart; 2%nat := LStart]}) w /\
    loads w !! 1%nat = Some (LDone (Some key)) /\ loads w !! 2%nat = Some (LDone (Some key')) /\ blob w = Some (protect key').
Proof.
  intros Hk Hk'. assert (Hread : unprotectWindowsData (protect key) = Some key).
  { unfold unprotectWindowsData. unfold empty_str. rewrite bool_decide_false by apply protect_nonempty. by rewrite unprotect_protect, Hk. }
  eexists. split.
  - eapply rtc_l; [by apply (Step_read_missing _ 0 key)|]. eapply rtc_l; [by apply (Step_create _ 0 key)|].
    eapply rtc_l; [by apply (Step_write _ 0 key)|]. eapply rtc_l; [by apply (Step_read_blob _ 1)|].
    eapply rtc_l; [by apply (Step_sync_fails _ 0 key)|]. eapply rtc_l; [by apply (Step_remove _ 0)|].
    eapply rtc_l; [by apply (Step_read_missing _ 2 key')|]. eapply rtc_l; [by apply (Step_create _ 2 key')|].
    eapply rtc_l; [by apply (Step_write _ 2 key')|]. eapply rtc_l; [by apply (Step_sync _ 2 key')|]. apply rtc_refl.
  - rewrite Hread. cbn [loads blob]. by split_and!; simplify_map_eq.
Qed.
End windows.

(** The keychain adds atomically, so there every interleaving agrees. *)
Definition darwinInv (w : darwinState) : Prop := forall p key, finds w !! p = Some (DDone (Some key)) -> item w = Some key.

Lemma darwinFind_spec it key : darwinFind it = Some key -> it = Some key.
Proof. unfold darwinFind. destruct it as [k|]; [|done]. destruct (_ =? _)%nat; [by intros [= ->]|done]. Qed.

Lemma DDone_inj r r' : DDone r = DDone r' -> r = r'.
Proof. by intros [= ->]. Qed.

Lemma darwinStep_inv w w' : darwinStep w w' -> darwinInv w -> darwinInv w'.
Proof.
  unfold darwinInv. destruct 1; cbn [finds item]; intros Hinv q k [[<- Hq]|[Hne Hq]]%lookup_insert_Some; try done; try by eapply Hinv.
  - by apply DDone_inj, darwinFind_spec in Hq.
  - by simplify_eq.
  - by apply Hinv in Hq.
  - by apply DDone_inj, darwinFind_spec in Hq.
Qed.

Theorem darwin_keys_agree fs w p q key key' :
  (forall r ph, fs !! r = Some ph -> ph = DStart) -> rtc darwinStep (mkDarwin None fs) w ->
  finds w !! p = Some (DDone (Some key)) -> finds w !! q = Some (DDone (Some key')) -> key = key' /\ item w = Some key.
Proof.
  intros Hs Hrtc Hp Hq. assert (Hinit : darwinInv (mkDarwin None fs)) by by intros r k Hr%Hs.
  assert (Hinv : darwinInv w) by (clear -Hrtc Hinit; induction Hrtc; eauto using darwinStep_inv).
  apply Hinv in Hp, Hq. rewrite Hp in Hq. by simplify_eq.
Qed.

(** ** Witnesses *)

(** A stand-in for DPAPI: a code of which no word begins another. *)
Fixpoint markBytes (key : string) : string := match key with EmptyString => "0" | String c r => String "1" (String c (markBytes r)) end.

Fixpoint unmarkBytes (s : string) : option string :=
  match s with
  | EmptyString => None
  | String m r =>
      if Ascii.eqb m "0" then (if empty_str r then Some "" else None)
      else match r with EmptyString => None | String c r => String c <$> unmarkBytes r end
  end.

#[local] Instance markedDPAPI : DPAPI.
Proof.
  refine {| protect := markBytes; unprotect := unmarkBytes |}.
  - induction key as [|c r IH]; [done|]. cbn [markBytes unmarkBytes]. change (Ascii.eqb "1" "0") with false. cbv iota. by rewrite IH.
  - by intros [].
  - induction key as [|c r IH]; intros [|[|n]] Hn; try done; [cbn in Hn; lia..|]. cbn [markBytes String.length] in Hn.
    cbn [markBytes String.substring unmarkBytes]. change (Ascii.eqb "1" "0") with false. cbv iota. rewrite IH by lia. done.
Defined.

Definition exMasterKey : string := "0123456789abcdef0123456789abcdef".

Lemma windows_keys_agree_witness :
  exists w, rtc (loadStep false) (mkWindows None {[0%nat := LStart; 1%nat := LStart]}) w /\ blob w = Some (protect exMasterKey).
Proof.
  eexists. assert (Hrun : rtc (loadStep false) (mkWindows None {[0%nat := LStart; 1%nat := LStart]})
    (mkWindows (Some (protect exMasterKey)) (<[1%nat := LDone (Some exMasterKey)]> (<[0%nat := LDone (Some exMasterKey)]> (<[0%nat := LSync exMasterKey]>
      (<[0%nat := LWrite exMasterKey]> (<[0%nat := LCreate exMasterKey]> {[0%nat := LStart; 1%nat := LStart]}))))))).
  { eapply rtc_l; [by apply (Step_read_missing _ 0 exMasterKey)|]. eapply rtc_l; [by apply (Step_create _ 0 exMasterKey)|].
    eapply rtc_l; [by apply (Step_write _ 0 exMasterKey)|]. eapply rtc_l; [by apply (Step_sync _ 0 exMasterKey)|].
    eapply rtc_l; [by apply (Step_read_blob _ 1 (protect exMasterKey))|]. apply rtc_refl. }
  split; [exact Hrun|].
  refine (proj2 (windows_keys_agree _ _ 0 1 exMasterKey exMasterKey _ Hrun eq_refl eq_refl)).
  split; [done|]. cbn [loads]. intros p ph [[_ <-]|[_ Hp]]%lookup_insert_Some; [done|]. by apply lookup_singleton_Some in Hp as [_ <-].
Defined.
