(* ===== verification/Run.v ===== *)
(** * Run: the processes of the deployer (cmd/run/main.go)

    [runDeployer] and [runLoadBalancer] as programs over what a process can
    see and change: its environment, the state file, the balancer and the log
    of the commands it ran and the lines it printed.  [os] holds what the
    system answers; its answers may depend on the log.  A program returns,
    exits with a code, or waits for ever.  [p_lb] is the balancer of a process
    that runs one; a deployment is another process and has none.  The serving of the balancer after
    its start is in [Deployer]; file modes and the text of errors of the
    system are not modelled. *)

From S2P Require Import Prelude Env Text Split Paths Doctor Flags Deployer.
From Stdlib Require Import Lia ZArith String Ascii.
#[local] Open Scope string_scope.
#[local] Open Scope Z_scope.

Definition lbPort : Z := 8080.
Definition stateFile : string := "calvoproxy-backends.json".
Definition healthTimeout : Z := 10 * Second.
Definition grpcStart : Z := 19091.

(** ** Effects *)

(** [os_others]: what other deployers make of the state file while the
    backend of this one runs. *)

Inductive statResult := Found | NotExist | StatError.

(** What one round of [waitForHealth] receives: the end of the context, or a
    tick with the status of the answer, [None] for an error. *)
Inductive selectEvent := CtxDone | Tick (status : option Z).

Inductive event :=
| Print (text : string)
| PrintErr (text : string)
| Spawn (path : string) (args : list string) (dir : string) (env : environ)
| GoBuild (out dir : string)
| Slept (d : Z)
| Kill (pid : Z)
| Redirect (out err : string)
| WroteState.

Record os := mkOS {
  os_windows : bool;
  os_args0 : string;
  os_caller : option string;
  os_stat : string -> statResult;
  os_openLog : string -> bool;
  os_spawn : list event -> option Z;
  os_build : list event -> bool;
  os_portFree : list event -> Z -> bool;
  os_portOpen : list event -> Z -> bool;
  os_selects : list event -> Z -> list selectEvent;
  os_waitErr : option string;
  os_regQuery : string -> option string;
  os_now : string;
  os_parseHost : string -> option string;
  os_write : list event -> writeResult;
  os_others : option stateText -> option stateText;
}.

Record proc := mkProc {
  p_env : environ;
  p_file : option stateText;
  p_lb : LoadBalancer;
  p_log : list event;
}.

Inductive result (A : Type) := Ret (a : A) | Exit (code : Z) | Waits.
Arguments Ret {A} a.
Arguments Exit {A} code.
Arguments Waits {A}.

Definition prog (A : Type) : Type := proc -> proc * result A.
Definition ret {A} (a : A) : prog A := fun s => (s, Ret a).
Definition bind {A B} (m : prog A) (k : A -> prog B) : prog B :=
  fun s => match m s with (s, Ret a) => k a s | (s, Exit code) => (s, Exit code) | (s, Waits) => (s, Waits) end.
Notation "x <- m ;; k" := (bind m (fun x => k)) (at level 100, m at next level, right associativity).
Notation "m ;; k" := (bind m (fun _ => k)) (at level 100, right associativity).

Definition exit {A} (code : Z) : prog A := fun s => (s, Exit code).
Definition emit (e : event) : prog unit := fun s => (mkProc (p_env s) (p_file s) (p_lb s) (p_log s ++ [e])%list, Ret tt).
Definition ask {A} (f : list event -> A) : prog A := fun s => (s, Ret (f (p_log s))).
Definition Setenv (key value : string) : prog unit := fun s => (mkProc (<[key := value]> (p_env s)) (p_file s) (p_lb s) (p_log s), Ret tt).
Definition getEnviron : prog environ := fun s => (s, Ret (p_env s)).
Definition onFile (f : option stateText -> option stateText) : prog unit :=
  fun s => (mkProc (p_env s) (f (p_file s)) (p_lb s) (p_log s ++ [WroteState])%list, Ret tt).
Definition onLB {A} (f : LoadBalancer -> A * LoadBalancer) : prog A :=
  fun s => let '(a, lb) := f (p_lb s) in (mkProc (p_env s) (p_file s) lb (p_log s), Ret a).
Definition wait_forever {A} : prog A := fun s => (s, Waits).

(** ** The parts *)

Section os.
Context (o : os).

(** [rootFrom]: the loop of [findRepoRoot], a round per directory. *)
Fixpoint rootFrom (fuel : nat) (dir : string) : option string :=
  match fuel with
  | O => None
  | S fuel =>
      match os_stat o (Join [dir; "go.mod"]) with
      | Found => Some dir
      | _ => let parent := Dir dir in if str_eq parent dir then None else rootFrom fuel parent
      end
  end.

(** The rounds are at most the components of the file's path, and one. *)
Definition findRepoRoot : option string :=
  file ← os_caller o; rootFrom (S (List.length (split_on "/" file))) (Dir file).

Definition orExit {A} (text : string) (r : option A) : prog A :=
  match r with Some a => ret a | None => emit (PrintErr text) ;; exit 1 end.

Fixpoint waitLoop (evs : list selectEvent) : option bool :=
  match evs with
  | [] => None
  | CtxDone :: _ => Some false
  | Tick (Some status) :: evs => if status =? 200 then Some true else waitLoop evs
  | Tick None :: evs => waitLoop evs
  end.

Definition waitForHealth (port : Z) : prog bool :=
  evs <- ask (fun log => os_selects o log port) ;;
  match waitLoop evs with Some b => ret b | None => wait_forever end.

Definition isPortOpen (port : Z) : prog bool := ask (fun log => os_portOpen o log port).
Definition freePort (start : Z) : prog Z := ask (fun log => findFreePort (os_portFree o log) start).

Definition start (path : string) (args : list string) (dir : string) : prog (option Z) :=
  env <- getEnviron ;;
  pid <- ask (os_spawn o) ;;
  emit (Spawn path args dir env) ;;
  ret pid.

(** The first line that names the key; its third word. *)
Fixpoint thirdWord (key : string) (lines : list string) : string :=
  match lines with
  | [] => ""
  | line :: lines =>
      if Contains line key then
        match Fields line with
        | _ :: _ :: value :: _ => value
        | _ => thirdWord key lines
        end
      else thirdWord key lines
  end.

Definition getUserEnv (key : string) : string :=
  if os_windows o then
    match os_regQuery o ("reg query HKCU\Environment /v " +:+ key) with
    | None => ""
    | Some out => thirdWord key (split_on (byte 10) out)
    end
  else "".

Definition binPath (root : string) : string := Join [root; "calvoproxy.exe"].

(** Build the binary when it is not there. *)
Definition ensureBuilt (root : string) : prog unit :=
  match os_stat o (binPath root) with
  | NotExist =>
      emit (Print "Building calvoproxy.exe ...") ;;
      ok <- ask (os_build o) ;;
      emit (GoBuild (binPath root) root) ;;
      if ok then ret tt else (emit (PrintErr "Build failed") ;; exit 1)
  | _ => ret tt
  end.

Definition exportPorts (port grpcPort : Z) : prog unit :=
  Setenv "PORT" (pretty port) ;; Setenv "GRPC_PORT" (pretty grpcPort) ;; Setenv "OTEL_ENABLED" "false".

(** [Some text]: the error. *)
Definition startBackend (root : string) (port : Z) : prog (option string) :=
  grpcPort <- freePort grpcStart ;;
  exportPorts port grpcPort ;;
  pid <- start (binPath root) [] root ;;
  match pid with
  | None => ret (Some "start failed")
  | Some pid =>
      healthy <- waitForHealth port ;;
      if healthy then
        ok <- onLB (AddBackend (os_parseHost o) (localAddr port)) ;;
        ret (if ok then None else Some "bad address")
      else (emit (Kill pid) ;; ret (Some "backend health check failed"))
  end.

(** [false]: a log file could not be opened. *)
Definition daemonize (root logDir : string) : prog bool :=
  let logDir := if empty_str logDir then root else logDir in
  let outLog := Join [logDir; "lb-out.log"] in
  let errLog := Join [logDir; "lb-err.log"] in
  if negb (os_openLog o outLog) then ret false
  else if negb (os_openLog o errLog) then ret false
  else (emit (Redirect outLog errLog) ;; ret true).

(** *** The two commands *)

Definition lbFlags : list (string * bool) := [("daemon", true); ("log-dir", false)].

(** Up to serving: the balancer with its first backend. *)
Definition runLoadBalancer (args : list string) : prog unit :=
  root <- orExit "Error finding repo root" findRepoRoot ;;
  match parseFlags lbFlags args with
  | None => exit (exitOnError lbFlags args)
  | Some (set, _) =>
      (if flagBool set "daemon" && os_windows o then
         ok <- daemonize root (flagValue set "log-dir" "") ;;
         if ok then ret tt else (emit (PrintErr "Failed to daemonize") ;; exit 1)
       else ret tt) ;;
      ensureBuilt root ;;
      onLB (fun _ => (tt, NewLoadBalancer)) ;;
      err <- startBackend root backendStart ;;
      match err with
      | Some text => emit (PrintErr ("Failed to start initial backend: " +:+ text)) ;; exit 1
      | None => emit (Print "Load balancer listening on :8080")
      end
  end.

Definition ensureBalancer (root : string) : prog unit :=
  running <- isPortOpen lbPort ;;
  if running then ret tt
  else
    emit (Print "Load balancer not running. Starting it in daemon mode...") ;;
    pid <- start (os_args0 o) ["lb"; "-daemon"] root ;;
    match pid with
    | None => emit (PrintErr "Failed to start LB") ;; exit 1
    | Some _ => emit (Slept (2 * Second))
    end.

Definition ensureKey : prog unit :=
  env <- getEnviron ;;
  if os_windows o && empty_str (Getenv env "OPENROUTER_API_KEY") then
    let userKey := getUserEnv "OPENROUTER_API_KEY" in
    if negb (empty_str userKey) then Setenv "OPENROUTER_API_KEY" userKey
    else emit (PrintErr "Warning: OPENROUTER_API_KEY not set")
  else ret tt.

(** From the balancer to a healthy backend: its port, the port for gRPC and
    its process. *)
Definition bringUp (root : string) : prog (Z * Z * Z) :=
  ensureBalancer root ;;
  port <- freePort backendStart ;;
  grpcPort <- freePort grpcStart ;;
  exportPorts port grpcPort ;;
  ensureKey ;;
  ensureBuilt root ;;
  started <- start (binPath root) [] root ;;
  pid <- orExit "Error starting backend" started ;;
  emit (Print ("Started backend on port " +:+ pretty port +:+ " (PID: " +:+ pretty pid +:+ ")")) ;;
  healthy <- waitForHealth port ;;
  if healthy : bool then (emit (Print ("Backend healthy on port " +:+ pretty port)) ;; ret (port, grpcPort, pid))
  else (emit (PrintErr "Backend health check failed") ;; exit 1).

(** From a healthy backend to its end. *)
Definition registered (port : Z) (info : BackendInfo) : prog unit :=
  r <- ask (os_write o) ;;
  onFile (saveBackend r info) ;;
  (match os_waitErr o with Some err => emit (PrintErr ("Backend exited: " +:+ err)) | None => ret tt end) ;;
  onFile (os_others o) ;;
  r <- ask (os_write o) ;;
  onFile (removeBackend r port).

Definition runDeployer : prog unit :=
  root <- orExit "Error finding repo root" findRepoRoot ;;
  up <- bringUp root ;;
  let '(port, grpcPort, pid) := up in
  registered port (mkInfo port grpcPort pid (os_now o)).

Definition main (args : list string) : prog unit :=
  match args with
  | "lb" :: rest => runLoadBalancer rest
  | _ => runDeployer
  end.
End os.

(** ** Reasoning about programs *)

(** What holds when a program returns, exits or waits. *)
Definition spec {A} (m : prog A) (s : proc) (Q : A -> proc -> Prop) (E : Z -> proc -> Prop) (W : proc -> Prop) : Prop :=
  match m s with (s', Ret a) => Q a s' | (s', Exit code) => E code s' | (s', Waits) => W s' end.

Section spec.
Context {A B : Type} (E : Z -> proc -> Prop) (W : proc -> Prop).

Lemma spec_bind (m : prog A) (k : A -> prog B) s Q : spec m s (fun a s => spec (k a) s Q E W) E W -> spec (bind m k) s Q E W.
Proof. unfold spec, bind. destruct (m s) as [s' [a|code|]]; done. Qed.

Lemma spec_mono (m : prog A) s (Q Q' : A -> proc -> Prop) : spec m s Q E W -> (forall a s, Q a s -> Q' a s) -> spec m s Q' E W.
Proof. unfold spec. destruct (m s) as [s' [a|code|]]; auto. Qed.
End spec.

Ltac steps := repeat (apply spec_bind; cbv beta); cbv beta.

(** *** The walk to the root *)

Lemma rootFrom_find o rooted out fuel :
  normal rooted out -> (List.length out < fuel)%nat ->
  rootFrom o fuel (render rooted (rev out)) =
    find (fun d => match os_stat o (Join [d; "go.mod"]) with Found => true | _ => false end) (ancestors rooted out).
Proof.
  revert fuel. induction out as [|c out IH]; intros [|fuel] Hn Hf; cbn [List.length] in Hf; try lia; cbn [rootFrom ancestors find].
  - destruct (os_stat o _); [done| |]; rewrite (Dir_render rooted [] Hn); cbn [tail]; by rewrite (proj2 (str_eq_spec _ _) eq_refl).
  - destruct (os_stat o _); [done| |]; rewrite (Dir_render rooted (c :: out) Hn); cbn [tail];
      rewrite (proj2 (str_eq_false _ _) (parent_differs _ _ _ Hn)); apply IH; (by eapply normal_tail) || lia.
Qed.

Lemma stackOf_length p : (List.length (stackOf p) <= List.length (split_on "/" p))%nat.
Proof.
  unfold stackOf, cleaned. etrans; [apply cleaned_length|]. unfold upToSlash. rewrite split_on_concat; [|by destruct (removelast _)|].
  - rewrite length_app. pose proof (split_on_nil "/" p) as Hne. pose proof (app_removelast_last "" Hne) as He.
    apply (f_equal List.length) in He. rewrite length_app in He. cbn in *. lia.
  - apply Forall_app. split; [|repeat constructor]. pose proof (split_on_noByte "/" p) as Hf.
    rewrite (app_removelast_last "" (split_on_nil "/" p)) in Hf. by apply Forall_app in Hf as [Hf _].
Qed.

Definition hasModule (o : os) (dir : string) : bool := match os_stat o (Join [dir; "go.mod"]) with Found => true | _ => false end.

(** The repository is the nearest directory at or above the source file that
    has a go.mod: the walk up ends within the components of the path, looks at
    every directory above the file in order and at nothing else, and fails
    only when none of them has one. *)
Theorem repo_root_is_nearest o :
  findRepoRoot o = file ← os_caller o; find (hasModule o) (parents file).
Proof.
  unfold findRepoRoot. destruct (os_caller o) as [file|]; [|done]. cbn [mbind option_bind].
  change (Dir file) with (render (isRooted (upToSlash file)) (rev (stackOf file))). apply rootFrom_find; [apply cleaned_normal|].
  pose proof (stackOf_length file). lia.
Qed.

(** ** Waiting for health *)

(** An answer 200 comes, and nothing before it ended the wait. *)
Definition answersFirst (evs : list selectEvent) : Prop :=
  exists before after, evs = (before ++ (Tick (Some 200) :: after))%list /\ (CtxDone ∉ before) /\ (Tick (Some 200) ∉ before).

Lemma answersFirst_cons ev evs : ev <> CtxDone -> ev <> Tick (Some 200) -> answersFirst (ev :: evs) <-> answersFirst evs.
Proof.
  intros H1 H2. split.
  - intros ([|x before] & after & He & Hb & Hc); [by injection He|]. injection He as <- ->. apply not_elem_of_cons in Hb as [_ Hb], Hc as [_ Hc]. by exists before, after.
  - intros (before & after & -> & Hb & Hc). exists (ev :: before), after. rewrite !not_elem_of_cons. by split_and!.
Qed.

Lemma waitLoop_true evs : waitLoop evs = Some true <-> answersFirst evs.
Proof.
  induction evs as [|ev evs IH]; cbn [waitLoop].
  { split; [done|]. by intros ([|? ?] & ? & ? & _). }
  destruct ev as [|[status|]].
  - split; [done|]. intros ([|x before] & after & He & Hb & _); [done|]. injection He as <- ->. by apply not_elem_of_cons in Hb as [? _].
  - destruct (Z.eqb_spec status 200) as [->|Hne].
    + split; [|done]. intros _. exists [], evs. by split_and!; [|apply not_elem_of_nil..].
    + rewrite IH. symmetry. apply answersFirst_cons; [done|]. by intros [= ->].
  - rewrite IH. symmetry. by apply answersFirst_cons.
Qed.

(** A context that never ends never makes the wait give up. *)
Lemma waitLoop_false evs : CtxDone ∉ evs -> waitLoop evs <> Some false.
Proof.
  induction evs as [|[|[status|]] evs IH]; intros Hn; cbn; try done; apply not_elem_of_cons in Hn as [? Hn]; [done| |by apply IH].
  destruct (status =? 200); [done|by apply IH].
Qed.

(** ** What a deployment leaves behind *)

Definition killed (e : event) : bool := match e with Kill _ => true | _ => false end.

(** So far: the state file and the balancer untouched, nothing killed. *)
Definition untouched (s0 s : proc) : Prop :=
  p_file s = p_file s0 /\ p_lb s = p_lb s0 /\ exists es, p_log s = (p_log s0 ++ es)%list /\ existsb killed es = false.

Definition exits1 (s0 : proc) (code : Z) (s : proc) : Prop := code = 1 /\ untouched s0 s.

Lemma untouched_refl s : untouched s s.
Proof. split_and!; [done..|]. exists []. by rewrite app_nil_r. Qed.

Section quiet.
Context (s0 : proc).

(** A program that keeps to this, whatever it returns. *)
Definition quiet {A} (m : prog A) : Prop := forall s, untouched s0 s -> spec m s (fun _ s => untouched s0 s) (exits1 s0) (untouched s0).

Lemma quiet_bind {A B} (m : prog A) (k : A -> prog B) : quiet m -> (forall a, quiet (k a)) -> quiet (bind m k).
Proof. intros Hm Hk s Hs. apply spec_bind. eapply spec_mono; [by apply Hm|]. intros a s' Hs'. by apply Hk. Qed.

Lemma quiet_ret {A} (a : A) : quiet (ret a).
Proof. by intros s Hs. Qed.

Lemma quiet_ask {A} (f : list event -> A) : quiet (ask f).
Proof. by intros s Hs. Qed.

Lemma quiet_environ : quiet getEnviron.
Proof. by intros s Hs. Qed.

Lemma quiet_Setenv k v : quiet (Setenv k v).
Proof. by intros s Hs. Qed.

Lemma quiet_exit {A} : quiet (@exit A 1).
Proof. by intros s Hs. Qed.

Lemma quiet_wait {A} : quiet (@wait_forever A).
Proof. by intros s Hs. Qed.

Lemma quiet_emit e : killed e = false -> quiet (emit e).
Proof.
  intros He s (Hf & Hl & es & Hes & Hk). split_and!; [done..|]. exists (es ++ [e])%list. cbn. rewrite Hes, <- app_assoc. split; [done|].
  rewrite existsb_app, Hk. cbn. by rewrite He.
Qed.
End quiet.

Create HintDb quiet.
#[local] Hint Resolve quiet_ret quiet_ask quiet_environ quiet_Setenv quiet_exit quiet_wait quiet_emit : quiet.

Ltac quietly := cbv zeta; repeat (first [solve [eauto 2 with quiet]|apply quiet_bind; [|intros]|case_match]).

Lemma quiet_orExit s0 {A} text (r : option A) : quiet s0 (orExit text r).
Proof. unfold orExit. quietly. Qed.

Lemma quiet_ensureBalancer s0 o root : quiet s0 (ensureBalancer o root).
Proof. unfold ensureBalancer, isPortOpen, start. quietly. Qed.

Lemma quiet_ensureKey s0 o : quiet s0 (ensureKey o).
Proof. unfold ensureKey. quietly. Qed.

Lemma quiet_ensureBuilt s0 o root : quiet s0 (ensureBuilt o root).
Proof. unfold ensureBuilt. quietly. Qed.

Lemma quiet_waitForHealth s0 o port : quiet s0 (waitForHealth o port).
Proof. unfold waitForHealth. quietly. Qed.
#[local] Hint Resolve quiet_orExit quiet_ensureBalancer quiet_ensureKey quiet_ensureBuilt quiet_waitForHealth : quiet.

Lemma quiet_bringUp s0 o root : quiet s0 (bringUp o root).
Proof. unfold bringUp, freePort, exportPorts, start. quietly. Qed.

(** *** The environment of the backend *)

(** The backend was started with its port, and answered before it was given up. *)
Definition cameUp (o : os) (s : proc) (port pid : Z) : Prop :=
  exists path dir env log, Spawn path [] dir env ∈ p_log s /\ env !! "PORT" = Some (pretty port) /\
    (exists start, os_spawn o start = Some pid) /\ answersFirst (os_selects o log port).

Definition anyExit (code : Z) (s : proc) : Prop := True.
Definition anyWait (s : proc) : Prop := True.

Lemma spec_any {A} (m : prog A) s (Q : A -> proc -> Prop) : (forall a s, Q a s) -> spec m s Q anyExit anyWait.
Proof. intros HQ. unfold spec. destruct (m s) as [s' [a|code|]]; done. Qed.

Definition keepsPort (v : string) {A} (m : prog A) : Prop :=
  forall s, p_env s !! "PORT" = Some v -> spec m s (fun _ s => p_env s !! "PORT" = Some v) anyExit anyWait.

Lemma keepsPort_ensureKey o v : keepsPort v (ensureKey o).
Proof.
  intros s Hs. unfold spec, ensureKey, bind, getEnviron. cbv zeta. destruct (_ && _); [|done]. destruct (negb _); [|done].
  unfold Setenv. cbn [p_env]. by rewrite lookup_insert_ne.
Qed.

Lemma keepsPort_ensureBuilt o root v : keepsPort v (ensureBuilt o root).
Proof. intros s Hs. unfold spec, ensureBuilt, bind, emit, ask. destruct (os_stat _ _); [done| |done]. by destruct (os_build _ _). Qed.

Lemma bringUp_cameUp o root s :
  spec (bringUp o root) s (fun up s => cameUp o s up.1.1 up.2) anyExit anyWait.
Proof.
  unfold bringUp. apply spec_bind, spec_any. intros _ s1. apply spec_bind, spec_any. intros port s2. apply spec_bind, spec_any. intros grpcPort s3.
  assert (Hexp : spec (exportPorts port grpcPort) s3 (fun _ s => p_env s !! "PORT" = Some (pretty port)) anyExit anyWait).
  { unfold spec, exportPorts, bind, Setenv. cbn. rewrite !lookup_insert_ne by done. apply lookup_insert_eq. }
  apply spec_bind. eapply spec_mono; [exact Hexp|]. intros ? s4 H4. apply spec_bind. eapply spec_mono; [apply (keepsPort_ensureKey o (pretty port)); exact H4|]. intros ? s5 H5.
  apply spec_bind. eapply spec_mono; [apply (keepsPort_ensureBuilt o root (pretty port)); exact H5|]. intros ? s6 H6.
  unfold spec, start, orExit, waitForHealth, bind, getEnviron, ask, emit, ret, exit, wait_forever. cbn [p_log].
  destruct (os_spawn o (p_log s6)) as [pid|] eqn:Ep; [|exact I]. cbn [p_log].
  match goal with |- context [os_selects o ?log port] => set (log0 := log); destruct (waitLoop (os_selects o log0 port)) as [[]|] eqn:Ew end; [|exact I|exact I].
  apply waitLoop_true in Ew. exists (binPath root), root, (p_env s6), log0. split_and!; [|done|by eexists|done].
  subst log0. cbn [p_log]. rewrite !elem_of_app. left. left. right. by apply list_elem_of_singleton.
Qed.

Lemma registered_end o port info s :
  let '(s', r) := registered o port info s in
  r = Ret tt /\ exists log1 log2, (exists es, p_log s' = (p_log s ++ es)%list) /\
    p_file s' = removeBackend (os_write o log2) port (os_others o (saveBackend (os_write o log1) info (p_file s))).
Proof.
  unfold registered, bind, onFile, ask, emit, ret.
  destruct (os_waitErr o); cbn [p_file p_log]; (split; [done|]); do 2 eexists; (split; [rewrite <- ?app_assoc; by eexists|reflexivity]).
Qed.


(** A backend that does not become healthy is left running: in no run does the
    deployer kill a process. *)
Theorem deployer_kills_nothing o s :
  exists es, p_log (runDeployer o s).1 = (p_log s ++ es)%list /\ existsb killed es = false.
Proof.
  unfold runDeployer. destruct (findRepoRoot o) as [root|]; [|by exists [PrintErr "Error finding repo root"]]. unfold bind at 1. cbn [orExit ret].
  pose proof (quiet_bringUp s o root s (untouched_refl s)) as Hq. unfold spec in Hq. unfold bind at 1.
  destruct (bringUp o root s) as [s1 [[[port grpcPort] pid]|code|]]; [|by destruct Hq as (_ & _ & _ & Hq)|by destruct Hq as (_ & _ & Hq)].
  destruct Hq as (_ & _ & es & Hes & Hk). unfold registered, bind, onFile, ask, emit, ret.
  destruct (os_waitErr o) as [err|]; cbn [p_log fst]; rewrite Hes, <- ?app_assoc;
    (eexists; split; [reflexivity|]); by rewrite existsb_app, Hk.
Qed.

(** ** Starting a backend *)

Definition spawned (o : os) (s : proc) : bool := match os_spawn o (p_log s) with Some _ => true | None => false end.

(** What the supervisor makes of a start: its answer and the balancer. *)
Definition supervised (o : os) (spawned healthy : bool) (port : Z) (lb : LoadBalancer) : bool * LoadBalancer :=
  let '(ok, (lb, _)) := Deployer.startBackend (os_parseHost o) (fun _ => spawned) (fun _ => healthy) port (lb, []) in (ok, lb).

(** [startBackend] does to the balancer what the supervisor says.  It returns
    once the process failed to start or the wait for health ended, and then
    the answer and the backends are those of the supervised start with the
    outcome of the wait; while the wait lasts the balancer is as before.  It
    kills the process exactly when the wait gave up. *)
Theorem startBackend_refines o root port s :
  exists log, p_log s `prefix_of` log /\
  let '(s', r) := startBackend o root port s in
  match r with
  | Ret err => exists healthy,
      (spawned o s = true -> waitLoop (os_selects o log port) = Some healthy) /\
      (match err with None => true | Some _ => false end, p_lb s') = supervised o (spawned o s) healthy port (p_lb s) /\
      p_log s' = (log ++ match os_spawn o (p_log s) with Some pid => if healthy : bool then [] else [Kill pid] | None => [] end)%list
  | Exit _ => False
  | Waits => spawned o s = true /\ waitLoop (os_selects o log port) = None /\ p_lb s' = p_lb s
  end.
Proof.
  unfold startBackend, start, freePort, exportPorts, waitForHealth, bind, Setenv, getEnviron, ask, emit, ret, wait_forever, onLB, spawned, supervised, Deployer.startBackend.
  cbn [p_log p_env p_lb p_file]. set (log := (p_log s ++ [_])%list). exists log. split; [by eexists|].
  destruct (os_spawn o (p_log s)) as [pid|]; cbn [negb p_log p_lb]; [|exists false; by rewrite app_nil_r].
  destruct (waitLoop (os_selects o log port)) as [[]|] eqn:Ew; [| |done].
  - cbn [p_lb]. destruct (AddBackend (os_parseHost o) (localAddr port) (p_lb s)) as [ok lb] eqn:Ea. cbn [p_lb p_log]. exists true. rewrite app_nil_r. split_and!; [done| |done]. by destruct ok.
  - cbn [p_lb]. cbn [p_lb p_log]. exists false. by split_and!.
Qed.

(** The balancer's starts have no deadline: their contexts end with the
    process.  A backend that starts and never answers 200 keeps the start
    waiting for ever; it is neither killed nor reported. *)
Theorem start_has_no_deadline o root port s :
  spawned o s = true ->
  (forall log, CtxDone ∉ os_selects o log port) -> (forall log, Tick (Some 200) ∉ os_selects o log port) ->
  (startBackend o root port s).2 = Waits.
Proof.
  intros Hs Hc Ht. destruct (startBackend_refines o root port s) as (log & _ & H). destruct (startBackend o root port s) as [s' [err|code|]]; [|done|done].
  destruct H as (healthy & Hw & _). specialize (Hw Hs). destruct healthy; [|by apply waitLoop_false in Hw].
  apply waitLoop_true in Hw as (before & after & He & _). exfalso. apply (Ht log). rewrite He. apply elem_of_app. right. left.
Qed.

(** ** The key from the registry *)

Fixpoint segments (segs : list (nat * bytes)) : bytes :=
  match segs with [] => [] | (n, w) :: segs => (repeat " "%char (S n) ++ w ++ segments segs)%list end.

Definition emitWord (word : bytes) (rest : list bytes) : list bytes := match word with [] => rest | _ => rev word :: rest end.

Lemma fields_blanks n : forall fuel s, fieldsFrom (n + fuel) [] (repeat " "%char n ++ s)%list = fieldsFrom fuel [] s.
Proof. induction n as [|n IH]; intros fuel s; [done|]. cbn [repeat app Nat.add fieldsFrom]. rewrite (proj1 (strip_blank _)). apply IH. Qed.

Lemma fields_word w : forall fuel acc s, Forall (fun c => graphByte c = true) w ->
  fieldsFrom (List.length w + fuel) acc (w ++ s)%list = fieldsFrom fuel (rev w ++ acc)%list s.
Proof.
  induction w as [|c w IH]; intros fuel acc s Hw; [done|]. apply Forall_cons in Hw as [Hc Hw]. cbn [app List.length Nat.add fieldsFrom rev].
  rewrite (proj1 (strip_graph c _ Hc)), IH by done. by rewrite <- app_assoc.
Qed.

Lemma fields_segments segs : forall fuel word,
  Forall (fun seg => seg.2 <> [] /\ Forall (fun c => graphByte c = true) seg.2) segs ->
  fieldsFrom (List.length (segments segs) + S (S fuel)) word (segments segs ++ [byte 13])%list = emitWord word (snd <$> segs).
Proof.
  induction segs as [|[n w] segs IH]; intros fuel word Hs; [by destruct word|]. apply Forall_cons in Hs as [[Hne Hw] Hs]. cbn [snd] in *.
  cbn [segments repeat app List.length Nat.add fieldsFrom]. rewrite (proj1 (strip_blank _)).
  change (match word with [] => ?r | _ => rev word :: ?r end) with (emitWord word r). f_equal.
  rewrite !length_app, repeat_length, <- !Nat.add_assoc, <- !app_assoc, fields_blanks, fields_word, app_nil_r, IH by done.
  unfold emitWord. rewrite rev_involutive. by destruct (rev w) eqn:E; [apply (f_equal (@rev _)) in E; rewrite rev_involutive in E|].
Qed.

Definition cr : string := String (byte 13) "".
Definition newline (rest : string) : string := String (byte 10) rest.

(** What [reg query] prints for a value. *)
Definition regLine (key value : string) : string := "    " +:+ key +:+ "    REG_SZ    " +:+ value +:+ cr.
Definition regOutput (key value : string) : string :=
  cr +:+ newline (("HKEY_CURRENT_USER\Environment" +:+ cr) +:+ newline (regLine key value +:+ newline (cr +:+ newline ""))).

Definition apiKey : string := "OPENROUTER_API_KEY".

Lemma Fields_regLine value : value <> "" -> strAll graphByte value -> Fields (regLine apiKey value) = [apiKey; "REG_SZ"; value].
Proof.
  intros Hne Hv. set (segs := [(3%nat, list_ascii_of_string apiKey); (3%nat, list_ascii_of_string "REG_SZ"); (3%nat, list_ascii_of_string value)]).
  assert (He : list_ascii_of_string (regLine apiKey value) = (segments segs ++ [byte 13])%list).
  { unfold regLine. rewrite !list_ascii_app. cbn [segs segments]. rewrite app_nil_r, <- !app_assoc. done. }
  unfold Fields. replace (S (String.length (regLine apiKey value))) with (List.length (segments segs) + 2)%nat.
  - rewrite He, fields_segments; [cbn; by rewrite string_of_list_ascii_of_string|].
    repeat constructor; cbn; try done. by destruct value.
  - pose proof (f_equal List.length He) as Hl. rewrite length_app in Hl. cbn [List.length] in Hl.
    assert (Hs : forall t, List.length (list_ascii_of_string t) = String.length t) by (induction t as [|? ? IH]; cbn; congruence). rewrite Hs in Hl. lia.
Qed.

(** The key of the user's environment is read back.  For any value of visible
    bytes, what the registry query prints yields the value itself; nothing is
    read on another system or when the query fails. *)
Theorem registry_key_read_back o value :
  value <> "" -> strAll graphByte value ->
  os_regQuery o ("reg query HKCU\Environment /v " +:+ apiKey) = Some (regOutput apiKey value) ->
  getUserEnv o apiKey = if os_windows o then value else "".
Proof.
  intros Hne Hv Hq. unfold getUserEnv. destruct (os_windows o); [|done]. rewrite Hq. unfold regOutput.
  unfold newline.
  assert (Hline : noByte (byte 10) (regLine apiKey value)).
  { unfold regLine. rewrite !noByte_app. split_and!; [by apply noByte_decide..| |by apply noByte_decide]. by eapply noByte_of, Hv. }
  rewrite split_on_app, split_on_app, split_on_app by (done || by apply noByte_decide).
  cbn [thirdWord]. change (Contains cr apiKey) with false. cbn iota.
  assert (Hc : Contains ("HKEY_CURRENT_USER\Environment" +:+ cr) apiKey = false) by (by vm_compute). rewrite Hc.
  assert (Hk : Contains (regLine apiKey value) apiKey = true) by apply (Contains_app "    " apiKey). by rewrite Hk, (Fields_regLine value Hne Hv).
Qed.

(** ** Witnesses *)

Definition demoOS (selects : list selectEvent) : os :=
  mkOS true "run.exe" (Some "/home/u/repo/cmd/run/main.go") (fun p => if str_eq p "/home/u/repo/go.mod" then Found else NotExist) (fun _ => true)
    (fun _ => Some 77) (fun _ => true) (fun _ q => 8083 <=? q) (fun _ _ => false) (fun _ _ => selects) None
    (fun _ => Some (regOutput apiKey "sk-or-1")) "now" (fun s => Some s) (fun _ => Written) id.

Definition demoProc : proc := mkProc ∅ (Some (mkText [mkInfo 8081 19091 5 "before"] true)) NewLoadBalancer [].

Definition spawns (log : list event) : list (string * list string * option string * option string) :=
  omap (fun e => match e with Spawn path args _ env => Some (path, args, env !! "PORT", env !! apiKey) | _ => None end) log.

(** The balancer is started first, then the backend, with the lowest free port
    and the key of the registry. *)
Example demo_deploy :
  let '(s, r) := runDeployer (demoOS [Tick None; Tick (Some 503); Tick (Some 200)]) demoProc in
  r = Ret tt /\ findRepoRoot (demoOS []) = Some "/home/u/repo" /\ p_file s = Some (mkText [mkInfo 8081 19091 5 "before"] true) /\
  spawns (p_log s) = [("run.exe", ["lb"; "-daemon"], None, None); ("/home/u/repo/calvoproxy.exe", [], Some "8083", Some "sk-or-1")].
Proof. vm_compute. by split_and!. Qed.

(** The disk is full when the backend ends: its entry stays, and the deployment
    returns as if it were gone. *)
Definition fullDisk (log : list event) : writeResult :=
  if existsb (fun e => match e with WroteState => true | _ => false end) log
  then Failed (Some (mkText [mkInfo 8081 19091 5 "before"; mkInfo 8083 19091 77 "now"] true)) else Written.

Example failed_removal_leaves_the_entry :
  let o := demoOS [Tick (Some 200)] in
  let o := mkOS (os_windows o) (os_args0 o) (os_caller o) (os_stat o) (os_openLog o) (os_spawn o) (os_build o) (os_portFree o) (os_portOpen o)
             (os_selects o) (os_waitErr o) (os_regQuery o) (os_now o) (os_parseHost o) fullDisk id in
  let '(s, r) := runDeployer o demoProc in
  r = Ret tt /\ (bi_Port <$> entriesOf (p_file s)) = [8081; 8083].
Proof. vm_compute. by split_and!. Qed.

Example demo_gives_up : (runDeployer (demoOS [Tick None; CtxDone]) demoProc).2 = Exit 1.
Proof. by vm_compute. Qed.

Lemma start_has_no_deadline_witness : (startBackend (demoOS [Tick None; Tick (Some 503)]) "/home/u/repo" 8081 demoProc).2 = Waits.
Proof. apply start_has_no_deadline; [reflexivity|intros log; cbn; rewrite !not_elem_of_cons..]; (split_and!; [discriminate..|apply not_elem_of_nil]). Defined.

Lemma registry_key_read_back_witness : getUserEnv (demoOS []) apiKey = "sk-or-1".
Proof. apply (registry_key_read_back (demoOS []) "sk-or-1"); [discriminate|repeat constructor|reflexivity]. Defined.
