(* ===== verification/Service.v ===== *)
(** * Service: a router from its start to its end (router.go, router_capabilities.go,
    router_scoring_store.go, cmd/main.go)

    [NewRouterService] puts the service together from the environment and the
    policy sources; the refresher keeps the capability index up to date, the
    score store is loaded, flushed and closed, and [boot] is what the next
    process starts with.  What the catalogue answers, the JSON decoders and the
    system calls are arguments; [Main] has the process around it. *)

From S2P Require Import Prelude Float Types Env Text Breaker Scoring Quota Registry Affinity Admission Planner Health Eligibility.
From S2P Require Import TraceRing Counters Http Upstream Rules Policy Files ScoreStore ModelPolicy HostBreaker SideEffects.
From Stdlib Require Import Lia ZArith String Ascii.
#[local] Open Scope string_scope.
#[local] Open Scope Z_scope.

(** ** Building the service *)

Definition breakerConfigFromEnv (env : environ) : breakerConfig :=
  let threshold := envInt env "PROXY_BREAKER_FAILURE_THRESHOLD" 3 in
  let requestTimeout := envDurationSeconds env "PROXY_REQUEST_TIMEOUT_SECONDS" (45 * Second) in
  Types.mkConfig (if threshold <? 1 then 1 else threshold) (envDurationSeconds env "PROXY_BREAKER_COOLDOWN_SECONDS" (60 * Second))
    requestTimeout (totalTimeout env requestTimeout).

(** The settings of the transport under the breaker. *)
Record transportSettings := mkTransport {
  ResponseHeaderTimeout : Z;
  TLSHandshakeTimeout : Z;
  MaxIdleConnsPerHost : Z;
  MaxIdleConns : Z;
  IdleConnTimeout : Z;
}.

Definition baseTransport (env : environ) (requestTimeout : Z) : transportSettings :=
  let perHost := envInt env "PROXY_MAX_IDLE_CONNS_PER_HOST" 128 in
  let perHost := if perHost <? 2 then 2 else perHost in
  mkTransport requestTimeout (10 * Second) perHost (wrap64 (perHost * 4)) (90 * Second).

Definition zeroRetryPolicy : RetryPolicy := mkRetryPolicy 0 [] false false 0 0.

(** [decodeRetry]: what the decoder leaves of the policy, error or not. *)
Definition loadRetryPolicyFromEnv (decodeRetry : string -> RetryPolicy) (env : environ) : RetryPolicy :=
  let raw := envValue env "PROXY_RETRY_POLICY_JSON" in if empty_str raw then zeroRetryPolicy else decodeRetry raw.

Definition affinityFromEnv (env : environ) : affinityStore :=
  newAffinityStore (wrap64 (envInt env "PROXY_AFFINITY_TTL_SECONDS" 86400 * Second)) (envInt env "PROXY_AFFINITY_MAX_ENTRIES" 8192).

(** [randomAffinitySecret]: 32 random bytes, or the hash of the time. *)
Definition randomAffinitySecret (random : option string) (sha256 : string -> string) (now : string) : string :=
  match random with Some secret => secret | None => sha256 now end.

Definition traceRingCapacity (env : environ) : Z := envInt env "PROXY_TRACE_RING" 200.

Record RouterService := mkService {
  sv_static : RouterStatic;
  sv_transport : transportSettings;
  sv_rules : ruleRuntimeConfig;
  sv_engine : policyEngine;
  sv_policy : policyState;
  sv_sideEffects : option WorkspaceSideEffectExtractor;
  sv_admission : admissionControl;
  sv_secret : string;
  sv_world : world;
  sv_persist : bool;
  sv_refreshing : bool;
}.

Section build.
Context `{MapRange} (D : Decoders) (quote : string -> string).
Context (decodeRetry : string -> RetryPolicy) (limits : Limits) (fallbacks : option (gmap string (list string))).

(** The sources as they are read after the legacy names were bridged. *)
Definition bridgedSources (S : Sources) : Sources := mkSources (bridgeLegacyPolicyEnv (src_env S)) (src_beside S) (src_readFile S) (src_embedded S).

Definition rulesFromEnv (env : environ) (cfg : breakerConfig) : ruleRuntimeConfig :=
  loadRuleConfig env (loadRetryPolicyFromEnv decodeRetry env) limits fallbacks (cfg_RequestTimeout cfg) (cfg_FailureThreshold cfg) (cfg_Cooldown cfg).

Definition startEngine (runtime : modelPolicyRuntime) (rules : ruleRuntimeConfig) : policyEngine :=
  if strictFailure runtime then fun _ _ => denyAllPolicyEngine "model policy strict validation failed" else loadPolicyFlow rules.

Definition newWorld (env : environ) (ledgerID : nat) : world :=
  mkWorld (NewQuotaLedger ledgerID) (affinityFromEnv env) ∅ emptyState zeroCounters None newWriter (newTraceRing (traceRingCapacity env)) 0.

Definition NewRouterService (S : Sources) (secret : string) (ledgerID : nat) : RouterService :=
  let S := bridgedSources S in
  let env := src_env S in
  let cfg := breakerConfigFromEnv env in
  let rules := rulesFromEnv env cfg in
  let policy := newPolicyState D quote S in
  let static := asStatic (mkStatic cfg (pc_DefaultExecutor (rr_Policy rules)) (rr_BreakerPolicy rules) "" ∅ ∅) policy in
  mkService static (baseTransport env (cfg_RequestTimeout cfg)) rules (startEngine (loadModelPolicyRuntime D quote S) rules) policy
    (sideEffectsFromEnv env) (newAdmissionControl env) secret (newWorld env ledgerID) false true.
End build.

(** ** The catalogue *)

Definition modelsURL (env : environ) : string :=
  let url := envValue env "PROXY_OPENROUTER_MODELS_URL" in if empty_str url then "https://openrouter.ai/api/v1/models" else url.

(** The answer of the catalogue: a failure, or a status and its decoded body,
    [None] for a body that cannot be decoded. *)
Inductive fetchReply := FetchFailed (err : string) | FetchAnswer (status : Z) (payload : option (list openRouterModel)).

(** The digits of [itoa], from the end of a buffer of 20 bytes. *)
Fixpoint itoaDigits (fuel : nat) (n : Z) (buf : string) : string :=
  match fuel with
  | O => buf
  | S fuel => if 0 <? n then itoaDigits fuel (Z.quot n 10) (String (ascii_of_nat (48 + Z.to_nat (Z.rem n 10))) buf) else buf
  end.

Definition itoa (n : Z) : string :=
  if n =? 0 then "0"
  else
    let neg := n <? 0 in
    let digits := itoaDigits 20 (if neg then wrap64 (- n) else n) "" in
    if neg then "-" +:+ digits else digits.

(** [errStatus.Error] *)
Definition errStatus (status : Z) : string := "openrouter /models HTTP " +:+ itoa status.

Definition fetchOpenRouterCapabilities (reply : fetchReply) : string + gmap string (gset string) :=
  match reply with
  | FetchFailed err => inl err
  | FetchAnswer status payload =>
      if negb (status =? 200) then inl (errStatus status)
      else match payload with
           | None => inl "decode"
           | Some data => match deriveCapabilities data with Some out => inr out | None => inl (errStatus 0) end
           end
  end.

Definition refresh (reply : fetchReply) (idx : capabilityIndex) : capabilityIndex :=
  match fetchOpenRouterCapabilities reply with inr auto => setAuto auto idx | inl _ => idx end.

Definition capabilityAutoderiveEnabled (env : environ) : bool := envBool env "PROXY_CAPABILITY_AUTODERIVE" true.
Definition refreshInterval (env : environ) : Z := envDurationSeconds env "PROXY_CAPABILITY_REFRESH_SECONDS" (6 * Hour).

(** What the loop of the refresher receives. *)
Inductive refreshEvent := RefreshDone | RefreshTick (reply : fetchReply).

(** How far the goroutine is; [Panicked] ends the process. *)
Inductive refresher := NotStarted | Panicked | Refreshing | Stopped.

Fixpoint refreshLoop (events : list refreshEvent) (idx : capabilityIndex) : refresher * capabilityIndex :=
  match events with
  | [] => (Refreshing, idx)
  | RefreshDone :: _ => (Stopped, idx)
  | RefreshTick reply :: events => refreshLoop events (refresh reply idx)
  end.

(** [time.NewTicker] panics on an interval that is not positive. *)
Definition startCapabilityRefresh (env : environ) (first : fetchReply) (events : list refreshEvent) (idx : capabilityIndex) : refresher * capabilityIndex :=
  if negb (capabilityAutoderiveEnabled env) then (NotStarted, idx)
  else
    let idx := refresh first idx in
    if refreshInterval env <=? 0 then (Panicked, idx) else refreshLoop events idx.

(** ** Persistence and the end *)

Definition onBreakers (f : RouterState -> RouterState) (w : world) : world :=
  mkWorld (w_ledger w) (w_affinity w) (w_cooldowns w) (f (w_breakers w)) (w_counters w) (w_trace w) (w_writer w) (w_ring w) (w_tick w).

Definition setScores (st : RouterState) (l : QuotaLedger) (w : world) : world :=
  mkWorld l (w_affinity w) (w_cooldowns w) st (w_counters w) (w_trace w) (w_writer w) (w_ring w) (w_tick w).

Definition onWorld (f : world -> world) (sv : RouterService) : RouterService :=
  mkService (sv_static sv) (sv_transport sv) (sv_rules sv) (sv_engine sv) (sv_policy sv) (sv_sideEffects sv) (sv_admission sv) (sv_secret sv)
    (f (sv_world sv)) (sv_persist sv) (sv_refreshing sv).

Definition setPersist (sv : RouterService) : RouterService :=
  mkService (sv_static sv) (sv_transport sv) (sv_rules sv) (sv_engine sv) (sv_policy sv) (sv_sideEffects sv) (sv_admission sv) (sv_secret sv)
    (sv_world sv) true (sv_refreshing sv).

Definition cancelRefresh (sv : RouterService) : RouterService :=
  mkService (sv_static sv) (sv_transport sv) (sv_rules sv) (sv_engine sv) (sv_policy sv) (sv_sideEffects sv) (sv_admission sv) (sv_secret sv)
    (sv_world sv) (sv_persist sv) false.

Section persist.
Context `{MapRange}.

(** [StartScorePersistence] up to its goroutine. *)
Definition StartScorePersistence (env : environ) (path : string) (read : option scoreStoreFile) (now : Z) (sv : RouterService) : RouterService :=
  if empty_str path then sv
  else
    let '(st, l, _) := LoadScores (sv_static sv) env path read now (w_breakers (sv_world sv)) (w_ledger (sv_world sv)) in
    setPersist (onWorld (setScores st l) sv).
End persist.

Section saving.
Context (path tmp : string).
#[local] Open Scope io_scope.

(** A save by the service: a tick of the flusher, and the end of [Close]. *)
Definition saveNow (ok : call -> bool) (savedAt now : Z) (sv : RouterService) : io scoreStoreFile (RouterService * bool) :=
  r <- SaveScores ok path tmp savedAt now (w_breakers (sv_world sv)) (w_ledger (sv_world sv)) ;;
  let '(st, l, b) := r in
  io_ret (onWorld (setScores st l) sv, b).

(** [RouterService.Close] *)
Definition close (ok : call -> bool) (savedAt now : Z) (sv : RouterService) : io scoreStoreFile RouterService :=
  let sv := cancelRefresh sv in
  if sv_persist sv then (r <- saveNow ok savedAt now sv ;; io_ret r.1) else io_ret sv.
End saving.

(** ** What a new service is *)

(** C25: everything the other theorems ask of a service holds of a new one.  For
    any environment and any sources: a circuit opens after at least one
    failure, the pool keeps at least two connections per host, the ledger, the
    affinity store, the counts and the admission slots satisfy their
    invariants with nothing held, the policy is one a service can have, no
    circuit is open and nothing was written; and when the policy fails strict
    validation every request is denied. *)
Theorem new_service_ready `{MapRange} D quote decodeRetry limits fallbacks S secret id :
  let sv := NewRouterService D quote decodeRetry limits fallbacks S secret id in
  let w := sv_world sv in
  1 <= cfg_FailureThreshold (config (sv_static sv)) /\ 1 <= bp_FailureThreshold (defaultBreakerPolicy (sv_static sv)) /\
  2 <= MaxIdleConnsPerHost (sv_transport sv) /\
  ledgerOK (w_ledger w) /\ storeOK (w_affinity w) /\ 0 < af_ttl (w_affinity w) /\ canonicalCounts (w_breakers w) /\
  admissionInv (sv_admission sv) (mkAconf 0 []) /\ serviceState D quote (sv_policy sv) /\
  modelBreakers (w_breakers w) = ∅ /\ providerBreakers (w_breakers w) = ∅ /\ rw_statuses (w_writer w) = [] /\
  (strictFailure (loadModelPolicyRuntime D quote (bridgedSources S)) = true -> forall req trace, exists e, sv_engine sv req trace = denyAllPolicyEngine e).
Proof.
  cbv zeta. set (env := src_env (bridgedSources S)).
  assert (Ht : 1 <= cfg_FailureThreshold (breakerConfigFromEnv env)) by (unfold breakerConfigFromEnv; cbn [cfg_FailureThreshold]; destruct (Z.ltb_spec (envInt env "PROXY_BREAKER_FAILURE_THRESHOLD" 3) 1); lia).
  unfold NewRouterService, newWorld. cbv zeta. fold env.
  cbn [sv_world sv_static sv_transport sv_admission sv_policy sv_engine w_ledger w_affinity w_breakers w_writer asStatic config runtime_BreakerPolicy].
  split_and!; [exact Ht| | |apply new_ledgerOK|apply new_store_ok| |split; apply map_Forall_empty| | |reflexivity|reflexivity|reflexivity|].
  - unfold defaultBreakerPolicy, rulesFromEnv, loadRuleConfig, asStatic. cbn [runtime_BreakerPolicy rr_BreakerPolicy bp_FailureThreshold config].
    destruct (0 <? cfg_FailureThreshold (breakerConfigFromEnv env)); exact Ht.
  - unfold baseTransport. cbn [MaxIdleConnsPerHost]. destruct (Z.ltb_spec (envInt env "PROXY_MAX_IDLE_CONNS_PER_HOST" 128) 2); lia.
  - unfold affinityFromEnv, newAffinityStore. cbn [af_ttl]. destruct (Z.leb_spec (wrap64 (envInt env "PROXY_AFFINITY_TTL_SECONDS" 86400 * Second)) 0); [done|lia].
  - split; [done|]. unfold capacityOK, newAdmissionControl. destruct (Z.leb_spec (envInt env "PROXY_MAX_CONCURRENT" 128) 0); cbn [ac_sem a_tokens]; lia.
  - apply ss_new.
  - intros Hs req trace. exists "model policy strict validation failed". unfold startEngine. by rewrite Hs.
Qed.

(** ** The number in the error *)

Lemma itoaDigits_pretty fuel : forall n buf, 0 <= n < 10 ^ Z.of_nat fuel -> itoaDigits fuel n buf = pretty_N_go (Z.to_N n) buf.
Proof.
  induction fuel as [|fuel IH]; intros n buf Hn; [by assert (n = 0) as -> by lia|].
  cbn [itoaDigits]. destruct (Z.ltb_spec 0 n) as [Hp|]; [|by assert (n = 0) as -> by lia].
  rewrite pretty_N_go_step by lia. rewrite Z.quot_div_nonneg, Z.rem_mod_nonneg by lia.
  assert (Hd : 0 <= n / 10 < 10 ^ Z.of_nat fuel).
  { split; [apply Z.div_pos; lia|]. apply Z.div_lt_upper_bound; [lia|]. rewrite Nat2Z.inj_succ, Z.pow_succ_r in Hn by lia. lia. }
  rewrite IH by done. rewrite Z2N.inj_div by lia. f_equal. f_equal.
  pose proof (Z.mod_pos_bound n 10 ltac:(lia)) as Hm. change 10%N with (Z.to_N 10). rewrite <- Z2N.inj_mod by lia.
  assert (Hc : forall d, 0 <= d < 10 -> ascii_of_nat (48 + Z.to_nat d) = pretty_N_char (Z.to_N d)).
  { intros d Hd'. assert (d ∈ [0;1;2;3;4;5;6;7;8;9]) as Hin by (rewrite !elem_of_cons; lia).
    repeat (apply elem_of_cons in Hin as [->|Hin]; [done|]). by apply elem_of_nil in Hin. }
  by apply Hc.
Qed.

Lemma pretty_pos q : pretty (N.pos q) = pretty_N_go (N.pos q) "".
Proof. unfold pretty at 1, pretty_N. by case_decide. Qed.

(** [itoa] prints an integer as the standard library would, but for the
    smallest one, which has no positive counterpart and comes out as a sign. *)
Theorem itoa_prints n : in_int64 n -> itoa n = if n =? min_int64 then "-" else pretty n.
Proof.
  intros Hr. unfold in_int64, min_int64, max_int64 in *. unfold itoa. destruct (Z.eqb_spec n 0) as [->|Hz]; [done|].
  destruct (Z.ltb_spec n 0) as [Hn|Hn].
  - destruct (Z.eqb_spec n (- two63)) as [->|Hne]; [done|]. rewrite wrap64_id by (unfold in_int64, min_int64, max_int64; lia).
    rewrite itoaDigits_pretty by (unfold two63 in *; lia). destruct n as [|q|q]; try lia. cbn [Z.opp Z.to_N].
    change (pretty (Z.neg q)) with ("-" +:+ pretty (N.pos q)). by rewrite pretty_pos.
  - destruct (Z.eqb_spec n (- two63)) as [->|_]; [unfold two63 in *; lia|]. rewrite itoaDigits_pretty by (unfold two63 in *; lia).
    destruct n as [|q|q]; try lia. change (pretty (Z.pos q)) with (pretty (N.pos q)). by rewrite pretty_pos.
Qed.

(** ** Reloads beside refreshes *)

Inductive indexOp := Reloaded (overrides : gmap string (list string)) | Refreshed (reply : fetchReply).

Definition runIndexOp (idx : capabilityIndex) (op : indexOp) : capabilityIndex :=
  match op with Reloaded overrides => setOverrides overrides idx | Refreshed reply => refresh reply idx end.

Definition lastOverrides (acc : gmap string (list string)) (op : indexOp) : gmap string (list string) :=
  match op with Reloaded overrides => overrides | Refreshed _ => acc end.

(** The catalogue that was fetched last. *)
Definition lastCatalogue (acc : gmap string (gset string)) (op : indexOp) : gmap string (gset string) :=
  match op with Reloaded _ => acc | Refreshed reply => match fetchOpenRouterCapabilities reply with inr auto => auto | inl _ => acc end end.

(** The published capabilities are the last overrides over the last good
    catalogue.  However reloads and refreshes interleave, what is published
    never depends on their order: a fetch that fails, answers another status,
    cannot be decoded or names no model changes nothing, and an override wins
    over every catalogue that comes after it. *)
Theorem index_is_last_of_both overrides ops :
  let idx := fold_left runIndexOp ops (newCapabilityIndex overrides) in
  let O := fold_left lastOverrides ops overrides in
  let A := fold_left lastCatalogue ops ∅ in
  ci_overrides idx = O /\ ci_auto idx = A /\ forall model, ci_caps idx !! model =
    match O !! model with Some list => Some (fold_left applyOverride list (default ∅ (A !! model))) | None => A !! model end.
Proof.
  cbv zeta. assert (H : forall ops O A idx, idx = rebuildLocked (mkIndex ∅ O A) ->
    fold_left runIndexOp ops idx = rebuildLocked (mkIndex ∅ (fold_left lastOverrides ops O) (fold_left lastCatalogue ops A))).
  { clear. induction ops as [|op ops IH]; intros O A idx ->; [done|]. cbn [fold_left]. apply IH. destruct op as [o|reply]; cbn; [done|].
    unfold refresh. by destruct (fetchOpenRouterCapabilities reply). }
  rewrite (H ops overrides ∅) by done. split_and!; [done..|]. intros model. cbn. rewrite lookup_merge.
  destruct (fold_left lastOverrides ops overrides !! model) as [l|], (fold_left lastCatalogue ops ∅ !! model) as [a|]; done.
Qed.

(** ** The refresher *)

Definition isDone (e : refreshEvent) : bool := match e with RefreshDone => true | _ => false end.

(** The refresher stops for good at the first end of its context, having
    fetched once at the start and once per tick before it. *)
Theorem refresher_stops_when_closed env first before after idx :
  capabilityAutoderiveEnabled env = true -> 0 < refreshInterval env -> existsb isDone before = false ->
  startCapabilityRefresh env first (before ++ (RefreshDone :: after))%list idx =
    (Stopped, fold_left (fun idx e => match e with RefreshTick reply => refresh reply idx | RefreshDone => idx end) before (refresh first idx)).
Proof.
  intros He Hi Hb. unfold startCapabilityRefresh. rewrite He. cbn [negb]. destruct (Z.leb_spec (refreshInterval env) 0); [lia|].
  generalize (refresh first idx). induction before as [|e before IH]; intros i; [done|]. destruct e as [|reply]; [done|]. cbn. by apply IH.
Qed.

(** An interval of seconds that does not fit in a duration wraps around: the
    goroutine that keeps the capabilities up to date panics, and with it the
    proxy.  The same number as cooldown lets no circuit stay open. *)
Theorem overflowing_interval_panics first events idx :
  let env := {["PROXY_CAPABILITY_REFRESH_SECONDS" := "9223372037"; "PROXY_BREAKER_COOLDOWN_SECONDS" := "9223372037"]} in
  (startCapabilityRefresh env first events idx).1 = Panicked /\ cfg_Cooldown (breakerConfigFromEnv env) < 0.
Proof. by vm_compute. Qed.

(** ** Closing *)

Lemma SaveScores_clean ok path tmp savedAt now st l s : scoresDirty st = false -> SaveScores ok path tmp savedAt now st l s = ((st, l, true), s).
Proof. intros Hd. unfold SaveScores. rewrite Hd. by destruct (empty_str path). Qed.

Lemma SaveScores_marked ok path tmp savedAt now st l d :
  synced path d -> tmp <> path -> path <> "" -> scoresDirty st = true ->
  let '((st', _, b), (d', _)) := SaveScores ok path tmp savedAt now st l (d, []) in
  scoresDirty st' = negb b /\ readDisk d' path = if b then Some (Some (snapshotScores savedAt now (set_dirty false st) l).2) else readDisk d path.
Proof.
  intros Hs Ht Hp Hd. unfold SaveScores. rewrite Hd. destruct (empty_str path) eqn:E; [by apply empty_str_spec in E|]. cbn [negb].
  destruct (snapshotScores savedAt now (set_dirty false st) l) as [l' file]. unfold io_bind.
  pose proof (writeScoreFile_spec ok path tmp file d Hs Ht) as [_ H]. destruct (writeScoreFile ok path tmp file (d, [])) as [[] [d' log]]; done.
Qed.

Lemma close_saves ok path tmp savedAt now sv s : sv_persist sv = true ->
  close path tmp ok savedAt now sv s =
    let '((st, l, _), s') := SaveScores ok path tmp savedAt now (w_breakers (sv_world sv)) (w_ledger (sv_world sv)) s in
    (onWorld (setScores st l) (cancelRefresh sv), s').
Proof.
  intros Hp. unfold close. change (sv_persist (cancelRefresh sv)) with (sv_persist sv). rewrite Hp. unfold saveNow, io_bind.
  change (sv_world (cancelRefresh sv)) with (sv_world sv). destruct (SaveScores _ _ _ _ _ _ _ s) as [[[st l] b] s']. done.
Qed.

Lemma setScores_id w : setScores (w_breakers w) (w_ledger w) w = w.
Proof. by destruct w. Qed.

Lemma onWorld_id sv f : f (sv_world sv) = sv_world sv -> onWorld f sv = sv.
Proof. destruct sv. unfold onWorld. cbn. by intros ->. Qed.

(** Closing a service without marked scores only stops the refresher. *)
Lemma close_clean ok path tmp savedAt now sv s : sv_persist sv = true -> scoresDirty (w_breakers (sv_world sv)) = false ->
  close path tmp ok savedAt now sv s = (cancelRefresh sv, s).
Proof.
  intros Hp Hd. rewrite close_saves, SaveScores_clean by done. f_equal. apply onWorld_id. apply setScores_id.
Qed.

(** [Close] writes the tail of what was learned.  With persistence on, and
    scores that are marked: when its write succeeds the file holds exactly the
    scores and the quota of that moment and the mark is gone, so that closing
    again changes nothing; when the write fails the file is as it was and the
    mark is back, so that closing again tries again.  Without a mark nothing is
    written.  The refresher is stopped in every case. *)
Theorem close_saves_the_tail ok ok' path tmp savedAt now savedAt' now' sv d :
  synced path d -> tmp <> path -> path <> "" -> sv_persist sv = true ->
  let file := (snapshotScores savedAt now (set_dirty false (w_breakers (sv_world sv))) (w_ledger (sv_world sv))).2 in
  let '(sv1, (d1, _)) := close path tmp ok savedAt now sv (d, []) in
  let '(sv2, (d2, _)) := close path tmp ok' savedAt' now' sv1 (d1, []) in
  sv_refreshing sv1 = false /\
  (scoresDirty (w_breakers (sv_world sv)) = false -> d1 = d /\ sv1 = cancelRefresh sv) /\
  (scoresDirty (w_breakers (sv_world sv)) = true ->
     if scoresDirty (w_breakers (sv_world sv1)) then readDisk d1 path = readDisk d path
     else readDisk d1 path = Some (Some file) /\ d2 = d1 /\ sv2 = sv1).
Proof.
  intros Hs Ht Hp Hpers file. destruct (scoresDirty (w_breakers (sv_world sv))) eqn:Ed.
  - rewrite close_saves by done. pose proof (SaveScores_marked ok path tmp savedAt now _ (w_ledger (sv_world sv)) d Hs Ht Hp Ed) as H.
    destruct (SaveScores _ _ _ _ _ _ _ _) as [[[st l] b] [d1 log]]. destruct H as [Hst Hread].
    set (sv1 := onWorld (setScores st l) (cancelRefresh sv)). change (w_breakers (sv_world sv1)) with st. rewrite Hst.
    destruct b; cbn [negb].
    + rewrite close_clean by (done || exact Hst). by split_and!.
    + destruct (close _ _ _ _ _ sv1 _) as [sv2 [d2 log2]]. by split_and!.
  - rewrite close_clean by done. rewrite close_clean by done. by split_and!.
Qed.

(** ** A process, and the next one *)

(** [readScoreFile] on the disk a process leaves: an unreadable or torn file
    is an error. *)
Definition readScoreFile (d : disk scoreStoreFile) (path : string) : option scoreStoreFile := data ← readDisk d path; data.

Section process.
Context `{MapRange} (D : Decoders) (quote : string -> string).
Context (decodeRetry : string -> RetryPolicy) (limits : Limits) (fallbacks : option (gmap string (list string))).

(** [main] up to the first request. *)
Definition boot (S : Sources) (path secret : string) (ledgerID : nat) (now : Z) (d : disk scoreStoreFile) : RouterService :=
  StartScorePersistence (bridgeLegacyPolicyEnv (src_env S)) path (readScoreFile d path) now
    (NewRouterService D quote decodeRetry limits fallbacks S secret ledgerID).

(** The scores with which a process starts, from the file it finds. *)
Lemma boot_restores S path secret id now d file :
  path <> "" -> readScoreFile d path = Some file -> sf_Version file = scoreStoreVersion ->
  let env := bridgeLegacyPolicyEnv (src_env S) in
  let sv := boot S path secret id now d in
  (0 <? scoreMaxAge env) && negb (IsZero (sf_SavedAt file)) && (scoreMaxAge env <? time_Sub now (sf_SavedAt file)) = false ->
  w_breakers (sv_world sv) = (restoreScores file (knownBreakerKeys (sv_static sv)) now (scoreMaxAge env) emptyState (NewQuotaLedger id)).1.1 /\
  sv_persist sv = true.
Proof.
  intros Hp Hr Hv env sv Hfresh. subst sv. unfold boot, StartScorePersistence. destruct (empty_str path) eqn:E; [by apply empty_str_spec in E|]. rewrite Hr.
  unfold LoadScores. rewrite E, Hv. change ((scoreStoreVersion <? scoreStoreMinVersion) || (scoreStoreVersion <? scoreStoreVersion)) with false. cbn iota.
  fold env. rewrite Hfresh.
  match goal with |- context [restoreScores file ?k now ?m ?st ?l] => change st with emptyState; change l with (NewQuotaLedger id); set (known := k) end.
  destruct (restoreScores file known now (scoreMaxAge env) emptyState (NewQuotaLedger id)) as [[st l] restored] eqn:Er.
  cbn [setPersist onWorld setScores sv_world w_breakers sv_static sv_persist]. split; [|done]. fold known. by rewrite Er.
Qed.
End process.

(** C17: what one process learned the next one starts with.  A process that served
    requests ([f]) and marked its scores, and whose last save on closing
    succeeded, leaves a file from which the next process, at any later time
    before the file is too old and with any policy, starts with exactly the
    scores, clocks and successes of the models its policy knows and whose
    evidence is fresh, all circuits closed, and with no other model; its
    persistence is on again.  Before that save every version of the file a
    crash could find was synced, as the writer of the scores leaves it. *)
Theorem next_process_starts_where_this_one_ended `{MapRange} D quote decodeRetry limits fallbacks path tmp d ok savedAt now sv f S secret id now2 :
  synced path d -> tmp <> path -> path <> "" -> sv_persist sv = true ->
  let served := onWorld f sv in
  let st := w_breakers (sv_world served) in
  let '(closed, (d1, _)) := close path tmp ok savedAt now served (d, []) in
  scoresDirty st = true -> scoresDirty (w_breakers (sv_world closed)) = false ->
  canonicalCounts st -> 0 <= scoreAttempts st ->
  let env := bridgeLegacyPolicyEnv (src_env S) in
  let maxAge := scoreMaxAge env in
  (0 <? maxAge) && negb (IsZero savedAt) && (maxAge <? time_Sub now2 savedAt) = false ->
  let next := boot D quote decodeRetry limits fallbacks S path secret id now2 d1 in
  sv_persist next = true /\ providerBreakers (w_breakers (sv_world next)) = ∅ /\
  forall key, modelBreakers (w_breakers (sv_world next)) !! key =
    match modelBreakers st !! key with
    | Some state => if carried (knownBreakerKeys (sv_static next)) now2 maxAge key state then Some (learned state) else None
    | None => None
    end.
Proof.
  intros Hs Ht Hp Hpers served st. rewrite close_saves by done. destruct (SaveScores _ _ _ _ _ _ _ _) as [[[st1 l1] b] [d1 log]] eqn:Es.
  intros Hd Hclean Hc Hseq env maxAge Hfresh next. change (scoresDirty st1 = false) in Hclean.
  pose proof (SaveScores_marked ok path tmp savedAt now st (w_ledger (sv_world served)) d Hs Ht Hp Hd) as H'.
  change (w_breakers (sv_world served)) with st in Es. rewrite Es in H'. destruct H' as [Hb Hread]. rewrite Hclean in Hb. destruct b; [|done].
  set (file := (snapshotScores savedAt now (set_dirty false st) (w_ledger (sv_world served))).2) in *.
  assert (Hfile : sf_SavedAt file = savedAt /\ sf_Version file = scoreStoreVersion).
  { subst file. unfold snapshotScores. destruct (Keys _ _) as [? ?]. by destruct (quotaSnapshots _ _ _). }
  destruct Hfile as [Hsaved Hver].
  assert (Hr : readScoreFile d1 path = Some file) by (unfold readScoreFile; by rewrite Hread).
  destruct (boot_restores D quote decodeRetry limits fallbacks S path secret id now2 d1 file Hp Hr Hver) as [Hw Hpn].
  { fold env. fold maxAge. by rewrite Hsaved. }
  fold env in Hw. fold maxAge in Hw. fold next in Hw, Hpn. split; [done|].
  pose proof (scores_survive_restart (set_dirty false st) (w_ledger (sv_world served)) savedAt now (knownBreakerKeys (sv_static next)) now2 maxAge (NewQuotaLedger id) Hc Hseq) as Hsr.
  cbv zeta in Hsr. fold file in Hsr. rewrite Hw. destruct (restoreScores file _ now2 maxAge emptyState (NewQuotaLedger id)) as [[st2 l2] n]. cbn [fst].
  destruct Hsr as (Hm & _ & _ & Hpb & _). split; [done|]. exact Hm.
Qed.

(** ** Witnesses *)

Definition demoService : RouterService :=
  setPersist (NewRouterService demoDecoders id (fun _ => zeroRetryPolicy) noLimits None (demoSources None) "secret" 0).

Definition emptyDisk : disk scoreStoreFile := mkDisk ∅ ∅ [] Missing.

Lemma emptyDisk_synced : synced "scores.json" emptyDisk.
Proof. split; [|by right]. intros dir Hd. by apply list_elem_of_singleton in Hd as ->. Qed.

Lemma demoScores_canonical : canonicalCounts demoScores.
Proof. split; [apply map_Forall_singleton; reflexivity|apply map_Forall_insert_2; [reflexivity|apply map_Forall_singleton; reflexivity]]. Qed.

Lemma next_process_starts_where_this_one_ended_witness :
  let served := onWorld (setScores demoScores (NewQuotaLedger 0)) demoService in
  let '(_, (d1, _)) := close "scores.json" "tmp" (fun _ => true) (20 * Second) (20 * Second) served (emptyDisk, []) in
  let next := boot demoDecoders id (fun _ => zeroRetryPolicy) noLimits None (demoSources None) "scores.json" "s" 1 (30 * Second) d1 in
  sv_persist next = true /\ providerBreakers (w_breakers (sv_world next)) = ∅.
Proof.
  cbv zeta.
  pose proof (next_process_starts_where_this_one_ended demoDecoders id (fun _ => zeroRetryPolicy) noLimits None "scores.json" "tmp" emptyDisk (fun _ => true)
    (20 * Second) (20 * Second) demoService (setScores demoScores (NewQuotaLedger 0)) (demoSources None) "s" 1 (30 * Second)
    emptyDisk_synced ltac:(discriminate) ltac:(discriminate) eq_refl) as H.
  cbv zeta in H. destruct (close _ _ _ _ _ _ _) as [closed [d1 log]] eqn:E.
  assert (Hc : scoresDirty (w_breakers (sv_world closed)) = false) by (apply (f_equal (fun r => scoresDirty (w_breakers (sv_world r.1)))) in E; vm_compute in E; by symmetry).
  destruct (H eq_refl Hc demoScores_canonical ltac:(discriminate) eq_refl) as (Hp & Hb & _). exact (conj Hp Hb).
Defined.
