(* ===== verification/Signing.v ===== *)
(** * Signing: the release tools (tools/gen, sign, verify, keystatus, internal/releasekey)

    Each tool as the exit code and what it prints on standard output.  Ed25519
    is a class with its laws; the encoding is [Base64].  [verify] is what the
    release pipeline runs before it publishes, and [Update] is what the shipped
    binaries do. *)

From S2P Require Import Prelude Env Text Split Doctor Base64 Files Update.
From Stdlib Require Import Lia ZArith String Ascii.
#[local] Open Scope string_scope.
#[local] Open Scope Z_scope.

(** A key pair comes from random bytes; [None]: the source failed. *)
Class Ed25519 `{ReleaseTools} := {
  GenerateKey : option string -> option (string * string);
  Sign : string -> string -> string;
  pub_size random pub priv : GenerateKey random = Some (pub, priv) -> String.length pub = 32%nat;
  priv_size random pub priv : GenerateKey random = Some (pub, priv) -> String.length priv = 64%nat;
  sig_size priv msg : String.length (Sign priv msg) = 64%nat;
  verify_sign random pub priv msg : GenerateKey random = Some (pub, priv) -> ed25519_Verify pub msg (Sign priv msg) = true;
}.

(** [releasekey.Public] *)
Definition Public : string := "GZXKveslK0EYlHea9EUpcdnWo6QIXmwE9ksfhq2gups=".

(** The exit code, and the lines printed. *)
Definition outcome : Type := Z * list string.

Section tools.
Context `{Ed25519} (Public : string).

Definition genMain (random : option string) : outcome :=
  match GenerateKey random with
  | None => (1, [])
  | Some (pub, priv) =>
      (0, ["# Public key — paste into cmd/verify.go `releasePublicKey` (safe to commit):"; EncodeToString pub; "";
           "# Private key — store as GitHub secret RELEASE_SIGNING_KEY (keep secret!):"; EncodeToString priv])
  end.

Definition signMain (env : environ) (readFile : string -> option string) (args : list string) : outcome :=
  match args with
  | [file] =>
      let keyB64 := TrimSpace (Getenv env "RELEASE_SIGNING_KEY") in
      if empty_str keyB64 then (1, [])
      else match DecodeString keyB64 with
           | None => (1, [])
           | Some priv =>
               if negb (String.length priv =? 64)%nat then (1, [])
               else match readFile file with
                    | None => (1, [])
                    | Some data => (0, [EncodeToString (Sign priv data)])
                    end
           end
  | _ => (2, [])
  end.

Definition verifyMain (readFile : string -> option string) (args : list string) : outcome :=
  match args with
  | [signedFile; sigFile] =>
      let pubB64 := TrimSpace Public in
      if empty_str pubB64 then (1, [])
      else match DecodeString pubB64 with
           | None => (1, [])
           | Some pub =>
               if negb (String.length pub =? 32)%nat then (1, [])
               else match readFile signedFile, readFile sigFile with
                    | Some signed, Some sigRaw =>
                        match DecodeString (TrimSpace sigRaw) with
                        | None => (1, [])
                        | Some sig =>
                            if negb (String.length sig =? 64)%nat then (1, [])
                            else if negb (ed25519_Verify pub signed sig) then (1, [])
                            else (0, ["Signature verifies against the embedded release key."])
                        end
                    | _, _ => (1, [])
                    end
           end
  | _ => (2, [])
  end.

Definition keystatusMain : string := if negb (empty_str (TrimSpace Public)) then "embedded" else "none".
End tools.

(** ** Theorems *)

(** C39: the release pipeline and the shipped binaries agree.  The check before
    publishing passes on a list of checksums and its signature exactly when a
    binary with the same key, and no key of its own in the environment, asks
    for a signature and accepts this one; and [keystatus] tells whether it
    asks. *)
Theorem pipeline_check_is_update_check `{Ed25519} bd readFile signedFile sigFile env signed sig :
  readFile signedFile = Some signed -> readFile sigFile = Some sig -> TrimSpace (Getenv env "PROXY_UPDATE_PUBKEY") = "" ->
  ((verifyMain (releasePublicKey bd) readFile [signedFile; sigFile]).1 = 0 <->
     updatePublicKey bd env <> "" /\ verifyReleaseSignature signed sig (updatePublicKey bd env) = true) /\
  (keystatusMain (releasePublicKey bd) = "embedded" <-> updatePublicKey bd env <> "").
Proof.
  intros Hs Hg He. unfold updatePublicKey. rewrite He. change (negb (empty_str "")) with false. cbv iota.
  unfold verifyMain, verifyReleaseSignature, keystatusMain. rewrite TrimSpace_idemp. cbv zeta. rewrite Hs, Hg.
  destruct (empty_str (TrimSpace (releasePublicKey bd))) eqn:Ek.
  - apply empty_str_spec in Ek. rewrite Ek. split; split; try done; by intros [? _].
  - apply bool_decide_eq_false in Ek. split; [|by split].
    destruct (DecodeString (TrimSpace (releasePublicKey bd))) as [pub|]; [|split; [done|by intros [_ ?]]].
    destruct (negb (String.length pub =? 32)%nat); [split; [done|by intros [_ ?]]|].
    destruct (DecodeString (TrimSpace sig)) as [sg|]; [|split; [done|by intros [_ ?]]].
    destruct (negb (String.length sg =? 64)%nat); [split; [done|by intros [_ ?]]|].
    destruct (ed25519_Verify pub signed sg); split; try done. by intros [_ ?].
Qed.

Lemma visible_encode s : s <> "" -> visible (list_ascii_of_string (EncodeToString s)).
Proof.
  intros Hne. assert (Hl : list_ascii_of_string (EncodeToString s) <> []) by (by destruct s as [|a [|b [|c s]]]; [|discriminate..]).
  pose proof (encode_graph s) as Hg. unfold strAll in Hg. set (l := list_ascii_of_string (EncodeToString s)) in *. split.
  - destruct l as [|c t]; [done|]. apply Forall_cons in Hg as [Hc _]. by exists c, t.
  - apply List.Forall_rev in Hg. destruct (rev l) as [|d t] eqn:E; [apply (f_equal (@rev _)) in E; rewrite rev_involutive in E; by rewrite E in Hl|].
    apply Forall_cons in Hg as [Hd _]. by exists d, t.
Qed.

Lemma TrimSpace_encoded s : s <> "" -> TrimSpace (EncodeToString s) = EncodeToString s.
Proof.
  intros Hs. pose proof (TrimSpace_visible 0 0 (EncodeToString s) (visible_encode _ Hs)) as Ht.
  rewrite (right_id_L "" String.append) in Ht. exact Ht.
Qed.

(** A line as [fmt.Println] writes it. *)
Definition println (line : string) : string := line +:+ String (byte 10) "".

Lemma strip_newline (s : bytes) : strip_any ((@rev ascii) <$> all_space_seqs) (byte 10 :: s) = Some s.
Proof. done. Qed.

Lemma trim_left_graph fuel c (s : bytes) : graphByte c = true ->
  trim_left fuel all_space_seqs (c :: s) = c :: s /\ trim_left fuel ((@rev ascii) <$> all_space_seqs) (c :: s) = c :: s.
Proof. intros Hc. split; apply trim_left_fix; [exact (proj1 (strip_graph c s Hc))|exact (proj2 (strip_graph c s Hc))]. Qed.

Lemma trim_both_newline core : visible core -> trim_both (core ++ [byte 10])%list = core.
Proof.
  intros [(c & t & Hl & Hc) (d & t' & Hr & Hd)]. unfold trim_both. cbv zeta.
  assert (Hleft : forall fuel, trim_left fuel all_space_seqs (core ++ [byte 10])%list = (core ++ [byte 10])%list).
  { intros fuel. rewrite Hl. exact (proj1 (trim_left_graph fuel c _ Hc)). }
  rewrite Hleft, rev_app_distr, Hr, length_app, Nat.add_comm. cbn [rev app List.length Nat.add trim_left]. rewrite strip_newline.
  by rewrite (proj2 (trim_left_graph _ d t' Hd)), <- Hr, rev_involutive.
Qed.

(** Encoded bytes survive the line break printed after them. *)
Lemma TrimSpace_println s : s <> "" -> TrimSpace (println (EncodeToString s)) = EncodeToString s.
Proof.
  intros Hs. unfold TrimSpace, println. rewrite list_ascii_app. cbn [list_ascii_of_string].
  rewrite trim_both_newline by by apply visible_encode. apply string_of_list_ascii_of_string.
Qed.

Lemma length_nonempty s n : String.length s = S n -> s <> "".
Proof. by intros Hs ->. Qed.

Definition signingEnv (printed : string) : environ := {["RELEASE_SIGNING_KEY" := printed]}.

Lemma sign_prints `{Ed25519} random pub priv readFile file data :
  GenerateKey random = Some (pub, priv) -> readFile file = Some data ->
  signMain (signingEnv (println (EncodeToString priv))) readFile [file] = (0, [EncodeToString (Sign priv data)]).
Proof.
  intros Hk Hf. assert (He : Getenv (signingEnv (println (EncodeToString priv))) "RELEASE_SIGNING_KEY" = println (EncodeToString priv)).
  { unfold Getenv, signingEnv. by rewrite lookup_singleton_eq. }
  unfold signMain. cbv zeta. rewrite He. pose proof (priv_size _ _ _ Hk) as Hl. rewrite TrimSpace_println by by eapply length_nonempty.
  destruct (empty_str (EncodeToString priv)) eqn:E; [apply empty_str_spec in E; by destruct priv as [|? [|? [|? ?]]]|].
  rewrite decode_encode, Hl, Hf. done.
Qed.

(** What [gen] and [sign] print is what [verify] and the updater accept.  With
    a key pair of [gen], the private one in the environment of [sign] and the
    public one built in, each pasted with or without the line break, the line
    [sign] prints for a file verifies for exactly these bytes, in the pipeline
    and in [calvoproxy update]. *)
Theorem signed_release_is_accepted `{Ed25519} random pub priv bd readFile env file data :
  GenerateKey random = Some (pub, priv) -> readFile file = Some data ->
  releasePublicKey bd = EncodeToString pub \/ releasePublicKey bd = println (EncodeToString pub) ->
  TrimSpace (Getenv env "PROXY_UPDATE_PUBKEY") = "" ->
  exists line, signMain (signingEnv (println (EncodeToString priv))) readFile [file] = (0, [line]) /\
    verifyReleaseSignature data (println line) (updatePublicKey bd env) = true /\ verifyReleaseSignature data line (updatePublicKey bd env) = true.
Proof.
  intros Hk Hf Hb He. exists (EncodeToString (Sign priv data)). split; [by eapply sign_prints|].
  assert (Hpub : TrimSpace (releasePublicKey bd) = EncodeToString pub).
  { pose proof (length_nonempty _ _ (pub_size _ _ _ Hk)) as Hne. destruct Hb as [->| ->]; [by apply TrimSpace_encoded|by apply TrimSpace_println]. }
  pose proof (sig_size priv data) as Hl. pose proof (length_nonempty _ _ Hl) as Hne.
  unfold verifyReleaseSignature, updatePublicKey. rewrite He. change (negb (empty_str "")) with false. cbv iota.
  rewrite TrimSpace_idemp, Hpub, decode_encode, (pub_size _ _ _ Hk). change (negb (32 =? 32)%nat) with false. cbv iota.
  rewrite TrimSpace_println, TrimSpace_encoded, decode_encode, Hl by done. split; by eapply verify_sign.
Qed.

(** ** Witnesses *)

Definition demoPub : string := "01234567890123456789012345678901".
Definition demoPriv : string := "0123456789012345678901234567890123456789012345678901234567890123".

#[local] Instance exEd25519 : @Ed25519 exTools.
Proof.
  refine {| GenerateKey := fun random => const (demoPub, demoPriv) <$> random;
            Sign := fun _ _ => "gen-sig.--------------------------------------------------------" |}.
  - intros [r|] pub priv; [|done]. by intros [= <- <-].
  - intros [r|] pub priv; [|done]. by intros [= <- <-].
  - done.
  - done.
Defined.

Definition demoFiles (name : string) : option string :=
  if str_eq name "SHA256SUMS.txt" then Some exSums else if str_eq name "SHA256SUMS.txt.sig" then Some (println exSig) else None.

Lemma pipeline_check_is_update_check_witness : (verifyMain (H := exTools) (EncodeToString demoPub) demoFiles ["SHA256SUMS.txt"; "SHA256SUMS.txt.sig"]).1 = 0.
Proof.
  destruct (pipeline_check_is_update_check (H := exTools) exBuild demoFiles "SHA256SUMS.txt" "SHA256SUMS.txt.sig" ∅ exSums (println exSig)) as [[_ H] _]; [reflexivity..|].
  apply H. split; [vm_compute; discriminate|vm_compute; reflexivity].
Defined.

Lemma signed_release_is_accepted_witness :
  exists line, signMain (H := exTools) (signingEnv (println (EncodeToString demoPriv))) demoFiles ["SHA256SUMS.txt"] = (0, [line]).
Proof.
  destruct (signed_release_is_accepted (H := exTools) (Some "r") demoPub demoPriv exBuild demoFiles ∅ "SHA256SUMS.txt" exSums) as (line & H & _);
    [reflexivity..|left; reflexivity|reflexivity|].
  exists line. exact H.
Defined.
