(* ===== verification/Exporters.v ===== *)
(** * Exporters: where policy events go (router_policy_observation.go, router_policy_errors.go)

    A decision event is put on the span and counted.  The instruments are made
    once, by the first event that is to be counted; whether the meter gives
    them, and the report of the observe package, are arguments. *)

From S2P Require Import Prelude Float Types Env Text Planner Rules Observation.
From Stdlib Require Import Lia ZArith String Ascii.
#[local] Open Scope string_scope.
#[local] Open Scope Z_scope.

Definition attributes : Type := list (string * string).

(** ** Events from a result *)

(** What the report of the observe package says of a result. *)
Record evaluationReport := mkReport { rep_Operation : string; rep_Target : string; rep_Executor : string }.

Definition overlayWith (reported current : string) : string := if empty_str reported then current else valueOrNone reported.

Definition newPolicyTelemetryEventFromResult (prepare : list policyError -> list policyError) (req : policyRequest) (observation : option evaluationReport)
    (decision : policyDecision) (metadata : PolicyMetadata) (err : option policyFailure) (durationMS : Z) : PolicyTelemetryEvent :=
  let e := newPolicyTelemetryEvent prepare req decision metadata err durationMS in
  match observation with
  | None => e
  | Some report =>
      mkEvent (ev_SchemaVersion e) (ev_PolicyName e) (ev_PolicyHash e) (overlayWith (rep_Operation report) (ev_Operation e))
        (overlayWith (rep_Target report) (ev_Target e)) (overlayWith (rep_Executor report) (ev_Executor e)) (ev_Decision e) (ev_RuleID e) (ev_AuditClass e)
        (ev_RequiresAudit e) (ev_ProxyReady e) (ev_ProxyStatus e) (ev_ErrorKind e) (ev_ErrorCodes e) (ev_ErrorFields e) (ev_DurationMS e)
  end.

Definition zeroDecision : policyDecision := mkDecision false "" "" [] "" "" [] "" false 0 (mkRetryPolicy 0 [] false false 0 0) (mkBreakerPolicy 0 0 false) noLimits.
Definition zeroRequest : policyRequest := mkPolicyRequest "" "" "" "" ∅.

(** [buildMetadata]: the metadata of a build error, when it is one. *)
Definition policyErrorLogAttrs (prepare : list policyError -> list policyError) (buildMetadata : option PolicyMetadata) (err : option policyFailure) : attributes :=
  match err with
  | None => []
  | Some e => LogAttrs (newPolicyTelemetryEvent prepare zeroRequest zeroDecision (default generatedPolicyMetadata buildMetadata) (Some e) 0)
  end.

(** ** Metrics *)

Definition labelOrder : list string := ["policy_name"; "operation"; "target"; "executor"; "decision"; "error_code"].

Definition attributesFromLabels (labels : gmap string string) : attributes :=
  omap (fun key => value ← labels !! key; Some (key, valueOrNone value)) labelOrder.

Record policyMetrics := mkPolicyMetrics {
  policyMetricsOnce : bool;
  policyMetricInstruments : bool;
  policyDecisionCounter : gmap (list (string * string)) Z;
  policyErrorCounter : gmap (list (string * string)) Z;
  policyDecisionDuration : list (attributes * Z);
}.

Definition zeroPolicyMetrics : policyMetrics := mkPolicyMetrics false false ∅ ∅ [].

Definition Add (attrs : attributes) (m : gmap (list (string * string)) Z) : gmap (list (string * string)) Z :=
  <[attrs := default 0 (m !! attrs) + 1]> m.

Section exporters.
(** Whether the meter gives the three instruments. *)
Context (meter : bool * bool * bool).

Definition makeInstruments (m : policyMetrics) : policyMetrics :=
  if policyMetricsOnce m then m
  else
    let '(decisions, errors, durations) := meter in
    mkPolicyMetrics true (decisions && errors && durations) (policyDecisionCounter m) (policyErrorCounter m) (policyDecisionDuration m).

Definition recordPolicyMetrics (event : PolicyTelemetryEvent) (m : policyMetrics) : policyMetrics :=
  let m := makeInstruments m in
  if negb (policyMetricInstruments m) then m
  else
    let attrs := attributesFromLabels (list_to_map (MetricLabels event)) in
    mkPolicyMetrics (policyMetricsOnce m) (policyMetricInstruments m) (Add attrs (policyDecisionCounter m))
      (if str_eq (ev_Decision event) "error" then Add (attributesFromLabels (list_to_map (ErrorMetricLabels event))) (policyErrorCounter m) else policyErrorCounter m)
      (policyDecisionDuration m ++ [(attrs, ev_DurationMS event)])%list.

(** The attributes of the span ([None]: there is no span) and the metrics. *)
Definition recordPolicyTelemetry (event : PolicyTelemetryEvent) (cfg : policyTelemetryConfig) (span : option attributes) (m : policyMetrics) : option attributes * policyMetrics :=
  (if pt_TraceEnabled cfg then (fun attrs => (attrs ++ TraceAttributes event)%list) <$> span else span,
   if pt_MetricsEnabled cfg then recordPolicyMetrics event m else m).
End exporters.

(** ** What is exported *)

Lemma omap_keys (labels : gmap string string) l : (omap (fun key => value ← labels !! key; Some (key, valueOrNone value)) l).*1 = List.filter (fun key => bool_decide (is_Some (labels !! key))) l.
Proof.
  induction l as [|k l IH]; [done|]. cbn. destruct (labels !! k) as [v|]; cbn; [by rewrite IH|exact IH].
Qed.

Lemma valueOrNone_nonblank value : TrimSpace (valueOrNone value) <> "".
Proof. unfold valueOrNone. destruct (empty_str (TrimSpace value)) eqn:E; [by vm_compute|]. by apply bool_decide_eq_false in E. Qed.

(** Labels keep the metrics bounded.  Whatever labels an event carries, what
    is exported has only the six agreed names, each at most once and in their
    fixed order, and no value is blank. *)
Theorem exported_labels_are_agreed labels :
  (attributesFromLabels labels).*1 `sublist_of` labelOrder /\ Forall (fun a => TrimSpace a.2 <> "") (attributesFromLabels labels) /\
  forall key value, (key, value) ∈ attributesFromLabels labels <-> key ∈ labelOrder /\ valueOrNone <$> labels !! key = Some value.
Proof.
  unfold attributesFromLabels. split_and!.
  - rewrite omap_keys. generalize labelOrder. induction l as [|k l IH]; [constructor|]. cbn. destruct (bool_decide _); by constructor.
  - apply Forall_forall. intros [k v] (key & _ & Hv)%list_elem_of_omap. destruct (labels !! key); [|done]. injection Hv as <- <-. apply valueOrNone_nonblank.
  - intros key value. rewrite list_elem_of_omap. split.
    + intros (k & Hk & Hv). destruct (labels !! k) as [x|] eqn:E; [|done]. injection Hv as <- <-. by rewrite E.
    + intros [Hk Hv]. exists key. split; [done|]. destruct (labels !! key) as [x|]; [|done]. cbn in *. by injection Hv as <-.
Qed.

(** ** What is counted *)

Definition decisionAttrs (e : PolicyTelemetryEvent) : attributes := attributesFromLabels (list_to_map (MetricLabels e)).
Definition errorAttrs (e : PolicyTelemetryEvent) : attributes := attributesFromLabels (list_to_map (ErrorMetricLabels e)).
Definition isError (e : PolicyTelemetryEvent) : bool := str_eq (ev_Decision e) "error".

Definition occurrences (attrs : attributes) (attrsOf : PolicyTelemetryEvent -> attributes) (es : list PolicyTelemetryEvent) : Z :=
  Z.of_nat (count (fun e => bool_decide (attrsOf e = attrs)) es).

Lemma Add_lookup attrs attrs' m : default 0 (Add attrs m !! attrs') = default 0 (m !! attrs') + if bool_decide (attrs = attrs') then 1 else 0.
Proof. unfold Add. case_bool_decide as E; [subst; rewrite lookup_insert_eq; done|rewrite lookup_insert_ne by done; lia]. Qed.

Definition recordAll (meter : bool * bool * bool) (es : list PolicyTelemetryEvent) (m : policyMetrics) : policyMetrics :=
  fold_left (fun m e => recordPolicyMetrics meter e m) es m.

(** One event, once the instruments are there. *)
Definition ready (e : PolicyTelemetryEvent) (m : policyMetrics) : policyMetrics :=
  mkPolicyMetrics true true (Add (decisionAttrs e) (policyDecisionCounter m)) (if isError e then Add (errorAttrs e) (policyErrorCounter m) else policyErrorCounter m)
    (policyDecisionDuration m ++ [(decisionAttrs e, ev_DurationMS e)])%list.

Lemma recordPolicyMetrics_ready meter e m : policyMetricsOnce m = true -> policyMetricInstruments m = true -> recordPolicyMetrics meter e m = ready e m.
Proof. destruct m as [once instruments decisions errors durations]. cbn. by intros -> ->. Qed.

Lemma recordAll_counts meter es : forall m, policyMetricsOnce m = true -> policyMetricInstruments m = true ->
  let r := recordAll meter es m in
  (forall attrs, default 0 (policyDecisionCounter r !! attrs) = default 0 (policyDecisionCounter m !! attrs) + occurrences attrs decisionAttrs es) /\
  (forall attrs, default 0 (policyErrorCounter r !! attrs) = default 0 (policyErrorCounter m !! attrs) + occurrences attrs errorAttrs (List.filter isError es)) /\
  policyDecisionDuration r = (policyDecisionDuration m ++ ((fun e => (decisionAttrs e, ev_DurationMS e)) <$> es))%list.
Proof.
  unfold recordAll, occurrences. induction es as [|e es IH]; intros m Ho Hi; cbv zeta; [split_and!; intros; cbn; [lia|lia|by rewrite app_nil_r]|]. cbn [fold_left].
  rewrite (recordPolicyMetrics_ready _ _ _ Ho Hi). destruct (IH (ready e m) eq_refl eq_refl) as (H1 & H2 & H3). split_and!.
  - intros attrs. rewrite H1. cbn [policyDecisionCounter ready]. rewrite Add_lookup. unfold count. cbn [List.filter]. case_bool_decide; cbn [List.length]; lia.
  - intros attrs. rewrite H2. cbn [policyErrorCounter ready List.filter]. destruct (isError e); [|done].
    rewrite Add_lookup. unfold count. cbn [List.filter]. case_bool_decide; cbn [List.length]; lia.
  - rewrite H3. cbn [policyDecisionDuration ready fmap list_fmap]. by rewrite <- app_assoc.
Qed.

(** Every decision is counted once, under its own labels.  When the meter gives
    the three instruments the counter of any set of labels is the number of
    events that carry it, the error counter that of the failed ones, and every
    duration is recorded in order; when it does not, nothing is ever counted
    and no event makes another attempt. *)
Theorem decisions_are_counted d e h es :
  let r := recordAll (d, e, h) es zeroPolicyMetrics in
  if d && e && h then
    (forall attrs, default 0 (policyDecisionCounter r !! attrs) = occurrences attrs decisionAttrs es) /\
    (forall attrs, default 0 (policyErrorCounter r !! attrs) = occurrences attrs errorAttrs (List.filter isError es)) /\
    policyDecisionDuration r = (fun e => (decisionAttrs e, ev_DurationMS e)) <$> es
  else policyDecisionCounter r = ∅ /\ policyErrorCounter r = ∅ /\ policyDecisionDuration r = [].
Proof.
  cbv zeta. destruct (d && e && h) eqn:E.
  - destruct es as [|ev es]; [by split_and!|]. set (m0 := mkPolicyMetrics true true ∅ ∅ []).
    assert (Hm : recordAll (d, e, h) (ev :: es) zeroPolicyMetrics = recordAll (d, e, h) (ev :: es) m0).
    { unfold recordAll. cbn [fold_left]. f_equal. unfold recordPolicyMetrics, makeInstruments. cbn [policyMetricsOnce zeroPolicyMetrics m0]. by rewrite E. }
    rewrite Hm. destruct (recordAll_counts (d, e, h) (ev :: es) m0 eq_refl eq_refl) as (H1 & H2 & H3). by split_and!.
  - assert (H : forall es o, recordAll (d, e, h) es (mkPolicyMetrics o false ∅ ∅ []) = mkPolicyMetrics (match es with [] => o | _ => true end) false ∅ ∅ []).
    { clear es. induction es as [|ev es IH]; intros o; [done|]. unfold recordAll in *. cbn [fold_left].
      assert (recordPolicyMetrics (d, e, h) ev (mkPolicyMetrics o false ∅ ∅ []) = mkPolicyMetrics true false ∅ ∅ []) as ->.
      { unfold recordPolicyMetrics, makeInstruments. cbn [policyMetricsOnce]. destruct o; cbn; [done|]. by rewrite E. }
      rewrite IH. by destruct es. }
    unfold zeroPolicyMetrics. by rewrite H.
Qed.

(** ** What is not exported *)

(** Telemetry says nothing of who asked.  Two requests for the same operation
    with the same three proxy facts leave the same attributes and metrics,
    whatever their users, channels, identifiers and other metadata are. *)
Theorem telemetry_hides_the_caller prepare meter req req' observation decision metadata err ms cfg span m :
  pq_Operation req = pq_Operation req' ->
  (forall key, key ∈ ["proxy_ready"; "proxy_status"; "proxy_circuit_state"] -> pq_Metadata req !! key = pq_Metadata req' !! key) ->
  recordPolicyTelemetry meter (newPolicyTelemetryEventFromResult prepare req observation decision metadata err ms) cfg span m =
  recordPolicyTelemetry meter (newPolicyTelemetryEventFromResult prepare req' observation decision metadata err ms) cfg span m.
Proof.
  intros Ho Hm. assert (Hf : policyDecisionObservationFields req decision = policyDecisionObservationFields req' decision).
  { unfold policyDecisionObservationFields. rewrite Ho. cbn [fold_left]. unfold addObserved. by rewrite !Hm by set_solver. }
  unfold newPolicyTelemetryEventFromResult, newPolicyTelemetryEvent. by rewrite Hf.
Qed.
