(* ===== verification/Classifier.v ===== *)
(** * Classifier: what a request is for (router_policy.go, router_http_classifier.go, the adapter of cervo-rules)

    The policy decides about operations.  Which operation a request asks for is
    read off the request: the capability header, else the first rule that fits
    the method and the path, else the channel.  [proxyHTTPClassificationOptions]
    is the table of the proxy, [NewClassifier] compiles it as the vendored
    adapter does, and [adapterFacts] fills the [httpFacts] that [Policy] starts
    from.  [header] is the request's [Header.Get].  The patterns of the table
    all have the form [/(word|...)(/|$)], which is what [Compile] reads. *)

From S2P Require Import Prelude Types Env Text Split Breaker QuotaRouting Http Health Counters Upstream UpstreamSpec Dispatch Rules Observation Policy AdminProviders Server.
From Stdlib Require Import Lia ZArith Ascii String.
#[local] Open Scope string_scope.
#[local] Open Scope Z_scope.

(** ** The table *)

Definition headerCapability : string := "X-Cervo-Capability".
Definition headerUser : string := "X-Cervo-User".
Definition headerChannel : string := "X-Cervo-Channel".
Definition headerRisk : string := "X-Cervo-Risk".
Definition headerRequestID : string := "X-Request-Id".

Record headerOptions := mkHeaderOptions {
  ho_RequestID : list string;
  ho_User : list string;
  ho_Channel : list string;
  ho_Operation : list string;
  ho_Risk : list string;
}.

Record pathOperation := mkPathOperation {
  po_Methods : list string;
  po_Prefix : string;
  po_Contains : string;
  po_Regex : string;
  po_Operation : string;
}.

Record classificationOptions := mkClassification {
  co_Headers : headerOptions;
  co_PathOperations : list pathOperation;
  co_ChannelOperations : gmap string string;
}.

Definition prefixRule (methods : list string) (prefix operation : string) : pathOperation := mkPathOperation methods prefix "" "" operation.
Definition regexRule (regex operation : string) : pathOperation := mkPathOperation [] "" "" regex operation.

Definition proxyHTTPClassificationOptions : classificationOptions :=
  mkClassification
    (mkHeaderOptions [headerRequestID; "X-Correlation-Id"] [headerUser; "X-User"; "X-OpenClaw-User"] [headerChannel; "X-Channel"; "X-OpenClaw-Channel"]
       [headerCapability] [headerRisk])
    [prefixRule ["POST"] "/v1/chat/completions" OperationChatCompletion;
     prefixRule ["POST"] "/v1/messages" OperationChatCompletion;
     prefixRule ["POST"] "/v1/embeddings" OperationEmbedding;
     prefixRule [] "/telegram" OperationTelegramWebhook;
     regexRule "/(secret|vault)(/|$)" OperationSecretLookup;
     regexRule "/(media|images|audio|video)(/|$)" OperationMediaRequest;
     regexRule "/(models|plan|planning)(/|$)" OperationPlanning]
    {["telegram" := OperationTelegramWebhook]}.

(** ** The adapter *)

Definition NewOperation (value : string) : string := ToLower (TrimSpace value).

(** The words of a pattern [/(word|...)(/|$)]; a word is letters only. *)
Definition letterByte (c : ascii) : bool := byteIn 97 122 c.

Definition Compile (pattern : string) : option (list string) :=
  let words := split_on "|" (TrimSuffix (TrimPrefix pattern "/(") ")(/|$)") in
  if HasPrefix pattern "/(" && HasSuffix pattern ")(/|$)" && forallb (fun w => negb (empty_str w) && forallb letterByte (list_ascii_of_string w)) words
  then Some words else None.

(** The word stands here, and a slash or the end of the text follows. *)
Fixpoint wordThen (w s : string) : bool :=
  match w, s with
  | EmptyString, EmptyString => true
  | EmptyString, String c _ => Ascii.eqb c "/"
  | String a w', String c s' => Ascii.eqb a c && wordThen w' s'
  | _, _ => false
  end.

(** The pattern matches at some position. *)
Fixpoint MatchString (words : list string) (s : string) : bool :=
  match s with
  | EmptyString => false
  | String c s' => Ascii.eqb c "/" && existsb (fun w => wordThen w s') words || MatchString words s'
  end.

Record compiledPathOperation := mkCompiled {
  cp_methods : list string;
  cp_prefix : string;
  cp_contains : string;
  cp_regex : option (list string);
  cp_operation : string;
}.

Record Classifier := mkClassifier {
  cl_Headers : headerOptions;
  cl_ChannelOperations : gmap string string;
  cl_paths : list compiledPathOperation;
}.

Definition compileRule (rule : pathOperation) : string + compiledPathOperation :=
  let compiled := mkCompiled (List.map (fun m => ToUpper (TrimSpace m)) (po_Methods rule)) (ToLower (po_Prefix rule)) (ToLower (po_Contains rule)) in
  if empty_str (TrimSpace (po_Regex rule)) then inr (compiled None (NewOperation (po_Operation rule)))
  else match Compile (po_Regex rule) with
       | Some re => inr (compiled (Some re) (NewOperation (po_Operation rule)))
       | None => inl ("compile path operation regex " +:+ po_Regex rule)
       end.

Fixpoint compileRules (rules : list pathOperation) : string + list compiledPathOperation :=
  match rules with
  | [] => inr []
  | rule :: rules =>
      match compileRule rule with
      | inl err => inl err
      | inr c => match compileRules rules with inl err => inl err | inr cs => inr (c :: cs) end
      end
  end.

(** A nil map of channels answers every lookup like an empty one. *)
Definition NewClassifier (options : classificationOptions) : string + Classifier :=
  match compileRules (co_PathOperations options) with
  | inl err => inl err
  | inr paths =>
      inr (mkClassifier (co_Headers options)
             (list_to_map (List.map (fun '(channel, operation) => (ToLower (TrimSpace channel), NewOperation operation)) (map_to_list (co_ChannelOperations options))))
             paths)
  end.

Definition newHTTPClassifier (options : classificationOptions) : string + Classifier := NewClassifier options.

(** [None] is the panic of a process that cannot start. *)
Definition mustNewProxyHTTPClassifier (options : classificationOptions) : option Classifier :=
  match newHTTPClassifier options with inl _ => None | inr classifier => Some classifier end.

Definition proxyHTTPClassifier : option Classifier := mustNewProxyHTTPClassifier proxyHTTPClassificationOptions.

Fixpoint firstHeader (header : string -> string) (headers : list string) : string :=
  match headers with
  | [] => ""
  | h :: headers => let value := TrimSpace (header h) in if negb (empty_str value) then value else firstHeader header headers
  end.

Definition ruleFits (method path : string) (rule : compiledPathOperation) : bool :=
  (match cp_methods rule with [] => true | ms => existsb (str_eq method) ms end) &&
  (empty_str (cp_prefix rule) || HasPrefix path (cp_prefix rule)) &&
  (empty_str (cp_contains rule) || Contains path (cp_contains rule)) &&
  match cp_regex rule with None => true | Some re => MatchString re path end.

Definition inferPathOperation (c : Classifier) (method path : string) : string :=
  match List.find (ruleFits (ToUpper method) (ToLower path)) (cl_paths c) with Some rule => cp_operation rule | None => "" end.

(** [Classifier.FactsFromHTTPRequest] of the adapter. *)
Definition adapterFacts (c : Classifier) (method path : string) (header : string -> string) : httpFacts :=
  let get names := firstHeader header (names (cl_Headers c)) in
  let operation := if negb (empty_str (get ho_Operation)) then NewOperation (get ho_Operation) else "" in
  let operation := if empty_str operation then inferPathOperation c method path else operation in
  let operation :=
    if empty_str operation && negb (empty_str (get ho_Channel))
    then default "" (cl_ChannelOperations c !! ToLower (TrimSpace (get ho_Channel))) else operation in
  mkHttpFacts (get ho_RequestID) (get ho_User) (get ho_Channel) (get ho_Risk) operation.

(** ** Patterns and path components *)

Lemma wordThen_head w : noByte "/" w -> forall s, wordThen w s = true <-> List.hd "" (split_on "/" s) = w.
Proof.
  induction w as [|a w IH]; intros Hw [|c s]; cbn [wordThen split_on]; [done| |done|].
  - destruct (Ascii.eqb c "/") eqn:E; [done|]. split; [done|]. by destruct (split_on "/" s).
  - apply noByte_cons in Hw as [Ha Hw]. specialize (IH Hw s). rewrite andb_true_iff, IH. split.
    + intros [->%Ascii.eqb_eq H]. rewrite Ha. destruct (split_on "/" s) eqn:Es; [by destruct (split_on_nil "/" s)|]. by rewrite <- H.
    + destruct (Ascii.eqb c "/") eqn:Ec; [done|]. destruct (split_on "/" s) eqn:Es; [by destruct (split_on_nil "/" s)|].
      intros [= -> <-]. by rewrite Ascii.eqb_refl.
Qed.

(** The pattern asks whether some component of the path, after its first slash,
    is one of the words. *)
Lemma MatchString_components words s : Forall (noByte "/") words ->
  MatchString words s = true <-> exists w, w ∈ words /\ w ∈ List.tl (split_on "/" s).
Proof.
  intros Hw. induction s as [|c s IH]; cbn [MatchString split_on]; [split; [done|]; intros (w & _ & H); by apply not_elem_of_nil in H|].
  assert (Hne : split_on "/" s = List.hd "" (split_on "/" s) :: List.tl (split_on "/" s)) by (destruct (split_on "/" s) eqn:E; [by destruct (split_on_nil "/" s)|done]).
  rewrite orb_true_iff, IH. destruct (Ascii.eqb c "/") eqn:Ec; simpl.
  - rewrite existsb_exists. rewrite Forall_forall in Hw. split.
    + intros [(w & Hin%list_elem_of_In & H)|(w & H1 & H2)]; exists w; rewrite Hne; (split; [done|]); apply elem_of_cons; [left|by right].
      symmetry. apply wordThen_head; [by apply Hw|done].
    + intros (w & H1 & H2). rewrite Hne in H2. apply elem_of_cons in H2 as [H2|H2]; [left|right; by exists w].
      exists w. rewrite <- list_elem_of_In. split; [done|]. apply wordThen_head; [by apply Hw|done].
  - destruct (split_on "/" s) as [|h t]; [done|]. cbn [List.tl]. split; [intros [?|H]; [done|exact H]|by right].
Qed.

(** A slash stands for itself, and no rune of what is before it goes past it. *)
Lemma ToLower_slash s t : ToLower (s +:+ String "/" t) = ToLower s +:+ String "/" (ToLower t).
Proof.
  unfold ToLower, lowerText. rewrite list_ascii_app. cbn [list_ascii_of_string].
  rewrite foldWide_app by discriminate. rewrite (foldWide_eq _ _ _ ("/"%char :: _)). cbn [wideHead Prelude.strip_prefix].
  change (Ascii.eqb (byte 196) "/") with false. change (Ascii.eqb (byte 226) "/") with false. cbv iota. by rewrite fmap_app, string_of_list_app.
Qed.

Lemma ToLower_noSlash s : noByte "/" s -> noByte "/" (ToLower s).
Proof.
  unfold noByte, strAll, ToLower. rewrite list_ascii_of_string_of_list_ascii, !Forall_forall. intros Hs d Hd.
  apply list_elem_of_fmap in Hd as (c & -> & Hc). apply foldWide_bytes in Hc as [Hc%Hs|[-> | ->]]; [|done..].
  revert Hc. clear. by destruct c as [[] [] [] [] [] [] [] []]; vm_compute.
Qed.

Definition proxyClassifier : Classifier := default (mkClassifier (mkHeaderOptions [] [] [] [] []) ∅ []) proxyHTTPClassifier.

Lemma proxyHTTPClassifier_starts : proxyHTTPClassifier = Some proxyClassifier.
Proof. vm_compute. reflexivity. Qed.

(** ** The operation of a request *)

Definition declared (operation : string) : bool := match validateClientOperation operation with None => true | Some _ => false end.

Lemma inferred_is_declared method path : declared (inferPathOperation proxyClassifier method path) = true.
Proof.
  unfold inferPathOperation. destruct (List.find _ _) as [rule|] eqn:E; [|done]. apply find_some in E as [Hin _].
  assert (H : forallb (fun r => declared (cp_operation r)) (cl_paths proxyClassifier) = true) by (vm_compute; reflexivity).
  rewrite forallb_forall in H. by apply H.
Qed.

Lemma channel_is_declared channel : declared (default "" (cl_ChannelOperations proxyClassifier !! channel)) = true.
Proof.
  replace (cl_ChannelOperations proxyClassifier) with ({["telegram" := OperationTelegramWebhook]} : gmap string string) by (vm_compute; reflexivity).
  destruct (decide (channel = "telegram")) as [->|H]; [by vm_compute|]. by rewrite lookup_singleton_ne.
Qed.

(** The process starts with its table; and an operation the proxy derives, from
    the path or from the channel, is one the vocabulary declares, so only a
    request that names a capability itself can be turned away for it. *)
Theorem derived_operation_is_declared method path header :
  proxyHTTPClassifier = Some proxyClassifier /\
  (firstHeader header [headerCapability] = "" -> validateClientOperation (hf_Operation (adapterFacts proxyClassifier method path header)) = None).
Proof.
  split; [exact proxyHTTPClassifier_starts|]. intros Hh.
  assert (Hd : declared (hf_Operation (adapterFacts proxyClassifier method path header)) = true).
  { unfold adapterFacts. cbn [hf_Operation]. change (ho_Operation (cl_Headers proxyClassifier)) with [headerCapability]. rewrite Hh. cbn [empty_str negb].
    match goal with |- context [if ?b then _ else _] => destruct b end; [apply channel_is_declared|apply inferred_is_declared]. }
  unfold declared in Hd. by destruct (validateClientOperation _).
Qed.

(** *** The path of a profile *)

Lemma prefix_component w : noByte "/" w -> forall lp t, String.prefix w (lp +:+ String "/" t) = String.prefix w lp.
Proof.
  induction w as [|a w IH]; intros Hw lp t; [by destruct lp|]. apply noByte_cons in Hw as [Ha Hw]. apply Ascii.eqb_neq in Ha.
  destruct lp as [|c lp].
  - change ("" +:+ String "/" t) with (String "/" t). cbn [String.prefix]. by destruct (ascii_dec a "/").
  - change (String c lp +:+ String "/" t) with (String c (lp +:+ String "/" t)). cbn [String.prefix]. destruct (ascii_dec a c); [by apply IH|done].
Qed.

Lemma prefix_components w u : noByte "/" w -> forall lp t, noByte "/" lp ->
  String.prefix (w +:+ String "/" u) (lp +:+ String "/" t) = str_eq w lp && String.prefix u t.
Proof.
  intros Hw. induction w as [|a w IH]; intros [|c lp] t Hlp.
  - change ("" +:+ String "/" ?x) with (String "/" x). cbn [String.prefix]. by destruct (ascii_dec "/" "/").
  - apply noByte_cons in Hlp as [Hc _]. apply Ascii.eqb_neq in Hc. change ("" +:+ String "/" u) with (String "/" u).
    change (String c lp +:+ ?x) with (String c (lp +:+ x)). cbn [String.prefix]. by destruct (ascii_dec "/" c).
  - apply noByte_cons in Hw as [Hc _]. apply Ascii.eqb_neq in Hc. change ("" +:+ String "/" t) with (String "/" t).
    change (String a w +:+ ?x) with (String a (w +:+ x)). cbn [String.prefix]. by destruct (ascii_dec a "/").
  - apply noByte_cons in Hw as [_ Hw]. apply noByte_cons in Hlp as [_ Hlp]. change (String ?d ?v +:+ ?x) with (String d (v +:+ x)). cbn [String.prefix].
    destruct (ascii_dec a c) as [->|Hac]; [rewrite (IH Hw) by done|].
    + f_equal. apply eq_true_iff_eq. rewrite !str_eq_spec. split; [by intros ->|by intros [=]].
    + symmetry. apply andb_false_iff. left. apply str_eq_false. by intros [=].
Qed.

Definition profilePath (profile : string) : string := "/v1/" +:+ profile +:+ "/chat/completions".

(** The operation the table gives a request for the chat path of a profile. *)
Definition profileOperation (profile : string) : string :=
  let p := ToLower profile in
  if HasPrefix p "messages" then OperationChatCompletion
  else if HasPrefix p "embeddings" then OperationEmbedding
  else if existsb (str_eq p) ["secret"; "vault"] then OperationSecretLookup
  else if existsb (str_eq p) ["media"; "images"; "audio"; "video"] then OperationMediaRequest
  else if existsb (str_eq p) ["models"; "plan"; "planning"] then OperationPlanning
  else "".

Lemma profilePath_match words lp : Forall (noByte "/") words -> noByte "/" lp -> "v1" ∉ words -> "chat" ∉ words -> "completions" ∉ words ->
  MatchString words (profilePath lp) = existsb (str_eq lp) words.
Proof.
  intros Hw Hlp H1 H2 H3. apply eq_true_iff_eq. rewrite MatchString_components, existsb_exists by done.
  assert (Hs : split_on "/" (profilePath lp) = [""; "v1"; lp; "chat"; "completions"]).
  { change (split_on "/" (profilePath lp)) with ("" :: "v1" :: split_on "/" (lp +:+ String "/" "chat/completions")). by rewrite split_on_app. }
  rewrite Hs. cbn [List.tl]. split.
  - intros (w & Hin & Hc). exists lp. rewrite <- list_elem_of_In. split; [|by apply str_eq_spec]. rewrite !elem_of_cons in Hc.
    destruct Hc as [->|[->|[->|[->|Hc]]]]; try done. by apply not_elem_of_nil in Hc.
  - intros (w & Hin%list_elem_of_In & ->%str_eq_spec). exists w. split; [done|]. set_solver.
Qed.

Lemma profile_is_inferred profile : noByte "/" profile -> inferPathOperation proxyClassifier "POST" (profilePath profile) = profileOperation profile.
Proof.
  intros Hp%ToLower_noSlash. unfold inferPathOperation, profileOperation.
  replace (ToLower (profilePath profile)) with (profilePath (ToLower profile)) by (symmetry; change (ToLower ("/v1" +:+ String "/" (profile +:+ String "/" "chat/completions")) = profilePath (ToLower profile)); by rewrite !ToLower_slash).
  generalize dependent (ToLower profile). intros p Hp.
  assert (H1 : HasPrefix (profilePath p) "/v1/chat/completions" = false).
  { change (String.prefix ("chat" +:+ String "/" "completions") (p +:+ String "/" "chat/completions") = false). rewrite prefix_components by (assumption || done || (apply noByte_decide; vm_compute; reflexivity)). by rewrite andb_false_r. }
  assert (H2 : HasPrefix (profilePath p) "/v1/messages" = HasPrefix p "messages") by (apply (prefix_component "messages"); apply noByte_decide; vm_compute; reflexivity).
  assert (H3 : HasPrefix (profilePath p) "/v1/embeddings" = HasPrefix p "embeddings") by (apply (prefix_component "embeddings"); apply noByte_decide; vm_compute; reflexivity).
  assert (H4 : HasPrefix (profilePath p) "/telegram" = false) by done.
  assert (Hm : forall words, existsb (fun w => negb (bool_decide (noByte "/" w)) || existsb (str_eq w) ["v1"; "chat"; "completions"]) words = false ->
            MatchString words (profilePath p) = existsb (str_eq p) words).
  { intros words Hw. assert (Hall : forall w, w ∈ words -> noByte "/" w /\ w <> "v1" /\ w <> "chat" /\ w <> "completions").
    { intros w Hin%list_elem_of_In. destruct (negb (bool_decide (noByte "/" w)) || existsb (str_eq w) ["v1"; "chat"; "completions"]) eqn:E.
      - assert (existsb (fun w => negb (bool_decide (noByte "/" w)) || existsb (str_eq w) ["v1"; "chat"; "completions"]) words = true) as Ht by (apply existsb_exists; by exists w).
        by rewrite Ht in Hw.
      - apply orb_false_iff in E as [E1 E2]. rewrite negb_false_iff in E1. simpl in E2. rewrite !orb_false_iff, !str_eq_false in E2.
        split; [by apply noByte_decide|tauto]. }
    apply profilePath_match; [rewrite Forall_forall; intros w Hin; by apply Hall|done|..]; intros Hin; by destruct (Hall _ Hin) as (_ & ? & ? & ?). }
  replace (cl_paths proxyClassifier) with
    [mkCompiled ["POST"] "/v1/chat/completions" "" None OperationChatCompletion; mkCompiled ["POST"] "/v1/messages" "" None OperationChatCompletion;
     mkCompiled ["POST"] "/v1/embeddings" "" None OperationEmbedding; mkCompiled [] "/telegram" "" None OperationTelegramWebhook;
     mkCompiled [] "" "" (Some ["secret"; "vault"]) OperationSecretLookup; mkCompiled [] "" "" (Some ["media"; "images"; "audio"; "video"]) OperationMediaRequest;
     mkCompiled [] "" "" (Some ["models"; "plan"; "planning"]) OperationPlanning] by (vm_compute; reflexivity).
  change (ToUpper "POST") with "POST". unfold List.find, ruleFits. cbn [cp_methods cp_prefix cp_contains cp_regex].
  rewrite H1, H2, H3, H4, !Hm by (vm_compute; reflexivity). change (existsb (str_eq "POST") ["POST"]) with true. cbn [empty_str andb orb].
  destruct (HasPrefix p "messages"); [done|]. destruct (HasPrefix p "embeddings"); [done|].
  destruct (existsb (str_eq p) ["secret"; "vault"]); [done|]. destruct (existsb (str_eq p) ["media"; "images"; "audio"; "video"]); [done|].
  by destruct (existsb (str_eq p) ["models"; "plan"; "planning"]).
Qed.

Definition channelHeaders : list string := [headerChannel; "X-Channel"; "X-OpenClaw-Channel"].

(** C23: a request on the path of a profile is not always what its handler
    takes it for.  For a POST to [/v1/<profile>/chat/completions] that names
    neither a capability nor a channel, the policy is asked about the operation
    the handler means, whatever that is (the chat handler means a chat
    completion), unless the profile's name, its case folded, begins with
    [messages] or [embeddings] or is one of the words of the table of paths;
    then it is asked about the operation of the table instead. *)
Theorem profile_route_operation env profile header facts :
  noByte "/" profile -> firstHeader header [headerCapability] = "" -> firstHeader header channelHeaders = "" ->
  rf_OperationHint (mergeRequestFacts (FactsFromHTTPRequest env (adapterFacts proxyClassifier "POST" (profilePath profile) header)) facts) =
    (if empty_str (profileOperation profile) then rf_OperationHint facts else profileOperation profile).
Proof.
  intros Hp Hh Hch. unfold mergeRequestFacts, FactsFromHTTPRequest, adapterFacts. cbn [rf_OperationHint hf_Operation].
  change (ho_Operation (cl_Headers proxyClassifier)) with [headerCapability]. change (ho_Channel (cl_Headers proxyClassifier)) with channelHeaders.
  rewrite Hh, Hch, profile_is_inferred by done. cbn [empty_str negb andb]. rewrite !andb_false_r. generalize (profileOperation profile). intros o.
  destruct o as [|c o]; [|by rewrite andb_false_r]. rewrite andb_true_r. by destruct (rf_OperationHint facts).
Qed.

(** A name is one of the table's in any case, the dotted capital I included. *)
Example dotted_media : profileOperation ("med" +:+ String (byte 196) (String (byte 176) "A")) = OperationMediaRequest.
Proof. vm_compute. reflexivity. Qed.

Lemma profile_route_operation_witness :
  rf_OperationHint (mergeRequestFacts (FactsFromHTTPRequest ∅ (adapterFacts proxyClassifier "POST" (profilePath "Vault") (fun _ => ""))) wit_chat) = OperationSecretLookup.
Proof. apply (profile_route_operation ∅ "Vault" (fun _ => "") wit_chat); [apply noByte_decide; vm_compute; reflexivity|vm_compute; reflexivity|vm_compute; reflexivity]. Defined.

Lemma derived_operation_is_declared_witness :
  validateClientOperation (hf_Operation (adapterFacts proxyClassifier "GET" "/x/models/7" (fun _ => ""))) = None.
Proof. apply (proj2 (derived_operation_is_declared "GET" "/x/models/7" (fun _ => ""))). vm_compute. reflexivity. Defined.

(** *** A capability nobody declared *)

(** The caller's word is checked before the policy sees it: a capability header
    the vocabulary does not declare is answered 400, whatever the path and
    whatever the policy, and nothing else of the service changes. *)
Theorem unknown_capability_is_refused encodeError visit svc env runtime decide strict warnings clock telemetry method path header facts bodyLen limits w :
  firstHeader header [headerCapability] <> "" -> validateClientOperation (NewOperation (firstHeader header [headerCapability])) <> None ->
  let '(w', r) := authorizeOperationalRoute encodeError visit svc env runtime (Some decide) strict warnings clock telemetry
                    (adapterFacts proxyClassifier method path header) facts bodyLen limits w in
  r = None /\ otherwise w' = otherwise w /\ rw_statuses (w_writer w') = (rw_statuses (w_writer w) ++ [400])%list.
Proof.
  intros Hne Hun. assert (Hop : hf_Operation (adapterFacts proxyClassifier method path header) = NewOperation (firstHeader header [headerCapability])).
  { unfold adapterFacts. cbn [hf_Operation]. change (ho_Operation (cl_Headers proxyClassifier)) with [headerCapability].
    destruct (empty_str (firstHeader header [headerCapability])) eqn:E; [by apply empty_str_spec in E|]. cbn [negb].
    assert (E' : empty_str (NewOperation (firstHeader header [headerCapability])) = false).
    { unfold validateClientOperation in Hun. by destruct (empty_str (NewOperation _)). }
    cbv zeta. rewrite E'. cbn [andb]. by rewrite E'. }
  unfold authorizeOperationalRoute. change (rf_OperationHint (FactsFromHTTPRequest env ?f)) with (hf_Operation f). rewrite Hop. cbv zeta.
  destruct (validateClientOperation _); [|done]. unfold bind, onWriter, ret. split_and!; [done|done|apply writeJSONError_status].
Qed.

Lemma unknown_capability_is_refused_witness :
  let header := fun h => if str_eq h headerCapability then " Deploy " else "" in
  (authorizeOperationalRoute (fun m => m) (fun m => snd <$> map_to_list m) wit_svc ∅ wit_rules (Some (loadPolicyFlow wit_rules)) false 0 wit_clock wit_telemetry
     (adapterFacts proxyClassifier "POST" "/v1/chat/completions" header) wit_chat 10 None wit_world).2 = None.
Proof.
  intros header.
  pose proof (unknown_capability_is_refused (fun m => m) (fun m => snd <$> map_to_list m) wit_svc ∅ wit_rules (loadPolicyFlow wit_rules) false 0 wit_clock wit_telemetry
     "POST" "/v1/chat/completions" header wit_chat 10 None wit_world) as H.
  destruct (authorizeOperationalRoute _ _ _ _ _ _ _ _ _ _ _ _ _ _ _) as [w r]. apply H; vm_compute; discriminate.
Defined.
