(* ===== verification/Main.v ===== *)
(** * Main: the proxy's process (cmd/main.go, func main)

    What [main] does, in its order, and what it leaves to its deferred calls:
    a body is a computation over the calls made so far, the deferred calls and
    the exit code; any call may panic, and then the deferred calls still run,
    last one first, until one of them ends the process.  The parts called are
    modelled elsewhere ([Server], [Security], [Credentials], [Service],
    [Update]); here they are the calls of a log. *)

From S2P Require Import Prelude Env Net Security Server.
From Stdlib Require Import Lia ZArith String Ascii.
#[local] Open Scope string_scope.
#[local] Open Scope Z_scope.

(** ** Calls and the process *)

Inductive call :=
| RunSubcommand (name : string) (args : list string)
| PrintVersion
| CleanupStaleUpdate
| TelemetryInit
| ConfigureAdminPolicy (host : string)
| WarnPublic (host : string)
| InitializeManagedCredentials
| NewService
| StartScores
| NewMux
| MountProviders
| AnnounceUpdate
| WatchReloads
| NewServer (addr : string) (readTimeout : Z)
| WatchIdle (timeout : Z)
| RunServer
| CancelScores
| CloseService
| TelemetryShutdown
| Exit (code : Z).

Record process := mkProcess {
  log : list call;
  deferred : list (Z -> call);
  code : Z;
}.

(** [None]: the body panicked. *)
Definition body (A : Type) : Type := process -> option A * process.

Definition ret {A} (a : A) : body A := fun p => (Some a, p).
Definition bind {A B} (m : body A) (f : A -> body B) : body B :=
  fun p => let '(r, p) := m p in match r with Some a => f a p | None => (None, p) end.

#[local] Notation "x <- m ;; k" := (bind m (fun x => k)) (at level 100, m at next level, right associativity).
#[local] Notation "m ;; k" := (bind m (fun _ => k)) (at level 100, right associativity).

Definition defer (d : Z -> call) : body unit := fun p => (Some tt, mkProcess (log p) (d :: deferred p) (code p)).
Definition setCode (c : Z) : body unit := fun p => (Some tt, mkProcess (log p) (deferred p) c).
Definition logged (c : call) (p : process) : process := mkProcess (log p ++ [c])%list (deferred p) (code p).

(** What ends a process: [os.Exit] with a code, a body that returned, or a
    panic nobody caught. *)
Inductive ending := Exited (c : Z) | Returned | PanicTrace.

Section main.
Context (lookupIP : string -> option (list (list Z))) (env : environ) (parseDuration : string -> option Z).

(** What the calls answer: whether one panics, the code of a subcommand,
    whether telemetry starts, whether there is a credential store, and what
    happens to the server. *)
Context (panics : call -> bool) (subcommand : string -> list string -> Z) (telemetry hasStore : bool) (life : runEvent).

Definition act (c : call) : body unit := fun p => (if panics c then None else Some tt, logged c p).
Definition when (b : bool) (m : body unit) : body unit := if b then m else ret tt.

Definition host : string := envOrDefault env "HOST" "127.0.0.1".
Definition port : string := envOrDefault env "PORT" "8080".

Definition serveBody : body unit :=
  act CleanupStaleUpdate ;;
  defer Exit ;;
  act TelemetryInit ;;
  when telemetry (defer (fun _ => TelemetryShutdown)) ;;
  act (ConfigureAdminPolicy host) ;;
  when (disabled (configureAdminPolicy lookupIP env host).2) (act (WarnPublic host)) ;;
  act InitializeManagedCredentials ;;
  act NewService ;;
  defer (fun _ => CloseService) ;;
  defer (fun _ => CancelScores) ;;
  act StartScores ;;
  act NewMux ;;
  when hasStore (act MountProviders) ;;
  act AnnounceUpdate ;;
  act WatchReloads ;;
  act (NewServer (host +:+ ":" +:+ port) (readTimeout env)) ;;
  act (WatchIdle (idleTimeoutFromEnv parseDuration env)) ;;
  act RunServer ;;
  when (negb (exitCode (Run true life).1 =? 0)) (setCode (exitCode (Run true life).1)).

(** The deferred calls, until one ends the process; a deferred call that
    panics does not stop the others. *)
Fixpoint runDeferred (ds : list (Z -> call)) (c : Z) (l : list call) (panicking : bool) : list call * ending :=
  match ds with
  | [] => (l, if panicking then PanicTrace else Returned)
  | d :: ds =>
      match d c with
      | Exit c => ((l ++ [Exit c])%list, Exited c)
      | k => runDeferred ds c (l ++ [k])%list (panicking || panics k)
      end
  end.

Definition newProcess : process := mkProcess [] [] 0.

Definition main (args : list string) : list call * ending :=
  match mainCommand args with
  | Subcommand name rest => ([RunSubcommand name rest; Exit (subcommand name rest)], Exited (subcommand name rest))
  | ShowVersion => ([PrintVersion], Returned)
  | Serve =>
      let '(r, p) := serveBody newProcess in
      runDeferred (deferred p) (code p) (log p) (match r with None => true | Some _ => false end)
  end.

(** ** How the process ends *)

Definition starts : list call :=
  ([CleanupStaleUpdate; TelemetryInit; ConfigureAdminPolicy host]
   ++ (if disabled (configureAdminPolicy lookupIP env host).2 then [WarnPublic host] else [])
   ++ [InitializeManagedCredentials; NewService; StartScores; NewMux]
   ++ (if hasStore then [MountProviders] else [])
   ++ [AnnounceUpdate; WatchReloads; NewServer (host +:+ ":" +:+ port) (readTimeout env); WatchIdle (idleTimeoutFromEnv parseDuration env); RunServer])%list.

Definition shutdowns : list call := ([CancelScores; CloseService] ++ (if telemetry then [TelemetryShutdown] else []))%list.

Lemma act_calm c p : panics c = false -> act c p = (Some tt, logged c p).
Proof. intros H. unfold act. by rewrite H. Qed.

(** A process that serves shuts down in order.  When no call panics before the
    deferred ones: the admin policy and the credentials are set before the
    service exists, the scores are loaded before the mux does, and only then a
    server listens; after it the flusher is stopped, then the service closed,
    which writes the tail of its scores, then telemetry flushed, and the exit
    code comes last: 1 exactly when the server ended by itself with an error
    that is not its closing.  A deferred call that panics changes none of it. *)
Theorem process_shuts_down_in_order args :
  mainCommand args = Serve -> Forall (fun c => panics c = false) starts ->
  main args = ((starts ++ shutdowns ++ [Exit (exitCode (Run true life).1)])%list, Exited (exitCode (Run true life).1)).
Proof.
  intros Ha Hp. unfold main. rewrite Ha. unfold serveBody, starts, shutdowns, bind, when, defer, setCode, ret in *.
  rewrite !Forall_app in Hp. destruct Hp as (H1 & H2 & H3 & H4 & H5).
  repeat match goal with H : Forall _ (_ :: _) |- _ => apply Forall_cons in H as [? H] end.
  assert (Hcode : exists b, exitCode (Run true life).1 = if b : bool then 1 else 0).
  { unfold exitCode. destruct (Run true life).1; [by exists true|by exists false]. }
  destruct Hcode as [b Hb]. rewrite Hb.
  destruct (disabled _), hasStore, telemetry, b;
    repeat match goal with H : Forall _ (_ :: _) |- _ => apply Forall_cons in H as [? H] end;
    rewrite !act_calm by done; reflexivity.
Qed.

(** A panic is silent.  Whatever call of the serving process panics once the
    deferred exit is registered, the process ends with code 0, as after a clean
    shutdown, and without the trace of the panic: [os.Exit] is one of the
    deferred calls and runs with a code nobody has set.  Only the clean-up of
    the updater, which runs before, can end in a trace. *)
Theorem startup_panic_exits_clean args :
  mainCommand args = Serve ->
  (main args).2 = if panics CleanupStaleUpdate then PanicTrace
                  else if existsb panics starts then Exited 0 else Exited (exitCode (Run true life).1).
Proof.
  intros Ha. unfold main. rewrite Ha. unfold serveBody, starts, bind, when, defer, setCode, ret.
  destruct (panics CleanupStaleUpdate) eqn:E0; [unfold act; by rewrite E0|].
  assert (Hcode : exists b, exitCode (Run true life).1 = if b : bool then 1 else 0).
  { unfold exitCode. destruct (Run true life).1; [by exists true|by exists false]. }
  destruct Hcode as [b ->].
  destruct (disabled _), hasStore, telemetry, b; unfold act; rewrite E0; cbn [app existsb]; rewrite E0; cbn [orb];
    repeat match goal with |- context [if panics ?c then None else _] => destruct (panics c) eqn:?; [reflexivity|] end; reflexivity.
Qed.
End main.

Definition crashesAt (k : call) (c : call) : bool :=
  match k, c with NewService, NewService => true | RunServer, RunServer => true | _, _ => false end.

Lemma process_shuts_down_in_order_witness :
  (main (fun _ => None) ∅ (fun _ => None) (fun _ => false) (fun _ _ => 0) true false (ServerEnded (Some "bind: address in use") false) ["serve"]).2 = Exited 1.
Proof.
  rewrite process_shuts_down_in_order; [reflexivity|reflexivity|]. apply Forall_forall. intros c _. reflexivity.
Defined.

Lemma startup_panic_exits_clean_witness :
  (main (fun _ => None) ∅ (fun _ => None) (crashesAt NewService) (fun _ _ => 0) true false (ShutdownRequested "idle") []).2 = Exited 0.
Proof. rewrite startup_panic_exits_clean; [vm_compute; reflexivity|reflexivity]. Defined.
