(* ===== verification/Handlers.v ===== *)
(** * Handlers: what the endpoints answer (cmd/main.go newMux, internal/dashboard)

    [Server.serve] says which handler a request gets and what stands in front
    of it; here are the handlers themselves, over the service of [Service], and
    [ServeHTTP], the two put together with the router.  [encode] is the JSON of
    what a handler encodes; [page] is the embedded page, [None] when it cannot
    be read. *)

From S2P Require Import AdminProviders Prelude Float Types Env Text Split Breaker Quota Registry Health TraceRing Counters Http Upstream Rules ModelPolicy Route Net.
From S2P Require Import Vault Credentials Security AdminSessions Server Exposition Update Service.
From Stdlib Require Import Lia ZArith String Ascii.
#[local] Open Scope string_scope.
#[local] Open Scope Z_scope.

Definition dashboardDecisions : Z := 25.

(** What is written as JSON. *)
Inductive payload :=
| PHealth (h : ProxyHealth)
| PDecision (v : traceView)
| PError (message : string)
| PDashboard (h : ProxyHealth) (counters : RouterCounters) (quotas : list QuotaSnapshot) (decisions : list traceView)
| PModelPolicy (h : ModelPolicyHealth)
| PVersion (s : updateStatus)
| PReady (ready : bool) (status : string)
| PNotReloaded (warnings : Z)
| PReloaded (profiles : list string).

Section handlers.
Context `{MapRange} (D : Decoders) (quote : string -> string) (S : Sources) (cr : credentialStore) (ambientKeyPresent : option bool).
Context (encode : payload -> string) (page : option string) (status : updateStatus) (bd : build).

(** The time of the request, and the clock of the loops of a health report. *)
Context (now : Z) (clock : nat -> Z * Z).

Definition setLedger (l : QuotaLedger) (w : world) : world := setScores (w_breakers w) l w.
Definition setPolicy (s : policyState) (sv : RouterService) : RouterService :=
  mkService (sv_static sv) (sv_transport sv) (sv_rules sv) (sv_engine sv) s (sv_sideEffects sv) (sv_admission sv) (sv_secret sv)
    (sv_world sv) (sv_persist sv) (sv_refreshing sv).

(** [routerService.Health()]: the report; buckets whose window is over leave
    the ledger while it is made. *)
Definition serviceHealth (sv : RouterService) : RouterService * ProxyHealth :=
  let w := sv_world sv in
  let '(strict, warnings) := strictAndWarnings (sv_policy sv) in
  let '(l, h) := Health (asStatic (sv_static sv) (sv_policy sv)) (src_env S) cr ambientKeyPresent (w_breakers w) strict (List.length warnings) now clock (w_ledger w) in
  (onWorld (setLedger l) sv, h).

Definition answerJSON (code : option Z) (p : payload) (w : responseWriter) : responseWriter :=
  let w := onHeader (header_Set "Content-Type" "application/json") w in
  Write (encode p) (match code with Some c => WriteHeader c w | None => w end).

Definition decisionHandler (path : string) (sv : RouterService) (w : responseWriter) : responseWriter :=
  match Decision (TrimPrefix path "/decisions/") (w_ring (sv_world sv)) with
  | None => answerJSON (Some 404) (PError "no decision recorded for that id") w
  | Some v => answerJSON None (PDecision v) w
  end.

Definition contentSecurityPolicy : string := "default-src 'self'; style-src 'self' 'unsafe-inline'; script-src 'self' 'unsafe-inline'".

(** [dashboard.Handler] *)
Definition dashboardHandler (w : responseWriter) : responseWriter :=
  match page with
  | None => plainError "dashboard asset missing" 500 w
  | Some html =>
      Write html (onHeader (fun h => header_Set "Content-Security-Policy" contentSecurityPolicy (header_Set "Content-Type" "text/html; charset=utf-8" h)) w)
  end.

Definition stateHandler (sv : RouterService) (w : responseWriter) : RouterService * responseWriter :=
  let '(sv, h) := serviceHealth sv in
  (sv, answerJSON None (PDashboard h (Counters (w_counters (sv_world sv))) (ph_Quotas h) (RecentDecisions dashboardDecisions (w_ring (sv_world sv)))) w).

Definition readyHandler (sv : RouterService) (w : responseWriter) : RouterService * responseWriter :=
  let '(sv, h) := serviceHealth sv in
  (sv, answerJSON (Some (if ph_Ready h then 200 else 503)) (PReady (ph_Ready h) (ph_Status h)) w).

Definition reloadHandler (sv : RouterService) (w : responseWriter) : RouterService * responseWriter :=
  let '(policy, err) := ReloadModelPolicy D quote S (sv_policy sv) in
  let sv := setPolicy policy sv in
  match err with
  | Some warnings => (sv, answerJSON (Some 500) (PNotReloaded warnings) w)
  | None => let '(sv, h) := serviceHealth sv in (sv, answerJSON None (PReloaded (ph_Profiles h)) w)
  end.

(** [writeMetrics] and [writeRouterMetrics] print to the writer; the type of
    the body is left to net/http. *)
Definition metricsHandler (m : proxyMetrics) (sv : RouterService) (w : responseWriter) : RouterService * responseWriter :=
  let '(sv, h) := serviceHealth sv in
  (sv, Write (metricsBody quote h m (version bd) (w_counters (sv_world sv))) w).

(** The handler the mux chose, behind its gate. *)
Definition runHandler (k : handlerKind) (path : string) (m : proxyMetrics) (sv : RouterService) (w : responseWriter) : RouterService * responseWriter :=
  match k with
  | HHealth => let '(sv, h) := serviceHealth sv in (sv, answerJSON None (PHealth h) w)
  | HDecision => (sv, decisionHandler path sv w)
  | HDashboard => (sv, dashboardHandler w)
  | HDashboardState => stateHandler sv w
  | HModelPolicy => (sv, answerJSON None (PModelPolicy (modelPolicyHealth (sv_policy sv))) w)
  | HMetrics => metricsHandler m sv w
  | HReload => reloadHandler sv w
  | HVersion => (sv, answerJSON None (PVersion status) w)
  | HReady => readyHandler sv w
  | HProxy _ | HProfile => (sv, w)
  end.

(** ** The whole server *)

(** The router, called with a key, the ambient flag and a forced profile: it
    works on the world of the service, its writer included. *)
Context (route : string -> bool -> string -> world -> world).
Context (lookupIP : string -> option (list (list Z))) {W : Type} `{SecretStore W} (ce : callEnv) (store : option W).
Context (bindHost : string) (current : adminPolicy).

Definition setWriter (rw : responseWriter) (w : world) : world :=
  mkWorld (w_ledger w) (w_affinity w) (w_cooldowns w) (w_breakers w) (w_counters w) (w_trace w) rw (w_ring w) (w_tick w).

(** A request to the mux of [newMux].  The paths main adds to it are those of
    the console, answered by [AdminProviders.serveAdmin], which has the store of
    keys and not the service. *)
Definition ServeHTTP (method path : string) (header : string -> string) (m : proxyMetrics) (sv : RouterService) : RouterService * responseWriter :=
  match served_action (serve lookupIP (src_env S) ce store bindHost current method path header) with
  | Answer code message => (sv, plainError message code newWriter)
  | CallRouter apiKey ambient forced =>
      let w := route apiKey ambient forced (setWriter newWriter (sv_world sv)) in
      (onWorld (fun _ => w) sv, w_writer w)
  | RunHandler k => runHandler k path m sv newWriter
  end.

(** *** What a handler leaves alone *)

(** Everything but the ledger, which forgets windows that are over. *)
Record sameButLedger (sv sv' : RouterService) : Prop := mkSame {
  same_rules : sv_rules sv' = sv_rules sv;
  same_engine : sv_engine sv' = sv_engine sv;
  same_policy : sv_policy sv' = sv_policy sv;
  same_admission : sv_admission sv' = sv_admission sv;
  same_breakers : w_breakers (sv_world sv') = w_breakers (sv_world sv);
  same_affinity : w_affinity (sv_world sv') = w_affinity (sv_world sv);
  same_counters : w_counters (sv_world sv') = w_counters (sv_world sv);
  same_ring : w_ring (sv_world sv') = w_ring (sv_world sv);
}.

Lemma sameButLedger_refl sv : sameButLedger sv sv.
Proof. by split. Qed.

Lemma serviceHealth_same sv : sameButLedger sv (serviceHealth sv).1.
Proof. unfold serviceHealth. destruct (strictAndWarnings _). destruct (Health _ _ _ _ _ _ _ _ _ _). by split. Qed.

Lemma setPolicy_same sv : setPolicy (sv_policy sv) sv = sv.
Proof. by destruct sv. Qed.

(** What a reload answers and leaves behind. *)
Lemma reloadHandler_spec sv :
  match ReloadModelPolicy D quote S (sv_policy sv) with
  | (_, Some warnings) => reloadHandler sv newWriter = (sv, mkWriter (header_Set "Content-Type" "application/json" ∅) [500] (encode (PNotReloaded warnings)))
  | (policy, None) =>
      let h := serviceHealth (setPolicy policy sv) in
      reloadHandler sv newWriter = (h.1, mkWriter (header_Set "Content-Type" "application/json" ∅) [200] (encode (PReloaded (ph_Profiles h.2)))) /\
      sv_policy h.1 = policy
  end.
Proof.
  assert (Hkeep : forall policy n, ReloadModelPolicy D quote S (sv_policy sv) = (policy, Some n) -> policy = sv_policy sv).
  { unfold ReloadModelPolicy. intros policy n. destruct (strictFailure _); congruence. }
  unfold reloadHandler. destruct (ReloadModelPolicy D quote S (sv_policy sv)) as [policy [n|]].
  - by rewrite (Hkeep policy n eq_refl), setPolicy_same.
  - cbv zeta. rewrite (same_policy _ _ (serviceHealth_same (setPolicy policy sv))). by destruct (serviceHealth (setPolicy policy sv)).
Qed.

Lemma runHandler_same k path m sv w : k <> HReload -> sameButLedger sv (runHandler k path m sv w).1.
Proof.
  intros Hk. destruct k; try done; cbn [runHandler]; try apply sameButLedger_refl;
    unfold stateHandler, readyHandler, metricsHandler; pose proof (serviceHealth_same sv) as Hs; by destruct (serviceHealth sv).
Qed.

Lemma longest_in l : forall best p, fold_left longer (Some <$> l) best = Some p -> best = Some p \/ In p l.
Proof.
  induction l as [|q l IH]; intros best p Hf; [by left|]. apply IH in Hf as [Hf|Hf]; [|by right; right]. unfold longer in Hf.
  destruct best as [b|]; [destruct (_ <? _)%nat|]; simplify_eq; first [by left|by right; left].
Qed.

Lemma muxHandler_reload path : muxHandler path = Some HReload <-> path = "/admin/reload".
Proof.
  split; [|intros ->; vm_compute; reflexivity]. unfold muxHandler. destruct (fold_left _ _ _) as [[p k]|] eqn:E; [|done]. intros [= ->].
  apply longest_in in E as [E|E]; [done|]. apply filter_In in E as [Hin Hm].
  unfold routes in Hin. cbn [In] in Hin. repeat (destruct Hin as [Hin|Hin]; [try discriminate Hin|]); [|done]. injection Hin as <-.
  by apply str_eq_spec in Hm.
Qed.

(** The patterns of the console, which main mounts on the same mux beside those
    of [routes], fit no path of [routes]: what [serveAdmin] answers is answered
    by nobody else. *)
Definition consolePath (path : string) : bool :=
  existsb (str_eq path) ["/admin/providers"; "/admin/session"; "/admin/api/providers"] || existsb (HasPrefix path) ["/admin/assets/"; "/admin/api/providers/"].

Lemma serveAdmin_path {V} `{SecretStore V} Sum256 envA decodeJSON uiFile badURL probe t raw csrfRaw ceA r s (w : V) :
  is_Some (serveAdmin Sum256 envA decodeJSON uiFile badURL probe t raw csrfRaw ceA r s w) <-> consolePath (q_Path r) = true.
Proof.
  unfold serveAdmin, consolePath. cbv zeta. cbn [existsb]. rewrite !orb_false_r.
  destruct (str_eq (q_Path r) "/admin/providers"), (HasPrefix (q_Path r) "/admin/assets/"), (str_eq (q_Path r) "/admin/session"),
    (str_eq (q_Path r) "/admin/api/providers"), (HasPrefix (q_Path r) "/admin/api/providers/"); split; intros Hs; first [done|by eexists|by destruct Hs].
Qed.

Lemma subtree_apart path : HasPrefix path "/v1/" = true \/ HasPrefix path "/decisions/" = true -> consolePath path = false.
Proof.
  unfold consolePath. intros [Hp|Hp]; apply prefix_inv in Hp as [rest ->];
    apply orb_false_iff; cbn [existsb]; rewrite !orb_false_iff, !str_eq_false; by split_and!.
Qed.

Lemma console_paths_are_apart path : consolePath path = true -> muxHandler path = None.
Proof.
  intros Hc. unfold muxHandler. destruct (fold_left _ _ _) as [p|] eqn:Ef; [|done]. exfalso. apply longest_in in Ef as [Ef|Ef]; [done|].
  apply filter_In in Ef as [Hin Hm].
  assert (Hno : forallb (fun q => if HasSuffix q.1 "/" then existsb (str_eq q.1) ["/v1/"; "/decisions/"] else negb (consolePath q.1)) routes = true) by (vm_compute; reflexivity).
  rewrite forallb_forall in Hno. specialize (Hno p Hin). unfold matchesPattern in Hm. destruct (HasSuffix p.1 "/").
  - cbn [existsb] in Hno. rewrite orb_false_r, orb_true_iff, !str_eq_spec in Hno.
    rewrite subtree_apart in Hc; [done|]. destruct Hno as [E|E]; rewrite E in Hm; tauto.
  - apply str_eq_spec in Hm as ->. by rewrite Hc in Hno.
Qed.

(** A handler runs for the pattern the mux found. *)
Lemma serve_handler method path header k :
  served_action (serve lookupIP (src_env S) ce store bindHost current method path header) = RunHandler k -> muxHandler path = Some k.
Proof.
  unfold serve, proxyHandler, gated. destruct (muxHandler path) as [k0|]; [|done].
  destruct k0; cbn [served_action]; repeat case_match; intros; by simplify_eq.
Qed.

Lemma serve_elsewhere method path header m sv : path <> "/admin/reload" ->
  let sv' := (ServeHTTP method path header m sv).1 in
  sv_policy sv' = sv_policy sv /\
  ((exists key ambient forced, served_action (serve lookupIP (src_env S) ce store bindHost current method path header) = CallRouter key ambient forced) \/
   sameButLedger sv sv').
Proof.
  intros Hp. cbv zeta. unfold ServeHTTP. destruct (served_action _) as [code message|key ambient forced|k] eqn:Ea; cbn [fst].
  - split; [done|right; apply sameButLedger_refl].
  - split; [done|left; by exists key, ambient, forced].
  - assert (Hk : k <> HReload) by (intros ->; by apply Hp, muxHandler_reload, (serve_handler _ _ _ _ Ea)).
    pose proof (runHandler_same k path m sv newWriter Hk) as Hs. split; [apply (same_policy _ _ Hs)|by right].
Qed.

Lemma serve_reload method header m sv :
  ServeHTTP method "/admin/reload" header m sv =
    match admin lookupIP (src_env S) bindHost current header with
    | Refused code message => (sv, plainError message code newWriter)
    | Pass => if negb (str_eq method "POST") then (sv, plainError "Method not allowed" 405 newWriter) else reloadHandler sv newWriter
    end.
Proof.
  unfold ServeHTTP, serve. rewrite (proj2 (muxHandler_reload _) eq_refl).
  destruct (admin _ _ _ _ _); cbn [gated served_action]; [|reflexivity]. by destruct (negb (str_eq method "POST")).
Qed.


(** *** What the probes say *)

Lemma serviceHealth_ready sv : ph_Ready (serviceHealth sv).2 =
  anyAvailable (asStatic (sv_static sv) (sv_policy sv)) (w_breakers (sv_world sv)) clock 0 (allKnownAttempts (asStatic (sv_static sv) (sv_policy sv)))
  && negb (sp_strict (sv_policy sv) && (0 <? List.length (sp_warnings (sv_policy sv)))%nat).
Proof.
  unfold serviceHealth, strictAndWarnings, Health.
  destruct (providerReports _ _ _ _ _ _ _ _) as [l1 providers]. destruct (Keys _ _) as [l2 keys]. destruct (quotaSnapshots _ _ _) as [l3 quotas].
  unfold verdictOf. destruct (anyAvailable _ _ _ _ _), (0 <? openCircuits _ _ + _), (sp_strict _ && _); reflexivity.
Qed.

(** The balancer's probe tells the truth and nothing else.  Anyone may ask it;
    it answers 200 exactly when some model of the chains can be tried and the
    policy in force is not one that strict mode refuses, 503 otherwise, and its
    body is made of the readiness and the status word alone. *)
Theorem ready_probe_exact header m sv :
  let ready := anyAvailable (asStatic (sv_static sv) (sv_policy sv)) (w_breakers (sv_world sv)) clock 0 (allKnownAttempts (asStatic (sv_static sv) (sv_policy sv)))
               && negb (sp_strict (sv_policy sv) && (0 <? List.length (sp_warnings (sv_policy sv)))%nat) in
  exists word, (ServeHTTP "GET" "/ready" header m sv).2 =
    mkWriter (header_Set "Content-Type" "application/json" ∅) [if ready then 200 else 503] (encode (PReady ready word)).
Proof.
  cbv zeta. rewrite <- serviceHealth_ready. unfold ServeHTTP.
  change (served_action (serve lookupIP (src_env S) ce store bindHost current "GET" "/ready" header)) with (RunHandler HReady).
  cbn [runHandler]. unfold readyHandler. destruct (serviceHealth sv) as [sv' h]. exists (ph_Status h). reflexivity.
Qed.

(** An operator finds a decision while the ring has it.  For a ring that holds
    the decisions [ts], the newest first, the endpoint of an identifier answers
    with the full view of the decision that has it, reasons included, and 404
    when none has; the identifier is the rest of the path, whatever is in it. *)
Theorem decision_endpoint_exact n ts id sv :
  holds n ts (w_ring (sv_world sv)) ->
  exists found, (forall t, found = Some t <-> t ∈ ts /\ tr_ID t = id) /\
  decisionHandler ("/decisions/" +:+ id) sv newWriter =
    match found with
    | Some t => mkWriter (header_Set "Content-Type" "application/json" ∅) [200] (encode (PDecision (view true t)))
    | None => mkWriter (header_Set "Content-Type" "application/json" ∅) [404] (encode (PError "no decision recorded for that id"))
    end.
Proof.
  intros Hr. exists (rg_byID (w_ring (sv_world sv)) !! id). split; [intros t; apply (h_byID _ _ _ Hr)|].
  unfold decisionHandler. rewrite TrimPrefix_app. unfold Decision, TraceRing.get. by destruct (rg_byID (w_ring (sv_world sv)) !! id).
Qed.
End handlers.

Definition asked (sv : RouterService) (ts : list routeTrace) : RouterService :=
  onWorld (fun w => mkWorld (w_ledger w) (w_affinity w) (w_cooldowns w) (w_breakers w) (w_counters w) (w_trace w) (w_writer w)
    (fold_left (fun r t => TraceRing.add t r) ts (newTraceRing 2)) (w_tick w)) sv.

Lemma decision_endpoint_exact_witness :
  rw_statuses (decisionHandler (fun _ => "{}") ("/decisions/" +:+ "b") (asked demoService []) newWriter) = [404].
Proof.
  destruct (decision_endpoint_exact (fun _ => "{}") 2 [] "b" (asked demoService []) (holds_new 2)) as ([t|] & Hf & ->); [|reflexivity].
  destruct (proj1 (Hf t) eq_refl) as [H _]. by apply not_elem_of_nil in H.
Defined.

Example decisions_are_found :
  rw_statuses (decisionHandler (fun _ => "{}") "/decisions/b" (asked demoService [wit_trace "a"; wit_trace "b"]) newWriter) = [200] /\
  rw_statuses (decisionHandler (fun _ => "{}") "/decisions/a" (asked demoService [wit_trace "a"; wit_trace "b"; wit_trace "c"]) newWriter) = [404].
Proof. by vm_compute. Qed.
